(* ===== verification/_CoqProject ===== *)
-Q . S2P
Prelude.v
DList.v
FreeQueue.v
MemBlock.v
Cpu.v
Locks.v
KernelMap.v
PageFrame.v
Buddy.v
Avl.v
AvlSpec.v
AvlTree.v
Rbtree.v
RbSpec.v
RbInsert.v
RbErase.v
RbWalk.v
RbClient.v
CString.v
CStringSpec.v
ByteOrder.v
Double.v
Printf.v
PrintfSpec.v
Log.v
LogSpec.v
Slab.v
SlabSpec.v
CacheSpec.v
Sv39.v
Sv39Pte.v
Sv39Tree.v
Sv39Map.v
Sv39Unmap.v
Sv39Spec.v
Sv39Free.v
KernelSpec.v
BlockSpec.v
GrowSpec.v
CacheInit.v
VmaArea.v
Vm.v
VmaSpec.v
VmSpec.v
SpaceSpec.v
VmMapSpec.v
VmMemSpec.v
Boot.v
BootSpec.v
EarlyVm.v
EarlySpec.v
VmDemo.v
VmRequests.v
VmFree.v
