(* ===== verification/Prelude.v ===== *)
(** * ACO-OS: a verification library of the kernel

    ACO-OS is a kernel for 64-bit RISC-V in C.  This library models the part of
    [src/] that manages memory, with the data structures, locks and library
    routines below it, and proves what each part promises to the part above.

    ** The program and the files

    From the bottom up; "code" files follow the source function by function and
    name it in the comment before each definition, "Spec" files hold theorems.

    - [Prelude]: the state/fault monad every kernel function is written in, loop
      combinators, object memories, machine integers, [aco/errno.h].
    - [DList]: [aco/list.h], every function and iteration macro on a memory of
      list nodes.  [dlist], [dlists]: rings, and families of disjoint rings.
    - [Avl] (code), [AvlSpec], [AvlTree]: [aco/avlmini.h] and
      [lib/dstructer/avlmini.c].
    - [Rbtree] (code): [aco/rbtree.h] and [lib/dstructer/rbtree.c].  [RbSpec]: its
      memories are those of [AvlSpec], with parent and colour in one word;
      [RbInsert], [RbErase], [RbWalk]: the operations on trees; [RbClient]: a
      caller that only knows the sequence of its nodes.
    - [CString] (code), [CStringSpec]: [lib/string/string.c],
      [lib/math/math.c].  [ByteOrder]: [aco/byteorder.h].  [Double]: the [double]
      of C, by the [SpecFloat] of the Standard Library.  [Printf] (code),
      [PrintfSpec]: [lib/string/vsnprintf.c], floating-point numbers included,
      and [kernel/printf.c].  [Log] (code), [LogSpec]: [module/log], over
      [Printf].
    - [Cpu]: [csr.h], [aco/cpu.h], [kernel/cpu_critical.c].  [Locks]:
      [aco/atomic.h], [aco/spinlock.h], [aco/rwlock.h] over [Cpu].
    - [KernelMap]: the physical memory map, [mm/kernel_map.h].  [PageFrame]: the
      array of frame descriptors, [module/mm/pageframe].
    - [Buddy]: the page allocator, [module/mm/buddy], on [PageFrame] and
      [DList].
    - [MemBlock]: [module/mm/allocators/memblock.c].  [Slab] (code),
      [SlabSpec], [CacheSpec]: [module/mm/kmem_cache], on [Buddy].
      [FreeQueue]: what an allocator of equal objects promises, implemented by
      memory blocks and by slabs.
    - [Sv39] (code): [arch/riscv/mm/vm.c] and [asm/vm.h], on [Buddy].
      [Sv39Pte], [Sv39Tree]: entries and trees of tables; [Sv39Map],
      [Sv39Unmap]: the two walks, against the interface [PageSource] of the page
      allocator; [Sv39Spec]: [Buddy] implements it, and the claims; [Sv39Free]:
      giving back whole trees.
    - [VmaArea], [Vm] (code): [mm/vm.h], [module/mm/vm].  [VmaSpec]: list and
      tree of one address space; [VmSpec]: its self check, refused requests.
    - The composition: [KernelSpec] joins page allocator, object cache and page
      tables over one memory ([kernel_ok]); [BlockSpec] adds blocks of pages
      that others own; [GrowSpec] and [CacheInit] let a cache of objects take
      such blocks as it grows, from its initialisation on; [SpaceSpec] adds an
      address space, whose areas are objects of such a cache ([vm_ok]), and says
      what each step of mapping does; [VmMapSpec] and [VmMemSpec] are the
      requests for devices and for memory; [VmRequests] the specification of all
      of them and its refinement; [VmFree] gives an address space back; [VmDemo]
      is a concrete kernel on which they run.
    - Before all this, the boot: [EarlyVm] (code) is [arch/riscv/mm/kernel_map.c]
      and [early_vm.c], which read the memory map from the device tree and build
      the first page table, on the physical memory; [EarlySpec] its claim.
      [Boot] (code) is [kernel/entry.c] and [aco/init.h], which initialise the
      modules on all harts; [BootSpec] its claims.

    The kernel's objects live in maps from their addresses, one map per C type
    (list nodes, AVL nodes, frame descriptors, slab headers, caches, areas,
    address spaces), so an embedded node has its own address and [container_of]
    is address arithmetic.  What the kernel treats as bytes (strings, pages,
    page tables, memory blocks) is a memory of bytes.  The state of a component
    contains the states of those it calls, as in the code: [frames] in [buddy]
    in [kmem] in [vms]; [zoom] runs a computation on such a part.

    ** How the code is written here

    A kernel function is a computation [M S A].  It returns a value, error codes
    included, or stops with a [fault]: a bad pointer, a failed [ASSERT] (the hart
    spins), a lock that is never released to the hart that waits for it, a
    signed overflow, or exhausted fuel.  That a run ends with [Ok] therefore
    excludes all of these, and every theorem about an operation states the run.
    Integers are [Z] with the wrap-around of their C type written out ([u64],
    [s32], ...).  The configuration is the default one: pages of 4096 bytes,
    orders below 6, assertions on, QEMU virt.

    Concurrency is modelled where the program synchronises: [Locks] interleaves
    the atomic steps of any number of harts, [Boot] the harts that start the
    kernel.  The code between taking a lock and releasing it, and a call of a
    module's initialisation, is a sequential computation.

    ** Fuel

    - A list is walked with one round per node of the list memory ([list_fuel]);
      a tree with one level per node ([avl_fuel]); a string with one round per
      mapped byte: a longer walk would meet a node or byte twice.
    - The merging of the buddy allocator and the levels of page tables are
      bounded by their constants ([MAX_ORDER], three levels), the pages of a
      range by its length.  The early walk gets one level more than there are
      tables, for the call that the code refuses.
    - [_ftoa] and [_etoa] call each other: [_ftoa] gives a large number to [_etoa],
      which scales it and gives it back, three calls in all ([double_text]); more
      would be a fault, and [vsnprintf_clips] is about what a format yields.
    - The theorems show runs that end with [Ok], so the fuel is enough wherever
      their invariants hold; [list_for_each_safe_teardown],
      [avl_tree_clear_all] and [rwlock_alone] state termination itself.

    ** What is proved

    - Page allocation: the allocator never hands out a page twice whatever the
      client does, blocks are coalesced, misuse is caught by the assertions, its
      initialisation establishes the invariant [buddy_wf].
    - Object allocation: a slab and a memory block region refine a queue of free
      objects; a cache of slabs serves its objects, with its slabs moving between
      its three lists, and grows by slabs from the page allocator up to its limit
      or the end of the memory ([cache_serves_growing]); its initialisation makes
      such a cache or gives every page back ([kmem_cache_init_all_or_nothing]).
    - Page tables: mapping a range changes the translation of exactly its pages,
      or of none when it fails, and takes tables from the allocator one by one;
      unmapping; giving back whole trees; entries round-trip.
    - Address spaces: list and tree of a vma implement one ascending sequence of
      disjoint areas; the self check decides the conditions it is meant to
      check; requests that have to be refused change nothing.
    - The whole: from a consistent kernel, any sequence of [vm_iomap],
      [vm_iounmap], [vm_mmap] and [vm_unmap] runs without a fault, answers as a
      small transition system does, failures for want of memory or of objects
      included, and leaves page tables that translate exactly what the areas
      say; the cache of areas grows by slabs on the way when its objects are all
      in use; memory areas never share a physical page with each other, with a
      page table or with any other block ([memory_isolated]).  No page is lost on any path: free pages, tables and blocks
      always add up ([accounted]).  [vma_free] gives everything back but the
      root table ([vma_free_gives_back]).  Addresses lie below 512 GiB, the reach
      of one root table; the kernel's own lists, the descriptors and the address
      space lie outside the pages that are handed out, or in other slabs
      ([layout]).
    - Boot: the early page table is the linear mapping of the kernel and the
      memory after it, and nothing else, made of pages that the memory map no
      longer calls free.  In every interleaving the modules are initialised by
      one hart before any other enters them, and under a fair scheduler all
      harts finish.
    - AVL trees: balance and search order are kept by every operation, the
      interface refines an ordered dictionary, the search is logarithmic.
    - Red-black trees: insertion and removal keep the colour invariant, and with it
      a logarithmic height, at every place of the tree; walks are in order; and
      whatever a client does within the contract of the header, its next call
      returns, and the tree holds the sequence it expects ([rb_client_served]).
    - Locks: readers and writers exclude each other in every interleaving; a
      hart that holds a lock has interrupts masked; critical sections nest.
    - Libraries: lists, strings, byte order; bounded formatting writes the
      prefix of the text that fits and returns its full length.  The logger is a
      list of at most 32 subscribers; its line stays within its buffer.

    Where the code does not do what it means to, the lemma that shows it is
    beside the model ([walk_ignores_ENOMEM], [PGNUM2ORDER_spec], [pages_slfcheck_result],
    [memmove_not_move], [strncpy_writes_past_n], [SDBMHash_ignores_tail],
    [ftoa_halfway_garbage], [ftoa_reads_past_pow10], [etoa_zero],
    [memblock_allocator_init_wraps], [vm_check_keeps_lock]).

    ** What is modelled without theorems, or not modelled

    - Modelled, and used by other theorems where they are called, but without a
      theorem of their own: copies of address spaces ([vma_dup]), the last
      step of [vma_free] ([discard_space], on the cache of vmas), the module
      initialisation of [module/mm/vm], the callbacks of augmented red-black
      trees.
    - The answers of libfdt are a parameter of [kernel_map_init].
    - libfdt, [scripts/dtc] and kconfig are vendored; the messages of the logger are left
      out of the functions that log; assembly and the
      environment calls of the firmware; [module/rttest] tests the components above.
    - Floating-point expressions are evaluated operation by operation, rounded to
      nearest: a compiler that contracts a product and a sum would differ in the
      last digit.
    - The bytes of the stack that the colour of a slab depends on ([stack_after],
      three bytes past a local) are the same list in every call. *)
From stdpp Require Export base option list numbers gmap.
From Stdlib Require Export ZArith Lia.

(** ** Faults and the state/fault monad

    A kernel function is a computation [M S A]: it reads and writes a state [S]
    and either returns a value or stops with a [fault].  A fault is a behaviour
    that the C code leaves undefined or that never returns: a dereference of an
    unmapped address, a failed [ASSERT] (the hart spins in [riscv_assertion]),
    a spinlock taken twice on one hart, a signed overflow, or a loop that
    outlives its fuel. *)

Inductive fault := BadPointer | AssertFailed | Deadlock | Overflow | NoFuel.

#[export] Instance fault_eq_dec : EqDecision fault.
Proof. solve_decision. Defined.

Inductive result (A : Type) :=
  | Ok (a : A)
  | Err (e : fault).
Arguments Ok {A} a.
Arguments Err {A} e.

Definition M (S A : Type) : Type := S -> result (A * S).

Definition ret {S A} (a : A) : M S A := fun s => Ok (a, s).
Definition bind {S A B} (m : M S A) (k : A -> M S B) : M S B := fun s =>
  match m s with
  | Ok (a, s') => k a s'
  | Err e => Err e
  end.

Declare Scope aco_scope.
Delimit Scope aco_scope with aco.
Notation "x ← y ; z" := (bind y (fun x => z))
  (at level 20, y at level 100, z at level 200, only parsing) : aco_scope.
Notation "' x ← y ; z" := (bind y (fun x => z))
  (at level 20, x pattern, y at level 100, z at level 200, only parsing) : aco_scope.
Notation "x ;; z" := (bind x (fun _ => z))
  (at level 100, z at level 200, only parsing, right associativity) : aco_scope.
Open Scope aco_scope.

Definition fail {S A} (e : fault) : M S A := fun _ => Err e.
Definition gets {S A} (f : S -> A) : M S A := fun s => Ok (f s, s).
Definition modify {S} (f : S -> S) : M S unit := fun s => Ok (tt, f s).
Definition ASSERT {S} (b : bool) : M S unit :=
  fun s => if b then Ok (tt, s) else Err AssertFailed.
Definition when {S} (b : bool) (m : M S unit) : M S unit :=
  if b then m else ret tt.

(** Running a computation on a part [T] of a larger state [S]. *)
Definition zoom {S T A} (get : S -> T) (put : T -> S -> S) (m : M T A) : M S A :=
  fun s => match m (get s) with
           | Ok (a, t) => Ok (a, put t s)
           | Err e => Err e
           end.

Lemma bind_Ok {S A B} (m : M S A) (k : A -> M S B) s a s' :
  m s = Ok (a, s') -> bind m k s = k a s'.
Proof. intros H. unfold bind. by rewrite H. Qed.

Lemma bind_Err {S A B} (m : M S A) (k : A -> M S B) s e :
  m s = Err e -> bind m k s = Err e.
Proof. intros H. unfold bind. by rewrite H. Qed.

Lemma bind_inv {S A B} (m : M S A) (k : A -> M S B) s b s'' :
  bind m k s = Ok (b, s'') -> exists a s', m s = Ok (a, s') /\ k a s' = Ok (b, s'').
Proof.
  unfold bind. destruct (m s) as [[a s']|e]; [eauto | done].
Qed.

Lemma bind_bind {S A B C} (m : M S A) (f : A -> M S B) (g : B -> M S C) s :
  bind (bind m f) g s = bind m (fun a => bind (f a) g) s.
Proof. unfold bind. by destruct (m s) as [[a s']|e]. Qed.

Lemma bind_ext {S A B} (m : M S A) (k1 k2 : A -> M S B) s :
  (forall a s', k1 a s' = k2 a s') -> bind m k1 s = bind m k2 s.
Proof. intros H. unfold bind. destruct (m s) as [[a s']|e]; auto. Qed.

Lemma zoom_Ok {S T A} (get : S -> T) (put : T -> S -> S) (m : M T A) s a t :
  m (get s) = Ok (a, t) -> zoom get put m s = Ok (a, put t s).
Proof. intros H. unfold zoom. by rewrite H. Qed.

(** [mstep H] runs the head of a sequence with the equation [H]. *)
Ltac mstep H := rewrite (bind_Ok _ _ _ _ _ H).
(** [minv H] splits a successful run of a sequence. *)
Ltac minv H :=
  let a := fresh "a" in let s := fresh "s" in let Hm := fresh "Hm" in
  apply bind_inv in H as (a & s & Hm & H).

(** ** Loops *)

(** What a loop body does: go on with new locals, or leave with a value. *)
Inductive step (A R : Type) :=
  | Next (a : A)
  | Return (r : R).
Arguments Next {A R} a.
Arguments Return {A R} r.

(** [for_up n i body a] is [for(; i < i + n; i++) body] with locals [a]. *)
Fixpoint for_up {St A R} (n : nat) (i : Z) (body : A -> Z -> M St (step A R)) (a : A) :
    M St (step A R) :=
  match n with
  | O => ret (Next a)
  | S n =>
    r ← body a i;
    match r with
    | Next a => for_up n (i + 1)%Z body a
    | Return r => ret (Return r)
    end
  end.

(** [for_down n body a] is [for(i = n - 1; i >= 0; i--) body]. *)
Fixpoint for_down {St A R} (n : nat) (body : A -> Z -> M St (step A R)) (a : A) :
    M St (step A R) :=
  match n with
  | O => ret (Next a)
  | S n =>
    r ← body a (Z.of_nat n);
    match r with
    | Next a => for_down n body a
    | Return r => ret (Return r)
    end
  end.

Lemma for_up_ind {St A R} (body : A -> Z -> M St (step A R))
    (I : Z -> A -> St -> Prop) (Q : R -> St -> Prop) (hi : Z) :
  (forall i a s, (i < hi)%Z -> I i a s -> exists r s', body a i s = Ok (r, s') /\
     match r with Next a' => I (i + 1)%Z a' s' | Return r => Q r s' end) ->
  forall n i a s, (i + Z.of_nat n)%Z = hi -> I i a s ->
    exists r s', for_up n i body a s = Ok (r, s') /\
      match r with Next a' => I hi a' s' | Return r => Q r s' end.
Proof.
  intros Hb n. induction n as [|n IH]; intros i a s Hn HI.
  - exists (Next a), s. split; [done |]. by replace hi with i by lia.
  - destruct (Hb i a s) as (r & s' & E & Hr); [lia | done |].
    cbn [for_up]. rewrite (bind_Ok _ _ _ _ _ E).
    destruct r as [a' | r]; [| by exists (Return r), s']. apply IH; [lia | done].
Qed.

(** ** Word-addressed object memory

    Objects of one C structure type live in a finite map from their address. *)

Definition NULL : Z := 0.

Section memory.
Context {A : Type}.
Definition load (p : Z) : M (gmap Z A) A :=
  fun m => match m !! p with Some a => Ok (a, m) | None => Err BadPointer end.
Definition update (p : Z) (f : A -> A) : M (gmap Z A) unit :=
  fun m => match m !! p with
           | Some a => Ok (tt, <[p := f a]> m)
           | None => Err BadPointer
           end.

Lemma load_Ok (m : gmap Z A) p a : m !! p = Some a -> load p m = Ok (a, m).
Proof. intros H. unfold load. by rewrite H. Qed.
Lemma update_Ok (m : gmap Z A) p f a :
  m !! p = Some a -> update p f m = Ok (tt, <[p := f a]> m).
Proof. intros H. unfold update. by rewrite H. Qed.
End memory.

(** ** Machine integers *)

Open Scope Z_scope.

Definition u8 (z : Z) : Z := z mod 2 ^ 8.
Definition u16 (z : Z) : Z := z mod 2 ^ 16.
Definition u32 (z : Z) : Z := z mod 2 ^ 32.
Definition u64 (z : Z) : Z := z mod 2 ^ 64.
Definition s32 (z : Z) : Z := (z + 2 ^ 31) mod 2 ^ 32 - 2 ^ 31.
Definition s64 (z : Z) : Z := (z + 2 ^ 63) mod 2 ^ 64 - 2 ^ 63.

Lemma u32_range z : 0 <= u32 z < 2 ^ 32.
Proof. apply Z.mod_pos_bound; lia. Qed.
Lemma u64_range z : 0 <= u64 z < 2 ^ 64.
Proof. apply Z.mod_pos_bound; lia. Qed.
Lemma u32_small z : 0 <= z < 2 ^ 32 -> u32 z = z.
Proof. apply Z.mod_small. Qed.
Lemma u64_small z : 0 <= z < 2 ^ 64 -> u64 z = z.
Proof. apply Z.mod_small. Qed.
Lemma s32_small z : - 2 ^ 31 <= z < 2 ^ 31 -> s32 z = z.
Proof. intros H. unfold s32. rewrite Z.mod_small; lia. Qed.
Lemma u64_add_wrap z : - 2 ^ 64 <= z < 0 -> u64 z = z + 2 ^ 64.
Proof.
  intros H. unfold u64. rewrite <- (Z.mod_add z 1) by lia.
  rewrite Z.mod_small; lia.
Qed.

(** ** Lists *)

Lemma last_cons_default {A} (a d : A) (l : list A) :
  List.last (a :: l) d = List.last l a.
Proof.
  revert a d. induction l as [|b l IH]; intros a d; [done |].
  transitivity (List.last (b :: l) d); [done |]. by rewrite IH, (IH b a).
Qed.

(** ** Error numbers *)

(** [src/include/aco/errno.h:15-15 ENOMEM] *)
Definition ENOMEM : Z := 12.
(** [src/include/aco/errno.h:17-17 EFAULT] *)
Definition EFAULT : Z := 14.
(** [src/include/aco/errno.h:20-20 EEXIST] *)
Definition EEXIST : Z := 17.
(** [src/include/aco/errno.h:25-25 EINVAL] *)
Definition EINVAL : Z := 22.
(** [src/include/aco/errno.h:4-4 EPERM] *)
Definition EPERM : Z := 1.
(** [src/include/aco/errno.h:119-119 ENOBUFS] *)
Definition ENOBUFS : Z := 105.
