(* ===== verification/DList.v ===== *)
(** * The intrusive doubly linked list of [include/aco/list.h]

    [struct list_head] objects live in a memory [heap] keyed by their address.
    Every operation of the header is a computation on that memory, pointer
    store by pointer store.  [dlist h head l] says that [head] is the head of a
    well-formed ring whose entries are the addresses [l], in order; [dlists]
    is the same for a family of pairwise disjoint rings, the form in which the
    allocators (buddy pools, slab lists, areas of a vma) use the header. *)
From S2P Require Import Prelude.

(** [src/include/aco/list.h:29-32 struct list_head] *)
Record list_head := mk_list_head { prev : Z; next : Z }.

#[export] Instance list_head_eq_dec : EqDecision list_head.
Proof. solve_decision. Defined.

Abbreviation heap := (gmap Z list_head).

Definition get_next (p : Z) : M heap Z := n ← load p; ret (next n).
Definition get_prev (p : Z) : M heap Z := n ← load p; ret (prev n).
Definition set_next (p v : Z) : M heap unit :=
  update p (fun n => mk_list_head (prev n) v).
Definition set_prev (p v : Z) : M heap unit :=
  update p (fun n => mk_list_head v (next n)).

(** ** Operations *)

(** [src/include/aco/list.h:55-59 INIT_LIST_HEAD] *)
Definition INIT_LIST_HEAD (head : Z) : M heap unit :=
  set_next head head;; set_prev head head.

(** [src/include/aco/list.h:61-65 INIT_NODE] *)
Definition INIT_NODE (node : Z) : M heap unit :=
  set_next node NULL;; set_prev node NULL.

(** [src/include/aco/list.h:72-80 list_add] *)
Definition list_add (node head : Z) : M heap unit :=
  nxt ← get_next head;
  set_prev nxt node;;
  set_next node nxt;;
  set_prev node head;;
  set_next head node.

(** [src/include/aco/list.h:82-85 node_add_aft] *)
Definition node_add_aft (list_node join_node : Z) : M heap unit :=
  list_add join_node list_node.

(** [src/include/aco/list.h:92-100 list_add_tail] *)
Definition list_add_tail (node head : Z) : M heap unit :=
  prv ← get_prev head;
  set_next prv node;;
  set_next node head;;
  set_prev node prv;;
  set_prev head node.

(** [src/include/aco/list.h:102-105 node_add_bef] *)
Definition node_add_bef (list_node join_node : Z) : M heap unit :=
  list_add_tail join_node list_node.

(** [src/include/aco/list.h:123-139 list_del] The build does not define
    [LIST_POISONING], so the removed node is cleared with null pointers. *)
Definition list_del (node : Z) : M heap unit :=
  nxt ← get_next node;
  prv ← get_prev node;
  set_prev nxt prv;;
  set_next prv nxt;;
  set_prev node NULL;;
  set_next node NULL.

(** [src/include/aco/list.h:148-152 list_del_init] *)
Definition list_del_init (node : Z) : M heap unit :=
  list_del node;; INIT_LIST_HEAD node.

(** [src/include/aco/list.h:160-163 list_empty] *)
Definition list_empty (head : Z) : M heap bool :=
  nxt ← get_next head; ret (nxt =? head).

(** [src/include/aco/list.h:171-174 list_is_singular] *)
Definition list_is_singular (head : Z) : M heap bool :=
  e ← list_empty head;
  if e then ret false
  else p ← get_prev head; n ← get_next head; ret (p =? n).

(** [src/include/aco/list.h:186-200 list_splice] *)
Definition list_splice (list head : Z) : M heap unit :=
  head_first ← get_next head;
  list_first ← get_next list;
  list_last ← get_prev list;
  e ← list_empty list;
  if e then ret tt
  else
    set_next head list_first;;
    set_prev list_first head;;
    set_next list_last head_first;;
    set_prev head_first list_last.

(** [src/include/aco/list.h:212-227 list_splice_tail] *)
Definition list_splice_tail (list head : Z) : M heap unit :=
  head_last ← get_prev head;
  list_first ← get_next list;
  list_last ← get_prev list;
  e ← list_empty list;
  if e then ret tt
  else
    set_prev head list_last;;
    set_next list_last head;;
    set_prev list_first head_last;;
    set_next head_last list_first.

(** [src/include/aco/list.h:241-246 list_splice_init] *)
Definition list_splice_init (list head : Z) : M heap unit :=
  list_splice list head;; INIT_LIST_HEAD list.

(** [src/include/aco/list.h:260-265 list_splice_tail_init] *)
Definition list_splice_tail_init (list head : Z) : M heap unit :=
  list_splice_tail list head;; INIT_LIST_HEAD list.

(** [src/include/aco/list.h:279-300 list_cut_position] *)
Definition list_cut_position (head_to head_from node : Z) : M heap unit :=
  head_from_first ← get_next head_from;
  e ← list_empty head_from;
  if e then ret tt
  else if head_from =? node then INIT_LIST_HEAD head_to
  else
    node_next ← get_next node;
    set_next head_from node_next;;
    from_next ← get_next head_from;
    set_prev from_next head_from;;
    set_prev head_to node;;
    set_next node head_to;;
    set_next head_to head_from_first;;
    to_next ← get_next head_to;
    set_prev to_next head_to.

(** [src/include/aco/list.h:310-314 list_move] *)
Definition list_move (node head : Z) : M heap unit :=
  list_del node;; list_add node head.

(** [src/include/aco/list.h:323-328 list_move_tail] *)
Definition list_move_tail (node head : Z) : M heap unit :=
  list_del node;; list_add_tail node head.

(** [src/include/aco/list.h:348-349 list_first_entry] The embedded node; the
    client subtracts the member offset ([container_of]). *)
Definition list_first_entry (head : Z) : M heap Z := get_next head.

(** [src/include/aco/list.h:359-360 list_last_entry] *)
Definition list_last_entry (head : Z) : M heap Z := get_prev head.

Section iterate.
Context {St A R : Type} (hp : St -> heap).

Definition next_in (p : Z) : M St Z :=
  fun s => match hp s !! p with
           | Some n => Ok (next n, s)
           | None => Err BadPointer
           end.

(** [src/include/aco/list.h:371-372 list_for_each] The cursor moves to
    [node->next] read after the body. *)
Fixpoint list_for_each (fuel : nat) (head node : Z)
    (body : A -> Z -> M St (step A R)) (a : A) : M St (step A R) :=
  match fuel with
  | O => fail NoFuel
  | S fuel =>
    if node =? head then ret (Next a)
    else
      r ← body a node;
      match r with
      | Return r => ret (Return r)
      | Next a => nxt ← next_in node; list_for_each fuel head nxt body a
      end
  end.

(** [src/include/aco/list.h:402-404 list_for_each_safe] The next cursor is
    read before the body, which may unlink the current node. *)
Fixpoint list_for_each_safe (fuel : nat) (head node : Z)
    (body : A -> Z -> M St (step A R)) (a : A) : M St (step A R) :=
  match fuel with
  | O => fail NoFuel
  | S fuel =>
    safe ← next_in node;
    if node =? head then ret (Next a)
    else
      r ← body a node;
      match r with
      | Return r => ret (Return r)
      | Next a => list_for_each_safe fuel head safe body a
      end
  end.
End iterate.

(** Loops over a ring of a memory of [n] nodes make at most [n] rounds. *)
Definition list_fuel (h : heap) : nat := S (size h).

(** ** The two pointer fields as partial functions *)

Definition nxt (h : heap) (p : Z) : option Z := next <$> h !! p.
Definition prv (h : heap) (p : Z) : option Z := prev <$> h !! p.

Lemma get_next_Ok h p q : nxt h p = Some q -> get_next p h = Ok (q, h).
Proof.
  unfold nxt, get_next, bind, load, ret. destruct (h !! p); naive_solver.
Qed.

Lemma get_prev_Ok h p q : prv h p = Some q -> get_prev p h = Ok (q, h).
Proof.
  unfold prv, get_prev, bind, load, ret. destruct (h !! p); naive_solver.
Qed.

(** [stores h h' T fn fp]: [h'] is reached from [h] by pointer stores into the
    nodes [T], and its fields are [fn] and [fp]. *)
Definition fset (p v : Z) (f : Z -> option Z) : Z -> option Z :=
  fun q => if decide (q = p) then Some v else f q.

Record stores (h h' : heap) (T : list Z) (fn fp : Z -> option Z) : Prop := {
  stores_nxt : forall q, nxt h' q = fn q;
  stores_prv : forall q, prv h' q = fp q;
  stores_dom : dom h' = dom h;
  stores_frame : forall q, q ∉ T -> h' !! q = h !! q
}.

Lemma stores_refl h : stores h h [] (nxt h) (prv h).
Proof. by split. Qed.

Lemma stores_in_dom h h' T fn fp p :
  stores h h' T fn fp -> p ∈ dom h -> exists n, h' !! p = Some n.
Proof. intros Hs Hp. rewrite <- (stores_dom _ _ _ _ _ Hs) in Hp. by apply elem_of_dom. Qed.

Lemma set_next_Ok h h1 T p v fn fp :
  stores h h1 T fn fp -> p ∈ dom h ->
  exists h2, set_next p v h1 = Ok (tt, h2) /\ stores h h2 (p :: T) (fset p v fn) fp.
Proof.
  intros Hs Hp. destruct (stores_in_dom _ _ _ _ _ _ Hs Hp) as [n E].
  destruct Hs as [Hn Hv Hd Hf].
  eexists. split; [by apply update_Ok |]. split.
  - intros q. unfold nxt, fset. destruct (decide (q = p)) as [-> |].
    + by rewrite lookup_insert_eq.
    + rewrite lookup_insert_ne by done. apply Hn.
  - intros q. rewrite <- Hv. unfold prv. destruct (decide (q = p)) as [-> |].
    + by rewrite lookup_insert_eq, E.
    + by rewrite lookup_insert_ne.
  - rewrite <- Hd. apply dom_insert_lookup_L. eauto.
  - intros q Hq. rewrite lookup_insert_ne by set_solver. apply Hf. set_solver.
Qed.

Lemma set_prev_Ok h h1 T p v fn fp :
  stores h h1 T fn fp -> p ∈ dom h ->
  exists h2, set_prev p v h1 = Ok (tt, h2) /\ stores h h2 (p :: T) fn (fset p v fp).
Proof.
  intros Hs Hp. destruct (stores_in_dom _ _ _ _ _ _ Hs Hp) as [n E].
  destruct Hs as [Hn Hv Hd Hf].
  eexists. split; [by apply update_Ok |]. split.
  - intros q. rewrite <- Hn. unfold nxt. destruct (decide (q = p)) as [-> |].
    + by rewrite lookup_insert_eq, E.
    + by rewrite lookup_insert_ne.
  - intros q. unfold prv, fset. destruct (decide (q = p)) as [-> |].
    + by rewrite lookup_insert_eq.
    + rewrite lookup_insert_ne by done. apply Hv.
  - rewrite <- Hd. apply dom_insert_lookup_L. eauto.
  - intros q Hq. rewrite lookup_insert_ne by set_solver. apply Hf. set_solver.
Qed.

Lemma stores_get_next h h1 T fn fp p v :
  stores h h1 T fn fp -> fn p = Some v -> get_next p h1 = Ok (v, h1).
Proof. intros Hs H. apply get_next_Ok. by rewrite (stores_nxt _ _ _ _ _ Hs). Qed.
Lemma stores_get_prev h h1 T fn fp p v :
  stores h h1 T fn fp -> fp p = Some v -> get_prev p h1 = Ok (v, h1).
Proof. intros Hs H. apply get_prev_Ok. by rewrite (stores_prv _ _ _ _ _ Hs). Qed.

(** Running one pointer store of a sequence; [Hs] is the current [stores] fact
    and is replaced by that of the next memory. *)
Ltac run_store L Hs :=
  let h := fresh "h" in let E := fresh "E" in let Hs' := fresh Hs in
  edestruct L as (h & E & Hs'); [exact Hs | | mstep E || rewrite E; clear E Hs; rename Hs' into Hs].
Tactic Notation "next_store" hyp(Hs) := run_store set_next_Ok Hs.
Tactic Notation "prev_store" hyp(Hs) := run_store set_prev_Ok Hs.

Lemma is_Some_nxt h p : is_Some (nxt h p) <-> p ∈ dom h.
Proof. unfold nxt. by rewrite fmap_is_Some, elem_of_dom. Qed.
Lemma is_Some_prv h p : is_Some (prv h p) <-> p ∈ dom h.
Proof. unfold prv. by rewrite fmap_is_Some, elem_of_dom. Qed.

Lemma fset_eq p v f : fset p v f p = Some v.
Proof. unfold fset. by rewrite decide_True. Qed.
Lemma fset_ne p v f q : q <> p -> fset p v f q = f q.
Proof. intros. unfold fset. by rewrite decide_False. Qed.

(** ** Chains of linked nodes *)

Definition link (fn fp : Z -> option Z) (a b : Z) : Prop :=
  fn a = Some b /\ fp b = Some a.

Fixpoint links (fn fp : Z -> option Z) (l : list Z) : Prop :=
  match l with
  | a :: (b :: _) as l' => link fn fp a b /\ links fn fp l'
  | _ => True
  end.

Lemma links_app fn fp l1 x l2 :
  links fn fp (l1 ++ x :: l2) <-> links fn fp (l1 ++ [x]) /\ links fn fp (x :: l2).
Proof.
  induction l1 as [|a l1 IH]; simpl.
  - tauto.
  - destruct l1 as [|b l1]; simpl in *; tauto.
Qed.

Lemma links_app2 fn fp l1 a b l2 :
  links fn fp (l1 ++ a :: b :: l2) <->
  links fn fp (l1 ++ [a]) /\ link fn fp a b /\ links fn fp (b :: l2).
Proof. rewrite links_app. done. Qed.

(** The links of a chain only read the next fields of all its nodes but the
    last and the prev fields of all its nodes but the first. *)
Lemma links_frame fn fp fn' fp' l :
  links fn fp l ->
  (forall q, q ∈ removelast l -> fn' q = fn q) ->
  (forall q, q ∈ tail l -> fp' q = fp q) ->
  links fn' fp' l.
Proof.
  induction l as [|a l IH]; [done |]. destruct l as [|b l]; [done |].
  intros [[Ha Hb] Hl] Hn Hp. split.
  - split.
    + rewrite Hn; [done |]. change (a ∈ a :: removelast (b :: l)). set_solver.
    + rewrite Hp; [done |]. simpl. set_solver.
  - apply IH; [done | |].
    + intros q Hq. apply Hn. change (q ∈ a :: removelast (b :: l)). set_solver.
    + intros q Hq. apply Hp. simpl in *. set_solver.
Qed.

Lemma removelast_snoc (l : list Z) x : removelast (l ++ [x]) = l.
Proof. rewrite removelast_app by done. simpl. by rewrite app_nil_r. Qed.

(** ** Rings *)

Definition ring (head : Z) (l : list Z) : list Z := head :: l ++ [head].

Definition dlist (h : heap) (head : Z) (l : list Z) : Prop :=
  NoDup (head :: l) /\ links (nxt h) (prv h) (ring head l).

(** In a ring, a node has one successor and one predecessor. *)
Lemma ring_split head l pre a b post :
  NoDup (head :: l) -> ring head l = pre ++ a :: b :: post ->
  (a ∉ pre) /\ (a ∉ removelast (b :: post)) /\ (b ∉ post) /\ (b ∉ tail (pre ++ [a])).
Proof.
  intros Hnd Heq.
  assert (E1 : head :: l = pre ++ a :: removelast (b :: post)).
  { transitivity (removelast (ring head l)).
    - unfold ring. by rewrite app_comm_cons, removelast_snoc.
    - rewrite Heq. rewrite removelast_app by done. done. }
  assert (E2 : l ++ [head] = tail (pre ++ [a]) ++ b :: post).
  { transitivity (tail (ring head l)); [done |]. rewrite Heq.
    destruct pre; simpl; [done |]. by rewrite <- app_assoc. }
  rewrite E1 in Hnd.
  assert (Hnd2 : NoDup (l ++ [head])).
  { rewrite <- (Permutation_cons_append l head). rewrite E1. done. }
  rewrite E2 in Hnd2.
  apply NoDup_app in Hnd as (_ & H1 & H2). apply NoDup_app in Hnd2 as (_ & H3 & H4).
  apply NoDup_cons in H2 as [H2 _]. apply NoDup_cons in H4 as [H4 _].
  split_and!; try done.
  - intros Hin. apply (H1 _ Hin). set_solver.
  - intros Hin. apply (H3 _ Hin). set_solver.
Qed.

Lemma in_removelast (q : Z) l : q ∈ removelast l -> q ∈ l.
Proof.
  induction l as [|a [|b l] IH]; simpl; [done | set_solver |].
  change (removelast (a :: b :: l)) with (a :: removelast (b :: l)).
  rewrite !elem_of_cons in *. naive_solver.
Qed.

Lemma in_tail (q : Z) l : q ∈ tail l -> q ∈ l.
Proof. destruct l; set_solver. Qed.

(** Linking [x] between two neighbours, and removing it from between them. *)
Lemma links_insert fn fp pre a b post x :
  links fn fp (pre ++ a :: b :: post) ->
  x ∉ pre ++ a :: b :: post ->
  a ∉ pre -> a ∉ removelast (b :: post) -> b ∉ post -> b ∉ tail (pre ++ [a]) ->
  links (fset a x (fset x b fn)) (fset x a (fset b x fp)) (pre ++ a :: x :: b :: post).
Proof.
  rewrite !links_app2. intros (H1 & _ & H2) Hx Ha1 Ha2 Hb1 Hb2.
  assert (x <> a /\ x <> b /\ (x ∉ pre) /\ (x ∉ post)) as (?&?&?&?) by set_solver.
  split_and!.
  - eapply links_frame; [exact H1 | |].
    + rewrite removelast_snoc. intros q Hq. rewrite !fset_ne; [done | set_solver..].
    + intros q Hq. rewrite !fset_ne; [done | intros -> ..]; [done |].
      apply in_tail in Hq. set_solver.
  - split; [by rewrite fset_eq | rewrite fset_eq; done].
  - change (link (fset a x (fset x b fn)) (fset x a (fset b x fp)) x b /\
      links (fset a x (fset x b fn)) (fset x a (fset b x fp)) (b :: post)).
    split.
    + split; [by rewrite fset_ne, fset_eq | by rewrite fset_ne, fset_eq].
    + eapply links_frame; [exact H2 | |].
      * intros q Hq. rewrite !fset_ne; [done | intros -> ..].
        -- apply in_removelast in Hq. set_solver.
        -- done.
      * intros q Hq. simpl in Hq. rewrite !fset_ne; [done | set_solver..].
Qed.

Lemma links_remove fn fp pre a b post x :
  links fn fp (pre ++ a :: x :: b :: post) ->
  x ∉ pre ++ a :: b :: post ->
  a ∉ pre -> a ∉ removelast (b :: post) -> b ∉ post -> b ∉ tail (pre ++ [a]) ->
  links (fset x NULL (fset a b fn)) (fset x NULL (fset b a fp)) (pre ++ a :: b :: post).
Proof.
  rewrite !links_app2. intros (H1 & _ & _ & H2) Hx Ha1 Ha2 Hb1 Hb2.
  assert (x <> a /\ x <> b /\ (x ∉ pre) /\ (x ∉ post)) as (?&?&?&?) by set_solver.
  split_and!.
  - eapply links_frame; [exact H1 | |].
    + rewrite removelast_snoc. intros q Hq. rewrite !fset_ne; [done | set_solver..].
    + intros q Hq. rewrite !fset_ne; [done | intros -> ..]; [done |].
      apply in_tail in Hq. set_solver.
  - split; rewrite fset_ne, fset_eq; done.
  - eapply links_frame; [exact H2 | |].
    + intros q Hq. rewrite !fset_ne; [done | intros -> ..]; [done |].
      apply in_removelast in Hq. set_solver.
    + intros q Hq. simpl in Hq. rewrite !fset_ne; [done | set_solver..].
Qed.

Lemma links_ext fn fp fn' fp' l :
  (forall q, fn' q = fn q) -> (forall q, fp' q = fp q) -> links fn fp l -> links fn' fp' l.
Proof. intros Hn Hp H. by eapply links_frame. Qed.

Lemma links_is_Some fn fp l q : links fn fp l -> q ∈ removelast l -> is_Some (fn q).
Proof.
  induction l as [|a [|b l] IH]; [set_solver | set_solver |].
  intros [[Ha _] Hl]. change (removelast (a :: b :: l)) with (a :: removelast (b :: l)).
  rewrite elem_of_cons. intros [-> | Hq]; eauto.
Qed.

Lemma dlist_dom h head l q : dlist h head l -> q ∈ head :: l -> q ∈ dom h.
Proof.
  intros [_ Hl] Hq. rewrite <- is_Some_nxt. eapply links_is_Some; [exact Hl |].
  unfold ring. by rewrite app_comm_cons, removelast_snoc.
Qed.

Lemma dlist_links h head l pre a b post :
  dlist h head l -> ring head l = pre ++ a :: b :: post -> nxt h a = Some b /\ prv h b = Some a.
Proof. intros [_ Hl] E. rewrite E, links_app2 in Hl. apply Hl. Qed.

(** ** Linking a node between two neighbours of a ring *)

Lemma list_add_between h head l pre a b post x :
  dlist h head l -> ring head l = pre ++ a :: b :: post -> x ∈ dom h -> x ∉ head :: l ->
  exists h', list_add x a h = Ok (tt, h') /\
    stores h h' [a; x; x; b] (fset a x (fset x b (nxt h))) (fset x a (fset b x (prv h))).
Proof.
  intros Hd E Hx Hni.
  destruct (dlist_links _ _ _ _ _ _ _ Hd E) as [Hab Hba].
  assert (Ha : a ∈ dom h) by (apply is_Some_nxt; eauto).
  assert (Hb : b ∈ dom h) by (apply is_Some_prv; eauto).
  unfold list_add. pose proof (stores_refl h) as Hs.
  mstep (get_next_Ok _ _ _ Hab).
  prev_store Hs; [done |]. next_store Hs; [done |]. prev_store Hs; [done |].
  next_store Hs; [done |]. eauto.
Qed.

Definition last_node (head : Z) (l : list Z) : Z := List.last l head.
Definition first_node (head : Z) (l : list Z) : Z := List.hd head l.

Lemma ring_at_any head l1 l2 :
  exists pre post, forall m,
    ring head (l1 ++ m ++ l2) = pre ++ last_node head l1 :: m ++ first_node head l2 :: post.
Proof.
  assert (exists pre, head :: l1 = pre ++ [last_node head l1]) as [pre Hpre].
  { unfold last_node. destruct l1 as [|y l1]; [by exists [] |].
    exists (head :: removelast (y :: l1)).
    rewrite (app_removelast_last head (l := y :: l1)) at 1 by done. done. }
  assert (exists post, l2 ++ [head] = first_node head l2 :: post) as [post Hpost].
  { destruct l2; simpl; eauto. }
  exists pre, post. intros m. unfold ring.
  rewrite <- !app_assoc, Hpost, app_comm_cons, Hpre. by rewrite <- app_assoc.
Qed.

Lemma ring_at head l1 l2 :
  exists pre post,
    ring head (l1 ++ l2) = pre ++ last_node head l1 :: first_node head l2 :: post /\
    forall x, ring head (l1 ++ x :: l2) = pre ++ last_node head l1 :: x :: first_node head l2 :: post.
Proof.
  destruct (ring_at_any head l1 l2) as (pre & post & H). exists pre, post.
  split; [apply (H []) | intros x; apply (H [x])].
Qed.

Lemma ring_mem head l q : q ∈ ring head l <-> q ∈ head :: l.
Proof. unfold ring. set_solver. Qed.

Lemma NoDup_insert head (l1 l2 : list Z) x :
  NoDup (head :: l1 ++ l2) -> x ∉ head :: l1 ++ l2 -> NoDup (head :: l1 ++ x :: l2).
Proof.
  intros Hnd Hx.
  assert (E : head :: l1 ++ x :: l2 ≡ₚ x :: head :: l1 ++ l2)
    by (rewrite <- Permutation_middle; apply Permutation_swap).
  rewrite E. by constructor.
Qed.

Lemma NoDup_remove_mid head (l1 l2 : list Z) x :
  NoDup (head :: l1 ++ x :: l2) -> NoDup (head :: l1 ++ l2) /\ (x ∉ head :: l1 ++ l2).
Proof.
  intros Hnd.
  assert (E : head :: l1 ++ x :: l2 ≡ₚ x :: head :: l1 ++ l2)
    by (rewrite <- Permutation_middle; apply Permutation_swap).
  rewrite E in Hnd. apply NoDup_cons in Hnd. tauto.
Qed.

(** The memory [h'] is [h] with stores to the nodes of [T] only. *)
Definition touches (h h' : heap) (T : list Z) : Prop :=
  dom h' = dom h /\ forall q, q ∉ T -> h' !! q = h !! q.

Lemma stores_touches h h' T T' fn fp :
  stores h h' T fn fp -> (forall q, q ∈ T -> q ∈ T') -> touches h h' T'.
Proof. intros [_ _ Hd Hf] HT. split; [done |]. intros q Hq. apply Hf. set_solver. Qed.

Lemma last_node_in head l : last_node head l ∈ head :: l.
Proof.
  unfold last_node. revert head. induction l as [|y [|z l] IH]; intros head; simpl in *.
  - set_solver.
  - set_solver.
  - specialize (IH head). set_solver.
Qed.
Lemma first_node_in head l : first_node head l ∈ head :: l.
Proof. destruct l; simpl; set_solver. Qed.

Lemma list_add_at h head l1 l2 x :
  dlist h head (l1 ++ l2) -> x ∈ dom h -> x ∉ head :: l1 ++ l2 ->
  exists h', list_add x (last_node head l1) h = Ok (tt, h') /\
    dlist h' head (l1 ++ x :: l2) /\ touches h h' (x :: head :: l1 ++ l2).
Proof.
  intros Hd Hx Hni. destruct (ring_at head l1 l2) as (pre & post & E & E').
  destruct (list_add_between _ _ _ _ _ _ _ x Hd E Hx Hni) as (h' & Hrun & Hs).
  destruct Hd as [Hnd Hl]. destruct (ring_split _ _ _ _ _ _ Hnd E) as (N1 & N2 & N3 & N4).
  exists h'. split; [done |]. split; [split |].
  - by apply NoDup_insert.
  - rewrite E'. rewrite E in Hl.
    eapply links_ext; [apply Hs | apply Hs |]. apply links_insert; try done.
    rewrite <- E, ring_mem. done.
  - eapply stores_touches; [exact Hs |]. pose proof (last_node_in head l1).
    pose proof (first_node_in head l2). set_solver.
Qed.

Lemma fset_comm p q v w f r : p <> q -> fset p v (fset q w f) r = fset q w (fset p v f) r.
Proof. intros. unfold fset. repeat case_decide; congruence. Qed.

Lemma list_add_tail_at h head l1 l2 x :
  dlist h head (l1 ++ l2) -> x ∈ dom h -> x ∉ head :: l1 ++ l2 ->
  exists h', list_add_tail x (first_node head l2) h = Ok (tt, h') /\
    dlist h' head (l1 ++ x :: l2) /\ touches h h' (x :: head :: l1 ++ l2).
Proof.
  intros Hd Hx Hni. destruct (ring_at head l1 l2) as (pre & post & E & E').
  pose proof (last_node_in head l1) as Ha. pose proof (first_node_in head l2) as Hb.
  destruct (dlist_links _ _ _ _ _ _ _ Hd E) as [Hab Hba].
  assert (Ha' : last_node head l1 ∈ dom h) by (apply is_Some_nxt; eauto).
  assert (Hb' : first_node head l2 ∈ dom h) by (apply is_Some_prv; eauto).
  assert (x <> last_node head l1) by set_solver.
  assert (x <> first_node head l2) by set_solver.
  unfold list_add_tail. pose proof (stores_refl h) as Hs. mstep (get_prev_Ok _ _ _ Hba).
  next_store Hs; [done |]. next_store Hs; [done |]. prev_store Hs; [done |].
  prev_store Hs; [done |]. eexists. split; [done |].
  destruct Hd as [Hnd Hl]. destruct (ring_split _ _ _ _ _ _ Hnd E) as (N1 & N2 & N3 & N4).
  split; [split |].
  - by apply NoDup_insert.
  - rewrite E'. rewrite E in Hl.
    eapply links_ext; [| | eapply links_insert; try done].
    + intros q. rewrite (stores_nxt _ _ _ _ _ Hs). by apply fset_comm.
    + intros q. rewrite (stores_prv _ _ _ _ _ Hs). by apply fset_comm.
    + rewrite <- E, ring_mem. done.
  - eapply stores_touches; [exact Hs |]. set_solver.
Qed.

Lemma list_del_at h head l1 l2 x :
  dlist h head (l1 ++ x :: l2) ->
  exists h', list_del x h = Ok (tt, h') /\
    dlist h' head (l1 ++ l2) /\ h' !! x = Some (mk_list_head NULL NULL) /\
    touches h h' (head :: l1 ++ x :: l2).
Proof.
  intros Hd. destruct (ring_at head l1 l2) as (pre & post & E & E').
  specialize (E' x).
  destruct (NoDup_remove_mid _ _ _ _ (proj1 Hd)) as [Hnd Hni].
  pose proof (last_node_in head l1) as Ha. pose proof (first_node_in head l2) as Hb.
  destruct (dlist_links _ _ _ _ _ _ _ Hd E') as [Hax Hxa].
  assert (E2 : ring head (l1 ++ x :: l2) =
    (pre ++ [last_node head l1]) ++ x :: first_node head l2 :: post)
    by (rewrite E'; by rewrite <- app_assoc).
  destruct (dlist_links _ _ _ _ _ _ _ Hd E2) as [Hxb Hbx].
  assert (forall q, q ∈ head :: l1 ++ x :: l2 -> q ∈ dom h) as Hdom
    by (intros q; by apply dlist_dom).
  unfold list_del. pose proof (stores_refl h) as Hs.
  mstep (get_next_Ok _ _ _ Hxb). mstep (get_prev_Ok _ _ _ Hxa).
  prev_store Hs; [apply Hdom; set_solver |]. next_store Hs; [apply Hdom; set_solver |].
  prev_store Hs; [apply Hdom; set_solver |]. next_store Hs; [apply Hdom; set_solver |].
  eexists. split; [done |].
  destruct (ring_split _ _ _ _ _ _ Hnd E) as (N1 & N2 & N3 & N4).
  split; [split; [done |] | split].
  - rewrite E. destruct Hd as [_ Hl]. rewrite E' in Hl.
    eapply links_ext; [apply Hs | apply Hs |]. apply links_remove; try done.
    rewrite <- E, ring_mem. done.
  - pose proof (stores_nxt _ _ _ _ _ Hs x) as Hn. pose proof (stores_prv _ _ _ _ _ Hs x) as Hp.
    rewrite fset_eq in Hn, Hp. unfold nxt in Hn. unfold prv in Hp.
    destruct (_ !! x) as [[p n]|]; simplify_eq/=. done.
  - eapply stores_touches; [exact Hs |]. set_solver.
Qed.

(** ** Whole-list operations *)

Lemma INIT_LIST_HEAD_Ok h head :
  head ∈ dom h ->
  exists h', INIT_LIST_HEAD head h = Ok (tt, h') /\ dlist h' head [] /\ touches h h' [head].
Proof.
  intros Hd. unfold INIT_LIST_HEAD. pose proof (stores_refl h) as Hs.
  next_store Hs; [done |]. prev_store Hs; [done |]. eexists. split; [done |]. split; [split |].
  - apply NoDup_singleton.
  - split; [| done]. split; rewrite ?(stores_nxt _ _ _ _ _ Hs), ?(stores_prv _ _ _ _ _ Hs);
      by rewrite fset_eq.
  - eapply stores_touches; [exact Hs | set_solver].
Qed.

Lemma INIT_NODE_Ok h p :
  p ∈ dom h -> exists h', INIT_NODE p h = Ok (tt, h') /\ touches h h' [p].
Proof.
  intros Hd. unfold INIT_NODE. pose proof (stores_refl h) as Hs.
  destruct (set_next_Ok _ _ _ _ NULL _ _ Hs Hd) as (h1 & E1 & Hs1). mstep E1.
  destruct (set_prev_Ok _ _ _ _ NULL _ _ Hs1 Hd) as (h2 & E2 & Hs2).
  exists h2. split; [done |]. eapply stores_touches; [done | set_solver].
Qed.

Lemma dlist_frame h h' head l :
  dlist h head l -> (forall q, q ∈ head :: l -> h' !! q = h !! q) -> dlist h' head l.
Proof.
  intros [Hnd Hl] Hf. split; [done |]. eapply links_frame; [exact Hl | |].
  - intros q Hq. unfold nxt. rewrite Hf; [done |]. apply ring_mem. by apply in_removelast.
  - intros q Hq. unfold prv. rewrite Hf; [done |]. apply ring_mem. by apply in_tail.
Qed.

Lemma dlist_first h head l : dlist h head l -> nxt h head = Some (first_node head l).
Proof.
  intros [_ Hl]. destruct l as [|y l]; simpl in *; apply Hl.
Qed.

Lemma dlist_last h head l : dlist h head l -> prv h head = Some (last_node head l).
Proof.
  intros Hd. destruct (ring_at head l []) as (pre & post & E & _).
  rewrite app_nil_r in E. simpl in E. destruct (dlist_links _ _ _ _ _ _ _ Hd E). done.
Qed.

Lemma list_empty_Ok h head l :
  dlist h head l -> list_empty head h = Ok (bool_decide (l = []), h).
Proof.
  intros Hd. unfold list_empty. mstep (get_next_Ok _ _ _ (dlist_first _ _ _ Hd)).
  unfold ret. do 2 f_equal. destruct l as [|y l]; simpl.
  - by rewrite Z.eqb_refl.
  - destruct Hd as [Hnd _]. apply NoDup_cons in Hnd as [Hni _].
    apply Z.eqb_neq. set_solver.
Qed.

Lemma links_join fn fp l1 l2 a b :
  links fn fp (l1 ++ [a]) -> link fn fp a b -> links fn fp (b :: l2) ->
  links fn fp (l1 ++ a :: b :: l2).
Proof. rewrite links_app2. tauto. Qed.

Lemma ring_links fn fp head l :
  links fn fp (ring head l) <->
  link fn fp head (first_node head l) /\ links fn fp (l ++ [head]).
Proof. unfold ring. by destruct l. Qed.

Lemma links_snoc fn fp l a b :
  links fn fp (l ++ [a; b]) <-> links fn fp (l ++ [a]) /\ link fn fp a b.
Proof. rewrite links_app2. simpl. tauto. Qed.

Lemma ring_inner fn fp head l1 x l2 :
  links fn fp (ring head (l1 ++ x :: l2)) ->
  links fn fp (l1 ++ [x]) /\ links fn fp (l2 ++ [head]).
Proof.
  rewrite ring_links, <- app_assoc. simpl. rewrite links_app. intros (_ & H1 & H2).
  split; [done |]. destruct l2; apply H2.
Qed.

Lemma list_snoc (l : list Z) : l <> [] -> exists l' e, l = l' ++ [e].
Proof. destruct l as [|e l _] using rev_ind; [done | eauto]. Qed.

Lemma last_node_snoc head l e : last_node head (l ++ [e]) = e.
Proof. unfold last_node. by rewrite List.last_last. Qed.

Lemma first_node_cases head l : l = [] \/ first_node head l ∈ l.
Proof. destruct l; simpl; [by left | right; set_solver]. Qed.

(** The first node of a list is no successor in it. *)
Lemma first_not_tail head l :
  NoDup (head :: l) -> first_node head l ∉ tail (l ++ [head]).
Proof. destruct l as [|y l]; simpl; rewrite !NoDup_cons; set_solver. Qed.

Lemma first_not_tail' head l : NoDup l -> first_node head l ∉ tail l.
Proof. destruct l as [|y l]; simpl; rewrite ?NoDup_cons; set_solver. Qed.

(** A chain [l2 ++ [e]], disjoint from the ring, put between two neighbours. *)
Lemma links_splice fn fp pre a b post l2 e f :
  links fn fp (pre ++ a :: b :: post) ->
  links fn fp (l2 ++ [e]) -> NoDup (l2 ++ [e]) -> f = first_node e l2 ->
  (forall q, q ∈ l2 ++ [e] -> q ∉ pre ++ a :: b :: post) ->
  a ∉ pre -> a ∉ removelast (b :: post) -> b ∉ post -> b ∉ tail (pre ++ [a]) ->
  links (fset e b (fset a f fn)) (fset b e (fset f a fp)) (pre ++ a :: l2 ++ e :: b :: post).
Proof.
  intros Hl Hl2 Hnd -> Hdis Ha1 Ha2 Hb1 Hb2. rewrite links_app2 in Hl.
  destruct Hl as (H1 & _ & H2).
  set (f := first_node e l2).
  assert (Hf : f ∈ l2 ++ [e]) by (subst f; destruct l2; simpl; set_solver).
  assert (Hft : f ∉ tail (l2 ++ [e])).
  { replace f with (first_node e (l2 ++ [e])) by (by destruct l2). by apply first_not_tail'. }
  assert (Hcons : exists t, l2 ++ e :: b :: post = f :: t) by (subst f; destruct l2; simpl; eauto).
  clearbody f.
  assert (He : e ∈ l2 ++ [e]) by set_solver.
  assert (Hel : e ∉ l2) by (apply NoDup_app in Hnd; set_solver).
  assert (Hsep : forall p q, p ∈ l2 ++ [e] -> q ∈ pre ++ a :: b :: post -> p <> q)
    by (intros p q Hp Hq ->; by apply (Hdis q)).
  assert (Ha : a ∈ pre ++ a :: b :: post) by set_solver.
  assert (Hb : b ∈ pre ++ a :: b :: post) by set_solver.
  assert (Hpre : forall q, q ∈ pre -> q ∈ pre ++ a :: b :: post) by set_solver.
  assert (Hpost : forall q, q ∈ post -> q ∈ pre ++ a :: b :: post) by set_solver.
  apply links_app. split; [| destruct Hcons as [t Ht]; rewrite Ht; split].
  - eapply links_frame; [exact H1 | |].
    + rewrite removelast_snoc. intros q Hq.
      rewrite !fset_ne; [done | by intros -> | apply not_eq_sym; auto].
    + intros q Hq. rewrite !fset_ne; [done | apply not_eq_sym; apply Hsep | by intros ->]; [done |].
      apply in_tail in Hq. set_solver.
  - split; [rewrite fset_ne by (apply not_eq_sym; auto) | rewrite fset_ne by auto]; apply fset_eq.
  - rewrite <- Ht. apply links_join.
    + eapply links_frame; [exact Hl2 | |].
      * rewrite removelast_snoc. intros q Hq. assert (q ∈ l2 ++ [e]) by set_solver.
        rewrite !fset_ne; [done | by auto | by intros ->].
      * intros q Hq. pose proof (in_tail _ _ Hq).
        rewrite !fset_ne; [done | by intros -> | by auto].
    + split; by rewrite fset_eq.
    + eapply links_frame; [exact H2 | |].
      * intros q Hq. rewrite !fset_ne; [done | by intros -> |].
        apply not_eq_sym, Hsep; [done |]. apply in_removelast in Hq. set_solver.
      * intros q Hq. simpl in Hq. rewrite !fset_ne; [done | | by intros ->].
        apply not_eq_sym; auto.
Qed.

Section splice.
Context (h : heap) (head lst : Z) (la lb l2 : list Z).
Context (Hd1 : dlist h head (la ++ lb)) (Hd2 : dlist h lst l2).
Context (Hdis : forall q, q ∈ lst :: l2 -> q ∉ head :: la ++ lb).

Lemma splice_NoDup : NoDup (head :: la ++ l2 ++ lb).
Proof using All.
  destruct Hd1 as [H1 _], Hd2 as [H2 _].
  assert (E : head :: la ++ l2 ++ lb ≡ₚ l2 ++ head :: la ++ lb).
  { rewrite (Permutation_app_swap_app la l2 lb). by rewrite Permutation_middle. }
  rewrite E. apply NoDup_app. apply NoDup_cons in H2 as [_ H2]. split; [done |].
  split; [| done]. intros q Hq. apply Hdis. by right.
Qed.

(** The ring after the entries [l2 = l3 ++ [e]] are linked in, whatever the
    order of the four stores. *)
Lemma splice_dlist l3 e h' :
  l2 = l3 ++ [e] ->
  (forall q, nxt h' q = fset e (first_node head lb)
     (fset (last_node head la) (first_node lst l2) (nxt h)) q) ->
  (forall q, prv h' q = fset (first_node head lb) e
     (fset (first_node lst l2) (last_node head la) (prv h)) q) ->
  dlist h' head (la ++ l2 ++ lb).
Proof using All.
  intros El Hn Hp. split; [apply splice_NoDup |].
  destruct Hd1 as [Hnd1 Hl1], Hd2 as [Hnd2 Hl2]. rewrite El in *.
  destruct (ring_at_any head la lb) as (pre & post & E).
  pose proof (E []) as E0. simpl in E0.
  destruct (ring_split _ _ _ _ _ _ Hnd1 E0) as (N1 & N2 & N3 & N4).
  apply ring_inner in Hl2 as [Hl2 _]. rewrite E0 in Hl1.
  rewrite E, <- app_assoc. eapply links_ext; [exact Hn | exact Hp |].
  apply links_splice; try done.
  - by apply NoDup_cons in Hnd2 as [_ ?].
  - by destruct l3.
  - intros q Hq. rewrite <- E0, ring_mem. apply Hdis. by right.
Qed.

Lemma splice_touch (q : Z) :
  l2 <> [] ->
  q ∈ [last_node head la; first_node head lb; first_node lst l2; last_node lst l2] ->
  q ∈ head :: la ++ l2 ++ lb.
Proof using All.
  intros Hne Hq. pose proof (last_node_in head la) as Ha.
  pose proof (first_node_in head lb) as Hb.
  destruct (first_node_cases lst l2) as [| Hf]; [done |].
  assert (Hl : last_node lst l2 ∈ l2).
  { destruct (list_snoc l2 Hne) as (l3 & e & ->). rewrite last_node_snoc. set_solver. }
  rewrite !elem_of_cons in Hq. rewrite elem_of_cons, !elem_of_app in *.
  destruct Hq as [-> | [-> | [-> | [-> | []%elem_of_nil]]]]; tauto.
Qed.

Ltac splice_start E :=
  mstep (get_next_Ok _ _ _ (dlist_first _ _ _ Hd2));
  mstep (get_prev_Ok _ _ _ (dlist_last _ _ _ Hd2));
  mstep (list_empty_Ok _ _ _ Hd2);
  case_bool_decide as E; [rewrite E in *; rewrite ?app_nil_r in *; by exists h |].

Lemma splice_dom (q : Z) : q ∈ head :: la ++ lb \/ q ∈ lst :: l2 -> q ∈ dom h.
Proof using All. intros [Hq | Hq]; [by apply (dlist_dom _ _ _ _ Hd1) | by apply (dlist_dom _ _ _ _ Hd2)]. Qed.

Lemma list_splice_Ok :
  la = [] ->
  exists h', list_splice lst head h = Ok (tt, h') /\ dlist h' head (la ++ l2 ++ lb) /\
    touches h h' (head :: la ++ l2 ++ lb).
Proof using All.
  intros Ela. unfold list_splice.
  mstep (get_next_Ok _ _ _ (dlist_first _ _ _ Hd1)).
  assert (Ef : first_node head (la ++ lb) = first_node head lb) by (by rewrite Ela).
  assert (El : last_node head la = head) by (by rewrite Ela).
  rewrite Ef. splice_start E.
  pose proof (stores_refl h) as Hs.
  pose proof splice_dom as Hdom. pose proof (first_node_in head lb).
  pose proof (first_node_in lst l2). pose proof (last_node_in lst l2).
  next_store Hs; [apply Hdom; set_solver |]. prev_store Hs; [apply Hdom; set_solver |].
  next_store Hs; [apply Hdom; set_solver |]. prev_store Hs; [apply Hdom; set_solver |].
  eexists. split; [done |]. split.
  - destruct (list_snoc l2 E) as (l3 & e & El2).
    assert (Ee : last_node lst l2 = e) by (rewrite El2; apply last_node_snoc).
    eapply (splice_dlist l3 e); [done | |]; intros q;
      rewrite ?(stores_nxt _ _ _ _ _ Hs), ?(stores_prv _ _ _ _ _ Hs), ?El, ?Ee; done.
  - eapply stores_touches; [exact Hs |]. intros q Hq. apply splice_touch; [done |].
    rewrite El. clear -Hq. set_solver.
Qed.

Lemma list_splice_tail_Ok :
  lb = [] ->
  exists h', list_splice_tail lst head h = Ok (tt, h') /\ dlist h' head (la ++ l2 ++ lb) /\
    touches h h' (head :: la ++ l2 ++ lb).
Proof using All.
  intros Elb. unfold list_splice_tail.
  mstep (get_prev_Ok _ _ _ (dlist_last _ _ _ Hd1)).
  assert (Ef : last_node head (la ++ lb) = last_node head la) by (by rewrite Elb, app_nil_r).
  assert (El : first_node head lb = head) by (by rewrite Elb).
  rewrite Ef. splice_start E.
  pose proof (stores_refl h) as Hs.
  pose proof splice_dom as Hdom. pose proof (last_node_in head la).
  pose proof (first_node_in lst l2). pose proof (last_node_in lst l2).
  prev_store Hs; [apply Hdom; set_solver |]. next_store Hs; [apply Hdom; set_solver |].
  prev_store Hs; [apply Hdom; set_solver |]. next_store Hs; [apply Hdom; set_solver |].
  eexists. split; [done |].
  destruct (list_snoc l2 E) as (l3 & e & El2).
  assert (Ee : last_node lst l2 = e) by (rewrite El2; apply last_node_snoc).
  split; [eapply (splice_dlist l3 e); [done | |]; intros q |].
  - rewrite (stores_nxt _ _ _ _ _ Hs), El, Ee. apply fset_comm.
    intros Heq. apply (Hdis e); [rewrite El2; set_solver |]. rewrite <- Heq.
    pose proof (last_node_in head la). set_solver.
  - rewrite (stores_prv _ _ _ _ _ Hs), El, Ee. apply fset_comm.
    destruct (first_node_cases lst l2) as [|Hin]; [done |].
    intros Heq. apply (Hdis (first_node lst l2)); [by right | rewrite Heq; by left].
  - eapply stores_touches; [exact Hs |]. intros q Hq. apply splice_touch; [done |].
    rewrite El. clear -Hq. set_solver.
Qed.
End splice.

(** Deleting a node and adding it again at either end of the same or of
    another ring. *)
Lemma list_move_Ok h head l1 l2 x :
  dlist h head (l1 ++ x :: l2) ->
  (exists h', list_move x head h = Ok (tt, h') /\ dlist h' head (x :: l1 ++ l2)) /\
  (exists h', list_move_tail x head h = Ok (tt, h') /\ dlist h' head (l1 ++ l2 ++ [x])).
Proof.
  intros Hd. destruct (list_del_at _ _ _ _ _ Hd) as (h1 & E1 & Hd1 & Hx & [Hdom _]).
  pose proof (NoDup_remove_mid _ _ _ _ (proj1 Hd)) as [_ Hni].
  assert (x ∈ dom h1) by (apply elem_of_dom; eauto).
  split; unfold list_move, list_move_tail; mstep E1.
  - destruct (list_add_at h1 head [] (l1 ++ l2) x) as (h2 & E2 & ? & _); eauto.
  - destruct (list_add_tail_at h1 head (l1 ++ l2) [] x) as (h2 & E2 & ? & _);
      rewrite ?app_nil_r; try done. rewrite <- app_assoc in *. eauto.
Qed.

Section cut.
Context (h : heap) (to from : Z) (l1 l2 : list Z) (x : Z).
Context (Hd : dlist h from (l1 ++ x :: l2)) (Hto : to ∈ dom h).
Context (Hni : to ∉ from :: l1 ++ x :: l2).

Lemma cut_fields :
  exists h', list_cut_position to from x h = Ok (tt, h') /\
    stores h h' [first_node from (l1 ++ [x]); to; x; to; first_node from l2; from]
      (fset to (first_node from (l1 ++ [x])) (fset x to (fset from (first_node from l2) (nxt h))))
      (fset (first_node from (l1 ++ [x])) to (fset to x (fset (first_node from l2) from (prv h)))).
Proof using All.
  assert (Hdom : forall q, q ∈ from :: l1 ++ x :: l2 -> q ∈ dom h)
    by (intros q; by apply dlist_dom).
  assert (Ex : nxt h x = Some (first_node from l2)).
  { destruct (ring_at from (l1 ++ [x]) l2) as (pre & post & E & _).
    rewrite <- app_assoc in E. simpl in E.
    replace (last_node from (l1 ++ [x])) with x in E
      by (unfold last_node; by rewrite List.last_last).
    by destruct (dlist_links _ _ _ _ _ _ _ Hd E). }
  assert (Ef : first_node from (l1 ++ x :: l2) = first_node from (l1 ++ [x])) by (by destruct l1).
  assert (Hfin : first_node from (l1 ++ [x]) ∈ l1 ++ [x]) by (destruct l1; simpl; set_solver).
  assert (Hf2 : first_node from l2 ∈ from :: l2) by apply first_node_in.
  destruct (proj1 (NoDup_cons _ _) (proj1 Hd)) as [Hfrom _].
  unfold list_cut_position.
  mstep (get_next_Ok _ _ _ (dlist_first _ _ _ Hd)). rewrite Ef.
  mstep (list_empty_Ok _ _ _ Hd). rewrite bool_decide_false by (by destruct l1).
  replace (from =? x) with false by (symmetry; apply Z.eqb_neq; set_solver).
  mstep (get_next_Ok _ _ _ Ex). pose proof (stores_refl h) as Hs.
  next_store Hs; [set_solver |].
  mstep (stores_get_next _ _ _ _ _ from (first_node from l2) Hs (fset_eq _ _ _)).
  prev_store Hs; [set_solver |]. prev_store Hs; [done |]. next_store Hs; [set_solver |].
  next_store Hs; [done |].
  mstep (stores_get_next _ _ _ _ _ to (first_node from (l1 ++ [x])) Hs (fset_eq _ _ _)).
  prev_store Hs; [set_solver |]. eexists. split; [done | exact Hs].
Qed.

Lemma cut_NoDup :
  NoDup (from :: l1 ++ x :: l2) ->
  NoDup (l1 ++ [x]) /\ NoDup (from :: l2) /\ (from ∉ l1 ++ [x]) /\
  (forall q, q ∈ l1 ++ [x] -> q ∉ l2) /\ (x ∉ l1).
Proof using All.
  intros Hnd. apply NoDup_cons in Hnd as [Hf Hnd].
  apply NoDup_app in Hnd as (H1 & H2 & H3). apply NoDup_cons in H3 as [H3 H4].
  split_and!.
  - apply NoDup_app. split; [done |]. split; [set_solver | apply NoDup_singleton].
  - apply NoDup_cons. set_solver.
  - set_solver.
  - set_solver.
  - set_solver.
Qed.

Lemma list_cut_position_Ok :
  exists h', list_cut_position to from x h = Ok (tt, h') /\
    dlist h' to (l1 ++ [x]) /\ dlist h' from l2.
Proof using All.
  destruct cut_fields as (h' & Hrun & Hs). exists h'. split; [done |].
  destruct Hd as [Hnd Hl].
  destruct (cut_NoDup Hnd) as (N1 & N2 & N3 & N4 & N5).
  assert (Hto1 : to ∉ l1 ++ [x]) by set_solver.
  assert (Hto2 : to ∉ from :: l2) by set_solver.
  assert (Hsep : forall q, q ∈ l1 ++ [x] -> q ∉ from :: l2).
  { intros q Hq [-> | Hq2]%elem_of_cons; [done | by apply (N4 q)]. }
  pose proof (first_not_tail' from _ N1) as T1. pose proof (first_not_tail _ _ N2) as T2.
  pose proof (first_node_in from l2) as G.
  destruct (first_node_cases from (l1 ++ [x])) as [|F]; [by destruct l1 |].
  assert (Ff : first_node to (l1 ++ [x]) = first_node from (l1 ++ [x])) by (by destruct l1).
  assert (Hx : x ∈ l1 ++ [x]) by set_solver. assert (Hfr : from ∈ from :: l2) by set_solver.
  apply ring_inner in Hl as [Hl1 Hl2]. destruct Hs as [Hn Hp _ _].
  clear Hd Hto Hni Hnd.
  split; (split; [try done; by apply NoDup_cons |]); apply ring_links.
  - rewrite Ff, <- app_assoc. simpl. rewrite links_snoc. split; [split | split; [| split]].
    + by rewrite Hn, fset_eq.
    + by rewrite Hp, fset_eq.
    + eapply links_frame; [exact Hl1 | |].
      * rewrite removelast_snoc. intros q Hq. assert (Hq' : q ∈ l1 ++ [x]) by set_solver.
        rewrite Hn, !fset_ne; [done | | |]; by intros ->.
      * intros q Hq. pose proof (in_tail _ _ Hq) as Hq'.
        rewrite Hp, !fset_ne; [done | | |]; intros ->; try done.
        by apply (Hsep _ Hq').
    + rewrite Hn, fset_ne, fset_eq; [done | by intros ->].
    + rewrite Hp, fset_ne, fset_eq; [done |]. intros E. by rewrite E in Hto1.
  - split; [split |].
    + rewrite Hn, fset_ne, fset_ne, fset_eq; [done | |]; by intros ->.
    + rewrite Hp, fset_ne, fset_ne, fset_eq; [done | |].
      * intros E. rewrite E in G. done.
      * intros E. rewrite <- E in F. by apply (Hsep _ F).
    + eapply links_frame; [exact Hl2 | |].
      * rewrite removelast_snoc. intros q Hq. assert (Hq' : q ∈ from :: l2) by set_solver.
        rewrite Hn, !fset_ne; [done | | |]; intros ->; try done.
        -- by apply NoDup_cons in N2 as [? _].
        -- by apply (Hsep x).
      * intros q Hq. assert (Hq' : q ∈ from :: l2) by (apply in_tail in Hq; set_solver).
        rewrite Hp, !fset_ne; [done | | |]; intros ->; try done.
        by apply (Hsep _ F).
Qed.
End cut.

(** ** Iteration *)

Lemma next_in_Ok {St} (hp : St -> heap) s p v :
  nxt (hp s) p = Some v -> next_in hp p s = Ok (v, s).
Proof. unfold nxt, next_in. destruct (hp s !! p); naive_solver. Qed.

Section iterate_spec.
Context {St A R : Type} (hp : St -> heap) (head : Z).
Context (body : A -> Z -> M St (step A R)).
Context (I : list Z -> A -> St -> Prop) (Q : R -> St -> Prop).

Definition leaves (r : step A R) (s : St) : Prop :=
  match r with Next a => I [] a s | Return r => Q r s end.

Lemma list_for_each_ind :
  (forall x rest a s, I (x :: rest) a s -> x <> head /\
     exists r s', body a x s = Ok (r, s') /\
       match r with
       | Next a' => I rest a' s' /\ nxt (hp s') x = Some (first_node head rest)
       | Return r => Q r s'
       end) ->
  forall rest fuel a s, (length rest < fuel)%nat -> I rest a s ->
    exists r s', list_for_each hp fuel head (first_node head rest) body a s = Ok (r, s') /\
      leaves r s'.
Proof using All.
  intros Hbody rest. induction rest as [|x rest IH]; intros [|fuel] a s Hf HI; try (simpl in Hf; lia).
  - exists (Next a), s. simpl. by rewrite Z.eqb_refl.
  - destruct (Hbody _ _ _ _ HI) as (Hx & r & s' & Hrun & Hr).
    simpl. rewrite (proj2 (Z.eqb_neq _ _) Hx). mstep Hrun.
    destruct r as [a' | r]; [| by exists (Return r), s'].
    destruct Hr as [HI' Hn]. mstep (next_in_Ok _ _ _ _ Hn). apply IH; [simpl in Hf; lia | done].
Qed.

Lemma list_for_each_safe_ind :
  (forall x rest a s, I (x :: rest) a s ->
     x <> head /\ nxt (hp s) x = Some (first_node head rest) /\
     exists r s', body a x s = Ok (r, s') /\
       match r with Next a' => I rest a' s' | Return r => Q r s' end) ->
  (forall a s, I [] a s -> head ∈ dom (hp s)) ->
  forall rest fuel a s, (length rest < fuel)%nat -> I rest a s ->
    exists r s', list_for_each_safe hp fuel head (first_node head rest) body a s = Ok (r, s') /\
      leaves r s'.
Proof using All.
  intros Hbody Hend rest.
  induction rest as [|x rest IH]; intros [|fuel] a s Hf HI; try (simpl in Hf; lia).
  - exists (Next a), s. simpl. destruct (proj2 (is_Some_nxt _ _) (Hend _ _ HI)) as [v Hv].
    mstep (next_in_Ok _ _ _ _ Hv). by rewrite Z.eqb_refl.
  - destruct (Hbody _ _ _ _ HI) as (Hx & Hn & r & s' & Hrun & Hr).
    simpl. mstep (next_in_Ok _ _ _ _ Hn). rewrite (proj2 (Z.eqb_neq _ _) Hx). mstep Hrun.
    destruct r as [a' | r]; [| by exists (Return r), s'].
    apply IH; [simpl in Hf; lia | done].
Qed.
End iterate_spec.

Lemma dlist_length h head l : dlist h head l -> (length l < list_fuel h)%nat.
Proof.
  intros Hd. unfold list_fuel.
  assert (list_to_set (head :: l) ⊆@{gset Z} dom h) as Hsub.
  { intros q Hq. rewrite elem_of_list_to_set in Hq. by eapply dlist_dom. }
  apply subseteq_size in Hsub. rewrite size_list_to_set in Hsub by apply Hd.
  rewrite size_dom in Hsub. simpl in Hsub. lia.
Qed.

(** A suffix of the entries still to visit: what a traversal that does not
    change the ring knows about its position. *)
Lemma dlist_next h head l1 x l2 :
  dlist h head (l1 ++ x :: l2) -> nxt h x = Some (first_node head l2) /\ x <> head.
Proof.
  intros Hd. split.
  - destruct (ring_at head (l1 ++ [x]) l2) as (pre & post & E & _).
    rewrite last_node_snoc, <- app_assoc in E. by destruct (dlist_links _ _ _ _ _ _ _ Hd E).
  - destruct Hd as [Hnd _]. apply NoDup_cons in Hnd as [Hni _]. set_solver.
Qed.

(** A traversal whose body changes only the locals is a fold over the entries. *)
Lemma list_for_each_fold {St A R} (hp : St -> heap) (head : Z) (body : A -> Z -> M St (step A R))
    (f : A -> Z -> A) (s : St) (l : list Z) (a : A) :
  dlist (hp s) head l ->
  (forall l1 x l2, l = l1 ++ x :: l2 ->
     body (fold_left f l1 a) x s = Ok (Next (f (fold_left f l1 a) x), s)) ->
  list_for_each hp (list_fuel (hp s)) head (first_node head l) body a s = Ok (Next (fold_left f l a), s).
Proof.
  intros Hd Hb.
  destruct (list_for_each_ind hp head body
    (fun rest b s' => s' = s /\ exists l1, l = l1 ++ rest /\ b = fold_left f l1 a) (fun _ _ => False))
    with (rest := l) (fuel := list_fuel (hp s)) (a := a) (s := s) as (r & s' & E & Hr).
  - intros x rest b s' (-> & l1 & El & ->). rewrite El in Hd.
    destruct (dlist_next _ _ _ _ _ Hd) as [Hn Hne]. split; [done |].
    exists (Next (f (fold_left f l1 a) x)), s. split; [by apply (Hb l1 x rest) |].
    split; [| done]. split; [done |]. exists (l1 ++ [x]). split; [by rewrite <- app_assoc |].
    by rewrite fold_left_app.
  - by apply dlist_length in Hd.
  - split; [done |]. by exists [].
  - rewrite E. destruct r as [b | r]; [| done]. destruct Hr as (-> & l1 & El & ->).
    rewrite app_nil_r in El. by subst.
Qed.

(** A traversal that looks for an entry: the body passes over the others. *)
Section search.
Context {St A R : Type} (hp : St -> heap) (head : Z) (body : A -> Z -> M St (step A R)) (a : A) (s : St).

Lemma list_for_each_safe_miss l :
  dlist (hp s) head l -> (forall y, y ∈ l -> body a y s = Ok (Next a, s)) ->
  list_for_each_safe hp (list_fuel (hp s)) head (first_node head l) body a s = Ok (Next a, s).
Proof.
  intros Hd Hb.
  destruct (list_for_each_safe_ind hp head body
    (fun rest a' s' => a' = a /\ s' = s /\ exists l1, l = l1 ++ rest) (fun _ _ => False))
    with (rest := l) (fuel := list_fuel (hp s)) (a := a) (s := s) as (r & s' & E & Hr).
  - intros x rest a' s' (-> & -> & l1 & El). rewrite El in Hd.
    destruct (dlist_next _ _ _ _ _ Hd) as [Hn Hne]. split; [done |]. split; [done |].
    exists (Next a), s. split; [apply Hb; rewrite El; set_solver |]. split; [done |]. split; [done |].
    exists (l1 ++ [x]). by rewrite <- app_assoc.
  - intros a0 s0 (_ & -> & _). eapply dlist_dom; [exact Hd | set_solver].
  - by apply dlist_length in Hd.
  - split; [done |]. split; [done |]. by exists [].
  - rewrite E. destruct r as [a' | r]; [| done]. by destruct Hr as (-> & -> & _).
Qed.

Lemma list_for_each_safe_hit l1 x l2 r s' :
  dlist (hp s) head (l1 ++ x :: l2) -> (forall y, y ∈ l1 -> body a y s = Ok (Next a, s)) ->
  body a x s = Ok (Return r, s') ->
  list_for_each_safe hp (list_fuel (hp s)) head (first_node head (l1 ++ x :: l2)) body a s = Ok (Return r, s').
Proof.
  intros Hd Hb Hx.
  destruct (list_for_each_safe_ind hp head body
    (fun rest a' s1 => a' = a /\ s1 = s /\ exists la lb, l1 = la ++ lb /\ rest = lb ++ x :: l2)
    (fun r' s1 => r' = r /\ s1 = s'))
    with (rest := l1 ++ x :: l2) (fuel := list_fuel (hp s)) (a := a) (s := s) as (r' & s1 & E & Hr).
  - intros y rest a' s1 (-> & -> & la & [|z lb] & -> & Hrest); cbn in Hrest; injection Hrest as -> ->.
    + rewrite app_nil_r in *. destruct (dlist_next _ _ _ _ _ Hd) as [Hn Hne]. split; [done |]. split; [done |].
      by exists (Return r), s'.
    + rewrite <- app_assoc in Hd. destruct (dlist_next _ _ _ _ _ Hd) as [Hn Hne]. split; [done |].
      split; [done |]. exists (Next a), s. split; [apply Hb; set_solver |]. split; [done |].
      split; [done |]. exists (la ++ [z]), lb. by rewrite <- app_assoc.
  - intros a0 s0 (_ & _ & la & lb & _ & Hn). by destruct lb.
  - by apply dlist_length in Hd.
  - split; [done |]. split; [done |]. by exists [], l1.
  - rewrite E. destruct r' as [a' | r']; [| by destruct Hr as [-> ->]].
    destruct Hr as (_ & _ & la & lb & _ & Hn). by destruct lb.
Qed.
End search.

(** ** Families of disjoint rings in one memory *)

Definition dlists (h : heap) (F : gmap Z (list Z)) : Prop :=
  (forall k l, F !! k = Some l -> dlist h k l) /\
  (forall k1 k2 l1 l2 q, k1 <> k2 -> F !! k1 = Some l1 -> F !! k2 = Some l2 ->
     q ∈ k1 :: l1 -> q ∉ k2 :: l2).

(** [q] is neither the head nor an entry of a ring of the family. *)
Definition unlinked (F : gmap Z (list Z)) (q : Z) : Prop :=
  forall k l, F !! k = Some l -> q ∉ k :: l.

Lemma dlists_touch h h' F k l l' T :
  dlists h F -> F !! k = Some l -> dlist h' k l' ->
  touches h h' T ->
  (forall q, q ∈ T -> q ∈ k :: l \/ unlinked F q) ->
  (forall q, q ∈ l' -> q ∈ k :: l \/ unlinked F q) ->
  dlists h' (<[k := l']> F).
Proof.
  intros [Hd Hdis] Hk Hd' [_ Hfr] HT Hl'. split.
  - intros k1 l1 H1. destruct (decide (k1 = k)) as [-> | Hne].
    + rewrite lookup_insert_eq in H1. by simplify_eq.
    + rewrite lookup_insert_ne in H1 by done. eapply dlist_frame; [by apply Hd |].
      intros q Hq. apply Hfr. intros HqT. destruct (HT q HqT) as [Hin | Hun].
      * by eapply (Hdis k1 k).
      * by eapply Hun.
  - intros k1 k2 l1 l2 q Hne H1 H2 Hq1 Hq2.
    assert (Hsame : forall q, q ∈ k :: l' -> q ∈ k :: l \/ unlinked F q) by set_solver.
    destruct (decide (k1 = k)) as [-> | H1k], (decide (k2 = k)) as [-> | H2k];
      [done | simplify_map_eq ..].
    + destruct (Hsame _ Hq1) as [Hin | Hun]; [by eapply (Hdis k k2) | by eapply Hun].
    + destruct (Hsame _ Hq2) as [Hin | Hun]; [by eapply (Hdis k1 k) | by eapply Hun].
    + by eapply (Hdis k1 k2).
Qed.

Lemma dlists_add_tail h F k l x :
  dlists h F -> F !! k = Some l -> x ∈ dom h -> unlinked F x ->
  exists h', list_add_tail x k h = Ok (tt, h') /\ dlists h' (<[k := l ++ [x]]> F) /\ dom h' = dom h.
Proof.
  intros Hf Hk Hx Hun. pose proof (proj1 Hf _ _ Hk) as Hd.
  destruct (list_add_tail_at h k l [] x) as (h' & E & Hd' & Ht); rewrite ?app_nil_r; try done.
  - by apply Hun.
  - rewrite ?app_nil_r in Ht. exists h'. split; [done |]. split; [| apply Ht].
    eapply dlists_touch; [done | done | done | exact Ht | |]; set_solver.
Qed.

Lemma dlists_add_at h F k l1 l2 x :
  dlists h F -> F !! k = Some (l1 ++ l2) -> x ∈ dom h -> unlinked F x ->
  exists h', list_add x (last_node k l1) h = Ok (tt, h') /\
    dlists h' (<[k := l1 ++ x :: l2]> F) /\ dom h' = dom h.
Proof.
  intros Hf Hk Hx Hun. pose proof (proj1 Hf _ _ Hk) as Hd.
  destruct (list_add_at h k l1 l2 x) as (h' & E & Hd' & Ht); try done.
  - by apply Hun.
  - exists h'. split; [done |]. split; [| apply Ht].
    eapply dlists_touch; [done | done | done | exact Ht | |]; set_solver.
Qed.

Lemma dlists_del h F k l1 l2 x :
  dlists h F -> F !! k = Some (l1 ++ x :: l2) ->
  exists h', list_del x h = Ok (tt, h') /\ dlists h' (<[k := l1 ++ l2]> F) /\
    dom h' = dom h /\ unlinked (<[k := l1 ++ l2]> F) x.
Proof.
  intros Hf Hk. pose proof (proj1 Hf _ _ Hk) as Hd.
  destruct (list_del_at h k l1 l2 x Hd) as (h' & E & Hd' & _ & Ht).
  exists h'. split; [done |]. split; [| split; [apply Ht |]].
  - eapply dlists_touch; [done | done | done | exact Ht | |]; set_solver.
  - intros k' l' Hk'. destruct (decide (k' = k)) as [-> | Hne].
    + rewrite lookup_insert_eq in Hk'. simplify_eq.
      apply (NoDup_remove_mid k l1 l2 x), Hd.
    + rewrite lookup_insert_ne in Hk' by done. eapply (proj2 Hf k k'); eauto. set_solver.
Qed.

Lemma dlists_first h F k l : dlists h F -> F !! k = Some l -> get_next k h = Ok (first_node k l, h).
Proof. intros Hf Hk. apply get_next_Ok, dlist_first. by apply Hf. Qed.

Lemma dlists_frame h h' F :
  dlists h F -> (forall k l q, F !! k = Some l -> q ∈ k :: l -> h' !! q = h !! q) -> dlists h' F.
Proof.
  intros [Hd Ha] Hh. split; [| done]. intros k l Hk. apply (dlist_frame h); [by apply Hd |].
  intros q Hq. by eapply Hh.
Qed.

(** A head of an empty list beside the others. *)
Lemma dlists_new h h' F q :
  dlists h F -> unlinked F q -> dlist h' q [] -> (forall x, x <> q -> h' !! x = h !! x) -> dlists h' (<[q := []]> F).
Proof.
  intros [D1 D2] Hu Hd Hh. split.
  - intros k l. rewrite lookup_insert_Some. intros [[<- <-] | [Hne Hk]]; [done |].
    apply (dlist_frame h); [by apply D1 |]. intros x Hx. apply Hh. intros ->. by apply (Hu k l).
  - intros k1 k2 l1 l2 x Hne. rewrite !lookup_insert_Some.
    intros [[<- <-] | [Hq1 H1]] [[<- <-] | [Hq2 H2]]; [done | | | by apply D2].
    + intros ->%list_elem_of_singleton. by apply (Hu k2 l2).
    + intros Hx ->%list_elem_of_singleton. by apply (Hu k1 l1).
Qed.

Lemma unlinked_union F1 F2 q : unlinked F1 q -> unlinked F2 q -> unlinked (F1 ∪ F2) q.
Proof. intros H1 H2 k l [Hk | [_ Hk]]%lookup_union_Some_raw; [by apply H1 | by apply H2]. Qed.

Lemma dlists_union h F1 F2 :
  dlists h F1 -> dlists h F2 -> (forall k l q, F1 !! k = Some l -> q ∈ k :: l -> unlinked F2 q) -> dlists h (F1 ∪ F2).
Proof.
  intros [H1 D1] [H2 D2] Hu. split.
  - intros k l [Hk | [_ Hk]]%lookup_union_Some_raw; auto.
  - intros k1 k2 l1 l2 q Hne [Hk1 | [_ Hk1]]%lookup_union_Some_raw [Hk2 | [_ Hk2]]%lookup_union_Some_raw Hq; [eauto | | | eauto].
    + by apply (Hu k1 l1 q Hk1 Hq k2 l2).
    + intros Hq2. by apply (Hu k2 l2 q Hk2 Hq2 k1 l1).
Qed.

(** ** Correctness of the header *)

(** A concrete memory: head 1 with entries 2, 3; head 4 with entries 5, 6; the
    initialised but unlinked node 7. *)
Definition demo_heap : heap :=
  list_to_map [(1, mk_list_head 3 2); (2, mk_list_head 1 3); (3, mk_list_head 2 1);
               (4, mk_list_head 6 5); (5, mk_list_head 4 6); (6, mk_list_head 5 4);
               (7, mk_list_head NULL NULL)].

Ltac concrete_dlist :=
  split; [apply (bool_decide_unpack _); vm_compute; exact I
         | repeat split; vm_compute; reflexivity].

Lemma demo_ring1 : dlist demo_heap 1 [2; 3].
Proof. concrete_dlist. Qed.
Lemma demo_ring2 : dlist demo_heap 4 [5; 6].
Proof. concrete_dlist. Qed.
Lemma demo_dom (q : Z) : is_Some (demo_heap !! q) -> q ∈ dom demo_heap.
Proof. apply elem_of_dom. Qed.

(** The pointer stores of [list_add] (of [node_add_aft]) put the new node
    right after the node they are given and those of [list_add_tail] (of
    [node_add_bef]) right before it, at any position of a well-formed ring;
    nothing outside the ring is written, and [list_del] of the new node gives
    back a ring with the old entries. *)
Lemma list_insert_delete h head l1 l2 x :
  dlist h head (l1 ++ l2) -> x ∈ dom h -> x ∉ head :: l1 ++ l2 ->
  (exists h1, node_add_aft (last_node head l1) x h = Ok (tt, h1) /\
     dlist h1 head (l1 ++ x :: l2) /\ touches h h1 (x :: head :: l1 ++ l2) /\
     exists h2, list_del x h1 = Ok (tt, h2) /\ dlist h2 head (l1 ++ l2)) /\
  (exists h1, node_add_bef (first_node head l2) x h = Ok (tt, h1) /\
     dlist h1 head (l1 ++ x :: l2) /\ touches h h1 (x :: head :: l1 ++ l2) /\
     exists h2, list_del x h1 = Ok (tt, h2) /\ dlist h2 head (l1 ++ l2)).
Proof.
  intros Hd Hx Hni. split.
  - destruct (list_add_at _ _ _ _ _ Hd Hx Hni) as (h1 & E1 & Hd1 & Ht).
    destruct (list_del_at _ _ _ _ _ Hd1) as (h2 & E2 & Hd2 & _). eauto 10.
  - destruct (list_add_tail_at _ _ _ _ _ Hd Hx Hni) as (h1 & E1 & Hd1 & Ht).
    destruct (list_del_at _ _ _ _ _ Hd1) as (h2 & E2 & Hd2 & _). eauto 10.
Qed.

Lemma list_insert_delete_witness :
  exists h1, node_add_aft 2 7 demo_heap = Ok (tt, h1) /\ dlist h1 1 [2; 7; 3].
Proof.
  destruct (list_insert_delete demo_heap 1 [2] [3] 7) as [(h1 & E & Hd & _) _].
  - exact demo_ring1.
  - apply demo_dom. vm_compute. eauto.
  - apply (bool_decide_unpack _). vm_compute. exact I.
  - exists h1. split; [exact E | exact Hd].
Defined.

(** Splicing moves all the entries of a ring, in order, to the front
    ([list_splice_init]) or to the back ([list_splice_tail_init]) of another
    one and leaves the first empty; [list_cut_position] moves back the entries
    up to and including the given node. *)
Lemma list_splice_cut h head lst l1 l2 l3 x :
  dlist h head l1 -> dlist h lst (l2 ++ x :: l3) ->
  (forall q, q ∈ lst :: l2 ++ x :: l3 -> q ∉ head :: l1) ->
  (exists h', list_splice_init lst head h = Ok (tt, h') /\
     dlist h' head ((l2 ++ x :: l3) ++ l1) /\ dlist h' lst []) /\
  (exists h', list_splice_tail_init lst head h = Ok (tt, h') /\
     dlist h' head (l1 ++ l2 ++ x :: l3) /\ dlist h' lst []) /\
  (exists h', list_cut_position head lst x h = Ok (tt, h') /\
     dlist h' head (l2 ++ [x]) /\ dlist h' lst l3).
Proof.
  intros Hd1 Hd2 Hdis.
  assert (Hlst : lst ∈ dom h) by (eapply dlist_dom; [exact Hd2 | set_solver]).
  assert (Hinit : forall h' l, dlist h' head l -> lst ∉ head :: l -> lst ∈ dom h' ->
    exists h2, INIT_LIST_HEAD lst h' = Ok (tt, h2) /\ dlist h2 head l /\ dlist h2 lst []).
  { intros h' l Hd Hni Hin. destruct (INIT_LIST_HEAD_Ok _ _ Hin) as (h2 & E & Hd' & _ & Hf).
    exists h2. split; [done |]. split; [| done].
    eapply dlist_frame; [done |]. intros q Hq. apply Hf. set_solver. }
  assert (Hn2 : lst ∉ l2 ++ x :: l3) by (destruct Hd2 as [Hd2 _]; by apply NoDup_cons in Hd2 as [? _]).
  assert (Hn1 : lst ∉ head :: l1) by (apply Hdis; by left).
  split; [| split].
  - destruct (list_splice_Ok h head lst [] l1 (l2 ++ x :: l3)) as (h' & E & Hd & Ht & _); try done.
    unfold list_splice_init. mstep E. apply Hinit; [done | | by rewrite Ht].
    intros [-> | [Hin | Hin]%elem_of_app]%elem_of_cons; [apply Hn1; by left | done | apply Hn1; by right].
  - destruct (list_splice_tail_Ok h head lst l1 [] (l2 ++ x :: l3)) as (h' & E & Hd & Ht & _);
      rewrite ?app_nil_r in *; try done.
    unfold list_splice_tail_init. mstep E. apply Hinit; [done | | by rewrite Ht].
    intros [-> | [Hin | Hin]%elem_of_app]%elem_of_cons; [apply Hn1; by left | apply Hn1; by right | done].
  - apply list_cut_position_Ok; [done | | ].
    + eapply dlist_dom; [exact Hd1 | set_solver].
    + intros Hin. apply (Hdis head Hin). by left.
Qed.

Lemma list_splice_cut_witness :
  exists h', list_splice_tail_init 4 1 demo_heap = Ok (tt, h') /\ dlist h' 1 [2; 3; 5; 6].
Proof.
  destruct (list_splice_cut demo_heap 1 4 [2; 3] [5] [] 6) as (_ & (h' & E & Hd & _) & _).
  - exact demo_ring1.
  - exact demo_ring2.
  - intros q Hq1 Hq2. simpl in Hq1. rewrite !elem_of_cons in *.
    destruct Hq1 as [-> | [-> | [-> | []%elem_of_nil]]];
      destruct Hq2 as [| [| [| []%elem_of_nil]]]; lia.
  - exists h'. split; [exact E | exact Hd].
Defined.

(** [list_for_each_safe] visits every entry of a ring once and in order,
    even when its body unlinks the node it is given, and the fuel
    [list_fuel] (one more than the number of nodes in memory) always suffices:
    the teardown loop of the kernel empties the ring. *)
Lemma list_for_each_safe_teardown h head l :
  dlist h head l ->
  exists h', list_for_each_safe (R := unit) id (list_fuel h) head (first_node head l)
      (fun seen node => list_del node;; ret (Next (seen ++ [node]))) [] h
    = Ok (Next l, h') /\ dlist h' head [].
Proof.
  intros Hd.
  destruct (list_for_each_safe_ind (R := unit) id head
    (fun seen node => list_del node;; ret (Next (seen ++ [node])))
    (fun rest seen h => seen ++ rest = l /\ dlist h head rest)
    (fun _ _ => False)) with (rest := l) (fuel := list_fuel h) (a := @nil Z) (s := h)
    as (r & h' & E & Hr).
  - intros x rest seen h1 [El Hd1].
    destruct (dlist_next h1 head [] x rest Hd1) as [Hn Hx].
    destruct (list_del_at h1 head [] rest x Hd1) as (h2 & E2 & Hd2 & _).
    split; [done |]. split; [done |]. exists (Next (seen ++ [x])), h2.
    split; [by mstep E2 |]. by rewrite <- app_assoc.
  - intros seen h1 [_ Hd1]. eapply dlist_dom; [exact Hd1 | by left].
  - by apply (dlist_length _ head).
  - done.
  - destruct r as [seen|[]]; [| done]. destruct Hr as [El Hd']. rewrite app_nil_r in El.
    subst seen. by exists h'.
Qed.

Lemma list_for_each_safe_teardown_witness :
  exists h', list_for_each_safe (R := unit) id (list_fuel demo_heap) 1 2
      (fun seen node => list_del node;; ret (Next (seen ++ [node]))) [] demo_heap
    = Ok (Next [2; 3], h') /\ dlist h' 1 [].
Proof. apply (list_for_each_safe_teardown demo_heap 1 [2; 3] demo_ring1). Defined.
