(* ===== verification/FreeQueue.v ===== *)
(** * Allocators as queues of free objects

    What an allocator of equal objects promises to its clients, and what a
    client sees of it.  [MemBlock] and [SlabSpec] are instances. *)
From S2P Require Import Prelude.

(** ** The abstract allocator

    [spec_run] is what a client sees: the queue of free objects and the objects
    the client holds; a client frees only what it holds ([None] otherwise). *)

Inductive op := Alloc | Free (a : Z).

Fixpoint spec_run (free held : list Z) (ops : list op) : option (list Z * (list Z * list Z)) :=
  match ops with
  | [] => Some ([], (free, held))
  | Alloc :: ops =>
    match free with
    | [] => prod_map (cons NULL) id <$> spec_run [] held ops
    | b :: free => prod_map (cons b) id <$> spec_run free (b :: held) ops
    end
  | Free a :: ops =>
    if decide (a ∈ held) then spec_run (free ++ [a]) (filter (fun b => b <> a) held) ops else None
  end.

(** The same operations on an allocator; the results of the allocations. *)
Fixpoint run {S} (alloc : M S Z) (free : Z -> M S unit) (ops : list op) : M S (list Z) :=
  match ops with
  | [] => ret []
  | Alloc :: ops => b ← alloc; outs ← run alloc free ops; ret (b :: outs)
  | Free a :: ops => free a;; run alloc free ops
  end.

(** ** The interface

    [Inv s l]: in the state [s] the objects of [l] are free, the first one is
    the next to be handed out; [B] are the objects of the allocator. *)
Class FreeQueue {S} (alloc : M S Z) (free : Z -> M S unit) (Inv : S -> list Z -> Prop) (B : list Z) : Prop := {
  fq_nodup : NoDup B;
  fq_empty : forall s, Inv s [] -> alloc s = Ok (NULL, s);
  fq_alloc : forall s b l, Inv s (b :: l) -> exists s', alloc s = Ok (b, s') /\ Inv s' l;
  fq_free : forall s l a, Inv s l -> a ∈ B -> a ∉ l -> (length l < length B)%nat ->
    exists s', free a s = Ok (tt, s') /\ Inv s' (l ++ [a])
}.

Lemma held_split (a : Z) held :
  NoDup held -> a ∈ held -> held ≡ₚ a :: filter (fun b => b <> a) held.
Proof.
  intros Hnd Ha. apply NoDup_Permutation; [done | |].
  - apply NoDup_cons. split; [| by apply NoDup_filter]. rewrite list_elem_of_filter. tauto.
  - intros b. rewrite elem_of_cons, list_elem_of_filter. destruct (decide (b = a)); naive_solver.
Qed.

(** A client that follows the discipline is served like by the queue, and no
    object is lost or handed out twice. *)
Lemma run_refines {St} {alloc : M St Z} {free Inv B} `{FQ : !FreeQueue alloc free Inv B} ops s fr held outs fr' held' :
  fr ++ held ≡ₚ B -> Inv s fr -> spec_run fr held ops = Some (outs, (fr', held')) ->
  exists s', run alloc free ops s = Ok (outs, s') /\ Inv s' fr' /\ fr' ++ held' ≡ₚ B.
Proof.
  pose proof fq_nodup as Hnd. revert s fr held outs.
  induction ops as [|[|a] ops IH]; intros s fr held outs HP Hi; cbn [spec_run run].
  - intros [= <- <- <-]. by exists s.
  - destruct fr as [|b fr]; intros ([outs1 [f1 h1]] & E & Er)%fmap_Some;
      simpl in Er; injection Er as -> -> ->.
    + destruct (IH s [] held outs1 HP Hi E) as (s' & E' & R).
      exists s'. split; [| done]. mstep (fq_empty _ Hi). by mstep E'.
    + destruct (fq_alloc _ _ _ Hi) as (s1 & E1 & Hi1).
      destruct (IH s1 fr (b :: held) outs1) as (s' & E' & R); [| done | done |].
      { rewrite <- HP. simpl. by rewrite Permutation_middle. }
      exists s'. split; [| done]. mstep E1. by mstep E'.
  - case_decide as Ha; [| done]. intros E.
    assert (HaB : a ∈ B) by (rewrite <- HP; set_solver).
    rewrite <- HP in Hnd. apply NoDup_app in Hnd as (_ & Hd & Hh).
    destruct (fq_free s fr a Hi HaB) as (s1 & E1 & Hi1).
    { intros Hf. by apply (Hd a). }
    { rewrite <- HP, length_app. destruct held; [set_solver | simpl; lia]. }
    destruct (IH s1 (fr ++ [a]) (filter (fun b => b <> a) held) outs) as (s' & E' & R); [| done | done |].
    { rewrite <- HP, <- app_assoc. simpl. f_equiv. symmetry. by apply held_split. }
    exists s'. split; [| done]. by mstep E1.
Qed.
