(* ===== verification/MemBlock.v ===== *)
(** * The memory block allocator

    [include/mm/memblock_alloc.h] and [module/mm/allocators/memblock.c]: a
    region cut into blocks of one size, the free ones on a list whose nodes lie
    in the blocks themselves.  The allocator has no lock.  It implements
    [FreeQueue]. *)
From S2P Require Import Prelude DList FreeQueue.

(** ** Data *)

(** [src/include/mm/memblock_alloc.h:19-19 MAGIC_NUMBER] *)
Definition MAGIC_NUMBER : Z := 0x2371.

(** [src/include/mm/memblock_alloc.h:10-17 struct mmblock_hdr_s] The list head
    [_list_block] is a node of the list memory. *)
Record mmblock_hdr := mk_hdr {
  magic_number : Z; pa_start : Z; block_size : Z; total_block : Z; rest_block : Z
}.

(** [&hdr->_list_block] *)
Definition _list_block (hdr : Z) : Z := hdr + 32.

(** [src/include/mm/memblock_alloc.h:22-25 struct block_hdr_s] The field
    [magic_number] of the block header at an address is in [blocks], its field
    [_node] in [lists]. *)
Record mem := mk_mem { hdrs : gmap Z mmblock_hdr; blocks : gmap Z Z; lists : heap }.

Definition _node (blk : Z) : Z := blk + 8.
(** [list_entry(ptr, block_hdr_t, _node)] *)
Definition blk_entry (node : Z) : Z := node - 8.
Definition sizeof_block_hdr : Z := 24.

Definition on_hdrs {A} (m : M (gmap Z mmblock_hdr) A) : M mem A :=
  zoom hdrs (fun x s => mk_mem x (blocks s) (lists s)) m.
Definition on_blocks {A} (m : M (gmap Z Z) A) : M mem A :=
  zoom blocks (fun x s => mk_mem (hdrs s) x (lists s)) m.
Definition on_lists {A} (m : M heap A) : M mem A :=
  zoom lists (fun x s => mk_mem (hdrs s) (blocks s) x) m.

Definition get_hdr (h : Z) : M mem mmblock_hdr := on_hdrs (load h).
Definition upd_hdr (h : Z) (f : mmblock_hdr -> mmblock_hdr) : M mem unit := on_hdrs (update h f).
Definition set_rest (v : Z) (k : mmblock_hdr) : mmblock_hdr :=
  mk_hdr (magic_number k) (pa_start k) (block_size k) (total_block k) v.
(** The bytes at [p] become a list node. *)
Definition raw_node (p : Z) : M heap unit := fun h =>
  Ok (tt, if decide (is_Some (h !! p)) then h else <[p := mk_list_head 0 0]> h).

(** ** Operations *)

(** [src/module/mm/allocators/memblock.c:5-9 init_blk_hdr] A block is raw
    memory until its header is written. *)
Definition init_blk_hdr (blk_hdr : Z) : M mem unit :=
  on_blocks (fun b => Ok (tt, <[blk_hdr := MAGIC_NUMBER]> b));;
  on_lists (raw_node (_node blk_hdr));;
  on_lists (INIT_NODE (_node blk_hdr)).

(** [src/module/mm/allocators/memblock.c:12-54 __memblock_self_check] The
    output is left out. *)
Definition __memblock_self_check (h : Z) : M mem Z :=
  k ← get_hdr h;
  if total_block k <? rest_block k then ret (- EFAULT)
  else
    first ← on_lists (get_next (_list_block h));
    fuel ← gets (fun s => list_fuel (lists s));
    r ← list_for_each (R := Z) lists fuel (_list_block h) first
      (fun i iterator =>
         m ← on_blocks (load (blk_entry iterator));
         if negb (m =? MAGIC_NUMBER) then ret (Return (- EFAULT))
         else ret (Next (s32 (i + 1)))) 0;
    match r with
    | Return e => ret e
    | Next i =>
      k ← get_hdr h;
      if negb (u32 i =? rest_block k) then ret (- EFAULT) else ret 0
    end.

(** [src/module/mm/allocators/memblock.c:56-61 memblock_self_check] *)
Definition memblock_self_check (h : Z) : M mem Z :=
  if h =? NULL then ret (- EINVAL)
  else
    k ← get_hdr h;
    if negb (magic_number k =? MAGIC_NUMBER) then ret (- EINVAL)
    else __memblock_self_check h.

(** [src/module/mm/allocators/memblock.c:63-68 memblock_self_check_with_output] *)
Definition memblock_self_check_with_output (h output : Z) : M mem Z :=
  if h =? NULL then ret (- EINVAL)
  else
    k ← get_hdr h;
    if negb (magic_number k =? MAGIC_NUMBER) || (output =? NULL) then ret (- EINVAL)
    else __memblock_self_check h.

(** [src/module/mm/allocators/memblock.c:70-106 foreach_nodes] [iterate_func]
    is the caller's. *)
Definition foreach_nodes (h : Z) (iterate_func : Z -> M mem Z) (is_safe continue_when_error : bool) :
    M mem Z :=
  let body (_ : Z) ptr :=
    r ← iterate_func (blk_entry ptr);
    if negb (r =? 0) then
      if negb continue_when_error then ret (Return r) else ret (Next (s32 (r + 1)))
    else ret (Next r) in
  first ← on_lists (get_next (_list_block h));
  fuel ← gets (fun s => list_fuel (lists s));
  r ← (if is_safe then list_for_each_safe lists fuel (_list_block h) first body 0
       else list_for_each lists fuel (_list_block h) first body 0);
  match r with Next r => ret r | Return r => ret r end.

(** [src/module/mm/allocators/memblock.c:108-117 memblock_for_each] *)
Definition memblock_for_each (h : Z) (iterate_func : option (Z -> M mem Z)) : M mem Z :=
  match iterate_func with
  | None => ret (- EINVAL)
  | Some f =>
    if h =? NULL then ret (- EINVAL)
    else
      k ← get_hdr h;
      if negb (magic_number k =? MAGIC_NUMBER) then ret (- EINVAL)
      else r ← foreach_nodes h f false false; if negb (r =? 0) then ret r else ret 0
  end.

(** [src/module/mm/allocators/memblock.c:119-128 memblock_for_each_safe] *)
Definition memblock_for_each_safe (h : Z) (iterate_func : option (Z -> M mem Z)) : M mem Z :=
  match iterate_func with
  | None => ret (- EINVAL)
  | Some f =>
    if h =? NULL then ret (- EINVAL)
    else
      k ← get_hdr h;
      if negb (magic_number k =? MAGIC_NUMBER) then ret (- EINVAL)
      else r ← foreach_nodes h f true false; if negb (r =? 0) then ret r else ret 0
  end.

(** [src/module/mm/allocators/memblock.c:130-149 memblock_allocator_init] The
    product [block_size*i] is a 32-bit unsigned one, [total_block] the low 32
    bits of the quotient; the loop compares the counter with [total_block] as
    unsigned. *)
Definition memblock_allocator_init (h pa size block_size : Z) : M mem Z :=
  if (h =? NULL) || (pa =? 0) || (size <=? 0) || (block_size <=? 0) then ret (- EINVAL)
  else if negb (size mod block_size =? 0) then ret (- EINVAL)
  else
    upd_hdr h (fun _ => mk_hdr MAGIC_NUMBER pa block_size (u32 (size / block_size)) (u32 (size / block_size)));;
    on_lists (INIT_LIST_HEAD (_list_block h));;
    k ← get_hdr h;
    for_up (R := unit) (Z.to_nat (total_block k)) 0 (fun (_ : unit) i =>
      let allocated_blk_hdr := u64 (pa + u32 (block_size * i)) in
      init_blk_hdr allocated_blk_hdr;;
      on_lists (list_add_tail (_node allocated_blk_hdr) (_list_block h));;
      ret (Next tt)) tt;;
    ret 0.

(** [src/module/mm/allocators/memblock.c:151-162 memblock_alloc] *)
Definition memblock_alloc (h : Z) : M mem Z :=
  if h =? NULL then ret NULL
  else
    k ← get_hdr h;
    if negb (magic_number k =? MAGIC_NUMBER) then ret NULL
    else if rest_block k <=? 0 then ret NULL
    else
      n ← on_lists (list_first_entry (_list_block h));
      let blk_hdr := blk_entry n in
      on_lists (list_del_init (_node blk_hdr));;
      upd_hdr h (fun k => set_rest (u32 (rest_block k - 1)) k);;
      ret blk_hdr.

(** [src/module/mm/allocators/memblock.c:164-173 memblock_free] *)
Definition memblock_free (h address : Z) : M mem unit :=
  if (h =? NULL) || (address =? NULL) then ret tt
  else
    k ← get_hdr h;
    if negb (magic_number k =? MAGIC_NUMBER) then ret tt
    else if total_block k <=? rest_block k then ret tt
    else
      init_blk_hdr address;;
      on_lists (list_add_tail (_node address) (_list_block h));;
      upd_hdr h (fun k => set_rest (u32 (rest_block k + 1)) k).

(** [src/module/mm/allocators/memblock.c:175-178 memblock_allocator_merge] *)
Definition memblock_allocator_merge (h merged : Z) : M mem Z := ret 0.

(** ** The invariant *)

(** The blocks of a region, and where they may be: apart from null, and from
    the list head of the allocator. *)
Definition region_blocks (pa block_size n : Z) : list Z := (fun i => pa + block_size * i) <$> seqZ 0 n.

Definition apart (h : Z) (l : list Z) : Prop := NoDup l /\ forall b, b ∈ l -> b <> NULL /\ _node b <> _list_block h.

Record free_list (h : Z) (k : mmblock_hdr) (s : mem) (l : list Z) : Prop := {
  fl_hdr : hdrs s !! h = Some k;
  fl_ring : dlist (lists s) (_list_block h) (_node <$> l);
  fl_magic : forall b, b ∈ l -> blocks s !! b = Some MAGIC_NUMBER
}.

Record mb_inv (h : Z) (s : mem) (k : mmblock_hdr) (l : list Z) : Prop := {
  mb_free : free_list h k s l;
  mb_magic : magic_number k = MAGIC_NUMBER;
  mb_null : h <> NULL;
  mb_total : 0 <= total_block k < 2 ^ 32;
  mb_rest : rest_block k = Z.of_nat (length l);
  mb_le : rest_block k <= total_block k
}.

Lemma _node_inj : Inj (=) (=) _node.
Proof. intros a b. unfold _node. lia. Qed.
#[export] Existing Instance _node_inj.
Lemma blk_entry_node b : blk_entry (_node b) = b.
Proof. unfold blk_entry, _node. lia. Qed.

Lemma not_in_ring h a l :
  a ∉ l -> _node a <> _list_block h -> _node a ∉ _list_block h :: (_node <$> l).
Proof.
  intros Ha Hh. rewrite not_elem_of_cons, list_elem_of_fmap. split; [done |].
  intros (b & E & Hb). apply _node_inj in E. by subst.
Qed.

(** Writing the header of a block that is on no list. *)
Lemma init_blk_hdr_Ok h k s l a :
  free_list h k s l -> _node a ∉ _list_block h :: (_node <$> l) ->
  exists s', init_blk_hdr a s = Ok (tt, s') /\ free_list h k s' l /\
    blocks s' !! a = Some MAGIC_NUMBER /\ _node a ∈ dom (lists s').
Proof.
  intros [Hh Hr Hm] Ha. unfold init_blk_hdr, on_blocks, on_lists.
  rewrite (bind_Ok _ _ _ _ _ (zoom_Ok _ _ _ _ _ _ eq_refl)). cbn [hdrs blocks lists].
  rewrite (bind_Ok _ _ _ _ _ (zoom_Ok _ _ _ _ _ _ eq_refl)). cbn [hdrs blocks lists].
  match goal with |- context [mk_mem _ _ ?h'] => assert (Hd : _node a ∈ dom h');
    [| assert (Hf : forall q, q <> _node a -> h' !! q = lists s !! q);
       [| destruct (INIT_NODE_Ok h' _ Hd) as (h2 & E2 & [Ed2 Hf2])]] end.
  { case_decide; [by apply elem_of_dom | set_solver]. }
  { intros q Hq. case_decide; [done | by apply lookup_insert_ne]. }
  exists (mk_mem (hdrs s) (<[a := MAGIC_NUMBER]> (blocks s)) h2).
  split; [by erewrite zoom_Ok | cbn [hdrs blocks lists]].
  split; [split |]; cbn [hdrs blocks lists].
  - done.
  - apply (dlist_frame _ _ _ _ Hr). intros q Hq. assert (q <> _node a) by (by intros ->).
    rewrite Hf2 by set_solver. by apply Hf.
  - intros b Hb. destruct (decide (b = a)) as [-> | Hne].
    + by rewrite lookup_insert_eq.
    + rewrite lookup_insert_ne by done. by apply Hm.
  - split; [by rewrite lookup_insert_eq |]. by rewrite Ed2.
Qed.

(** [init_blk_hdr] and [list_add_tail], as [memblock_allocator_init] and
    [memblock_free] run them. *)
Lemma append_block h k s l a :
  free_list h k s l -> a ∉ l -> _node a <> _list_block h ->
  exists s1 s', init_blk_hdr a s = Ok (tt, s1) /\
    on_lists (list_add_tail (_node a) (_list_block h)) s1 = Ok (tt, s') /\ free_list h k s' (l ++ [a]).
Proof.
  intros Hfl Ha Hh. pose proof (not_in_ring _ _ _ Ha Hh) as Hni.
  destruct (init_blk_hdr_Ok _ _ _ _ _ Hfl Hni) as (s1 & E1 & [Hk Hr Hm] & Hb & Hd).
  pose proof Hr as Hr'. rewrite <- (app_nil_r (_node <$> l)) in Hr', Hni.
  destruct (list_add_tail_at _ _ _ _ _ Hr' Hd Hni) as (h2 & E2 & Hr2 & _). simpl in E2.
  exists s1, (mk_mem (hdrs s1) (blocks s1) h2). split; [done |]. split.
  { unfold on_lists. by erewrite zoom_Ok. }
  split; cbn [hdrs blocks lists].
  - done.
  - by rewrite fmap_app.
  - intros b [Hb' | ->%list_elem_of_singleton]%elem_of_app; [by apply Hm | done].
Qed.

Lemma on_lists_Ok {A} (m : M heap A) s a h' :
  m (lists s) = Ok (a, h') -> on_lists m s = Ok (a, mk_mem (hdrs s) (blocks s) h').
Proof. intros H. unfold on_lists. by erewrite zoom_Ok. Qed.
Lemma on_lists_get {A} (m : M heap A) s a : m (lists s) = Ok (a, lists s) -> on_lists m s = Ok (a, s).
Proof. intros H. rewrite (on_lists_Ok _ _ _ _ H). by destruct s. Qed.
Lemma upd_hdr_Ok h k s f :
  hdrs s !! h = Some k -> upd_hdr h f s = Ok (tt, mk_mem (<[h := f k]> (hdrs s)) (blocks s) (lists s)).
Proof. intros H. unfold upd_hdr, on_hdrs. by erewrite zoom_Ok; [| apply update_Ok]. Qed.
Lemma get_hdr_Ok h k s : hdrs s !! h = Some k -> get_hdr h s = Ok (k, s).
Proof.
  intros H. unfold get_hdr, on_hdrs. erewrite zoom_Ok by by apply load_Ok. by destruct s.
Qed.

Lemma free_list_upd h k k' s l :
  free_list h k s l -> free_list h k' (mk_mem (<[h := k']> (hdrs s)) (blocks s) (lists s)) l.
Proof. intros [? ? ?]. split; cbn [hdrs blocks lists]; [by rewrite lookup_insert_eq | done ..]. Qed.

(** ** The operations *)

Lemma memblock_alloc_empty h s k : mb_inv h s k [] -> memblock_alloc h s = Ok (NULL, s).
Proof.
  intros [[Hk _ _] Hm Hn _ Hrest _]. unfold memblock_alloc. rewrite (proj2 (Z.eqb_neq _ _) Hn).
  mstep (get_hdr_Ok _ _ _ Hk). by rewrite Hm, Hrest.
Qed.

Lemma memblock_alloc_Ok h s k b l :
  mb_inv h s k (b :: l) ->
  exists s', memblock_alloc h s = Ok (b, s') /\ mb_inv h s' (set_rest (rest_block k - 1) k) l.
Proof.
  intros [[Hk Hr Hmg] Hm Hn Ht Hrest Hle]. unfold memblock_alloc. rewrite (proj2 (Z.eqb_neq _ _) Hn).
  mstep (get_hdr_Ok _ _ _ Hk). rewrite Hm, Z.eqb_refl. cbn [negb].
  simpl length in Hrest. destruct (Z.leb_spec (rest_block k) 0) as [Hz | Hz]; [lia |].
  mstep (on_lists_get _ _ _ (get_next_Ok _ _ _ (dlist_first _ _ _ Hr))).
  cbn [first_node fmap list_fmap List.hd]. rewrite blk_entry_node.
  destruct (list_del_at _ _ [] _ _ Hr) as (h1 & E1 & Hr1 & Hx & [Hd1 Hf1]).
  destruct (INIT_LIST_HEAD_Ok h1 (_node b)) as (h2 & E2 & _ & [Hd2 Hf2]).
  { rewrite Hd1. apply (dlist_dom _ _ _ _ Hr). set_solver. }
  assert (E : list_del_init (_node b) (lists s) = Ok (tt, h2)).
  { unfold list_del_init. by mstep E1. }
  pose proof (NoDup_remove_mid _ [] _ _ (proj1 Hr)) as [_ Hnb].
  mstep (on_lists_Ok _ _ _ _ E).
  mstep (upd_hdr_Ok h k (mk_mem (hdrs s) (blocks s) h2) (fun k => set_rest (u32 (rest_block k - 1)) k) Hk).
  eexists. split; [done |]. rewrite u32_small by lia.
  split; cbn; [| done | done | done | lia | lia].
  apply (free_list_upd h k _ (mk_mem (hdrs s) (blocks s) h2)). split; cbn [hdrs blocks lists]; [done | |].
  - apply (dlist_frame h1); [done |]. intros q Hq. apply Hf2. set_solver.
  - intros c Hc. apply Hmg. set_solver.
Qed.

Lemma memblock_free_Ok h s k l a :
  mb_inv h s k l -> rest_block k < total_block k -> a <> NULL -> a ∉ l -> _node a <> _list_block h ->
  exists s', memblock_free h a s = Ok (tt, s') /\ mb_inv h s' (set_rest (rest_block k + 1) k) (l ++ [a]).
Proof.
  intros [Hfl Hm Hn Ht Hrest Hle] Hlt Ha Hal Hah. unfold memblock_free.
  rewrite (proj2 (Z.eqb_neq _ _) Hn), (proj2 (Z.eqb_neq _ _) Ha). cbn [orb].
  mstep (get_hdr_Ok _ _ _ (fl_hdr _ _ _ _ Hfl)). rewrite Hm, Z.eqb_refl. cbn [negb].
  destruct (Z.leb_spec (total_block k) (rest_block k)) as [Hz | Hz]; [lia |].
  destruct (append_block _ _ _ _ _ Hfl Hal Hah) as (s1 & s2 & E1 & E2 & Hfl2).
  mstep E1. mstep E2. rewrite (upd_hdr_Ok h k s2 _ (fl_hdr _ _ _ _ Hfl2)).
  eexists. split; [done |]. rewrite u32_small by lia.
  split; cbn; [by apply (free_list_upd h k) | done | done | done | rewrite length_app; cbn; lia | lia].
Qed.

(** A full allocator ignores a block that is given back. *)
Lemma memblock_free_full h s k l a :
  mb_inv h s k l -> rest_block k = total_block k -> memblock_free h a s = Ok (tt, s).
Proof.
  intros [Hfl Hm Hn Ht Hrest Hle] Hfull. unfold memblock_free.
  rewrite (proj2 (Z.eqb_neq _ _) Hn). destruct (a =? NULL); [done |]. cbn [orb].
  mstep (get_hdr_Ok _ _ _ (fl_hdr _ _ _ _ Hfl)). by rewrite Hm, Hfull, Z.leb_refl.
Qed.

Lemma fold_count {A} (l1 : list A) i :
  0 <= i -> i + Z.of_nat (length l1) < 2 ^ 31 ->
  fold_left (fun i _ => s32 (i + 1)) l1 i = i + Z.of_nat (length l1).
Proof.
  revert i. induction l1 as [|x l1 IH]; intros i Hi Hl; simpl in *; [lia |].
  rewrite s32_small by lia. rewrite IH; lia.
Qed.

Lemma memblock_self_check_Ok h s k l :
  mb_inv h s k l -> total_block k < 2 ^ 31 -> memblock_self_check h s = Ok (0, s).
Proof.
  intros [[Hk Hr Hmg] Hm Hn Ht Hrest Hle] Hlt. unfold memblock_self_check, __memblock_self_check.
  rewrite (proj2 (Z.eqb_neq _ _) Hn). mstep (get_hdr_Ok _ _ _ Hk). rewrite Hm, Z.eqb_refl. cbn [negb].
  mstep (get_hdr_Ok _ _ _ Hk). destruct (Z.ltb_spec (total_block k) (rest_block k)) as [Hz | Hz]; [lia |].
  mstep (on_lists_get _ _ _ (get_next_Ok _ _ _ (dlist_first _ _ _ Hr))). unfold gets at 1.
  unfold bind at 1. erewrite bind_Ok.
  2:{ apply (list_for_each_fold lists _ _ (fun i _ => s32 (i + 1)) s (_node <$> l) 0 Hr).
      intros l1 x l2 E. assert (Hx : x ∈ _node <$> l) by (rewrite E; set_solver).
      apply list_elem_of_fmap in Hx as (b & -> & Hb). rewrite blk_entry_node.
      rewrite (bind_Ok _ _ _ MAGIC_NUMBER s); [done |].
      unfold on_blocks. erewrite zoom_Ok by by apply load_Ok, Hmg. by destruct s. }
  cbn beta iota. mstep (get_hdr_Ok _ _ _ Hk).
  pose proof (length_fmap _node l) as El. rewrite fold_count, El by lia. rewrite u32_small by lia.
  by rewrite Z.add_0_l, Hrest, Z.eqb_refl.
Qed.

(** The allocator at [h] over the blocks [B]. *)
Definition mb_queue (h : Z) (B : list Z) (s : mem) (l : list Z) : Prop :=
  exists k, mb_inv h s k l /\ total_block k = Z.of_nat (length B).

Lemma memblock_free_queue h B :
  apart h B -> FreeQueue (memblock_alloc h) (memblock_free h) (mb_queue h B) B.
Proof.
  intros [Hnd HB]. split; [done | | |].
  - intros s (k & Hi & _). by apply (memblock_alloc_empty h s k).
  - intros s b l (k & Hi & Ht). destruct (memblock_alloc_Ok _ _ _ _ _ Hi) as (s1 & E1 & Hi1).
    exists s1. split; [done |]. by exists (set_rest (rest_block k - 1) k).
  - intros s l a (k & Hi & Ht) Ha Hal Hlen. destruct (HB a Ha) as [Hn Hl].
    destruct (memblock_free_Ok h s k l a Hi) as (s1 & E1 & Hi1); try done.
    { rewrite (mb_rest _ _ _ _ Hi). lia. }
    exists s1. split; [done |]. by exists (set_rest (rest_block k + 1) k).
Qed.

(** ** Initialisation *)

(** The arguments of [memblock_allocator_init] describe a region that the
    32-bit product can address and that does not contain the header. *)
Record region_ok (h pa size block_size : Z) : Prop := {
  ro_h : h <> NULL;
  ro_pa : 0 < pa /\ pa + size <= 2 ^ 64;
  ro_bs : sizeof_block_hdr <= block_size < 2 ^ 32;
  ro_size : 0 < size < 2 ^ 32;
  ro_div : size mod block_size = 0;
  ro_sep : h + 48 <= pa \/ pa + size <= h
}.

Lemma region_snoc pa bs i : 0 <= i -> region_blocks pa bs (i + 1) = region_blocks pa bs i ++ [pa + bs * i].
Proof.
  intros Hi. unfold region_blocks. rewrite seqZ_app by lia.
  by rewrite fmap_app, Z.add_0_l.
Qed.

Lemma region_elem pa bs n b : b ∈ region_blocks pa bs n <-> exists i, b = pa + bs * i /\ 0 <= i < n.
Proof.
  unfold region_blocks. rewrite list_elem_of_fmap. split; intros (i & E & Hi); exists i;
    rewrite elem_of_seqZ in *; split; [done | lia | done | lia].
Qed.

Lemma region_length pa bs n : 0 <= n -> Z.of_nat (length (region_blocks pa bs n)) = n.
Proof. intros Hn. unfold region_blocks. rewrite length_fmap, length_seqZ. lia. Qed.

Section init.
Context (h pa size bs : Z) (R : region_ok h pa size bs).

Lemma region_blocks_num : bs * (size / bs) = size /\ 0 < size / bs < 2 ^ 32.
Proof using R.
  destruct R as [_ _ Hb Hs Hd _]. unfold sizeof_block_hdr in Hb.
  pose proof (Z.div_mod size bs ltac:(lia)) as E. rewrite Hd in E. split; [lia |]. nia.
Qed.

Lemma region_apart : apart h (region_blocks pa bs (size / bs)).
Proof using R.
  destruct region_blocks_num as [E Hn]. destruct R as [_ Hpa Hb Hs _ Hsep]. unfold sizeof_block_hdr in Hb.
  split.
  - unfold region_blocks. apply NoDup_fmap_2; [| apply NoDup_seqZ]. intros i j Hij. nia.
  - intros b (i & -> & Hi)%region_elem. unfold _node, _list_block, NULL. nia.
Qed.

(** One round of the loop. *)
Lemma init_round i s k :
  0 <= i < size / bs -> free_list h k s (region_blocks pa bs i) ->
  let blk := u64 (pa + u32 (bs * i)) in
  exists s', (init_blk_hdr blk;; on_lists (list_add_tail (_node blk) (_list_block h));;
              ret (@Next unit unit tt)) s = Ok (Next tt, s') /\
    free_list h k s' (region_blocks pa bs (i + 1)).
Proof using R.
  intros Hi Hfl. cbv zeta. destruct region_blocks_num as [E Hn]. destruct region_apart as [_ Hap].
  destruct R as [_ Hpa Hb Hs _ _]. unfold sizeof_block_hdr in Hb.
  assert (0 <= bs * i <= size - bs) by nia. rewrite (u32_small (bs * i)), u64_small by lia.
  destruct (Hap (pa + bs * i)) as [_ Hah]; [apply region_elem; eauto |].
  destruct (append_block h k s (region_blocks pa bs i) (pa + bs * i) Hfl) as (s1 & s2 & E1 & E2 & Hf2); [| done |].
  { rewrite region_elem. intros (j & Ej & Hj). nia. }
  exists s2. split; [by mstep E1; mstep E2 |]. by rewrite region_snoc by lia.
Qed.

Lemma memblock_allocator_init_Ok s :
  is_Some (hdrs s !! h) -> _list_block h ∈ dom (lists s) ->
  exists s', memblock_allocator_init h pa size bs s = Ok (0, s') /\
    mb_inv h s' (mk_hdr MAGIC_NUMBER pa bs (size / bs) (size / bs)) (region_blocks pa bs (size / bs)).
Proof using R.
  intros [k0 Hk0] Hd. destruct region_blocks_num as [E Hn]. pose proof R as [Hh Hpa Hb Hs Hdiv _].
  unfold sizeof_block_hdr in Hb. unfold memblock_allocator_init.
  rewrite (proj2 (Z.eqb_neq _ _) Hh), (proj2 (Z.eqb_neq pa 0)) by lia.
  rewrite (proj2 (Z.leb_gt size 0)), (proj2 (Z.leb_gt bs 0)) by lia. cbn [orb].
  rewrite Hdiv, Z.eqb_refl. cbn [negb]. rewrite u32_small by lia.
  mstep (upd_hdr_Ok h k0 s (fun _ => mk_hdr MAGIC_NUMBER pa bs (size / bs) (size / bs)) Hk0).
  destruct (INIT_LIST_HEAD_Ok (lists s) (_list_block h) Hd) as (h1 & E1 & Hr & _).
  mstep (on_lists_Ok (INIT_LIST_HEAD (_list_block h))
    (mk_mem (<[h := mk_hdr MAGIC_NUMBER pa bs (size / bs) (size / bs)]> (hdrs s)) (blocks s) (lists s)) tt h1 E1).
  cbn [hdrs blocks lists]. erewrite bind_Ok by (apply get_hdr_Ok; cbn [hdrs]; apply lookup_insert_eq).
  cbn [total_block].
  match goal with |- context [for_up _ _ ?body _] =>
    destruct (for_up_ind body (fun i _ s => 0 <= i /\ free_list h
      (mk_hdr MAGIC_NUMBER pa bs (size / bs) (size / bs)) s (region_blocks pa bs i)) (fun _ _ => False) (size / bs))
      with (n := Z.to_nat (size / bs)) (i := 0) (a := tt)
           (s := mk_mem (<[h := mk_hdr MAGIC_NUMBER pa bs (size / bs) (size / bs)]> (hdrs s)) (blocks s) h1)
      as (r & s' & E2 & Hr2) end.
  - intros i [] s1 Hi [Hi0 Hfl]. destruct (init_round i s1 _ ltac:(lia) Hfl) as (s2 & E2 & Hfl2).
    exists (Next tt), s2. split; [exact E2 | split; [lia | done]].
  - lia.
  - split; [lia |]. split; cbn [hdrs blocks lists]; [apply lookup_insert_eq | done | set_solver].
  - destruct r as [[] | []]; [| done]. destruct Hr2 as [_ Hfl]. exists s'. split; [by mstep E2 |].
    split; cbn; try done; [lia | by rewrite region_length by lia].
Qed.
End init.

(** A header that was never initialised, or was overwritten. *)
Lemma bad_magic h s k :
  hdrs s !! h = Some k -> magic_number k <> MAGIC_NUMBER ->
  memblock_alloc h s = Ok (NULL, s) /\ (forall a, memblock_free h a s = Ok (tt, s)) /\
  memblock_self_check h s = Ok (- EINVAL, s) /\
  (forall f, memblock_for_each h (Some f) s = Ok (- EINVAL, s)) /\
  (forall f, memblock_for_each_safe h (Some f) s = Ok (- EINVAL, s)).
Proof.
  intros Hk Hm. apply Z.eqb_neq in Hm.
  unfold memblock_alloc, memblock_free, memblock_self_check, memblock_for_each, memblock_for_each_safe.
  repeat split; intros; destruct (h =? NULL); try done;
    try destruct (_ =? NULL); try done; cbn [orb]; mstep (get_hdr_Ok _ _ _ Hk); by rewrite Hm.
Qed.

(** A region of which the 32-bit product cannot address every block: four
    blocks of 2 GiB, of which the last two are the first two again. *)
Definition wrap_mem : mem :=
  mk_mem {[0x1000 := mk_hdr 0 0 0 0 0]} ∅ {[_list_block 0x1000 := mk_list_head 0 0]}.
Definition wrap_check : M mem (Z * Z) :=
  r ← memblock_allocator_init 0x1000 0x80000000 (2 ^ 33) (2 ^ 31);
  c ← memblock_self_check 0x1000;
  ret (r, c).

Lemma memblock_allocator_init_wraps :
  match wrap_check wrap_mem with Ok ((r, c), _) => bool_decide (r = 0 /\ c = - EFAULT) | Err _ => false end = true.
Proof. vm_compute. reflexivity. Qed.

Definition demo_mem : mem :=
  mk_mem {[0x1000 := mk_hdr 0 0 0 0 0]} ∅ {[_list_block 0x1000 := mk_list_head 0 0]}.

(** ** Properties *)

(** The arguments that [memblock_allocator_init] refuses. *)
Lemma init_refused h pa size bs s : h = NULL \/ pa = 0 \/ size <= 0 \/ bs <= 0 \/ size mod bs <> 0 ->
  memblock_allocator_init h pa size bs s = Ok (- EINVAL, s).
Proof.
  intros H. unfold memblock_allocator_init.
  destruct (Z.eqb_spec h NULL); [done |]. destruct (Z.eqb_spec pa 0); [done |].
  destruct (Z.leb_spec size 0); [done |]. destruct (Z.leb_spec bs 0); [done |]. cbn [orb].
  destruct (Z.eqb_spec (size mod bs) 0); [lia | done].
Qed.

(** C11: the allocator is a queue.  [memblock_allocator_init] returns 0 on a
    region of less than 4 GiB that lies apart from its header and whose size is
    a multiple of the block size (it answers -EINVAL for any other size), when a
    block has at least the 24 bytes of the header that a free block carries;
    from there every sequence of allocations and frees of held blocks returns
    what the queue of free blocks returns (null exactly when it is empty), the
    free and the held blocks remain together the blocks of the region, each
    once, and the self check passes. *)
Theorem memblock_refines_queue h pa size bs s ops outs free held :
  region_ok h pa size bs -> is_Some (hdrs s !! h) -> _list_block h ∈ dom (lists s) ->
  let B := region_blocks pa bs (size / bs) in
  spec_run B [] ops = Some (outs, (free, held)) ->
  (exists s0 s1, memblock_allocator_init h pa size bs s = Ok (0, s0) /\
    run (memblock_alloc h) (memblock_free h) ops s0 = Ok (outs, s1) /\ free ++ held ≡ₚ B /\ NoDup B /\
    memblock_self_check h s1 = Ok (0, s1)) /\
  (forall size', size' mod bs <> 0 -> memblock_allocator_init h pa size' bs s = Ok (- EINVAL, s)).
Proof.
  intros R Hs Hd B Hrun. split; [| intros size' Hz; apply init_refused; tauto]. destruct (memblock_allocator_init_Ok _ _ _ _ R s Hs Hd) as (s0 & E0 & Hi).
  pose proof (region_apart _ _ _ _ R) as Hap. destruct (region_blocks_num _ _ _ _ R) as [En Hn].
  pose proof (memblock_free_queue h B Hap) as FQ.
  destruct (run_refines (FQ := FQ) ops s0 B [] outs free held) as (s1 & E1 & (k1 & Hi1 & Ht) & HP);
    [by rewrite app_nil_r | | done |].
  { eexists. split; [exact Hi |]. unfold B. by rewrite region_length by lia. }
  exists s0, s1. repeat split; try done; [apply Hap |].
  apply (memblock_self_check_Ok _ _ _ _ Hi1). rewrite Ht. unfold B. rewrite region_length by lia.
  destruct R as [_ _ Hb Hsz _ _]. unfold sizeof_block_hdr in Hb. nia.
Qed.

Lemma memblock_refines_queue_witness :
  (exists s0 s1, memblock_allocator_init 0x1000 0x2000 96 32 demo_mem = Ok (0, s0) /\
    run (memblock_alloc 0x1000) (memblock_free 0x1000) [Alloc; Alloc; Free 0x2000; Alloc; Alloc; Alloc] s0 =
      Ok ([0x2000; 0x2020; 0x2040; 0x2000; 0], s1) /\
    [] ++ [0x2000; 0x2040; 0x2020] ≡ₚ region_blocks 0x2000 32 (96 / 32) /\
    NoDup (region_blocks 0x2000 32 (96 / 32)) /\ memblock_self_check 0x1000 s1 = Ok (0, s1)) /\
  (forall size', size' mod 32 <> 0 -> memblock_allocator_init 0x1000 0x2000 size' 32 demo_mem = Ok (- EINVAL, demo_mem)).
Proof.
  apply (memblock_refines_queue 0x1000 0x2000 96 32 demo_mem
    [Alloc; Alloc; Free 0x2000; Alloc; Alloc; Alloc]).
  - split; unfold NULL, sizeof_block_hdr; first [lia | done].
  - by vm_compute; eauto.
  - apply (bool_decide_unpack _). by vm_compute.
  - by vm_compute.
Defined.

(** Misuse of the allocator.  The initialisation refuses a null header or
    region, an empty region, and a size that is not a multiple of the block
    size, without touching memory; the operations on a header without the
    magic number do nothing; a block given back to a full allocator is
    ignored, and an empty allocator returns null. *)
Lemma memblock_misuse h s k :
  hdrs s !! h = Some k ->
  (forall pa size bs, h = NULL \/ pa = 0 \/ size <= 0 \/ bs <= 0 \/ size mod bs <> 0 ->
     memblock_allocator_init h pa size bs s = Ok (- EINVAL, s)) /\
  (magic_number k <> MAGIC_NUMBER ->
     memblock_alloc h s = Ok (NULL, s) /\ (forall a, memblock_free h a s = Ok (tt, s)) /\
     memblock_self_check h s = Ok (- EINVAL, s)) /\
  (forall l, mb_inv h s k l -> rest_block k = total_block k -> forall a, memblock_free h a s = Ok (tt, s)) /\
  (mb_inv h s k [] -> memblock_alloc h s = Ok (NULL, s)).
Proof.
  intros Hk. repeat split.
  - intros pa size bs. apply init_refused.
  - by apply (bad_magic h s k).
  - intros a. by apply (bad_magic h s k).
  - by apply (bad_magic h s k).
  - intros l Hi Hf a. by apply (memblock_free_full h s k l).
  - intros Hi. by apply (memblock_alloc_empty h s k).
Qed.

Lemma memblock_misuse_witness :
  memblock_allocator_init 0x1000 0x2000 100 32 demo_mem = Ok (- EINVAL, demo_mem) /\
  memblock_alloc 0x1000 demo_mem = Ok (NULL, demo_mem).
Proof.
  destruct (memblock_misuse 0x1000 demo_mem (mk_hdr 0 0 0 0 0)) as (H1 & H2 & _); [done |].
  split; [apply H1; right; right; right; right; done | apply H2; done].
Defined.
