(* ===== verification/Cpu.v ===== *)
(** * Interrupt masking and nested critical sections

    [include/csr.h] (the [sstatus] register), [include/asm/cpu.h] and
    [include/aco/cpu.h] (the interrupt switch of the local hart) and
    [kernel/cpu_critical.c] (the nesting counter of each hart).  A value of
    [cpu] is the part of the machine one hart works on: its [sstatus] and its
    entries of the arrays [INTR_NEST] and [INTR_ENABLE]; [cpu_getid] always
    selects the entries of the running hart, so no other hart touches them. *)
From S2P Require Import Prelude.

Record cpu := mk_cpu {
  sstatus : Z;
  INTR_NEST : Z;
  INTR_ENABLE : Z
}.

Definition r_sstatus : M cpu Z := gets sstatus.
Definition w_sstatus (x : Z) : M cpu unit :=
  modify (fun c => mk_cpu x (INTR_NEST c) (INTR_ENABLE c)).
Definition set_nest (n : Z) : M cpu unit :=
  modify (fun c => mk_cpu (sstatus c) n (INTR_ENABLE c)).
Definition set_enable (e : Z) : M cpu unit :=
  modify (fun c => mk_cpu (sstatus c) (INTR_NEST c) e).

(** [src/arch/riscv/include/csr.h:54-58 SSTATUS_SIE] *)
Definition SSTATUS_SIE : Z := Z.shiftl 1 1.

(** [src/arch/riscv/include/csr.h:297-301 intr_on] *)
Definition intr_on : M cpu unit :=
  x ← r_sstatus; w_sstatus (Z.lor x SSTATUS_SIE).

(** [src/arch/riscv/include/csr.h:304-308 intr_off] *)
Definition intr_off : M cpu unit :=
  x ← r_sstatus; w_sstatus (Z.land x (Z.lnot SSTATUS_SIE)).

(** The test of [intr_get] on a value of the register. *)
Definition sie_bit (x : Z) : Z := if Z.land x SSTATUS_SIE =? 0 then 0 else 1.

(** [src/arch/riscv/include/csr.h:311-316 intr_get] *)
Definition intr_get : M cpu Z :=
  x ← r_sstatus; ret (sie_bit x).

(** [src/arch/riscv/include/csr.h:326-332 csr_intlock] *)
Definition csr_intlock : M cpu Z :=
  enable ← intr_get;
  intr_off;;
  ret (u8 enable).

(** [src/arch/riscv/include/csr.h:334-342 csr_intrestore] *)
Definition csr_intrestore (val : Z) : M cpu unit :=
  if negb (Z.land val 1 =? 0) then intr_on else intr_off.

(** [src/include/aco/cpu.h:32-35 cpu_intr_off] *)
Definition cpu_intr_off : M cpu unit := intr_off.

(** [src/include/aco/cpu.h:42-45 cpu_intr_on] *)
Definition cpu_intr_on : M cpu unit := intr_on.

(** [src/include/aco/cpu.h:52-55 cpu_intr_get] *)
Definition cpu_intr_get : M cpu Z := intr_get.

(** [src/include/aco/cpu.h:62-68 cpu_intr_restore] *)
Definition cpu_intr_restore (intr_enable : Z) : M cpu unit :=
  if negb (intr_enable =? 0) then cpu_intr_on else cpu_intr_off.

(** [src/kernel/cpu_critical.c:12-21 cpu_critical_in] *)
Definition cpu_critical_in : M cpu Z :=
  local_cpu_state ← cpu_intr_get;
  cpu_intr_off;;
  nest ← gets INTR_NEST;
  when (nest =? 0) (set_enable local_cpu_state);;
  set_nest (s32 (nest + 1));;
  gets INTR_NEST.

(** [src/kernel/cpu_critical.c:23-40 cpu_critical_out] *)
Definition cpu_critical_out : M cpu Z :=
  local_cpu_state ← cpu_intr_get;
  cpu_intr_off;;
  nest ← gets INTR_NEST;
  if nest =? 0 then cpu_intr_restore local_cpu_state;; ret 0
  else
    set_nest (s32 (nest - 1));;
    nest ← gets INTR_NEST;
    if nest =? 0 then
      enable ← gets INTR_ENABLE;
      cpu_intr_restore enable;; ret 0
    else gets INTR_NEST.

(** ** Specification

    [at_depth x d c]: the hart is [d] critical sections deep and ran with
    the register [x] outside of them. *)
Definition masked (x : Z) : Z := Z.land x (Z.lnot SSTATUS_SIE).

Definition at_depth (x : Z) (d : Z) (c : cpu) : Prop :=
  INTR_NEST c = d /\
  if d =? 0 then sstatus c = x
  else sstatus c = masked x /\ INTR_ENABLE c = sie_bit x.

(** Bit [i] of the register with interrupts masked. *)
Lemma masked_spec x i : 0 <= i ->
  Z.testbit (masked x) i = if i =? 1 then false else Z.testbit x i.
Proof.
  intros Hi. unfold masked. rewrite Z.land_spec, Z.lnot_spec by done.
  unfold SSTATUS_SIE. rewrite Z.shiftl_mul_pow2, Z.mul_1_l by lia.
  rewrite Z.pow2_bits_eqb by lia. destruct (Z.eqb_spec i 1) as [-> | Hn].
  - by rewrite Z.eqb_refl, andb_false_r.
  - replace (1 =? i) with false by (symmetry; lia). apply andb_true_r.
Qed.

Lemma sie_bit_spec x : sie_bit x = if Z.testbit x 1 then 1 else 0.
Proof.
  unfold sie_bit, SSTATUS_SIE. rewrite Z.shiftl_mul_pow2, Z.mul_1_l by lia.
  destruct (Z.testbit x 1) eqn:E.
  - destruct (Z.eqb_spec (Z.land x (2 ^ 1)) 0) as [H | H]; [exfalso | done].
    assert (Hb : Z.testbit (Z.land x (2 ^ 1)) 1 = true).
    { by rewrite Z.land_spec, Z.pow2_bits_eqb, E by lia. }
    rewrite H, Z.bits_0 in Hb. done.
  - destruct (Z.eqb_spec (Z.land x (2 ^ 1)) 0) as [H | H]; [done |].
    destruct H. apply Z.bits_inj'. intros i Hi.
    rewrite Z.land_spec, Z.pow2_bits_eqb, Z.bits_0 by lia.
    destruct (Z.eqb_spec 1 i) as [<- |]; [by rewrite E | apply andb_false_r].
Qed.

Lemma masked_masked x : masked (masked x) = masked x.
Proof.
  apply Z.bits_inj'. intros i Hi. rewrite !masked_spec by done.
  by destruct (i =? 1).
Qed.

Lemma sie_bit_masked x : sie_bit (masked x) = 0.
Proof. rewrite sie_bit_spec, masked_spec by lia. done. Qed.

(** Restoring the recorded state of the interrupts gives back the register. *)
Lemma restore_masked x :
  (if negb (sie_bit x =? 0) then Z.lor (masked x) SSTATUS_SIE
   else masked (masked x)) = x.
Proof.
  rewrite sie_bit_spec. destruct (Z.testbit x 1) eqn:E; simpl;
    [| rewrite masked_masked]; apply Z.bits_inj'; intros i Hi.
  - rewrite Z.lor_spec, masked_spec by done. unfold SSTATUS_SIE.
    rewrite Z.shiftl_mul_pow2, Z.mul_1_l, Z.pow2_bits_eqb by lia.
    destruct (Z.eqb_spec i 1) as [-> |]; [by rewrite E |].
    replace (1 =? i) with false by (symmetry; lia). apply orb_false_r.
  - rewrite masked_spec by done. by destruct (Z.eqb_spec i 1) as [-> |].
Qed.

Lemma cpu_critical_in_Ok x d c :
  at_depth x d c -> 0 <= d < 2 ^ 31 - 1 ->
  exists c', cpu_critical_in c = Ok (d + 1, c') /\ at_depth x (d + 1) c'.
Proof.
  destruct c as [ss n e]. intros [Hn Hd] Hr. simpl in *. subst n.
  unfold at_depth. replace (d + 1 =? 0) with false by (symmetry; lia).
  cbv [cpu_critical_in cpu_intr_get intr_get r_sstatus gets bind ret cpu_intr_off
    intr_off w_sstatus modify when set_enable set_nest sstatus INTR_NEST INTR_ENABLE].
  fold (masked ss). rewrite s32_small by lia. destruct (Z.eqb_spec d 0) as [-> | Hne].
  - subst ss. eauto 10.
  - destruct Hd as [-> ->]. rewrite masked_masked. eauto 10.
Qed.

Lemma cpu_critical_out_Ok x d c :
  at_depth x d c -> 0 <= d < 2 ^ 31 ->
  exists c', cpu_critical_out c = Ok (Z.max 0 (d - 1), c') /\ at_depth x (Z.max 0 (d - 1)) c'.
Proof.
  destruct c as [ss n e]. intros [Hn Hd] Hr. simpl in *. subst n.
  cbv [cpu_critical_out cpu_intr_get intr_get r_sstatus gets bind ret cpu_intr_off
    intr_off w_sstatus modify when set_enable set_nest sstatus INTR_NEST INTR_ENABLE
    cpu_intr_restore cpu_intr_on intr_on].
  fold (masked ss). rewrite s32_small by lia. unfold at_depth.
  destruct (Z.eqb_spec d 0) as [-> | Hne].
  - subst ss. change (Z.max 0 (0 - 1)) with 0. pose proof (restore_masked x) as Hx.
    fold (masked (masked x)). destruct (negb _); eauto.
  - destruct Hd as [-> ->]. rewrite masked_masked.
    replace (Z.max 0 (d - 1)) with (d - 1) by lia.
    destruct (Z.eqb_spec (d - 1) 0) as [E | E]; [rewrite E | eauto 10].
    pose proof (restore_masked x) as Hx. fold (masked (masked x)).
    destruct (negb _); eauto.
Qed.

(** ** Traces of a hart *)

Inductive critical_op := CriticalIn | CriticalOut.

(** The run of a sequence of calls, with the values they return. *)
Fixpoint critical_run (ops : list critical_op) : M cpu (list Z) :=
  match ops with
  | [] => ret []
  | o :: ops =>
    r ← match o with CriticalIn => cpu_critical_in | CriticalOut => cpu_critical_out end;
    rs ← critical_run ops;
    ret (r :: rs)
  end.

(** The nesting depths after each call: what [cpu_critical.h] promises. *)
Fixpoint depths (d : Z) (ops : list critical_op) : list Z :=
  match ops with
  | [] => []
  | o :: ops =>
    let d' := match o with CriticalIn => d + 1 | CriticalOut => Z.max 0 (d - 1) end in
    d' :: depths d' ops
  end.

Lemma critical_run_Ok x ops : forall d c,
  at_depth x d c -> 0 <= d -> d + Z.of_nat (length ops) < 2 ^ 31 - 1 ->
  exists c', critical_run ops c = Ok (depths d ops, c') /\
    at_depth x (List.last (depths d ops) d) c'.
Proof.
  induction ops as [|o ops IH]; intros d c Hc H0 Hlen; [by eexists |].
  cbn [length] in Hlen. cbn [critical_run depths].
  assert (Hstep : exists c1, (match o with CriticalIn => cpu_critical_in
      | CriticalOut => cpu_critical_out end) c
      = Ok (match o with CriticalIn => d + 1 | CriticalOut => Z.max 0 (d - 1) end, c1) /\
      at_depth x (match o with CriticalIn => d + 1 | CriticalOut => Z.max 0 (d - 1) end) c1).
  { destruct o; [apply cpu_critical_in_Ok | apply cpu_critical_out_Ok]; (done || lia). }
  destruct Hstep as (c1 & E1 & H1). mstep E1.
  set (d' := match o with CriticalIn => d + 1 | CriticalOut => Z.max 0 (d - 1) end) in *.
  destruct (IH d' c1 H1) as (c2 & E2 & H2); [destruct o; lia | destruct o; lia |].
  mstep E2. exists c2. split; [done |]. by rewrite last_cons_default.
Qed.

(** The calls of [cpu_critical_in] and [cpu_critical_out] on a hart return
    the nesting depth after each call, an unbalanced [cpu_critical_out] stays
    at depth 0 and leaves the interrupts as they are, and a sequence that
    ends at depth 0 gives back the register [sstatus] it started with, while
    interrupts are masked at every other depth. *)
Lemma critical_nesting x e ops :
  Z.of_nat (length ops) < 2 ^ 31 - 1 ->
  exists c', critical_run ops (mk_cpu x 0 e) = Ok (depths 0 ops, c') /\
    (List.last (depths 0 ops) 0 = 0 -> sstatus c' = x) /\
    (List.last (depths 0 ops) 0 <> 0 -> intr_get c' = Ok (0, c')).
Proof.
  intros Hlen. destruct (critical_run_Ok x ops 0 (mk_cpu x 0 e)) as (c' & E & Hn & Hc);
    [done | done | lia |].
  exists c'. split; [exact E |]. revert Hc.
  destruct (Z.eqb_spec (List.last (depths 0 ops) 0) 0) as [H0 | H0]; intros Hc.
  - by split.
  - split; [by intros |]. intros _. destruct Hc as [Hss _].
    unfold intr_get, r_sstatus, gets, bind, ret. by rewrite Hss, sie_bit_masked.
Qed.

Lemma critical_nesting_witness :
  exists c', critical_run [CriticalIn; CriticalIn; CriticalOut; CriticalOut; CriticalOut]
    (mk_cpu 2 0 0) = Ok ([1; 2; 1; 0; 0], c') /\ sstatus c' = 2.
Proof.
  destruct (critical_nesting 2 0 [CriticalIn; CriticalIn; CriticalOut; CriticalOut; CriticalOut])
    as (c' & E & H & _); [vm_compute; reflexivity |].
  exists c'. split; [exact E | apply H; reflexivity].
Defined.
