(* ===== verification/Locks.v ===== *)
(** * Atomic operations, spinlocks and reader/writer locks

    [include/aco/atomic.h], [include/aco/spinlock.h], [include/aco/rwlock.h].
    The code of a lock operation is a value of [code]: a tree of atomic
    actions whose continuation takes the value the action returns, with [Loop]
    for [while] loops.  Harts interleave at the granularity of one action,
    each hart having its own [cpu]; [reach] is the set of configurations of
    any number of harts that acquire and release one [rwlock_t] in any order. *)
From S2P Require Import Prelude Cpu.

(** ** The GCC atomic builtins

    Each returns the value the expression yields and the value stored. *)

(** [src/include/aco/atomic.h:24-27 atomic_fetch_and_add] *)
Definition atomic_fetch_and_add (old v : Z) : Z * Z := (old, u32 (old + v)).
(** [src/include/aco/atomic.h:29-32 atomic_fetch_and_sub] *)
Definition atomic_fetch_and_sub (old v : Z) : Z * Z := (old, u32 (old - v)).
(** [src/include/aco/atomic.h:34-37 atomic_fetch_and_or] *)
Definition atomic_fetch_and_or (old v : Z) : Z * Z := (old, Z.lor old v).
(** [src/include/aco/atomic.h:39-42 atomic_fetch_and_and] *)
Definition atomic_fetch_and_and (old v : Z) : Z * Z := (old, Z.land old v).
(** [src/include/aco/atomic.h:44-47 atomic_fetch_and_xor] *)
Definition atomic_fetch_and_xor (old v : Z) : Z * Z := (old, Z.lxor old v).
(** [src/include/aco/atomic.h:49-52 atomic_fetch_and_nand] *)
Definition atomic_fetch_and_nand (old v : Z) : Z * Z := (old, u32 (Z.lnot (Z.land old v))).
(** [src/include/aco/atomic.h:54-57 atomic_add_and_fetch] *)
Definition atomic_add_and_fetch (old v : Z) : Z * Z := (u32 (old + v), u32 (old + v)).
(** [src/include/aco/atomic.h:59-62 atomic_sub_and_fetch] *)
Definition atomic_sub_and_fetch (old v : Z) : Z * Z := (u32 (old - v), u32 (old - v)).
(** [src/include/aco/atomic.h:64-67 atomic_or_and_fetch] *)
Definition atomic_or_and_fetch (old v : Z) : Z * Z := (Z.lor old v, Z.lor old v).
(** [src/include/aco/atomic.h:69-72 atomic_and_and_fetch] *)
Definition atomic_and_and_fetch (old v : Z) : Z * Z := (Z.land old v, Z.land old v).
(** [src/include/aco/atomic.h:74-77 atomic_xor_and_fetch] *)
Definition atomic_xor_and_fetch (old v : Z) : Z * Z := (Z.lxor old v, Z.lxor old v).
(** [src/include/aco/atomic.h:79-82 atomic_nand_and_fetch] *)
Definition atomic_nand_and_fetch (old v : Z) : Z * Z :=
  (u32 (Z.lnot (Z.land old v)), u32 (Z.lnot (Z.land old v))).

(** ** Code of a lock operation *)

(** [src/include/aco/rwlock.h:8-12 struct rwlock] *)
Record rwlock_t := mk_rwlock { lk : Z; readers : Z; writers : Z }.

Inductive cell := LK | READERS | WRITERS.

Definition read_cell (c : cell) (m : rwlock_t) : Z :=
  match c with LK => lk m | READERS => readers m | WRITERS => writers m end.
Definition write_cell (c : cell) (v : Z) (m : rwlock_t) : rwlock_t :=
  match c with
  | LK => mk_rwlock v (readers m) (writers m)
  | READERS => mk_rwlock (lk m) v (writers m)
  | WRITERS => mk_rwlock (lk m) (readers m) v
  end.

Inductive action :=
  | Critical (o : critical_op)
  | Atomic (op : Z -> Z -> Z * Z) (c : cell) (v : Z).

(** [Loop body k] runs [body] again until it returns [true] ([break]). *)
Inductive code :=
  | Ret (b : bool)
  | Do (a : action) (k : Z -> code)
  | Loop (body : code) (k : code).

Fixpoint seq (c : code) (k : bool -> code) : code :=
  match c with
  | Ret b => k b
  | Do a f => Do a (fun v => seq (f v) k)
  | Loop b c => Loop b (seq c k)
  end.
Notation "c '>>' k" := (seq c (fun _ => k)) (at level 60, right associativity) : aco_scope.

Definition act (a : action) : code := Do a (fun _ => Ret true).

(** [src/include/aco/spinlock.h:18-23 lock] *)
Definition lock (l : cell) : code :=
  act (Critical CriticalIn) >>
  Loop (Do (Atomic atomic_fetch_and_and l 0) (fun v => Ret (negb (v =? 0)))) (Ret true).

(** [src/include/aco/spinlock.h:25-30 unlock] *)
Definition unlock (l : cell) : code :=
  act (Atomic atomic_fetch_and_or l 1) >> act (Critical CriticalOut).

(** [src/include/aco/rwlock.h:25-41 r_lock] *)
Definition r_lock : code :=
  Loop
    (act (Critical CriticalIn) >>
     lock LK >>
     Do (Atomic atomic_fetch_and_add WRITERS 0) (fun w =>
       if w =? 0 then
         act (Atomic atomic_fetch_and_add READERS 1) >>
         unlock LK >>
         Ret true
       else
         unlock LK >>
         act (Critical CriticalOut) >>
         Ret false))
    (Ret true).

(** [src/include/aco/rwlock.h:43-47 r_unlock] *)
Definition r_unlock : code :=
  act (Atomic atomic_fetch_and_sub READERS 1) >> act (Critical CriticalOut).

(** [src/include/aco/rwlock.h:49-65 w_lock] The right operand of the
    conjunction is evaluated when the left one holds. *)
Definition w_lock : code :=
  let failed := unlock LK >> act (Critical CriticalOut) >> Ret false in
  Loop
    (act (Critical CriticalIn) >>
     lock LK >>
     Do (Atomic atomic_fetch_and_add WRITERS 0) (fun w =>
       if w =? 0 then
         Do (Atomic atomic_fetch_and_add READERS 0) (fun r =>
           if r =? 0 then
             act (Atomic atomic_fetch_and_add WRITERS 1) >>
             unlock LK >>
             Ret true
           else failed)
       else failed))
    (Ret true).

(** [src/include/aco/rwlock.h:67-71 w_unlock] *)
Definition w_unlock : code :=
  act (Atomic atomic_fetch_and_sub WRITERS 1) >> act (Critical CriticalOut).

(** [src/include/aco/rwlock.h:74-90 w_lock_br] *)
Definition w_lock_br : code :=
  Loop
    (act (Critical CriticalIn) >>
     lock LK >>
     Do (Atomic atomic_fetch_and_add WRITERS 0) (fun w =>
       if w =? 0 then
         act (Atomic atomic_fetch_and_add WRITERS 1) >>
         unlock LK >>
         Ret true
       else
         unlock LK >>
         act (Critical CriticalOut) >>
         Ret false))
    (Loop (Do (Atomic atomic_fetch_and_add READERS 0) (fun r => Ret (r =? 0)))
       (Ret true)).

(** [src/include/aco/rwlock.h:92-96 w_unlock_br] *)
Definition w_unlock_br : code :=
  act (Atomic atomic_fetch_and_sub WRITERS 1) >> act (Critical CriticalOut).

(** [src/include/aco/rwlock.h:17-23 rwlock_init] *)
Definition rwlock_init (p : rwlock_t) : rwlock_t :=
  let p := write_cell WRITERS 0 p in
  let p := write_cell READERS 0 p in
  write_cell LK 1 p.

(** ** Interleaving of harts *)

Inductive kind := Reader | Writer | WriterBr.

Definition acquire (k : kind) : code :=
  match k with Reader => r_lock | Writer => w_lock | WriterBr => w_lock_br end.
Definition release (k : kind) : code :=
  match k with Reader => r_unlock | Writer => w_unlock | WriterBr => w_unlock_br end.

Inductive status :=
  | Idle
  | Acquiring (k : kind) (c : code)
  | Holding (k : kind)
  | Releasing (k : kind) (c : code).

(** One action of a hart on its [cpu] and on the shared lock. *)
Inductive code_step : code -> cpu -> rwlock_t -> code -> cpu -> rwlock_t -> Prop :=
  | step_in k c m v c' :
      cpu_critical_in c = Ok (v, c') ->
      code_step (Do (Critical CriticalIn) k) c m (k v) c' m
  | step_out k c m v c' :
      cpu_critical_out c = Ok (v, c') ->
      code_step (Do (Critical CriticalOut) k) c m (k v) c' m
  | step_atomic op l v k c m :
      code_step (Do (Atomic op l v) k) c m
        (k (fst (op (read_cell l m) v))) c (write_cell l (snd (op (read_cell l m) v)) m)
  | step_loop body k c m :
      code_step (Loop body k) c m (seq body (fun b => if b then k else Loop body k)) c m.

Inductive hart_step : status -> cpu -> rwlock_t -> status -> cpu -> rwlock_t -> Prop :=
  | hart_acquire k c m : hart_step Idle c m (Acquiring k (acquire k)) c m
  | hart_acquiring k x c m x' c' m' :
      code_step x c m x' c' m' ->
      hart_step (Acquiring k x) c m (Acquiring k x') c' m'
  | hart_acquired k b c m : hart_step (Acquiring k (Ret b)) c m (Holding k) c m
  | hart_release k c m : hart_step (Holding k) c m (Releasing k (release k)) c m
  | hart_releasing k x c m x' c' m' :
      code_step x c m x' c' m' ->
      hart_step (Releasing k x) c m (Releasing k x') c' m'
  | hart_released k b c m : hart_step (Releasing k (Ret b)) c m Idle c m.

Record config := mk_config { shared : rwlock_t; harts : list (status * cpu) }.

Inductive sys_step : config -> config -> Prop :=
  | sys_hart m hs i st c st' c' m' :
      hs !! i = Some (st, c) ->
      hart_step st c m st' c' m' ->
      sys_step (mk_config m hs) (mk_config m' (<[i := (st', c')]> hs)).

(** The lock is initialised and every hart is outside of it, with interrupts
    as its register of the list says. *)
Definition start (xs : list Z) : config :=
  mk_config (rwlock_init (mk_rwlock 0 0 0)) ((fun x => (Idle, mk_cpu x 0 0)) <$> xs).

Inductive reach (xs : list Z) : config -> Prop :=
  | reach_start : reach xs (start xs)
  | reach_step s s' : reach xs s -> sys_step s s' -> reach xs s'.

(** ** Program points

    [resume c vs] is what is left of [c] after actions that returned [vs] (a
    loop head consumes one value).  Every status a hart can reach is
    [status_at] of one of the points below. *)

Fixpoint resume (c : code) (vs : list Z) : code :=
  match vs with
  | [] => c
  | v :: vs =>
    match c with
    | Ret b => Ret b
    | Do _ k => resume (k v) vs
    | Loop body k => resume (seq body (fun b => if b then k else Loop body k)) vs
    end
  end.

Inductive point :=
  | PIdle
  | PTry (k : kind)        (* head of the [while(1)] *)
  | PIn (k : kind)         (* its [cpu_critical_in] *)
  | PLockIn (k : kind)     (* the one of [lock] *)
  | PSpin (k : kind)       (* head of the spinning loop *)
  | PAnd (k : kind)        (* the fetch-and-and of [lock] *)
  | PTestW (k : kind)      (* reads [writers] *)
  | PTestR                 (* [w_lock] reads [readers] *)
  | PInc (k : kind)        (* the increment *)
  | POr (k : kind) (b : bool)     (* the fetch-and-or of [unlock] *)
  | PLockOut (k : kind) (b : bool)
  | POut (k : kind)        (* [cpu_critical_out] before another try *)
  | PWaitLoop              (* [w_lock_br] waits for the readers *)
  | PWait
  | PDone (k : kind)
  | PHold (k : kind)
  | PSub (k : kind)        (* the decrement of the release *)
  | PRelOut (k : kind)
  | PRelDone (k : kind).

Definition seen_inc (k : kind) : list Z :=
  match k with Writer => [0; 0; 0; 0; 1; 0; 0] | _ => [0; 0; 0; 0; 1; 0] end.

Definition acq (k : kind) (vs : list Z) : status := Acquiring k (resume (acquire k) vs).

Definition status_at (p : point) : status :=
  match p with
  | PIdle => Idle
  | PTry k => acq k []
  | PIn k => acq k [0]
  | PLockIn k => acq k [0; 0]
  | PSpin k => acq k [0; 0; 0]
  | PAnd k => acq k [0; 0; 0; 0]
  | PTestW k => acq k [0; 0; 0; 0; 1]
  | PTestR => acq Writer [0; 0; 0; 0; 1; 0]
  | PInc k => acq k (seen_inc k)
  | POr k true => acq k (seen_inc k ++ [0])
  | POr k false => acq k [0; 0; 0; 0; 1; 1]
  | PLockOut k true => acq k (seen_inc k ++ [0; 0])
  | PLockOut k false => acq k [0; 0; 0; 0; 1; 1; 0]
  | POut k => acq k [0; 0; 0; 0; 1; 1; 0; 0]
  | PWaitLoop => acq WriterBr (seen_inc WriterBr ++ [0; 0; 0])
  | PWait => acq WriterBr (seen_inc WriterBr ++ [0; 0; 0; 0])
  | PDone k => Acquiring k (Ret true)
  | PHold k => Holding k
  | PSub k => Releasing k (release k)
  | PRelOut k => Releasing k (resume (release k) [0])
  | PRelDone k => Releasing k (Ret true)
  end.

(** Nesting depth of the critical sections at a point. *)
Definition depth_at (p : point) : Z :=
  match p with
  | PIdle | PTry _ | PIn _ | PRelDone _ => 0
  | PLockIn _ | POut _ | PWaitLoop | PWait | PDone _ | PHold _ | PSub _ | PRelOut _ => 1
  | _ => 2
  end.

(** The hart owns the spinlock of the rwlock. *)
Definition in_lock (p : point) : Z :=
  match p with PTestW _ | PTestR | PInc _ | POr _ _ => 1 | _ => 0 end.

(** The hart has added itself to a counter and not yet left it. *)
Definition entered (p : point) : option kind :=
  match p with
  | POr k true | PLockOut k true | PDone k | PHold k | PSub k => Some k
  | PWaitLoop | PWait => Some WriterBr
  | _ => None
  end.
Definition as_reader (p : point) : Z :=
  match entered p with Some Reader => 1 | _ => 0 end.
Definition as_writer (p : point) : Z :=
  match entered p with Some Writer | Some WriterBr => 1 | _ => 0 end.

(** What the hart has read and relies on. *)
Definition no_writer (p : point) : Prop :=
  match p with PTestR | PInc _ => True | _ => False end.
Definition no_reader (p : point) : Prop :=
  match p with
  | PInc Writer | POr Writer true | PLockOut Writer true => True
  | PDone Writer | PHold Writer | PSub Writer => True
  | PDone WriterBr | PHold WriterBr | PSub WriterBr => True
  | _ => False
  end.

(** The steps of the points and what they do to the lock. *)
Inductive point_step (m : rwlock_t) : point -> point -> rwlock_t -> option critical_op -> Prop :=
  | p_idle k : point_step m PIdle (PTry k) m None
  | p_try k : point_step m (PTry k) (PIn k) m None
  | p_in k : point_step m (PIn k) (PLockIn k) m (Some CriticalIn)
  | p_lock_in k : point_step m (PLockIn k) (PSpin k) m (Some CriticalIn)
  | p_spin k : point_step m (PSpin k) (PAnd k) m None
  | p_and k : point_step m (PAnd k) (if lk m =? 0 then PSpin k else PTestW k)
      (mk_rwlock (Z.land (lk m) 0) (readers m) (writers m)) None
  | p_test_w k : point_step m (PTestW k)
      (if writers m =? 0 then match k with Writer => PTestR | _ => PInc k end else POr k false)
      (mk_rwlock (lk m) (readers m) (u32 (writers m + 0))) None
  | p_test_r : point_step m PTestR (if readers m =? 0 then PInc Writer else POr Writer false)
      (mk_rwlock (lk m) (u32 (readers m + 0)) (writers m)) None
  | p_inc_r : point_step m (PInc Reader) (POr Reader true)
      (mk_rwlock (lk m) (u32 (readers m + 1)) (writers m)) None
  | p_inc_w k : k <> Reader -> point_step m (PInc k) (POr k true)
      (mk_rwlock (lk m) (readers m) (u32 (writers m + 1))) None
  | p_or k b : point_step m (POr k b) (PLockOut k b)
      (mk_rwlock (Z.lor (lk m) 1) (readers m) (writers m)) None
  | p_lock_out_fail k : point_step m (PLockOut k false) (POut k) m (Some CriticalOut)
  | p_lock_out k : point_step m (PLockOut k true)
      (match k with WriterBr => PWaitLoop | _ => PDone k end) m (Some CriticalOut)
  | p_out k : point_step m (POut k) (PTry k) m (Some CriticalOut)
  | p_wait_loop : point_step m PWaitLoop PWait m None
  | p_wait : point_step m PWait (if readers m =? 0 then PDone WriterBr else PWaitLoop)
      (mk_rwlock (lk m) (u32 (readers m + 0)) (writers m)) None
  | p_done k : point_step m (PDone k) (PHold k) m None
  | p_hold k : point_step m (PHold k) (PSub k) m None
  | p_sub_r : point_step m (PSub Reader) (PRelOut Reader)
      (mk_rwlock (lk m) (u32 (readers m - 1)) (writers m)) None
  | p_sub_w k : k <> Reader -> point_step m (PSub k) (PRelOut k)
      (mk_rwlock (lk m) (readers m) (u32 (writers m - 1))) None
  | p_rel_out k : point_step m (PRelOut k) (PRelDone k) m (Some CriticalOut)
  | p_rel_done k : point_step m (PRelDone k) PIdle m None.

Definition cpu_effect (o : option critical_op) (c c' : cpu) : Prop :=
  match o with
  | None => c' = c
  | Some CriticalIn => exists v, cpu_critical_in c = Ok (v, c')
  | Some CriticalOut => exists v, cpu_critical_out c = Ok (v, c')
  end.

(** Every step of the code of a hart is a step of its point. *)
Ltac code_inv H :=
  inversion H; subst; clear H;
  repeat match goal with
  | H : code_step _ _ _ _ _ _ |- _ => inversion H; subst; clear H
  | H : acquire ?k = Ret _ |- _ => destruct k; discriminate H
  end.

Lemma hart_step_point p c m st' c' m' :
  hart_step (status_at p) c m st' c' m' ->
  exists p' o, st' = status_at p' /\ point_step m p p' m' o /\ cpu_effect o c c'.
Proof.
  intros H. destruct p as [| k | k | k | k | k | k | | k | k b | k b | k | | | k | k | k | k | k];
    try destruct k; try destruct b; cbn in H; code_inv H; cbn;
    (eexists _, _; refine (conj _ (conj _ _)); cycle 1;
      [solve [constructor; done] | by (eexists; done) || done |]);
    cbn; try match goal with |- context [if ?x =? 0 then _ else _] => destruct (x =? 0) end;
    reflexivity.
Qed.

(** ** The invariant *)

Definition total {A} (w : A -> Z) (l : list A) : Z := foldr (fun x n => w x + n) 0 l.

Lemma total_insert {A} (w : A -> Z) l i x y :
  l !! i = Some x -> total w (<[i := y]> l) = total w l - w x + w y.
Proof.
  revert i. induction l as [|z l IH]; intros [|i] H; simplify_eq/=; [lia |].
  rewrite (IH _ H). lia.
Qed.

Lemma total_ge {A} (w : A -> Z) l i x :
  (forall x, 0 <= w x) -> l !! i = Some x -> w x <= total w l.
Proof.
  intros Hw. assert (Hn : forall l, 0 <= total w l).
  { intros l'. induction l' as [|y l' IH]; simpl; [lia | specialize (Hw y); lia]. }
  revert i. induction l as [|z l IH]; intros [|i] H; simplify_eq/=.
  - specialize (Hn l). lia.
  - specialize (IH _ H). specialize (Hw z). lia.
Qed.

Lemma total_ge2 {A} (w : A -> Z) l i j x y :
  (forall x, 0 <= w x) -> i <> j -> l !! i = Some x -> l !! j = Some y ->
  w x + w y <= total w l.
Proof.
  intros Hw. revert i j. induction l as [|z l IH]; intros [|i] [|j] Hij Hi Hj; simplify_eq/=.
  - pose proof (total_ge w l j y Hw Hj). lia.
  - pose proof (total_ge w l i x Hw Hi). lia.
  - assert (Hne : i <> j) by congruence. specialize (IH _ _ Hne Hi Hj). specialize (Hw z). lia.
Qed.

Lemma total_bound {A} (w : A -> Z) l :
  (forall x, 0 <= w x <= 1) -> 0 <= total w l <= Z.of_nat (length l).
Proof. intros Hw. induction l as [|x l IH]; simpl; [lia | specialize (Hw x); lia]. Qed.

Record lock_inv (m : rwlock_t) (ps : list point) : Prop := {
  inv_lk : lk m = 1 - total in_lock ps;
  inv_readers : readers m = total as_reader ps;
  inv_writers : writers m = total as_writer ps;
  inv_one_in : total in_lock ps <= 1;
  inv_one_writer : total as_writer ps <= 1;
  inv_no_writer : forall i p, ps !! i = Some p -> no_writer p -> total as_writer ps = 0;
  inv_no_reader : forall i p, ps !! i = Some p -> no_reader p -> total as_reader ps = 0;
  inv_size : Z.of_nat (length ps) < 2 ^ 32 - 1
}.

Lemma in_lock_pos p : 0 <= in_lock p <= 1.
Proof. destruct p; simpl; lia. Qed.
Lemma as_reader_pos p : 0 <= as_reader p <= 1.
Proof. unfold as_reader. destruct (entered p) as [[]|]; lia. Qed.
Lemma as_writer_pos p : 0 <= as_writer p <= 1.
Proof. unfold as_writer. destruct (entered p) as [[]|]; lia. Qed.

(** Points that rely on a counter are protected: by the spinlock, or by being
    a writer themselves. *)
Lemma no_writer_in_lock p : no_writer p -> in_lock p = 1.
Proof. by destruct p. Qed.
Lemma no_reader_guard p : no_reader p -> p = PInc Writer \/ as_writer p = 1.
Proof. destruct p as [| [] | [] | [] | [] | [] | [] | | [] | [] [] | [] [] | [] | | | [] | [] | [] | [] | []]; simpl; auto; tauto. Qed.

Lemma lock_inv_intro m m' ps i p p' :
  lock_inv m ps -> ps !! i = Some p ->
  lk m' = lk m + in_lock p - in_lock p' ->
  readers m' = readers m - as_reader p + as_reader p' ->
  writers m' = writers m - as_writer p + as_writer p' ->
  0 <= lk m' ->
  writers m' <= 1 ->
  (no_writer p' -> writers m' = 0) ->
  (no_reader p' -> readers m' = 0) ->
  (as_writer p < as_writer p' -> in_lock p = 1) ->
  (as_reader p < as_reader p' -> in_lock p = 1 /\ writers m = 0) ->
  lock_inv m' (<[i := p']> ps).
Proof.
  intros [Hlk Hr Hw H1 Hw1 Hnw Hnr Hsz] Hp El Er Ew Hl0 Hw1' Hnw' Hnr' Hwup Hrup.
  pose proof (fun w => total_insert w ps i p p' Hp) as Ht.
  assert (Hlen : length (<[i := p']> ps) = length ps) by apply length_insert.
  assert (Hb : forall w, (forall x, 0 <= w x <= 1) -> 0 <= total w (<[i := p']> ps)).
  { intros w Hpos. by apply total_bound. }
  pose proof (Hb _ as_reader_pos) as Hbr. pose proof (Hb _ as_writer_pos) as Hbw.
  split; rewrite ?Ht, ?Hlen in *; try lia.
  - intros j q Hq Hnq. destruct (decide (i = j)) as [<- | Hij].
    + rewrite list_lookup_insert_eq in Hq by (by eapply lookup_lt_Some).
      injection Hq as <-. specialize (Hnw' Hnq). lia.
    + rewrite list_lookup_insert_ne in Hq by done. specialize (Hnw _ _ Hq Hnq).
      pose proof (total_ge2 in_lock ps i j p q (fun x => proj1 (in_lock_pos x)) Hij Hp Hq).
      pose proof (no_writer_in_lock q Hnq). lia.
  - intros j q Hq Hnq. destruct (decide (i = j)) as [<- | Hij].
    + rewrite list_lookup_insert_eq in Hq by (by eapply lookup_lt_Some).
      injection Hq as <-. specialize (Hnr' Hnq). lia.
    + rewrite list_lookup_insert_ne in Hq by done. specialize (Hnr _ _ Hq Hnq).
      pose proof (total_ge2 in_lock ps i j p q (fun x => proj1 (in_lock_pos x)) Hij Hp Hq).
      pose proof (total_ge as_writer ps j q (fun x => proj1 (as_writer_pos x)) Hq).
      destruct (no_reader_guard q Hnq) as [-> | Hwq]; simpl in *; lia.
Qed.

Lemma lock_inv_step m ps i p p' m' o :
  lock_inv m ps -> ps !! i = Some p -> point_step m p p' m' o ->
  lock_inv m' (<[i := p']> ps).
Proof.
  intros Hinv Hp Hstep. pose proof Hinv as [Hlk Hr Hw H1 Hw1 Hnw Hnr Hsz].
  specialize (Hnw _ _ Hp). specialize (Hnr _ _ Hp).
  pose proof (total_ge in_lock ps i p (fun x => proj1 (in_lock_pos x)) Hp) as Hgl.
  pose proof (total_ge as_reader ps i p (fun x => proj1 (as_reader_pos x)) Hp) as Hgr.
  pose proof (total_ge as_writer ps i p (fun x => proj1 (as_writer_pos x)) Hp) as Hgw.
  pose proof (total_bound in_lock ps in_lock_pos) as Hbl.
  pose proof (total_bound as_reader ps as_reader_pos) as Hbr.
  pose proof (total_bound as_writer ps as_writer_pos) as Hbw.
  assert (Hlen : (0 < length ps)%nat) by (apply lookup_lt_Some in Hp; lia).
  apply (lock_inv_intro m m' ps i p p' Hinv Hp).
  all: destruct Hstep as [| | | | |k|[]|  | |[]| [] []| |[]| | | | | | |[]| |].
  all: repeat match goal with |- context [?x =? 0] => destruct (Z.eqb_spec x 0) end.
  all: try match goal with k : kind |- _ => destruct k end.
  all: cbn -[u32 total] in *; try congruence.
  all: rewrite ?Z.land_0_r, ?u32_small by lia; try lia.
  all: replace (lk m) with 0 by lia; change (Z.lor 0 1) with 1; lia.
Qed.

Lemma lock_inv_idle m ps :
  lk m = 1 -> readers m = 0 -> writers m = 0 -> Forall (fun p => p = PIdle) ps ->
  Z.of_nat (length ps) < 2 ^ 32 - 1 -> lock_inv m ps.
Proof.
  intros El Er Ew Hall Hlen.
  assert (Ht : forall w, w PIdle = 0 -> total w ps = 0).
  { intros w Hw. clear -Hall Hw. induction Hall as [|p ps -> Hall IH]; simpl; lia. }
  split; rewrite ?(Ht in_lock), ?(Ht as_reader), ?(Ht as_writer) by done; try lia; try done.
Qed.

(** ** Reachable configurations *)

(** A hart [(st, c)] is at the point [p], and its calling code runs with the
    register [x]. *)
Definition hart_at (px : point * Z) (h : status * cpu) : Prop :=
  h.1 = status_at px.1 /\ at_depth px.2 (depth_at px.1) h.2.

Lemma depth_step m p p' m' o x c c' :
  point_step m p p' m' o -> cpu_effect o c c' -> at_depth x (depth_at p) c ->
  at_depth x (depth_at p') c'.
Proof.
  intros Hs Hc Hd. destruct o as [[|]|]; simpl in Hc.
  - destruct Hc as [v Hv].
    destruct (cpu_critical_in_Ok x (depth_at p) c Hd) as (c1 & E & Hd1); [destruct p; simpl; lia |].
    rewrite Hv in E. injection E as _ <-. inversion Hs; subst; exact Hd1.
  - destruct Hc as [v Hv].
    destruct (cpu_critical_out_Ok x (depth_at p) c Hd) as (c1 & E & Hd1); [destruct p; simpl; lia |].
    rewrite Hv in E. injection E as _ <-.
    inversion Hs; subst; try match goal with k : kind |- _ => destruct k end; exact Hd1.
  - subst c'. inversion Hs; subst; try exact Hd;
      repeat match goal with |- context [?x =? 0] => destruct (x =? 0) end;
      try match goal with k : kind |- _ => destruct k end; exact Hd.
Qed.

Definition sys_inv (xs : list Z) (s : config) : Prop :=
  exists pxs : list (point * Z),
    pxs.*2 = xs /\ Forall2 hart_at pxs (harts s) /\ lock_inv (shared s) pxs.*1.

Lemma reach_inv xs s :
  Z.of_nat (length xs) < 2 ^ 32 - 1 -> reach xs s -> sys_inv xs s.
Proof.
  intros Hlen. induction 1 as [|s s' _ (pxs & Ex & Hat & Hinv) Hstep].
  - exists ((fun x => (PIdle, x)) <$> xs). rewrite <- !list_fmap_compose. split; [| split].
    + apply list_fmap_id.
    + simpl. apply Forall2_fmap_2, Forall_Forall2_diag, Forall_forall. by intros x _.
    + apply lock_inv_idle; [done.. | | by rewrite length_fmap].
      by apply Forall_fmap, Forall_forall.
  - destruct Hstep as [m hs i st c st' c' m' Hi Hh]. simpl in *.
    destruct (Forall2_lookup_r _ _ _ _ _ Hat Hi) as ([p x] & Hp & [Est Hd]).
    simpl in Est, Hd. subst st.
    destruct (hart_step_point _ _ _ _ _ _ Hh) as (p' & o & -> & Hps & Hce).
    exists (<[i := (p', x)]> pxs). simpl. rewrite !list_fmap_insert. split; [| split].
    + rewrite list_insert_id; [done |]. by rewrite list_lookup_fmap, Hp.
    + apply Forall2_insert; [done |]. split; [done |]. by eapply depth_step.
    + eapply lock_inv_step; [done | | done]. by rewrite list_lookup_fmap, Hp.
Qed.

Lemma holding_point p k : Holding k = status_at p -> p = PHold k.
Proof. by destruct p as [| | | | | | | | |? []|? []| | | | |?| | |]; intros [= ->]. Qed.
Lemma idle_point p : Idle = status_at p -> p = PIdle.
Proof. by destruct p as [| | | | | | | | |? []|? []| | | | |?| | |]. Qed.

(** ** Executing a schedule *)

Definition code_exec (x : code) (c : cpu) (m : rwlock_t) : option (code * cpu * rwlock_t) :=
  match x with
  | Ret _ => None
  | Do (Critical o) k =>
    match (match o with CriticalIn => cpu_critical_in | CriticalOut => cpu_critical_out end) c with
    | Ok (v, c') => Some (k v, c', m)
    | Err _ => None
    end
  | Do (Atomic op l v) k =>
    Some (k (fst (op (read_cell l m) v)), c, write_cell l (snd (op (read_cell l m) v)) m)
  | Loop body k => Some (seq body (fun b => if b then k else Loop body k), c, m)
  end.

Lemma code_exec_step x c m x' c' m' :
  code_exec x c m = Some (x', c', m') -> code_step x c m x' c' m'.
Proof.
  destruct x as [b | [[|] | op l v] k | body k]; simpl; try done.
  - destruct (cpu_critical_in c) as [[v c1]|] eqn:E; [| done]. intros [= <- <- <-]. by econstructor.
  - destruct (cpu_critical_out c) as [[v c1]|] eqn:E; [| done]. intros [= <- <- <-]. by econstructor.
  - intros [= <- <- <-]. constructor.
  - intros [= <- <- <-]. constructor.
Qed.

(** The next step of a hart; an idle hart acquires as [k]. *)
Definition hart_exec (k : kind) (st : status) (c : cpu) (m : rwlock_t) :
    option (status * cpu * rwlock_t) :=
  match st with
  | Idle => Some (Acquiring k (acquire k), c, m)
  | Acquiring k (Ret _) => Some (Holding k, c, m)
  | Acquiring k x =>
    match code_exec x c m with Some (x, c, m) => Some (Acquiring k x, c, m) | None => None end
  | Holding k => Some (Releasing k (release k), c, m)
  | Releasing k (Ret _) => Some (Idle, c, m)
  | Releasing k x =>
    match code_exec x c m with Some (x, c, m) => Some (Releasing k x, c, m) | None => None end
  end.

Lemma hart_exec_step k st c m st' c' m' :
  hart_exec k st c m = Some (st', c', m') -> hart_step st c m st' c' m'.
Proof.
  destruct st as [|k' x|k'|k' x]; simpl.
  - intros [= <- <- <-]. constructor.
  - destruct x; [by intros [= <- <- <-]; constructor | |];
      (destruct (code_exec _ _ _) as [[[? ?] ?]|] eqn:E; [| done]; intros [= <- <- <-];
       constructor; by apply code_exec_step).
  - intros [= <- <- <-]. constructor.
  - destruct x; [by intros [= <- <- <-]; constructor | |];
      (destruct (code_exec _ _ _) as [[[? ?] ?]|] eqn:E; [| done]; intros [= <- <- <-];
       constructor; by apply code_exec_step).
Qed.

(** A schedule names the hart of each step. *)
Fixpoint schedule (sched : list (nat * kind)) (s : config) : option config :=
  match sched with
  | [] => Some s
  | (i, k) :: sched =>
    match harts s !! i with
    | Some (st, c) =>
      match hart_exec k st c (shared s) with
      | Some (st', c', m') => schedule sched (mk_config m' (<[i := (st', c')]> (harts s)))
      | None => None
      end
    | None => None
    end
  end.

Lemma schedule_reach xs sched : forall s s',
  reach xs s -> schedule sched s = Some s' -> reach xs s'.
Proof.
  induction sched as [|[i k] sched IH]; intros s s' Hr; simpl; [by intros [= <-] |].
  destruct (harts s !! i) as [[st c]|] eqn:Hi; [| done].
  destruct (hart_exec k st c (shared s)) as [[[st' c'] m']|] eqn:E; [| done].
  apply IH. eapply reach_step; [exact Hr |]. destruct s as [m hs]. simpl in *.
  econstructor; [exact Hi | by eapply hart_exec_step].
Qed.

(** ** One hart alone *)

(** [run n x c m] performs at most [n] actions of [x]. *)
Fixpoint run (n : nat) (x : code) (c : cpu) (m : rwlock_t) : result (bool * (cpu * rwlock_t)) :=
  match x with
  | Ret b => Ok (b, (c, m))
  | _ =>
    match n with
    | O => Err NoFuel
    | S n =>
      match code_exec x c m with
      | Some (x, c, m) => run n x c m
      | None => Err NoFuel
      end
    end
  end.

Fixpoint exec_n (n : nat) (x : code) (c : cpu) (m : rwlock_t) : option (code * cpu * rwlock_t) :=
  match n with
  | O => Some (x, c, m)
  | S n => match code_exec x c m with Some (x, c, m) => exec_n n x c m | None => None end
  end.

Lemma exec_in n k c m v c' :
  cpu_critical_in c = Ok (v, c') ->
  exec_n (S n) (Do (Critical CriticalIn) k) c m = exec_n n (k v) c' m.
Proof. intros E. simpl. by rewrite E. Qed.
Lemma exec_out n k c m v c' :
  cpu_critical_out c = Ok (v, c') ->
  exec_n (S n) (Do (Critical CriticalOut) k) c m = exec_n n (k v) c' m.
Proof. intros E. simpl. by rewrite E. Qed.
Lemma exec_add n j x c m x' c' m' :
  exec_n n x c m = Some (x', c', m') -> exec_n (n + j) x c m = exec_n j x' c' m'.
Proof.
  revert x c m. induction n as [|n IH]; intros x c m; simpl; [by intros [= -> -> ->] |].
  destruct (code_exec x c m) as [[[? ?] ?]|]; [apply IH | done].
Qed.

Lemma run_exec n j x c m x' c' m' :
  exec_n n x c m = Some (x', c', m') -> run (n + j) x c m = run j x' c' m'.
Proof.
  revert x c m. induction n as [|n IH]; intros x c m; simpl; [by intros [= -> -> ->] |].
  destruct (code_exec x c m) as [[[x1 c1] m1]|] eqn:E; [| done].
  intros H. apply IH in H. by destruct x.
Qed.

Lemma run_less n j x c m : run (n + j) x c m = Err NoFuel -> run n x c m = Err NoFuel.
Proof.
  revert x c m. induction n as [|n IH]; intros x c m; simpl.
  - destruct x; [by destruct j | done | done].
  - destruct x; try done; destruct (code_exec _ c m) as [[[? ?] ?]|]; auto.
Qed.

(** A round of [S i] actions that leads back to the same set of states never
    ends. *)
Lemma run_forever (P : code -> cpu -> rwlock_t -> Prop) :
  (forall x c m, P x c m -> exists i x' c' m',
     exec_n (S i) x c m = Some (x', c', m') /\ P x' c' m') ->
  forall n x c m, P x c m -> run n x c m = Err NoFuel.
Proof.
  intros HP n. induction n as [|n IH]; intros x c m H;
    destruct (HP _ _ _ H) as (i & x' & c' & m' & E & H').
  - by destruct x.
  - apply (run_less _ i). replace (S n + i)%nat with (S i + n)%nat by lia.
    rewrite (run_exec _ _ _ _ _ _ _ _ E). by apply IH.
Qed.

Lemma run_after_forever j x c m x' c' m' :
  exec_n j x c m = Some (x', c', m') -> (forall n, run n x' c' m' = Err NoFuel) ->
  forall n, run n x c m = Err NoFuel.
Proof.
  intros E H n. apply (run_less _ j). rewrite Nat.add_comm, (run_exec _ _ _ _ _ _ _ _ E). apply H.
Qed.

(** The first five actions of an attempt take the spinlock when it is free. *)
Lemma acquire_to_test k x d c m :
  at_depth x d c -> 0 <= d < 2 ^ 31 - 3 -> lk m = 1 ->
  exists c2, exec_n 5 (acquire k) c m
    = Some (resume (acquire k) [0; 0; 0; 0; 1], c2, mk_rwlock 0 (readers m) (writers m)) /\
    at_depth x (d + 2) c2.
Proof.
  intros Hd Hr Hl.
  destruct (cpu_critical_in_Ok x d c Hd) as (c1 & E1 & H1); [lia |].
  destruct (cpu_critical_in_Ok x (d + 1) c1 H1) as (c2 & E2 & H2); [lia |].
  replace (d + 1 + 1) with (d + 2) in H2 by lia.
  exists c2. split; [| done].
  destruct k; cbn -[Z.add cpu_critical_in cpu_critical_out]; rewrite E1; cbn -[Z.add cpu_critical_in cpu_critical_out]; rewrite E2; cbn; by rewrite Hl.
Qed.

(** A failed attempt goes back to the head of the loop. *)
Lemma failed_attempt k x d c m :
  at_depth x (d + 2) c -> 0 <= d < 2 ^ 31 - 3 -> lk m = 0 ->
  exists c', exec_n 3 (resume (acquire k) [0; 0; 0; 0; 1; 1]) c m
    = Some (acquire k, c', mk_rwlock 1 (readers m) (writers m)) /\ at_depth x d c'.
Proof.
  intros Hd Hr Hl.
  destruct (cpu_critical_out_Ok x (d + 2) c Hd) as (c1 & E1 & H1); [lia |].
  replace (Z.max 0 (d + 2 - 1)) with (d + 1) in * by lia.
  destruct (cpu_critical_out_Ok x (d + 1) c1 H1) as (c2 & E2 & H2); [lia |].
  replace (Z.max 0 (d + 1 - 1)) with d in * by lia.
  exists c2. split; [| done].
  destruct k; cbn -[Z.add cpu_critical_in cpu_critical_out]; rewrite E1; cbn -[Z.add cpu_critical_in cpu_critical_out]; rewrite E2; cbn; by rewrite Hl.
Qed.

(** Whether a hart that is alone gets the lock as [k]. *)
Definition free_for (k : kind) (m : rwlock_t) : bool :=
  match k with Reader => writers m =? 0 | _ => (writers m =? 0) && (readers m =? 0) end.
Definition taken (k : kind) (m : rwlock_t) : rwlock_t :=
  match k with
  | Reader => mk_rwlock (lk m) (readers m + 1) (writers m)
  | _ => mk_rwlock (lk m) (readers m) (writers m + 1)
  end.

Definition counters_ok (m : rwlock_t) : Prop :=
  lk m = 1 /\ 0 <= readers m < 2 ^ 32 - 1 /\ 0 <= writers m < 2 ^ 32 - 1.

(** The actions from the test to the end of a successful attempt. *)
Definition enter_len (k : kind) : nat :=
  match k with Reader => 4 | Writer => 5 | WriterBr => 6 end.

Lemma enter_steps k x d c r w :
  at_depth x (d + 2) c -> 0 <= d < 2 ^ 31 - 3 -> counters_ok (mk_rwlock 1 r w) ->
  free_for k (mk_rwlock 1 r w) = true ->
  exists c', exec_n (enter_len k) (resume (acquire k) [0; 0; 0; 0; 1]) c (mk_rwlock 0 r w)
    = Some (Ret true, c', taken k (mk_rwlock 1 r w)) /\ at_depth x (d + 1) c'.
Proof.
  intros Hd Hr (Hl & Hrd & Hwr) Hf. simpl in Hrd, Hwr.
  destruct (cpu_critical_out_Ok x (d + 2) c Hd) as (c3 & E3 & H3); [lia |].
  replace (Z.max 0 (d + 2 - 1)) with (d + 1) in * by lia.
  exists c3. split; [| done].
  destruct k; simpl in Hf;
    [| apply andb_prop in Hf as [Hf H0]; apply Z.eqb_eq in H0; subst r ..];
    apply Z.eqb_eq in Hf; subst w;
    cbn -[u32 cpu_critical_out]; rewrite E3; cbn -[u32]; try done.
  by rewrite u32_small by lia.
Qed.

Lemma run_acquire k x d c m :
  at_depth x d c -> 0 <= d < 2 ^ 31 - 3 -> counters_ok m -> free_for k m = true ->
  exists c', run 20 (acquire k) c m = Ok (true, (c', taken k m)) /\ at_depth x (d + 1) c'.
Proof.
  intros Hd Hr Hm Hf. pose proof Hm as (Hl & _).
  destruct (acquire_to_test k x d c m Hd Hr Hl) as (c2 & E2 & H2).
  destruct m as [l r w]. cbn [lk readers writers] in *. subst l.
  destruct (enter_steps k x d c2 r w H2 Hr Hm Hf) as (c3 & E3 & H3).
  exists c3. split; [| done].
  replace 20%nat with (5 + (enter_len k + (15 - enter_len k)))%nat by (by destruct k).
  by rewrite (run_exec _ _ _ _ _ _ _ _ E2), (run_exec _ _ _ _ _ _ _ _ E3); destruct k.
Qed.

Lemma run_release k x d c m :
  at_depth x (d + 1) c -> 0 <= d < 2 ^ 31 - 3 -> counters_ok m ->
  exists c', run 3 (release k) c (taken k m) = Ok (true, (c', m)) /\ at_depth x d c'.
Proof.
  intros Hd Hr (Hl & Hrd & Hwr).
  destruct (cpu_critical_out_Ok x (d + 1) c Hd) as (c1 & E1 & H1); [lia |].
  replace (Z.max 0 (d + 1 - 1)) with d in * by lia.
  exists c1. split; [| done]. destruct m as [l r w]. simpl in *.
  destruct k; cbn -[u32 cpu_critical_out]; rewrite E1; cbn -[u32];
    by rewrite Z.add_simpl_r, u32_small by lia.
Qed.

(** An attempt that finds the lock not free fails and starts again. *)
Definition test_fails (k : kind) (m : rwlock_t) : bool :=
  match k with Writer => negb (free_for Writer m) | _ => negb (writers m =? 0) end.

Definition test_len (k : kind) (w : Z) : nat :=
  match k with Writer => if w =? 0 then 2 else 1 | _ => 1 end.

Lemma test_steps k c r w :
  counters_ok (mk_rwlock 1 r w) -> test_fails k (mk_rwlock 1 r w) = true ->
  exec_n (test_len k w) (resume (acquire k) [0; 0; 0; 0; 1]) c (mk_rwlock 0 r w)
  = Some (resume (acquire k) [0; 0; 0; 0; 1; 1], c, mk_rwlock 0 r w).
Proof.
  intros (_ & Hrd & Hwr) Hf. simpl in Hrd, Hwr.
  destruct k; simpl in *; destruct (Z.eqb_spec w 0) as [-> |]; try done; simpl in *;
    rewrite ?Z.add_0_r, u32_small by lia;
    try match goal with |- context [w =? 0] => by destruct (Z.eqb_spec w 0) end; try done.
  destruct (Z.eqb_spec r 0) as [-> |]; [done |]. by rewrite u32_small by lia.
Qed.

Lemma failing_round k x d c m :
  at_depth x d c -> 0 <= d < 2 ^ 31 - 3 -> counters_ok m -> test_fails k m = true ->
  exists n c', exec_n (S n) (acquire k) c m = Some (acquire k, c', m) /\ at_depth x d c'.
Proof.
  intros Hd Hr Hm Hf. pose proof Hm as (Hl & _).
  destruct (acquire_to_test k x d c m Hd Hr Hl) as (c2 & E2 & H2).
  destruct m as [l r w]. cbn [lk readers writers] in *. subst l.
  destruct (failed_attempt k x d c2 (mk_rwlock 0 r w) H2 Hr) as (c3 & E3 & H3); [done |].
  exists (4 + (test_len k w + 3))%nat, c3. split; [| done].
  change (S (4 + (test_len k w + 3))) with (5 + (test_len k w + 3))%nat.
  by rewrite (exec_add _ _ _ _ _ _ _ _ E2), (exec_add _ _ _ _ _ _ _ _ (test_steps _ _ _ _ Hm Hf)).
Qed.

(** [w_lock_br] with no writer but some reader: it enters and waits. *)
Lemma wait_forever x d c m :
  at_depth x d c -> 0 <= d < 2 ^ 31 - 3 -> counters_ok m -> writers m = 0 -> readers m <> 0 ->
  forall n, run n w_lock_br c m = Err NoFuel.
Proof.
  intros Hd Hr (Hl & Hrd & Hwr) Hw Hne.
  destruct (acquire_to_test WriterBr x d c m Hd Hr Hl) as (c2 & E2 & H2).
  destruct (cpu_critical_out_Ok x (d + 2) c2 H2) as (c3 & E3 & H3); [lia |].
  destruct m as [l r w]. cbn [lk readers writers] in *. subst l w.
  set (wait := Do (Atomic atomic_fetch_and_add READERS 0) (fun r => Ret (r =? 0))).
  set (loop := Loop wait (Ret true)).
  assert (Ew : exec_n (5 + 4) (acquire WriterBr) c (mk_rwlock 1 r 0)
      = Some (loop, c3, mk_rwlock 1 r 1)).
  { rewrite (exec_add _ _ _ _ _ _ _ _ E2). cbn -[cpu_critical_out]. by rewrite E3. }
  apply (run_after_forever _ _ _ _ _ _ _ Ew). intros n.
  apply (run_forever (fun y c m => y = loop /\ c = c3 /\ m = mk_rwlock 1 r 1)); [| done].
  intros y c' m (-> & -> & ->). exists 1%nat, loop, c3, (mk_rwlock 1 r 1). split; [| done].
  simpl. rewrite Z.add_0_r, u32_small by lia. by destruct (Z.eqb_spec r 0).
Qed.

Lemma acquire_forever k x d c m :
  at_depth x d c -> 0 <= d < 2 ^ 31 - 3 -> counters_ok m -> free_for k m = false ->
  forall n, run n (acquire k) c m = Err NoFuel.
Proof.
  intros Hd Hr Hm Hf n. destruct (test_fails k m) eqn:Ht.
  - apply (run_forever (fun y c m' => y = acquire k /\ at_depth x d c /\ m' = m)); [| done].
    intros y c' m' (-> & Hc & ->).
    destruct (failing_round k x d c' m Hc Hr Hm Ht) as (i & c1 & E & H1). eauto 10.
  - destruct k; simpl in *.
    + rewrite Hf in Ht. done.
    + rewrite Hf in Ht. done.
    + destruct (Z.eqb_spec (writers m) 0); [| done]. simpl in Hf.
      apply (wait_forever x d); try done. by apply Z.eqb_neq.
Qed.

(** ** Locks in sequential code

    The components below run on one hart at a time; by [acquire_forever] a lock
    that is not free stops the hart for ever, which they show as the fault
    [Deadlock]. *)
Definition take (k : kind) : M rwlock_t unit := fun m =>
  if free_for k m then Ok (tt, taken k m) else Err Deadlock.
Definition drop (k : kind) : M rwlock_t unit := fun m =>
  Ok (tt, match k with
          | Reader => mk_rwlock (lk m) (u32 (readers m - 1)) (writers m)
          | _ => mk_rwlock (lk m) (readers m) (u32 (writers m - 1))
          end).

(** A spinlock: [1] when it is free. *)
Definition spin_take : M Z unit := fun v => if v =? 0 then Err Deadlock else Ok (tt, 0).
Definition spin_drop : M Z unit := fun v => Ok (tt, Z.lor v 1).

(** ** Properties *)

(** C12: reader/writer exclusion.  In every configuration any number of harts
    can reach by acquiring and releasing an rwlock in any interleaving of
    their atomic actions, two harts hold it together only if both hold it as
    readers. *)
Theorem rwlock_exclusion xs s i j k1 k2 c1 c2 :
  Z.of_nat (length xs) < 2 ^ 32 - 1 -> reach xs s -> i <> j ->
  harts s !! i = Some (Holding k1, c1) -> harts s !! j = Some (Holding k2, c2) ->
  k1 = Reader /\ k2 = Reader.
Proof.
  intros Hlen Hr Hij Hi Hj.
  destruct (reach_inv xs s Hlen Hr) as (pxs & _ & Hat & [Hlk Er Ew H1 Hw1 Hnw Hnr _]).
  destruct (Forall2_lookup_r _ _ _ _ _ Hat Hi) as ([p x] & Hp & [Ep _]).
  destruct (Forall2_lookup_r _ _ _ _ _ Hat Hj) as ([q y] & Hq & [Eq _]).
  apply holding_point in Ep, Eq. simpl in Ep, Eq. subst p q.
  assert (Hp1 : pxs.*1 !! i = Some (PHold k1)) by (by rewrite list_lookup_fmap, Hp).
  assert (Hq1 : pxs.*1 !! j = Some (PHold k2)) by (by rewrite list_lookup_fmap, Hq).
  pose proof (total_ge2 as_writer _ i j _ _ (fun x => proj1 (as_writer_pos x)) Hij Hp1 Hq1) as Hw.
  pose proof (total_ge2 as_reader _ i j _ _ (fun x => proj1 (as_reader_pos x)) Hij Hp1 Hq1) as Hrd.
  pose proof (Hnr _ _ Hp1) as Hn1. pose proof (Hnr _ _ Hq1) as Hn2.
  destruct k1, k2; cbn -[total] in *; try done; exfalso;
    try specialize (Hn1 I); try specialize (Hn2 I); lia.
Qed.

Definition demo_schedule : list (nat * kind) :=
  replicate 11 (0%nat, Reader) ++ replicate 11 (1%nat, Reader).

Lemma rwlock_exclusion_witness :
  exists s c1 c2, reach [2; 0] s /\
    harts s = [(Holding Reader, c1); (Holding Reader, c2)] /\ Reader = Reader /\ Reader = Reader.
Proof.
  destruct (schedule demo_schedule (start [2; 0])) as [s|] eqn:E; [| by vm_compute in E].
  assert (Hr : reach [2; 0] s) by (eapply schedule_reach; [apply reach_start | exact E]).
  vm_compute in E. injection E as <-. eexists _, _, _. split; [exact Hr |]. split; [reflexivity |].
  refine (rwlock_exclusion [2; 0] _ 0 1 Reader Reader _ _ _ Hr _ _ _);
    [vm_compute; reflexivity | done | reflexivity | reflexivity].
Defined.

(** C35: in every reachable configuration a hart that holds the rwlock runs
    with its interrupts masked, and a hart that is outside of it has the
    [sstatus] register it started with: acquiring and releasing are balanced
    on every path, failed attempts included. *)
Theorem rwlock_masks_interrupts xs s i :
  Z.of_nat (length xs) < 2 ^ 32 - 1 -> reach xs s ->
  (forall k c, harts s !! i = Some (Holding k, c) ->
     INTR_NEST c = 1 /\ intr_get c = Ok (0, c)) /\
  (forall c, harts s !! i = Some (Idle, c) ->
     INTR_NEST c = 0 /\ xs !! i = Some (sstatus c)).
Proof.
  intros Hlen Hr. destruct (reach_inv xs s Hlen Hr) as (pxs & <- & Hat & _). split.
  - intros k c Hi. destruct (Forall2_lookup_r _ _ _ _ _ Hat Hi) as ([p x] & Hp & [Ep [Hn Hd]]).
    apply holding_point in Ep. simpl in Ep. subst p. destruct Hd as [Hs _]. simpl in Hs.
    split; [done |]. unfold intr_get, r_sstatus, gets, bind, ret. by rewrite Hs, sie_bit_masked.
  - intros c Hi. destruct (Forall2_lookup_r _ _ _ _ _ Hat Hi) as ([p x] & Hp & [Ep [Hn Hd]]).
    apply idle_point in Ep. simpl in Ep. subst p. split; [done |].
    rewrite list_lookup_fmap, Hp. simpl in *. by subst.
Qed.

Lemma rwlock_masks_interrupts_witness :
  exists s c, reach [2] s /\ harts s = [(Holding Writer, c)] /\ intr_get c = Ok (0, c).
Proof.
  destruct (schedule (replicate 12 (0%nat, Writer)) (start [2])) as [s|] eqn:E; [| by vm_compute in E].
  assert (Hr : reach [2] s) by (eapply schedule_reach; [apply reach_start | exact E]).
  vm_compute in E. injection E as <-. eexists _, _. split; [exact Hr |]. split; [reflexivity |].
  refine (proj2 (proj1 (rwlock_masks_interrupts [2] _ 0 _ Hr) Writer _ _));
    [vm_compute; reflexivity | reflexivity].
Defined.

(** C34: a hart that is alone gets the lock in at most 20 actions exactly when
    no holder excludes it (as a reader: no writer; as a writer: no writer and
    no reader), one level deeper in critical sections, and its release gives
    back the lock and the interrupt state it found.  Otherwise it spins for
    ever: a hart that takes an rwlock again while it holds it for writing never
    returns. *)
Theorem rwlock_alone k x d c m :
  at_depth x d c -> 0 <= d < 2 ^ 31 - 3 -> counters_ok m ->
  if free_for k m then
    exists c1 c2, run 20 (acquire k) c m = Ok (true, (c1, taken k m)) /\
      run 3 (release k) c1 (taken k m) = Ok (true, (c2, m)) /\
      at_depth x (d + 1) c1 /\ at_depth x d c2
  else forall n, run n (acquire k) c m = Err NoFuel.
Proof.
  intros Hd Hr Hm. destruct (free_for k m) eqn:Hf; [| by apply (acquire_forever k x d)].
  destruct (run_acquire k x d c m Hd Hr Hm Hf) as (c1 & E1 & H1).
  destruct (run_release k x d c1 m H1 Hr Hm) as (c2 & E2 & H2). eauto 10.
Qed.

Lemma rwlock_alone_witness :
  (exists c1, run 20 w_lock (mk_cpu 2 0 0) (mk_rwlock 1 0 0) = Ok (true, (c1, mk_rwlock 1 0 1))) /\
  forall n, run n r_lock (mk_cpu 0 1 1) (mk_rwlock 1 0 1) = Err NoFuel.
Proof.
  split.
  - destruct (rwlock_alone Writer 2 0 (mk_cpu 2 0 0) (mk_rwlock 1 0 0)) as (c1 & c2 & E & _);
      [done | lia | done |]. exists c1. exact E.
  - apply (rwlock_alone Reader 2 1 (mk_cpu 0 1 1) (mk_rwlock 1 0 1)); [done | lia | done].
Defined.
