(* ===== verification/KernelMap.v ===== *)
(** * The physical memory map of the kernel

    [include/mm/kernel_map.h] and [arch/riscv/mm/kernel_map.c]: where the
    memory, the kernel image and the free memory are, the offset of the linear
    mapping, and the boot-time allocator that cuts pages off the free memory. *)
From S2P Require Import Prelude.

Definition CONFIG_PAGE_OFFSET : Z := 12.

(** ** [include/mm/page.h] *)

(** [src/include/mm/page.h:6-6 PAGE_OFFSET] *)
Definition PAGE_OFFSET : Z := CONFIG_PAGE_OFFSET.
(** [src/include/mm/page.h:7-7 PAGE_SIZE] *)
Definition PAGE_SIZE : Z := Z.shiftl 1 PAGE_OFFSET.
(** [src/include/mm/page.h:8-8 PAGE_ALIGN_BIT] *)
Definition PAGE_ALIGN_BIT : Z := Z.shiftl 1 PAGE_OFFSET - 1.
(** [src/include/mm/page.h:9-9 PAGE_UPPER_ALIGN] *)
Definition PAGE_UPPER_ALIGN (x : Z) : Z :=
  Z.land (u64 (u64 x + (PAGE_SIZE - 1))) (Z.lnot PAGE_ALIGN_BIT).
(** [src/include/mm/page.h:10-10 PAGE_DOWNS_ALIGN] *)
Definition PAGE_DOWNS_ALIGN (x : Z) : Z := Z.land (u64 x) (Z.lnot PAGE_ALIGN_BIT).
(** [src/include/mm/page.h:12-15 VAL_IS_PAGE_ALIGNED] *)
Definition VAL_IS_PAGE_ALIGNED (val : Z) : bool := Z.land (u64 val) PAGE_ALIGN_BIT =? 0.

(** ** [include/mm/kernel_map.h] *)

(** [src/arch/riscv/include/mm/kernel_map.h:7-15 struct kernel_mapping] *)
Record kernel_mapping := mk_kernel_mapping {
  pa_st_memory : Z;
  size_memory : Z;
  pa_st_kernel : Z;
  size_kernel : Z;
  pa_st_free : Z;
  size_free : Z;
  va2pa_offset : Z
}.

(** [src/arch/riscv/include/mm/kernel_map.h:19-19 RISCV_VA2PA_OFFSET] *)
Definition RISCV_VA2PA_OFFSET (km : kernel_mapping) : Z := va2pa_offset km.
(** [src/arch/riscv/include/mm/kernel_map.h:20-20 RISCV_KERNEL_PA_START] *)
Definition RISCV_KERNEL_PA_START (km : kernel_mapping) : Z := pa_st_kernel km.
(** [src/arch/riscv/include/mm/kernel_map.h:21-21 RISCV_KERNEL_PA_END] *)
Definition RISCV_KERNEL_PA_END (km : kernel_mapping) : Z := u64 (pa_st_kernel km + size_kernel km).
(** [src/arch/riscv/include/mm/kernel_map.h:22-22 RISCV_KERNEL_VA_START] *)
Definition RISCV_KERNEL_VA_START (km : kernel_mapping) : Z :=
  u64 (RISCV_KERNEL_PA_START km + RISCV_VA2PA_OFFSET km).
(** [src/arch/riscv/include/mm/kernel_map.h:23-23 RISCV_KERNEL_VA_END] *)
Definition RISCV_KERNEL_VA_END (km : kernel_mapping) : Z :=
  u64 (RISCV_KERNEL_VA_START km + size_kernel km).
(** [src/arch/riscv/include/mm/kernel_map.h:24-24 RISCV_KERNEL_SIZE] *)
Definition RISCV_KERNEL_SIZE (km : kernel_mapping) : Z := size_kernel km.
(** [src/arch/riscv/include/mm/kernel_map.h:26-26 RISCV_MEMORY_PA_START] *)
Definition RISCV_MEMORY_PA_START (km : kernel_mapping) : Z := pa_st_memory km.
(** [src/arch/riscv/include/mm/kernel_map.h:27-27 RISCV_MEMORY_PA_END] *)
Definition RISCV_MEMORY_PA_END (km : kernel_mapping) : Z := u64 (pa_st_memory km + size_memory km).
(** [src/arch/riscv/include/mm/kernel_map.h:28-28 RISCV_MEMORY_VA_START] *)
Definition RISCV_MEMORY_VA_START (km : kernel_mapping) : Z :=
  u64 (RISCV_MEMORY_PA_START km + RISCV_VA2PA_OFFSET km).
(** [src/arch/riscv/include/mm/kernel_map.h:29-29 RISCV_MEMORY_VA_END] *)
Definition RISCV_MEMORY_VA_END (km : kernel_mapping) : Z :=
  u64 (RISCV_MEMORY_VA_START km + size_memory km).
(** [src/arch/riscv/include/mm/kernel_map.h:30-30 RISCV_MEMORY_SIZE] *)
Definition RISCV_MEMORY_SIZE (km : kernel_mapping) : Z := size_memory km.
(** [src/arch/riscv/include/mm/kernel_map.h:32-32 RISCV_FREE_PA_START] *)
Definition RISCV_FREE_PA_START (km : kernel_mapping) : Z := pa_st_free km.
(** [src/arch/riscv/include/mm/kernel_map.h:33-33 RISCV_FREE_PA_END] *)
Definition RISCV_FREE_PA_END (km : kernel_mapping) : Z := u64 (pa_st_free km + size_free km).
(** [src/arch/riscv/include/mm/kernel_map.h:34-34 RISCV_FREE_VA_START] *)
Definition RISCV_FREE_VA_START (km : kernel_mapping) : Z :=
  u64 (RISCV_FREE_PA_START km + RISCV_VA2PA_OFFSET km).
(** [src/arch/riscv/include/mm/kernel_map.h:35-35 RISCV_FREE_VA_END] *)
Definition RISCV_FREE_VA_END (km : kernel_mapping) : Z :=
  u64 (RISCV_FREE_PA_END km + RISCV_VA2PA_OFFSET km).
(** [src/arch/riscv/include/mm/kernel_map.h:36-36 RISCV_FREE_SIZE] *)
Definition RISCV_FREE_SIZE (km : kernel_mapping) : Z := size_free km.

(** ** [arch/riscv/mm/kernel_map.c] *)

(** [src/arch/riscv/mm/kernel_map.c:104-120 freemem_alloc_pa] *)
Definition freemem_alloc_pa : M kernel_mapping Z := fun km =>
  if RISCV_FREE_SIZE km <? PAGE_SIZE then Ok (NULL, km)
  else
    let ret := pa_st_free km in
    Ok (ret, mk_kernel_mapping (pa_st_memory km) (size_memory km) (pa_st_kernel km)
      (size_kernel km) (u64 (pa_st_free km + PAGE_SIZE)) (u64 (size_free km - PAGE_SIZE))
      (va2pa_offset km)).

Definition KERNEL_OFFSET : Z := 0x3000000000.

(** The counters of passed and failed checks after [conds]. *)
Definition CHECK_all (conds : list bool) : Z * Z :=
  fold_left (fun '(success, error) c => if c : bool then (success + 1, error) else (success, error + 1))
    conds (0, 0).

(** [src/arch/riscv/mm/kernel_map.c:18-38 riscv_kernel_map_test] *)
Definition riscv_kernel_map_test (km : kernel_mapping) : Z * Z :=
  let ks_addrs := pa_st_kernel km in
  let ms_addrs := pa_st_memory km in
  let k_size := size_kernel km in
  let m_size := size_memory km in
  let ke_addrs := u64 (ks_addrs + k_size) in
  let me_addrs := u64 (ms_addrs + m_size) in
  CHECK_all [k_size <? m_size;
    (ms_addrs <=? ks_addrs) && (ks_addrs <? me_addrs);
    (ms_addrs <=? ke_addrs) && (ke_addrs <? me_addrs);
    ks_addrs <? KERNEL_OFFSET; ke_addrs <? KERNEL_OFFSET;
    ms_addrs <? KERNEL_OFFSET; me_addrs <? KERNEL_OFFSET;
    ks_addrs =? 0x80200000; ms_addrs =? 0x80000000].

(** ** Page alignment *)

Lemma PAGE_SIZE_eq : PAGE_SIZE = 4096.
Proof. reflexivity. Qed.

Lemma align_mask x : Z.land x (Z.lnot PAGE_ALIGN_BIT) = x - x mod 4096.
Proof.
  change PAGE_ALIGN_BIT with (Z.ones 12).
  rewrite <- Z.ldiff_land, Z.ldiff_ones_r, Z.shiftl_mul_pow2, Z.shiftr_div_pow2 by lia.
  change (2 ^ 12) with 4096. pose proof (Z.div_mod x 4096). lia.
Qed.

Lemma align_low x : Z.land x PAGE_ALIGN_BIT = x mod 4096.
Proof. change PAGE_ALIGN_BIT with (Z.ones 12). by rewrite Z.land_ones by lia. Qed.

Lemma VAL_IS_PAGE_ALIGNED_spec x : 0 <= x < 2 ^ 64 ->
  VAL_IS_PAGE_ALIGNED x = true <-> x mod 4096 = 0.
Proof. intros H. unfold VAL_IS_PAGE_ALIGNED. rewrite u64_small, align_low by lia. apply Z.eqb_eq. Qed.

Lemma PAGE_DOWNS_ALIGN_spec x : 0 <= x < 2 ^ 64 ->
  PAGE_DOWNS_ALIGN x = 4096 * (x / 4096).
Proof.
  intros H. unfold PAGE_DOWNS_ALIGN. rewrite u64_small, align_mask by lia.
  pose proof (Z.div_mod x 4096). lia.
Qed.

Lemma PAGE_UPPER_ALIGN_spec x : 0 <= x <= 2 ^ 64 - 4096 ->
  PAGE_UPPER_ALIGN x = 4096 * ((x + 4095) / 4096).
Proof.
  intros H. unfold PAGE_UPPER_ALIGN. rewrite PAGE_SIZE_eq, !u64_small, align_mask by (rewrite ?u64_small; lia).
  pose proof (Z.div_mod (x + (4096 - 1)) 4096). replace (x + 4095) with (x + (4096 - 1)) by lia. lia.
Qed.
