(* ===== verification/PageFrame.v ===== *)
(** * Page frames

    [include/mm/pageframe.h], [include/asm/pageframe.h] and
    [module/mm/pageframe]: the array [PAGES] of frame descriptors, the
    conversions between physical addresses, virtual addresses, page ids and
    descriptors, and the initialisation and self check of the array.

    A pointer [struct pageframe*] into [PAGES] is the index of the descriptor;
    the embedded [meta.buddy_node] has an address of its own in the memory of
    list nodes, so that [container_of] is address arithmetic. *)
From S2P Require Import Prelude DList Cpu Locks KernelMap.

(** ** Geometry *)

Section geometry.
Context (km : kernel_mapping).

(** [src/arch/riscv/include/asm/pageframe.h:6-6 __ARCH_PGFRAME_PA_START] *)
Definition PGFRAME_PA_START : Z := RISCV_KERNEL_PA_START km.
(** [src/arch/riscv/include/asm/pageframe.h:8-8 __ARCH_PGFRAME_VA_START] *)
Definition PGFRAME_VA_START : Z := RISCV_KERNEL_VA_START km.
(** [src/arch/riscv/include/asm/pageframe.h:10-10 __ARCH_PGFRAME_SIZE] *)
Definition PGFRAME_SIZE : Z := u64 (RISCV_MEMORY_PA_END km - RISCV_KERNEL_PA_START km).
(** [src/arch/riscv/include/asm/pageframe.h:12-12 __ARCH_PGFRAME_PA_KSTART] *)
Definition PGFRAME_PA_KSTART : Z := RISCV_KERNEL_PA_START km.
(** [src/arch/riscv/include/asm/pageframe.h:14-14 __ARCH_PGFRAME_FREE_VA_START] *)
Definition PGFRAME_FREE_VA_START : Z := RISCV_FREE_VA_START km.
(** [src/arch/riscv/include/asm/pageframe.h:16-16 __ARCH_PGFRAME_FREE_SIZE] *)
Definition PGFRAME_FREE_SIZE : Z := RISCV_FREE_SIZE km.
(** [src/include/mm/pageframe.h:32-32 PGFRAME_PGSIZE] *)
Definition PGFRAME_PGSIZE : Z := PAGE_SIZE.
(** [src/include/mm/pageframe.h:34-34 PGFRAME_PA_END] *)
Definition PGFRAME_PA_END : Z := u64 (PGFRAME_PA_START + PGFRAME_SIZE).
(** [src/include/mm/pageframe.h:35-35 PGFRAME_VA_END] *)
Definition PGFRAME_VA_END : Z := u64 (PGFRAME_VA_START + PGFRAME_SIZE).
(** [src/include/mm/pageframe.h:36-36 PGFRAME_VA2PA_OFFSET] *)
Definition PGFRAME_VA2PA_OFFSET : Z := u64 (PGFRAME_VA_START - PGFRAME_PA_START).
(** [src/include/mm/pageframe.h:37-37 PGFRAME_VA2PA] *)
Definition va2pa (va : Z) : Z := u64 (va - PGFRAME_VA2PA_OFFSET).
(** [src/include/mm/pageframe.h:38-38 PGFRAME_PA2VA] *)
Definition pa2va (pa : Z) : Z := u64 (pa + PGFRAME_VA2PA_OFFSET).
(** [src/include/mm/pageframe.h:39-39 PGFRAME_PA2START_OFFSET] *)
Definition PGFRAME_PA2START_OFFSET (pa : Z) : Z := u64 (pa - PGFRAME_PA_START).
(** [src/include/mm/pageframe.h:40-40 PGFRAME_PA2PAGEID] *)
Definition PGFRAME_PA2PAGEID (pa : Z) : Z := PGFRAME_PA2START_OFFSET pa / PGFRAME_PGSIZE.
(** [src/include/mm/pageframe.h:41-41 PGFRAME_VA2START_OFFSET] *)
Definition PGFRAME_VA2START_OFFSET (va : Z) : Z := u64 (va - PGFRAME_VA_START).
(** [src/include/mm/pageframe.h:42-42 PGFRAME_VA2PAGEID] *)
Definition PGFRAME_VA2PAGEID (va : Z) : Z := PGFRAME_VA2START_OFFSET va / PGFRAME_PGSIZE.
(** [src/include/mm/pageframe.h:43-43 PGFRAME_PAGEID2VA] *)
Definition id2va (id : Z) : Z := u64 (PGFRAME_VA_START + u64 (id * PGFRAME_PGSIZE)).
(** [src/include/mm/pageframe.h:44-44 PGFRAME_PAGEID2PA] *)
Definition id2pa (id : Z) : Z := u64 (PGFRAME_PA_START + u64 (id * PGFRAME_PGSIZE)).
(** [src/include/mm/pageframe.h:45-45 PGFRAME_PAGE_NUMS] *)
Definition PGFRAME_PAGE_NUMS : Z := PGFRAME_SIZE / PGFRAME_PGSIZE.
(** [src/include/mm/pageframe.h:102-102 va2id] *)
Definition va2id (va : Z) : Z := s32 (PGFRAME_VA2PAGEID va).
(** [src/include/mm/pageframe.h:104-104 pa2id] *)
Definition pa2id (pa : Z) : Z := s32 (PGFRAME_PA2PAGEID pa).
(** [src/include/mm/pageframe.h:106-106 va2pg] *)
Definition va2pg (va : Z) : Z := va2id va.
(** [src/include/mm/pageframe.h:107-107 pg2va] *)
Definition pg2va (pg : Z) : Z := id2va (s32 pg).
(** [src/include/mm/pageframe.h:108-108 pa2pg] *)
Definition pa2pg (pa : Z) : Z := pa2id pa.
(** [src/include/mm/pageframe.h:109-109 pg2pa] *)
Definition pg2pa (pg : Z) : Z := id2pa (s32 pg).
(** [src/include/mm/pageframe.h:111-111 pg2id] *)
Definition pg2id (pg : Z) : Z := s32 pg.
(** [src/include/mm/pageframe.h:112-112 pa_valid] *)
Definition pa_valid (pa : Z) : bool := (PGFRAME_PA_START <=? pa) && (pa <? PGFRAME_PA_END).
(** [src/include/mm/pageframe.h:113-113 va_valid] *)
Definition va_valid (va : Z) : bool := (PGFRAME_VA_START <=? va) && (va <? PGFRAME_VA_END).
(** [src/include/mm/pageframe.h:114-114 id_valid] *)
Definition id_valid (id : Z) : bool := (0 <=? id) && (id <? s32 PGFRAME_PAGE_NUMS).
(** [src/include/mm/pageframe.h:115-115 pg_valid] *)
Definition pg_valid (pg : Z) : bool := id_valid (pg2id pg).
End geometry.

(** ** Descriptors *)

(** [src/include/mm/pageframe.h:68-72 enum pgfm_type] *)
Inductive pgfm_type := PAGE_BUDDYALLOCATOR | SLAB_ALLOCATOR | VMA_AREA.

#[export] Instance pgfm_type_eq_dec : EqDecision pgfm_type.
Proof. solve_decision. Defined.

Definition PG_BUDDY_FLAG_FREE : Z := Z.shiftl 1 0.
Definition PG_BUDDY_FLAG_HEAD : Z := Z.shiftl 1 1.
Definition PG_BUDDY_FLAG_BODY : Z := Z.shiftl 1 2.
Definition PG_BUDDY_FLAG_STATIC : Z := Z.shiftl 1 3.

(** [src/include/mm/pageframe.h:74-95 struct pageframe] The field [meta.buddy_node]
    is a node of the list memory, at the address [buddy_node]. *)
Record pageframe := mk_pageframe {
  page_lk : Z;
  pgtype : pgfm_type;
  buddy_flags : Z;
  buddy_order : Z;
  ref_count : Z;
  vma_flags : Z
}.

(** [sizeof(struct pageframe)] and the offset of [meta.buddy_node] in it: a
    spinlock, an enum, the packed [meta] (1 + 16 + 1 bytes) and the packed
    union (5 bytes), rounded up to the alignment of the spinlock. *)
Definition sizeof_pageframe : Z := 32.
Definition offsetof_buddy_node : Z := 4 + 4 + 1.

(** The array [PAGES] (its base address and its descriptors) and the list
    nodes. *)
Record frames := mk_frames {
  pgframe_pages : Z;
  pages : gmap Z pageframe;
  nodes : heap
}.

Definition set_pages (p : gmap Z pageframe) (s : frames) : frames :=
  mk_frames (pgframe_pages s) p (nodes s).
Definition set_nodes (h : heap) (s : frames) : frames :=
  mk_frames (pgframe_pages s) (pages s) h.

Definition in_pages {A} (m : M (gmap Z pageframe) A) : M frames A := zoom pages set_pages m.
Definition in_nodes {A} (m : M heap A) : M frames A := zoom nodes set_nodes m.

(** [&PAGES[pg].meta.buddy_node] and its inverse [list_entry]. *)
Definition buddy_node (base pg : Z) : Z := base + sizeof_pageframe * pg + offsetof_buddy_node.
Definition node_entry (base node : Z) : Z := (node - offsetof_buddy_node - base) / sizeof_pageframe.

Definition pg_load (pg : Z) : M frames pageframe := in_pages (load pg).
Definition pg_update (pg : Z) (f : pageframe -> pageframe) : M frames unit := in_pages (update pg f).

Definition with_lk (v : Z) (p : pageframe) : pageframe :=
  mk_pageframe v (pgtype p) (buddy_flags p) (buddy_order p) (ref_count p) (vma_flags p).
Definition with_type (t : pgfm_type) (p : pageframe) : pageframe :=
  mk_pageframe (page_lk p) t (buddy_flags p) (buddy_order p) (ref_count p) (vma_flags p).
Definition with_flags (v : Z) (p : pageframe) : pageframe :=
  mk_pageframe (page_lk p) (pgtype p) v (buddy_order p) (ref_count p) (vma_flags p).
Definition with_order (v : Z) (p : pageframe) : pageframe :=
  mk_pageframe (page_lk p) (pgtype p) (buddy_flags p) v (ref_count p) (vma_flags p).
Definition with_other (r v : Z) (p : pageframe) : pageframe :=
  mk_pageframe (page_lk p) (pgtype p) (buddy_flags p) (buddy_order p) r v.

(** [lock(&pg->lk)] and [unlock(&pg->lk)]. *)
Definition lock_page (pg : Z) : M frames unit :=
  p ← pg_load pg;
  if page_lk p =? 0 then fail Deadlock else pg_update pg (with_lk 0).
Definition unlock_page (pg : Z) : M frames unit :=
  pg_update pg (fun p => with_lk (Z.lor (page_lk p) 1) p).

(** ** Initialisation *)

(** The counter [pgfm_module_init_done] and the frames. *)
Definition in_frames {A} (m : M frames A) : M (Z * frames) A :=
  zoom snd (fun s ds => (fst ds, s)) m.

(** The body of the loop over all descriptors. *)
Definition init_page (km : kernel_mapping) (free_start free_end : Z) (i : Z) : M frames unit :=
  pg_update i (with_lk 1);;
  pg_update i (with_type PAGE_BUDDYALLOCATOR);;
  pg_update i (with_other 0 0);;
  base ← gets pgframe_pages;
  in_nodes (INIT_NODE (buddy_node base i));;
  pg_update i (with_order 0);;
  if (free_start <=? pg2va km i) && (pg2va km i <? free_end)
  then pg_update i (with_flags PG_BUDDY_FLAG_HEAD)
  else pg_update i (with_flags PG_BUDDY_FLAG_STATIC).

(** [src/module/mm/pageframe/pgfm_module.c:17-135 pgfm_module_init] The
    argument [k_size] is [PGFRAME_K_SIZE], from the linker symbols; the state
    is the counter [pgfm_module_init_done] and the frames.  The messages of
    the log are left out. *)
Definition pgfm_module_init (km : kernel_mapping) (k_size : Z) : M (Z * frames) Z :=
  done ← gets fst;
  if negb (done =? 0) then ret 0
  else
  let set_base b := modify (fun '(d, s) => (d, mk_frames b (pages s) (nodes s))) in
  set_base NULL;;
  if PGFRAME_VA_START km <? PGFRAME_PA_START km then ret (- EFAULT)
  else if negb (VAL_IS_PAGE_ALIGNED (PGFRAME_PA_START km)) then ret (- EFAULT)
  else if negb (VAL_IS_PAGE_ALIGNED (PGFRAME_VA_START km)) then ret (- EFAULT)
  else if negb (VAL_IS_PAGE_ALIGNED (PGFRAME_SIZE km)) then ret (- EFAULT)
  else if PGFRAME_SIZE km <=? 0 then ret (- EFAULT)
  else
  let kernel_start := PGFRAME_PA_KSTART km in
  let kernel_end := u64 (PGFRAME_PA_KSTART km + k_size) in
  if negb ((PGFRAME_PA_START km <=? kernel_start) && (kernel_start <? PGFRAME_PA_END km)
           && (PGFRAME_PA_START km <? kernel_end) && (kernel_end <=? PGFRAME_PA_END km))
  then ret (- EFAULT)
  else
  let free_start := PGFRAME_FREE_VA_START km in
  let free_end := u64 (PGFRAME_FREE_VA_START km + PGFRAME_FREE_SIZE km) in
  if negb ((PGFRAME_VA_START km <=? free_start) && (free_start <? PGFRAME_VA_END km)
           && (PGFRAME_VA_START km <? free_end) && (free_end <=? PGFRAME_VA_END km))
  then ret (- EFAULT)
  else
  let need_alloc_size := s32 (PGFRAME_PAGE_NUMS km * sizeof_pageframe) in
  if PGFRAME_FREE_SIZE km <? u64 need_alloc_size then ret (- ENOMEM)
  else
  set_base free_start;;
  let free_start := PAGE_UPPER_ALIGN (u64 (free_start + need_alloc_size)) in
  let free_end := PAGE_DOWNS_ALIGN free_end in
  if free_end <=? free_start then set_base NULL;; ret (- ENOMEM)
  else
  for_up (R := Z) (Z.to_nat (s32 (PGFRAME_PAGE_NUMS km))) 0
    (fun _ i => in_frames (init_page km free_start free_end i);;
                ret (Next tt)) tt;;
  modify (fun '(d, s) => (u32 (d + 1), s));;
  ret 0.

(** ** The self check *)

Definition CONFIG_BUDDYSYSTEM_MAX_ORDER : Z := 6.

Definition has (flags bit : Z) : bool := negb (Z.land flags bit =? 0).

(** One round of the loop of [pages_slfcheck], on the descriptor [p]. *)
Definition check_page (p : pageframe) (bef_count : Z) : step Z Z :=
  match pgtype p with
  | PAGE_BUDDYALLOCATOR | SLAB_ALLOCATOR =>
    if has (buddy_flags p) PG_BUDDY_FLAG_STATIC && negb (buddy_flags p =? PG_BUDDY_FLAG_STATIC)
    then Return (- EFAULT)
    else
    let head :=
      if has (buddy_flags p) PG_BUDDY_FLAG_HEAD then
        if has (buddy_flags p) PG_BUDDY_FLAG_BODY || has (buddy_flags p) PG_BUDDY_FLAG_STATIC
        then Return (- EFAULT)
        else if bef_count =? -233333 then Next (Z.shiftl 1 (buddy_order p) - 1)
        else if negb (bef_count =? 0) then Return (- EFAULT)
        else Next (Z.shiftl 1 (buddy_order p) - 1)
      else Next bef_count in
    match head with
    | Return r => Return r
    | Next bef_count =>
      if has (buddy_flags p) PG_BUDDY_FLAG_BODY then
        if negb (buddy_flags p =? PG_BUDDY_FLAG_BODY) then Return (- EFAULT)
        else if negb (buddy_order p =? CONFIG_BUDDYSYSTEM_MAX_ORDER) then Return (- EFAULT)
        else Next (s32 (bef_count - 1))
      else Next bef_count
    end
  | VMA_AREA => Return (- EFAULT)
  end.

(** [src/module/mm/pageframe/pgfm_check.c:4-64 pages_slfcheck] *)
Definition pages_slfcheck (km : kernel_mapping) : M frames Z :=
  r ← for_up (Z.to_nat (PGFRAME_PAGE_NUMS km)) 0
    (fun bef_count i =>
      lock_page i;;
      p ← pg_load i;
      unlock_page i;;
      ret (check_page p bef_count)) (-233333);
  match r with
  | Return e => ret e
  | Next _ => ret 0
  end.

(** ** Geometry of a booted machine

    The ranges do not wrap around, the sizes are whole pages, and the
    descriptors of all pages can be counted in an [int]. *)
Record geometry (km : kernel_mapping) : Prop := {
  geo_pa : 0 <= PGFRAME_PA_START km <= PGFRAME_VA_START km;
  geo_va : 2 ^ 17 <= PGFRAME_VA_START km;
  geo_end : PGFRAME_VA_START km + PGFRAME_SIZE km < 2 ^ 63;
  geo_pa_aligned : PGFRAME_PA_START km mod 4096 = 0;
  geo_va_aligned : PGFRAME_VA_START km mod 4096 = 0;
  geo_size : PGFRAME_SIZE km = 4096 * PGFRAME_PAGE_NUMS km;
  geo_nums : 0 < PGFRAME_PAGE_NUMS km < 2 ^ 26
}.

Section addresses.
Context (km : kernel_mapping) (G : geometry km).

Lemma id2va_eq i : 0 <= i <= PGFRAME_PAGE_NUMS km ->
  id2va km i = PGFRAME_VA_START km + 4096 * i.
Proof using All.
  intros Hi. destruct G. unfold id2va, PGFRAME_PGSIZE. rewrite PAGE_SIZE_eq, !u64_small; lia || (rewrite ?u64_small; lia).
Qed.

Lemma id2pa_eq i : 0 <= i <= PGFRAME_PAGE_NUMS km ->
  id2pa km i = PGFRAME_PA_START km + 4096 * i.
Proof using All.
  intros Hi. destruct G. unfold id2pa, PGFRAME_PGSIZE. rewrite PAGE_SIZE_eq, !u64_small; lia || (rewrite ?u64_small; lia).
Qed.

Lemma pg2va_eq i : 0 <= i < PGFRAME_PAGE_NUMS km ->
  pg2va km i = PGFRAME_VA_START km + 4096 * i.
Proof using All.
  intros Hi. unfold pg2va. pose proof (geo_nums km G). rewrite s32_small by lia.
  apply id2va_eq. lia.
Qed.

Lemma va_valid_spec va :
  va_valid km va = true <->
  PGFRAME_VA_START km <= va < PGFRAME_VA_START km + 4096 * PGFRAME_PAGE_NUMS km.
Proof using All.
  destruct G. unfold va_valid, PGFRAME_VA_END. rewrite u64_small by lia. lia.
Qed.

Lemma va2id_eq off : 0 <= off < 4096 * PGFRAME_PAGE_NUMS km ->
  va2id km (PGFRAME_VA_START km + off) = off / 4096.
Proof using All.
  intros Ho. destruct G. unfold va2id, PGFRAME_VA2PAGEID, PGFRAME_VA2START_OFFSET, PGFRAME_PGSIZE.
  rewrite PAGE_SIZE_eq, Z.add_simpl_l, u64_small by lia.
  assert (0 <= off / 4096 < PGFRAME_PAGE_NUMS km).
  { split; [apply Z.div_pos; lia | apply Z.div_lt_upper_bound; lia]. }
  apply s32_small. lia.
Qed.

Lemma pa2id_eq off : 0 <= off < 4096 * PGFRAME_PAGE_NUMS km ->
  pa2id km (PGFRAME_PA_START km + off) = off / 4096.
Proof using All.
  intros Ho. destruct G. unfold pa2id, PGFRAME_PA2PAGEID, PGFRAME_PA2START_OFFSET, PGFRAME_PGSIZE.
  rewrite PAGE_SIZE_eq, Z.add_simpl_l, u64_small by lia.
  assert (0 <= off / 4096 < PGFRAME_PAGE_NUMS km).
  { split; [apply Z.div_pos; lia | apply Z.div_lt_upper_bound; lia]. }
  apply s32_small. lia.
Qed.

Lemma va2pg_pg2va i : 0 <= i < PGFRAME_PAGE_NUMS km -> va2pg km (pg2va km i) = i.
Proof using All.
  intros Hi. rewrite pg2va_eq by done. unfold va2pg. rewrite va2id_eq by lia.
  rewrite Z.mul_comm. apply Z.div_mul. lia.
Qed.

Lemma va2pa_eq off : 0 <= off < 4096 * PGFRAME_PAGE_NUMS km ->
  va2pa km (PGFRAME_VA_START km + off) = PGFRAME_PA_START km + off.
Proof using All.
  intros Ho. destruct G. unfold va2pa, PGFRAME_VA2PA_OFFSET.
  rewrite (u64_small (PGFRAME_VA_START km - PGFRAME_PA_START km)) by lia.
  rewrite u64_small by lia. lia.
Qed.

Lemma pa2va_eq off : 0 <= off < 4096 * PGFRAME_PAGE_NUMS km ->
  pa2va km (PGFRAME_PA_START km + off) = PGFRAME_VA_START km + off.
Proof using All.
  intros Ho. destruct G. unfold pa2va, PGFRAME_VA2PA_OFFSET.
  rewrite (u64_small (PGFRAME_VA_START km - PGFRAME_PA_START km)) by lia.
  rewrite u64_small by lia. lia.
Qed.

Lemma id_valid_spec i : - 2 ^ 31 <= i < 2 ^ 31 ->
  pg_valid km i = true <-> 0 <= i < PGFRAME_PAGE_NUMS km.
Proof using All.
  intros Hi. destruct G. unfold pg_valid, pg2id, id_valid. rewrite !s32_small by lia. lia.
Qed.
End addresses.

(** ** Running the steps on descriptors *)

Lemma pg_load_Ok s pg p : pages s !! pg = Some p -> pg_load pg s = Ok (p, s).
Proof.
  intros H. unfold pg_load, in_pages, zoom. rewrite (load_Ok _ _ _ H). by destruct s.
Qed.

Lemma pg_update_Ok s pg p f :
  pages s !! pg = Some p ->
  pg_update pg f s = Ok (tt, set_pages (<[pg := f p]> (pages s)) s).
Proof. intros H. unfold pg_update, in_pages, zoom. by rewrite (update_Ok _ _ _ _ H). Qed.

Lemma in_nodes_Ok {A} (m : M heap A) s a h :
  m (nodes s) = Ok (a, h) -> in_nodes m s = Ok (a, set_nodes h s).
Proof. apply zoom_Ok. Qed.

Lemma lock_page_Ok s pg p :
  pages s !! pg = Some p -> page_lk p = 1 ->
  lock_page pg s = Ok (tt, set_pages (<[pg := with_lk 0 p]> (pages s)) s).
Proof.
  intros H Hl. unfold lock_page. mstep (pg_load_Ok _ _ _ H). rewrite Hl. simpl.
  by apply pg_update_Ok.
Qed.

Lemma unlock_page_Ok s pg p :
  pages s !! pg = Some p -> page_lk p = 0 ->
  unlock_page pg s = Ok (tt, set_pages (<[pg := with_lk 1 p]> (pages s)) s).
Proof. intros H Hl. unfold unlock_page. rewrite (pg_update_Ok _ _ _ _ H). by rewrite Hl. Qed.

Lemma with_lk_id p v w : page_lk p = w -> with_lk w (with_lk v p) = p.
Proof. intros <-. by destruct p. Qed.

Lemma buddy_node_entry base pg : node_entry base (buddy_node base pg) = pg.
Proof.
  unfold node_entry, buddy_node. replace (_ - _ - _) with (pg * sizeof_pageframe) by lia.
  by apply Z.div_mul.
Qed.

Lemma buddy_node_inj base i j : buddy_node base i = buddy_node base j -> i = j.
Proof. unfold buddy_node, sizeof_pageframe. lia. Qed.

(** ** Initialisation *)

(** The descriptor of page [i] after initialisation. *)
Definition fresh_page (km : kernel_mapping) (free_start free_end i : Z) : pageframe :=
  mk_pageframe 1 PAGE_BUDDYALLOCATOR
    (if (free_start <=? pg2va km i) && (pg2va km i <? free_end)
     then PG_BUDDY_FLAG_HEAD else PG_BUDDY_FLAG_STATIC) 0 0 0.

(** The descriptors of the pages below [n] are mapped memory. *)
Definition frames_mapped (n : Z) (s : frames) : Prop :=
  forall i, 0 <= i < n ->
    is_Some (pages s !! i) /\ buddy_node (pgframe_pages s) i ∈ dom (nodes s).

Lemma init_page_Ok km fs fe i s p :
  pages s !! i = Some p -> buddy_node (pgframe_pages s) i ∈ dom (nodes s) ->
  exists h, init_page km fs fe i s
    = Ok (tt, mk_frames (pgframe_pages s) (<[i := fresh_page km fs fe i]> (pages s)) h) /\
    dom h = dom (nodes s).
Proof.
  intros Hp Hn. destruct s as [base P h]. simpl in *.
  assert (HI : exists h', INIT_NODE (buddy_node base i) h = Ok (tt, h') /\ dom h' = dom h).
  { pose proof (stores_refl h) as Hs. unfold INIT_NODE. next_store Hs; [done |].
    edestruct set_prev_Ok as (h2 & E2 & Hs2); [exact Hs | done |].
    exists h2. split; [exact E2 | apply Hs2]. }
  destruct HI as (h' & EI & Hd). exists h'. split; [| done].
  unfold init_page.
  mstep (pg_update_Ok (mk_frames base P h) i p (with_lk 1) Hp). unfold set_pages. simpl.
  do 2 (erewrite bind_Ok; [| apply pg_update_Ok; apply lookup_insert_eq];
        unfold set_pages; simpl; rewrite insert_insert_eq).
  unfold gets at 1, bind at 1.
  erewrite bind_Ok; [| apply in_nodes_Ok; exact EI]. unfold set_nodes. simpl.
  erewrite bind_Ok; [| apply pg_update_Ok; apply lookup_insert_eq].
  unfold set_pages. simpl. rewrite insert_insert_eq. unfold fresh_page.
  destruct (_ && _); (erewrite pg_update_Ok; [| apply lookup_insert_eq]);
    unfold set_pages; simpl; by rewrite insert_insert_eq.
Qed.

(** The kernel image and the free memory lie inside of the managed memory. *)
Record boot_layout (km : kernel_mapping) (k_size : Z) : Prop := {
  boot_geometry : geometry km;
  boot_kernel : 0 < k_size <= PGFRAME_SIZE km;
  boot_free : PGFRAME_VA_START km <= PGFRAME_FREE_VA_START km;
  boot_free_size : 0 < PGFRAME_FREE_SIZE km;
  boot_free_end : PGFRAME_FREE_VA_START km + PGFRAME_FREE_SIZE km
                  <= PGFRAME_VA_START km + PGFRAME_SIZE km
}.

Definition free_begin (km : kernel_mapping) : Z :=
  PAGE_UPPER_ALIGN (PGFRAME_FREE_VA_START km + PGFRAME_PAGE_NUMS km * sizeof_pageframe).
Definition free_finish (km : kernel_mapping) : Z :=
  PAGE_DOWNS_ALIGN (PGFRAME_FREE_VA_START km + PGFRAME_FREE_SIZE km).

(** The conditions under which the descriptors and one page fit. *)
Definition frames_fit (km : kernel_mapping) : bool :=
  (PGFRAME_PAGE_NUMS km * sizeof_pageframe <=? PGFRAME_FREE_SIZE km)
  && (free_begin km <? free_finish km).

Lemma init_loop km fs fe d s :
  frames_mapped (PGFRAME_PAGE_NUMS km) s -> 0 <= PGFRAME_PAGE_NUMS km ->
  exists P h, for_up (R := Z) (Z.to_nat (PGFRAME_PAGE_NUMS km)) 0
      (fun _ i => in_frames (init_page km fs fe i);; ret (Next tt))
      tt (d, s) = Ok (Next tt, (d, mk_frames (pgframe_pages s) P h)) /\
    dom h = dom (nodes s) /\
    (forall i, P !! i = if decide (0 <= i < PGFRAME_PAGE_NUMS km)
                        then Some (fresh_page km fs fe i) else pages s !! i).
Proof.
  intros Hm Hn. set (n := PGFRAME_PAGE_NUMS km) in *.
  destruct (for_up_ind (R := Z) (fun (_ : unit) i =>
      in_frames (init_page km fs fe i);; ret (Next tt))
    (fun i (_ : unit) (ds : Z * frames) => exists P h, ds = (d, mk_frames (pgframe_pages s) P h) /\
      dom h = dom (nodes s) /\ 0 <= i /\
      forall j, P !! j = if decide (0 <= j < i) then Some (fresh_page km fs fe j) else pages s !! j)
    (fun _ _ => False) n) with (n := Z.to_nat n) (i := 0) (a := tt) (s := (d, s))
    as (r & s' & E & Hr).
  - intros i [] _ Hi (P & h & -> & Hd & Hi0 & HP).
    destruct (Hm i ltac:(lia)) as [[p Hp] Hnode].
    assert (Hpi : P !! i = Some p) by (rewrite HP, decide_False by lia; done).
    destruct (init_page_Ok km fs fe i (mk_frames (pgframe_pages s) P h) p Hpi) as (h' & E & Hd').
    { simpl. by rewrite Hd. }
    exists (Next tt). eexists. split.
    + erewrite bind_Ok; [| apply zoom_Ok; exact E]. reflexivity.
    + eexists _, h'. split; [reflexivity |]. simpl in Hd'. split; [by rewrite Hd', Hd |].
      split; [lia |]. intros j. simpl. destruct (decide (i = j)) as [<- | Hij].
      * by rewrite lookup_insert_eq, decide_True by lia.
      * rewrite lookup_insert_ne, HP by done. by repeat case_decide; try lia.
  - lia.
  - exists (pages s), (nodes s). split; [by destruct s |]. split; [done |]. split; [lia |].
    intros j. by rewrite decide_False by lia.
  - destruct r as [[] | r]; [| done]. destruct Hr as (P & h & -> & Hd & _ & HP). eauto 10.
Qed.

(** A page of the free range neither overlaps the descriptors nor sticks out
    of the free memory. *)
Lemma free_range_page km k i :
  boot_layout km k -> 0 <= i < PGFRAME_PAGE_NUMS km ->
  free_begin km <= pg2va km i < free_finish km ->
  PGFRAME_FREE_VA_START km + PGFRAME_PAGE_NUMS km * sizeof_pageframe <= pg2va km i /\
  pg2va km i + 4096 <= PGFRAME_FREE_VA_START km + PGFRAME_FREE_SIZE km.
Proof.
  intros [G _ Hf Hfs Hfe] Hi. unfold free_begin, free_finish.
  rewrite (pg2va_eq km G) by done. destruct G. unfold sizeof_pageframe in *.
  rewrite geo_size0 in *. intros [H1 H2].
  rewrite PAGE_UPPER_ALIGN_spec in H1 by lia. rewrite PAGE_DOWNS_ALIGN_spec in H2 by lia.
  set (x := PGFRAME_FREE_VA_START km + _ * 32) in *.
  set (y := PGFRAME_FREE_VA_START km + PGFRAME_FREE_SIZE km) in *.
  pose proof (Z.div_mod (x + 4095) 4096 ltac:(lia)) as E1.
  pose proof (Z.mod_pos_bound (x + 4095) 4096 ltac:(lia)) as B1.
  pose proof (Z.div_mod y 4096 ltac:(lia)) as E2. pose proof (Z.mod_pos_bound y 4096 ltac:(lia)) as B2.
  pose proof (Z.div_mod (PGFRAME_VA_START km) 4096 ltac:(lia)) as E3. lia.
Qed.

(** The checks of [pgfm_module_init] pass on a booted machine. *)
Lemma init_checks km k :
  boot_layout km k ->
  (PGFRAME_VA_START km <? PGFRAME_PA_START km) = false /\
  VAL_IS_PAGE_ALIGNED (PGFRAME_PA_START km) = true /\
  VAL_IS_PAGE_ALIGNED (PGFRAME_VA_START km) = true /\
  VAL_IS_PAGE_ALIGNED (PGFRAME_SIZE km) = true /\
  (PGFRAME_SIZE km <=? 0) = false /\
  ((PGFRAME_PA_START km <=? PGFRAME_PA_KSTART km) && (PGFRAME_PA_KSTART km <? PGFRAME_PA_END km)
   && (PGFRAME_PA_START km <? u64 (PGFRAME_PA_KSTART km + k))
   && (u64 (PGFRAME_PA_KSTART km + k) <=? PGFRAME_PA_END km)) = true /\
  ((PGFRAME_VA_START km <=? PGFRAME_FREE_VA_START km)
   && (PGFRAME_FREE_VA_START km <? PGFRAME_VA_END km)
   && (PGFRAME_VA_START km <? u64 (PGFRAME_FREE_VA_START km + PGFRAME_FREE_SIZE km))
   && (u64 (PGFRAME_FREE_VA_START km + PGFRAME_FREE_SIZE km) <=? PGFRAME_VA_END km)) = true.
Proof.
  intros [[Hpa Hva Hend Hpal Hval Hsz Hn] Hk Hf Hfs Hfe].
  unfold PGFRAME_PA_KSTART, PGFRAME_VA_END, PGFRAME_PA_END. fold (PGFRAME_PA_START km).
  rewrite !u64_small by lia.
  split; [lia |]. split; [apply VAL_IS_PAGE_ALIGNED_spec; lia |].
  split; [apply VAL_IS_PAGE_ALIGNED_spec; lia |].
  split; [apply VAL_IS_PAGE_ALIGNED_spec; [lia |]; rewrite Hsz, Z.mul_comm; apply Z.mod_mul; lia |].
  lia.
Qed.

(** C30: on a machine whose ranges fit, [pgfm_module_init] places the array of
    descriptors at the start of the free memory and marks every page: the
    pages that lie wholly in the free memory behind the array as single free
    pages, all others as static.  No free page overlaps the array or leaves
    the free memory.  When the array and one page do not fit it returns
    -ENOMEM with [pgframe_pages] null and every descriptor untouched. *)
Theorem pgfm_module_init_layout km k s :
  boot_layout km k -> frames_mapped (PGFRAME_PAGE_NUMS km)
    (mk_frames (PGFRAME_FREE_VA_START km) (pages s) (nodes s)) ->
  exists r d s', pgfm_module_init km k (0, s) = Ok (r, (d, s')) /\
  if frames_fit km then
    r = 0 /\ d = 1 /\ pgframe_pages s' = PGFRAME_FREE_VA_START km /\
    (forall i, 0 <= i < PGFRAME_PAGE_NUMS km -> exists p, pages s' !! i = Some p /\
       page_lk p = 1 /\ pgtype p = PAGE_BUDDYALLOCATOR /\ buddy_order p = 0 /\
       (buddy_flags p = PG_BUDDY_FLAG_HEAD /\
          PGFRAME_FREE_VA_START km + PGFRAME_PAGE_NUMS km * sizeof_pageframe <= pg2va km i /\
          pg2va km i + 4096 <= PGFRAME_FREE_VA_START km + PGFRAME_FREE_SIZE km \/
        buddy_flags p = PG_BUDDY_FLAG_STATIC /\ ~ free_begin km <= pg2va km i < free_finish km))
  else r = - ENOMEM /\ d = 0 /\ s' = mk_frames NULL (pages s) (nodes s).
Proof.
  intros B Hm. pose proof B as [[Hpa Hva Hend Hpal Hval Hsz Hn] Hk Hf Hfs Hfe].
  destruct (init_checks km k B) as (C1 & C2 & C3 & C4 & C5 & C6 & C7).
  unfold pgfm_module_init, gets, modify, bind. cbn -[Z.mul Z.opp ENOMEM].
  rewrite C1, C2, C3, C4, C5, C6, C7. cbn -[Z.mul Z.opp ENOMEM].
  unfold frames_fit, free_begin, free_finish.
  assert (E32 : s32 (PGFRAME_PAGE_NUMS km * sizeof_pageframe) = PGFRAME_PAGE_NUMS km * sizeof_pageframe)
    by (apply s32_small; unfold sizeof_pageframe; lia).
  rewrite E32, (u64_small (_ * sizeof_pageframe)) by (unfold sizeof_pageframe; lia).
  destruct (Z.ltb_spec (PGFRAME_FREE_SIZE km) (PGFRAME_PAGE_NUMS km * sizeof_pageframe)) as [Hlt | Hge].
  { rewrite (proj2 (Z.leb_gt _ _) Hlt). by eexists _, _, _. }
  rewrite (proj2 (Z.leb_le _ _) Hge).
  rewrite (u64_small (PGFRAME_FREE_VA_START km + PGFRAME_FREE_SIZE km)) by lia.
  rewrite (u64_small (PGFRAME_FREE_VA_START km + _)) by (unfold sizeof_pageframe in *; lia).
  fold (free_begin km) (free_finish km). cbn -[Z.mul Z.opp ENOMEM].
  destruct (Z.leb_spec (free_finish km) (free_begin km)) as [Hle | Hgt].
  { rewrite (proj2 (Z.ltb_ge _ _) Hle). by eexists _, _, _. }
  rewrite (proj2 (Z.ltb_lt _ _) Hgt), s32_small by lia.
  destruct (init_loop km (free_begin km) (free_finish km) 0 _ Hm) as (P & h & E & _ & HP); [lia |].
  unfold bind in E. cbn [pages nodes pgframe_pages] in E, HP. rewrite E. cbn -[Z.mul Z.opp]. eexists _, _, _. split; [reflexivity |].
  split; [done |]. split; [done |]. split; [done |]. intros i Hi.
  eexists. simpl. rewrite HP, decide_True by lia. split; [reflexivity |].
  simpl. do 3 (split; [done |]).
  destruct ((free_begin km <=? pg2va km i) && (pg2va km i <? free_finish km)) eqn:Eb.
  - left. split; [done |]. apply (free_range_page km k i B Hi). lia.
  - right. split; [done | lia].
Qed.

(** A small machine: 8 pages of managed memory, of which the kernel image
    takes one. *)
Definition demo_km : kernel_mapping :=
  mk_kernel_mapping 0x80000000 0x208000 0x80200000 0x1000 0x80201000 0x7000 0x2f7fe00000.

Definition demo_frames : frames :=
  mk_frames (PGFRAME_FREE_VA_START demo_km)
    (list_to_map ((fun i => (i, mk_pageframe 0 VMA_AREA 77 77 77 77)) <$> seqZ 0 8))
    (list_to_map ((fun i => (buddy_node (PGFRAME_FREE_VA_START demo_km) i, mk_list_head 5 5)) <$> seqZ 0 8)).

Lemma demo_boot : boot_layout demo_km 0x1000.
Proof. split; [split; vm_compute; intuition congruence | vm_compute; intuition congruence ..]. Qed.

Lemma demo_mapped : frames_mapped 8 demo_frames.
Proof.
  intros i Hi.
  assert (i = 0 \/ i = 1 \/ i = 2 \/ i = 3 \/ i = 4 \/ i = 5 \/ i = 6 \/ i = 7) as Hc by lia.
  destruct_or! Hc; subst i; (split; [vm_compute; eauto | apply elem_of_dom; vm_compute; eauto]).
Qed.

Lemma pgfm_module_init_layout_witness :
  exists d s', pgfm_module_init demo_km 0x1000 (0, demo_frames) = Ok (0, (d, s')) /\ d = 1 /\
    exists p, pages s' !! 2 = Some p /\ buddy_flags p = PG_BUDDY_FLAG_HEAD.
Proof.
  destruct (pgfm_module_init_layout demo_km 0x1000 demo_frames demo_boot demo_mapped)
    as (r & d & s' & E & -> & -> & _ & Hp).
  exists 1, s'. split; [exact E |]. split; [reflexivity |].
  destruct (Hp 2) as (p & Ep & _ & _ & _ & [[Hh _] | [_ Hn]]);
    [vm_compute; split; congruence | exists p; exact (conj Ep Hh) |].
  exfalso. apply Hn. vm_compute. split; [discriminate | reflexivity].
Defined.

(** The conversions between virtual addresses, physical addresses, page
    ids and descriptors agree on the managed memory: every valid virtual
    address has a valid physical one that converts back, both lie at the same
    offset in the same page, and the descriptor of that page has the address
    of its start. *)
Lemma address_conversions km va :
  geometry km -> va_valid km va = true ->
  pa_valid km (va2pa km va) = true /\ pa2va km (va2pa km va) = va /\
  pa2id km (va2pa km va) = va2id km va /\ pg_valid km (va2pg km va) = true /\
  pg2va km (va2pg km va) = va - va mod 4096 /\
  pg2pa km (va2pg km va) = va2pa km va - va mod 4096 /\
  va2pg km (pg2va km (va2pg km va)) = va2pg km va.
Proof.
  intros G Hv. apply (va_valid_spec km G) in Hv. pose proof G as [Hpa Hva Hend Hpal Hval Hsz Hn].
  assert (Hoff : exists off, va = PGFRAME_VA_START km + off /\ 0 <= off < 4096 * PGFRAME_PAGE_NUMS km)
    by (exists (va - PGFRAME_VA_START km); lia).
  destruct Hoff as (off & -> & Ho).
  assert (Hid : 0 <= off / 4096 < PGFRAME_PAGE_NUMS km).
  { split; [apply Z.div_pos; lia | apply Z.div_lt_upper_bound; lia]. }
  assert (Hmod : (PGFRAME_VA_START km + off) mod 4096 = off - 4096 * (off / 4096)).
  { rewrite Z.add_mod, Hval, Z.add_0_l, Z.mod_mod by lia. pose proof (Z.div_mod off 4096). lia. }
  assert (Epg : va2pg km (PGFRAME_VA_START km + off) = off / 4096) by (by apply va2id_eq).
  rewrite (va2pa_eq km G), (pa2va_eq km G), (pa2id_eq km G), (va2id_eq km G), Epg, Hmod by done.
  rewrite (va2pg_pg2va km G), (pg2va_eq km G) by done.
  unfold pg2pa. rewrite s32_small, (id2pa_eq km G) by lia. rewrite (id_valid_spec km G) by lia.
  unfold pa_valid, PGFRAME_PA_END. rewrite u64_small by lia. lia.
Qed.

Lemma address_conversions_witness :
  va2pa demo_km 0x3000002345 = 0x80202345 /\ pa2va demo_km 0x80202345 = 0x3000002345.
Proof.
  destruct (address_conversions demo_km 0x3000002345 (boot_geometry _ _ demo_boot))
    as (_ & H & _); [by vm_compute |].
  split; [by vm_compute |]. exact H.
Defined.
