(* ===== verification/Buddy.v ===== *)
(** * The buddy page allocator

    [include/mm/buddy.h], [module/mm/buddy/buddy_allocator.c] and
    [module/mm/buddy/buddy_module.c].  The state is the array of descriptors
    with its list nodes, the [order_pools] of [g_buddy] and the memory of the
    pages.  Spinlocks are fields of the pools and of the descriptors; taking
    one that is not free is the fault [Deadlock]. *)
From S2P Require Import Prelude DList Cpu Locks KernelMap PageFrame.

(** ** [include/mm/buddy.h] *)

(** [src/include/mm/buddy.h:10-10 MAX_ORDER] *)
Definition MAX_ORDER : Z := CONFIG_BUDDYSYSTEM_MAX_ORDER.
(** [src/include/mm/buddy.h:11-11 ORDER2PGNUM] *)
Definition ORDER2PGNUM (order : Z) : Z := Z.shiftl 1 order.
(** [src/include/mm/buddy.h:12-12 ORDER2BYTE] *)
Definition ORDER2BYTE (order : Z) : Z := u64 (ORDER2PGNUM order * PGFRAME_PGSIZE).

(** [src/include/mm/buddy.h:14-31 PGNUM2ORDER] *)
Definition PGNUM2ORDER (pgnum : Z) : Z :=
  if pgnum <=? 0 then -1
  else
    match for_up (St := unit) (R := Z) (Z.to_nat MAX_ORDER) 0
      (fun '(flag, r) i =>
         if negb (Z.land pgnum (Z.shiftl 1 i) =? 0) then
           if flag =? 1 then ret (Return (-1)) else ret (Next (1, i))
         else ret (Next (flag, r))) (0, 0) tt
    with
    | Ok (Next (_, r), _) => r
    | Ok (Return r, _) => r
    | Err _ => -1
    end.

(** [src/include/mm/buddy.h:34-39 struct mempool_allocator] The list head
    [_list] is a node of the list memory. *)
Record mempool := mk_mempool {
  pool_lk : Z;
  rest_block_num : Z;
  block_size : Z
}.

Definition with_rest (n : Z) (p : mempool) : mempool := mk_mempool (pool_lk p) n (block_size p).
Definition with_pool_lk (v : Z) (p : mempool) : mempool :=
  mk_mempool v (rest_block_num p) (block_size p).
Definition with_size (n : Z) (p : mempool) : mempool := mk_mempool (pool_lk p) (rest_block_num p) n.

(** [src/include/mm/buddy.h:41-43 struct buddy_allocator] *)
Record buddy := mk_buddy {
  frames_of : frames;
  order_pools : gmap Z mempool;
  memory : Z -> Z
}.

Definition set_frames (f : frames) (s : buddy) : buddy := mk_buddy f (order_pools s) (memory s).
Definition set_pools (p : gmap Z mempool) (s : buddy) : buddy :=
  mk_buddy (frames_of s) p (memory s).
Definition set_memory (m : Z -> Z) (s : buddy) : buddy :=
  mk_buddy (frames_of s) (order_pools s) m.

Definition on_frames {A} (m : M frames A) : M buddy A := zoom frames_of set_frames m.
Definition on_nodes {A} (m : M heap A) : M buddy A := on_frames (in_nodes m).
Definition on_pools {A} (m : M (gmap Z mempool) A) : M buddy A := zoom order_pools set_pools m.

(** [memset(start, byte, len)] on the memory of the pages. *)
Definition fill (start len byte : Z) (m : Z -> Z) : Z -> Z :=
  fun a => if (start <=? a) && (a <? start + len) then byte else m a.

(** [lock(&order_pools[order].lk)] and [unlock(&order_pools[order].lk)]. *)
Definition lock_pool (order : Z) : M buddy unit :=
  p ← on_pools (load order);
  if pool_lk p =? 0 then fail Deadlock else on_pools (update order (with_pool_lk 0)).
Definition unlock_pool (order : Z) : M buddy unit :=
  on_pools (update order (fun p => with_pool_lk (Z.lor (pool_lk p) 1) p)).

Definition lock_pgfm (pg : Z) : M buddy unit := on_frames (lock_page pg).
Definition unlock_pgfm (pg : Z) : M buddy unit := on_frames (unlock_page pg).
Definition get_page (pg : Z) : M buddy pageframe := on_frames (pg_load pg).
Definition set_page (pg : Z) (f : pageframe -> pageframe) : M buddy unit := on_frames (pg_update pg f).
Definition add_rest (order d : Z) : M buddy unit :=
  on_pools (update order (fun p => with_rest (s32 (rest_block_num p + d)) p)).

Section allocator.
(** The memory map and the address of [g_buddy]. *)
Context (km : kernel_mapping) (g_buddy : Z).

(** [&g_buddy.order_pools[order]._list]: a pool takes 32 bytes, its list head
    is at offset 16. *)
Definition pool_list (order : Z) : Z := g_buddy + 32 * order + 16.

(** [src/include/mm/buddy.h:49-49 buddy_pgfm_freeable] *)
Definition buddy_pgfm_freeable (p : pageframe) : bool := buddy_flags p =? PG_BUDDY_FLAG_HEAD.
(** [src/include/mm/buddy.h:50-50 buddy_pgfm_infrlist] *)
Definition buddy_pgfm_infrlist (p : pageframe) : bool :=
  buddy_flags p =? Z.lor PG_BUDDY_FLAG_HEAD PG_BUDDY_FLAG_FREE.

(** The neighbour [p] is a free block of the given order: the conditions of
    lines 95-98 and 120-124. *)
Definition mergeable (p : pageframe) (order : Z) : bool :=
  bool_decide (pgtype p = PAGE_BUDDYALLOCATOR) && (buddy_order p =? order)
  && has (buddy_flags p) PG_BUDDY_FLAG_HEAD
  && negb (has (buddy_flags p) PG_BUDDY_FLAG_BODY)
  && has (buddy_flags p) PG_BUDDY_FLAG_FREE.

(** [list_del(&page->meta.buddy_node)] and [order_pools[order].rest_block_num--] *)
Definition unlink_page (pg order : Z) : M buddy unit :=
  base ← gets (fun s => pgframe_pages (frames_of s));
  on_nodes (list_del (buddy_node base pg));;
  add_rest order (-1).

(** [src/module/mm/buddy/buddy_allocator.c:90-114 bkp_free (preceding buddy)]
    Some page: the merged block to go on with. *)
Definition merge_before (order pgfm : Z) : M buddy (option Z) :=
  let bef_pgva := u64 (pg2va km pgfm - ORDER2BYTE order) in
  if va_valid km bef_pgva then
    let bef_page := va2pg km bef_pgva in
    lock_pgfm bef_page;;
    p ← get_page bef_page;
    if mergeable p order then
      unlink_page bef_page order;;
      set_page pgfm (with_order MAX_ORDER);;
      set_page pgfm (with_flags PG_BUDDY_FLAG_BODY);;
      set_page bef_page (fun p => with_order (u8 (buddy_order p + 1)) p);;
      set_page bef_page (with_flags PG_BUDDY_FLAG_HEAD);;
      unlock_pgfm bef_page;;
      unlock_pgfm pgfm;;
      unlock_pool order;;
      ret (Some bef_page)
    else
      unlock_pgfm bef_page;;
      ret None
  else ret None.

(** [src/module/mm/buddy/buddy_allocator.c:115-139 bkp_free (following buddy)] *)
Definition merge_after (order pgfm : Z) : M buddy bool :=
  let aft_pgva := u64 (pg2va km pgfm + ORDER2BYTE order) in
  if va_valid km aft_pgva then
    let aft_page := va2pg km aft_pgva in
    lock_pgfm aft_page;;
    p ← get_page aft_page;
    if mergeable p order then
      unlink_page aft_page order;;
      set_page pgfm (fun p => with_order (u8 (buddy_order p + 1)) p);;
      set_page pgfm (with_flags PG_BUDDY_FLAG_HEAD);;
      set_page aft_page (with_order MAX_ORDER);;
      set_page aft_page (with_flags PG_BUDDY_FLAG_BODY);;
      unlock_pgfm aft_page;;
      unlock_pgfm pgfm;;
      unlock_pool order;;
      ret true
    else
      unlock_pgfm aft_page;;
      ret false
  else ret false.

(** [src/module/mm/buddy/buddy_allocator.c:82-143 bkp_free (merge loop)] Returns the final [pgfm] and
    [order]. *)
Fixpoint merge_loop (fuel : nat) (order pgfm : Z) : M buddy (Z * Z) :=
  match fuel with
  | O => fail NoFuel
  | S fuel =>
    if order <? MAX_ORDER - 1 then
      lock_pool order;;
      lock_pgfm pgfm;;
      p ← get_page pgfm;
      ASSERT (bool_decide (pgtype p = PAGE_BUDDYALLOCATOR) && (buddy_order p =? order)
              && (buddy_flags p =? PG_BUDDY_FLAG_HEAD));;
      b ← merge_before order pgfm;
      match b with
      | Some bef_page => merge_loop fuel (order + 1) bef_page
      | None =>
        a ← merge_after order pgfm;
        if a : bool then merge_loop fuel (order + 1) pgfm
        else
          unlock_pgfm pgfm;;
          unlock_pool order;;
          ret (pgfm, order)
      end
    else ret (pgfm, order)
  end.

Definition merge_fuel : nat := 7.

(** [src/module/mm/buddy/buddy_allocator.c:65-157 bkp_free] *)
Definition bkp_free (pgfm : option Z) : M buddy unit :=
  match pgfm with
  | None => ret tt
  | Some pgfm =>
    ASSERT (pg_valid km pgfm);;
    lock_pgfm pgfm;;
    p ← get_page pgfm;
    ASSERT (bool_decide (pgtype p = PAGE_BUDDYALLOCATOR) && buddy_pgfm_freeable p
            && (0 <=? buddy_order p) && (buddy_order p <? MAX_ORDER));;
    unlock_pgfm pgfm;;
    '(pgfm, order) ← merge_loop merge_fuel (buddy_order p) pgfm;
    lock_pool order;;
    lock_pgfm pgfm;;
    set_page pgfm (fun p => with_flags (Z.lor (buddy_flags p) PG_BUDDY_FLAG_FREE) p);;
    p ← get_page pgfm;
    ASSERT (bool_decide (pgtype p = PAGE_BUDDYALLOCATOR)
            && has (buddy_flags p) PG_BUDDY_FLAG_FREE && has (buddy_flags p) PG_BUDDY_FLAG_HEAD
            && negb (has (buddy_flags p) PG_BUDDY_FLAG_BODY)
            && negb (has (buddy_flags p) PG_BUDDY_FLAG_STATIC));;
    base ← gets (fun s => pgframe_pages (frames_of s));
    on_nodes (list_add_tail (buddy_node base pgfm) (pool_list order));;
    add_rest order 1;;
    unlock_pgfm pgfm;;
    unlock_pool order
  end.

(** [src/module/mm/buddy/buddy_allocator.c:42-58 bkp_alloc (split loop)] The
    locals are [rest_pgst] and [rest_pgnum]. *)
Definition split_rest : Z * Z -> Z -> M buddy (step (Z * Z) unit) :=
  fun '(rest_pgst, rest_pgnum) i =>
    if rest_pgnum =? 0 then ret (Return tt)
    else if negb (Z.land rest_pgnum (Z.shiftl 1 i) =? 0) then
      lock_pgfm rest_pgst;;
      p ← get_page rest_pgst;
      ASSERT (buddy_flags p =? PG_BUDDY_FLAG_BODY);;
      ASSERT (buddy_order p =? MAX_ORDER);;
      set_page rest_pgst (with_order i);;
      set_page rest_pgst (with_flags PG_BUDDY_FLAG_HEAD);;
      unlock_pgfm rest_pgst;;
      bkp_free (Some rest_pgst);;
      ret (Next (rest_pgst + Z.shiftl 1 i, s32 (rest_pgnum - Z.shiftl 1 i)))
    else ret (Next (rest_pgst, rest_pgnum)).

(** [src/module/mm/buddy/buddy_allocator.c:21-61 bkp_alloc (search loop)] *)
Fixpoint alloc_loop (fuel : nat) (order order_orig : Z) : M buddy (option Z) :=
  match fuel with
  | O => fail NoFuel
  | S fuel =>
    if order <? MAX_ORDER then
      lock_pool order;;
      pool ← on_pools (load order);
      if rest_block_num pool =? 0 then
        unlock_pool order;;
        alloc_loop fuel (order + 1) order_orig
      else
        add_rest order (-1);;
        node ← on_nodes (list_first_entry (pool_list order));
        base ← gets (fun s => pgframe_pages (frames_of s));
        let page_ptr := node_entry base node in
        lock_pgfm page_ptr;;
        on_nodes (list_del (buddy_node base page_ptr));;
        p ← get_page page_ptr;
        ASSERT (buddy_flags p =? Z.lor PG_BUDDY_FLAG_HEAD PG_BUDDY_FLAG_FREE);;
        ASSERT (buddy_order p =? order);;
        set_page page_ptr (with_flags PG_BUDDY_FLAG_HEAD);;
        set_page page_ptr (with_order order_orig);;
        unlock_pgfm page_ptr;;
        unlock_pool order;;
        let rest_pgst := page_ptr + ORDER2PGNUM order_orig in
        let rest_pgnum := s32 (ORDER2PGNUM order - ORDER2PGNUM order_orig) in
        for_down (Z.to_nat MAX_ORDER) split_rest (rest_pgst, rest_pgnum);;
        ret (Some page_ptr)
    else ret None
  end.

(** [src/module/mm/buddy/buddy_allocator.c:16-62 bkp_alloc] *)
Definition bkp_alloc (order_orig : Z) : M buddy (option Z) :=
  if negb ((0 <=? order_orig) && (order_orig <? MAX_ORDER)) then ret None
  else alloc_loop merge_fuel order_orig order_orig.

(** [src/module/mm/buddy/buddy_allocator.c:7-13 bkp_alloc_zero] *)
Definition bkp_alloc_zero (order_orig : Z) : M buddy (option Z) :=
  pgfm ← bkp_alloc order_orig;
  match pgfm with
  | Some pg =>
    modify (fun s => set_memory (fill (pg2va km pg) (u64 (Z.shiftl 1 order_orig * PAGE_SIZE)) 0 (memory s)) s);;
    ret (Some pg)
  | None => ret None
  end.

(** [src/module/mm/buddy/buddy_allocator.c:159-165 bk_alloc] *)
Definition bk_alloc (order : Z) : M buddy Z :=
  pgfm ← bkp_alloc order;
  match pgfm with
  | None => ret NULL
  | Some pg => ret (pg2va km pg)
  end.

(** [src/module/mm/buddy/buddy_allocator.c:167-173 bk_alloc_zero] *)
Definition bk_alloc_zero (order : Z) : M buddy Z :=
  r ← bk_alloc order;
  when (negb (r =? NULL))
    (modify (fun s => set_memory (fill r (u64 (Z.shiftl 1 order * PAGE_SIZE)) 0 (memory s)) s));;
  ret r.

(** [src/module/mm/buddy/buddy_allocator.c:177-184 bk_free] *)
Definition bk_free (addres : Z) : M buddy unit :=
  if (addres =? NULL) || negb (va_valid km addres) then ret tt
  else bkp_free (Some (va2pg km addres)).

(** [src/module/mm/buddy/buddy_allocator.c:188-216 buddy_slfcheck] *)
Definition buddy_slfcheck : M buddy Z :=
  r ← for_up (Z.to_nat MAX_ORDER) 0 (fun (_ : unit) i =>
    lock_pool i;;
    pool ← on_pools (load i);
    if negb (block_size pool =? Z.shiftl 1 i * PAGE_SIZE) then
      unlock_pool i;; ret (Return (- EFAULT))
    else
      first ← on_nodes (get_next (pool_list i));
      fuel ← gets (fun s => list_fuel (nodes (frames_of s)));
      base ← gets (fun s => pgframe_pages (frames_of s));
      r ← list_for_each (R := unit) (fun s => nodes (frames_of s)) fuel (pool_list i) first
        (fun '(rest_block, err) iterator =>
           pg ← get_page (node_entry base iterator);
           ret (Next (s32 (rest_block - 1), if negb (buddy_order pg =? i) then 1 else err)))
        (rest_block_num pool, 0);
      match r with
      | Next (rest_block, err) =>
        if negb (rest_block =? 0) || (err =? 1) then
          unlock_pool i;; ret (Return (- EFAULT))
        else unlock_pool i;; ret (Next tt)
      | Return _ => ret (Next tt)
      end) tt;
  match r with
  | Return e => ret e
  | Next _ => ret 0
  end.

(** [src/module/mm/buddy/buddy_module.c:8-32 buddy_module_init] The log
    messages are left out. *)
Definition buddy_module_init : M (Z * buddy) Z :=
  done ← gets fst;
  if negb (done =? 0) then ret 0
  else
    let on {A} (m : M buddy A) := zoom snd (fun s ds => (fst ds, s)) m in
    on (for_up (R := unit) (Z.to_nat MAX_ORDER) 0 (fun (_ : unit) i =>
      on_pools (update i (with_pool_lk 1));;
      on_pools (update i (with_rest 0));;
      on_pools (update i (with_size (s32 (ORDER2BYTE i))));;
      on_nodes (INIT_LIST_HEAD (pool_list i));;
      ret (Next tt)) tt);;
    on (for_up (R := unit) (Z.to_nat (PGFRAME_PAGE_NUMS km)) 0 (fun (_ : unit) i =>
      p ← get_page i;
      when (buddy_pgfm_freeable p) (bkp_free (Some i));;
      ret (Next tt)) tt);;
    modify (fun ds => (u32 (fst ds + 1), snd ds));;
    ret 0.
End allocator.

(** ** Running the steps *)

(** A state from its parts: base of [PAGES], descriptors, list nodes, pools,
    memory. *)
Definition St (b : Z) (P : gmap Z pageframe) (h : heap) (O : gmap Z mempool) (m : Z -> Z) : buddy :=
  mk_buddy (mk_frames b P h) O m.

Section steps.
Context (b : Z) (P : gmap Z pageframe) (h : heap) (O : gmap Z mempool) (m : Z -> Z).

Lemma get_page_Ok pg p : P !! pg = Some p -> get_page pg (St b P h O m) = Ok (p, St b P h O m).
Proof.
  intros H. unfold get_page, on_frames, zoom. simpl.
  by rewrite (pg_load_Ok (mk_frames b P h) pg p H).
Qed.

Lemma set_page_Ok pg f p :
  P !! pg = Some p -> set_page pg f (St b P h O m) = Ok (tt, St b (<[pg := f p]> P) h O m).
Proof.
  intros H. unfold set_page, on_frames, zoom. simpl.
  by rewrite (pg_update_Ok (mk_frames b P h) pg p f H).
Qed.

Lemma lock_pgfm_Ok pg p :
  P !! pg = Some p -> page_lk p = 1 ->
  lock_pgfm pg (St b P h O m) = Ok (tt, St b (<[pg := with_lk 0 p]> P) h O m).
Proof.
  intros H Hl. unfold lock_pgfm, on_frames, zoom. simpl.
  by rewrite (lock_page_Ok (mk_frames b P h) pg p H Hl).
Qed.

Lemma unlock_pgfm_Ok pg p :
  P !! pg = Some p -> page_lk p = 0 ->
  unlock_pgfm pg (St b P h O m) = Ok (tt, St b (<[pg := with_lk 1 p]> P) h O m).
Proof.
  intros H Hl. unfold unlock_pgfm, on_frames, zoom. simpl.
  by rewrite (unlock_page_Ok (mk_frames b P h) pg p H Hl).
Qed.

Lemma lock_pool_Ok o q :
  O !! o = Some q -> pool_lk q = 1 ->
  lock_pool o (St b P h O m) = Ok (tt, St b P h (<[o := with_pool_lk 0 q]> O) m).
Proof.
  intros H Hl. unfold lock_pool, on_pools, bind, zoom. simpl.
  rewrite (load_Ok _ _ _ H), Hl. simpl. by rewrite (update_Ok _ _ _ _ H).
Qed.

Lemma unlock_pool_Ok o q :
  O !! o = Some q -> pool_lk q = 0 ->
  unlock_pool o (St b P h O m) = Ok (tt, St b P h (<[o := with_pool_lk 1 q]> O) m).
Proof.
  intros H Hl. unfold unlock_pool, on_pools, zoom. simpl.
  by rewrite (update_Ok _ _ _ _ H), Hl.
Qed.

Lemma load_pool_Ok o q :
  O !! o = Some q -> on_pools (load o) (St b P h O m) = Ok (q, St b P h O m).
Proof. intros H. unfold on_pools, zoom. simpl. by rewrite (load_Ok _ _ _ H). Qed.

Lemma add_rest_Ok o d q :
  O !! o = Some q ->
  add_rest o d (St b P h O m)
  = Ok (tt, St b P h (<[o := with_rest (s32 (rest_block_num q + d)) q]> O) m).
Proof. intros H. unfold add_rest, on_pools, zoom. simpl. by rewrite (update_Ok _ _ _ _ H). Qed.

Lemma on_nodes_Ok {A} (x : M heap A) a h' :
  x h = Ok (a, h') -> on_nodes x (St b P h O m) = Ok (a, St b P h' O m).
Proof. intros H. unfold on_nodes, in_nodes, on_frames, zoom. simpl. by rewrite H. Qed.

Lemma get_base_Ok :
  gets (fun s => pgframe_pages (frames_of s)) (St b P h O m) = Ok (b, St b P h O m).
Proof. done. Qed.
End steps.

Lemma unlink_page_Ok b P h O m pg o h' q :
  list_del (buddy_node b pg) h = Ok (tt, h') -> O !! o = Some q ->
  unlink_page pg o (St b P h O m)
  = Ok (tt, St b P h' (<[o := with_rest (s32 (rest_block_num q + -1)) q]> O) m).
Proof.
  intros E Hq. unfold unlink_page. rewrite (bind_Ok _ _ _ _ _ (get_base_Ok b P h O m)).
  rewrite (bind_Ok _ _ _ _ _ (on_nodes_Ok b P h O m _ _ _ E)). by apply add_rest_Ok.
Qed.

Lemma St_eq b P P' h O O' m : P = P' -> O = O' -> St b P h O m = St b P' h O' m.
Proof. by intros -> ->. Qed.

Lemma ASSERT_Ok {S} (c : bool) (s : S) : c = true -> ASSERT c s = Ok (tt, s).
Proof. by intros ->. Qed.

(** Lookups in a memory updated at known keys. *)
Ltac lookups :=
  repeat first [ rewrite lookup_insert_eq | rewrite lookup_insert_ne by lia ]; try eassumption;
  try reflexivity.

(** [bstep L] runs the head of a sequence of allocator steps by [L]. *)
Tactic Notation "bstep" uconstr(L) :=
  first [ erewrite bind_Ok; [| eapply L; [lookups ..]] | erewrite L; [| lookups ..] ];
  cbn beta iota.

(** ** The invariant *)

Definition order_ok (o : Z) : Prop := 0 <= o < MAX_ORDER.

Definition is_head (p : pageframe) : Prop :=
  order_ok (buddy_order p) /\
  (buddy_flags p = 2 \/ buddy_flags p = 3 /\ pgtype p = PAGE_BUDDYALLOCATOR).
Definition is_body (p : pageframe) : Prop :=
  buddy_flags p = 4 /\ buddy_order p = MAX_ORDER /\ pgtype p = PAGE_BUDDYALLOCATOR.

(** The pages between a head and the end of its block. *)
Definition tail_of (P : gmap Z pageframe) (i o : Z) : Prop :=
  forall j, i < j < i + 2 ^ o -> exists q, P !! j = Some q /\ is_body q.
Definition owned (P : gmap Z pageframe) (i : Z) : Prop :=
  exists k q, P !! k = Some q /\ is_head q /\ k < i < k + 2 ^ buddy_order q.

Definition orphan (P : gmap Z pageframe) (i : Z) : Prop :=
  (exists q, P !! i = Some q /\ is_body q) /\ ~ owned P i.

(** Every page is static, the head of a block whose other pages are bodies, or
    a body of a block (the orphans [X] excepted: [bkp_alloc] cuts them off
    before it frees them); no descriptor is locked. *)
Record blocks (n : Z) (X : Z -> Prop) (P : gmap Z pageframe) : Prop := {
  blk_dom : forall i, is_Some (P !! i) <-> 0 <= i < n;
  blk_lk : forall i p, P !! i = Some p -> page_lk p = 1;
  blk_shape : forall i p, P !! i = Some p ->
    buddy_flags p = 8 \/ is_head p /\ tail_of P i (buddy_order p) \/ is_body p /\ (owned P i \/ X i);
  blk_orphans : forall i, X i -> orphan P i
}.

(** Rings of the pools that list the free blocks [L]. *)
Definition rings (g b : Z) (L : Z -> list Z) : gmap Z (list Z) :=
  list_to_map ((fun o => (pool_list g o, buddy_node b <$> L o)) <$> seqZ 0 MAX_ORDER).

(** The pools and their rings agree with the descriptors: pool [o] lists the
    heads of the free blocks of order [o].  [Ext] are rings of the list memory that
    belong to others. *)
Record pools_inv (g n b : Z) (Ext : gmap Z (list Z)) (P : gmap Z pageframe) (h : heap) (O : gmap Z mempool)
    (L : Z -> list Z) : Prop := {
  pool_entry : forall o, order_ok o ->
    O !! o = Some (mk_mempool 1 (Z.of_nat (length (L o))) (4096 * 2 ^ o));
  pool_rings : dlists h (rings g b L ∪ Ext);
  pool_nodes : forall i, 0 <= i < n -> buddy_node b i ∈ dom h;
  pool_free : forall o i, order_ok o ->
    (i ∈ L o <-> exists p, P !! i = Some p /\ buddy_flags p = 3 /\ buddy_order p = o)
}.

(** Others use the list node of a descriptor only for the page of a slab. *)
Definition foreign (Ext : gmap Z (list Z)) (b : Z) (P : gmap Z pageframe) : Prop :=
  forall i p, P !! i = Some p -> pgtype p <> SLAB_ALLOCATOR -> unlinked Ext (buddy_node b i).

Record buddy_inv (g n b : Z) (Ext : gmap Z (list Z)) (X : Z -> Prop) P h O L : Prop := {
  inv_blocks : blocks n X P;
  inv_pools : pools_inv g n b Ext P h O L;
  inv_foreign : foreign Ext b P
}.

Lemma foreign_update Ext b P k p p' :
  foreign Ext b P -> P !! k = Some p -> pgtype p <> SLAB_ALLOCATOR -> foreign Ext b (<[k := p']> P).
Proof.
  intros H Hk Ht i q. rewrite lookup_insert_Some. intros [[<- _] | [_ Hi]] Hq; [by eapply H | by eapply H].
Qed.

(** The number of pages in the free blocks [L]. *)
Definition free_pages (L : Z -> list Z) : Z :=
  foldr (fun o s => Z.of_nat (length (L o)) * 2 ^ o + s) 0 (seqZ 0 MAX_ORDER).

(** Descriptors that the allocator leaves alone: allocated heads and static
    pages. *)
Definition kept (p : pageframe) : Prop := buddy_flags p = 2 \/ buddy_flags p = 8.

(** Between [P] and [P'] the allocated block at [i] became that at [i'], and
    nothing else changed hands. *)
Definition moves (i i' : Z) (P P' : gmap Z pageframe) : Prop :=
  forall j p, kept p -> (j <> i /\ P !! j = Some p <-> j <> i' /\ P' !! j = Some p).

(** An allocated block of order [o] at [i] that the allocator may take back. *)
Definition allocated (P : gmap Z pageframe) (i o : Z) : Prop :=
  exists p, P !! i = Some p /\ buddy_flags p = 2 /\ buddy_order p = o /\
    pgtype p = PAGE_BUDDYALLOCATOR.

(** ** Neighbouring blocks *)

Lemma pow_order o : order_ok o -> 1 <= 2 ^ o <= 32.
Proof.
  intros [H0 H1]. unfold MAX_ORDER, CONFIG_BUDDYSYSTEM_MAX_ORDER in H1. split.
  - apply (Z.pow_le_mono_r 2 0 o); lia.
  - apply (Z.pow_le_mono_r 2 o 5); lia.
Qed.

Lemma ORDER2PGNUM_eq o : 0 <= o -> ORDER2PGNUM o = 2 ^ o.
Proof. intros H. unfold ORDER2PGNUM. by rewrite Z.shiftl_mul_pow2, Z.mul_1_l. Qed.

Lemma ORDER2BYTE_eq o : order_ok o -> ORDER2BYTE o = 4096 * 2 ^ o.
Proof.
  intros H. pose proof (pow_order o H). unfold ORDER2BYTE, PGFRAME_PGSIZE.
  rewrite ORDER2PGNUM_eq, PAGE_SIZE_eq by apply H. rewrite u64_small; lia.
Qed.

Section neighbours.
Context (km : kernel_mapping) (G : geometry km) (i o : Z).
Context (Hi : 0 <= i < PGFRAME_PAGE_NUMS km) (Ho : order_ok o).

Lemma before_page :
  if va_valid km (u64 (pg2va km i - ORDER2BYTE o))
  then 2 ^ o <= i /\ va2pg km (u64 (pg2va km i - ORDER2BYTE o)) = i - 2 ^ o
  else i < 2 ^ o.
Proof using All.
  pose proof (pow_order o Ho). pose proof G as [_ Hva Hend _ _ Hsz Hn].
  rewrite (pg2va_eq km G), ORDER2BYTE_eq, u64_small by (done || lia).
  destruct (va_valid km _) eqn:E.
  - apply (va_valid_spec km G) in E. split; [lia |].
    replace (_ - _) with (PGFRAME_VA_START km + 4096 * (i - 2 ^ o)) by lia.
    unfold va2pg. rewrite (va2id_eq km G) by lia. rewrite Z.mul_comm. apply Z.div_mul. lia.
  - apply not_true_iff_false in E. rewrite (va_valid_spec km G) in E. lia.
Qed.

Lemma after_page :
  if va_valid km (u64 (pg2va km i + ORDER2BYTE o))
  then i + 2 ^ o < PGFRAME_PAGE_NUMS km /\ va2pg km (u64 (pg2va km i + ORDER2BYTE o)) = i + 2 ^ o
  else PGFRAME_PAGE_NUMS km <= i + 2 ^ o.
Proof using All.
  pose proof (pow_order o Ho). pose proof G as [_ Hva Hend _ _ Hsz Hn].
  rewrite (pg2va_eq km G), ORDER2BYTE_eq, u64_small by (done || lia).
  destruct (va_valid km _) eqn:E.
  - apply (va_valid_spec km G) in E. split; [lia |].
    replace (_ + _ + _) with (PGFRAME_VA_START km + 4096 * (i + 2 ^ o)) by lia.
    unfold va2pg. rewrite (va2id_eq km G) by lia. rewrite Z.mul_comm. apply Z.div_mul. lia.
  - apply not_true_iff_false in E. rewrite (va_valid_spec km G) in E. lia.
Qed.
End neighbours.

(** ** Descriptors *)

(** Flag tests on known flags. *)
Ltac flags := repeat match goal with |- context [has ?a ?b] =>
  let v := eval vm_compute in (has a b) in change (has a b) with v end.

Lemma kinds_disjoint p : is_head p -> is_body p -> False.
Proof. intros [_ Hf] [Hb _]. lia. Qed.

Lemma mergeable_spec p o :
  buddy_flags p = 8 \/ is_head p \/ is_body p ->
  mergeable p o = bool_decide (buddy_flags p = 3 /\ buddy_order p = o).
Proof.
  intros Hk. unfold mergeable. apply eq_bool_prop_intro.
  rewrite bool_decide_spec.
  assert (Hb : Is_true (bool_decide (pgtype p = PAGE_BUDDYALLOCATOR) && (buddy_order p =? o)
      && has (buddy_flags p) PG_BUDDY_FLAG_HEAD && negb (has (buddy_flags p) PG_BUDDY_FLAG_BODY)
      && has (buddy_flags p) PG_BUDDY_FLAG_FREE)
    <-> pgtype p = PAGE_BUDDYALLOCATOR /\ buddy_order p = o /\ has (buddy_flags p) PG_BUDDY_FLAG_HEAD = true
      /\ has (buddy_flags p) PG_BUDDY_FLAG_BODY = false /\ has (buddy_flags p) PG_BUDDY_FLAG_FREE = true).
  { rewrite Is_true_true, !andb_true_iff, bool_decide_eq_true, negb_true_iff, Z.eqb_eq. tauto. }
  rewrite Hb. clear Hb.
  destruct Hk as [Hf | [[_ [Hf | [Hf Ht]]] | [Hf _]]]; rewrite Hf;
    flags; intuition congruence.
Qed.

Lemma shape_kind n X P i p : blocks n X P -> P !! i = Some p ->
  buddy_flags p = 8 \/ is_head p \/ is_body p.
Proof. intros [_ _ Bs _] H. destruct (Bs i p H) as [| [[] | []]]; auto. Qed.

Lemma head_tail n X P i p : blocks n X P -> P !! i = Some p -> is_head p -> tail_of P i (buddy_order p).
Proof.
  intros [_ _ Bs _] H Hh. destruct (Bs i p H) as [F | [[_ Ht] | [Hb _]]]; [| done |].
  - destruct Hh as [_ Hh]. lia.
  - by destruct (kinds_disjoint p).
Qed.

Lemma page_range n X P i p : blocks n X P -> P !! i = Some p -> 0 <= i < n.
Proof. intros [Bd _ _ _] H. apply Bd. eauto. Qed.

(** Writing a descriptor over another one keeps the bodies when the old one
    is no body or the new one is. *)
Lemma tail_update P k q i o :
  (exists p, P !! k = Some p /\ (is_body q \/ ~ is_body p)) -> tail_of P i o -> tail_of (<[k := q]> P) i o.
Proof.
  intros (p & Hk & Hc) Ht j Hj. destruct (Ht j Hj) as (r & Hr & Hb).
  destruct (decide (j = k)) as [-> |]; [| exists r; by rewrite lookup_insert_ne].
  exists q. lookups. split; [done |]. destruct Hc as [| Hn]; [done |]. by simplify_eq.
Qed.

Lemma tail_app P i o : 0 <= o -> tail_of P i o ->
  (exists q, P !! (i + 2 ^ o) = Some q /\ is_body q) -> tail_of P (i + 2 ^ o) o -> tail_of P i (o + 1).
Proof.
  intros Ho H1 Hm H2 j Hj. rewrite Z.pow_add_r in Hj by lia.
  destruct (Z.lt_trichotomy j (i + 2 ^ o)) as [| [-> |]]; [apply H1; lia | done | apply H2; lia].
Qed.

Lemma kinds_ne (P : gmap Z pageframe) x p : P !! x = Some p -> is_head p -> ~ (exists q, P !! x = Some q /\ is_body q).
Proof. intros Hp Hh (q & Hq & Hb). assert (q = p) as -> by congruence. by apply (kinds_disjoint p). Qed.

(** A body stays where a head is rewritten. *)
Lemma orphan_keep (P : gmap Z pageframe) k p p' x :
  P !! k = Some p -> ~ (exists q, P !! k = Some q /\ is_body q) ->
  (exists q, P !! x = Some q /\ is_body q) -> exists q, (<[k := p']> P) !! x = Some q /\ is_body q.
Proof.
  intros Hk Hnb Hx. assert (x <> k) by (by intros ->). by rewrite lookup_insert_ne.
Qed.

(** Two adjacent blocks of order [o] become one of order [o + 1]. *)
Lemma blocks_merge n X P i j o p q p' q' :
  blocks n X P -> order_ok o -> order_ok (o + 1) -> j = i + 2 ^ o ->
  P !! i = Some p -> is_head p -> buddy_order p = o ->
  P !! j = Some q -> is_head q -> buddy_order q = o ->
  page_lk p' = 1 -> is_head p' -> buddy_order p' = o + 1 ->
  page_lk q' = 1 -> is_body q' ->
  blocks n X (<[i := p']> (<[j := q']> P)).
Proof.
  intros B Ho Ho1 -> Hi Hp Eo Hj Hq Eo' Hl' Hhp Ho' Hlq Hbq.
  pose proof (pow_order o Ho) as Hpw. pose proof B as [Bd Bl Bs Bo].
  assert (Hpow : 2 ^ (o + 1) = 2 * 2 ^ o) by (rewrite Z.pow_add_r; [lia | apply Ho | lia]).
  assert (Hupd : forall x ox, tail_of P x ox -> tail_of (<[i := p']> (<[i + 2 ^ o := q']> P)) x ox).
  { intros x ox Ht. apply tail_update; [| apply tail_update; [| done]].
    - exists p. split; [lookups |]. right. intros Hb. by apply (kinds_disjoint p).
    - exists q. eauto. }
  assert (Hti : tail_of (<[i := p']> (<[i + 2 ^ o := q']> P)) i (o + 1)).
  { apply tail_app; [apply Ho | | exists q'; split; [lookups | done] |]; apply Hupd.
    - pose proof (head_tail _ _ _ _ _ B Hi Hp) as H. by rewrite Eo in H.
    - pose proof (head_tail _ _ _ _ _ B Hj Hq) as H. by rewrite Eo' in H. }
  assert (Hown : forall x, i < x < i + 2 ^ (o + 1) -> owned (<[i := p']> (<[i + 2 ^ o := q']> P)) x).
  { intros x Hx. exists i, p'. rewrite Ho'. split; [lookups | done]. }
  split.
  - intros x. rewrite <- Bd. destruct (decide (x = i)) as [-> |]; [lookups; rewrite Hi; split; eauto |].
    rewrite lookup_insert_ne by done.
    destruct (decide (x = i + 2 ^ o)) as [-> |]; [lookups; rewrite Hj; split; eauto | by rewrite lookup_insert_ne].
  - intros x px. rewrite !lookup_insert_Some. intros [[_ <-] | [_ [[_ <-] | [_ Hx]]]]; [done | done | by eapply Bl].
  - intros x px. rewrite !lookup_insert_Some. intros [[<- <-] | [Hxi [[<- <-] | [Hxj Hx]]]].
    + right. left. by rewrite Ho'.
    + right. right. split; [done |]. left. apply Hown. lia.
    + destruct (Bs x px Hx) as [F | [[Hh Ht] | [Hb [(k & r & Hk & Hr & Hkx) | HX]]]];
        [by left | right; left; auto | right; right; split; [done |]; left | by right; right; auto].
      destruct (decide (k = i)) as [-> |]; [| destruct (decide (k = i + 2 ^ o)) as [-> |]].
      * assert (r = p) as -> by congruence. apply Hown. rewrite Eo in Hkx. lia.
      * assert (r = q) as -> by congruence. apply Hown. rewrite Eo' in Hkx. lia.
      * exists k, r. rewrite !lookup_insert_ne by done. auto.
  - intros x Hx. apply Bo in Hx as [(y & Hy & Hby) Hno]. split.
    + assert (x <> i) by (intros ->; eapply (kinds_ne P i p); eauto).
      assert (x <> i + 2 ^ o) by (intros ->; eapply (kinds_ne P _ q); eauto).
      rewrite !lookup_insert_ne by done. eauto.
    + intros (k & r & Hk & Hr & Hkx). apply Hno. apply lookup_insert_Some in Hk.
      destruct Hk as [[<- <-] | [Hki Hk]]; [| apply lookup_insert_Some in Hk as [[<- <-] | [Hkj Hk]]].
      * rewrite Ho', Hpow in Hkx. destruct (Z.lt_trichotomy x (i + 2 ^ o)) as [Hlt | [-> | Hgt]].
        -- exists i, p. rewrite Eo. auto with lia.
        -- exfalso. assert (y = q) as -> by congruence. by apply (kinds_disjoint q).
        -- exists (i + 2 ^ o), q. rewrite Eo'. auto with lia.
      * by destruct (kinds_disjoint q').
      * exists k, r. auto.
Qed.

(** ** Pools *)

Definition upd (L : Z -> list Z) (o : Z) (l : list Z) : Z -> list Z :=
  fun o' => if o' =? o then l else L o'.

Lemma upd_eq L o l : upd L o l o = l.
Proof. unfold upd. by rewrite Z.eqb_refl. Qed.
Lemma upd_ne L o l o' : o' <> o -> upd L o l o' = L o'.
Proof. intros H. unfold upd. by rewrite (proj2 (Z.eqb_neq _ _) H). Qed.

Lemma pool_list_inj g o o' : pool_list g o = pool_list g o' -> o = o'.
Proof. unfold pool_list. lia. Qed.

Lemma rings_lookup g b L k l :
  rings g b L !! k = Some l <-> exists o, order_ok o /\ k = pool_list g o /\ l = buddy_node b <$> L o.
Proof.
  unfold rings. rewrite <- elem_of_list_to_map.
  - rewrite list_elem_of_fmap. split.
    + intros (o & [= -> ->] & Ho%elem_of_seqZ). exists o. unfold order_ok. auto with lia.
    + intros (o & Ho & -> & ->). exists o. split; [done |]. apply elem_of_seqZ. unfold order_ok in Ho. lia.
  - rewrite <- list_fmap_compose. apply NoDup_fmap; [| apply NoDup_seqZ].
    intros o o' H. by apply (pool_list_inj g).
Qed.

Lemma rings_upd g b L o l :
  order_ok o -> rings g b (upd L o l) = <[pool_list g o := buddy_node b <$> l]> (rings g b L).
Proof.
  intros Ho. apply map_eq. intros k. apply option_eq. intros v.
  rewrite lookup_insert_Some, !rings_lookup. split.
  - intros (o' & Ho' & -> & ->). destruct (decide (o' = o)) as [-> | Hne].
    + left. by rewrite upd_eq.
    + right. rewrite upd_ne by done. split; [intros H; by apply pool_list_inj in H | eauto].
  - intros [[<- <-] | [Hk (o' & Ho' & -> & ->)]].
    + exists o. by rewrite upd_eq.
    + exists o'. split; [done |]. split; [done |]. rewrite upd_ne; [done |]. by intros ->.
Qed.

Lemma rings_pool g b L o : order_ok o -> rings g b L !! pool_list g o = Some (buddy_node b <$> L o).
Proof. intros Ho. apply rings_lookup. eauto. Qed.

Lemma free_pages_upd L o l :
  order_ok o ->
  free_pages (upd L o l) = free_pages L + (Z.of_nat (length l) - Z.of_nat (length (L o))) * 2 ^ o.
Proof.
  intros Ho. unfold free_pages. assert (Hin : o ∈ seqZ 0 MAX_ORDER) by (apply elem_of_seqZ; apply Ho).
  pose proof (NoDup_seqZ 0 MAX_ORDER) as Hnd. revert Hin Hnd. generalize (seqZ 0 MAX_ORDER) as s.
  assert (Hout : forall s, o ∉ s ->
    foldr (fun o' s => Z.of_nat (length (upd L o l o')) * 2 ^ o' + s) 0 s
    = foldr (fun o' s => Z.of_nat (length (L o')) * 2 ^ o' + s) 0 s).
  { induction s as [|a s IH]; [done |]. intros [Ha Hs]%not_elem_of_cons. simpl.
    rewrite upd_ne, IH by done. done. }
  induction s as [|a s IH]; [by intros ?%elem_of_nil |].
  intros Hin [Ha Hnd]%NoDup_cons. simpl. apply elem_of_cons in Hin as [-> | Hin].
  - rewrite upd_eq, Hout by done. lia.
  - rewrite upd_ne by (by intros ->). rewrite IH by done. lia.
Qed.

(** The descriptors of free blocks. *)
Definition free_at (P : gmap Z pageframe) (o i : Z) : Prop :=
  exists p, P !! i = Some p /\ buddy_flags p = 3 /\ buddy_order p = o.

Section pools.
Context (g n b : Z) (Ext : gmap Z (list Z)) (P : gmap Z pageframe) (h : heap) (O : gmap Z mempool) (L : Z -> list Z).
Context (Hinv : pools_inv g n b Ext P h O L) (Hdom : forall i p, P !! i = Some p -> 0 <= i < n).
Context (Hsep : forall o i, order_ok o -> 0 <= i < n -> pool_list g o <> buddy_node b i).

Lemma ring_at_pool o : order_ok o -> (rings g b L ∪ Ext) !! pool_list g o = Some (buddy_node b <$> L o).
Proof using. intros Ho. apply lookup_union_Some_l. by apply rings_pool. Qed.

Lemma pool_ring o : order_ok o -> dlist h (pool_list g o) (buddy_node b <$> L o).
Proof using All. intros Ho. apply (proj1 (pool_rings _ _ _ _ _ _ _ _ Hinv)). by apply ring_at_pool. Qed.

Lemma pool_NoDup o : order_ok o -> NoDup (L o).
Proof using All.
  intros Ho. pose proof (pool_ring o Ho) as [Hnd _]. apply NoDup_cons in Hnd as [_ Hnd].
  by apply NoDup_fmap_1 in Hnd.
Qed.

(** Taking the free block [x] out of its pool. *)
Lemma pools_del o x :
  order_ok o -> free_at P o x ->
  exists h' l1 l2, L o = l1 ++ x :: l2 /\ list_del (buddy_node b x) h = Ok (tt, h') /\
    forall P', (forall o' i, order_ok o' -> free_at P' o' i <-> i <> x /\ free_at P o' i) ->
      pools_inv g n b Ext P' h'
        (<[o := mk_mempool 1 (Z.of_nat (length (l1 ++ l2))) (4096 * 2 ^ o)]> O) (upd L o (l1 ++ l2)).
Proof using All.
  intros Ho Hx. destruct Hinv as [He Hr Hn Hf].
  apply (Hf o x Ho) in Hx as Hin. apply list_elem_of_split in Hin as (l1 & l2 & El).
  pose proof (ring_at_pool o Ho) as Hk. rewrite El, fmap_app in Hk. simpl in Hk.
  destruct (dlists_del _ _ _ _ _ _ Hr Hk) as (h' & E & Hr' & Hd & _).
  exists h', l1, l2. split; [done |]. split; [done |]. intros P' HP'. split.
  - intros o' Ho'. destruct (decide (o' = o)) as [-> |]; [by rewrite lookup_insert_eq, upd_eq |].
    by rewrite lookup_insert_ne, upd_ne, He.
  - by rewrite rings_upd, fmap_app, <-insert_union_l.
  - intros i Hi. rewrite Hd. by apply Hn.
  - intros o' i Ho'. fold (free_at P' o' i). rewrite HP' by done.
    destruct (decide (o' = o)) as [-> |].
    + rewrite upd_eq. unfold free_at. rewrite <- Hf, El by done.
      pose proof (pool_NoDup o Ho) as Hnd. rewrite El in Hnd.
      apply NoDup_app in Hnd as (_ & Hni & Hnd). apply NoDup_cons in Hnd as [Hx2 _].
      rewrite !elem_of_app, elem_of_cons. split.
      * intros Hi. split; [intros -> | tauto]. destruct Hi as [Hi | Hi]; [| done].
        apply (Hni x Hi). by left.
      * tauto.
    + rewrite upd_ne, (Hf o' i Ho') by done. unfold free_at. split; [| tauto].
      intros (p & Hp & Hfl & Hor). split; [| eauto]. intros ->.
      destruct Hx as (p' & Hp' & _ & Hor'). simplify_eq.
Qed.

(** Putting the block [x] at the end of the pool of its order. *)
Lemma pools_add o x :
  order_ok o -> 0 <= x < n -> (forall o', order_ok o' -> ~ free_at P o' x) -> unlinked Ext (buddy_node b x) ->
  exists h', list_add_tail (buddy_node b x) (pool_list g o) h = Ok (tt, h') /\
    forall P', (forall o' i, order_ok o' -> free_at P' o' i <-> i = x /\ o' = o \/ free_at P o' i) ->
      pools_inv g n b Ext P' h'
        (<[o := mk_mempool 1 (Z.of_nat (length (L o)) + 1) (4096 * 2 ^ o)]> O) (upd L o (L o ++ [x])).
Proof using All.
  intros Ho Hx Hnf Hext. destruct Hinv as [He Hr Hn Hf].
  assert (Hun : unlinked (rings g b L ∪ Ext) (buddy_node b x)).
  { intros k l [(o' & Ho' & -> & ->)%rings_lookup | [_ Hk]]%lookup_union_Some_raw; [| by apply (Hext k l)].
    intros [E | Hin]%elem_of_cons.
    - by apply (Hsep o' x Ho' Hx).
    - apply list_elem_of_fmap in Hin as (y & Ey & Hy). apply buddy_node_inj in Ey as <-.
      apply (Hnf o' Ho'). by apply Hf. }
  destruct (dlists_add_tail _ _ _ _ _ Hr (ring_at_pool o Ho) (Hn x Hx) Hun) as (h' & E & Hr' & Hd).
  exists h'. split; [done |]. intros P' HP'. split.
  - intros o' Ho'. destruct (decide (o' = o)) as [-> |].
    + rewrite lookup_insert_eq, upd_eq, length_app. simpl. do 2 f_equal. lia.
    + by rewrite lookup_insert_ne, upd_ne, He.
  - by rewrite rings_upd, fmap_app, <-insert_union_l.
  - intros i Hi. rewrite Hd. by apply Hn.
  - intros o' i Ho'. fold (free_at P' o' i). rewrite HP' by done.
    destruct (decide (o' = o)) as [-> |].
    + rewrite upd_eq, elem_of_app, list_elem_of_singleton, (Hf o i Ho). unfold free_at. tauto.
    + rewrite upd_ne, (Hf o' i Ho') by done. unfold free_at. tauto.
Qed.

(** A pool never lists more blocks than there are pages. *)
Lemma pool_length o : order_ok o -> 0 <= n -> 0 <= Z.of_nat (length (L o)) <= n.
Proof using All.
  intros Ho Hn0. assert (Hsub : L o ⊆+ seqZ 0 n).
  { apply NoDup_submseteq; [by apply pool_NoDup |]. intros i Hi. apply elem_of_seqZ.
    apply (pool_free _ _ _ _ _ _ _ _ Hinv o i Ho) in Hi as (p & Hp & _). apply Hdom in Hp. lia. }
  apply submseteq_length in Hsub. rewrite length_seqZ in Hsub. lia.
Qed.
End pools.

(** ** Freeing *)

Lemma free_at_update P x p' o i :
  free_at (<[x := p']> P) o i <->
  (i = x /\ buddy_flags p' = 3 /\ buddy_order p' = o) \/ (i <> x /\ free_at P o i).
Proof.
  unfold free_at. destruct (decide (i = x)) as [-> | Hne].
  - rewrite lookup_insert_eq. split; [intros (q & [= <-] & H); auto |].
    intros [(_ & H) | [H _]]; [by exists p' | done].
  - rewrite lookup_insert_ne by done. tauto.
Qed.

Lemma allocated_head P i o : allocated P i o -> order_ok o ->
  exists p, P !! i = Some p /\ is_head p /\ buddy_order p = o /\ buddy_flags p = 2 /\
    pgtype p = PAGE_BUDDYALLOCATOR.
Proof.
  intros (p & Hp & Hf & Ho & Ht) Hoo. exists p. split; [done |]. split; [| done].
  split; [congruence | by left].
Qed.

Lemma moves_trans i j k P1 P2 P3 : moves i j P1 P2 -> moves j k P2 P3 -> moves i k P1 P3.
Proof. intros H1 H2 x p Hk. rewrite (H1 x p Hk). by apply H2. Qed.

Lemma free_type n X P i p : blocks n X P -> P !! i = Some p -> buddy_flags p = 3 ->
  pgtype p = PAGE_BUDDYALLOCATOR.
Proof.
  intros B Hp Hf. destruct (shape_kind _ _ _ _ _ B Hp) as [? | [[_ [? | [_ ?]]] | [? _]]]; done || lia.
Qed.

Lemma u8_order o : order_ok (o + 1) -> u8 (o + 1) = o + 1.
Proof.
  intros [H0 H1]. unfold MAX_ORDER, CONFIG_BUDDYSYSTEM_MAX_ORDER in H1. apply Z.mod_small. lia.
Qed.

Lemma merge_fuel_enough o : order_ok o -> MAX_ORDER - o <= Z.of_nat merge_fuel.
Proof. unfold order_ok, MAX_ORDER, CONFIG_BUDDYSYSTEM_MAX_ORDER, merge_fuel. lia. Qed.

(** Rewriting the head of a block in place. *)
Lemma blocks_head n X P i p p' :
  blocks n X P -> P !! i = Some p -> is_head p -> page_lk p' = 1 -> is_head p' ->
  buddy_order p' = buddy_order p -> blocks n X (<[i := p']> P).
Proof.
  intros B Hp Hh Hl Hh' Eo. pose proof B as [Bd Bl Bs Bo].
  assert (Hupd : forall x ox, tail_of P x ox -> tail_of (<[i := p']> P) x ox).
  { intros x ox. apply tail_update. exists p. split; [done |]. right. intros Hb. by apply (kinds_disjoint p). }
  split.
  - intros x. rewrite <- Bd. destruct (decide (x = i)) as [-> |]; [lookups; rewrite Hp; split; eauto |].
    by rewrite lookup_insert_ne.
  - intros x q. rewrite lookup_insert_Some. intros [[_ <-] | [_ Hx]]; [done | by eapply Bl].
  - intros x q. rewrite lookup_insert_Some. intros [[<- <-] | [Hne Hx]].
    + right. left. split; [done |]. rewrite Eo. apply Hupd. by eapply head_tail.
    + destruct (Bs x q Hx) as [F | [[Hhq Ht] | [Hb [(k & r & Hk & Hr & Hkx) | HX]]]];
        [by left | right; left; auto | right; right; split; [done |]; left | by right; right; auto].
      destruct (decide (k = i)) as [-> |].
      * exists i, p'. assert (r = p) as -> by congruence. rewrite lookup_insert_eq, Eo. auto.
      * exists k, r. by rewrite lookup_insert_ne.
  - intros x Hx. apply Bo in Hx as [Hb Hno]. split; [by apply (orphan_keep P i p); eauto using kinds_ne |].
    intros (k & r & Hk & Hr & Hkx). apply Hno. apply lookup_insert_Some in Hk as [[<- <-] | [Hki Hk]].
    + exists i, p. rewrite <- Eo. auto.
    + exists k, r. auto.
Qed.

Section freeing.
Context (km : kernel_mapping) (g b : Z) (Ext : gmap Z (list Z)) (m : Z -> Z) (X : Z -> Prop) (G : geometry km).
Notation n := (PGFRAME_PAGE_NUMS km).
Context (Hsep : forall o i, order_ok o -> 0 <= i < n -> pool_list g o <> buddy_node b i).

(** What a merge of the allocated block [i] of order [o] achieves: the block
    [j] of order [o + 1]. *)
Record merged P (h : heap) (O : gmap Z mempool) L i o j P' h' O' L' : Prop := {
  mrg_inv : buddy_inv g n b Ext X P' h' O' L';
  mrg_block : allocated P' j (o + 1);
  mrg_moves : moves i j P P';
  mrg_span : j <= i /\ i + 2 ^ o <= j + 2 ^ (o + 1);
  mrg_pages : free_pages L' = free_pages L - 2 ^ o
}.

(** The descriptors of two merged blocks [j] (first) and [i]; [k] is the one
    that was allocated, [f] the free one. *)
Lemma merge_state P h O L i j k f o pj pi pj' pi' :
  buddy_inv g n b Ext X P h O L -> order_ok o -> order_ok (o + 1) -> i = j + 2 ^ o ->
  P !! j = Some pj -> P !! i = Some pi -> (k = i /\ f = j \/ k = j /\ f = i) ->
  allocated P k o -> free_at P o f ->
  page_lk pj' = 1 -> buddy_flags pj' = 2 -> buddy_order pj' = o + 1 ->
  pgtype pj' = PAGE_BUDDYALLOCATOR -> page_lk pi' = 1 -> is_body pi' ->
  exists h' l1 l2, L o = l1 ++ f :: l2 /\ list_del (buddy_node b f) h = Ok (tt, h') /\
    merged P h O L k o j (<[j := pj']> (<[i := pi']> P)) h'
      (<[o := mk_mempool 1 (Z.of_nat (length (l1 ++ l2))) (4096 * 2 ^ o)]> O) (upd L o (l1 ++ l2)).
Proof using All.
  intros [B I FO] Ho Ho1 -> Hj Hi Hkf Hal Hfr Elj Efj Eoj Etj Eli Hbi.
  assert (Hdom : forall i p, P !! i = Some p -> 0 <= i < n) by (intros; by eapply page_range).
  pose proof (pow_order o Ho) as Hpw.
  assert (Hhj : is_head pj /\ buddy_order pj = o /\ is_head pi /\ buddy_order pi = o /\
    pgtype pj = PAGE_BUDDYALLOCATOR /\ pgtype pi = PAGE_BUDDYALLOCATOR).
  { destruct Hfr as (pf & Hpf & Hff & Hof). destruct (allocated_head P k o Hal Ho) as (pk & Hpk & Hhk & Hok & _ & Htk).
    pose proof (free_type n X P f pf B Hpf Hff) as Htf.
    assert (Hhf : is_head pf).
    { destruct (shape_kind _ _ _ _ _ B Hpf) as [? | [? | [? _]]]; [lia | done | lia]. }
    destruct Hkf as [[-> ->] | [-> ->]]; simplify_eq; auto 10. }
  destruct Hhj as (Hhj & Eoj' & Hhi & Eoi & Htj & Hti).
  assert (Hbody : buddy_flags pi' = 4) by apply Hbi.
  destruct (pools_del g n b Ext P h O L I Hdom Hsep o f Ho Hfr) as (h' & l1 & l2 & El & E & Hp).
  exists h', l1, l2. split; [done |]. split; [done |]. split.
  - split.
    + apply (blocks_merge n X P j (j + 2 ^ o) o pj pi); try done. by split; [rewrite Eoj | left].
    + apply Hp. intros o' x Ho'. rewrite !free_at_update.
      assert (Hnk : ~ free_at P o' k).
      { intros (p & Hpk & F & _). destruct Hal as (p' & Hpk' & F' & _). simplify_eq. lia. }
      assert (Hnf : forall o', free_at P o' f -> o' = o).
      { intros o2 (p & Hpf & _ & <-). destruct Hfr as (p' & Hpf' & _ & <-). by simplify_eq. }
      destruct Hkf as [[-> ->] | [-> ->]]; split; intros Hx.
      * destruct Hx as [(_ & ? & _) | [Hxj [(_ & ? & _) | [Hxi Hx]]]]; [lia | lia | done].
      * destruct Hx as [Hxj Hx]. right. split; [done |]. right. split; [by intros -> | done].
      * destruct Hx as [(_ & ? & _) | [Hxj [(_ & ? & _) | [Hxi Hx]]]]; [lia | lia | done].
      * destruct Hx as [Hxi Hx]. right. split; [by intros -> |]. by right.
    + apply (foreign_update Ext b _ j pj); [apply (foreign_update Ext b P (j + 2 ^ o) pi); [done | done | congruence] | | congruence].
      by rewrite lookup_insert_ne by lia.
  - exists pj'. rewrite lookup_insert_eq. auto.
  - intros x p Hk. rewrite !lookup_insert_Some. unfold kept in Hk.
    destruct Hal as (pa & Hpa & Fa & _). destruct Hfr as (pf & Hpf & Ff & _).
    assert (Hfx : P !! x = Some p -> x <> f) by (intros Hx ->; simplify_eq; lia).
    destruct Hkf as [[-> ->] | [-> ->]]; split; intros [Hx1 Hx2].
    + split; [by apply Hfx |]. right. split; [by apply not_eq_sym, Hfx |]. right. auto.
    + destruct Hx2 as [[<- _] | [_ [[_ <-] | [Hxi Hx]]]]; [done | lia | auto].
    + split; [done |]. right. split; [done |]. right. split; [by apply not_eq_sym, Hfx | done].
    + destruct Hx2 as [[<- _] | [_ [[_ <-] | [Hxi Hx]]]]; [done | lia | auto].
  - rewrite Z.pow_add_r by (apply Ho || lia). destruct Hkf as [[-> _] | [-> _]]; lia.
  - rewrite free_pages_upd, El, !length_app by done. simpl. lia.
Qed.

(** The entry of a pool after its count went down and its lock was given back. *)
Lemma pool_after_del P h O L o l1 x l2 :
  buddy_inv g n b Ext X P h O L -> order_ok o -> L o = l1 ++ x :: l2 ->
  <[o := with_pool_lk 1 (with_rest (s32 (Z.of_nat (length (L o)) + -1))
          (mk_mempool 0 (Z.of_nat (length (L o))) (4096 * 2 ^ o)))]> O
  = <[o := mk_mempool 1 (Z.of_nat (length (l1 ++ l2))) (4096 * 2 ^ o)]> O.
Proof using G Hsep.
  intros [B I FO] Ho El.
  pose proof (pool_length g n b Ext P h O L I (fun i p => page_range _ _ _ _ _ B) Hsep o Ho) as Hl.
  pose proof (geo_nums km G). specialize (Hl ltac:(lia)).
  rewrite s32_small by lia. unfold with_rest, with_pool_lk. simpl. do 2 f_equal.
  rewrite El, !length_app. simpl. lia.
Qed.

(** Insertions at two keys, in any order and number. *)
Ltac map_ext :=
  apply map_eq; intros ?x;
  repeat match goal with
  | |- context [<[?k := _]> _ !! ?x] =>
    destruct (decide (x = k)) as [-> |];
      [rewrite ?lookup_insert_eq | rewrite ?(lookup_insert_ne _ k x) by done]
  end; lookups.

(** Descriptors given by their fields. *)
Ltac page_eq :=
  unfold with_lk, with_flags, with_order, with_type; cbn; do 2 f_equal; try done.

Lemma merge_before_Ok P h O L i o p :
  buddy_inv g n b Ext X P h O L -> order_ok o -> order_ok (o + 1) -> allocated P i o -> P !! i = Some p ->
  let s := St b (<[i := with_lk 0 p]> P) h
             (<[o := mk_mempool 0 (Z.of_nat (length (L o))) (4096 * 2 ^ o)]> O) m in
  (exists j P' h' O' L', merge_before km o i s = Ok (Some j, St b P' h' O' m) /\
     merged P h O L i o j P' h' O' L') \/
  (merge_before km o i s = Ok (None, s) /\ ~ free_at P o (i - 2 ^ o)).
Proof using All.
  intros Inv Ho Ho1 Hal Hp s. pose proof Inv as [B I FO].
  pose proof (page_range _ _ _ _ _ B Hp) as Hi. pose proof (pow_order o Ho) as Hpw.
  pose proof (blk_lk _ _ _ B i p Hp) as Hlp.
  pose proof (before_page km G i o Hi Ho) as Hb. unfold merge_before.
  destruct (va_valid km _) eqn:Ev.
  - destruct Hb as [Hji ->]. set (j := i - 2 ^ o) in *.
    assert (Hj : is_Some (P !! j)) by (apply (blk_dom _ _ _ B); lia). destruct Hj as [q Hq].
    pose proof (blk_lk _ _ _ B j q Hq) as Hlq.
    bstep lock_pgfm_Ok. bstep get_page_Ok.
    change (mergeable (with_lk 0 q) o) with (mergeable q o).
    rewrite (mergeable_spec q o) by (by eapply shape_kind).
    case_bool_decide as Hm.
    + left. destruct Hm as [Hfq Hoq].
      assert (Hfr : free_at P o j) by (by exists q).
      destruct (merge_state P h O L i j i j o q p
        (mk_pageframe 1 PAGE_BUDDYALLOCATOR 2 (o + 1) (ref_count q) (vma_flags q))
        (mk_pageframe 1 (pgtype p) 4 MAX_ORDER (ref_count p) (vma_flags p)))
        as (h' & l1 & l2 & El & E & Hmrg); try done; [lia | by left | |].
      { destruct Hal as (p' & Hp' & _ & _ & Ht). split; [done |]. split; [done |]. simpl. congruence. }
      assert (Htq : pgtype q = PAGE_BUDDYALLOCATOR) by (by eapply free_type).
      exists j, (<[j := mk_pageframe 1 PAGE_BUDDYALLOCATOR 2 (o + 1) (ref_count q) (vma_flags q)]>
        (<[i := mk_pageframe 1 (pgtype p) 4 MAX_ORDER (ref_count p) (vma_flags p)]> P)).
      do 3 eexists. split; [| exact Hmrg].
      bstep unlink_page_Ok.
      do 2 bstep set_page_Ok. do 2 bstep set_page_Ok.
      do 2 bstep unlock_pgfm_Ok. bstep unlock_pool_Ok.
      unfold ret. do 2 f_equal. apply St_eq.
      * map_ext; page_eq; by rewrite ?Hoq, u8_order.
      * rewrite !insert_insert_eq. by eapply pool_after_del.
    + right. bstep unlock_pgfm_Ok. split.
      * unfold ret, s. do 2 f_equal. apply St_eq; [| done]. rewrite insert_insert_eq, with_lk_id by done.
        by rewrite insert_id by lookups.
      * intros (q' & Hq' & Hf & Hor). apply Hm. by simplify_eq.
  - right. split; [done |]. intros (q & Hq & _). apply (page_range _ _ _ _ _ B) in Hq. lia.
Qed.

Lemma merge_after_Ok P h O L i o p :
  buddy_inv g n b Ext X P h O L -> order_ok o -> order_ok (o + 1) -> allocated P i o -> P !! i = Some p ->
  let s := St b (<[i := with_lk 0 p]> P) h
             (<[o := mk_mempool 0 (Z.of_nat (length (L o))) (4096 * 2 ^ o)]> O) m in
  (exists P' h' O' L', merge_after km o i s = Ok (true, St b P' h' O' m) /\
     merged P h O L i o i P' h' O' L') \/
  (merge_after km o i s = Ok (false, s) /\ ~ free_at P o (i + 2 ^ o)).
Proof using All.
  intros Inv Ho Ho1 Hal Hp s. pose proof Inv as [B I FO].
  pose proof (page_range _ _ _ _ _ B Hp) as Hi. pose proof (pow_order o Ho) as Hpw.
  pose proof (blk_lk _ _ _ B i p Hp) as Hlp.
  pose proof (after_page km G i o Hi Ho) as Hb. unfold merge_after.
  destruct (va_valid km _) eqn:Ev.
  - destruct Hb as [Hji ->]. set (j := i + 2 ^ o) in *.
    assert (Hj : is_Some (P !! j)) by (apply (blk_dom _ _ _ B); lia). destruct Hj as [q Hq].
    pose proof (blk_lk _ _ _ B j q Hq) as Hlq.
    bstep lock_pgfm_Ok. bstep get_page_Ok.
    change (mergeable (with_lk 0 q) o) with (mergeable q o).
    rewrite (mergeable_spec q o) by (by eapply shape_kind).
    case_bool_decide as Hm.
    + left. destruct Hm as [Hfq Hoq].
      assert (Hfr : free_at P o j) by (by exists q).
      destruct (allocated_head P i o Hal Ho) as (p' & Hp' & _ & Hop & _ & Htp).
      assert (p' = p) as -> by congruence. clear Hp'.
      assert (Htq : pgtype q = PAGE_BUDDYALLOCATOR) by (by eapply free_type).
      destruct (merge_state P h O L j i i j o p q
        (mk_pageframe 1 (pgtype p) 2 (o + 1) (ref_count p) (vma_flags p))
        (mk_pageframe 1 (pgtype q) 4 MAX_ORDER (ref_count q) (vma_flags q)))
        as (h' & l1 & l2 & El & E & Hmrg); try done; [by right |].
      exists (<[i := mk_pageframe 1 (pgtype p) 2 (o + 1) (ref_count p) (vma_flags p)]>
        (<[j := mk_pageframe 1 (pgtype q) 4 MAX_ORDER (ref_count q) (vma_flags q)]> P)).
      do 3 eexists. split; [| exact Hmrg].
      bstep unlink_page_Ok.
      do 2 bstep set_page_Ok. do 2 bstep set_page_Ok.
      do 2 bstep unlock_pgfm_Ok. bstep unlock_pool_Ok.
      unfold ret. do 2 f_equal. apply St_eq.
      * map_ext; page_eq; by rewrite ?Hop, u8_order.
      * rewrite !insert_insert_eq. by eapply pool_after_del.
    + right. bstep unlock_pgfm_Ok. split.
      * unfold ret, s. do 2 f_equal. apply St_eq; [| done]. rewrite insert_insert_eq, with_lk_id by done.
        by rewrite insert_id by lookups.
      * intros (q' & Hq' & Hf & Hor). apply Hm. by simplify_eq.
  - right. split; [done |]. intros (q & Hq & _). apply (page_range _ _ _ _ _ B) in Hq. lia.
Qed.

(** The loop ends with an allocated block that has no free neighbour of its
    order, or has the largest order. *)
Lemma merge_loop_Ok fuel : forall P h O L i o,
  buddy_inv g n b Ext X P h O L -> order_ok o -> allocated P i o -> MAX_ORDER - o <= Z.of_nat fuel ->
  exists P' h' O' L' i' o', merge_loop km fuel o i (St b P h O m) = Ok ((i', o'), St b P' h' O' m) /\
    buddy_inv g n b Ext X P' h' O' L' /\ order_ok o' /\ allocated P' i' o' /\ moves i i' P P' /\
    (i' <= i /\ i + 2 ^ o <= i' + 2 ^ o') /\
    free_pages L' + 2 ^ o' = free_pages L + 2 ^ o /\
    (o' = MAX_ORDER - 1 \/ ~ free_at P' o' (i' - 2 ^ o') /\ ~ free_at P' o' (i' + 2 ^ o')).
Proof using All.
  induction fuel as [|fuel IH]; intros P h O L i o Inv Ho Hal Hfu; [destruct Ho; lia |].
  cbn [merge_loop]. pose proof Inv as [B I FO].
  destruct (Z.ltb_spec o (MAX_ORDER - 1)) as [Hlt | Hge].
  - assert (Ho1 : order_ok (o + 1)) by (destruct Ho; split; lia).
    destruct (allocated_head P i o Hal Ho) as (p & Hp & _ & Hop & Hfp & Htp).
    pose proof (blk_lk _ _ _ B i p Hp) as Hlp.
    pose proof (pool_entry _ _ _ _ _ _ _ _ I o Ho) as Hpo.
    bstep lock_pool_Ok. bstep lock_pgfm_Ok. bstep get_page_Ok.
    erewrite bind_Ok; [| apply ASSERT_Ok; simpl; rewrite Htp, Hop, Hfp, Z.eqb_refl; done].
    unfold with_pool_lk. cbn [rest_block_num block_size].
    destruct (merge_before_Ok P h O L i o p Inv Ho Ho1 Hal Hp) as [(j & P1 & h1 & O1 & L1 & E & [I1 A1 M1 S1 F1]) | [E Hnb]].
    + mstep E. destruct (IH P1 h1 O1 L1 j (o + 1) I1 Ho1 A1) as (P' & h' & O' & L' & i' & o' & E' & I' & Ho' & A' & M' & S' & F' & C');
        [lia |].
      exists P', h', O', L', i', o'. split; [exact E' |]. do 3 (split; [done |]).
      split; [by eapply moves_trans |]. split; [lia |]. split; [| done]. rewrite F', F1, Z.pow_add_r by (apply Ho || lia). lia.
    + mstep E. clear E.
      destruct (merge_after_Ok P h O L i o p Inv Ho Ho1 Hal Hp) as [(P1 & h1 & O1 & L1 & E & [I1 A1 M1 S1 F1]) | [E Hna]].
      * mstep E. destruct (IH P1 h1 O1 L1 i (o + 1) I1 Ho1 A1) as (P' & h' & O' & L' & i' & o' & E' & I' & Ho' & A' & M' & S' & F' & C');
          [lia |].
        exists P', h', O', L', i', o'. split; [exact E' |]. do 3 (split; [done |]).
        split; [by eapply moves_trans |]. split; [lia |]. split; [| done]. rewrite F', F1, Z.pow_add_r by (apply Ho || lia). lia.
      * mstep E. bstep unlock_pgfm_Ok. bstep unlock_pool_Ok.
        exists P, h, O, L, i, o. split; [| do 4 (split; [done |]); split; [lia | auto]].
        unfold ret. do 2 f_equal. apply St_eq.
        -- rewrite insert_insert_eq, with_lk_id by done. by apply insert_id.
        -- rewrite insert_insert_eq. by apply insert_id.
  - exists P, h, O, L, i, o. split; [done |]. do 4 (split; [done |]). split; [lia |].
    split; [done |]. left. destruct Ho. lia.
Qed.

(** Marking the allocated block [j] free and putting it into its pool. *)
Lemma give_back P h O L j o q :
  buddy_inv g n b Ext X P h O L -> order_ok o -> P !! j = Some q -> buddy_flags q = 2 ->
  buddy_order q = o -> pgtype q = PAGE_BUDDYALLOCATOR ->
  let P' := <[j := with_flags 3 q]> P in
  exists h', list_add_tail (buddy_node b j) (pool_list g o) h = Ok (tt, h') /\
    buddy_inv g n b Ext X P' h' (<[o := mk_mempool 1 (Z.of_nat (length (L o)) + 1) (4096 * 2 ^ o)]> O)
      (upd L o (L o ++ [j])) /\
    free_pages (upd L o (L o ++ [j])) = free_pages L + 2 ^ o /\
    (forall k x, kept x -> k <> j /\ P !! k = Some x <-> P' !! k = Some x) /\
    free_at P' o j /\ (forall k, k <> j -> free_at P' o k <-> free_at P o k).
Proof using All.
  intros [B I FO] Ho Hq Hfq Hoq Htq P'. pose proof (page_range _ _ _ _ _ B Hq) as Hj.
  assert (Hnf : forall o', order_ok o' -> ~ free_at P o' j).
  { intros o' _ (q' & Hq' & F & _). simplify_eq. lia. }
  destruct (pools_add g n b Ext P h O L I (fun i p => page_range _ _ _ _ _ B) Hsep o j Ho Hj Hnf (FO j q Hq ltac:(congruence)))
    as (h' & Eh & Hpa).
  exists h'. split; [done |]. split; [split |].
  - apply (blocks_head n X P j q); try done.
    + split; [by rewrite Hoq | by left].
    + by apply (blk_lk _ _ _ B j q).
    + split; [simpl; by rewrite Hoq | by right].
  - apply Hpa. intros o' i _. unfold P'. rewrite free_at_update. simpl. split.
    + intros [(-> & _ & <-) | [_ H]]; [by left; rewrite <- Hoq | by right].
    + intros [[-> ->] | H]; [by left |]. right. split; [| done].
      intros ->. destruct H as (q' & Hq' & F & _). simplify_eq. lia.
  - apply (foreign_update Ext b P j q); [done | done | congruence].
  - split; [rewrite free_pages_upd, length_app by done; simpl; lia |]. split.
    + intros k x Hk. unfold P'. rewrite lookup_insert_Some. unfold kept in Hk. split.
      * intros [Hkj Hx]. right. auto.
      * intros [[_ <-] | [Hne Hx]]; [simpl in Hk; lia | auto].
    + split; [exists (with_flags 3 q); unfold P'; rewrite lookup_insert_eq; auto |].
      intros k Hk. unfold P'. rewrite free_at_update. tauto.
Qed.

Lemma bkp_free_Ok P h O L i o :
  buddy_inv g n b Ext X P h O L -> order_ok o -> allocated P i o ->
  exists P' h' O' L' i' o', bkp_free km g (Some i) (St b P h O m) = Ok (tt, St b P' h' O' m) /\
    buddy_inv g n b Ext X P' h' O' L' /\
    (forall j p, kept p -> j <> i /\ P !! j = Some p <-> P' !! j = Some p) /\
    free_pages L' = free_pages L + 2 ^ o /\
    order_ok o' /\ free_at P' o' i' /\ i' <= i /\ i + 2 ^ o <= i' + 2 ^ o' /\
    (o' = MAX_ORDER - 1 \/ ~ free_at P' o' (i' - 2 ^ o') /\ ~ free_at P' o' (i' + 2 ^ o')).
Proof using All.
  intros Inv Ho Hal. pose proof Inv as [B I FO].
  destruct (allocated_head P i o Hal Ho) as (p & Hp & Hh & Hop & Hfp & Htp).
  pose proof (page_range _ _ _ _ _ B Hp) as Hi. pose proof (blk_lk _ _ _ B i p Hp) as Hlp.
  pose proof (geo_nums km G) as Hn.
  unfold bkp_free.
  erewrite bind_Ok; [| apply ASSERT_Ok, (id_valid_spec km G); lia].
  bstep lock_pgfm_Ok. bstep get_page_Ok.
  erewrite bind_Ok; [| apply ASSERT_Ok; unfold buddy_pgfm_freeable; simpl; rewrite Htp, Hfp, Hop;
    destruct Ho; rewrite (proj2 (Z.leb_le 0 o)), (proj2 (Z.ltb_lt o _)) by done; done].
  bstep unlock_pgfm_Ok. rewrite insert_insert_eq, with_lk_id, insert_id by done.
  change (buddy_order (with_lk 0 p)) with (buddy_order p). rewrite Hop.
  destruct (merge_loop_Ok merge_fuel P h O L i o Inv Ho Hal) as
    (P1 & h1 & O1 & L1 & j & o1 & E & [B1 I1 FO1] & Ho1 & A1 & M1 & S1 & F1 & C1); [by apply merge_fuel_enough |].
  mstep E.
  destruct (allocated_head P1 j o1 A1 Ho1) as (q & Hq & Hhq & Hoq & Hfq & Htq).
  pose proof (page_range _ _ _ _ _ B1 Hq) as Hj. pose proof (blk_lk _ _ _ B1 j q Hq) as Hlq.
  pose proof (pool_entry _ _ _ _ _ _ _ _ I1 o1 Ho1) as Hpo.
  destruct (give_back P1 h1 O1 L1 j o1 q (Build_buddy_inv _ _ _ _ _ _ _ _ _ B1 I1 FO1) Ho1 Hq Hfq Hoq Htq)
    as (h2 & Eh & Inv2 & F2 & K2 & Fr2 & Ne2).
  bstep lock_pool_Ok. bstep lock_pgfm_Ok. bstep set_page_Ok. bstep get_page_Ok.
  erewrite bind_Ok; [| apply ASSERT_Ok; simpl; rewrite Htq, Hfq; vm_compute; done].
  rewrite (bind_Ok _ _ _ _ _ (get_base_Ok _ _ _ _ _)).
  rewrite (bind_Ok _ _ _ _ _ (on_nodes_Ok _ _ _ _ _ _ _ _ Eh)).
  bstep add_rest_Ok. bstep unlock_pgfm_Ok. bstep unlock_pool_Ok.
  do 4 eexists. exists j, o1. split; [| split; [exact Inv2 |]].
  - do 2 f_equal. apply St_eq.
    + map_ext. unfold with_lk, with_flags. simpl. rewrite Hfq. by destruct q; simpl in *; subst.
    + rewrite !insert_insert_eq. unfold with_pool_lk, with_rest. simpl.
      pose proof (pool_length g n b Ext P1 h1 O1 L1 I1 (fun i p => page_range _ _ _ _ _ B1) Hsep o1 Ho1).
      by rewrite s32_small by lia.
  - split; [intros k x Hk; rewrite <- K2 by done; by apply M1 |].
    split; [lia |]. split; [done |]. split; [done |]. do 2 (split; [lia |]).
    pose proof (pow_order o1 Ho1). rewrite !Ne2 by lia. done.
Qed.
End freeing.

(** ** Allocating *)

Definition none (i : Z) : Prop := False.
Definition region (lo hi : Z) (i : Z) : Prop := lo <= i < hi.

Lemma blocks_ext n (X X' : Z -> Prop) P :
  (forall i, X i <-> X' i) -> blocks n X P -> blocks n X' P.
Proof.
  intros HX [Bd Bl Bs Bo]. split; [done | done | | by intros i Hi; apply Bo, HX].
  intros i p Hp. rewrite <- HX. by apply Bs.
Qed.

Lemma pools_ext g n b Ext P P' h O L :
  (forall o i, order_ok o -> free_at P' o i <-> free_at P o i) ->
  pools_inv g n b Ext P h O L -> pools_inv g n b Ext P' h O L.
Proof.
  intros HP [He Hr Hn Hf]. split; [done | done | done |]. intros o i Ho.
  fold (free_at P' o i). rewrite HP by done. by apply Hf.
Qed.

(** The head at [x] keeps the first [2 ^ o] pages of its block. *)
Lemma blocks_shrink n P x p p' k o :
  blocks n none P -> P !! x = Some p -> is_head p -> buddy_order p = k -> 0 <= o <= k ->
  page_lk p' = 1 -> is_head p' -> buddy_order p' = o ->
  blocks n (region (x + 2 ^ o) (x + 2 ^ k)) (<[x := p']> P).
Proof.
  intros B Hp Hh Ek Hok Hl Hh' Eo. pose proof B as [Bd Bl Bs _].
  pose proof (Z.pow_le_mono_r 2 o k ltac:(lia) ltac:(lia)) as Hpw.
  pose proof (Z.pow_pos_nonneg 2 o ltac:(lia) ltac:(lia)) as Hpo.
  pose proof (head_tail _ _ _ _ _ B Hp Hh) as Hxt. rewrite Ek in Hxt.
  assert (Hupd : forall y oy, tail_of P y oy -> tail_of (<[x := p']> P) y oy).
  { intros y oy. apply tail_update. exists p. split; [done |]. right. intros Hb. by apply (kinds_disjoint p). }
  split.
  - intros y. rewrite <- Bd. destruct (decide (y = x)) as [-> |]; [lookups; rewrite Hp; split; eauto |].
    by rewrite lookup_insert_ne.
  - intros y q. rewrite lookup_insert_Some. intros [[_ <-] | [_ Hy]]; [done | by eapply Bl].
  - intros y q. rewrite lookup_insert_Some. intros [[<- <-] | [Hne Hy]].
    + right. left. split; [done |]. apply Hupd. rewrite Eo. intros j Hj. apply Hxt. lia.
    + destruct (Bs y q Hy) as [F | [[Hhq Ht] | [Hb [(j & r & Hj & Hr & Hjy) | []]]]];
        [by left | right; left; auto | right; right; split; [done |]].
      destruct (decide (j = x)) as [-> |].
      * assert (r = p) as -> by congruence. rewrite Ek in Hjy.
        destruct (decide (y < x + 2 ^ o)); [left; exists x, p'; rewrite lookup_insert_eq, Eo; auto with lia |].
        right. unfold region. lia.
      * left. exists j, r. by rewrite lookup_insert_ne.
  - intros y Hy. unfold region in Hy. split.
    + destruct (Hxt y ltac:(lia)) as (q & Hq & Hbq). exists q. rewrite lookup_insert_ne by lia. done.
    + intros (j & r & Hj & Hr & Hjy). apply lookup_insert_Some in Hj as [[<- <-] | [Hne Hj]];
        [rewrite Eo in Hjy; lia |].
      (* two heads cannot cover the same page *)
      destruct (Z.lt_trichotomy j x) as [Hlt | [-> | Hgt]]; [| done |].
      * destruct (head_tail _ _ _ _ _ B Hj Hr x ltac:(lia)) as (q & Hq & Hbq).
        assert (q = p) as -> by congruence. by apply (kinds_disjoint p).
      * destruct (Hxt j ltac:(lia)) as (q & Hq & Hbq).
        assert (q = r) as -> by congruence. by apply (kinds_disjoint r).
Qed.

(** An orphan becomes the head of the orphans behind it. *)
Lemma blocks_carve n P r e p p' i :
  blocks n (region r e) P -> 0 <= i -> r + 2 ^ i <= e -> P !! r = Some p ->
  page_lk p' = 1 -> is_head p' -> buddy_order p' = i ->
  blocks n (region (r + 2 ^ i) e) (<[r := p']> P).
Proof.
  intros B Hi He Hp Hl Hh' Ei. pose proof B as [Bd Bl Bs Bo].
  pose proof (Z.pow_pos_nonneg 2 i ltac:(lia) ltac:(lia)) as Hpo.
  destruct (Bo r ltac:(unfold region; lia)) as [_ Hnr].
  assert (Hupd : forall y oy, (exists q, P !! y = Some q /\ is_head q /\ buddy_order q = oy) ->
    tail_of P y oy -> tail_of (<[r := p']> P) y oy).
  { intros y oy (q & Hq & Hhq & <-) Ht j Hj. destruct (decide (j = r)) as [-> |].
    - destruct Hnr. by exists y, q.
    - rewrite lookup_insert_ne by done. by apply Ht. }
  split.
  - intros y. rewrite <- Bd. destruct (decide (y = r)) as [-> |]; [lookups; rewrite Hp; split; eauto |].
    by rewrite lookup_insert_ne.
  - intros y q. rewrite lookup_insert_Some. intros [[_ <-] | [_ Hy]]; [done | by eapply Bl].
  - intros y q. rewrite lookup_insert_Some. intros [[<- <-] | [Hne Hy]].
    + right. left. split; [done |]. rewrite Ei. intros j Hj.
      destruct (Bo j ltac:(unfold region; lia)) as [(q & Hq & Hb) _]. exists q. by rewrite lookup_insert_ne by lia.
    + destruct (Bs y q Hy) as [F | [[Hhq Ht] | [Hb Hown]]];
        [by left | right; left; split; [done |]; apply Hupd; eauto | right; right; split; [done |]].
      destruct Hown as [(j & s & Hj & Hs & Hjy) | HX].
      * left. exists j, s. rewrite lookup_insert_ne; [done |]. intros E. rewrite <- E in Hj.
        destruct (Bo r ltac:(unfold region; lia)) as [(q' & Hq' & Hb') _].
        assert (q' = s) as -> by congruence. by apply (kinds_disjoint s).
      * unfold region in *. destruct (decide (y < r + 2 ^ i)); [left | right; lia].
        exists r, p'. rewrite lookup_insert_eq, Ei. auto with lia.
  - intros y Hy. unfold region in Hy. destruct (Bo y ltac:(unfold region; lia)) as [(q & Hq & Hb) Hno]. split.
    + exists q. by rewrite lookup_insert_ne by lia.
    + intros (j & s & Hj & Hs & Hjy). apply lookup_insert_Some in Hj as [[<- <-] | [Hne Hj]];
        [rewrite Ei in Hjy; lia |].
      apply Hno. by exists j, s.
Qed.

Lemma land_bit c i : 0 <= i -> 0 <= c < 2 ^ (i + 1) ->
  (Z.land c (Z.shiftl 1 i) =? 0) = (c <? 2 ^ i).
Proof.
  intros Hi Hc. rewrite Z.shiftl_mul_pow2, Z.mul_1_l by done.
  pose proof (Z.pow_pos_nonneg 2 i ltac:(lia) Hi) as Hp. rewrite Z.pow_add_r in Hc by lia.
  assert (Hl : Z.land c (2 ^ i) = if Z.testbit c i then 2 ^ i else 0).
  { apply Z.bits_inj'. intros j Hj. rewrite Z.land_spec, Z.pow2_bits_eqb by done.
    destruct (Z.eqb_spec i j) as [<- | Hne].
    - rewrite andb_true_r. destruct (Z.testbit c i) eqn:E; [by rewrite Z.pow2_bits_eqb, Z.eqb_refl | by rewrite Z.bits_0].
    - rewrite andb_false_r. destruct (Z.testbit c i); [| by rewrite Z.bits_0].
      by rewrite Z.pow2_bits_eqb, (proj2 (Z.eqb_neq _ _) Hne). }
  rewrite Hl, Z.testbit_eqb by done. destruct (Z.ltb_spec c (2 ^ i)) as [Hlt | Hge].
  - by rewrite (Z.div_small c) by lia.
  - replace (c / 2 ^ i) with 1 by (apply (Z.div_unique c _ 1 (c - 2 ^ i)); lia).
    simpl. lia.
Qed.

Section allocating.
Context (km : kernel_mapping) (g b : Z) (Ext : gmap Z (list Z)) (m : Z -> Z) (G : geometry km).
Notation n := (PGFRAME_PAGE_NUMS km).
Context (Hsep : forall o i, order_ok o -> 0 <= i < n -> pool_list g o <> buddy_node b i).

(** One round of the split loop frees the block of [2 ^ i] pages at [r]. *)
Lemma split_rest_Ok P h O L r c i :
  buddy_inv g n b Ext (region r (r + c)) P h O L -> order_ok i -> 2 ^ i <= c < 2 ^ (i + 1) ->
  exists P' h' O' L',
    split_rest km g (r, c) i (St b P h O m) = Ok (Next (r + 2 ^ i, c - 2 ^ i), St b P' h' O' m) /\
    buddy_inv g n b Ext (region (r + 2 ^ i) (r + c)) P' h' O' L' /\ free_pages L' = free_pages L + 2 ^ i /\
    (forall j p, kept p -> P !! j = Some p <-> P' !! j = Some p).
Proof using All.
  intros [B I FO] Hio Hc. pose proof (pow_order i Hio) as Hpi.
  destruct (blk_orphans _ _ _ B r ltac:(unfold region; lia)) as [(p & Hp & Hfp & Hop & Htp) _].
  pose proof (blk_lk _ _ _ B r p Hp) as Hlp. unfold split_rest.
  rewrite (proj2 (Z.eqb_neq c 0)), land_bit, (proj2 (Z.ltb_ge c (2 ^ i))) by (destruct Hio; lia).
  cbn [negb]. bstep lock_pgfm_Ok. bstep get_page_Ok.
  erewrite bind_Ok; [| apply ASSERT_Ok; simpl; by rewrite Hfp].
  erewrite bind_Ok; [| apply ASSERT_Ok; simpl; by rewrite Hop].
  bstep set_page_Ok. bstep set_page_Ok. bstep unlock_pgfm_Ok. rewrite !insert_insert_eq.
  set (p' := with_lk 1 _).
  assert (B1 : blocks n (region (r + 2 ^ i) (r + c)) (<[r := p']> P)).
  { apply (blocks_carve n P r (r + c) p p' i); try done; [apply Hio | lia |]. split; [done | by left]. }
  assert (I1 : pools_inv g n b Ext (<[r := p']> P) h O L).
  { eapply pools_ext; [| exact I]. intros o j _. rewrite free_at_update. simpl. split.
    - intros [(_ & F & _) | [_ H]]; [by vm_compute in F | done].
    - intros H. right. split; [| done]. intros ->. destruct H as (q & Hq & F & _).
      assert (q = p) by congruence. subst q. lia. }
  destruct (bkp_free_Ok km g b Ext m (region (r + 2 ^ i) (r + c)) G Hsep (<[r := p']> P) h O L r i) as
    (P1 & h1 & O1 & L1 & i1 & o1 & E & Inv1 & K1 & F1 & _); [split; [done | done | apply (foreign_update Ext b P r p); [done | done | congruence]] | done | |].
  { exists p'. by rewrite lookup_insert_eq. }
  mstep E. exists P1, h1, O1, L1. split; [| split; [done | split; [done |]]].
  - rewrite Z.shiftl_mul_pow2, Z.mul_1_l, s32_small; [done | | apply Hio].
    rewrite Z.pow_add_r in Hc by (destruct Hio; lia). lia.
  - intros j q Hk. rewrite <- K1, lookup_insert_Some by done. split.
    + intros Hj. assert (j <> r); [| auto]. intros ->. assert (q = p) by congruence. subst q.
      destruct Hk; lia.
    + intros [Hjr [[<- _] | [_ Hj]]]; done.
Qed.

(** The pages cut off a larger block go back as free blocks. *)
Lemma split_loop_Ok N : forall P h O L r c,
  buddy_inv g n b Ext (region r (r + c)) P h O L -> 0 <= c < 2 ^ Z.of_nat N -> Z.of_nat N <= MAX_ORDER ->
  exists P' h' O' L' res,
    for_down N (split_rest km g) (r, c) (St b P h O m) = Ok (res, St b P' h' O' m) /\
    buddy_inv g n b Ext none P' h' O' L' /\ free_pages L' = free_pages L + c /\
    (forall j p, kept p -> P !! j = Some p <-> P' !! j = Some p).
Proof using All.
  induction N as [|N IH]; intros P h O L r c Inv Hc HN.
  { assert (c = 0) as -> by (simpl in Hc; lia). exists P, h, O, L, (Next (r, 0)).
    split; [done |]. split; [| split; [lia | done]]. destruct Inv as [B I FO]. split; [| done | done].
    eapply blocks_ext; [| exact B]. intros i. unfold region, none. lia. }
  cbn [for_down]. set (i := Z.of_nat N) in *. assert (Hio : order_ok i) by (unfold order_ok; lia).
  replace (Z.of_nat (S N)) with (i + 1) in * by lia.
  destruct (Z.eqb_spec c 0) as [-> | Hc0].
  { exists P, h, O, L, (Return tt). split; [done |]. split; [| split; [lia | done]].
    destruct Inv as [B I FO]. split; [| done | done].
    eapply blocks_ext; [| exact B]. intros j. unfold region, none. lia. }
  destruct (Z.ltb_spec c (2 ^ i)) as [Hlt | Hge].
  - assert (E : split_rest km g (r, c) i (St b P h O m) = Ok (Next (r, c), St b P h O m)).
    { unfold split_rest. by rewrite (proj2 (Z.eqb_neq c 0)), land_bit, (proj2 (Z.ltb_lt c (2 ^ i))) by lia. }
    mstep E. apply (IH P h O L r c Inv); lia.
  - destruct (split_rest_Ok P h O L r c i Inv Hio ltac:(lia)) as (P1 & h1 & O1 & L1 & E & I1 & F1 & K1).
    mstep E. replace (r + c) with (r + 2 ^ i + (c - 2 ^ i)) in I1 by lia.
    rewrite Z.pow_add_r in Hc by lia.
    destruct (IH P1 h1 O1 L1 (r + 2 ^ i) (c - 2 ^ i) I1) as (P2 & h2 & O2 & L2 & res & E2 & I2 & F2 & K2); [lia | lia |].
    exists P2, h2, O2, L2, res. split; [done |]. split; [done |]. split; [lia |].
    intros j p Hk. rewrite K1 by done. by apply K2.
Qed.

(** What a successful allocation of order [o] achieves: the block [x], cut from
    a free block. *)
Record alloc_post P L o x P' h' O' L' : Prop := {
  al_inv : buddy_inv g n b Ext none P' h' O' L';
  al_block : allocated P' x o;
  al_source : exists k, o <= k /\ order_ok k /\ free_at P k x;
  al_pages : free_pages L' = free_pages L - 2 ^ o;
  al_kept : forall j p, kept p -> P !! j = Some p <-> j <> x /\ P' !! j = Some p
}.

(** Taking the first block [x] of pool [k] as an allocated block of order [o]
    leaves the orphans to be freed. *)
Lemma take_state P h O L k o x p :
  buddy_inv g n b Ext none P h O L -> order_ok k -> order_ok o -> o <= k ->
  P !! x = Some p -> buddy_flags p = 3 -> buddy_order p = k ->
  let P' := <[x := with_order o (with_flags 2 p)]> P in
  exists h' l1 l2, L k = l1 ++ x :: l2 /\ list_del (buddy_node b x) h = Ok (tt, h') /\
    buddy_inv g n b Ext (region (x + 2 ^ o) (x + 2 ^ k)) P' h'
      (<[k := mk_mempool 1 (Z.of_nat (length (l1 ++ l2))) (4096 * 2 ^ k)]> O) (upd L k (l1 ++ l2)) /\
    free_pages (upd L k (l1 ++ l2)) = free_pages L - 2 ^ k /\
    allocated P' x o /\
    (forall j q, kept q -> P !! j = Some q <-> j <> x /\ P' !! j = Some q).
Proof using All.
  intros [B I FO] Hk Ho Hok Hp Hfp Hop P'.
  assert (Hfr : free_at P k x) by (by exists p).
  pose proof (free_type n none P x p B Hp Hfp) as Htp.
  destruct (pools_del g n b Ext P h O L I (fun i p => page_range _ _ _ _ _ B) Hsep k x Hk Hfr)
    as (h' & l1 & l2 & El & E & Hp').
  exists h', l1, l2. split; [done |]. split; [done |]. split; [split | split; [| split]].
  - apply (blocks_shrink n P x p _ k o); try done.
    + split; [by rewrite Hop | by right].
    + destruct Ho. lia.
    + by apply (blk_lk _ _ _ B x p).
    + split; [done | by left].
  - apply Hp'. intros o' i _. unfold P'. rewrite free_at_update. simpl. split.
    + intros [(_ & F & _) | H]; [done | done].
    + tauto.
  - apply (foreign_update Ext b P x p); [done | done | congruence].
  - rewrite free_pages_upd, El, !length_app by done. simpl. lia.
  - exists (with_order o (with_flags 2 p)). unfold P'. by rewrite lookup_insert_eq.
  - intros j q Hq. unfold P'. rewrite lookup_insert_Some. split.
    + intros Hj. assert (j <> x); [| auto]. intros ->. assert (q = p) by congruence. subst q.
      destruct Hq; lia.
    + intros [Hjx [[<- _] | [_ Hj]]]; done.
Qed.

(** A pool that has a block gives it. *)
Lemma alloc_hit P h O L fuel k o x l :
  buddy_inv g n b Ext none P h O L -> order_ok k -> order_ok o -> o <= k -> L k = x :: l ->
  exists P' h' O' L', alloc_loop km g (S fuel) k o (St b P h O m) = Ok (Some x, St b P' h' O' m) /\
    alloc_post P L o x P' h' O' L'.
Proof using All.
  intros Inv Hk Ho Hok El. pose proof Inv as [B I FO].
  assert (Hin : x ∈ L k) by (rewrite El; by left).
  apply (pool_free _ _ _ _ _ _ _ _ I k x Hk) in Hin as (p & Hp & Hfp & Hop).
  destruct (take_state P h O L k o x p Inv Hk Ho Hok Hp Hfp Hop)
    as (h1 & l1 & l2 & El1 & E1 & Inv1 & F1 & A1 & K1).
  pose proof (pool_entry _ _ _ _ _ _ _ _ I k Hk) as Hpo.
  pose proof (pool_length g n b Ext P h O L I (fun i p => page_range _ _ _ _ _ B) Hsep k Hk) as Hlen.
  pose proof (geo_nums km G) as Hn. pose proof (blk_lk _ _ _ B x p Hp) as Hlp.
  pose proof (page_range _ _ _ _ _ B Hp) as Hx.
  pose proof (pow_order k Hk). pose proof (pow_order o Ho).
  assert (Hfirst : list_first_entry (pool_list g k) h = Ok (buddy_node b x, h)).
  { unfold list_first_entry. rewrite (dlists_first _ _ _ _ (pool_rings _ _ _ _ _ _ _ _ I) (ring_at_pool g b Ext L k Hk)).
    by rewrite El. }
  cbn [alloc_loop]. rewrite (proj2 (Z.ltb_lt k MAX_ORDER)) by apply Hk.
  bstep lock_pool_Ok. bstep load_pool_Ok. cbn [with_pool_lk rest_block_num block_size].
  rewrite (proj2 (Z.eqb_neq (Z.of_nat (length (L k))) 0)) by (rewrite El; simpl; lia).
  bstep add_rest_Ok. rewrite (bind_Ok _ _ _ _ _ (on_nodes_Ok _ _ _ _ _ _ _ _ Hfirst)).
  rewrite (bind_Ok _ _ _ _ _ (get_base_Ok _ _ _ _ _)). rewrite buddy_node_entry.
  bstep lock_pgfm_Ok. rewrite (bind_Ok _ _ _ _ _ (on_nodes_Ok _ _ _ _ _ _ _ _ E1)).
  bstep get_page_Ok.
  erewrite bind_Ok; [| apply ASSERT_Ok; simpl; by rewrite Hfp].
  erewrite bind_Ok; [| apply ASSERT_Ok; simpl; by apply Z.eqb_eq].
  bstep set_page_Ok. bstep set_page_Ok. bstep unlock_pgfm_Ok. bstep unlock_pool_Ok.
  rewrite !insert_insert_eq, !ORDER2PGNUM_eq by apply Hk || apply Ho.
  rewrite (s32_small (2 ^ k - 2 ^ o)) by lia.
  replace (x + 2 ^ k) with (x + 2 ^ o + (2 ^ k - 2 ^ o)) in Inv1 by lia.
  pose proof (Z.pow_le_mono_r 2 o k ltac:(lia) Hok).
  destruct (split_loop_Ok (Z.to_nat MAX_ORDER) _ _ _ _ _ _ Inv1)
    as (P2 & h2 & O2 & L2 & res & E2 & Inv2 & F2 & K2); [change (2 ^ Z.of_nat _) with 64; lia | done |].
  erewrite (St_eq b _ (<[x := with_order o (with_flags 2 p)]> P) h1 _ _ m).
  - mstep E2. exists P2, h2, O2, L2. split; [done |]. split; [done | | exists k; split; [done | by split; [| exists p]] | lia |].
    + destruct A1 as (p1 & Hp1 & Hf1 & Ho1 & Ht1). exists p1. split; [| done]. apply K2; [by left | done].
    + intros j q Hq. rewrite (K1 j q Hq). by rewrite (K2 j q Hq).
  - do 2 f_equal. destruct p; simpl in *. by subst.
  - f_equal. unfold with_pool_lk, with_rest. simpl. rewrite s32_small by lia.
    f_equal. rewrite El1, !length_app. simpl. lia.
Qed.

Lemma alloc_loop_Ok P h O L o fuel : forall k,
  buddy_inv g n b Ext none P h O L -> order_ok o -> o <= k <= MAX_ORDER -> MAX_ORDER - k < Z.of_nat fuel ->
  (alloc_loop km g fuel k o (St b P h O m) = Ok (None, St b P h O m) /\
   forall k', k <= k' < MAX_ORDER -> L k' = []) \/
  (exists x P' h' O' L', alloc_loop km g fuel k o (St b P h O m) = Ok (Some x, St b P' h' O' m) /\
   alloc_post P L o x P' h' O' L').
Proof using All.
  induction fuel as [|fuel IH]; intros k Inv Ho Hk Hf; [lia |].
  destruct (decide (k = MAX_ORDER)) as [-> | Hne].
  { left. split; [done | lia]. }
  assert (Hko : order_ok k) by (destruct Ho; split; lia).
  destruct (L k) as [|x l] eqn:El.
  - pose proof (pool_entry _ _ _ _ _ _ _ _ (inv_pools _ _ _ _ _ _ _ _ _ Inv) k Hko) as Hpo.
    assert (Estep : alloc_loop km g (S fuel) k o (St b P h O m) = alloc_loop km g fuel (k + 1) o (St b P h O m)).
    { cbn [alloc_loop]. rewrite (proj2 (Z.ltb_lt k MAX_ORDER)) by apply Hko.
      bstep lock_pool_Ok. bstep load_pool_Ok. cbn [with_pool_lk rest_block_num]. rewrite El.
      cbn [length]. change (Z.of_nat 0) with 0. cbn [Z.eqb].
      bstep unlock_pool_Ok. f_equal. apply St_eq; [done |].
      rewrite insert_insert_eq. apply insert_id. rewrite Hpo, El. done. }
    rewrite Estep. destruct (IH (k + 1) Inv Ho ltac:(lia) ltac:(lia)) as [[E Hnil] | Hs]; [left | by right].
    split; [done |]. intros k' Hk'. destruct (decide (k' = k)) as [-> |]; [done | apply Hnil; lia].
  - right. exists x. eapply alloc_hit; try done. lia.
Qed.
End allocating.

(** ** Whole states *)

Definition base (s : buddy) : Z := pgframe_pages (frames_of s).
Definition pgs (s : buddy) : gmap Z pageframe := pages (frames_of s).
Definition nds (s : buddy) : heap := nodes (frames_of s).

(** The pages in free blocks, counted from the pools. *)
Definition rest_pages (s : buddy) : Z :=
  foldr (fun o t => (match order_pools s !! o with Some p => rest_block_num p | None => 0 end) * 2 ^ o + t)
    0 (seqZ 0 MAX_ORDER).

(** The global [g_buddy] and the array [PAGES] do not overlap. *)
Definition placed (km : kernel_mapping) (g : Z) (s : buddy) : Prop :=
  forall o i, order_ok o -> 0 <= i < PGFRAME_PAGE_NUMS km -> pool_list g o <> buddy_node (base s) i.

(** A consistent allocator with all locks free, beside the rings [Ext] of others. *)
Definition buddy_over (km : kernel_mapping) (g : Z) (Ext : gmap Z (list Z)) (s : buddy) : Prop :=
  geometry km /\ placed km g s /\
  exists L, buddy_inv g (PGFRAME_PAGE_NUMS km) (base s) Ext none (pgs s) (nds s) (order_pools s) L.
(** The same with no other ring in the list memory. *)
Definition buddy_wf (km : kernel_mapping) (g : Z) (s : buddy) : Prop := buddy_over km g ∅ s.

Lemma buddy_eta s : s = St (base s) (pgs s) (nds s) (order_pools s) (memory s).
Proof. by destruct s as [[? ? ?] ? ?]. Qed.

Lemma rest_pages_eq g n b Ext P h O L m :
  pools_inv g n b Ext P h O L -> rest_pages (St b P h O m) = free_pages L.
Proof.
  intros I. unfold rest_pages, free_pages. change (order_pools (St b P h O m)) with O.
  assert (Hs : forall o, o ∈ seqZ 0 MAX_ORDER -> order_ok o) by (intros o Ho; apply elem_of_seqZ in Ho; done).
  revert Hs. generalize (seqZ 0 MAX_ORDER). induction l as [|o l IH]; intros Hs; [done |]. cbn [foldr].
  rewrite IH by (intros o' Ho'; apply Hs; by right).
  rewrite (pool_entry _ _ _ _ _ _ _ _ I o (Hs o ltac:(by left))). done.
Qed.

(** The free blocks of an order are counted by its pool. *)
Definition pool_count (s : buddy) (o : Z) : Z :=
  match order_pools s !! o with Some p => rest_block_num p | None => 0 end.

(** What changes hands in an allocation: only the block [x] of order [o]. *)
Record hands_out (s s' : buddy) (x o : Z) : Prop := {
  ho_block : allocated (pgs s') x o;
  ho_source : exists k, o <= k /\ order_ok k /\ free_at (pgs s) k x;
  ho_kept : forall j p, kept p -> pgs s !! j = Some p <-> j <> x /\ pgs s' !! j = Some p;
  ho_pages : rest_pages s' = rest_pages s - 2 ^ o;
  ho_memory : memory s' = memory s;
  ho_base : base s' = base s
}.

Lemma bkp_alloc_cases km g Ext s o :
  buddy_over km g Ext s ->
  (bkp_alloc km g o s = Ok (None, s) /\
   (~ order_ok o \/ forall k, o <= k -> order_ok k -> pool_count s k = 0)) \/
  (order_ok o /\ exists x s', bkp_alloc km g o s = Ok (Some x, s') /\ buddy_over km g Ext s' /\ hands_out s s' x o).
Proof.
  intros (G & Hpl & L & Inv). unfold bkp_alloc.
  destruct (decide (order_ok o)) as [Ho | Ho].
  - pose proof Ho as [H0 H1]. rewrite (proj2 (Z.leb_le _ _) H0), (proj2 (Z.ltb_lt _ _) H1). cbn [andb negb].
    destruct s as [[b P h] O m]. unfold base, pgs, nds in *. cbn [frames_of pgframe_pages pages nodes order_pools] in *.
    destruct (alloc_loop_Ok km g b Ext m G Hpl P h O L o merge_fuel o Inv Ho)
      as [[E Hnil] | (x & P' & h' & O' & L' & E & [Inv' A S F K])];
      [lia | unfold merge_fuel, MAX_ORDER, CONFIG_BUDDYSYSTEM_MAX_ORDER in *; lia | |].
    + left. split; [exact E |]. right. intros k Hk Hko. unfold pool_count. simpl.
      rewrite (pool_entry _ _ _ _ _ _ _ _ (inv_pools _ _ _ _ _ _ _ _ _ Inv) k Hko). simpl.
      rewrite Hnil; [done | destruct Hko; lia].
    + right. split; [done |]. exists x, (St b P' h' O' m). split; [exact E |]. split.
      * split; [done |]. split; [done |]. by exists L'.
      * split; try done. change (mk_buddy (mk_frames b P h) O m) with (St b P h O m).
        rewrite (rest_pages_eq g (PGFRAME_PAGE_NUMS km) _ _ _ _ _ _ _ (inv_pools _ _ _ _ _ _ _ _ _ Inv)),
          (rest_pages_eq g (PGFRAME_PAGE_NUMS km) _ _ _ _ _ _ _ (inv_pools _ _ _ _ _ _ _ _ _ Inv')). lia.
  - left. split; [| by left]. unfold order_ok in Ho.
    destruct (Z.leb_spec 0 o); [| done]. destruct (Z.ltb_spec o MAX_ORDER); [| done].
    exfalso. by apply Ho.
Qed.

Lemma bkp_alloc_some km g Ext s o x s1 :
  buddy_over km g Ext s -> bkp_alloc km g o s = Ok (Some x, s1) ->
  order_ok o /\ buddy_over km g Ext s1 /\ hands_out s s1 x o.
Proof.
  intros W E. destruct (bkp_alloc_cases km g Ext s o W) as [[E' _] | (Ho & x' & s' & E' & W' & H)]; [congruence |].
  rewrite E in E'. by injection E' as <- <-.
Qed.

(** What changes hands when the block [i] of order [o] is freed. *)
Record takes_back (s s' : buddy) (i o : Z) : Prop := {
  tb_kept : forall j p, kept p -> j <> i /\ pgs s !! j = Some p <-> pgs s' !! j = Some p;
  tb_pages : rest_pages s' = rest_pages s + 2 ^ o;
  tb_merged : exists i' o', order_ok o' /\ free_at (pgs s') o' i' /\
    i' <= i /\ i + 2 ^ o <= i' + 2 ^ o' /\
    (o' = MAX_ORDER - 1 \/
     ~ free_at (pgs s') o' (i' - 2 ^ o') /\ ~ free_at (pgs s') o' (i' + 2 ^ o'));
  tb_memory : memory s' = memory s;
  tb_base : base s' = base s
}.

Lemma bkp_free_cases km g Ext s i o :
  buddy_over km g Ext s -> order_ok o -> allocated (pgs s) i o ->
  exists s', bkp_free km g (Some i) s = Ok (tt, s') /\ buddy_over km g Ext s' /\ takes_back s s' i o.
Proof.
  intros (G & Hpl & L & Inv) Ho Hal. destruct s as [[b P h] O m].
  unfold base, pgs, nds in *. cbn [frames_of pgframe_pages pages nodes order_pools] in *.
  destruct (bkp_free_Ok km g b Ext m none G Hpl P h O L i o Inv Ho Hal)
    as (P' & h' & O' & L' & i' & o' & E & Inv' & K & F & Hm).
  exists (St b P' h' O' m). split; [exact E |]. split; [split; [done |]; split; [done | by exists L'] |].
  split; try done. all: change (mk_buddy (mk_frames b P h) O m) with (St b P h O m).
  - rewrite (rest_pages_eq g (PGFRAME_PAGE_NUMS km) _ _ _ _ _ _ _ (inv_pools _ _ _ _ _ _ _ _ _ Inv)),
      (rest_pages_eq g (PGFRAME_PAGE_NUMS km) _ _ _ _ _ _ _ (inv_pools _ _ _ _ _ _ _ _ _ Inv')). lia.
  - exists i', o'. tauto.
Qed.

(** ** Clients *)

(** The states a client can bring a consistent allocator into by allocating
    blocks and freeing blocks it owns, in any order; [own] lists the blocks
    (first page and order). *)
Inductive client (km : kernel_mapping) (g : Z) (s0 : buddy) : list (Z * Z) -> buddy -> Prop :=
  | client_start : client km g s0 [] s0
  | client_alloc own s o x s' :
      client km g s0 own s -> bkp_alloc km g o s = Ok (Some x, s') ->
      client km g s0 ((x, o) :: own) s'
  | client_none own s o s' :
      client km g s0 own s -> bkp_alloc km g o s = Ok (None, s') -> client km g s0 own s'
  | client_free own1 x o own2 s s' :
      client km g s0 (own1 ++ (x, o) :: own2) s -> bkp_free km g (Some x) s = Ok (tt, s') ->
      client km g s0 (own1 ++ own2) s'.

Definition owned_pages (own : list (Z * Z)) : Z := foldr (fun xo t => 2 ^ snd xo + t) 0 own.

Record client_inv km g s0 (own : list (Z * Z)) (s : buddy) : Prop := {
  ci_wf : buddy_wf km g s;
  ci_own : forall x o, (x, o) ∈ own -> order_ok o /\ allocated (pgs s) x o;
  ci_nodup : NoDup own.*1;
  ci_pages : rest_pages s + owned_pages own = rest_pages s0
}.

Lemma owned_pages_app l1 l2 : owned_pages (l1 ++ l2) = owned_pages l1 + owned_pages l2.
Proof. induction l1 as [|x l IH]; simpl; [done |]. rewrite IH. lia. Qed.

Lemma allocated_kept P P' j o :
  (forall p, kept p -> P !! j = Some p -> P' !! j = Some p) -> allocated P j o -> allocated P' j o.
Proof. intros H (p & Hp & Hf & Hr). exists p. split; [apply H; [by left | done] | done]. Qed.

Lemma client_invariant km g s0 own s :
  buddy_wf km g s0 -> client km g s0 own s -> client_inv km g s0 own s.
Proof.
  intros Hwf. induction 1 as [| own s o x s' _ IH E | own s o s' _ IH E | own1 x o own2 s s' _ IH E].
  - split; [done | by intros ? ? ?%elem_of_nil | apply NoDup_nil_2 | simpl; lia].
  - destruct IH as [W Ow N F]. destruct (bkp_alloc_cases km g ∅ s o W) as [[E' _] | (Ho & x' & s1 & E' & W' & [A _ K Fp _ _])];
      rewrite E in E'; [done |]. injection E' as <- <-. split; [done | | |].
    + intros y oy [[= -> ->] | Hy]%elem_of_cons; [done |]. destruct (Ow y oy Hy) as [Hoy Hal].
      split; [done |]. eapply allocated_kept; [| exact Hal]. intros p Hk Hp. by apply K.
    + simpl. apply NoDup_cons. split; [| done]. intros ([y oy] & -> & Hy)%list_elem_of_fmap. simpl in *.
      destruct (Ow y oy Hy) as [_ (p & Hp & Hf & _)]. apply K in Hp as [Hne _]; [done | by left].
    + simpl. lia.
  - destruct (bkp_alloc_cases km g ∅ s o (ci_wf _ _ _ _ _ IH)) as [[E' _] | (_ & x' & s1 & E' & _)];
      rewrite E in E'; [by injection E' as <- | done].
  - destruct IH as [W Ow N F]. destruct (Ow x o) as [Ho Hal]; [apply elem_of_app; right; by left |].
    destruct (bkp_free_cases km g ∅ s x o W Ho Hal) as (s1 & E' & W' & [K Fp _ _ _]).
    rewrite E in E'. injection E' as <-.
    rewrite fmap_app in N. simpl in N.
    apply NoDup_app in N as (N1 & Ndis & [Nx N2]%NoDup_cons).
    split; [done | | |].
    + intros y oy Hy. destruct (Ow y oy) as [Hoy Haly]; [rewrite elem_of_app, elem_of_cons in *; tauto |]. split; [done |].
      eapply allocated_kept; [| exact Haly]. intros p Hk Hp. apply K; [done |]. split; [| done].
      intros ->. apply elem_of_app in Hy as [Hy | Hy].
      * apply (Ndis x); [apply list_elem_of_fmap; by exists (x, oy) | by left].
      * apply Nx. apply list_elem_of_fmap. by exists (x, oy).
    + rewrite fmap_app. apply NoDup_app. split; [done |]. split; [| done].
      intros y Hy1 Hy2. apply (Ndis y Hy1). by right.
    + rewrite owned_pages_app in *. simpl in F. lia.
Qed.

(** Blocks with different heads are disjoint. *)
Lemma heads_disjoint n P x p y q :
  blocks n none P -> P !! x = Some p -> is_head p -> P !! y = Some q -> is_head q -> x < y -> x + 2 ^ buddy_order p <= y.
Proof.
  intros B Hp Hh Hq Hhq Hlt. destruct (decide (x + 2 ^ buddy_order p <= y)) as [| Hn]; [done | exfalso].
  destruct (head_tail _ _ _ _ _ B Hp Hh y ltac:(lia)) as (q' & Hq' & Hb). assert (q' = q) as -> by congruence.
  by apply (kinds_disjoint q).
Qed.

Lemma blocks_disjoint n P x ox y oy :
  blocks n none P -> order_ok ox -> order_ok oy -> allocated P x ox -> allocated P y oy -> x < y ->
  x + 2 ^ ox <= y.
Proof.
  intros B Hox Hoy Hx Hy. destruct (allocated_head P x ox Hx Hox) as (p & Hp & Hh & <- & _).
  destruct (allocated_head P y oy Hy Hoy) as (q & Hq & Hhq & _). by apply (heads_disjoint n P x p y q).
Qed.

(** ** Addresses *)

Lemma head_range n X P x p : blocks n X P -> P !! x = Some p -> is_head p -> 0 <= x /\ x + 2 ^ buddy_order p <= n.
Proof.
  intros B Hp Hh. pose proof (page_range _ _ _ _ _ B Hp). pose proof (pow_order _ (proj1 Hh)). split; [lia |].
  destruct (decide (2 ^ buddy_order p = 1)); [lia |].
  destruct (head_tail _ _ _ _ _ B Hp Hh (x + 2 ^ buddy_order p - 1) ltac:(lia)) as (q & Hq & _).
  apply (page_range _ _ _ _ _ B) in Hq. lia.
Qed.

Lemma hands_out_range km g Ext s s' x o :
  buddy_over km g Ext s' -> order_ok o -> hands_out s s' x o ->
  0 <= x /\ x + 2 ^ o <= PGFRAME_PAGE_NUMS km.
Proof.
  intros (_ & _ & L & [B _]) Ho [Hal _ _ _ _ _]. destruct (allocated_head _ _ _ Hal Ho) as (p & Hp & Hh & <- & _).
  by eapply head_range.
Qed.

Lemma fill_size o : order_ok o -> u64 (Z.shiftl 1 o * PAGE_SIZE) = 4096 * 2 ^ o.
Proof.
  intros Ho. pose proof (pow_order o Ho). rewrite Z.shiftl_mul_pow2, Z.mul_1_l, PAGE_SIZE_eq by apply Ho.
  rewrite u64_small; lia.
Qed.

Lemma buddy_over_memory km g Ext s m : buddy_over km g Ext s -> buddy_over km g Ext (set_memory m s).
Proof. intros (G & Hp & L & I). split; [done |]. split; [done | by exists L]. Qed.

(** ** Self checks *)

Lemma check_pool_ring km g Ext s i L :
  buddy_inv g (PGFRAME_PAGE_NUMS km) (base s) Ext none (pgs s) (nds s) (order_pools s) L -> order_ok i ->
  geometry km -> placed km g s ->
  forall s1, frames_of s1 = frames_of s ->
  list_for_each (R := unit) (fun s => nodes (frames_of s)) (list_fuel (nodes (frames_of s1))) (pool_list g i)
    (first_node (pool_list g i) (buddy_node (base s) <$> L i))
    (fun '(rest_block, err) iterator =>
       pg ← get_page (node_entry (base s) iterator);
       ret (Next (s32 (rest_block - 1), if negb (buddy_order pg =? i) then 1 else err)))
    (Z.of_nat (length (L i)), 0) s1 = Ok (Next (0, 0), s1).
Proof.
  intros [B I FO] Ho G Hpl s1 Es1.
  pose proof (pool_ring _ _ _ _ _ _ _ _ I (fun i p => page_range _ _ _ _ _ B) Hpl i Ho) as Hd.
  pose proof (pool_length _ _ _ _ _ _ _ _ I (fun i p => page_range _ _ _ _ _ B) Hpl i Ho) as Hlen.
  pose proof (geo_nums km G) as Hn. specialize (Hlen ltac:(lia)).
  match goal with |- list_for_each _ ?fu _ _ ?body _ _ = _ =>
    destruct (list_for_each_ind (R := unit) (fun s => nodes (frames_of s)) (pool_list g i) body
      (fun rest acc s' => s' = s1 /\ exists l1 l2, L i = l1 ++ l2 /\ rest = buddy_node (base s) <$> l2 /\
         acc = (Z.of_nat (length l2), 0))
      (fun _ _ => False)) with (rest := buddy_node (base s) <$> L i) (fuel := fu)
      (a := (Z.of_nat (length (L i)), 0)) (s := s1) as (r & s' & E & Hr)
  end.
  - intros node rest acc s' (-> & l1 & [|x l2] & El & Er & ->); [done |]. injection Er as -> ->.
    assert (Hd' : dlist (nds s) (pool_list g i)
      ((buddy_node (base s) <$> l1) ++ buddy_node (base s) x :: (buddy_node (base s) <$> l2))).
    { rewrite El, fmap_app in Hd. exact Hd. }
    destruct (dlist_next _ _ _ _ _ Hd') as [Hnx Hne]. split; [done |].
    assert (Hx : x ∈ L i) by (rewrite El; apply elem_of_app; right; by left).
    apply (pool_free _ _ _ _ _ _ _ _ I i x Ho) in Hx as (p & Hp & _ & Hop).
    eexists _, s1. split.
    + rewrite buddy_node_entry. rewrite (buddy_eta s1). unfold pgs, base, nds. rewrite Es1.
      erewrite bind_Ok; [reflexivity |]. apply get_page_Ok. exact Hp.
    + cbn. split; [| by rewrite Es1]. split; [done |]. exists (l1 ++ [x]), l2. split; [by rewrite <- app_assoc |].
      split; [done |]. rewrite El, length_app in Hlen. cbn [length] in *. rewrite Hop, Z.eqb_refl. cbn [negb].
      f_equal. rewrite s32_small; lia.
  - rewrite Es1. by apply dlist_length in Hd.
  - split; [done |]. by exists [], (L i).
  - destruct r as [acc | []]; [| done]. destruct Hr as (-> & l1 & [|x l2] & _ & Hl & ->); [done | done].
Qed.

Lemma lock_unlock_page s i p :
  pages s !! i = Some p -> page_lk p = 1 ->
  exists s1, lock_page i s = Ok (tt, s1) /\ pg_load i s1 = Ok (with_lk 0 p, s1) /\
    unlock_page i s1 = Ok (tt, s).
Proof.
  intros Hp Hl. eexists. split; [by apply lock_page_Ok |].
  split; [apply pg_load_Ok; simpl; apply lookup_insert_eq |].
  erewrite unlock_page_Ok; [| simpl; apply lookup_insert_eq | done].
  unfold set_pages. simpl. rewrite insert_insert_eq, with_lk_id, insert_id by done. by destruct s.
Qed.

(** What the self check of the pages counts before page [i]. *)
Definition counted (P : gmap Z pageframe) (i bef : Z) : Prop :=
  (bef = -233333 /\ forall k p, P !! k = Some p -> is_head p -> i <= k) \/
  (exists k p, P !! k = Some p /\ is_head p /\ k < i /\
     (forall j q, P !! j = Some q -> is_head q -> k < j -> i <= j) /\
     bef = Z.max 0 (k + 2 ^ buddy_order p - i)).

Lemma counted_step n P i p bef :
  blocks n none P -> P !! i = Some p -> pgtype p <> VMA_AREA -> counted P i bef ->
  exists bef', check_page p bef = Next bef' /\ counted P (i + 1) bef'.
Proof.
  intros B Hp Ht Hc. pose proof (page_range _ _ _ _ _ B Hp) as Hi.
  assert (Hty : forall (A : Type) (x y : A), match pgtype p with PAGE_BUDDYALLOCATOR | SLAB_ALLOCATOR => x | VMA_AREA => y end = x)
    by (intros; by destruct (pgtype p)).
  unfold check_page. rewrite Hty. clear Hty.
  assert (Hpast : forall k q, P !! k = Some q -> is_head q -> k < i -> ~ is_body p -> k + 2 ^ buddy_order q <= i).
  { intros k q Hk Hh Hlt Hnb. destruct (decide (k + 2 ^ buddy_order q <= i)); [done | exfalso].
    destruct (head_tail _ _ _ _ _ B Hk Hh i ltac:(lia)) as (p' & Hp' & Hb). by simplify_eq. }
  destruct (blk_shape _ _ _ B i p Hp) as [F | [[Hh _] | [[F [Fo _]] [(k & q & Hk & Hh & Hki) | []]]]].
  - rewrite F. flags. exists bef. split; [done |].
    assert (Hnb : ~ is_body p) by (intros [? _]; lia).
    destruct Hc as [[-> Hn] | (k & q & Hk & Hh & Hlt & Hn & ->)].
    + left. split; [done |]. intros j q Hj Hh. specialize (Hn j q Hj Hh).
      destruct (decide (j = i)) as [-> |]; [simplify_eq; destruct Hh as [_ [|[]]]; lia | lia].
    + right. exists k, q. split; [done |]. split; [done |]. split; [lia |]. split.
      * intros j r Hj Hhr Hkj. specialize (Hn j r Hj Hhr Hkj).
        destruct (decide (j = i)) as [-> |]; [simplify_eq; destruct Hhr as [_ [|[]]]; lia | lia].
      * specialize (Hpast k q Hk Hh Hlt Hnb). lia.
  - assert (Hnb : ~ is_body p) by (intros Hb; by apply (kinds_disjoint p)).
    pose proof (pow_order _ (proj1 Hh)) as Hpw.
    exists (Z.shiftl 1 (buddy_order p) - 1). split.
    + assert (Hb : bef = -233333 \/ bef = 0).
      { destruct Hc as [[-> _] | (k & q & Hk & Hhq & Hlt & _ & ->)]; [by left | right].
        specialize (Hpast k q Hk Hhq Hlt Hnb). lia. }
      destruct Hh as [_ [F | [F _]]]; rewrite F; flags; cbn [andb orb]; destruct Hb as [-> | ->]; reflexivity.
    + right. exists i, p. split; [done |]. split; [done |]. split; [lia |]. split; [lia |].
      rewrite Z.shiftl_mul_pow2, Z.mul_1_l by apply Hh. lia.
  - rewrite F, Fo. flags. cbn [andb orb]. rewrite !Z.eqb_refl. cbn [negb].
    exists (s32 (bef - 1)). split; [done |]. right. exists k, q.
    destruct Hc as [[-> Hn] | (k' & q' & Hk' & Hh' & Hlt & Hn & ->)]; [specialize (Hn k q Hk Hh); lia |].
    assert (k' = k) as ->.
    { destruct (Z.lt_trichotomy k' k) as [Hl | [-> | Hl]]; [specialize (Hn k q Hk Hh Hl); lia | done |].
      destruct (head_tail _ _ _ _ _ B Hk Hh k' ltac:(lia)) as (r & Hr & Hb). assert (r = q') as -> by congruence.
      by destruct (kinds_disjoint q'). }
    assert (q' = q) as -> by congruence. pose proof (pow_order _ (proj1 Hh)) as Hpw.
    split; [done |]. split; [done |]. split; [lia |]. split; [| rewrite s32_small; lia].
    intros j r Hj Hhr Hkj. specialize (Hn j r Hj Hhr Hkj).
    destruct (decide (j = i)) as [-> |]; [simplify_eq; destruct Hhr as [_ [|[]]]; lia | lia].
Qed.

(** ** Initialisation *)

(** The descriptors as [pgfm_module_init] leaves them: static pages and free
    single pages not yet handed to the allocator. *)
Definition fresh_frames (n : Z) (P : gmap Z pageframe) : Prop :=
  (forall i, is_Some (P !! i) <-> 0 <= i < n) /\
  (forall i p, P !! i = Some p -> page_lk p = 1 /\
     (buddy_flags p = 8 \/ buddy_flags p = 2 /\ buddy_order p = 0 /\ pgtype p = PAGE_BUDDYALLOCATOR)).

(** The memory of the descriptors, of their nodes and of [g_buddy] is mapped,
    with any contents. *)
Definition mapped (km : kernel_mapping) (g : Z) (s : buddy) : Prop :=
  (forall i, 0 <= i < PGFRAME_PAGE_NUMS km -> buddy_node (base s) i ∈ dom (nds s)) /\
  (forall o, order_ok o -> is_Some (order_pools s !! o) /\ pool_list g o ∈ dom (nds s)).

Definition is_single (P : gmap Z pageframe) (i : Z) : bool :=
  match P !! i with Some p => buddy_flags p =? 2 | None => false end.

(** The single pages below [n]. *)
Definition singles (P : gmap Z pageframe) (n : Z) : Z :=
  Z.of_nat (length (filter (is_single P) (seqZ 0 n))).

Lemma singles_step P i : 0 <= i ->
  singles P (i + 1) = singles P i + (if is_single P i then 1 else 0).
Proof.
  intros Hi. unfold singles. rewrite seqZ_app, filter_app, length_app by lia.
  replace (seqZ (0 + i) 1) with [i] by (cbn; f_equal; lia).
  cbn [filter list_filter]. destruct (is_single P i); simpl; lia.
Qed.

Lemma fresh_blocks n P : fresh_frames n P -> blocks n none P.
Proof.
  intros [Hd Hs]. split; [done | intros i p Hp; by apply (Hs i p) | | by intros ? []].
  intros i p Hp. destruct (Hs i p Hp) as [_ [F | (F & Ho & Ht)]]; [by left | right; left].
  split; [split; [rewrite Ho; done | by left] |]. rewrite Ho. intros j Hj. simpl in Hj. lia.
Qed.

Lemma empty_pools g n b P h O :
  fresh_frames n P -> (forall o, order_ok o -> O !! o = Some (mk_mempool 1 0 (4096 * 2 ^ o))) ->
  (forall o, order_ok o -> dlist h (pool_list g o) []) -> (forall i, 0 <= i < n -> buddy_node b i ∈ dom h) ->
  pools_inv g n b ∅ P h O (fun _ => []).
Proof.
  intros [_ Hs] HO Hd Hn. split; [done | rewrite (right_id_L ∅ (∪)); split | done |].
  - intros k l (o & Ho & -> & ->)%rings_lookup. by apply Hd.
  - intros k1 k2 l1 l2 q Hne (o1 & Ho1 & -> & ->)%rings_lookup (o2 & Ho2 & -> & ->)%rings_lookup.
    intros ->%list_elem_of_singleton. simpl. intros E%list_elem_of_singleton. by apply Hne.
  - intros o i Ho. split; [by intros ?%elem_of_nil |]. intros (p & Hp & F & _).
    destruct (Hs i p Hp) as [_ [F' | [F' _]]]; lia.
Qed.

Lemma init_pool_Ok g b P h O m i :
  order_ok i -> is_Some (O !! i) -> pool_list g i ∈ dom h ->
  exists h' q, (on_pools (update i (with_pool_lk 1));; on_pools (update i (with_rest 0));;
      on_pools (update i (with_size (s32 (ORDER2BYTE i))));; on_nodes (INIT_LIST_HEAD (pool_list g i));;
      ret (Next (A := unit) (R := unit) tt)) (St b P h O m)
    = Ok (Next tt, St b P h' (<[i := mk_mempool 1 0 (4096 * 2 ^ i)]> O) m) /\
    O !! i = Some q /\ dlist h' (pool_list g i) [] /\ touches h h' [pool_list g i].
Proof.
  intros Hi [q Hq] Hd. pose proof (pow_order i Hi).
  destruct (INIT_LIST_HEAD_Ok h (pool_list g i) Hd) as (h' & E & Hd' & Ht). exists h', q.
  split; [| done].
  assert (Hup : forall O f q, O !! i = Some q -> on_pools (update i f) (St b P h O m) = Ok (tt, St b P h (<[i := f q]> O) m)).
  { intros O1 f q1 H1. unfold on_pools, zoom. simpl. by rewrite (update_Ok _ _ _ _ H1). }
  bstep Hup. bstep Hup. bstep Hup. rewrite (bind_Ok _ _ _ _ _ (on_nodes_Ok _ _ _ _ _ _ _ _ E)).
  unfold ret. do 2 f_equal. apply St_eq; [done |]. rewrite !insert_insert_eq. f_equal.
  unfold with_size, with_rest, with_pool_lk. simpl. rewrite ORDER2BYTE_eq, s32_small; done || lia.
Qed.

Lemma touches_other h h' k k' l :
  touches h h' [k] -> k' <> k -> k ∉ l -> dlist h k' l -> dlist h' k' l.
Proof.
  intros [_ Hf] Hne Hl Hd. eapply dlist_frame; [exact Hd |]. intros q [-> | Hq]%elem_of_cons.
  - apply Hf. by intros ->%list_elem_of_singleton.
  - apply Hf. by intros ->%list_elem_of_singleton.
Qed.

(** The loop over the pools. *)
Lemma init_pools_loop km g b P h O m :
  fresh_frames (PGFRAME_PAGE_NUMS km) P -> mapped km g (St b P h O m) ->
  exists h' O', for_up (R := unit) (Z.to_nat MAX_ORDER) 0 (fun (_ : unit) i =>
      on_pools (update i (with_pool_lk 1));; on_pools (update i (with_rest 0));;
      on_pools (update i (with_size (s32 (ORDER2BYTE i))));; on_nodes (INIT_LIST_HEAD (pool_list g i));;
      ret (Next tt)) tt (St b P h O m) = Ok (Next tt, St b P h' O' m) /\
    pools_inv g (PGFRAME_PAGE_NUMS km) b ∅ P h' O' (fun _ => []).
Proof.
  intros Hfr [Hn Hp]. unfold base, nds in Hn, Hp. simpl in Hn, Hp.
  match goal with |- context [for_up _ _ ?body _ _] =>
    destruct (for_up_ind body (fun i (_ : unit) s => exists h' O', s = St b P h' O' m /\ 0 <= i /\
        dom h' = dom h /\ (forall o, order_ok o -> is_Some (O' !! o)) /\
        (forall o, 0 <= o < i -> O' !! o = Some (mk_mempool 1 0 (4096 * 2 ^ o)) /\ dlist h' (pool_list g o) []))
      (fun _ _ => False) MAX_ORDER) with (n := Z.to_nat MAX_ORDER) (i := 0) (a := tt) (s := St b P h O m)
      as (r & s' & E & Hr)
  end.
  - intros i [] s Hi (h1 & O1 & -> & H0 & Hdom & HO1 & Hdone).
    assert (Hio : order_ok i) by done.
    destruct (init_pool_Ok g b P h1 O1 m i Hio (HO1 i Hio)) as (h2 & q & E & Hq & Hd2 & Ht);
      [rewrite Hdom; by apply Hp |].
    eexists _, _. split; [exact E |]. exists h2, (<[i := mk_mempool 1 0 (4096 * 2 ^ i)]> O1).
    split; [done |]. split; [lia |]. split; [by rewrite <- Hdom; apply Ht |]. split.
    + intros o Ho. destruct (decide (o = i)) as [-> |]; [lookups; eauto | rewrite lookup_insert_ne by done; auto].
    + intros o Ho. destruct (decide (o = i)) as [-> |]; [by rewrite lookup_insert_eq |].
      destruct (Hdone o ltac:(lia)) as [HOo Hdo]. rewrite lookup_insert_ne by done. split; [done |].
      eapply touches_other; [exact Ht | intros E1%pool_list_inj; done | apply not_elem_of_nil | exact Hdo].
  - done.
  - exists h, O. split; [done |]. split; [done |]. split; [done |]. split; [intros o Ho; by apply Hp | lia].
  - destruct r as [[] |]; [| done]. destruct Hr as (h' & O' & -> & _ & Hdom & _ & Hdone).
    exists h', O'. split; [exact E |]. apply empty_pools; [done | | |].
    + intros o Ho. by apply Hdone.
    + intros o Ho. by apply Hdone.
    + intros i Hi. rewrite Hdom. by apply Hn.
Qed.

(** The state after the pages below [i] were handed over. *)
Record handed km g (s0 : buddy) (i : Z) (s : buddy) : Prop := {
  hd_wf : buddy_wf km g s;
  hd_base : base s = base s0;
  hd_memory : memory s = memory s0;
  hd_kept : forall j p, kept p ->
    (i <= j \/ buddy_flags p = 8) /\ pgs s0 !! j = Some p <-> pgs s !! j = Some p;
  hd_pages : rest_pages s = rest_pages s0 + singles (pgs s0) i
}.

Lemma handed_step km g s0 i s p :
  fresh_frames (PGFRAME_PAGE_NUMS km) (pgs s0) -> 0 <= i -> handed km g s0 i s -> pgs s !! i = Some p ->
  exists s', when (buddy_pgfm_freeable p) (bkp_free km g (Some i)) s = Ok (tt, s') /\ handed km g s0 (i + 1) s'.
Proof.
  intros [Hd Hs] Hi [W Eb Em K F] Hp. unfold when, buddy_pgfm_freeable.
  change PG_BUDDY_FLAG_HEAD with 2. destruct (Z.eqb_spec (buddy_flags p) 2) as [Hf | Hf].
  - assert (Hk : kept p) by (by left). destruct (proj2 (K i p Hk) Hp) as [_ Hp0].
    destruct (Hs i p Hp0) as [_ [F8 | (_ & Ho & Ht)]]; [lia |].
    destruct (bkp_free_cases km g ∅ s i 0 W) as (s' & E & W' & [K' F' _ M' B']); [done | by exists p |].
    exists s'. split; [exact E |]. split; [done | congruence | congruence | |].
    + intros j q Hq. rewrite <- K', <- K by done. split.
      * intros [Hj Hq0]. assert (j <> i).
        { intros ->. destruct Hj as [? | F8]; [lia |]. assert (q = p) as -> by congruence. lia. }
        split; [done |]. split; [destruct Hj; [left; lia | by right] | done].
      * intros [Hji [Hj Hq0]]. split; [destruct Hj; [left; lia | by right] | done].
    + rewrite F', F, singles_step by done. unfold is_single. rewrite Hp0, Hf. simpl. lia.
  - exists s. split; [done |]. assert (Hp0 : exists p0, pgs s0 !! i = Some p0 /\ buddy_flags p0 = 8).
    { destruct W as (_ & _ & L & [B _]). apply (page_range _ _ _ _ _ B) in Hp as Hr. apply Hd in Hr as [p0 Hp0].
      exists p0. split; [done |]. destruct (Hs i p0 Hp0) as [_ [F8 | (F2 & _)]]; [done |]. exfalso.
      assert (pgs s !! i = Some p0) by (apply K; [by left |]; split; [left; lia | done]). congruence. }
    destruct Hp0 as (p0 & Hp0 & F8). split; [done | done | done | |].
    + intros j q Hq. rewrite <- K by done. split.
      * intros [Hj Hq0]. split; [destruct Hj; [left; lia | by right] | done].
      * intros [Hj Hq0]. split; [| done]. destruct Hj as [Hj | ?]; [| by right].
        destruct (decide (j = i)) as [-> |]; [right; congruence | left; lia].
    + rewrite F, singles_step by done. unfold is_single. rewrite Hp0, F8. simpl. lia.
Qed.

Lemma buddy_module_init_cases km g s :
  geometry km -> placed km g s -> fresh_frames (PGFRAME_PAGE_NUMS km) (pgs s) -> mapped km g s ->
  exists s', buddy_module_init km g (0, s) = Ok (0, (1, s')) /\ buddy_wf km g s' /\
    rest_pages s' = singles (pgs s) (PGFRAME_PAGE_NUMS km) /\ memory s' = memory s /\
    (forall j p, kept p -> pgs s' !! j = Some p <-> buddy_flags p = 8 /\ pgs s !! j = Some p).
Proof.
  intros G Hpl Hfr Hmap. pose proof (geo_nums km G) as Hn. rewrite (buddy_eta s) in Hmap.
  destruct (init_pools_loop km g _ _ _ _ _ Hfr Hmap) as (h1 & O1 & E1 & I1).
  set (s1 := St (base s) (pgs s) h1 O1 (memory s)) in *.
  assert (H1 : handed km g s1 0 s1).
  { split; [| done | done | | unfold singles; simpl; lia].
    - split; [done |]. split; [exact Hpl |]. eexists. split; [by apply fresh_blocks | exact I1 | by intros ? ? _ _ ? ? ?%lookup_empty_Some].
    - intros j p _. split; [by intros [_ ?] |]. intros Hj. split; [left | done].
      apply (proj1 Hfr). by exists p. }
  destruct (for_up_ind (R := unit) (fun (_ : unit) i => p ← get_page i;
      when (buddy_pgfm_freeable p) (bkp_free km g (Some i));; ret (Next tt))
    (fun i (_ : unit) s' => 0 <= i /\ handed km g s1 i s') (fun _ _ => False) (PGFRAME_PAGE_NUMS km))
    with (n := Z.to_nat (PGFRAME_PAGE_NUMS km)) (i := 0) (a := tt) (s := s1) as (r & s' & E2 & Hr);
    [| lia | done |].
  - intros i [] s' Hi [H0 Hh]. pose proof Hh as [(_ & _ & L & [B _]) _ _ _ _].
    destruct (proj2 (blk_dom _ _ _ B i) ltac:(lia)) as [p Hp].
    destruct (handed_step km g s1 i s' p Hfr H0 Hh Hp) as (s2 & E & Hh2).
    exists (Next tt), s2. split; [| split; [lia | done]].
    erewrite bind_Ok; [| rewrite (buddy_eta s') at 1; apply get_page_Ok; exact Hp]. rewrite <- buddy_eta.
    by rewrite (bind_Ok _ _ _ _ _ E).
  - destruct r as [[] |]; [| done]. destruct Hr as [_ [W Eb Em K F]]. exists s'. split.
    + unfold buddy_module_init. rewrite (bind_Ok (gets fst) _ (0, s) 0 (0, s) eq_refl). cbn [Z.eqb negb].
      erewrite bind_Ok; [| apply zoom_Ok; cbn [snd]; rewrite (buddy_eta s) at 1; exact E1].
      erewrite bind_Ok; [| apply zoom_Ok; exact E2]. reflexivity.
    + split; [done |]. split; [rewrite F; unfold s1; rewrite (rest_pages_eq _ _ _ _ _ _ _ _ _ I1); done |].
      split; [done |]. intros j p Hk. rewrite <- K by done. split; [| tauto].
      intros [[Hj | ?] Hp]; [| done]. apply (fun H => proj1 (proj1 Hfr j) (ex_intro _ p H)) in Hp. lia.
Qed.

(** ** A small allocator

    The machine [demo_km] after [pgfm_module_init]: page 0 is the kernel, page
    1 holds the descriptors, pages 2 to 7 are free. *)
Definition demo_g : Z := 0x3000000100.

Definition demo_buddy : buddy :=
  mk_buddy
    (mk_frames (PGFRAME_FREE_VA_START demo_km)
       (list_to_map ((fun i => (i, fresh_page demo_km (free_begin demo_km) (free_finish demo_km) i)) <$> seqZ 0 8))
       (list_to_map (((fun i => (buddy_node (PGFRAME_FREE_VA_START demo_km) i, mk_list_head 5 5)) <$> seqZ 0 8)
                     ++ ((fun o => (pool_list demo_g o, mk_list_head 6 6)) <$> seqZ 0 6))))
    (list_to_map ((fun o => (o, mk_mempool 9 9 9)) <$> seqZ 0 6))
    (fun _ => 7).

Lemma below_8 (Q : Z -> Prop) : Q 0 -> Q 1 -> Q 2 -> Q 3 -> Q 4 -> Q 5 -> Q 6 -> Q 7 -> forall i, 0 <= i < 8 -> Q i.
Proof.
  intros. assert (i = 0 \/ i = 1 \/ i = 2 \/ i = 3 \/ i = 4 \/ i = 5 \/ i = 6 \/ i = 7) as Hc by lia.
  by destruct_or! Hc; subst i.
Qed.

Ltac each_below_8 :=
  match goal with |- forall i, 0 <= i < 8 -> @?Q i => apply (below_8 Q) end; cbv beta.

Lemma demo_buddy_mapped : mapped demo_km demo_g demo_buddy.
Proof.
  split.
  - change (PGFRAME_PAGE_NUMS demo_km) with 8. each_below_8; apply elem_of_dom; vm_compute; eauto.
  - intros o [H0 H1]. change MAX_ORDER with 6 in H1. revert o H0 H1.
    assert (H : forall o, 0 <= o < 8 -> o < 6 ->
      is_Some (order_pools demo_buddy !! o) /\ pool_list demo_g o ∈ dom (nds demo_buddy)).
    { each_below_8; intros Ho; try lia; (split; [vm_compute; eauto | apply elem_of_dom; vm_compute; eauto]). }
    intros o H0 H1. apply H; lia.
Qed.

Lemma demo_buddy_fresh : fresh_frames (PGFRAME_PAGE_NUMS demo_km) (pgs demo_buddy).
Proof.
  change (PGFRAME_PAGE_NUMS demo_km) with 8.
  assert (Hl : forall i p, pgs demo_buddy !! i = Some p ->
    0 <= i < 8 /\ p = fresh_page demo_km (free_begin demo_km) (free_finish demo_km) i).
  { intros i p Hp. apply elem_of_list_to_map_2 in Hp. apply list_elem_of_fmap in Hp as (j & [= -> ->] & Hj).
    apply elem_of_seqZ in Hj. split; [lia | done]. }
  split.
  - intros i. split; [intros [p Hp]; by apply Hl in Hp as [? _] |]. intros Hi. revert i Hi. each_below_8; vm_compute; eauto.
  - intros i p [Hi ->]%Hl. split; [done |]. unfold fresh_page. simpl. destruct (_ && _); auto.
Qed.

Lemma demo_placed : placed demo_km demo_g demo_buddy.
Proof.
  intros o i Ho Hi. unfold pool_list, buddy_node, base, demo_g, sizeof_pageframe, offsetof_buddy_node. simpl.
  change (PGFRAME_FREE_VA_START demo_km) with 0x3000001000. unfold order_ok in Ho.
  change MAX_ORDER with 6 in Ho. lia.
Qed.

(** The state after [buddy_module_init], and after a block of 4 pages was
    allocated. *)
Definition demo_ready : buddy :=
  match buddy_module_init demo_km demo_g (0, demo_buddy) with
  | Ok (_, (_, s)) => s
  | Err _ => demo_buddy
  end.

Lemma demo_ready_wf : buddy_wf demo_km demo_g demo_ready.
Proof.
  destruct (buddy_module_init_cases demo_km demo_g demo_buddy (boot_geometry _ _ demo_boot) demo_placed
    demo_buddy_fresh demo_buddy_mapped) as (s' & E & W & _).
  unfold demo_ready. by rewrite E.
Qed.

Definition demo_alloc : option (Z * buddy) :=
  match bkp_alloc demo_km demo_g 1 demo_ready with
  | Ok (Some x, s) => Some (x, s)
  | _ => None
  end.

Definition demo_page : Z := match demo_alloc with Some (x, _) => x | None => 0 end.
Definition demo_used : buddy := match demo_alloc with Some (_, s) => s | None => demo_ready end.

Lemma demo_alloc_run : bkp_alloc demo_km demo_g 1 demo_ready = Ok (Some demo_page, demo_used).
Proof.
  assert (H : match demo_alloc with Some _ => true | None => false end = true) by (vm_compute; reflexivity).
  unfold demo_page, demo_used. revert H. unfold demo_alloc.
  by destruct (bkp_alloc demo_km demo_g 1 demo_ready) as [[[x|] s]|].
Qed.

(** C29: from the descriptors [pgfm_module_init] leaves, [buddy_module_init]
    builds a consistent allocator: it returns 0, every single page has been
    freed into the pools (the free pages are exactly those pages), no
    allocated block is left and the static pages are as before. *)
Theorem buddy_module_init_ok km g s :
  geometry km -> placed km g s -> fresh_frames (PGFRAME_PAGE_NUMS km) (pgs s) -> mapped km g s ->
  exists s', buddy_module_init km g (0, s) = Ok (0, (1, s')) /\ buddy_wf km g s' /\
    rest_pages s' = singles (pgs s) (PGFRAME_PAGE_NUMS km) /\ memory s' = memory s /\
    (forall j p, kept p -> pgs s' !! j = Some p <-> buddy_flags p = 8 /\ pgs s !! j = Some p).
Proof. apply buddy_module_init_cases. Qed.

Lemma buddy_module_init_ok_witness :
  exists s', buddy_module_init demo_km demo_g (0, demo_buddy) = Ok (0, (1, s')) /\ rest_pages s' = 6.
Proof.
  destruct (buddy_module_init_ok demo_km demo_g demo_buddy (boot_geometry _ _ demo_boot) demo_placed
    demo_buddy_fresh demo_buddy_mapped) as (s' & E & _ & F & _).
  exists s'. split; [exact E |]. rewrite F. vm_compute. reflexivity.
Defined.

(** ** Properties *)

(** C6: the buddy allocator is safe for every client.  After any sequence of
    allocations (of any order) and frees of owned blocks on a consistent
    allocator: a further allocation never faults, deadlocks or fails an
    assertion; it returns null, leaving the state as it is, exactly when the
    order is invalid or every pool of the order and above is empty; every owned
    block can be freed; owned blocks lie in the managed pages and are pairwise
    disjoint; and no page is lost: free pages plus owned pages stay constant. *)
Theorem buddy_client_safe km g s0 own s :
  buddy_wf km g s0 -> client km g s0 own s ->
  (forall o, exists r s', bkp_alloc km g o s = Ok (r, s') /\
     (r = None <-> ~ order_ok o \/ forall k, o <= k -> order_ok k -> pool_count s k = 0) /\
     (r = None -> s' = s)) /\
  (forall x o, (x, o) ∈ own -> exists s', bkp_free km g (Some x) s = Ok (tt, s')) /\
  (forall x o, (x, o) ∈ own -> 0 <= x /\ x + 2 ^ o <= PGFRAME_PAGE_NUMS km) /\
  (forall x ox y oy, (x, ox) ∈ own -> (y, oy) ∈ own -> x < y -> x + 2 ^ ox <= y) /\
  rest_pages s + owned_pages own = rest_pages s0.
Proof.
  intros Hwf Hc. destruct (client_invariant km g s0 own s Hwf Hc) as [W Ow N F].
  pose proof W as (G & Hpl & L & [B I FO]). split; [| split; [| split; [| split; [| done]]]].
  - intros o. destruct (bkp_alloc_cases km g ∅ s o W) as [[E Hn] | (Ho & x & s' & E & _ & [_ S _ _ _ _])].
    + exists None, s. done.
    + exists (Some x), s'. split; [done |]. split; [| done]. split; [done |].
      destruct S as (k & Hk & Hko & Hfr). intros [| Hz]; [done |]. specialize (Hz k Hk Hko).
      unfold pool_count in Hz. rewrite (pool_entry _ _ _ _ _ _ _ _ I k Hko) in Hz. simpl in Hz.
      apply (pool_free _ _ _ _ _ _ _ _ I k x Hko) in Hfr. destruct (L k); [by apply elem_of_nil in Hfr | done].
  - intros x o Hx. destruct (Ow x o Hx) as [Ho Hal].
    destruct (bkp_free_cases km g ∅ s x o W Ho Hal) as (s' & E & _). by exists s'.
  - intros x o Hx. destruct (Ow x o Hx) as [Ho Hal].
    destruct (allocated_head _ _ _ Hal Ho) as (p & Hp & Hh & Eo & _). pose proof (page_range _ _ _ _ _ B Hp).
    split; [lia |]. pose proof (head_tail _ _ _ _ _ B Hp Hh) as Ht. rewrite Eo in Ht. pose proof (pow_order o Ho).
    destruct (decide (2 ^ o = 1)); [lia |].
    destruct (Ht (x + 2 ^ o - 1) ltac:(lia)) as (q & Hq & _). apply (page_range _ _ _ _ _ B) in Hq. lia.
  - intros x ox y oy Hx Hy Hlt. destruct (Ow x ox Hx), (Ow y oy Hy). by apply (blocks_disjoint _ _ _ _ _ oy B).
Qed.

Lemma buddy_client_safe_witness :
  0 <= demo_page /\ demo_page + 2 <= 8 /\ rest_pages demo_used + owned_pages [(demo_page, 1)] = 6.
Proof.
  assert (Hc : client demo_km demo_g demo_ready [(demo_page, 1)] demo_used).
  { eapply client_alloc; [apply client_start | exact demo_alloc_run]. }
  destruct (buddy_client_safe demo_km demo_g demo_ready [(demo_page, 1)] demo_used demo_ready_wf Hc)
    as (_ & _ & Hr & _ & Hp).
  destruct (Hr demo_page 1 ltac:(by left)) as [H1 H2]. split; [exact H1 |]. split; [exact H2 |].
  rewrite Hp. vm_compute. reflexivity.
Defined.

(** C14: freeing an allocated block succeeds and coalesces: the block ends up
    inside of a free block whose neighbours at its own distance, before and
    after, are not free blocks of the same order (unless it has the largest
    order); the allocated and static descriptors and the memory are
    untouched, and the free pages grow by the size of the block. *)
Theorem bkp_free_coalesces km g s i o :
  buddy_wf km g s -> order_ok o -> allocated (pgs s) i o ->
  exists s', bkp_free km g (Some i) s = Ok (tt, s') /\ buddy_wf km g s' /\ takes_back s s' i o.
Proof. apply bkp_free_cases. Qed.

Lemma bkp_free_coalesces_witness :
  exists s', bkp_free demo_km demo_g (Some demo_page) demo_used = Ok (tt, s') /\
    rest_pages s' = rest_pages demo_used + 2 ^ 1.
Proof.
  destruct (bkp_alloc_some _ _ _ _ _ _ _ demo_ready_wf demo_alloc_run) as (_ & W & [A _ _ _ _ _]).
  destruct (bkp_free_coalesces demo_km demo_g demo_used demo_page 1 W ltac:(done) A) as (s' & E & _ & [_ F _ _ _]).
  exists s'. split; [exact E | exact F].
Defined.

(** A head that is neither free nor in other use is an allocated block. *)
Lemma taken_head km g Ext s i p : buddy_over km g Ext s -> pgs s !! i = Some p ->
  buddy_flags p = 2 -> pgtype p = PAGE_BUDDYALLOCATOR -> exists o, order_ok o /\ allocated (pgs s) i o.
Proof.
  intros (_ & _ & L & [B _ _]) Hp Hf Ht. exists (buddy_order p).
  destruct (blk_shape _ _ _ B i p Hp) as [E | [[[Ho _] _] | [[E _] _]]]; [lia | | lia].
  split; [done |]. by exists p.
Qed.

(** C32: freeing anything else is caught.  A null pointer is ignored; a
    descriptor outside of the array, a page that is not the head of an
    allocated block (a static page, the inside of a block, a free block: a
    double free) and a page in use by the slab or a vma fail an assertion, which
    stops the system.  Nothing else is refused: [bkp_free] returns exactly for
    the allocated blocks of the allocator. *)
Theorem bkp_free_misuse km g s :
  buddy_wf km g s ->
  bkp_free km g None s = Ok (tt, s) /\
  (forall i, - 2 ^ 31 <= i < 2 ^ 31 -> ~ 0 <= i < PGFRAME_PAGE_NUMS km ->
     bkp_free km g (Some i) s = Err AssertFailed) /\
  (forall i p, pgs s !! i = Some p -> buddy_flags p <> 2 \/ pgtype p <> PAGE_BUDDYALLOCATOR ->
     bkp_free km g (Some i) s = Err AssertFailed) /\
  (forall i, - 2 ^ 31 <= i < 2 ^ 31 ->
     (exists s', bkp_free km g (Some i) s = Ok (tt, s')) <-> (exists o, order_ok o /\ allocated (pgs s) i o)).
Proof.
  intros W. pose proof W as (G & _ & L & [B I FO]). split; [done |]. pose proof (geo_nums km G).
  assert (forall i, - 2 ^ 31 <= i < 2 ^ 31 -> ~ 0 <= i < PGFRAME_PAGE_NUMS km ->
    bkp_free km g (Some i) s = Err AssertFailed) as Hout.
  { intros i Hi Hn. unfold bkp_free. apply bind_Err. unfold ASSERT.
    destruct (pg_valid km i) eqn:E; [| done]. apply (id_valid_spec km G) in E; [| done]. done. }
  assert (forall i p, pgs s !! i = Some p -> buddy_flags p <> 2 \/ pgtype p <> PAGE_BUDDYALLOCATOR ->
    bkp_free km g (Some i) s = Err AssertFailed) as Hbad.
  { intros i p Hp Hbad. pose proof (page_range _ _ _ _ _ B Hp) as Hi.
    pose proof (blk_lk _ _ _ B i p Hp) as Hl. clear W Hout. destruct s as [[b P h] O m]. unfold pgs in *. simpl in *.
    change (mk_buddy (mk_frames b P h) O m) with (St b P h O m). unfold bkp_free.
    erewrite bind_Ok; [| apply ASSERT_Ok, (id_valid_spec km G); lia].
    bstep lock_pgfm_Ok. bstep get_page_Ok. apply bind_Err. unfold ASSERT, buddy_pgfm_freeable. simpl.
    case_bool_decide as Ht; [| done]. destruct (Z.eqb_spec (buddy_flags p) PG_BUDDY_FLAG_HEAD) as [Hf |]; [| done].
    change PG_BUDDY_FLAG_HEAD with 2 in Hf. by destruct Hbad. }
  do 2 (split; [done |]). intros i Hi. split; [intros (s' & E) | intros (o & Ho & Ha)].
  - destruct (decide (0 <= i < PGFRAME_PAGE_NUMS km)) as [Hr | Hr]; [| by rewrite Hout in E].
    destruct (proj2 (blk_dom _ _ _ B i) Hr) as [p Hp].
    destruct (decide (buddy_flags p = 2 /\ pgtype p = PAGE_BUDDYALLOCATOR)) as [[Hf Ht] | Hno]; [by eapply taken_head |].
    rewrite (Hbad i p Hp) in E; [done |]. apply not_and_l in Hno. tauto.
  - destruct (bkp_free_cases km g ∅ s i o W Ho Ha) as (s' & E & _). by exists s'.
Qed.

Lemma bkp_free_misuse_witness :
  bkp_free demo_km demo_g (Some 0) demo_ready = Err AssertFailed /\
  bkp_free demo_km demo_g (Some 9) demo_ready = Err AssertFailed /\
  exists o, order_ok o /\ allocated (pgs demo_used) demo_page o.
Proof.
  destruct (bkp_free_misuse demo_km demo_g demo_ready demo_ready_wf) as (_ & H1 & H2 & _). split; [| split].
  - destruct (pgs demo_ready !! 0) as [p|] eqn:E; [| by vm_compute in E].
    apply (H2 0 p E). left. vm_compute in E. injection E as <-. discriminate.
  - apply H1; [lia |]. change (PGFRAME_PAGE_NUMS demo_km) with 8. lia.
  - destruct (bkp_alloc_some _ _ _ _ _ _ _ demo_ready_wf demo_alloc_run) as (_ & W & [A _ _ _ _ _]).
    destruct (bkp_free_misuse demo_km demo_g demo_used W) as (_ & _ & _ & H3). apply H3.
    + by vm_compute.
    + destruct (bkp_free_cases _ _ _ _ _ 1 W ltac:(done) A) as (s' & E & _). by exists s'.
Defined.

(** C26: the address interface.  [bk_alloc_zero] returns 0 exactly when
    [bkp_alloc] fails, and otherwise the page-aligned virtual address of a block
    of managed memory that it has filled with zeros, nothing else in memory
    being written; [bk_free] of that address gives all its pages back. *)
Theorem bk_alloc_zero_free km g s o :
  buddy_wf km g s ->
  exists va s1, bk_alloc_zero km g o s = Ok (va, s1) /\
  ((va = NULL /\ s1 = s /\ bkp_alloc km g o s = Ok (None, s)) \/
   order_ok o /\ va mod 4096 = 0 /\ PGFRAME_VA_START km <= va /\
   va + 4096 * 2 ^ o <= PGFRAME_VA_START km + PGFRAME_SIZE km /\
   (forall a, memory s1 a = if decide (va <= a < va + 4096 * 2 ^ o) then 0 else memory s a) /\
   buddy_wf km g s1 /\
   exists s2, bk_free km g va s1 = Ok (tt, s2) /\ buddy_wf km g s2 /\
     rest_pages s2 = rest_pages s /\ memory s2 = memory s1).
Proof.
  intros W. pose proof W as (G & _). unfold bk_alloc_zero, bk_alloc.
  destruct (bkp_alloc_cases km g ∅ s o W) as [[E _] | (Ho & x & s' & E & W' & Hh)];
    rewrite bind_bind, (bind_Ok _ _ _ _ _ E); [exists NULL, s; split; [done | by left] |].
  destruct (hands_out_range km g _ s s' x o W' Ho Hh) as [Hx0 Hx1]. pose proof (pow_order o Ho).
  pose proof G as [Hpa Hva Hend _ Hal Hsz Hn].
  unfold bind at 1, ret at 1. rewrite (pg2va_eq km G) by lia. unfold when, modify, bind, ret.
  rewrite (proj2 (Z.eqb_neq _ NULL)) by (unfold NULL; lia). cbn [negb].
  eexists _, _. split; [reflexivity |]. right. rewrite fill_size by done. destruct Hh as [A _ K F M _].
  split; [done |]. split; [rewrite (Z.mul_comm 4096), Z.mod_add by lia; done |]. do 2 (split; [lia |]). split.
  { intros a. simpl. unfold fill. rewrite M. case_decide; destruct (Z.leb_spec (PGFRAME_VA_START km + 4096 * x) a),
      (Z.ltb_spec a (PGFRAME_VA_START km + 4096 * x + 4096 * 2 ^ o)); simpl; try done; lia. }
  split; [by apply buddy_over_memory |]. unfold bk_free.
  rewrite (proj2 (Z.eqb_neq _ NULL)) by (unfold NULL; lia).
  rewrite (proj2 (va_valid_spec km G _)) by lia. simpl orb. cbn iota.
  rewrite <- (pg2va_eq km G), (va2pg_pg2va km G) by lia.
  destruct (bkp_free_cases km g ∅ (set_memory (fill (pg2va km x) (4096 * 2 ^ o) 0 (memory s')) s') x o)
    as (s2 & E2 & W2 & [_ F2 _ M2 _]); [by apply buddy_over_memory | done | exact A |].
  exists s2. split; [exact E2 |]. split; [done |]. split; [| done]. rewrite F2.
  change (rest_pages (set_memory _ s')) with (rest_pages s'). lia.
Qed.

Lemma bk_alloc_zero_free_witness :
  exists va s1, bk_alloc_zero demo_km demo_g 2 demo_ready = Ok (va, s1) /\
    memory s1 va = 0 /\ memory demo_ready 0x3000002000 = 7.
Proof.
  destruct (bk_alloc_zero_free demo_km demo_g demo_ready 2 demo_ready_wf)
    as (va & s1 & E & [(_ & _ & E1) | (_ & _ & _ & _ & Hm & _)]).
  - exfalso. vm_compute in E1. discriminate.
  - exists va, s1. split; [exact E |]. split; [| vm_compute; reflexivity].
    rewrite Hm, decide_True; [reflexivity | lia].
Defined.

(** The self check of the allocator succeeds on every consistent state
    and changes nothing: the block sizes, the counts and the orders of the
    listed blocks agree, and it releases every lock it takes. *)
Lemma buddy_slfcheck_ok km g s : buddy_wf km g s -> buddy_slfcheck g s = Ok (0, s).
Proof.
  intros (G & Hpl & L & Inv). pose proof Inv as [B I FO]. unfold buddy_slfcheck.
  assert (Hloop : forall f : unit -> Z -> M buddy (step unit Z),
    (forall i, order_ok i -> f tt i s = Ok (Next tt, s)) ->
    for_up (Z.to_nat MAX_ORDER) 0 f tt s = Ok (Next tt, s)).
  { intros f Hf. destruct (for_up_ind f (fun i (_ : unit) s' => 0 <= i /\ s' = s) (fun _ _ => False) MAX_ORDER)
      with (n := Z.to_nat MAX_ORDER) (i := 0) (a := tt) (s := s) as (r & s' & E & Hr); [| done | done |].
    - intros i [] s' Hi [H0 ->]. exists (Next tt), s. split; [by apply Hf | split; [lia | done]].
    - rewrite E. destruct r as [[] |]; [| done]. by destruct Hr as [_ ->]. }
  refine (eq_trans (bind_Ok _ _ s (Next tt) s _) eq_refl). apply Hloop. intros i Ho. clear Hloop.
  pose proof (pool_entry _ _ _ _ _ _ _ _ I i Ho) as Hpo.
  pose proof (check_pool_ring km g ∅ s i L Inv Ho G Hpl) as Hring.
  destruct s as [[b P h] O m]. unfold base, pgs, nds in *. cbn [frames_of pgframe_pages pages nodes order_pools] in *.
  change (mk_buddy (mk_frames b P h) O m) with (St b P h O m).
  bstep lock_pool_Ok. bstep load_pool_Ok. cbn [with_pool_lk rest_block_num block_size].
  rewrite Z.shiftl_mul_pow2, Z.mul_1_l, PAGE_SIZE_eq, (Z.mul_comm (2 ^ i)), Z.eqb_refl by apply Ho. cbn [negb].
  rewrite (bind_Ok _ _ _ _ _ (on_nodes_Ok _ _ _ _ _ _ _ _
    (dlists_first _ _ _ _ (pool_rings _ _ _ _ _ _ _ _ I) (ring_at_pool _ _ _ L i Ho)))).
  erewrite (bind_Ok (gets (fun s => list_fuel (nodes (frames_of s)))));
    [| reflexivity]. cbn [frames_of nodes St].
  rewrite (bind_Ok _ _ _ _ _ (get_base_Ok _ _ _ _ _)).
  rewrite (bind_Ok _ _ _ _ _ (Hring (St b P h _ m) eq_refl)). cbn [Z.eqb negb orb].
  bstep unlock_pool_Ok. unfold ret. do 2 f_equal. apply St_eq; [done |].
  rewrite insert_insert_eq. by apply insert_id.
Qed.

Lemma buddy_slfcheck_ok_witness : buddy_slfcheck demo_g demo_ready = Ok (0, demo_ready).
Proof. exact (buddy_slfcheck_ok demo_km demo_g demo_ready demo_ready_wf). Defined.

(** The self check of the page descriptors walks the whole array and
    returns 0 on a consistent allocator as long as no page belongs to a vma;
    with the first page of a vma it stops with -EFAULT, although the page is
    in order.  It leaves the descriptors as they are, locks included. *)
Lemma pages_slfcheck_result km g s :
  buddy_wf km g s ->
  pages_slfcheck km (frames_of s)
  = Ok (if decide (map_Forall (fun _ p => pgtype p <> VMA_AREA) (pgs s)) then 0 else - EFAULT, frames_of s).
Proof.
  intros (G & _ & L & [B _]). pose proof (geo_nums km G). set (f := frames_of s). unfold pgs in *. fold f in B |- *.
  unfold pages_slfcheck.
  match goal with |- bind (for_up _ _ ?body _) _ _ = _ =>
    destruct (for_up_ind body (fun i bef s' => 0 <= i /\ s' = f /\ counted (pages f) i bef /\
        forall j p, pages f !! j = Some p -> j < i -> pgtype p <> VMA_AREA)
      (fun r s' => r = - EFAULT /\ s' = f /\ exists j p, pages f !! j = Some p /\ pgtype p = VMA_AREA)
      (PGFRAME_PAGE_NUMS km))
      with (n := Z.to_nat (PGFRAME_PAGE_NUMS km)) (i := 0) (a := -233333) (s := f) as (r & s' & E & Hr)
  end.
  - intros i bef s' Hi (H0 & -> & Hc & Hv). destruct (proj2 (blk_dom _ _ _ B i) ltac:(lia)) as [p Hp].
    destruct (lock_unlock_page f i p Hp (blk_lk _ _ _ B i p Hp)) as (s1 & E1 & E2 & E3).
    rewrite (bind_Ok _ _ _ _ _ E1), (bind_Ok _ _ _ _ _ E2), (bind_Ok _ _ _ _ _ E3).
    change (check_page (with_lk 0 p) bef) with (check_page p bef).
    destruct (decide (pgtype p = VMA_AREA)) as [Ht | Ht].
    + exists (Return (- EFAULT)), f. split; [unfold check_page; by rewrite Ht |]. eauto 10.
    + destruct (counted_step _ _ i p bef B Hp Ht Hc) as (bef' & Ec & Hc'). exists (Next bef'), f.
      split; [by rewrite Ec |]. split; [lia |]. split; [done |]. split; [done |].
      intros j q Hj Hlt. destruct (decide (j = i)) as [-> |]; [by simplify_eq | apply (Hv j q Hj); lia].
  - lia.
  - split; [done |]. split; [done |]. split; [| intros j p Hj Hlt; apply (page_range _ _ _ _ _ B) in Hj; lia].
    left. split; [done |]. intros k p Hk _. apply (page_range _ _ _ _ _ B) in Hk. lia.
  - mstep E. case_decide as Hd; destruct r as [bef | r]; unfold ret.
    + by destruct Hr as (_ & -> & _).
    + exfalso. destruct Hr as (_ & _ & j & p & Hj & Ht). by apply (Hd j p).
    + exfalso. destruct Hr as (_ & _ & _ & Hv). apply Hd. intros j p Hj. apply (Hv j p Hj).
      apply (page_range _ _ _ _ _ B) in Hj. lia.
    + by destruct Hr as (-> & -> & _).
Qed.

Lemma pages_slfcheck_result_witness :
  pages_slfcheck demo_km (frames_of demo_ready) = Ok (0, frames_of demo_ready).
Proof.
  rewrite (pages_slfcheck_result demo_km demo_g demo_ready demo_ready_wf).
  rewrite decide_True; [reflexivity |]. apply (bool_decide_unpack _). vm_compute. exact I.
Defined.

Definition order_of_spec (p r : Z) : bool :=
  if r =? -1 then negb (existsb (fun o => 2 ^ o =? p) (seqZ 0 MAX_ORDER))
  else (0 <=? r) && (r <? MAX_ORDER) && (2 ^ r =? p).

Lemma land_multiple k i : 0 <= i < 6 -> Z.land (64 * k) (Z.shiftl 1 i) = 0.
Proof.
  intros Hi. rewrite Z.shiftl_mul_pow2, Z.mul_1_l by lia. apply Z.bits_inj'. intros j Hj.
  rewrite Z.land_spec, Z.pow2_bits_eqb, Z.bits_0 by lia.
  destruct (Z.eqb_spec i j) as [<- |]; [| apply andb_false_r].
  change 64 with (2 ^ 6). by rewrite Z.mul_comm, Z.mul_pow2_bits_low by lia.
Qed.

(** Below 64 pages [PGNUM2ORDER] inverts [ORDER2PGNUM] on the powers of two
    and rejects everything else with -1.  The loop only looks at the bits below
    [MAX_ORDER], so every multiple of 64 pages is answered with order 0 (one
    page) instead of an error. *)
Lemma PGNUM2ORDER_spec :
  (forall o, order_ok o -> PGNUM2ORDER (ORDER2PGNUM o) = o) /\
  (forall p, 0 < p < 64 -> order_of_spec p (PGNUM2ORDER p) = true) /\
  (forall p, p <= 0 -> PGNUM2ORDER p = -1) /\
  (forall k, 0 < k -> PGNUM2ORDER (64 * k) = 0).
Proof.
  assert (Hall : forall p, 0 < p < 64 -> order_of_spec p (PGNUM2ORDER p) = true).
  { intros p Hp. assert (Hf : forallb (fun p => order_of_spec p (PGNUM2ORDER p)) (seqZ 1 63) = true)
      by (vm_compute; reflexivity).
    rewrite forallb_forall in Hf. apply Hf, list_elem_of_In, elem_of_seqZ. lia. }
  split; [| split; [done | split]].
  - intros o Ho. pose proof (pow_order o Ho). rewrite ORDER2PGNUM_eq by apply Ho.
    specialize (Hall (2 ^ o) ltac:(lia)). unfold order_of_spec in Hall.
    destruct (Z.eqb_spec (PGNUM2ORDER (2 ^ o)) (-1)) as [_ | _].
    + exfalso. apply negb_true_iff in Hall.
      assert (Hex : existsb (fun x => 2 ^ x =? 2 ^ o) (seqZ 0 MAX_ORDER) = true); [| congruence].
      apply existsb_exists. exists o. split; [| apply Z.eqb_refl].
      apply list_elem_of_In, elem_of_seqZ. apply Ho.
    + rewrite !andb_true_iff, Z.leb_le, Z.eqb_eq in Hall. destruct Hall as [[Hr _] Hall].
      destruct Ho. by apply (Z.pow_inj_r 2).
  - intros p Hp. unfold PGNUM2ORDER. by rewrite (proj2 (Z.leb_le p 0) Hp).
  - intros k Hk. unfold PGNUM2ORDER. rewrite (proj2 (Z.leb_gt (64 * k) 0)) by lia.
    change (Z.to_nat MAX_ORDER) with 6%nat. cbn [for_up].
    repeat (rewrite land_multiple by lia; cbn [Z.eqb negb]; unfold bind at 1, ret at 1; cbn beta iota).
    reflexivity.
Qed.
