(* ===== verification/Avl.v ===== *)
(** * AVL trees: the code

    [include/aco/avlmini.h] and [lib/dstructer/avlmini.c].  Nodes live in a
    memory keyed by their address; the state of an operation is that memory
    and the pointer [root->node] of the tree it works on.  A heights is a C
    [int]; [AvlSpec.avl_height] bounds it by the number of nodes, so it is
    written as an unbounded integer here. *)
From S2P Require Import Prelude.

(** [src/include/aco/avlmini.h:29-35 struct avl_node] *)
Record avl_node := mk_avl { left : Z; right : Z; parent : Z; height : Z }.

(** [src/include/aco/avlmini.h:37-40 struct avl_root] The root pointer, with
    the memory of the nodes. *)
Record avl := mk_avl_state { nmem : gmap Z avl_node; node : Z }.

Definition set_mem (m : gmap Z avl_node) (s : avl) : avl := mk_avl_state m (node s).

Definition at_node (p : Z) : M avl avl_node := zoom nmem set_mem (load p).
Definition get_left (p : Z) : M avl Z := n ← at_node p; ret (left n).
Definition get_right (p : Z) : M avl Z := n ← at_node p; ret (right n).
Definition get_parent (p : Z) : M avl Z := n ← at_node p; ret (parent n).
Definition get_height (p : Z) : M avl Z := n ← at_node p; ret (height n).

Definition upd_node (p : Z) (f : avl_node -> avl_node) : M avl unit := zoom nmem set_mem (update p f).
Definition set_left (p v : Z) : M avl unit :=
  upd_node p (fun n => mk_avl v (right n) (parent n) (height n)).
Definition set_right (p v : Z) : M avl unit :=
  upd_node p (fun n => mk_avl (left n) v (parent n) (height n)).
Definition set_parent (p v : Z) : M avl unit :=
  upd_node p (fun n => mk_avl (left n) (right n) v (height n)).
Definition set_height (p v : Z) : M avl unit :=
  upd_node p (fun n => mk_avl (left n) (right n) (parent n) v).

Definition get_root : M avl Z := gets node.
Definition set_root (v : Z) : M avl unit := modify (fun s => mk_avl_state (nmem s) v).

(** A pointer used as a condition. *)
Definition nz (p : Z) : bool := negb (p =? NULL).

(** [src/include/aco/avlmini.h:57-57 avl_node_init] *)
Definition avl_node_init (n : Z) : M avl unit := set_parent n n.
(** [src/include/aco/avlmini.h:58-58 avl_node_empty] *)
Definition avl_node_empty (n : Z) : M avl bool := p ← get_parent n; ret (p =? n).
(** [src/include/aco/avlmini.h:60-60 avl_root_init] *)
Definition avl_root_init : M avl unit := set_root NULL.
(** [src/include/aco/avlmini.h:61-61 avl_root_empty] *)
Definition avl_root_empty : M avl bool := r ← get_root; ret (r =? NULL).
(** [src/include/aco/avlmini.h:63-63 AVL_LEFT_HEIGHT] *)
Definition AVL_LEFT_HEIGHT (n : Z) : M avl Z :=
  l ← get_left n; if nz l then get_height l else ret 0.
(** [src/include/aco/avlmini.h:64-64 AVL_RIGHT_HEIGHT] *)
Definition AVL_RIGHT_HEIGHT (n : Z) : M avl Z :=
  r ← get_right n; if nz r then get_height r else ret 0.

(** ** Walking *)

(** [while(node->left) node = node->left] *)
Fixpoint leftmost (fuel : nat) (n : Z) : M avl Z :=
  match fuel with
  | O => fail NoFuel
  | S fuel => l ← get_left n; if nz l then leftmost fuel l else ret n
  end.

(** [while(node->right) node = node->right] *)
Fixpoint rightmost (fuel : nat) (n : Z) : M avl Z :=
  match fuel with
  | O => fail NoFuel
  | S fuel => r ← get_right n; if nz r then rightmost fuel r else ret n
  end.

(** The loops below make at most one round per node in memory. *)
Definition avl_fuel : M avl nat := gets (fun s => S (size (nmem s))).

(** [src/lib/dstructer/avlmini.c:8-15 avl_node_first] *)
Definition avl_node_first : M avl Z :=
  n ← get_root;
  if n =? NULL then ret NULL
  else fuel ← avl_fuel; leftmost fuel n.

(** [src/lib/dstructer/avlmini.c:17-24 avl_node_last] *)
Definition avl_node_last : M avl Z :=
  n ← get_root;
  if n =? NULL then ret NULL
  else fuel ← avl_fuel; rightmost fuel n.

(** [src/lib/dstructer/avlmini.c:35-41 avl_node_next (climb)] Up to the first
    ancestor that is left through its left link. *)
Fixpoint climb_next (fuel : nat) (n : Z) : M avl Z :=
  match fuel with
  | O => fail NoFuel
  | S fuel =>
    p ← get_parent n;
    if p =? NULL then ret NULL
    else l ← get_left p; if l =? n then ret p else climb_next fuel p
  end.

(** [src/lib/dstructer/avlmini.c:26-43 avl_node_next] *)
Definition avl_node_next (n : Z) : M avl Z :=
  if n =? NULL then ret NULL
  else
    r ← get_right n;
    fuel ← avl_fuel;
    if nz r then leftmost fuel r else climb_next fuel n.

(** [src/lib/dstructer/avlmini.c:54-60 avl_node_prev (climb)] *)
Fixpoint climb_prev (fuel : nat) (n : Z) : M avl Z :=
  match fuel with
  | O => fail NoFuel
  | S fuel =>
    p ← get_parent n;
    if p =? NULL then ret NULL
    else r ← get_right p; if r =? n then ret p else climb_prev fuel p
  end.

(** [src/lib/dstructer/avlmini.c:45-62 avl_node_prev] *)
Definition avl_node_prev (n : Z) : M avl Z :=
  if n =? NULL then ret NULL
  else
    l ← get_left n;
    fuel ← avl_fuel;
    if nz l then rightmost fuel l else climb_prev fuel n.

(** ** Links and rotations *)

(** [src/lib/dstructer/avlmini.c:64-76 _avl_child_replace] *)
Definition _avl_child_replace (oldnode newnode parent : Z) : M avl unit :=
  if nz parent then
    l ← get_left parent;
    if l =? oldnode then set_left parent newnode else set_right parent newnode
  else set_root newnode.

(** [src/lib/dstructer/avlmini.c:78-92 _avl_node_rotate_left] *)
Definition _avl_node_rotate_left (n : Z) : M avl Z :=
  right ← get_right n;
  parent ← get_parent n;
  rl ← get_left right;
  set_right n rl;;
  ASSERT (nz n && nz right);;
  rl ← get_left right;
  when (nz rl) (set_parent rl n);;
  set_left right n;;
  set_parent right parent;;
  _avl_child_replace n right parent;;
  set_parent n right;;
  ret right.

(** [src/lib/dstructer/avlmini.c:94-108 _avl_node_rotate_right] *)
Definition _avl_node_rotate_right (n : Z) : M avl Z :=
  left ← get_left n;
  parent ← get_parent n;
  lr ← get_right left;
  set_left n lr;;
  ASSERT (nz n && nz left);;
  lr ← get_right left;
  when (nz lr) (set_parent lr n);;
  set_right left n;;
  set_parent left parent;;
  _avl_child_replace n left parent;;
  set_parent n left;;
  ret left.

(** [src/lib/dstructer/avlmini.c:110-121 avl_node_replace] *)
Definition avl_node_replace (victim newnode : Z) : M avl unit :=
  parent ← get_parent victim;
  _avl_child_replace victim newnode parent;;
  l ← get_left victim;
  when (nz l) (set_parent l newnode);;
  r ← get_right victim;
  when (nz r) (set_parent r newnode);;
  l ← get_left victim; set_left newnode l;;
  r ← get_right victim; set_right newnode r;;
  p ← get_parent victim; set_parent newnode p;;
  h ← get_height victim; set_height newnode h.

(** [src/lib/dstructer/avlmini.c:128-131 AVL_MAX] *)
Definition AVL_MAX (x y : Z) : Z := if x <? y then y else x.

(** [src/lib/dstructer/avlmini.c:133-139 _avl_node_height_update] *)
Definition _avl_node_height_update (n : Z) : M avl unit :=
  h0 ← AVL_LEFT_HEIGHT n;
  h1 ← AVL_RIGHT_HEIGHT n;
  set_height n (AVL_MAX h0 h1 + 1).

(** [src/lib/dstructer/avlmini.c:141-159 _avl_node_fix_l] *)
Definition _avl_node_fix_l (n : Z) : M avl Z :=
  right ← get_right n;
  ASSERT (nz right);;
  rh0 ← AVL_LEFT_HEIGHT right;
  rh1 ← AVL_RIGHT_HEIGHT right;
  when (rh1 <? rh0)
    (right ← _avl_node_rotate_right right;
     rr ← get_right right;
     _avl_node_height_update rr;;
     _avl_node_height_update right);;
  n ← _avl_node_rotate_left n;
  nl ← get_left n;
  _avl_node_height_update nl;;
  _avl_node_height_update n;;
  ret n.

(** [src/lib/dstructer/avlmini.c:161-179 _avl_node_fix_r] *)
Definition _avl_node_fix_r (n : Z) : M avl Z :=
  left ← get_left n;
  ASSERT (nz left);;
  rh0 ← AVL_LEFT_HEIGHT left;
  rh1 ← AVL_RIGHT_HEIGHT left;
  when (rh0 <? rh1)
    (left ← _avl_node_rotate_left left;
     ll ← get_left left;
     _avl_node_height_update ll;;
     _avl_node_height_update left);;
  n ← _avl_node_rotate_right n;
  nr ← get_right n;
  _avl_node_height_update nr;;
  _avl_node_height_update n;;
  ret n.

(** [src/lib/dstructer/avlmini.c:181-205 _avl_node_rebalance] *)
Fixpoint _avl_node_rebalance (fuel : nat) (n : Z) : M avl unit :=
  match fuel with
  | O => fail NoFuel
  | S fuel =>
    if nz n then
      h0 ← AVL_LEFT_HEIGHT n;
      h1 ← AVL_RIGHT_HEIGHT n;
      let diff := h0 - h1 in
      let height := AVL_MAX h0 h1 + 1 in
      nh ← get_height n;
      if (nh =? height) && (-1 <=? diff) && (diff <=? 1) then ret tt
      else
        when (negb (nh =? height)) (set_height n height);;
        n ← (if diff <=? -2 then _avl_node_fix_l n
             else if 2 <=? diff then _avl_node_fix_r n
             else ret n);
        p ← get_parent n;
        _avl_node_rebalance fuel p
    else ret tt
  end.

(** [src/lib/dstructer/avlmini.c:213-228 avl_node_post_insert (loop)] *)
Fixpoint post_insert_loop (fuel : nat) (n : Z) : M avl unit :=
  match fuel with
  | O => fail NoFuel
  | S fuel =>
    if nz n then
      h0 ← AVL_LEFT_HEIGHT n;
      h1 ← AVL_RIGHT_HEIGHT n;
      let height := AVL_MAX h0 h1 + 1 in
      let diff := h0 - h1 in
      nh ← get_height n;
      if nh =? height then ret tt
      else
        set_height n height;;
        n ← (if diff <=? -2 then _avl_node_fix_l n
             else if 2 <=? diff then _avl_node_fix_r n
             else ret n);
        p ← get_parent n;
        post_insert_loop fuel p
    else ret tt
  end.

(** [src/lib/dstructer/avlmini.c:207-230 avl_node_post_insert] *)
Definition avl_node_post_insert (n : Z) : M avl unit :=
  set_height n 1;;
  p ← get_parent n;
  fuel ← avl_fuel;
  post_insert_loop fuel p.

(** [src/lib/dstructer/avlmini.c:236-271 avl_node_erase (unlinking)] Takes
    [n], with children [l] and [r], out of the tree; the result is the lowest
    node whose subtree lost height. *)
Definition erase_unlink (fuel : nat) (n l r : Z) : M avl Z :=
  if nz l && nz r then
    let old := n in
    n ← leftmost fuel r;
    child ← get_right n;
    parent ← get_parent n;
    when (nz child) (set_parent child parent);;
    _avl_child_replace n child parent;;
    np ← get_parent n;
    let parent := if np =? old then n else parent in
    ol ← get_left old; set_left n ol;;
    or ← get_right old; set_right n or;;
    op ← get_parent old; set_parent n op;;
    oh ← get_height old; set_height n oh;;
    op ← get_parent old;
    _avl_child_replace old n op;;
    ol ← get_left old;
    ASSERT (nz ol);;
    set_parent ol n;;
    or ← get_right old;
    when (nz or) (set_parent or n);;
    ret parent
  else
    let child := if l =? NULL then r else l in
    parent ← get_parent n;
    _avl_child_replace n child parent;;
    when (nz child) (set_parent child parent);;
    ret parent.

(** [src/lib/dstructer/avlmini.c:232-275 avl_node_erase] *)
Definition avl_node_erase (n : Z) : M avl unit :=
  ASSERT (nz n);;
  fuel ← avl_fuel;
  l ← get_left n;
  r ← get_right n;
  parent ← erase_unlink fuel n l r;
  if nz parent then _avl_node_rebalance fuel parent else ret tt.

(** [src/lib/dstructer/avlmini.c:288-293 avl_node_tear (descent)] *)
Fixpoint sink (fuel : nat) (n : Z) : M avl Z :=
  match fuel with
  | O => fail NoFuel
  | S fuel =>
    l ← get_left n;
    if nz l then sink fuel l
    else r ← get_right n; if nz r then sink fuel r else ret n
  end.

(** [src/lib/dstructer/avlmini.c:279-309 avl_node_tear] The result and the new
    value of [*next]. *)
Definition avl_node_tear (next : Z) : M avl (Z * Z) :=
  root ← get_root;
  if (next =? NULL) && (root =? NULL) then ret (NULL, next)
  else
    fuel ← avl_fuel;
    n ← sink fuel (if next =? NULL then root else next);
    parent ← get_parent n;
    if parent =? NULL then
      set_root NULL;;
      ret (n, NULL)
    else
      pl ← get_left parent;
      (if pl =? n then set_left parent NULL else set_right parent NULL);;
      set_height n 0;;
      ret (n, parent).

(** ** Searching and linking *)

(** The field a [struct avl_node **link] points to. *)
Inductive link := RootLink | LeftLink (p : Z) | RightLink (p : Z).

Definition read_link (l : link) : M avl Z :=
  match l with
  | RootLink => get_root
  | LeftLink p => get_left p
  | RightLink p => get_right p
  end.
Definition write_link (l : link) (v : Z) : M avl unit :=
  match l with
  | RootLink => set_root v
  | LeftLink p => set_left p v
  | RightLink p => set_right p v
  end.

(** [src/include/aco/avlmini.h:83-89 avl_node_link] *)
Definition avl_node_link (n parent : Z) (avl_link : link) : M avl unit :=
  set_parent n parent;;
  set_height n 0;;
  set_right n NULL;;
  set_left n NULL;;
  write_link avl_link n.

(** The search loop of [avl_node_find], [avl_tree_find] and
    [avl_tree_nearest]: [cmp] compares the key with a node.  The result is the
    last node visited and whether it is equal. *)
Fixpoint search (fuel : nat) (cmp : Z -> Z) (n last : Z) : M avl (Z * bool) :=
  match fuel with
  | O => fail NoFuel
  | S fuel =>
    if nz n then
      let hr := cmp n in
      if hr =? 0 then ret (n, true)
      else if hr <? 0 then l ← get_left n; search fuel cmp l n
      else r ← get_right n; search fuel cmp r n
    else ret (last, false)
  end.

(** [src/include/aco/avlmini.h:103-112 avl_node_find] *)
Definition avl_node_find (cmp : Z -> Z) : M avl Z :=
  n ← get_root;
  fuel ← avl_fuel;
  '(r, found) ← search fuel cmp n NULL;
  ret (if found : bool then r else NULL).

(** [src/include/aco/avlmini.h:120-126 avl_node_add (descent)] Returns the
    parent, the link to fill and the duplicate. *)
Fixpoint descend (fuel : nat) (cmp : Z -> Z) (l : link) (parent : Z) : M avl (Z * link * Z) :=
  match fuel with
  | O => fail NoFuel
  | S fuel =>
    n ← read_link l;
    if nz n then
      let hr := cmp n in
      if hr =? 0 then ret (n, l, n)
      else if hr <? 0 then descend fuel cmp (LeftLink n) n
      else descend fuel cmp (RightLink n) n
    else ret (parent, l, NULL)
  end.

(** [src/include/aco/avlmini.h:115-132 avl_node_add] Returns the duplicate. *)
Definition avl_node_add (newnode : Z) (cmp : Z -> Z) : M avl Z :=
  fuel ← avl_fuel;
  '(parent, l, duplicate) ← descend fuel cmp RootLink NULL;
  when (duplicate =? NULL)
    (avl_node_link newnode parent l;;
     avl_node_post_insert newnode);;
  ret duplicate.

(** ** The [avl_tree] interface

    User data is named by its address; a node sits [offset] bytes into it.
    [compare] is the callback of [tree->compare]: the keys it reads are not
    changed by the operations. *)

(** [src/include/aco/avlmini.h:139-147 struct avl_tree] *)
Record avl_tree := mk_tree { root : avl; offset : Z; tsize : Z; count : Z }.

Definition on_root {A} (m : M avl A) : M avl_tree A :=
  zoom root (fun r t => mk_tree r (offset t) (tsize t) (count t)) m.
Definition set_count (f : Z -> Z) : M avl_tree unit :=
  modify (fun t => mk_tree (root t) (offset t) (tsize t) (u64 (f (count t)))).

(** [src/include/aco/avlmini.h:51-51 AVL_NODE2DATA] *)
Definition AVL_NODE2DATA (n o : Z) : Z := u64 (n - o).
(** [src/include/aco/avlmini.h:52-52 AVL_DATA2NODE] *)
Definition AVL_DATA2NODE (d o : Z) : Z := u64 (d + o).

(** [src/lib/dstructer/avlmini.c:317-325 avl_tree_init] *)
Definition avl_tree_init (size off : Z) : M avl_tree unit :=
  modify (fun t => mk_tree (mk_avl_state (nmem (root t)) NULL) off size 0).

(** [src/lib/dstructer/avlmini.c:328-333 avl_tree_first] *)
Definition avl_tree_first : M avl_tree Z :=
  n ← on_root avl_node_first;
  o ← gets offset;
  ret (if n =? NULL then NULL else AVL_NODE2DATA n o).

(** [src/lib/dstructer/avlmini.c:335-340 avl_tree_last] *)
Definition avl_tree_last : M avl_tree Z :=
  n ← on_root avl_node_last;
  o ← gets offset;
  ret (if n =? NULL then NULL else AVL_NODE2DATA n o).

(** [src/lib/dstructer/avlmini.c:342-350 avl_tree_next] *)
Definition avl_tree_next (data : Z) : M avl_tree Z :=
  if data =? NULL then ret NULL
  else
    o ← gets offset;
    nn ← on_root (avl_node_next (AVL_DATA2NODE data o));
    ret (if nn =? NULL then NULL else AVL_NODE2DATA nn o).

(** [src/lib/dstructer/avlmini.c:352-360 avl_tree_prev] *)
Definition avl_tree_prev (data : Z) : M avl_tree Z :=
  if data =? NULL then ret NULL
  else
    o ← gets offset;
    nn ← on_root (avl_node_prev (AVL_DATA2NODE data o));
    ret (if nn =? NULL then NULL else AVL_NODE2DATA nn o).

(** [src/lib/dstructer/avlmini.c:364-383 avl_tree_find] The local [offset] is
    an [int]. *)
Definition avl_tree_find (compare : Z -> Z -> Z) (data : Z) : M avl_tree Z :=
  o ← gets offset;
  let offset := s32 o in
  on_root (n ← get_root;
           fuel ← avl_fuel;
           '(r, found) ← search fuel (fun n => compare data (AVL_NODE2DATA n offset)) n NULL;
           ret (if found : bool then AVL_NODE2DATA r offset else NULL)).

(** [src/lib/dstructer/avlmini.c:386-407 avl_tree_nearest] *)
Definition avl_tree_nearest (compare : Z -> Z -> Z) (data : Z) : M avl_tree Z :=
  o ← gets offset;
  let offset := s32 o in
  on_root (n ← get_root;
           fuel ← avl_fuel;
           '(p, _) ← search fuel (fun n => compare data (AVL_NODE2DATA n offset)) n NULL;
           ret (if nz p then AVL_NODE2DATA p offset else NULL)).

(** [src/lib/dstructer/avlmini.c:411-439 avl_tree_add] *)
Definition avl_tree_add (compare : Z -> Z -> Z) (data : Z) : M avl_tree Z :=
  o ← gets offset;
  let n := AVL_DATA2NODE data o in
  let offset := s32 o in
  '(parent, l, dup) ← on_root (
    fuel ← avl_fuel;
    descend fuel (fun n => compare data (AVL_NODE2DATA n offset)) RootLink NULL);
  if nz dup then ret (AVL_NODE2DATA dup offset)
  else
    on_root (avl_node_link n parent l);;
    on_root (avl_node_post_insert n);;
    set_count (fun c => c + 1);;
    ret NULL.

(** [src/lib/dstructer/avlmini.c:442-450 avl_tree_remove] *)
Definition avl_tree_remove (data : Z) : M avl_tree unit :=
  o ← gets offset;
  let n := AVL_DATA2NODE data o in
  empty ← on_root (avl_node_empty n);
  when (negb empty)
    (on_root (avl_node_erase n);;
     on_root (avl_node_init n);;
     set_count (fun c => c - 1)).

(** [src/lib/dstructer/avlmini.c:453-459 avl_tree_replace] *)
Definition avl_tree_replace (victim newdata : Z) : M avl_tree unit :=
  o ← gets offset;
  let vicnode := AVL_DATA2NODE victim o in
  let newnode := AVL_DATA2NODE newdata o in
  on_root (avl_node_replace vicnode newnode);;
  on_root (set_parent vicnode vicnode).

(** [destroy] is a function of the client: it runs on the tree and on a state
    of the client's own, [T]. *)
Section clear.
Context {T : Type}.

Definition on_tree {A} (m : M avl_tree A) : M (avl_tree * T) A :=
  zoom fst (fun t s => (t, snd s)) m.

(** [src/lib/dstructer/avlmini.c:466-473 avl_tree_clear (loop)] *)
Fixpoint clear_loop (fuel : nat) (destroy : option (Z -> M (avl_tree * T) unit)) (next : Z) :
    M (avl_tree * T) unit :=
  match fuel with
  | O => fail NoFuel
  | S fuel =>
    '(n, next) ← on_tree (on_root (avl_node_tear next));
    if n =? NULL then ret tt
    else
      o ← on_tree (gets offset);
      let data := AVL_NODE2DATA n o in
      on_tree (on_root (set_parent n n));;
      on_tree (set_count (fun c => c - 1));;
      match destroy with Some destroy => destroy data | None => ret tt end;;
      clear_loop fuel destroy next
  end.

(** [src/lib/dstructer/avlmini.c:462-474 avl_tree_clear] [destroy] may be
    NULL. *)
Definition avl_tree_clear (destroy : option (Z -> M (avl_tree * T) unit)) : M (avl_tree * T) unit :=
  fuel ← on_tree (on_root avl_fuel);
  clear_loop fuel destroy NULL;;
  c ← on_tree (gets count);
  ASSERT (c =? 0).
End clear.
