(* ===== verification/AvlSpec.v ===== *)
(** * AVL trees: the specification

    The memory of [Avl] represents a binary tree ([rep]); its contents are the
    in-order list of its nodes.  Operations are followed on a zipper: a focus
    subtree and the context above it. *)
From S2P Require Import Prelude Avl.

(** ** Counting addresses

    Distinctness of nodes is stated by occurrence counts, so that [lia] decides
    disjointness. *)

Fixpoint cnt (x : Z) (l : list Z) : nat :=
  match l with
  | [] => 0
  | y :: l => (if decide (x = y) then 1 else 0) + cnt x l
  end.

Lemma cnt_app x l k : cnt x (l ++ k) = (cnt x l + cnt x k)%nat.
Proof. induction l; cbn; lia. Qed.

Lemma cnt_elem x l : (x ∈ l) <-> (1 <= cnt x l)%nat.
Proof.
  induction l as [|y l IH]; cbn; [split; [by intros ?%elem_of_nil | lia] |].
  rewrite elem_of_cons, IH. case_decide; split; try tauto; try lia; intros; right; lia.
Qed.

Lemma cnt_NoDup l : NoDup l <-> (forall x, (cnt x l <= 1)%nat).
Proof.
  induction l as [|y l IH]; cbn; [split; [intros; lia | constructor] |].
  rewrite NoDup_cons, IH, cnt_elem. split.
  - intros [H1 H2] x. specialize (H2 x). case_decide; subst; lia.
  - intros H. split; [specialize (H y); case_decide; [lia | done] |].
    intros x. specialize (H x). lia.
Qed.

(** ** Trees and contexts *)

Inductive tree := E | N (l : tree) (p : Z) (r : tree) (h : Z).
Inductive ctx := Top | CL (c : ctx) (p : Z) (r : tree) (h : Z) | CR (c : ctx) (l : tree) (p h : Z).

#[export] Instance tree_eq_dec : EqDecision tree.
Proof. solve_decision. Defined.
#[export] Instance ctx_eq_dec : EqDecision ctx.
Proof. solve_decision. Defined.

Definition rp (t : tree) : Z := match t with E => NULL | N _ p _ _ => p end.
Definition ht (t : tree) : Z := match t with E => 0 | N _ _ _ h => h end.
Definition cpar (c : ctx) : Z := match c with Top => NULL | CL _ p _ _ | CR _ _ p _ => p end.

Fixpoint nodes (t : tree) : list Z :=
  match t with E => [] | N l p r _ => nodes l ++ p :: nodes r end.
(** The nodes before and after the hole. *)
Fixpoint cl (c : ctx) : list Z :=
  match c with Top => [] | CL c _ _ _ => cl c | CR c l p _ => cl c ++ nodes l ++ [p] end.
Fixpoint cr (c : ctx) : list Z :=
  match c with Top => [] | CL c p r _ => p :: nodes r ++ cr c | CR c _ _ _ => cr c end.
Fixpoint plug (c : ctx) (t : tree) : tree :=
  match c with Top => t | CL c p r h => plug c (N t p r h) | CR c l p h => plug c (N l p t h) end.
Fixpoint depth (c : ctx) : nat :=
  match c with Top => 0 | CL c _ _ _ | CR c _ _ _ => S (depth c) end.
Fixpoint levels (t : tree) : nat :=
  match t with E => 0 | N l _ r _ => S (levels l `max` levels r) end.

Lemma nodes_plug c t : nodes (plug c t) = cl c ++ nodes t ++ cr c.
Proof.
  revert t. induction c as [|c IH p r h|c IH l p h]; intros t; cbn.
  - by rewrite app_nil_r.
  - rewrite IH. cbn. by rewrite <-!app_assoc.
  - rewrite IH. cbn. by rewrite <-!app_assoc.
Qed.

Lemma levels_nodes t : (levels t <= length (nodes t))%nat.
Proof. induction t; cbn; [lia |]. rewrite length_app. cbn. lia. Qed.

Lemma depth_nodes c : (depth c <= length (cl c ++ cr c))%nat.
Proof. induction c; cbn; rewrite ?length_app in *; cbn; rewrite ?length_app; cbn; lia. Qed.

(** ** Representation *)

Fixpoint rep (m : gmap Z avl_node) (par : Z) (t : tree) : Prop :=
  match t with
  | E => True
  | N l p r h => p <> NULL /\ m !! p = Some (mk_avl (rp l) (rp r) par h) /\ rep m p l /\ rep m p r
  end.

(** [repc m nd c x]: the context [c] of a tree rooted at [nd], its hole
    holding the pointer [x]. *)
Fixpoint repc (m : gmap Z avl_node) (nd : Z) (c : ctx) (x : Z) : Prop :=
  match c with
  | Top => nd = x
  | CL c p r h =>
      p <> NULL /\ m !! p = Some (mk_avl x (rp r) (cpar c) h) /\ rep m p r /\ repc m nd c p
  | CR c l p h =>
      p <> NULL /\ m !! p = Some (mk_avl (rp l) x (cpar c) h) /\ rep m p l /\ repc m nd c p
  end.

(** A tree in a state, and a tree seen through a zipper. *)
Definition is_tree (s : avl) (t : tree) : Prop :=
  rep (nmem s) NULL t /\ node s = rp t /\ NoDup (nodes t).
Definition zat (s : avl) (c : ctx) (t : tree) : Prop :=
  repc (nmem s) (node s) c (rp t) /\ rep (nmem s) (cpar c) t /\
  (forall x, (cnt x (cl c) + cnt x (nodes t) + cnt x (cr c) <= 1)%nat).

Lemma repc_plug m nd c t :
  repc m nd c (rp t) /\ rep m (cpar c) t <-> nd = rp (plug c t) /\ rep m NULL (plug c t).
Proof.
  revert t. induction c as [|c IH p r h|c IH l p h]; intros t; cbn; [tauto | |].
  - rewrite <-IH. cbn. tauto.
  - rewrite <-IH. cbn. tauto.
Qed.

Lemma zat_tree s c t : zat s c t <-> is_tree s (plug c t).
Proof.
  unfold zat, is_tree. rewrite cnt_NoDup, nodes_plug.
  assert ((forall x, (cnt x (cl c) + cnt x (nodes t) + cnt x (cr c) <= 1)%nat) <->
          (forall x, (cnt x (cl c ++ nodes t ++ cr c) <= 1)%nat)) as ->.
  { split; intros H x; specialize (H x); rewrite !cnt_app in *; lia. }
  pose proof (repc_plug (nmem s) (node s) c t). tauto.
Qed.

Lemma zat_top s t : zat s Top t <-> is_tree s t.
Proof. by rewrite zat_tree. Qed.

Lemma zat_up_l s c l p r h : zat s (CL c p r h) l <-> zat s c (N l p r h).
Proof. by rewrite !zat_tree. Qed.
Lemma zat_up_r s c l p r h : zat s (CR c l p h) r <-> zat s c (N l p r h).
Proof. by rewrite !zat_tree. Qed.

Lemma rep_frame m m' par t :
  rep m par t -> (forall q, (1 <= cnt q (nodes t))%nat -> m' !! q = m !! q) -> rep m' par t.
Proof.
  revert par. induction t as [|l IHl p r IHr h]; intros par; cbn; [done |].
  intros (Hp & Hm & Hl & Hr) Hf.
  assert (forall q, cnt q (nodes l ++ p :: nodes r) =
    (cnt q (nodes l) + ((if decide (q = p) then 1 else 0) + cnt q (nodes r)))%nat) as Hc
    by (intros q; apply cnt_app).
  split; [done |]. split; [| split].
  - rewrite Hf; [done |]. rewrite Hc. case_decide; [lia | done].
  - apply IHl; [done |]. intros q Hq. apply Hf. rewrite Hc. lia.
  - apply IHr; [done |]. intros q Hq. apply Hf. rewrite Hc. lia.
Qed.

Lemma repc_frame m m' nd c x :
  repc m nd c x -> (forall q, (1 <= cnt q (cl c) + cnt q (cr c))%nat -> m' !! q = m !! q) ->
  repc m' nd c x.
Proof.
  revert x. induction c as [|c IH p r h|c IH l p h]; intros x; cbn; [done | |];
    intros (Hp & Hm & Ht & Hc) Hf.
  - assert (forall q, (1 <= (if decide (q = p) then 1 else 0) + cnt q (nodes r) +
      cnt q (cl c) + cnt q (cr c))%nat -> m' !! q = m !! q) as Hf'
      by (intros q Hq; apply Hf; rewrite cnt_app; lia).
    split; [done |]. split; [| split].
    + rewrite Hf'; [done |]. case_decide; [lia | done].
    + apply (rep_frame m); [done |]. intros q Hq. apply Hf'. lia.
    + apply IH; [done |]. intros q Hq. apply Hf'. lia.
  - assert (forall q, (1 <= (if decide (q = p) then 1 else 0) + cnt q (nodes l) +
      cnt q (cl c) + cnt q (cr c))%nat -> m' !! q = m !! q) as Hf'
      by (intros q Hq; apply Hf; rewrite !cnt_app; cbn; lia).
    split; [done |]. split; [| split].
    + rewrite Hf'; [done |]. case_decide; [lia | done].
    + apply (rep_frame m); [done |]. intros q Hq. apply Hf'. lia.
    + apply IH; [done |]. intros q Hq. apply Hf'. lia.
Qed.

Lemma rp_cnt t : t <> E -> (1 <= cnt (rp t) (nodes t))%nat.
Proof.
  destruct t as [|l p r h]; [done |]. cbn. rewrite cnt_app. cbn.
  case_decide; [lia | done].
Qed.

Lemma rp_null m par t : rep m par t -> rp t = NULL -> t = E.
Proof. destruct t as [|l p r h]; cbn; [done |]. by intros (? & _). Qed.

Lemma rep_null m par t : rep m par t -> cnt NULL (nodes t) = 0%nat.
Proof.
  revert par. induction t as [|l IHl p r IHr h]; intros par; cbn; [done |].
  intros (Hp & _ & Hl & Hr). rewrite cnt_app. cbn. rewrite (IHl _ Hl), (IHr _ Hr).
  by rewrite decide_False.
Qed.

Lemma rep_dom m par t q : rep m par t -> (1 <= cnt q (nodes t))%nat -> is_Some (m !! q).
Proof.
  revert par. induction t as [|l IHl p r IHr h]; intros par; cbn; [lia |].
  intros (Hp & Hm & Hl & Hr). rewrite cnt_app. cbn. case_decide as Hq; intros H.
  - subst. eauto.
  - destruct (decide (1 <= cnt q (nodes l))%nat); [by eapply IHl | eapply IHr; eauto; lia].
Qed.

Lemma nodes_size s t : is_tree s t -> (length (nodes t) <= size (nmem s))%nat.
Proof.
  intros (Hr & _ & Hn). rewrite <-(size_list_to_set (C := gset Z)) by done.
  rewrite <-(size_dom (D := gset Z)). apply subseteq_size.
  intros q Hq%elem_of_list_to_set%cnt_elem. apply elem_of_dom. by eapply rep_dom.
Qed.

(** [same_out L m m']: only nodes of [L] differ. *)
Definition same_out (L : list Z) (m m' : gmap Z avl_node) : Prop :=
  forall q, cnt q L = 0%nat -> m' !! q = m !! q.

Lemma same_out_refl L m : same_out L m m.
Proof. by intros q _. Qed.
Lemma same_out_trans L m1 m2 m3 : same_out L m1 m2 -> same_out L m2 m3 -> same_out L m1 m3.
Proof. intros H1 H2 q Hq. by rewrite H2, H1. Qed.

(** ** Steps *)

Lemma at_node_Ok s p n : nmem s !! p = Some n -> at_node p s = Ok (n, s).
Proof. intros H. unfold at_node, zoom, load. rewrite H. by destruct s. Qed.

Lemma upd_node_Ok s p f n :
  nmem s !! p = Some n -> upd_node p f s = Ok (tt, mk_avl_state (<[p := f n]> (nmem s)) (node s)).
Proof. intros H. unfold upd_node, zoom, update. by rewrite H. Qed.

Section step_lemmas.
Context (s : avl) (p : Z) (l r q h : Z) (H : nmem s !! p = Some (mk_avl l r q h)).

Lemma get_left_Ok : get_left p s = Ok (l, s).
Proof using H. unfold get_left. by rewrite (bind_Ok _ _ _ _ _ (at_node_Ok _ _ _ H)). Qed.
Lemma get_right_Ok : get_right p s = Ok (r, s).
Proof using H. unfold get_right. by rewrite (bind_Ok _ _ _ _ _ (at_node_Ok _ _ _ H)). Qed.
Lemma get_parent_Ok : get_parent p s = Ok (q, s).
Proof using H. unfold get_parent. by rewrite (bind_Ok _ _ _ _ _ (at_node_Ok _ _ _ H)). Qed.
Lemma get_height_Ok : get_height p s = Ok (h, s).
Proof using H. unfold get_height. by rewrite (bind_Ok _ _ _ _ _ (at_node_Ok _ _ _ H)). Qed.
Lemma set_left_Ok v :
  set_left p v s = Ok (tt, mk_avl_state (<[p := mk_avl v r q h]> (nmem s)) (node s)).
Proof using H. unfold set_left. by rewrite (upd_node_Ok _ _ _ _ H). Qed.
Lemma set_right_Ok v :
  set_right p v s = Ok (tt, mk_avl_state (<[p := mk_avl l v q h]> (nmem s)) (node s)).
Proof using H. unfold set_right. by rewrite (upd_node_Ok _ _ _ _ H). Qed.
Lemma set_parent_Ok v :
  set_parent p v s = Ok (tt, mk_avl_state (<[p := mk_avl l r v h]> (nmem s)) (node s)).
Proof using H. unfold set_parent. by rewrite (upd_node_Ok _ _ _ _ H). Qed.
Lemma set_height_Ok v :
  set_height p v s = Ok (tt, mk_avl_state (<[p := mk_avl l r q v]> (nmem s)) (node s)).
Proof using H. unfold set_height. by rewrite (upd_node_Ok _ _ _ _ H). Qed.
End step_lemmas.

(** [astep] runs the next access, given what the memory holds there. *)
Ltac alook := cbn [nmem node]; first [eassumption | by simplify_map_eq].
Ltac astep :=
  first
  [ erewrite bind_Ok; [| eapply get_left_Ok; alook]
  | erewrite bind_Ok; [| eapply get_right_Ok; alook]
  | erewrite bind_Ok; [| eapply get_parent_Ok; alook]
  | erewrite bind_Ok; [| eapply get_height_Ok; alook]
  | erewrite bind_Ok; [| eapply set_left_Ok; alook]
  | erewrite bind_Ok; [| eapply set_right_Ok; alook]
  | erewrite bind_Ok; [| eapply set_parent_Ok; alook]
  | erewrite bind_Ok; [| eapply set_height_Ok; alook]
  | erewrite set_left_Ok; [| alook]
  | erewrite set_right_Ok; [| alook]
  | erewrite set_parent_Ok; [| alook]
  | erewrite set_height_Ok; [| alook] ].

(** [cn q] proves a goal about occurrences of [q] from the count facts in
    context. *)
Ltac cn_simp := cbn [nodes cl cr cnt rp ht cpar] in *;
  repeat (rewrite ?cnt_app in *; progress cbn [cnt] in *); rewrite ?cnt_app in *.
Ltac cn q :=
  repeat match goal with
  | H : forall x : Z, (_ <= 1)%nat |- _ =>
      let H' := fresh "Hq" in pose proof (H q) as H'; cbn beta in H'; revert H
  end; intros; try lazymatch goal with |- ~ _ => intro end;
  cn_simp; repeat case_decide; subst; try congruence; try lia.

Lemma nz_null : nz NULL = false.
Proof. done. Qed.
Lemma nz_true p : p <> NULL -> nz p = true.
Proof. intros H. unfold nz. by apply negb_true_iff, Z.eqb_neq. Qed.

Lemma left_height_Ok s par l p r h :
  rep (nmem s) par (N l p r h) -> AVL_LEFT_HEIGHT p s = Ok (ht l, s).
Proof.
  intros (Hp & Hm & Hl & Hr). unfold AVL_LEFT_HEIGHT. astep.
  destruct l as [|ll lp lr lh]; [done |]. destruct Hl as (Hlp & Hlm & _).
  cbn [rp] in *. rewrite nz_true by done. by erewrite get_height_Ok.
Qed.
Lemma right_height_Ok s par l p r h :
  rep (nmem s) par (N l p r h) -> AVL_RIGHT_HEIGHT p s = Ok (ht r, s).
Proof.
  intros (Hp & Hm & Hl & Hr). unfold AVL_RIGHT_HEIGHT. astep.
  destruct r as [|ll lp lr lh]; [done |]. destruct Hr as (Hlp & Hlm & _).
  cbn [rp] in *. rewrite nz_true by done. by erewrite get_height_Ok.
Qed.

(** Setting the height of the focus. *)
Lemma zat_set_height s c l p r h v :
  zat s c (N l p r h) -> exists s', set_height p v s = Ok (tt, s') /\ zat s' c (N l p r v) /\
    same_out [p] (nmem s) (nmem s').
Proof.
  intros (Hc & (Hp & Hm & Hl & Hr) & HD). astep. eexists. split; [done |].
  split; [| intros q Hq; cbn [nmem]; rewrite lookup_insert_ne; [done |]; cn q].
  split; [| split]; cbn [nmem node rp] in *.
  - apply (repc_frame (nmem s)); [done |]. intros q Hq. rewrite lookup_insert_ne; [done |]. cn q.
  - split; [done |]. split; [by rewrite lookup_insert_eq |].
    split; (apply (rep_frame (nmem s)); [done |]; intros q Hq; rewrite lookup_insert_ne; [done |]; cn q).
  - intros x. cn x.
Qed.

Lemma height_update_Ok s c l p r h :
  zat s c (N l p r h) -> exists s', _avl_node_height_update p s = Ok (tt, s') /\
    zat s' c (N l p r (AVL_MAX (ht l) (ht r) + 1)) /\ same_out [p] (nmem s) (nmem s').
Proof.
  intros Hz. pose proof Hz as (_ & Ht & _). unfold _avl_node_height_update.
  rewrite (bind_Ok _ _ _ _ _ (left_height_Ok _ _ _ _ _ _ Ht)).
  rewrite (bind_Ok _ _ _ _ _ (right_height_Ok _ _ _ _ _ _ Ht)).
  by apply (zat_set_height _ _ _ _ _ h).
Qed.

(** Changing the parent of a subtree. *)
Lemma reparent_Ok s par t q :
  rep (nmem s) par t -> (forall x, (cnt x (nodes t) <= 1)%nat) ->
  exists s', when (nz (rp t)) (set_parent (rp t) q) s = Ok (tt, s') /\ node s' = node s /\
    rep (nmem s') q t /\ same_out (nodes t) (nmem s) (nmem s').
Proof.
  intros Ht HD. destruct t as [|l p r h].
  - exists s. by repeat split.
  - destruct Ht as (Hp & Hm & Hl & Hr). cbn [rp]. rewrite nz_true by done. cbn [when]. astep.
    eexists. split; [done |]. split; [done |]. cbn [nmem]. split.
    + split; [done |]. split; [by rewrite lookup_insert_eq |].
      split; (apply (rep_frame (nmem s)); [done |]; intros x Hx; rewrite lookup_insert_ne; [done |]; cn x).
    + intros x Hx. rewrite lookup_insert_ne; [done |]. cn x.
Qed.

Lemma child_replace_Ok s c old new :
  repc (nmem s) (node s) c old -> old <> NULL ->
  (forall x, (cnt x (cl c) + cnt x [old] + cnt x (cr c) <= 1)%nat) ->
  exists s', _avl_child_replace old new (cpar c) s = Ok (tt, s') /\
    repc (nmem s') (node s') c new /\ same_out (cl c ++ cr c) (nmem s) (nmem s').
Proof.
  intros Hc Hold HD. unfold _avl_child_replace.
  destruct c as [|c p r h|c l p h]; cbn [cpar repc] in *.
  - eexists. cbn. split; [done |]. split; [done |]. by intros ? ?.
  - destruct Hc as (Hp & Hm & Hr & Hc). rewrite nz_true by done. astep.
    rewrite Z.eqb_refl. astep. eexists. split; [done |]. cbn [nmem node].
    split; [split; [done |]; split; [by rewrite lookup_insert_eq |]; split |].
    + apply (rep_frame (nmem s)); [done |]. intros x Hx. rewrite lookup_insert_ne; [done |]. cn x.
    + apply (repc_frame (nmem s)); [done |]. intros x Hx. rewrite lookup_insert_ne; [done |]. cn x.
    + intros x Hx. rewrite lookup_insert_ne; [done |]. cn x.
  - destruct Hc as (Hp & Hm & Hl & Hc). rewrite nz_true by done. astep.
    assert (rp l =? old = false) as ->.
    { apply Z.eqb_neq. intros <-. destruct l; [done |].
      pose proof (rp_cnt (N l1 p0 l2 h0) ltac:(done)). cbn [rp] in *. cn p0. }
    astep. eexists. split; [done |]. cbn [nmem node].
    split; [split; [done |]; split; [by rewrite lookup_insert_eq |]; split |].
    + apply (rep_frame (nmem s)); [done |]. intros x Hx. rewrite lookup_insert_ne; [done |]. cn x.
    + apply (repc_frame (nmem s)); [done |]. intros x Hx. rewrite lookup_insert_ne; [done |]. cn x.
    + intros x Hx. rewrite lookup_insert_ne; [done |]. cn x.
Qed.

(** [hop q] reads address [q] through the writes of the context. *)
Ltac hop q :=
  cbn [nmem]; repeat first
  [ rewrite lookup_insert_eq
  | rewrite lookup_insert_ne; [| solve [cn q]]
  | match goal with H : same_out _ _ ?m |- ?m !! q = _ => rewrite (H q); [| solve [cn q]] end;
    cbn [nmem] ].

Lemma rotate_left_Ok s c a n b r d hr hn :
  zat s c (N a n (N b r d hr) hn) ->
  exists s', _avl_node_rotate_left n s = Ok (r, s') /\ zat s' c (N (N a n b hn) r d hr) /\
    same_out (cl c ++ nodes (N a n (N b r d hr) hn) ++ cr c) (nmem s) (nmem s').
Proof.
  intros (Hc & (Hn & Hmn & Ha & (Hr & Hmr & Hb & Hd)) & HD). cbn [rp] in *.
  assert (n <> r) as Hnr by (intros ->; cn r).
  unfold _avl_node_rotate_left. do 4 astep.
  unfold bind at 1, ASSERT at 1. rewrite !nz_true by done. cbn [andb].
  astep.
  match goal with |- context [bind _ _ ?x] =>
    destruct (reparent_Ok x r b n) as (s2 & E2 & N2 & R2 & F2) end.
  { apply (rep_frame (nmem s)); [done |]. intros q Hq. hop q. done. }
  { intros x. cn x. }
  rewrite (bind_Ok _ _ _ _ _ E2).
  assert (nmem s2 !! r = Some (mk_avl (rp b) (rp d) n hr)) as Hr2 by (hop r; done).
  assert (nmem s2 !! n = Some (mk_avl (rp a) (rp b) (cpar c) hn)) as Hn2 by (hop n; done).
  do 2 astep. cbn [nmem node]. rewrite insert_insert_eq.
  match goal with |- context [bind _ _ ?x] =>
    destruct (child_replace_Ok x c n r) as (s4 & E4 & R4 & F4); [| done | intros y; cn y |] end.
  { apply (repc_frame (nmem s)); [cbn [node]; by rewrite N2 |]. intros q Hq. hop q. done. }
  rewrite (bind_Ok _ _ _ _ _ E4).
  assert (nmem s4 !! n = Some (mk_avl (rp a) (rp b) (cpar c) hn)) as Hn4 by (hop n; done).
  astep. eexists. split; [done |]. split; [split; [| split] |].
  - cbn [nmem node rp]. apply (repc_frame (nmem s4)); [done |]. intros q Hq. hop q. done.
  - cbn [rep rp nmem]. split; [done |]. split; [hop r; done |]. split; [split; [done |]; split |].
    + by rewrite lookup_insert_eq.
    + split; [apply (rep_frame (nmem s)) | apply (rep_frame (nmem s2))]; try done;
        intros q Hq; hop q; done.
    + apply (rep_frame (nmem s)); [done |]. intros q Hq. hop q. done.
  - intros x. cn x.
  - intros q Hq. hop q. done.
Qed.

Lemma rotate_right_Ok s c a l b n d hl hn :
  zat s c (N (N a l b hl) n d hn) ->
  exists s', _avl_node_rotate_right n s = Ok (l, s') /\ zat s' c (N a l (N b n d hn) hl) /\
    same_out (cl c ++ nodes (N (N a l b hl) n d hn) ++ cr c) (nmem s) (nmem s').
Proof.
  intros (Hc & (Hn & Hmn & (Hl & Hml & Ha & Hb) & Hd) & HD). cbn [rp] in *.
  assert (n <> l) as Hnl by (intros ->; cn l).
  unfold _avl_node_rotate_right. do 4 astep.
  unfold bind at 1, ASSERT at 1. rewrite !nz_true by done. cbn [andb].
  astep.
  match goal with |- context [bind _ _ ?x] =>
    destruct (reparent_Ok x l b n) as (s2 & E2 & N2 & R2 & F2) end.
  { apply (rep_frame (nmem s)); [done |]. intros q Hq. hop q. done. }
  { intros x. cn x. }
  rewrite (bind_Ok _ _ _ _ _ E2).
  assert (nmem s2 !! l = Some (mk_avl (rp a) (rp b) n hl)) as Hl2 by (hop l; done).
  assert (nmem s2 !! n = Some (mk_avl (rp b) (rp d) (cpar c) hn)) as Hn2 by (hop n; done).
  do 2 astep. cbn [nmem node]. rewrite insert_insert_eq.
  match goal with |- context [bind _ _ ?x] =>
    destruct (child_replace_Ok x c n l) as (s4 & E4 & R4 & F4); [| done | intros y; cn y |] end.
  { apply (repc_frame (nmem s)); [cbn [node]; by rewrite N2 |]. intros q Hq. hop q. done. }
  rewrite (bind_Ok _ _ _ _ _ E4).
  assert (nmem s4 !! n = Some (mk_avl (rp b) (rp d) (cpar c) hn)) as Hn4 by (hop n; done).
  astep. eexists. split; [done |]. split; [split; [| split] |].
  - cbn [nmem node rp]. apply (repc_frame (nmem s4)); [done |]. intros q Hq. hop q. done.
  - cbn [rep rp nmem]. split; [done |]. split; [hop l; done |]. split; [| split; [done |]; split; [| split]].
    + apply (rep_frame (nmem s)); [done |]. intros q Hq. hop q. done.
    + by rewrite lookup_insert_eq.
    + apply (rep_frame (nmem s2)); [done |]. intros q Hq. hop q. done.
    + apply (rep_frame (nmem s)); [done |]. intros q Hq. hop q. done.
  - intros x. cn x.
  - intros q Hq. hop q. done.
Qed.

(** [outside Hq] proves that [q] is not in a list, from [Hq : cnt q _ = 0]. *)
Ltac outside Hq :=
  clear -Hq; cbn [nodes cl cr cnt] in Hq;
  repeat (rewrite ?cnt_app in Hq; progress cbn [cnt] in Hq); rewrite ?cnt_app in Hq;
  cbn [nodes cl cr cnt]; repeat (rewrite ?cnt_app; progress cbn [cnt]); rewrite ?cnt_app;
  repeat case_decide; lia.

(** ** Balance *)

(** Heights are stored correctly and siblings differ by at most one. *)
Fixpoint balanced (t : tree) : Prop :=
  match t with
  | E => True
  | N l _ r h => balanced l /\ balanced r /\ h = Z.max (ht l) (ht r) + 1 /\
                 -1 <= ht l - ht r <= 1
  end.
(** The context is balanced when its hole holds a tree of height [k]. *)
Fixpoint cbalanced (c : ctx) (k : Z) : Prop :=
  match c with
  | Top => True
  | CL c _ r h => balanced r /\ h = Z.max k (ht r) + 1 /\ -1 <= k - ht r <= 1 /\ cbalanced c h
  | CR c l _ h => balanced l /\ h = Z.max (ht l) k + 1 /\ -1 <= ht l - k <= 1 /\ cbalanced c h
  end.

Lemma balanced_plug c t : balanced (plug c t) <-> balanced t /\ cbalanced c (ht t).
Proof.
  revert t. induction c as [|c IH p r h|c IH l p h]; intros t; cbn; [tauto | |];
    rewrite IH; cbn; tauto.
Qed.

Lemma ht_nonneg t : balanced t -> 0 <= ht t.
Proof. induction t as [|l IHl p r IHr h]; cbn; [done |]. intros (Hl & Hr & -> & ?). specialize (IHl Hl). lia. Qed.

Lemma AVL_MAX_max x y : AVL_MAX x y = Z.max x y.
Proof. unfold AVL_MAX. destruct (Z.ltb_spec x y); lia. Qed.

(** A balanced tree of height [h] has at least [2^(h/2) - 1] nodes. *)
Lemma avl_height t : balanced t -> 2 ^ ht t <= (Z.of_nat (length (nodes t)) + 1) ^ 2.
Proof.
  induction t as [|l IHl p r IHr h]; [done |]. cbn [balanced]. intros (Hl & Hr & Hh & Hd).
  specialize (IHl Hl). specialize (IHr Hr). pose proof (ht_nonneg _ Hl). pose proof (ht_nonneg _ Hr).
  cbn [ht nodes]. rewrite length_app. cbn [length]. rewrite Nat2Z.inj_add, Nat2Z.inj_succ.
  set (a := Z.of_nat (length (nodes l))) in *. set (b := Z.of_nat (length (nodes r))) in *.
  assert (0 <= a) by lia. assert (0 <= b) by lia.
  rewrite !Z.pow_2_r in *.
  assert (h = 1 \/ 2 <= h) as [-> | Hh2] by lia.
  { replace (2 ^ 1) with 2 by done. nia. }
  set (k := 2 ^ (h - 2)).
  assert (0 < k) by (apply Z.pow_pos_nonneg; lia).
  assert (k <= 2 ^ ht l) by (apply Z.pow_le_mono_r; lia).
  assert (k <= 2 ^ ht r) by (apply Z.pow_le_mono_r; lia).
  assert (2 ^ h = 4 * k) as ->.
  { unfold k. replace h with (2 + (h - 2)) at 1 by lia. rewrite Z.pow_add_r by lia. done. }
  assert (k <= (a + 1) * (b + 1)) by nia. nia.
Qed.

Lemma zat_plug s c t : is_tree s (plug c t) -> zat s c t.
Proof. by rewrite zat_tree. Qed.

(** [out_eq c t t']: the same nodes before and after. *)
Lemma fix_l_Ok s c a n t hn :
  zat s c (N a n t hn) -> balanced a -> balanced t -> ht t = ht a + 2 ->
  exists s' t', _avl_node_fix_l n s = Ok (rp t', s') /\ zat s' c t' /\
    nodes t' = nodes (N a n t hn) /\ t' <> E /\ balanced t' /\ ht t <= ht t' <= ht t + 1 /\
    same_out (cl c ++ nodes t' ++ cr c) (nmem s) (nmem s').
Proof.
  intros Hz Ha Ht Hht. pose proof (ht_nonneg _ Ha).
  destruct t as [|b r d hr]; [cbn in Hht; lia |].
  pose proof Hz as (_ & (Hn & Hmn & _ & Hrt) & _). cbn [rp] in *.
  unfold _avl_node_fix_l. astep. pose proof Hrt as (Hr & _).
  unfold bind at 1, ASSERT at 1. rewrite nz_true by done.
  rewrite (bind_Ok _ _ _ _ _ (left_height_Ok _ _ _ _ _ _ Hrt)).
  rewrite (bind_Ok _ _ _ _ _ (right_height_Ok _ _ _ _ _ _ Hrt)).
  cbn [ht balanced] in *. destruct Ht as (Hb & Hd & Hh & Hbd).
  destruct (Z.ltb_spec (ht d) (ht b)) as [Hlt | Hge]; cbn [when].
  - destruct b as [|b1 x b2 hx]; [cbn in *; pose proof (ht_nonneg _ Hd); lia |].
    apply zat_up_r in Hz. apply rotate_right_Ok in Hz as (s1 & E1 & Z1 & F1).
    rewrite bind_bind, (bind_Ok _ _ _ _ _ E1).
    pose proof Z1 as (_ & (_ & Hmx & _) & _). rewrite bind_bind. astep.
    apply zat_up_r, height_update_Ok in Z1 as (s2 & E2 & Z2 & F2).
    cbn [rp]. rewrite bind_bind, (bind_Ok _ _ _ _ _ E2).
    apply zat_up_r, height_update_Ok in Z2 as (s3 & E3 & Z3 & F3).
    rewrite (bind_Ok _ _ _ _ _ E3).
    apply zat_up_r, rotate_left_Ok in Z3 as (s4 & E4 & Z4 & F4).
    rewrite (bind_Ok _ _ _ _ _ E4).
    pose proof Z4 as (_ & (_ & Hm4 & _) & _). astep.
    apply zat_up_l, height_update_Ok in Z4 as (s5 & E5 & Z5 & F5).
    cbn [rp]. rewrite (bind_Ok _ _ _ _ _ E5).
    apply zat_up_l, height_update_Ok in Z5 as (s6 & E6 & Z6 & F6).
    rewrite (bind_Ok _ _ _ _ _ E6).
    exists s6; eexists; split; [| split; [exact Z6 |]]; [done |]. rewrite !AVL_MAX_max in *.
    cbn [nodes ht balanced] in *. destruct Hb as (Hb1 & Hb2 & Hhx & Hbb).
    split; [by rewrite <-!app_assoc; cbn; rewrite <-?app_assoc |]. split; [done |].
    split; [repeat split; try done; lia |]. split; [lia |].
    intros q Hq. rewrite F6, F5, F4, F3, F2, F1; [done | ..]; outside Hq.
  - unfold bind at 1, ret at 1.
    apply rotate_left_Ok in Hz as (s4 & E4 & Z4 & F4).
    rewrite (bind_Ok _ _ _ _ _ E4).
    pose proof Z4 as (_ & (_ & Hm4 & _) & _). astep.
    apply zat_up_l, height_update_Ok in Z4 as (s5 & E5 & Z5 & F5).
    cbn [rp]. rewrite (bind_Ok _ _ _ _ _ E5).
    apply zat_up_l, height_update_Ok in Z5 as (s6 & E6 & Z6 & F6).
    rewrite (bind_Ok _ _ _ _ _ E6).
    exists s6; eexists; split; [| split; [exact Z6 |]]; [done |]. rewrite !AVL_MAX_max in *.
    cbn [nodes ht balanced] in *.
    split; [by rewrite <-!app_assoc; cbn; rewrite <-?app_assoc |]. split; [done |].
    split; [repeat split; try done; lia |]. split; [lia |].
    intros q Hq. rewrite F6, F5, F4; [done | ..]; outside Hq.
Qed.

Lemma fix_r_Ok s c t n d hn :
  zat s c (N t n d hn) -> balanced d -> balanced t -> ht t = ht d + 2 ->
  exists s' t', _avl_node_fix_r n s = Ok (rp t', s') /\ zat s' c t' /\
    nodes t' = nodes (N t n d hn) /\ t' <> E /\ balanced t' /\ ht t <= ht t' <= ht t + 1 /\
    same_out (cl c ++ nodes t' ++ cr c) (nmem s) (nmem s').
Proof.
  intros Hz Hd Ht Hht. pose proof (ht_nonneg _ Hd).
  destruct t as [|a l b hl]; [cbn in Hht; lia |].
  pose proof Hz as (_ & (Hn & Hmn & Hlt & _) & _). cbn [rp] in *.
  unfold _avl_node_fix_r. astep. pose proof Hlt as (Hl & _).
  unfold bind at 1, ASSERT at 1. rewrite nz_true by done.
  rewrite (bind_Ok _ _ _ _ _ (left_height_Ok _ _ _ _ _ _ Hlt)).
  rewrite (bind_Ok _ _ _ _ _ (right_height_Ok _ _ _ _ _ _ Hlt)).
  cbn [ht balanced] in *. destruct Ht as (Ha & Hb & Hh & Hbd).
  destruct (Z.ltb_spec (ht a) (ht b)) as [Hlt2 | Hge]; cbn [when].
  - destruct b as [|b1 x b2 hx]; [cbn in *; pose proof (ht_nonneg _ Ha); lia |].
    apply zat_up_l in Hz. apply rotate_left_Ok in Hz as (s1 & E1 & Z1 & F1).
    rewrite bind_bind, (bind_Ok _ _ _ _ _ E1).
    pose proof Z1 as (_ & (_ & Hmx & _) & _). rewrite bind_bind. astep.
    apply zat_up_l, height_update_Ok in Z1 as (s2 & E2 & Z2 & F2).
    cbn [rp]. rewrite bind_bind, (bind_Ok _ _ _ _ _ E2).
    apply zat_up_l, height_update_Ok in Z2 as (s3 & E3 & Z3 & F3).
    rewrite (bind_Ok _ _ _ _ _ E3).
    apply zat_up_l, rotate_right_Ok in Z3 as (s4 & E4 & Z4 & F4).
    rewrite (bind_Ok _ _ _ _ _ E4).
    pose proof Z4 as (_ & (_ & Hm4 & _) & _). astep.
    apply zat_up_r, height_update_Ok in Z4 as (s5 & E5 & Z5 & F5).
    cbn [rp]. rewrite (bind_Ok _ _ _ _ _ E5).
    apply zat_up_r, height_update_Ok in Z5 as (s6 & E6 & Z6 & F6).
    rewrite (bind_Ok _ _ _ _ _ E6).
    exists s6; eexists; split; [| split; [exact Z6 |]]; [done |]. rewrite !AVL_MAX_max in *.
    cbn [nodes ht balanced] in *. destruct Hb as (Hb1 & Hb2 & Hhx & Hbb).
    split; [by rewrite <-!app_assoc; cbn; rewrite <-?app_assoc |]. split; [done |].
    split; [repeat split; try done; lia |]. split; [lia |].
    intros q Hq. rewrite F6, F5, F4, F3, F2, F1; [done | ..]; outside Hq.
  - unfold bind at 1, ret at 1.
    apply rotate_right_Ok in Hz as (s4 & E4 & Z4 & F4).
    rewrite (bind_Ok _ _ _ _ _ E4).
    pose proof Z4 as (_ & (_ & Hm4 & _) & _). astep.
    apply zat_up_r, height_update_Ok in Z4 as (s5 & E5 & Z5 & F5).
    cbn [rp]. rewrite (bind_Ok _ _ _ _ _ E5).
    apply zat_up_r, height_update_Ok in Z5 as (s6 & E6 & Z6 & F6).
    rewrite (bind_Ok _ _ _ _ _ E6).
    exists s6; eexists; split; [| split; [exact Z6 |]]; [done |]. rewrite !AVL_MAX_max in *.
    cbn [nodes ht balanced] in *.
    split; [by rewrite <-!app_assoc; cbn; rewrite <-?app_assoc |]. split; [done |].
    split; [repeat split; try done; lia |]. split; [lia |].
    intros q Hq. rewrite F6, F5, F4; [done | ..]; outside Hq.
Qed.

(** One round of either loop at a node [p] whose stored height is stale: store
    the height and rotate when needed. *)
Definition refit (p height diff : Z) : M avl Z :=
  set_height p height;;
  (if diff <=? -2 then _avl_node_fix_l p
   else if 2 <=? diff then _avl_node_fix_r p
   else ret p).

Lemma refit_Ok s c l p r h hi :
  zat s c (N l p r h) -> balanced l -> balanced r -> -2 <= ht l - ht r <= 2 ->
  hi = Z.max (ht l) (ht r) + 1 ->
  exists s' t', refit p hi (ht l - ht r) s = Ok (rp t', s') /\ zat s' c t' /\
    nodes t' = nodes (N l p r h) /\ t' <> E /\ balanced t' /\
    (ht t' = hi \/ (Z.abs (ht l - ht r) = 2 /\ ht t' = hi - 1)) /\
    same_out (cl c ++ nodes t' ++ cr c) (nmem s) (nmem s').
Proof.
  intros Hz Hl Hr Hd ->. unfold refit.
  set (hi := Z.max (ht l) (ht r) + 1).
  destruct (zat_set_height _ _ _ _ _ _ hi Hz) as (s1 & E1 & Z1 & F1).
  rewrite (bind_Ok _ _ _ _ _ E1).
  destruct (Z.leb_spec (ht l - ht r) (-2)).
  - destruct (fix_l_Ok _ _ _ _ _ _ Z1) as (s' & t' & E' & Z' & N' & Ne & B' & H' & F'); [done | done | lia |].
    exists s', t'. split; [done |]. split; [done |]. split; [done |]. split; [done |]. split; [done |].
    split; [lia |]. intros q Hq. rewrite F', F1; [done | | done].
    rewrite N' in Hq. outside Hq.
  - destruct (Z.leb_spec 2 (ht l - ht r)).
    + destruct (fix_r_Ok _ _ _ _ _ _ Z1) as (s' & t' & E' & Z' & N' & Ne & B' & H' & F'); [done | done | lia |].
      exists s', t'. split; [done |]. split; [done |]. split; [done |]. split; [done |]. split; [done |].
      split; [lia |]. intros q Hq. rewrite F', F1; [done | | done].
      rewrite N' in Hq. outside Hq.
    + exists s1, (N l p r hi). split; [done |]. split; [done |]. split; [done |]. split; [done |].
      split; [cbn; repeat split; try done; lia |]. split; [by left |].
      intros q Hq. rewrite F1; [done |]. outside Hq.
Qed.

(** A balanced tree whose nodes are listed by [L]. *)
Definition tree_of (s : avl) (L : list Z) (t : tree) : Prop :=
  is_tree s t /\ balanced t /\ nodes t = L.

(** A node's parent pointer, followed by the loops. *)
Lemma zat_parent s c t : zat s c t -> t <> E -> get_parent (rp t) s = Ok (cpar c, s).
Proof.
  intros (_ & Ht & _) Hne. destruct t as [|l p r h]; [done |].
  destruct Ht as (_ & Hm & _). by eapply get_parent_Ok.
Qed.

Lemma post_insert_step fuel p s c l r h :
  zat s c (N l p r h) ->
  post_insert_loop (S fuel) p s =
  (if h =? Z.max (ht l) (ht r) + 1 then Ok (tt, s)
   else bind (refit p (Z.max (ht l) (ht r) + 1) (ht l - ht r))
          (fun n => q ← get_parent n; post_insert_loop fuel q) s).
Proof.
  intros (_ & Ht & _). pose proof Ht as (Hp & Hm & _). cbn [post_insert_loop].
  rewrite nz_true by done.
  rewrite (bind_Ok _ _ _ _ _ (left_height_Ok _ _ _ _ _ _ Ht)).
  rewrite (bind_Ok _ _ _ _ _ (right_height_Ok _ _ _ _ _ _ Ht)).
  astep. rewrite AVL_MAX_max. destruct (h =? _); [done |].
  unfold refit. by rewrite bind_bind.
Qed.

Lemma post_insert_loop_Ok fuel : forall s c t k,
  (depth c < fuel)%nat -> zat s c t -> balanced t -> cbalanced c k ->
  (ht t = k \/ ht t = k + 1) ->
  exists s' t', post_insert_loop fuel (cpar c) s = Ok (tt, s') /\
    tree_of s' (cl c ++ nodes t ++ cr c) t' /\
    same_out (cl c ++ nodes t ++ cr c) (nmem s) (nmem s').
Proof.
  induction fuel as [|fuel IH]; intros s c t k Hf Hz Ht Hc Hk; [lia |].
  destruct c as [|c p r h|c l p h].
  - exists s, t. split; [done |]. split; [| apply same_out_refl].
    split; [by apply zat_top |]. split; [done |]. cbn. by rewrite app_nil_r.
  - apply zat_up_l in Hz. cbn [cpar]. rewrite (post_insert_step _ _ _ _ _ _ _ Hz).
    destruct Hc as (Hr & Hh & Hd & Hc). cbn [depth] in Hf.
    replace (cl (CL c p r h) ++ nodes t ++ cr (CL c p r h)) with (cl c ++ nodes (N t p r h) ++ cr c)
      by (cbn; by rewrite <-!app_assoc).
    destruct (Z.eqb_spec h (Z.max (ht t) (ht r) + 1)).
    + exists s, (plug c (N t p r h)). split; [done |]. split; [| apply same_out_refl].
      split; [by apply zat_tree |]. split; [| by rewrite nodes_plug].
      apply balanced_plug. cbn. repeat split; try done; lia.
    + destruct (refit_Ok _ _ _ _ _ _ (Z.max (ht t) (ht r) + 1) Hz) as
        (s1 & t1 & E1 & Z1 & N1 & Ne1 & B1 & H1 & F1); [done | done | lia | done |].
      rewrite (bind_Ok _ _ _ _ _ E1), (bind_Ok _ _ _ _ _ (zat_parent _ _ _ Z1 Ne1)).
      destruct (IH s1 c t1 h) as (s' & t' & E' & T' & F'); [lia | done | done | done | lia |].
      rewrite N1 in *. exists s', t'. split; [done |]. split; [done |].
      by eapply same_out_trans.
  - apply zat_up_r in Hz. cbn [cpar]. rewrite (post_insert_step _ _ _ _ _ _ _ Hz).
    destruct Hc as (Hr & Hh & Hd & Hc). cbn [depth] in Hf.
    replace (cl (CR c l p h) ++ nodes t ++ cr (CR c l p h)) with (cl c ++ nodes (N l p t h) ++ cr c)
      by (cbn; by rewrite <-!app_assoc).
    destruct (Z.eqb_spec h (Z.max (ht l) (ht t) + 1)).
    + exists s, (plug c (N l p t h)). split; [done |]. split; [| apply same_out_refl].
      split; [by apply zat_tree |]. split; [| by rewrite nodes_plug].
      apply balanced_plug. cbn. repeat split; try done; lia.
    + destruct (refit_Ok _ _ _ _ _ _ (Z.max (ht l) (ht t) + 1) Hz) as
        (s1 & t1 & E1 & Z1 & N1 & Ne1 & B1 & H1 & F1); [done | done | lia | done |].
      rewrite (bind_Ok _ _ _ _ _ E1), (bind_Ok _ _ _ _ _ (zat_parent _ _ _ Z1 Ne1)).
      destruct (IH s1 c t1 h) as (s' & t' & E' & T' & F'); [lia | done | done | done | lia |].
      rewrite N1 in *. exists s', t'. split; [done |]. split; [done |].
      by eapply same_out_trans.
Qed.

Lemma rebalance_step fuel p s c l r h :
  zat s c (N l p r h) ->
  _avl_node_rebalance (S fuel) p s =
  (if (h =? Z.max (ht l) (ht r) + 1) && (-1 <=? ht l - ht r) && (ht l - ht r <=? 1) then Ok (tt, s)
   else bind (refit p (Z.max (ht l) (ht r) + 1) (ht l - ht r))
          (fun n => q ← get_parent n; _avl_node_rebalance fuel q) s).
Proof.
  intros (_ & Ht & _). pose proof Ht as (Hp & Hm & _). cbn [_avl_node_rebalance].
  rewrite nz_true by done.
  rewrite (bind_Ok _ _ _ _ _ (left_height_Ok _ _ _ _ _ _ Ht)).
  rewrite (bind_Ok _ _ _ _ _ (right_height_Ok _ _ _ _ _ _ Ht)).
  astep. rewrite AVL_MAX_max. destruct (_ && _); [done |].
  unfold refit. rewrite bind_bind. destruct (Z.eqb_spec h (Z.max (ht l) (ht r) + 1)) as [E0 | E0]; [| done].
  cbn [negb when]. rewrite <-E0. symmetry. astep.
  rewrite (insert_id _ _ _ Hm). by destruct s.
Qed.

Lemma rebalance_Ok fuel : forall s c t k,
  (depth c < fuel)%nat -> zat s c t -> balanced t -> cbalanced c k ->
  (ht t = k \/ ht t = k - 1) ->
  exists s' t', _avl_node_rebalance fuel (cpar c) s = Ok (tt, s') /\
    tree_of s' (cl c ++ nodes t ++ cr c) t' /\
    same_out (cl c ++ nodes t ++ cr c) (nmem s) (nmem s').
Proof.
  induction fuel as [|fuel IH]; intros s c t k Hf Hz Ht Hc Hk; [lia |].
  destruct c as [|c p r h|c l p h].
  - exists s, t. split; [done |]. split; [| apply same_out_refl].
    split; [by apply zat_top |]. split; [done |]. cbn. by rewrite app_nil_r.
  - apply zat_up_l in Hz. cbn [cpar]. rewrite (rebalance_step _ _ _ _ _ _ _ Hz).
    destruct Hc as (Hr & Hh & Hd & Hc). cbn [depth] in Hf.
    replace (cl (CL c p r h) ++ nodes t ++ cr (CL c p r h)) with (cl c ++ nodes (N t p r h) ++ cr c)
      by (cbn; by rewrite <-!app_assoc).
    destruct (_ && _) eqn:Eb.
    + rewrite !andb_true_iff, Z.eqb_eq, !Z.leb_le in Eb. destruct Eb as [[-> ?] ?].
      exists s, (plug c (N t p r (Z.max (ht t) (ht r) + 1))). split; [done |]. split; [| apply same_out_refl].
      split; [by apply zat_tree |]. split; [| by rewrite nodes_plug].
      apply balanced_plug. cbn. repeat split; try done; lia.
    + clear Eb.
      destruct (refit_Ok _ _ _ _ _ _ (Z.max (ht t) (ht r) + 1) Hz) as
        (s1 & t1 & E1 & Z1 & N1 & Ne1 & B1 & H1 & F1); [done | done | lia | done |].
      rewrite (bind_Ok _ _ _ _ _ E1), (bind_Ok _ _ _ _ _ (zat_parent _ _ _ Z1 Ne1)).
      destruct (IH s1 c t1 h) as (s' & t' & E' & T' & F'); [lia | done | done | done | lia |].
      rewrite N1 in *. exists s', t'. split; [done |]. split; [done |].
      by eapply same_out_trans.
  - apply zat_up_r in Hz. cbn [cpar]. rewrite (rebalance_step _ _ _ _ _ _ _ Hz).
    destruct Hc as (Hr & Hh & Hd & Hc). cbn [depth] in Hf.
    replace (cl (CR c l p h) ++ nodes t ++ cr (CR c l p h)) with (cl c ++ nodes (N l p t h) ++ cr c)
      by (cbn; by rewrite <-!app_assoc).
    destruct (_ && _) eqn:Eb.
    + rewrite !andb_true_iff, Z.eqb_eq, !Z.leb_le in Eb. destruct Eb as [[-> ?] ?].
      exists s, (plug c (N l p t (Z.max (ht l) (ht t) + 1))). split; [done |]. split; [| apply same_out_refl].
      split; [by apply zat_tree |]. split; [| by rewrite nodes_plug].
      apply balanced_plug. cbn. repeat split; try done; lia.
    + clear Eb.
      destruct (refit_Ok _ _ _ _ _ _ (Z.max (ht l) (ht t) + 1) Hz) as
        (s1 & t1 & E1 & Z1 & N1 & Ne1 & B1 & H1 & F1); [done | done | lia | done |].
      rewrite (bind_Ok _ _ _ _ _ E1), (bind_Ok _ _ _ _ _ (zat_parent _ _ _ Z1 Ne1)).
      destruct (IH s1 c t1 h) as (s' & t' & E' & T' & F'); [lia | done | done | done | lia |].
      rewrite N1 in *. exists s', t'. split; [done |]. split; [done |].
      by eapply same_out_trans.
Qed.

(** ** Descending *)

(** [cmp] is monotone along the nodes: what it says of one node it says of the
    nodes on that side. *)
Definition monotone (cmp : Z -> Z) (L : list Z) : Prop :=
  forall l1 x l2, L = l1 ++ x :: l2 ->
    (cmp x < 0 -> Forall (fun y => cmp y < 0) l2) /\
    (0 < cmp x -> Forall (fun y => 0 < cmp y) l1).

Definition link_of (c : ctx) : link :=
  match c with Top => RootLink | CL _ p _ _ => LeftLink p | CR _ _ p _ => RightLink p end.

Lemma read_link_Ok s c t : zat s c t -> read_link (link_of c) s = Ok (rp t, s).
Proof.
  intros (Hc & _ & _). destruct c as [|c p r h|c l p h]; cbn in *.
  - unfold get_root, gets. by rewrite Hc.
  - destruct Hc as (_ & Hm & _). by eapply get_left_Ok.
  - destruct Hc as (_ & Hm & _). by eapply get_right_Ok.
Qed.

(** Where a search starting at the focus [(c, t)] ends. *)
Definition search_end (cmp : Z -> Z) (c : ctx) (t : tree) (c' : ctx) (t' : tree) : Prop :=
  plug c t = plug c' t' /\
  match t' with
  | E => Forall (fun y => 0 < cmp y) (cl c') /\ Forall (fun y => cmp y < 0) (cr c')
  | N _ p _ _ => cmp p = 0
  end.

Lemma search_ends cmp t : forall c,
  monotone cmp (nodes (plug c t)) ->
  Forall (fun y => 0 < cmp y) (cl c) -> Forall (fun y => cmp y < 0) (cr c) ->
  exists c' t', search_end cmp c t c' t' /\
    (forall s fuel, zat s c t -> (levels t < fuel)%nat ->
       search fuel cmp (rp t) (cpar c) s =
         Ok (match t' with E => (cpar c', false) | N _ p _ _ => (p, true) end, s) /\
       descend fuel cmp (link_of c) (cpar c) s =
         Ok (match t' with E => (cpar c', link_of c', NULL) | N _ p _ _ => (p, link_of c', p) end, s)).
Proof.
  induction t as [|l IHl p r IHr h]; intros c Hm Hcl Hcr.
  - exists c, E. split; [done |]. intros s fuel Hz Hf. destruct fuel as [|fuel]; [lia |].
    split; [done |]. cbn [descend]. by rewrite (bind_Ok _ _ _ _ _ (read_link_Ok _ _ _ Hz)).
  - pose proof (Hm (cl c ++ nodes l) p (nodes r ++ cr c)) as [Hlo Hhi].
    { rewrite nodes_plug. cbn. by rewrite <-!app_assoc. }
    assert (forall s fuel, zat s c (N l p r h) -> (levels (N l p r h) < fuel)%nat ->
      exists f, fuel = S f /\ (levels l < f)%nat /\ (levels r < f)%nat /\ p <> NULL /\
        get_left p s = Ok (rp l, s) /\ get_right p s = Ok (rp r, s) /\
        read_link (link_of c) s = Ok (p, s)) as Hrun.
    { intros s fuel Hz Hf. destruct fuel as [|f]; [lia |]. exists f. cbn [levels] in Hf.
      pose proof (read_link_Ok _ _ _ Hz). destruct Hz as (_ & (Hp & Hmp & _) & _).
      repeat split; first [lia | done | by eapply get_left_Ok | by eapply get_right_Ok]. }
    destruct (Z.eqb_spec (cmp p) 0) as [E0 | N0].
    { exists c, (N l p r h). split; [done |]. intros s fuel Hz Hf.
      destruct (Hrun s fuel Hz Hf) as (f & -> & _ & _ & Hp & Gl & Gr & Hl).
      cbn [search descend rp]. rewrite nz_true by done. rewrite E0. split; [done |].
      rewrite (bind_Ok _ _ _ _ _ Hl). rewrite nz_true by done. by rewrite E0. }
    destruct (Z.ltb_spec (cmp p) 0) as [L0 | G0].
    + destruct (IHl (CL c p r h)) as (c' & t' & Hse & Hs); [done | done | |].
      { cbn. constructor; [done |]. apply Forall_app. specialize (Hlo L0).
        by apply Forall_app in Hlo as [? ?]. }
      exists c', t'. split; [done |]. intros s fuel Hz Hf.
      destruct (Hrun s fuel Hz Hf) as (f & -> & Hfl & _ & Hp & Gl & Gr & Hl).
      apply zat_up_l in Hz. destruct (Hs s f Hz Hfl) as [Hs1 Hs2].
      cbn [search descend rp]. rewrite nz_true by done.
      rewrite (proj2 (Z.eqb_neq _ _) N0), (proj2 (Z.ltb_lt _ _) L0).
      split; [by rewrite (bind_Ok _ _ _ _ _ Gl) |].
      rewrite (bind_Ok _ _ _ _ _ Hl). rewrite nz_true by done.
      by rewrite (proj2 (Z.eqb_neq _ _) N0), (proj2 (Z.ltb_lt _ _) L0).
    + destruct (IHr (CR c l p h)) as (c' & t' & Hse & Hs); [done | | done |].
      { cbn. assert (0 < cmp p) as P0 by lia. specialize (Hhi P0).
        apply Forall_app in Hhi as [? ?].
        apply Forall_app; split; [done |]. apply Forall_app; split; [done |]. by constructor. }
      exists c', t'. split; [done |]. intros s fuel Hz Hf.
      destruct (Hrun s fuel Hz Hf) as (f & -> & _ & Hfr & Hp & Gl & Gr & Hl).
      apply zat_up_r in Hz. destruct (Hs s f Hz Hfr) as [Hs1 Hs2].
      cbn [search descend rp]. rewrite nz_true by done.
      rewrite (proj2 (Z.eqb_neq _ _) N0), (proj2 (Z.ltb_ge _ _) G0).
      split; [by rewrite (bind_Ok _ _ _ _ _ Gr) |].
      rewrite (bind_Ok _ _ _ _ _ Hl). rewrite nz_true by done.
      by rewrite (proj2 (Z.eqb_neq _ _) N0), (proj2 (Z.ltb_ge _ _) G0).
Qed.

(** ** Adding *)

Lemma write_link_Ok s c x v :
  repc (nmem s) (node s) c x -> (forall y, (cnt y (cl c) + cnt y (cr c) <= 1)%nat) ->
  exists s', write_link (link_of c) v s = Ok (tt, s') /\ repc (nmem s') (node s') c v /\
    same_out (cl c ++ cr c) (nmem s) (nmem s').
Proof.
  intros Hc HD. destruct c as [|c p r h|c l p h]; cbn [link_of write_link repc] in *.
  - eexists. split; [done |]. split; [done |]. by intros ? ?.
  - destruct Hc as (Hp & Hm & Hr & Hc). astep. eexists. split; [done |]. cbn [nmem node].
    split; [split; [done |]; split; [by rewrite lookup_insert_eq |]; split |].
    + apply (rep_frame (nmem s)); [done |]. intros y Hy. hop y. done.
    + apply (repc_frame (nmem s)); [done |]. intros y Hy. hop y. done.
    + intros y Hy. hop y. done.
  - destruct Hc as (Hp & Hm & Hr & Hc). astep. eexists. split; [done |]. cbn [nmem node].
    split; [split; [done |]; split; [by rewrite lookup_insert_eq |]; split |].
    + apply (rep_frame (nmem s)); [done |]. intros y Hy. hop y. done.
    + apply (repc_frame (nmem s)); [done |]. intros y Hy. hop y. done.
    + intros y Hy. hop y. done.
Qed.

Lemma avl_node_link_Ok s c n :
  zat s c E -> n <> NULL -> cnt n (cl c ++ cr c) = 0%nat -> is_Some (nmem s !! n) ->
  exists s', avl_node_link n (cpar c) (link_of c) s = Ok (tt, s') /\ zat s' c (N E n E 0) /\
    same_out (cl c ++ n :: cr c) (nmem s) (nmem s').
Proof.
  intros (Hc & _ & HD) Hn Hf [[l r q h] Hm]. unfold avl_node_link. do 4 astep.
  cbn [nmem node]. rewrite !insert_insert_eq.
  match goal with |- context [write_link _ _ ?x] =>
    destruct (write_link_Ok x c NULL n) as (s' & E' & R' & F') end.
  { cbn [nmem node]. apply (repc_frame (nmem s)); [done |]. intros y Hy. hop y. done. }
  { intros y. cn y. }
  exists s'. split; [done |]. split; [split; [done |]; split |].
  - cbn [rep]. split; [done |]. split; [hop n; done | done].
  - intros y. cn y.
  - intros y Hy. hop y. done.
Qed.

Lemma tree_of_fuel s t : is_tree s t -> (length (nodes t) < S (size (nmem s)))%nat.
Proof. intros H%nodes_size. lia. Qed.

Lemma depth_fuel s c t : zat s c t -> (depth c < S (size (nmem s)))%nat.
Proof.
  intros H%zat_tree%nodes_size. rewrite nodes_plug, !length_app in H.
  pose proof (depth_nodes c). rewrite length_app in *. lia.
Qed.

Lemma levels_fuel s c t : zat s c t -> (levels t < S (size (nmem s)))%nat.
Proof.
  intros H%zat_tree%nodes_size. rewrite nodes_plug, !length_app in H.
  pose proof (levels_nodes t). lia.
Qed.

Lemma avl_node_post_insert_Ok s c n h :
  zat s c (N E n E h) -> cbalanced c 0 ->
  exists s' t', avl_node_post_insert n s = Ok (tt, s') /\ tree_of s' (cl c ++ n :: cr c) t' /\
    same_out (cl c ++ n :: cr c) (nmem s) (nmem s').
Proof.
  intros Hz Hc. unfold avl_node_post_insert.
  destruct (zat_set_height _ _ _ _ _ _ 1 Hz) as (s1 & E1 & Z1 & F1).
  rewrite (bind_Ok _ _ _ _ _ E1).
  rewrite (bind_Ok _ _ _ _ _ (zat_parent s1 c (N E n E 1) Z1 ltac:(done))).
  unfold avl_fuel. unfold bind at 1, gets at 1.
  destruct (post_insert_loop_Ok (S (size (nmem s1))) s1 c (N E n E 1) 0) as (s' & t' & E' & T' & F').
  { by eapply depth_fuel. } { done. } { cbn. lia. } { done. } { by right. }
  exists s', t'. split; [done |]. split; [done |].
  intros q Hq. rewrite F', F1; [done | | done]. outside Hq.
Qed.

(** A search from the root, and what [descend] returns for it. *)
Lemma search_root cmp s L t :
  tree_of s L t -> monotone cmp L ->
  exists c' t', search_end cmp Top t c' t' /\ zat s c' t' /\
    search (S (size (nmem s))) cmp (node s) NULL s =
      Ok (match t' with E => (cpar c', false) | N _ p _ _ => (p, true) end, s) /\
    descend (S (size (nmem s))) cmp RootLink NULL s =
      Ok (match t' with E => (cpar c', link_of c', NULL) | N _ p _ _ => (p, link_of c', p) end, s).
Proof.
  intros (Ht & Hb & HL) Hm.
  destruct (search_ends cmp t Top) as (c' & t' & Hse & Hs); [cbn [plug]; by rewrite HL | by constructor | by constructor |].
  exists c', t'. split; [done |]. apply zat_top in Ht. split.
  - apply zat_tree. destruct Hse as [<- _]. by apply zat_tree.
  - destruct (Hs s (S (size (nmem s))) Ht) as [H1 H2]; [by eapply levels_fuel |].
    split; [| done]. by rewrite (proj1 Ht : node s = rp t).
Qed.

Lemma tree_of_not_null s L t x : tree_of s L t -> (x ∈ L) -> x <> NULL.
Proof.
  intros ((Ht & _ & _) & _ & <-) Hx%cnt_elem ->. pose proof (rep_null _ _ _ Ht). lia.
Qed.

(** The result of adding [n]: a node equal to it, or its place. *)
Definition added (cmp : Z -> Z) (s : avl) (L : list Z) (n : Z) (d : Z) (s' : avl) : Prop :=
  ((d ∈ L) /\ cmp d = 0 /\ s' = s) \/
  (d = NULL /\ exists lo hi t', L = lo ++ hi /\ Forall (fun y => 0 < cmp y) lo /\
     Forall (fun y => cmp y < 0) hi /\ tree_of s' (lo ++ n :: hi) t' /\
     same_out (lo ++ n :: hi) (nmem s) (nmem s')).

Lemma insert_at_Ok s c n :
  zat s c E -> cbalanced c 0 -> n <> NULL -> (n ∉ cl c ++ cr c) -> is_Some (nmem s !! n) ->
  exists s' t', (avl_node_link n (cpar c) (link_of c);; avl_node_post_insert n) s = Ok (tt, s') /\
    tree_of s' (cl c ++ n :: cr c) t' /\ same_out (cl c ++ n :: cr c) (nmem s) (nmem s').
Proof.
  intros Hz Hc Hn Hf Hm.
  destruct (avl_node_link_Ok s c n) as (s1 & E1 & Z1 & F1); [done | done | | done |].
  { destruct (cnt n _) eqn:Ec; [done |]. destruct Hf. apply cnt_elem. lia. }
  rewrite (bind_Ok _ _ _ _ _ E1).
  destruct (avl_node_post_insert_Ok s1 c n 0) as (s' & t' & E' & T' & F'); [done | done |].
  exists s', t'. split; [done |]. split; [done |]. by eapply same_out_trans.
Qed.

Lemma avl_node_add_Ok cmp s L t n :
  tree_of s L t -> monotone cmp L -> n <> NULL -> (n ∉ L) -> is_Some (nmem s !! n) ->
  exists d s', avl_node_add n cmp s = Ok (d, s') /\ added cmp s L n d s'.
Proof.
  intros HT Hm Hn Hf Hdom. pose proof HT as (Ht & Hb & HL).
  destruct (search_root cmp s L t HT Hm) as (c & t' & [Hp Hse] & Hz & _ & Hd).
  unfold avl_node_add, avl_fuel. unfold bind at 1, gets at 1.
  rewrite (bind_Ok _ _ _ _ _ Hd). cbn [plug] in Hp.
  assert (cl c ++ nodes t' ++ cr c = L) as HL' by (by rewrite <-nodes_plug, <-Hp).
  destruct t' as [|l p r h].
  - cbn [when Z.eqb NULL]. change (NULL =? NULL) with true. cbn [when].
    destruct (insert_at_Ok s c n) as (s' & t1 & E1 & T1 & F1); [done | | done | | done |].
    { rewrite Hp, balanced_plug in Hb. apply Hb. }
    { by rewrite <-HL' in Hf. }
    rewrite (bind_Ok _ _ _ _ _ E1). exists NULL, s'. split; [done |]. right.
    split; [done |]. exists (cl c), (cr c), t1. destruct Hse. by rewrite <-HL'.
  - assert (p ∈ L) as HpL by (rewrite <-HL'; cbn; set_solver).
    pose proof (tree_of_not_null _ _ _ _ HT HpL).
    rewrite (proj2 (Z.eqb_neq _ _)) by done. cbn [when].
    exists p, s. split; [done |]. left. done.
Qed.

Lemma avl_node_find_Ok cmp s L t :
  tree_of s L t -> monotone cmp L ->
  exists x, avl_node_find cmp s = Ok (x, s) /\
    (((x ∈ L) /\ cmp x = 0) \/ (x = NULL /\ Forall (fun y => cmp y <> 0) L)).
Proof.
  intros HT Hm. pose proof HT as (Ht & Hb & HL).
  destruct (search_root cmp s L t HT Hm) as (c & t' & [Hp Hse] & Hz & Hd & _).
  unfold avl_node_find, avl_fuel, get_root. unfold bind at 1, gets at 1. unfold bind at 1, gets at 1.
  rewrite (bind_Ok _ _ _ _ _ Hd). cbn [plug] in Hp.
  assert (cl c ++ nodes t' ++ cr c = L) as HL' by (by rewrite <-nodes_plug, <-Hp).
  destruct t' as [|l p r h].
  - exists NULL. split; [done |]. right. split; [done |]. rewrite <-HL'. cbn.
    apply Forall_app. destruct Hse as [H1 H2].
    split; [eapply Forall_impl; [exact H1 |] | eapply Forall_impl; [exact H2 |]]; cbn; lia.
  - exists p. split; [done |]. left. split; [| done]. rewrite <-HL'. cbn. set_solver.
Qed.

(** ** Walking *)

(** Context composition: [i] inside [o]. *)
Fixpoint capp (o i : ctx) : ctx :=
  match i with Top => o | CL i p r h => CL (capp o i) p r h | CR i l p h => CR (capp o i) l p h end.

Lemma plug_capp o i t : plug (capp o i) t = plug o (plug i t).
Proof. revert t. induction i; intros t; cbn; [done | |]; auto. Qed.
Lemma cl_capp o i : cl (capp o i) = cl o ++ cl i.
Proof.
  induction i; cbn; [by rewrite app_nil_r | done |].
  rewrite IHi. by rewrite <-app_assoc.
Qed.
Lemma cr_capp o i : cr (capp o i) = cr i ++ cr o.
Proof.
  induction i as [|i IH p r h|]; cbn; [done | | done].
  rewrite IH. by rewrite <-app_assoc.
Qed.

(** Every node of a tree has a zipper. *)
Lemma focus t n : (n ∈ nodes t) -> exists c l r h, t = plug c (N l n r h).
Proof.
  induction t as [|l IHl p r IHr h]; cbn; [by intros ?%elem_of_nil |].
  rewrite elem_of_app, elem_of_cons. intros [H | [-> | H]].
  - destruct (IHl H) as (c & a & b & k & ->). exists (capp (CL Top p r h) c), a, b, k.
    by rewrite plug_capp.
  - by exists Top, l, r, h.
  - destruct (IHr H) as (c & a & b & k & ->). exists (capp (CR Top l p h) c), a, b, k.
    by rewrite plug_capp.
Qed.

Lemma NoDup_split {A} (n : A) l1 l2 k1 k2 :
  NoDup (l1 ++ n :: l2) -> l1 ++ n :: l2 = k1 ++ n :: k2 -> l1 = k1 /\ l2 = k2.
Proof.
  revert k1. induction l1 as [|x l1 IH]; intros [|y k1]; cbn; intros HN He.
  - by injection He.
  - injection He as <- ->. apply NoDup_cons in HN as [HN _]. destruct HN. set_solver.
  - injection He as -> <-. apply NoDup_cons in HN as [HN _]. destruct HN. set_solver.
  - injection He as <- He. apply NoDup_cons in HN as [_ HN]. by destruct (IH k1 HN He) as [-> ->].
Qed.

(** The zipper at the node after [L1]. *)
Lemma focus_at s L1 n L2 t :
  is_tree s t -> nodes t = L1 ++ n :: L2 ->
  exists c l r h, zat s c (N l n r h) /\ t = plug c (N l n r h) /\
    cl c ++ nodes l = L1 /\ nodes r ++ cr c = L2.
Proof.
  intros Ht HL. destruct (focus t n) as (c & l & r & h & ->); [rewrite HL; set_solver |].
  exists c, l, r, h. split; [by apply zat_tree |]. split; [done |].
  rewrite nodes_plug in HL. cbn in HL. rewrite <-app_assoc, (app_assoc (cl c)) in HL.
  apply NoDup_split in HL; [done |].
  destruct Ht as (_ & _ & Hn). rewrite nodes_plug in Hn. cbn in Hn.
  by rewrite <-app_assoc, (app_assoc (cl c)) in Hn.
Qed.

(** The first and the last node of a list, NULL if there is none. *)
Definition first_of (L : list Z) : Z := default NULL (head L).
Definition last_of (L : list Z) : Z := default NULL (last L).

Lemma leftmost_ends l : forall p r h, exists i n r' h',
  N l p r h = plug i (N E n r' h') /\ cl i = [] /\
  forall s c fuel, zat s c (N l p r h) -> (levels (N l p r h) < fuel)%nat ->
    leftmost fuel p s = Ok (n, s).
Proof.
  induction l as [|ll IH lp lr _ lh]; intros p r h.
  - exists Top, p, r, h. split; [done |]. split; [done |]. intros s c [|fuel] Hz Hf; [lia |].
    destruct Hz as (_ & (_ & Hm & _) & _). cbn [leftmost].
    astep. done.
  - destruct (IH lp lr lh) as (i & n & r' & h' & Hp & Hi & Hs).
    exists (capp (CL Top p r h) i), n, r', h'.
    rewrite plug_capp, <-Hp, cl_capp, Hi. split; [done |]. split; [done |].
    intros s c [|fuel] Hz Hf; [lia |]. pose proof Hz as (_ & (_ & Hm & (Hlp & _) & _) & _).
    cbn [leftmost rp] in *. astep. rewrite nz_true by done.
    apply zat_up_l in Hz. eapply Hs; [done |]. cbn in *. lia.
Qed.

Lemma rightmost_ends r : forall l p h, exists i n l' h',
  N l p r h = plug i (N l' n E h') /\ cr i = [] /\
  forall s c fuel, zat s c (N l p r h) -> (levels (N l p r h) < fuel)%nat ->
    rightmost fuel p s = Ok (n, s).
Proof.
  induction r as [|rl _ q rr IH rh]; intros l p h.
  - exists Top, p, l, h. split; [done |]. split; [done |]. intros s c [|fuel] Hz Hf; [lia |].
    destruct Hz as (_ & (_ & Hm & _) & _). cbn [rightmost]. astep. done.
  - destruct (IH rl q rh) as (i & n & l' & h' & Hp & Hi & Hs).
    exists (capp (CR Top l p h) i), n, l', h'.
    rewrite plug_capp, <-Hp, cr_capp, Hi. split; [done |]. split; [done |].
    intros s c [|fuel] Hz Hf; [lia |]. pose proof Hz as (_ & (_ & Hm & _ & (Hlp & _)) & _).
    cbn [rightmost rp] in *. astep. rewrite nz_true by done.
    apply zat_up_r in Hz. eapply Hs; [done |]. cbn in *. lia.
Qed.

Lemma leftmost_Ok s c l p r h fuel :
  zat s c (N l p r h) -> (levels (N l p r h) < fuel)%nat ->
  leftmost fuel p s = Ok (first_of (nodes (N l p r h)), s).
Proof.
  intros Hz Hf. destruct (leftmost_ends l p r h) as (i & n & r' & h' & Hp & Hi & Hs).
  rewrite (Hs _ _ _ Hz Hf), Hp, nodes_plug, Hi. done.
Qed.
Lemma rightmost_Ok s c l p r h fuel :
  zat s c (N l p r h) -> (levels (N l p r h) < fuel)%nat ->
  rightmost fuel p s = Ok (last_of (nodes (N l p r h)), s).
Proof.
  intros Hz Hf. destruct (rightmost_ends r l p h) as (i & n & l' & h' & Hp & Hi & Hs).
  rewrite (Hs _ _ _ Hz Hf), Hp, nodes_plug, Hi, app_nil_r. cbn.
  unfold last_of. by rewrite app_assoc, last_snoc.
Qed.

Lemma children_ne s c l p r h :
  zat s c (N l p r h) -> rp l = rp r -> l = E /\ r = E.
Proof.
  intros (_ & (_ & _ & Hl & Hr) & HD) He.
  destruct l as [|ll lp lr lh]; [split; [done |]; by eapply rp_null |].
  destruct r as [|rl rq rr rh]; [by apply rp_null with (1 := Hl) in He |].
  cbn [rp] in He. subst. specialize (HD rq). cn_simp. case_decide; [lia | done].
Qed.

Lemma climb_next_Ok c : forall s t fuel,
  zat s c t -> t <> E -> (depth c < fuel)%nat ->
  climb_next fuel (rp t) s = Ok (first_of (cr c), s).
Proof.
  induction c as [|c IH p r h|c IH l p h]; intros s t [|fuel] Hz Hne Hf; cbn [depth] in Hf; try lia;
    cbn [climb_next]; rewrite (bind_Ok _ _ _ _ _ (zat_parent _ _ _ Hz Hne)); [done | |].
  - apply zat_up_l in Hz. pose proof Hz as (_ & (Hp & Hm & _) & _). cbn [cpar].
    rewrite (proj2 (Z.eqb_neq _ _) Hp). astep. by rewrite Z.eqb_refl.
  - apply zat_up_r in Hz. pose proof Hz as (_ & (Hp & Hm & Hl & Ht) & HD). cbn [cpar].
    rewrite (proj2 (Z.eqb_neq _ _) Hp). astep.
    assert (rp l =? rp t = false) as ->.
    { apply Z.eqb_neq. intros He. by apply (children_ne _ _ _ _ _ _ Hz) in He as [_ ->]. }
    apply (IH s (N l p t h)); [done | done | lia].
Qed.

Lemma climb_prev_Ok c : forall s t fuel,
  zat s c t -> t <> E -> (depth c < fuel)%nat ->
  climb_prev fuel (rp t) s = Ok (last_of (cl c), s).
Proof.
  induction c as [|c IH p r h|c IH l p h]; intros s t [|fuel] Hz Hne Hf; cbn [depth] in Hf; try lia;
    cbn [climb_prev]; rewrite (bind_Ok _ _ _ _ _ (zat_parent _ _ _ Hz Hne)); [done | |].
  - apply zat_up_l in Hz. pose proof Hz as (_ & (Hp & Hm & Ht & Hr) & HD). cbn [cpar].
    rewrite (proj2 (Z.eqb_neq _ _) Hp). astep.
    assert (rp r =? rp t = false) as ->.
    { apply Z.eqb_neq. intros He. symmetry in He. by apply (children_ne _ _ _ _ _ _ Hz) in He as [-> _]. }
    apply (IH s (N t p r h)); [done | done | lia].
  - apply zat_up_r in Hz. pose proof Hz as (_ & (Hp & Hm & _) & _). cbn [cpar].
    rewrite (proj2 (Z.eqb_neq _ _) Hp). astep. rewrite Z.eqb_refl. cbn [cl].
    unfold last_of. by rewrite app_assoc, last_snoc.
Qed.

Lemma avl_node_first_Ok s t :
  is_tree s t -> avl_node_first s = Ok (first_of (nodes t), s).
Proof.
  intros Ht. unfold avl_node_first, get_root. unfold bind at 1, gets at 1.
  pose proof Ht as (Hr & Hn & _). rewrite Hn. destruct t as [|l p r h]; [done |].
  cbn [rp]. rewrite (proj2 (Z.eqb_neq _ _)) by apply Hr.
  unfold avl_fuel. unfold bind at 1, gets at 1. apply zat_top in Ht.
  by rewrite (leftmost_Ok _ _ _ _ _ _ _ Ht (levels_fuel _ _ _ Ht)).
Qed.
Lemma avl_node_last_Ok s t :
  is_tree s t -> avl_node_last s = Ok (last_of (nodes t), s).
Proof.
  intros Ht. unfold avl_node_last, get_root. unfold bind at 1, gets at 1.
  pose proof Ht as (Hr & Hn & _). rewrite Hn. destruct t as [|l p r h]; [done |].
  cbn [rp]. rewrite (proj2 (Z.eqb_neq _ _)) by apply Hr.
  unfold avl_fuel. unfold bind at 1, gets at 1. apply zat_top in Ht.
  by rewrite (rightmost_Ok _ _ _ _ _ _ _ Ht (levels_fuel _ _ _ Ht)).
Qed.

Lemma avl_node_next_Ok s t L1 n L2 :
  is_tree s t -> nodes t = L1 ++ n :: L2 -> avl_node_next n s = Ok (first_of L2, s).
Proof.
  intros Ht HL. destruct (focus_at _ _ _ _ _ Ht HL) as (c & l & r & h & Hz & _ & _ & <-).
  pose proof Hz as (_ & (Hn & Hm & _ & Hr) & _).
  unfold avl_node_next. rewrite (proj2 (Z.eqb_neq _ _) Hn). astep.
  unfold avl_fuel. unfold bind at 1, gets at 1.
  destruct r as [|rl rp0 rr rh].
  - cbn [rp]. by apply (climb_next_Ok c s (N l n E h)); [| | eapply depth_fuel].
  - cbn [rp]. rewrite nz_true by apply Hr. apply zat_up_r in Hz.
    rewrite (leftmost_Ok _ _ _ _ _ _ _ Hz (levels_fuel _ _ _ Hz)). cbn.
    unfold first_of. by destruct (nodes rl).
Qed.
Lemma avl_node_prev_Ok s t L1 n L2 :
  is_tree s t -> nodes t = L1 ++ n :: L2 -> avl_node_prev n s = Ok (last_of L1, s).
Proof.
  intros Ht HL. destruct (focus_at _ _ _ _ _ Ht HL) as (c & l & r & h & Hz & _ & <- & _).
  pose proof Hz as (_ & (Hn & Hm & Hl & _) & _).
  unfold avl_node_prev. rewrite (proj2 (Z.eqb_neq _ _) Hn). astep.
  unfold avl_fuel. unfold bind at 1, gets at 1.
  destruct l as [|ll lp lr lh].
  - cbn [rp nodes]. rewrite app_nil_r.
    by apply (climb_prev_Ok c s (N E n r h)); [| | eapply depth_fuel].
  - cbn [rp]. rewrite nz_true by apply Hl. apply zat_up_l in Hz.
    rewrite (rightmost_Ok _ _ _ _ _ _ _ Hz (levels_fuel _ _ _ Hz)).
    unfold last_of. rewrite last_app. cbn [nodes].
    rewrite (last_app (nodes ll)). rewrite last_cons. by destruct (last (nodes lr)).
Qed.

(** ** Replacing a node *)

Lemma avl_node_replace_Ok s c l v r h x :
  zat s c (N l v r h) -> x <> NULL -> is_Some (nmem s !! x) ->
  cnt x (cl c ++ nodes (N l v r h) ++ cr c) = 0%nat ->
  exists s', avl_node_replace v x s = Ok (tt, s') /\ zat s' c (N l x r h) /\
    nmem s' !! v = nmem s !! v /\
    same_out (cl c ++ nodes (N l x r h) ++ cr c) (nmem s) (nmem s').
Proof.
  intros (Hc & (Hv & Hm & Hl & Hr) & HD) Hx [[xl xr xp xh] Hmx] Hf. cbn [rp] in *.
  assert (x <> v) as Hxv by (intros ->; cn v).
  unfold avl_node_replace. astep.
  destruct (child_replace_Ok s c v x) as (s1 & E1 & R1 & F1); [done | done | intros y; cn y |].
  rewrite (bind_Ok _ _ _ _ _ E1).
  assert (nmem s1 !! v = Some (mk_avl (rp l) (rp r) (cpar c) h)) as Hv1 by (hop v; done).
  astep.
  destruct (reparent_Ok s1 v l x) as (s2 & E2 & N2 & R2 & F2).
  { apply (rep_frame (nmem s)); [done |]. intros q Hq. hop q. done. }
  { intros y. cn y. }
  rewrite (bind_Ok _ _ _ _ _ E2).
  assert (nmem s2 !! v = Some (mk_avl (rp l) (rp r) (cpar c) h)) as Hv2 by (hop v; done).
  astep.
  destruct (reparent_Ok s2 v r x) as (s3 & E3 & N3 & R3 & F3).
  { apply (rep_frame (nmem s)); [done |]. intros q Hq. hop q. done. }
  { intros y. cn y. }
  rewrite (bind_Ok _ _ _ _ _ E3).
  assert (nmem s3 !! v = Some (mk_avl (rp l) (rp r) (cpar c) h)) as Hv3 by (hop v; done).
  assert (nmem s3 !! x = Some (mk_avl xl xr xp xh)) as Hx3 by (hop x; done).
  do 8 astep. cbn [nmem node]. rewrite !insert_insert_eq.
  eexists. split; [done |]. split; [split; [| split] | split].
  - cbn [nmem node rp]. rewrite N3, N2. apply (repc_frame (nmem s1)); [done |].
    intros q Hq. hop q. done.
  - cbn [nmem rep]. split; [done |]. split; [by rewrite lookup_insert_eq |].
    split; [apply (rep_frame (nmem s2)); [done |] | apply (rep_frame (nmem s3)); [done |]];
      intros q Hq; hop q; done.
  - intros y. cn y.
  - hop v. done.
  - intros q Hq. hop q. done.
Qed.

(** The second half of an erase with two children: [x], already out of the
    tree, takes the place of [v]. *)
Definition take_place (old n : Z) : M avl unit :=
  ol ← get_left old; set_left n ol;;
  or ← get_right old; set_right n or;;
  op ← get_parent old; set_parent n op;;
  oh ← get_height old; set_height n oh;;
  op ← get_parent old;
  _avl_child_replace old n op;;
  ol ← get_left old;
  ASSERT (nz ol);;
  set_parent ol n;;
  or ← get_right old;
  when (nz or) (set_parent or n).

Lemma take_place_Ok s c l v r h x :
  zat s c (N l v r h) -> l <> E -> x <> NULL -> is_Some (nmem s !! x) ->
  cnt x (cl c ++ nodes (N l v r h) ++ cr c) = 0%nat ->
  exists s', take_place v x s = Ok (tt, s') /\ zat s' c (N l x r h) /\
    nmem s' !! v = nmem s !! v /\
    same_out (cl c ++ nodes (N l x r h) ++ cr c) (nmem s) (nmem s').
Proof.
  intros (Hc & (Hv & Hm & Hl & Hr) & HD) Hle Hx [[xl xr xp xh] Hmx] Hf. cbn [rp] in *.
  assert (x <> v) as Hxv by (intros ->; cn v).
  unfold take_place. do 9 astep. cbn [nmem node]. rewrite !insert_insert_eq.
  match goal with |- context [bind _ _ ?y] =>
    destruct (child_replace_Ok y c v x) as (s1 & E1 & R1 & F1); [| done | intros z; cn z |] end.
  { cbn [nmem node]. apply (repc_frame (nmem s)); [done |]. intros q Hq. hop q. done. }
  rewrite (bind_Ok _ _ _ _ _ E1).
  assert (nmem s1 !! v = Some (mk_avl (rp l) (rp r) (cpar c) h)) as Hv1 by (hop v; done).
  assert (nmem s1 !! x = Some (mk_avl (rp l) (rp r) (cpar c) h)) as Hx1 by (hop x; done).
  astep.
  assert (nz (rp l) = true) as Hnz.
  { apply nz_true. intros H0. by apply (rp_null _ _ _ Hl) in H0. }
  unfold bind at 1, ASSERT at 1. rewrite Hnz.
  destruct (reparent_Ok s1 v l x) as (s2 & E2 & N2 & R2 & F2).
  { apply (rep_frame (nmem s)); [done |]. intros q Hq. hop q. done. }
  { intros y. cn y. }
  rewrite Hnz in E2. cbn [when] in E2.
  rewrite (bind_Ok _ _ _ _ _ E2).
  assert (nmem s2 !! v = Some (mk_avl (rp l) (rp r) (cpar c) h)) as Hv2 by (hop v; done).
  astep.
  destruct (reparent_Ok s2 v r x) as (s3 & E3 & N3 & R3 & F3).
  { apply (rep_frame (nmem s)); [done |]. intros q Hq. hop q. done. }
  { intros y. cn y. }
  exists s3. split; [done |].
  split; [split; [| split] | split].
  - cbn [rp]. rewrite N3, N2. apply (repc_frame (nmem s1)); [done |].
    intros q Hq. hop q. done.
  - cbn [rep]. split; [done |]. split; [hop x; done |].
    split; [apply (rep_frame (nmem s2)); [done |] | done]. intros q Hq. hop q. done.
  - intros y. cn y.
  - hop v. done.
  - intros q Hq. hop q. done.
Qed.

(** ** Erasing *)

(** A node with at most one child [ch] is bypassed, in either order of the two
    writes. *)
Lemma unlink_Ok s c l n r h ch :
  zat s c (N l n r h) -> (l = E /\ ch = r) \/ (r = E /\ ch = l) ->
  exists s', (_avl_child_replace n (rp ch) (cpar c);; when (nz (rp ch)) (set_parent (rp ch) (cpar c))) s
    = Ok (tt, s') /\ zat s' c ch /\ same_out (cl c ++ nodes ch ++ cr c) (nmem s) (nmem s').
Proof.
  intros (Hc & (Hn & Hm & Hl & Hr) & HD) Hch. cbn [rp] in *.
  assert (rep (nmem s) n ch) as Hrc by (by destruct Hch as [[-> ->] | [-> ->]]).
  assert (forall x, (cnt x (cl c) + (cnt x [n] + cnt x (nodes ch)) + cnt x (cr c) <= 1)%nat) as HD'.
  { intros x. destruct Hch as [[-> ->] | [-> ->]]; cn x. }
  clear HD Hch Hl Hr.
  destruct (child_replace_Ok s c n (rp ch)) as (s1 & E1 & R1 & F1); [done | done | intros y; cn y |].
  rewrite (bind_Ok _ _ _ _ _ E1).
  destruct (reparent_Ok s1 n ch (cpar c)) as (s2 & E2 & N2 & R2 & F2).
  { apply (rep_frame (nmem s)); [done |]. intros q Hq. hop q. done. }
  { intros y. cn y. }
  exists s2. split; [done |]. split; [split; [| split] |].
  - rewrite N2. apply (repc_frame (nmem s1)); [done |]. intros q Hq. hop q. done.
  - done.
  - intros x. cn x.
  - intros q Hq. hop q. done.
Qed.

Lemma unlink_swapped_Ok s c n r h :
  zat s c (N E n r h) ->
  exists s', (when (nz (rp r)) (set_parent (rp r) (cpar c));; _avl_child_replace n (rp r) (cpar c)) s
    = Ok (tt, s') /\ zat s' c r /\ same_out (cl c ++ nodes r ++ cr c) (nmem s) (nmem s').
Proof.
  intros (Hc & (Hn & Hm & _ & Hr) & HD). cbn [rp] in *.
  destruct (reparent_Ok s n r (cpar c)) as (s1 & E1 & N1 & R1 & F1); [done | intros y; cn y |].
  rewrite (bind_Ok _ _ _ _ _ E1).
  destruct (child_replace_Ok s1 c n (rp r)) as (s2 & E2 & R2 & F2).
  { rewrite N1. apply (repc_frame (nmem s)); [done |]. intros q Hq. hop q. done. }
  { done. }
  { intros y. cn y. }
  exists s2. split; [done |]. split; [split; [| split] |].
  - done.
  - apply (rep_frame (nmem s1)); [done |]. intros q Hq. hop q. done.
  - intros x. cn x.
  - intros q Hq. hop q. done.
Qed.

Lemma cbalanced_rename c l n m h i k :
  cbalanced (capp (CR c l n h) i) k -> cbalanced (capp (CR c l m h) i) k.
Proof. revert k. induction i; intros k; cbn; [tauto | |]; intros (? & ? & ? & H); auto. Qed.

Lemma depth_rename c l n m h i : depth (capp (CR c l n h) i) = depth (capp (CR c l m h) i).
Proof. induction i; cbn; auto. Qed.

(** The node whose parent link the erase follows up. *)
Lemma cpar_rename s c l n m h i t :
  zat s (capp (CR c l n h) i) t ->
  (if cpar (capp (CR c l n h) i) =? n then m else cpar (capp (CR c l n h) i)) =
  cpar (capp (CR c l m h) i).
Proof.
  intros (_ & _ & HD). specialize (HD n). rewrite cl_capp, cr_capp in HD.
  destruct i as [|i p r k|i l' p k]; cbn [capp cpar] in *; [by rewrite Z.eqb_refl | |];
    (destruct (Z.eqb_spec p n) as [-> |]; [| done]); cn_simp; repeat case_decide; congruence || lia.
Qed.

Lemma assoc_erase (a b d e : list Z) (n : Z) :
  a ++ (b ++ n :: d) ++ e = (a ++ b) ++ n :: (d ++ e).
Proof. by rewrite <-!app_assoc. Qed.

Lemma children_cases l r : (l = E \/ r = E) \/ (l <> E /\ r <> E).
Proof. destruct l; [by left; left |]. destruct r; [by left; right |]. by right. Qed.

(** What the unlinking leaves for the rebalancing: a context whose hole has
    lost at most one level. *)
Definition unlinked_at (s' : avl) (L : list Z) (d : nat) (q : Z) : Prop :=
  exists c' ch k, q = cpar c' /\ zat s' c' ch /\ cl c' ++ nodes ch ++ cr c' = L /\
    balanced ch /\ cbalanced c' k /\ (ht ch = k \/ ht ch = k - 1) /\ (depth c' < d)%nat.

Lemma erase_unlink_one s c l n r h fuel :
  zat s c (N l n r h) -> balanced (N l n r h) -> cbalanced c h -> l = E \/ r = E ->
  (depth c < fuel)%nat ->
  exists s' q, erase_unlink fuel n (rp l) (rp r) s = Ok (q, s') /\
    unlinked_at s' ((cl c ++ nodes l) ++ nodes r ++ cr c) fuel q /\
    same_out ((cl c ++ nodes l) ++ n :: nodes r ++ cr c) (nmem s) (nmem s') /\ is_Some (nmem s' !! n).
Proof.
  intros Hz (Hbl & Hbr & Hh & Hd) Hcb Hone Hf. pose proof Hz as (_ & (Hn & Hm & Hl & Hr) & _).
  unfold erase_unlink.
  set (ch := if rp l =? NULL then r else l).
  assert ((l = E /\ ch = r) \/ (r = E /\ ch = l)) as Hch.
  { subst ch. destruct (Z.eqb_spec (rp l) NULL) as [H0 | H0].
    - left. split; [by eapply rp_null | done].
    - right. destruct Hone as [-> | ->]; [done | done]. }
  assert (nz (rp l) && nz (rp r) = false) as ->.
  { destruct Hone as [-> | ->]; cbn; [done |]. by rewrite andb_false_r. }
  assert ((if rp l =? NULL then rp r else rp l) = rp ch) as -> by (unfold ch; by destruct (rp l =? NULL)).
  astep.
  destruct (unlink_Ok _ _ _ _ _ _ ch Hz Hch) as (s1 & E1 & Z1 & F1).
  rewrite <-(bind_bind (_avl_child_replace _ _ _)), (bind_Ok _ _ _ _ _ E1).
  assert (cnt n (cl c ++ nodes ch ++ cr c) = 0%nat) as Hcn.
  { pose proof Hz as (_ & _ & HD). clear E1 F1 Z1. specialize (HD n).
    rewrite !cnt_app. cn_simp. case_decide; [| done].
    destruct Hch as [[-> ->] | [-> ->]]; lia. }
  exists s1, (cpar c). split; [done |]. split; cycle 1.
  { split; [| by rewrite (F1 _ Hcn), Hm]. intros x Hx. rewrite F1; [done |].
    destruct Hch as [[-> ->] | [-> ->]]; outside Hx. }
  assert ((cl c ++ nodes l) ++ nodes r ++ cr c = cl c ++ nodes ch ++ cr c) as ->.
  { destruct Hch as [[-> ->] | [-> ->]]; cbn; by rewrite <-!app_assoc. }
  exists c, ch, h. split; [done |]. split; [done |]. split; [done |].
  pose proof (ht_nonneg _ Hbl). pose proof (ht_nonneg _ Hbr).
  destruct Hch as [[-> ->] | [-> ->]]; cbn [ht] in *; repeat split; try done; lia.
Qed.

Lemma erase_unlink_two s c l n r h fuel :
  zat s c (N l n r h) -> balanced (N l n r h) -> cbalanced c h -> l <> E -> r <> E ->
  fuel = S (size (nmem s)) ->
  exists s' q, erase_unlink fuel n (rp l) (rp r) s = Ok (q, s') /\
    unlinked_at s' ((cl c ++ nodes l) ++ nodes r ++ cr c) fuel q /\
    same_out ((cl c ++ nodes l) ++ n :: nodes r ++ cr c) (nmem s) (nmem s') /\ is_Some (nmem s' !! n).
Proof.
  intros Hz Hb Hcb Hl Hr ->. destruct l as [|ll lp lr lh]; [done |]. destruct r as [|rl q rr rh]; [done |].
  clear Hl Hr. set (l := N ll lp lr lh) in *.
  pose proof Hz as (_ & (Hn & Hm & (Hl & _) & (Hr & _)) & _).
  unfold erase_unlink. change (rp l) with lp. cbn [rp]. rewrite !nz_true by done. cbn [andb].
  destruct (leftmost_ends rl q rr rh) as (i & m & r' & h' & Hp & Hi & Hs).
  pose proof Hz as Hz1. apply zat_up_r in Hz1.
  rewrite (bind_Ok _ _ _ _ _ (Hs _ _ _ Hz1 (levels_fuel _ _ _ Hz1))).
  assert (zat s (capp (CR c l n h) i) (N E m r' h')) as Hzm.
  { apply zat_tree. rewrite plug_capp, <-Hp. by apply zat_tree. }
  pose proof (depth_fuel _ _ _ Hzm) as Hdf.
  pose proof Hzm as (_ & (Hm0 & Hmm & _) & HDm). cbn [rp] in *.
  do 2 astep.
  destruct (unlink_swapped_Ok _ _ _ _ _ Hzm) as (s1 & E1 & Z1 & F1).
  rewrite <-(bind_bind (when _ _)), (bind_Ok _ _ _ _ _ E1).
  assert (nmem s1 !! m = Some (mk_avl NULL (rp r') (cpar (capp (CR c l n h) i)) h')) as Hm1.
  { rewrite F1; [done |]. specialize (HDm m). cn_simp. case_decide; [lia | done]. }
  astep. rewrite (cpar_rename _ _ _ _ m _ _ _ Z1).
  assert (zat s1 c (N l n (plug i r') h)) as Z1'.
  { apply zat_tree. apply zat_tree in Z1. by rewrite plug_capp in Z1. }
  destruct (take_place_Ok s1 c l n (plug i r') h m) as (s2 & E2 & Z2 & V2 & F2);
    [done | done | done | by rewrite Hm1 | |].
  { specialize (HDm m). rewrite cl_capp, cr_capp, Hi in HDm.
    rewrite !cnt_app. cbn [nodes]. rewrite cnt_app. cbn [cnt]. rewrite nodes_plug, Hi, !cnt_app. cn_simp. 
    repeat case_decide; congruence || lia. }
  match goal with |- context [bind (get_left n) ?k s1] =>
    assert (bind (get_left n) k s1 = bind (take_place n m) (fun _ => ret (cpar (capp (CR c l m h) i))) s1) as ->
  end.
  { unfold take_place. repeat (rewrite bind_bind; apply bind_ext; intros). done. }
  rewrite (bind_Ok _ _ _ _ _ E2).
  assert (zat s2 (capp (CR c l m h) i) r') as Z2'.
  { apply zat_tree. apply zat_tree in Z2. by rewrite plug_capp. }
  assert (balanced (plug i (N E m r' h')) /\ cbalanced (CR c l n h) (ht (N rl q rr rh))) as HB.
  { rewrite <-Hp. destruct Hb as (? & ? & ? & ?). done. }
  assert (balanced (N E m r' h') /\ cbalanced (capp (CR c l n h) i) h') as [(_ & Hbr' & Hh' & _) Hcb'].
  { apply (balanced_plug (capp (CR c l n h) i)). rewrite plug_capp.
    by apply balanced_plug; rewrite <-Hp in *. }
  exists s2, (cpar (capp (CR c l m h) i)). split; [done |]. split; [| split].
  - assert ((cl c ++ nodes l) ++ nodes (N rl q rr rh) ++ cr c =
            cl (capp (CR c l m h) i) ++ nodes r' ++ cr (capp (CR c l m h) i)) as ->.
    { rewrite cl_capp, cr_capp, Hp, nodes_plug, Hi. cbn. by rewrite !app_nil_r, <-!app_assoc. }
    exists (capp (CR c l m h) i), r', h'. split; [done |]. split; [done |]. split; [done |].
    split; [done |]. split; [by eapply cbalanced_rename |].
    split; [cbn [ht] in *; pose proof (ht_nonneg _ Hbr'); lia |].
    by rewrite <-(depth_rename c l n m h i).
  - intros x Hx. rewrite Hp, nodes_plug, Hi in Hx. cbn [nodes app] in Hx.
    rewrite F2, F1; [done | |].
    + rewrite cl_capp, cr_capp, Hi. outside Hx.
    + cbn [nodes]. rewrite nodes_plug, Hi. outside Hx.
  - rewrite V2. destruct Z1' as (_ & (_ & -> & _) & _). by eexists.
Qed.

Lemma avl_node_erase_at s c l n r h :
  zat s c (N l n r h) -> balanced (plug c (N l n r h)) ->
  exists s' t', avl_node_erase n s = Ok (tt, s') /\
    tree_of s' ((cl c ++ nodes l) ++ nodes r ++ cr c) t' /\
    same_out ((cl c ++ nodes l) ++ n :: nodes r ++ cr c) (nmem s) (nmem s') /\
    is_Some (nmem s' !! n).
Proof.
  intros Hz Hb. apply balanced_plug in Hb as [Hb Hcb].
  pose proof Hz as (_ & (Hn & Hm & Hl & Hr) & HD).
  unfold avl_node_erase. unfold bind at 1, ASSERT at 1. rewrite nz_true by done.
  unfold avl_fuel at 1. unfold bind at 1, gets at 1. do 2 astep.
  assert (exists s' q, erase_unlink (S (size (nmem s))) n (rp l) (rp r) s = Ok (q, s') /\
    unlinked_at s' ((cl c ++ nodes l) ++ nodes r ++ cr c) (S (size (nmem s))) q /\
    same_out ((cl c ++ nodes l) ++ n :: nodes r ++ cr c) (nmem s) (nmem s') /\
    is_Some (nmem s' !! n)) as (s1 & q & E1 & (c' & ch & k & -> & Z1 & HL & B1 & C1 & K1 & D1) & F1 & M1).
  { destruct (children_cases l r) as [H1 | [H1 H2]].
    - apply (erase_unlink_one _ _ _ _ _ h); [done | done | done | done | by eapply depth_fuel].
    - by apply (erase_unlink_two _ _ _ _ _ h). }
  rewrite (bind_Ok _ _ _ _ _ E1). rewrite <-HL in *.
  assert (cnt n (cl c' ++ nodes ch ++ cr c') = 0%nat) as Hcn.
  { rewrite HL. specialize (HD n). rewrite !cnt_app. cn_simp. case_decide; [lia | done]. }
  destruct (nz (cpar c')) eqn:Enz.
  - destruct (rebalance_Ok _ s1 c' ch k D1 Z1 B1 C1 K1) as (s' & t' & E' & T' & F').
    exists s', t'. split; [done |]. split; [done |]. split.
    + intros x Hx. rewrite F', F1; [done | done |]. rewrite HL. outside Hx.
    + by rewrite F'.
  - assert (c' = Top) as ->.
    { destruct c'; [done | |]; destruct Z1 as ((H0 & _) & _); cbn in Enz; by rewrite nz_true in Enz. }
    exists s1, ch. split; [done |]. split; [| done]. split; [by apply zat_top |].
    split; [done |]. cbn. by rewrite app_nil_r.
Qed.

Lemma avl_node_erase_Ok s L1 n L2 t :
  tree_of s (L1 ++ n :: L2) t ->
  exists s' t', avl_node_erase n s = Ok (tt, s') /\ tree_of s' (L1 ++ L2) t' /\
    same_out (L1 ++ n :: L2) (nmem s) (nmem s') /\ is_Some (nmem s' !! n).
Proof.
  intros (Ht & Hb & HL). destruct (focus_at _ _ _ _ _ Ht HL) as (c & l & r & h & Hz & -> & <- & <-).
  by apply (avl_node_erase_at _ _ _ _ _ h).
Qed.

(** ** Tearing down *)

Lemma nz_rp m par t : rep m par t -> nz (rp t) = match t with E => false | _ => true end.
Proof. destruct t; [done |]. intros (H & _). by apply nz_true. Qed.

Lemma sink_ends t : t <> E -> exists i n h,
  t = plug i (N E n E h) /\
  forall s c fuel, zat s c t -> (levels t < fuel)%nat -> sink fuel (rp t) s = Ok (n, s).
Proof.
  induction t as [|l IHl p r IHr h]; intros Hne; [done |]. clear Hne.
  assert (forall s c fuel, zat s c (N l p r h) -> (levels (N l p r h) < fuel)%nat ->
    exists f, (levels l < f)%nat /\ (levels r < f)%nat /\
      sink fuel p s = match l, r with
                      | E, E => Ok (p, s)
                      | E, _ => sink f (rp r) s
                      | _, _ => sink f (rp l) s
                      end) as Hrun.
  { intros s c [|f] Hz Hf; [lia |]. exists f. cbn [levels] in Hf. split; [lia |]. split; [lia |].
    destruct Hz as (_ & (_ & Hm & Hl & Hr) & _). cbn [sink].
    rewrite (bind_Ok _ _ _ _ _ (get_left_Ok _ _ _ _ _ _ Hm)), (nz_rp _ _ _ Hl).
    destruct l; [| done].
    rewrite (bind_Ok _ _ _ _ _ (get_right_Ok _ _ _ _ _ _ Hm)), (nz_rp _ _ _ Hr).
    by destruct r. }
  destruct (decide (l = E)) as [-> | Hl].
  - destruct (decide (r = E)) as [-> | Hr].
    + exists Top, p, h. split; [done |]. intros s c fuel Hz Hf.
      destruct (Hrun _ _ _ Hz Hf) as (f & _ & _ & E1). exact E1.
    + destruct (IHr Hr) as (i & n & k & Hp & Hs).
      exists (capp (CR Top E p h) i), n, k. rewrite plug_capp, <-Hp. split; [done |].
      intros s c fuel Hz Hf. destruct (Hrun _ _ _ Hz Hf) as (f & _ & Fr & E1).
      cbn [rp]. rewrite E1. apply zat_up_r in Hz. destruct r; [done |]. by eapply Hs.
  - destruct (IHl Hl) as (i & n & k & Hp & Hs).
    exists (capp (CL Top p r h) i), n, k. rewrite plug_capp, <-Hp. split; [done |].
    intros s c fuel Hz Hf. destruct (Hrun _ _ _ Hz Hf) as (f & Fl & _ & E1).
    cbn [rp]. rewrite E1. apply zat_up_l in Hz. destruct l; [done |]. by eapply Hs.
Qed.

(** Cutting a leaf off its parent. *)
Lemma avl_node_tear_at s c n h next :
  zat s c (N E n E h) -> (next = NULL -> node s <> NULL) ->
  (forall fuel, (S (size (nmem s)) = fuel) ->
     sink fuel (if next =? NULL then node s else next) s = Ok (n, s)) ->
  exists s', avl_node_tear next s = Ok ((n, cpar c), s') /\ is_tree s' (plug c E) /\
    same_out (cl c ++ n :: cr c) (nmem s) (nmem s') /\ is_Some (nmem s' !! n).
Proof.
  intros Hz Hnx Hs. pose proof Hz as (_ & (Hn & Hm & _) & HD).
  unfold avl_node_tear, get_root. unfold bind at 1, gets at 1.
  assert ((next =? NULL) && (node s =? NULL) = false) as ->.
  { apply andb_false_iff. destruct (Z.eqb_spec next NULL); [right | by left].
    by apply Z.eqb_neq, Hnx. }
  unfold avl_fuel. unfold bind at 1, gets at 1. rewrite (bind_Ok _ _ _ _ _ (Hs _ eq_refl)). astep.
  destruct (decide (c = Top)) as [-> | Hc].
  - cbn [cpar]. eexists. split; [done |]. cbn [plug].
    split; [split; [done |]; split; [done | constructor] |]. split; [by intros ? ? | cbn; by rewrite Hm].
  - assert (cpar c <> NULL) as Hp by (destruct c; [done | |]; apply Hz).
    rewrite (proj2 (Z.eqb_neq _ _) Hp).
    destruct (child_replace_Ok s c n NULL) as (s1 & E1 & R1 & F1);
      [apply Hz | done | intros y; cn y |].
    unfold _avl_child_replace in E1. rewrite nz_true in E1 by done.
    rewrite <-(bind_bind (get_left (cpar c))), (bind_Ok _ _ _ _ _ E1).
    assert (nmem s1 !! n = Some (mk_avl (rp E) (rp E) (cpar c) h)) as Hm1 by (hop n; done).
    astep. eexists. split; [done |]. split; [| split; [| cbn; by rewrite lookup_insert_eq]].
    + apply zat_tree. split; [| split; [done | intros y; cn y]]. cbn [nmem node].
      apply (repc_frame (nmem s1)); [done |]. intros q Hq. hop q. done.
    + intros q Hq. hop q. done.
Qed.

Lemma avl_node_tear_Ok s t next :
  is_tree s t -> next = NULL \/ (next ∈ nodes t) -> t <> E ->
  exists n next' s' L1 L2 t', avl_node_tear next s = Ok ((n, next'), s') /\
    nodes t = L1 ++ n :: L2 /\ is_tree s' t' /\ nodes t' = L1 ++ L2 /\
    (next' = NULL \/ (next' ∈ nodes t')) /\
    same_out (nodes t) (nmem s) (nmem s') /\ is_Some (nmem s' !! n).
Proof.
  intros Ht Hnx Hne.
  assert (exists c u, t = plug c u /\ u <> E /\ rp u = (if next =? NULL then node s else next)) as
    (c & u & -> & Hu & Hru).
  { destruct (Z.eqb_spec next NULL) as [_ | Hn].
    - exists Top, t. split; [done |]. split; [done |]. symmetry. apply Ht.
    - destruct Hnx as [Hn0 | Hin]; [done |]. destruct (focus _ _ Hin) as (c & l & r & h & ->).
      by exists c, (N l next r h). }
  destruct (sink_ends u Hu) as (i & n & h & -> & Hs).
  assert (zat s (capp c i) (N E n E h)) as Hz by (apply zat_tree; by rewrite plug_capp).
  destruct (avl_node_tear_at s (capp c i) n h next Hz) as (s' & E' & T' & F' & M').
  { intros _ H0. destruct Ht as (Hr & Hroot & _). rewrite Hroot in H0.
    by apply (rp_null _ _ _ Hr) in H0. }
  { intros fuel <-. rewrite <-Hru. apply zat_tree in Ht. eapply Hs; [done | by eapply levels_fuel]. }
  exists n, (cpar (capp c i)), s', (cl (capp c i)), (cr (capp c i)), (plug (capp c i) E).
  split; [done |]. rewrite <-plug_capp, !nodes_plug. cbn [nodes app].
  split; [done |]. split; [done |]. split; [done |]. split; [| done].
  destruct (capp c i); cbn; [by left | right; set_solver..].
Qed.

Lemma avl_node_replace_list s L1 v L2 t x :
  tree_of s (L1 ++ v :: L2) t -> x <> NULL -> (x ∉ L1 ++ v :: L2) -> is_Some (nmem s !! x) ->
  exists s' t', avl_node_replace v x s = Ok (tt, s') /\ tree_of s' (L1 ++ x :: L2) t' /\
    same_out (L1 ++ x :: L2) (nmem s) (nmem s') /\ is_Some (nmem s' !! v).
Proof.
  intros (Ht & Hb & HL) Hx Hf Hm.
  destruct (focus_at _ _ _ _ _ Ht HL) as (c & l & r & h & Hz & -> & <- & <-).
  destruct (avl_node_replace_Ok s c l v r h x Hz Hx Hm) as (s' & E' & Z' & V' & F').
  { destruct (cnt x _) eqn:Ec; [done |]. destruct Hf. rewrite <-assoc_erase. apply cnt_elem.
    cbn [nodes] in Ec. lia. }
  exists s', (plug c (N l x r h)). split; [done |]. split; [| split].
  - split; [by apply zat_tree |]. split; [| rewrite nodes_plug; apply assoc_erase].
    apply balanced_plug. by apply balanced_plug in Hb.
  - by rewrite <-assoc_erase.
  - rewrite V'. destruct Hz as (_ & (_ & -> & _) & _). by eexists.
Qed.

(** A node of the tree does not look detached. *)
Lemma not_empty s L t n :
  tree_of s L t -> (n ∈ L) -> avl_node_empty n s = Ok (false, s).
Proof.
  intros (Ht & _ & HL) Hn. destruct (focus t n) as (c & l & r & h & ->); [by rewrite HL |].
  apply zat_tree in Ht. pose proof Ht as (_ & (Hn0 & Hm & _) & HD).
  unfold avl_node_empty. astep. unfold ret. do 2 f_equal. apply Z.eqb_neq. intros He.
  specialize (HD n). destruct c; cbn in He; [done | |]; subst; cn_simp; repeat case_decide; congruence || lia.
Qed.

Lemma tree_of_frame s s' L t :
  tree_of s L t -> node s' = node s -> (forall q, (q ∈ L) -> nmem s' !! q = nmem s !! q) ->
  tree_of s' L t.
Proof.
  intros ((Hr & Hn & HN) & Hb & <-) Hnd Hf. split; [| done]. split; [| by rewrite Hnd].
  apply (rep_frame (nmem s)); [done |]. intros q Hq. apply Hf. by apply cnt_elem.
Qed.

(** Marking a node outside the tree as detached. *)
Lemma avl_node_init_Ok s L t n :
  tree_of s L t -> (n ∉ L) -> is_Some (nmem s !! n) ->
  exists s', avl_node_init n s = Ok (tt, s') /\ tree_of s' L t /\
    same_out [n] (nmem s) (nmem s') /\
    exists v, nmem s' !! n = Some v /\ parent v = n.
Proof.
  intros HT Hn [[l r q h] Hm]. unfold avl_node_init.
  rewrite (set_parent_Ok _ _ _ _ _ _ Hm). eexists. split; [done |]. cbn [nmem node]. split.
  - apply (tree_of_frame s); [done | done |]. intros x Hx. cbn. rewrite lookup_insert_ne; [done |].
    by intros ->.
  - split; [| eexists; by rewrite lookup_insert_eq].
    intros x Hx. rewrite lookup_insert_ne; [done |]. cbn in Hx. by case_decide.
Qed.
