(* ===== verification/AvlTree.v ===== *)
(** * AVL trees: the [avl_tree] interface as an ordered dictionary

    The data hung on a tree form a list sorted by key.  Every operation of the
    interface refines an operation on that list; the claims about AVL trees are
    stated here. *)
From Stdlib Require Import Sorted.
From S2P Require Import Prelude Avl AvlSpec.

(** ** The abstract dictionary *)

Section dictionary.
Context (key : Z -> Z).

Definition sorted (D : list Z) : Prop := StronglySorted (fun a b => key a < key b) D.

Fixpoint place (d : Z) (D : list Z) : list Z :=
  match D with
  | [] => [d]
  | e :: D' => if key d <? key e then d :: e :: D' else e :: place d D'
  end.
Definition lookup_key (d : Z) (D : list Z) : Z :=
  default NULL (find (fun e => key e =? key d) D).
Definition without (d : Z) (D : list Z) : list Z := filter (fun e => e <> d) D.
Definition swap (v n : Z) (D : list Z) : list Z := map (fun e => if e =? v then n else e) D.
Fixpoint after (d : Z) (D : list Z) : Z :=
  match D with
  | [] => NULL
  | e :: D' => if e =? d then first_of D' else after d D'
  end.
Definition before (d : Z) (D : list Z) : Z := after d (rev D).

Lemma place_split d lo hi :
  Forall (fun e => key e < key d) lo -> Forall (fun e => key d < key e) hi ->
  place d (lo ++ hi) = lo ++ d :: hi.
Proof.
  intros Hlo Hhi. induction Hlo as [|e lo He Hlo IH]; cbn.
  - destruct Hhi as [|e hi He Hhi]; [done |]. cbn. by rewrite (proj2 (Z.ltb_lt _ _) He).
  - rewrite (proj2 (Z.ltb_ge _ _)) by lia. by rewrite IH.
Qed.

Lemma find_key_none d D : Forall (fun e => key e <> key d) D -> lookup_key d D = NULL.
Proof.
  unfold lookup_key. intros H. induction H as [|e D He H IH]; [done |]. cbn.
  by rewrite (proj2 (Z.eqb_neq _ _) He).
Qed.

Lemma sorted_split lo e hi :
  sorted (lo ++ e :: hi) ->
  Forall (fun x => key x < key e) lo /\ Forall (fun x => key e < key x) hi.
Proof.
  induction lo as [|x lo IH]; cbn; intros H; apply StronglySorted_inv in H as [H1 H2].
  - by split; [constructor |].
  - destruct (IH H1) as [Hlo Hhi]. split; [| done]. constructor; [| done].
    rewrite Forall_forall in H2. apply H2. set_solver.
Qed.

Lemma sorted_NoDup D : sorted D -> NoDup D.
Proof.
  induction D as [|e D IH]; intros H; constructor; apply StronglySorted_inv in H as [H1 H2].
  - intros Hin. rewrite Forall_forall in H2. specialize (H2 _ Hin). lia.
  - by apply IH.
Qed.

Lemma lookup_key_mem e d D : sorted D -> (e ∈ D) -> key e = key d -> lookup_key d D = e.
Proof.
  intros Hs (lo & hi & ->)%list_elem_of_split He. destruct (sorted_split _ _ _ Hs) as [Hlo _].
  clear Hs. unfold lookup_key. induction Hlo as [|x lo Hx Hlo IH]; cbn.
  - by rewrite (proj2 (Z.eqb_eq _ _) He).
  - rewrite (proj2 (Z.eqb_neq _ _)); [done | lia].
Qed.

Lemma sorted_app lo hi :
  sorted (lo ++ hi) <-> sorted lo /\ sorted hi /\ (forall a b, (a ∈ lo) -> (b ∈ hi) -> key a < key b).
Proof.
  induction lo as [|x lo IH]; cbn.
  - split; [intros H; split; [constructor |]; split; [done | by intros ? ? ?%elem_of_nil] | by intros (_ & ? & _)].
  - split.
    + intros [H1 H2]%StronglySorted_inv. apply IH in H1 as (Ha & Hb & Hc).
      apply Forall_app in H2 as [H2 H3]. split; [by constructor |]. split; [done |].
      intros a b [-> | Hin]%elem_of_cons Hb'; [| by apply Hc].
      rewrite Forall_forall in H3. by apply H3.
    + intros ([H1 H2]%StronglySorted_inv & Hb & Hc). constructor.
      * apply IH. split; [done |]. split; [done |]. intros; apply Hc; set_solver.
      * apply Forall_app. split; [done |]. apply Forall_forall. intros b Hin. apply Hc; set_solver.
Qed.

Lemma sorted_place lo d hi :
  sorted (lo ++ hi) -> Forall (fun e => key e < key d) lo -> Forall (fun e => key d < key e) hi ->
  sorted (lo ++ d :: hi).
Proof.
  intros (Hlo & Hhi & Hb)%sorted_app Fl Fh. rewrite Forall_forall in Fl, Fh.
  apply sorted_app. split; [done |]. split.
  - constructor; [done |]. by apply Forall_forall.
  - intros a b Ha [-> | H]%elem_of_cons; [by apply Fl | by apply Hb].
Qed.

Lemma sorted_drop lo d hi : sorted (lo ++ d :: hi) -> sorted (lo ++ hi).
Proof.
  rewrite !sorted_app. intros (Ha & [Hb _]%StronglySorted_inv & Hc). split; [done |]. split; [done |].
  intros; apply Hc; set_solver.
Qed.

Lemma without_split lo d hi : NoDup (lo ++ d :: hi) -> without d (lo ++ d :: hi) = lo ++ hi.
Proof using. clear key.
  intros Hn. apply NoDup_app in Hn as (_ & Hl & [Hd _]%NoDup_cons).
  assert (forall L, (d ∉ L) -> without d L = L) as Hid.
  { induction L as [|x L IH]; [done |]. intros Hx. unfold without in *.
    rewrite filter_cons_True by (intros ->; set_solver). f_equal. apply IH. set_solver. }
  unfold without in *. rewrite filter_app, filter_cons_False by naive_solver.
  rewrite !Hid; [done | done |]. intros Hin. apply (Hl _ Hin). set_solver.
Qed.

Lemma swap_split lo v hi n :
  NoDup (lo ++ v :: hi) -> swap v n (lo ++ v :: hi) = lo ++ n :: hi.
Proof using. clear key.
  intros Hn. apply NoDup_app in Hn as (_ & Hl & [Hd _]%NoDup_cons).
  assert (forall L, (v ∉ L) -> swap v n L = L) as Hid.
  { induction L as [|x L IH]; [done |]. intros Hx. cbn.
    rewrite (proj2 (Z.eqb_neq _ _)) by (intros ->; set_solver). f_equal. apply IH. set_solver. }
  unfold swap in *. rewrite map_app. cbn. rewrite Z.eqb_refl, !Hid; [done | done |].
  intros Hin. apply (Hl _ Hin). set_solver.
Qed.

Lemma after_split lo d hi : NoDup (lo ++ d :: hi) -> after d (lo ++ d :: hi) = first_of hi.
Proof using. clear key.
  induction lo as [|x lo IH]; cbn; [by rewrite Z.eqb_refl |].
  intros [Hx Hn]%NoDup_cons. rewrite (proj2 (Z.eqb_neq _ _)); [by apply IH |].
  intros ->. set_solver.
Qed.
Lemma before_split lo d hi : NoDup (lo ++ d :: hi) -> before d (lo ++ d :: hi) = last_of lo.
Proof using. clear key.
  intros Hn. unfold before. rewrite rev_app_distr. cbn. rewrite <-app_assoc. cbn.
  rewrite after_split.
  - unfold first_of, last_of. f_equal. rewrite <-(rev_involutive lo) at 2.
    destruct (rev lo) as [|x l]; [done |]. cbn. by rewrite last_snoc.
  - assert (rev hi ++ d :: rev lo ≡ₚ lo ++ d :: hi) as ->; [| done].
    rewrite <-!Permutation_rev. solve_Permutation.
Qed.
End dictionary.

(** ** What a tree holds *)

(** [holds st D F]: the tree is balanced and its nodes are those of the data
    [D], in order; the objects [F] are detached. *)
Definition holds (st : avl_tree) (D F : list Z) : Prop :=
  (exists t, tree_of (root st) (map (fun d => d + offset st) D) t) /\
  count st = Z.of_nat (length D) /\
  0 <= offset st < 2 ^ 31 /\
  Forall (fun d => 0 < d /\ d + offset st < 2 ^ 64) (D ++ F) /\
  Forall (fun f => (f ∉ D) /\
    exists n, nmem (root st) !! (f + offset st) = Some n /\ parent n = f + offset st) F.

Definition with_root (st : avl_tree) (r : avl) : avl_tree :=
  mk_tree r (offset st) (tsize st) (count st).

Lemma on_root_Ok {A} (m : M avl A) st a r :
  m (root st) = Ok (a, r) -> on_root m st = Ok (a, with_root st r).
Proof. intros H. unfold on_root. by rewrite (zoom_Ok _ _ _ _ _ _ H). Qed.

Lemma s32_offset o : 0 <= o < 2 ^ 31 -> s32 o = o.
Proof. intros H. unfold s32. rewrite Z.mod_small by lia. lia. Qed.

Lemma data_node d o : 0 <= o < 2 ^ 31 -> 0 < d /\ d + o < 2 ^ 64 -> AVL_DATA2NODE d o = d + o.
Proof. intros Ho Hd. unfold AVL_DATA2NODE, u64. rewrite Z.mod_small; lia. Qed.
Lemma node_data d o : 0 <= o < 2 ^ 31 -> 0 < d /\ d + o < 2 ^ 64 -> AVL_NODE2DATA (d + o) o = d.
Proof. intros Ho Hd. unfold AVL_NODE2DATA, u64. rewrite Z.mod_small; lia. Qed.

Lemma map_split (o : Z) D l1 x l2 :
  map (fun d => d + o) D = l1 ++ x :: l2 ->
  exists lo e hi, D = lo ++ e :: hi /\ x = e + o /\
    l1 = map (fun d => d + o) lo /\ l2 = map (fun d => d + o) hi.
Proof.
  intros (lo & r & -> & <- & H)%map_eq_app. apply map_eq_cons in H as (e & hi & -> & <- & <-).
  by exists lo, e, hi.
Qed.

Lemma elem_map_node o d D : (d + o ∈ map (fun d => d + o) D) <-> (d ∈ D).
Proof.
  rewrite list_elem_of_In, in_map_iff, list_elem_of_In. split; [intros (x & Hx & Hin) | by exists d].
  by replace d with x by lia.
Qed.

(** Detached objects are untouched by changes to the tree. *)
Lemma detached_frame (o : Z) (D F : list Z) (m m' : gmap Z avl_node) (L : list Z) :
  Forall (fun f => (f ∉ D) /\ exists n, m !! (f + o) = Some n /\ parent n = f + o) F ->
  same_out (map (fun d => d + o) L) m m' -> (forall f, (f ∈ F) -> (f ∉ L)) ->
  Forall (fun f => exists n, m' !! (f + o) = Some n /\ parent n = f + o) F.
Proof.
  rewrite !Forall_forall. intros HF Hs HL f Hf. destruct (HF f Hf) as (_ & n & Hn & Hp).
  exists n. split; [| done]. rewrite Hs; [done |].
  destruct (cnt _ _) eqn:Ec; [done |]. exfalso. apply (HL f Hf). rewrite <-(elem_map_node o).
  apply cnt_elem. lia.
Qed.

Lemma offset_bind {A} (k : Z -> M avl_tree A) st : bind (gets offset) k st = k (offset st) st.
Proof. done. Qed.

Lemma first_map o L : L <> [] -> first_of (map (fun d => d + o) L) = first_of L + o.
Proof. by destruct L. Qed.
Lemma last_map o L : L <> [] -> last_of (map (fun d => d + o) L) = last_of L + o.
Proof.
  intros H. unfold last_of. destruct (last_is_Some L) as [_ Hl]. destruct (Hl H) as [x Hx].
  change (map ?f ?l) with (f <$> l). by rewrite fmap_last, Hx.
Qed.

(** The address of the data of the first (last) node of a part of the tree. *)
Lemma data_of_end (o : Z) (L : list Z) (e : list Z -> Z) :
  0 <= o < 2 ^ 31 -> Forall (fun d => 0 < d /\ d + o < 2 ^ 64) L ->
  (forall L, L <> [] -> e (map (fun d => d + o) L) = e L + o) -> e [] = NULL ->
  (forall L, L <> [] -> (e L ∈ L)) ->
  (if e (map (fun d => d + o) L) =? NULL then NULL
   else AVL_NODE2DATA (e (map (fun d => d + o) L)) o) = e L.
Proof.
  intros Ho Hv He H0 Hin. destruct (decide (L = [])) as [-> | Hne]; [cbn; by rewrite H0 |].
  rewrite He by done. rewrite Forall_forall in Hv. specialize (Hv _ (Hin L Hne)).
  rewrite (proj2 (Z.eqb_neq _ _)) by (unfold NULL; lia). by apply node_data.
Qed.

Lemma first_in L : L <> [] -> (first_of L ∈ L).
Proof. destruct L; [done |]. cbn. set_solver. Qed.
Lemma last_in L : L <> [] -> (last_of L ∈ L).
Proof.
  intros H. unfold last_of. destruct (last_is_Some L) as [_ Hl]. destruct (Hl H) as [x Hx].
  rewrite Hx. by apply last_Some_elem_of.
Qed.

Lemma avl_tree_first_Ok st D F :
  holds st D F -> avl_tree_first st = Ok (first_of D, st).
Proof.
  intros ((t & Ht & _ & HL) & _ & Ho & Hv & _). apply Forall_app in Hv as [Hv _].
  unfold avl_tree_first.
  rewrite (bind_Ok _ _ _ _ _ (on_root_Ok _ _ _ _ (avl_node_first_Ok _ _ Ht))), offset_bind, HL.
  unfold ret, with_root. cbn [offset].
  rewrite (data_of_end _ _ first_of Ho Hv (first_map _)); [by destruct st | done | apply first_in].
Qed.
Lemma avl_tree_last_Ok st D F :
  holds st D F -> avl_tree_last st = Ok (last_of D, st).
Proof.
  intros ((t & Ht & _ & HL) & _ & Ho & Hv & _). apply Forall_app in Hv as [Hv _].
  unfold avl_tree_last.
  rewrite (bind_Ok _ _ _ _ _ (on_root_Ok _ _ _ _ (avl_node_last_Ok _ _ Ht))), offset_bind, HL.
  unfold ret, with_root. cbn [offset].
  rewrite (data_of_end _ _ last_of Ho Hv (last_map _)); [by destruct st | done | apply last_in].
Qed.

Lemma avl_tree_next_Ok st lo d hi F :
  holds st (lo ++ d :: hi) F -> avl_tree_next d st = Ok (first_of hi, st).
Proof.
  intros ((t & Ht & _ & HL) & _ & Ho & Hv & _). rewrite <-app_assoc in Hv.
  apply Forall_app in Hv as [_ Hv]. apply Forall_cons in Hv as [Hd Hv]. apply Forall_app in Hv as [Hv _].
  rewrite map_app in HL. cbn [map] in HL.
  unfold avl_tree_next. rewrite (proj2 (Z.eqb_neq d NULL)) by (unfold NULL; lia).
  rewrite offset_bind, data_node by done.
  rewrite (bind_Ok _ _ _ _ _ (on_root_Ok _ _ _ _ (avl_node_next_Ok _ _ _ _ _ Ht HL))).
  unfold ret, with_root.
  rewrite (data_of_end _ _ first_of Ho Hv (first_map _)); [by destruct st | done | apply first_in].
Qed.
Lemma avl_tree_prev_Ok st lo d hi F :
  holds st (lo ++ d :: hi) F -> avl_tree_prev d st = Ok (last_of lo, st).
Proof.
  intros ((t & Ht & _ & HL) & _ & Ho & Hv & _). rewrite <-app_assoc in Hv.
  apply Forall_app in Hv as [Hv [Hd _]%Forall_cons].
  rewrite map_app in HL. cbn [map] in HL.
  unfold avl_tree_prev. rewrite (proj2 (Z.eqb_neq d NULL)) by (unfold NULL; lia).
  rewrite offset_bind, data_node by done.
  rewrite (bind_Ok _ _ _ _ _ (on_root_Ok _ _ _ _ (avl_node_prev_Ok _ _ _ _ _ Ht HL))).
  unfold ret, with_root.
  rewrite (data_of_end _ _ last_of Ho Hv (last_map _)); [by destruct st | done | apply last_in].
Qed.
Lemma holds_elem st D F d :
  holds st D F -> (d ∈ D ++ F) -> 0 < d /\ d + offset st < 2 ^ 64.
Proof. intros (_ & _ & _ & Hv & _) Hd. rewrite Forall_forall in Hv. by apply Hv. Qed.

(** Distinct addresses are fewer than the address space. *)
Lemma NoDup_bounded (B : Z) L :
  0 < B -> Forall (fun d => 0 < d < B) L -> NoDup L -> Z.of_nat (length L) < B.
Proof.
  intros HB Hv Hn. assert (L ⊆+ seqZ 1 (B - 1)) as Hs.
  { apply NoDup_submseteq; [done |]. intros x Hx. rewrite Forall_forall in Hv. specialize (Hv x Hx).
    apply elem_of_seqZ. lia. }
  apply submseteq_length in Hs. rewrite length_seqZ in Hs. lia.
Qed.

Lemma count_of_length (o : Z) L :
  0 <= o -> Forall (fun d => 0 < d /\ d + o < 2 ^ 64) L -> NoDup L ->
  u64 (Z.of_nat (length L)) = Z.of_nat (length L).
Proof.
  intros Ho Hv Hn. unfold u64. apply Z.mod_small. split; [lia |].
  apply NoDup_bounded; [done | | done]. eapply Forall_impl; [exact Hv |]. cbn. lia.
Qed.

Section interface.
Context (key : Z -> Z) (compare : Z -> Z -> Z).
Hypothesis compare_lt : forall a b, compare a b < 0 <-> key a < key b.
Hypothesis compare_eq : forall a b, compare a b = 0 <-> key a = key b.

Lemma compare_gt a b : 0 < compare a b <-> key b < key a.
Proof using compare_eq compare_lt. pose proof (compare_lt a b). pose proof (compare_eq a b). lia. Qed.

Definition cmp_node (d o : Z) (n : Z) : Z := compare d (AVL_NODE2DATA n o).

Lemma cmp_lo o d L :
  0 <= o < 2 ^ 31 -> Forall (fun d => 0 < d /\ d + o < 2 ^ 64) L ->
  Forall (fun y => 0 < cmp_node d o y) (map (fun d => d + o) L) <-> Forall (fun e => key e < key d) L.
Proof using compare_eq compare_lt.
  intros Ho Hv. rewrite Forall_map. rewrite !Forall_forall. rewrite Forall_forall in Hv.
  unfold cmp_node. split; intros H x Hx; specialize (H x Hx); specialize (Hv x Hx);
    rewrite node_data in * by done; by apply compare_gt.
Qed.
Lemma cmp_hi o d L :
  0 <= o < 2 ^ 31 -> Forall (fun d => 0 < d /\ d + o < 2 ^ 64) L ->
  Forall (fun y => cmp_node d o y < 0) (map (fun d => d + o) L) <-> Forall (fun e => key d < key e) L.
Proof using compare_lt.
  intros Ho Hv. rewrite Forall_map. rewrite !Forall_forall. rewrite Forall_forall in Hv.
  unfold cmp_node. split; intros H x Hx; specialize (H x Hx); specialize (Hv x Hx);
    rewrite node_data in * by done; by apply compare_lt.
Qed.

Lemma cmp_monotone o d D :
  0 <= o < 2 ^ 31 -> Forall (fun d => 0 < d /\ d + o < 2 ^ 64) D -> sorted key D ->
  monotone (cmp_node d o) (map (fun d => d + o) D).
Proof using compare_eq compare_lt.
  intros Ho Hv Hs l1 x l2 (lo & e & hi & -> & -> & -> & ->)%map_split.
  apply Forall_app in Hv as [Hv1 [Hv2 Hv3]%Forall_cons].
  destruct (sorted_split _ _ _ _ Hs) as [Hlo Hhi].
  rewrite cmp_lo, cmp_hi by done. unfold cmp_node. rewrite node_data by done.
  rewrite compare_lt, compare_gt.
  split; intros H; eapply Forall_impl; [apply Hhi | | apply Hlo |]; cbn; lia.
Qed.


(** The pure operations: they leave the tree as it is. *)
Lemma avl_tree_find_Ok st D F d :
  holds st D F -> sorted key D -> avl_tree_find compare d st = Ok (lookup_key key d D, st).
Proof using compare_eq compare_lt.
  intros ((t & HT) & _ & Ho & Hv & _) Hs. apply Forall_app in Hv as [Hv _].
  unfold avl_tree_find. rewrite offset_bind, s32_offset by done.
  destruct (search_root (cmp_node d (offset st)) _ _ t HT) as (c & t' & [Hp Hse] & Hz & Hsr & _).
  { by apply cmp_monotone. }
  rewrite (on_root_Ok _ st
    (match t' with E => NULL | N _ p _ _ => AVL_NODE2DATA p (offset st) end) (root st)); cycle 1.
  { unfold get_root, avl_fuel. unfold bind at 1, gets at 1. unfold bind at 1, gets at 1.
    rewrite (bind_Ok _ _ _ _ _ Hsr). by destruct t'. }
  assert (cl c ++ nodes t' ++ cr c = map (fun d => d + offset st) D) as HL.
  { destruct HT as (_ & _ & <-). by rewrite <-nodes_plug, <-Hp. }
  unfold with_root. destruct st as [[m nd] o sz ct]. cbn [offset root tsize count] in *.
  destruct t' as [|l p r h].
  - do 2 f_equal. symmetry. apply find_key_none. symmetry in HL.
    apply map_eq_app in HL as (lo & hi & -> & Hlo & Hhi). cbn in Hhi.
    apply Forall_app in Hv as [Hv1 Hv2]. destruct Hse as [H1 H2].
    rewrite <-Hlo, cmp_lo in H1 by done. rewrite <-Hhi, cmp_hi in H2 by done.
    apply Forall_app. split; [eapply Forall_impl; [exact H1 |] | eapply Forall_impl; [exact H2 |]]; cbn; lia.
  - cbn [nodes] in HL. rewrite assoc_erase in HL. symmetry in HL.
    apply map_split in HL as (lo & e & hi & -> & -> & _ & _).
    apply Forall_app in Hv as [_ [Hve _]%Forall_cons]. rewrite node_data by done.
    do 2 f_equal. symmetry. apply lookup_key_mem; [done | set_solver |].
    symmetry. unfold cmp_node in Hse. rewrite node_data in Hse by done. by apply compare_eq.
Qed.


(** A change of the tree's list from [D] to [D'], with [F'] detached after. *)
Lemma holds_change st r D' F' t' D F L :
  holds st D F -> tree_of r (map (fun d => d + offset st) D') t' -> sorted key D' ->
  same_out (map (fun d => d + offset st) L) (nmem (root st)) (nmem r) ->
  (forall f, (f ∈ F') -> (f ∉ D') /\
     (((f ∈ F) /\ (f ∉ L)) \/
      exists n, nmem r !! (f + offset st) = Some n /\ parent n = f + offset st)) ->
  (forall d, (d ∈ D' ++ F') -> (d ∈ D ++ F)) ->
  holds (mk_tree r (offset st) (tsize st) (u64 (Z.of_nat (length D')))) D' F'.
Proof using.
  intros (HT & Hc & Ho & Hv & HF) Ht' Hs Hso HF' Hsub.
  assert (Forall (fun d => 0 < d /\ d + offset st < 2 ^ 64) (D' ++ F')) as Hv'.
  { rewrite Forall_forall in *. intros x Hx. apply Hv. auto. }
  split; [by exists t' |]. cbn [offset count root]. split.
  { apply (count_of_length (offset st)); [lia | by apply Forall_app in Hv' as [? ?] | by eapply sorted_NoDup]. }
  split; [done |]. split; [done |]. apply Forall_forall. intros f Hf.
  destruct (HF' f Hf) as [Hnd [[HfF HfL] | Hn]]; [| done]. split; [done |].
  rewrite Forall_forall in HF. destruct (HF f HfF) as (_ & n & Hn & Hp). exists n. split; [| done].
  rewrite Hso; [done |]. destruct (cnt _ _) eqn:Ec; [done |]. exfalso. apply HfL.
  rewrite <-(elem_map_node (offset st)). apply cnt_elem. lia.
Qed.

Lemma avl_tree_add_Ok st D F d :
  holds st D F -> sorted key D -> (d ∈ D ++ F) ->
  exists st', avl_tree_add compare d st = Ok (lookup_key key d D, st') /\
    (if lookup_key key d D =? NULL
     then holds st' (place key d D) (without d F) /\ sorted key (place key d D)
     else st' = st).
Proof using compare_eq compare_lt.
  intros H Hs Hd. pose proof H as ((t & HT) & Hct & Ho & Hv & HF).
  pose proof (holds_elem _ _ _ _ H Hd) as Hvd.
  apply Forall_app in Hv as [Hv HvF].
  destruct (search_root (cmp_node d (offset st)) _ _ t HT) as (c & t' & [Hp Hse] & Hz & _ & Hdes).
  { by apply cmp_monotone. }
  assert (cl c ++ nodes t' ++ cr c = map (fun d => d + offset st) D) as HL.
  { destruct HT as (_ & _ & <-). by rewrite <-nodes_plug, <-Hp. }
  unfold avl_tree_add. rewrite offset_bind, s32_offset, data_node by done.
  erewrite bind_Ok; cycle 1.
  { apply on_root_Ok. unfold avl_fuel. unfold bind at 1, gets at 1. exact Hdes. }
  assert (with_root st (root st) = st) as -> by (by destruct st).
  destruct t' as [|l p r h].
  - change (nz NULL) with false. cbv iota. symmetry in HL.
    apply map_eq_app in HL as (lo & hi & -> & Hlo & Hhi). cbn in Hhi. symmetry in Hlo, Hhi.
    apply Forall_app in Hv as [Hv1 Hv2]. destruct Hse as [H1 H2].
    rewrite Hlo, cmp_lo in H1 by done. rewrite Hhi, cmp_hi in H2 by done.
    assert (lookup_key key d (lo ++ hi) = NULL) as Hnone.
    { apply find_key_none, Forall_app.
      split; [eapply Forall_impl; [exact H1 |] | eapply Forall_impl; [exact H2 |]]; cbn; lia. }
    assert (d ∉ lo ++ hi) as Hnd.
    { rewrite Forall_forall in H1, H2. intros [Hin | Hin]%elem_of_app; [specialize (H1 _ Hin) | specialize (H2 _ Hin)]; lia. }
    assert (d ∈ F) as HdF by set_solver.
    destruct (insert_at_Ok (root st) c (d + offset st)) as (r' & t1 & E1 & T1 & F1).
    { done. }
    { destruct HT as (_ & Hb & _). cbn [plug] in Hp. rewrite Hp, balanced_plug in Hb. apply Hb. }
    { unfold NULL. lia. }
    { by rewrite Hlo, Hhi, <-map_app, elem_map_node. }
    { rewrite Forall_forall in HF. destruct (HF _ HdF) as (_ & n & -> & _). by eexists. }
    rewrite Hlo, Hhi in T1, F1.
    change (map (fun d => d + offset st) lo ++ d + offset st :: map (fun d => d + offset st) hi)
      with (map (fun d => d + offset st) lo ++ map (fun d => d + offset st) (d :: hi)) in T1, F1.
    rewrite <-map_app in T1, F1.
    exists (mk_tree r' (offset st) (tsize st) (u64 (Z.of_nat (length (lo ++ d :: hi))))).
    rewrite Hnone, place_split by done.
    pose proof (sorted_place _ _ _ _ Hs H1 H2) as Hs'.
    split.
    + unfold bind in E1 |- *. destruct (avl_node_link _ _ _ (root st)) as [[[] r1]|] eqn:El; [| done].
      rewrite (on_root_Ok _ _ _ _ El).
      rewrite (on_root_Ok _ (with_root st r1) _ _ E1).
      unfold set_count, modify, ret, with_root. cbn. do 3 f_equal.
      rewrite Hct, !length_app. cbn. f_equal. lia.
    + change (NULL =? NULL) with true. cbv iota. split; [| done].
      eapply (holds_change st r' (lo ++ d :: hi) _ t1 _ _ _ H T1 Hs' F1).
      * intros f [Hfd Hf]%list_elem_of_filter.
        assert (f ∉ lo ++ hi) as Hfn by (rewrite Forall_forall in HF; by apply HF).
        assert (f ∉ lo ++ d :: hi) by set_solver. split; [done |]. by left.
      * intros x [Hx | [_ Hx]%list_elem_of_filter]%elem_of_app; set_solver.
  - cbn [nodes] in HL. rewrite assoc_erase in HL. symmetry in HL.
    apply map_split in HL as (lo & e & hi & -> & -> & _ & _).
    apply Forall_app in Hv as [_ [Hve _]%Forall_cons].
    rewrite nz_true by (unfold NULL; lia). rewrite node_data by done.
    assert (lookup_key key d (lo ++ e :: hi) = e) as ->.
    { apply lookup_key_mem; [done | set_solver |].
      symmetry. unfold cmp_node in Hse. rewrite node_data in Hse by done. by apply compare_eq. }
    exists st. split; [done |]. by rewrite (proj2 (Z.eqb_neq e NULL)) by (unfold NULL; lia).
Qed.
End interface.

Section removal.
Context (key : Z -> Z).

Lemma node_not_in o D d : (d ∉ D) -> cnt (d + o) (map (fun d => d + o) D) = 0%nat.
Proof.
  intros Hd. destruct (cnt _ _) eqn:Ec; [done |]. destruct Hd.
  rewrite <-(elem_map_node o). apply cnt_elem. lia.
Qed.

Lemma avl_tree_remove_Ok st D F d :
  holds st D F -> sorted key D -> (d ∈ D ++ F) ->
  exists st', avl_tree_remove d st = Ok (tt, st') /\
    holds st' (without d D) (if decide (d ∈ D) then d :: F else F) /\ sorted key (without d D).
Proof.
  intros H Hs Hd. pose proof H as ((t & HT) & Hct & Ho & Hv & HF).
  pose proof (holds_elem _ _ _ _ H Hd) as Hvd.
  unfold avl_tree_remove. rewrite offset_bind, data_node by done.
  destruct (decide (d ∈ D)) as [HdD | HdD].
  - pose proof HdD as (lo & hi & ->)%list_elem_of_split.
    rewrite (bind_Ok _ _ _ _ _ (on_root_Ok _ _ _ _
      (not_empty _ _ _ (d + offset st) HT ltac:(by rewrite elem_map_node)))).
    assert (with_root st (root st) = st) as -> by (by destruct st).
    cbn [negb when]. rewrite map_app in HT. cbn [map] in HT.
    destruct (avl_node_erase_Ok _ _ _ _ _ HT) as (r1 & t1 & E1 & T1 & F1 & M1).
    pose proof (sorted_NoDup _ _ Hs) as Hnd.
    rewrite without_split by done.
    assert (d ∉ lo ++ hi) as Hdn.
    { apply NoDup_app in Hnd as (_ & Hl & [Hd' _]%NoDup_cons). set_solver. }
    rewrite <-map_app in T1.
    destruct (avl_node_init_Ok r1 _ t1 (d + offset st) T1) as (r2 & E2 & T2 & F2 & M2);
      [by rewrite elem_map_node | done |].
    assert (sorted key (lo ++ hi)) as Hs' by (by eapply sorted_drop).
    exists (mk_tree r2 (offset st) (tsize st) (u64 (Z.of_nat (length (lo ++ hi))))).
    split.
    + rewrite (bind_Ok _ _ _ _ _ (on_root_Ok _ _ _ _ E1)).
      rewrite (bind_Ok _ _ _ _ _ (on_root_Ok _ (with_root st r1) _ _ E2)).
      unfold set_count, modify, with_root. cbn. do 4 f_equal.
      rewrite Hct, !length_app. cbn. lia.
    + split; [| done].
      eapply (holds_change key st r2 (lo ++ hi) _ t1 _ _ (lo ++ d :: hi) H T2 Hs').
      * intros x Hx. rewrite F2, F1; [done | |].
        { by rewrite map_app in Hx. }
        { rewrite map_app, !cnt_app in Hx. cbn in Hx. cbn. case_decide; lia. }
      * intros f [-> | Hf]%elem_of_cons.
        { split; [done |]. by right. }
        { rewrite Forall_forall in HF. destruct (HF _ Hf) as [Hfn _].
          split; [set_solver | by left]. }
      * intros x. set_solver.
  - assert (d ∈ F) as HdF by set_solver.
    rewrite Forall_forall in HF. destruct (HF _ HdF) as (_ & n & Hn & Hp).
    assert (avl_node_empty (d + offset st) (root st) = Ok (true, root st)) as Ee.
    { unfold avl_node_empty. destruct n as [nl nr np nh]. cbn in Hp. subst np.
      rewrite (bind_Ok _ _ _ _ _ (get_parent_Ok _ _ _ _ _ _ Hn)). unfold ret. by rewrite Z.eqb_refl. }
    rewrite (bind_Ok _ _ _ _ _ (on_root_Ok _ _ _ _ Ee)). cbn [negb when].
    exists st. split; [unfold ret, with_root; by destruct st |].
    assert (without d D = D) as ->; [| done].
    unfold without. clear -HdD. induction D as [|x D IH]; [done |].
    rewrite filter_cons_True by (intros ->; set_solver). f_equal. apply IH. set_solver.
Qed.

Lemma sorted_rename lo v hi n :
  sorted key (lo ++ v :: hi) -> key n = key v -> sorted key (lo ++ n :: hi).
Proof.
  rewrite !(sorted_app key). intros (Ha & [Hb Hc]%StronglySorted_inv & Hd) He.
  split; [done |]. split; [constructor; [done |]; by rewrite He |].
  intros a b Ha' [-> | Hb']%elem_of_cons; [rewrite He |]; apply Hd; set_solver.
Qed.

Lemma avl_tree_replace_Ok st D F v n :
  holds st D F -> sorted key D -> (v ∈ D) -> (n ∈ F) -> key n = key v ->
  exists st', avl_tree_replace v n st = Ok (tt, st') /\
    holds st' (swap v n D) (v :: without n F) /\ sorted key (swap v n D).
Proof.
  intros H Hs Hv Hn Hk. pose proof H as ((t & HT) & Hct & Ho & Hval & HF).
  pose proof (holds_elem _ _ _ _ H (proj2 (elem_of_app D F v) (or_introl Hv))) as Hvv.
  pose proof (holds_elem _ _ _ _ H (proj2 (elem_of_app D F n) (or_intror Hn))) as Hvn.
  rewrite Forall_forall in HF. destruct (HF _ Hn) as (HnD & w & Hw & _).
  unfold avl_tree_replace. rewrite offset_bind, !data_node by done.
  pose proof Hv as (lo & hi & ->)%list_elem_of_split. rewrite map_app in HT. cbn [map] in HT.
  destruct (avl_node_replace_list _ _ _ _ _ (n + offset st) HT) as (r1 & t1 & E1 & T1 & F1 & M1).
  { unfold NULL. lia. }
  { intros Hin. apply HnD. apply (elem_map_node (offset st)). by rewrite map_app. }
  { by rewrite Hw. }
  pose proof (sorted_NoDup _ _ Hs) as Hnd.
  rewrite swap_split by done.
  assert (v ∉ lo ++ n :: hi) as Hvn'.
  { apply NoDup_app in Hnd as (_ & Hl & [Hd' _]%NoDup_cons). set_solver. }
  change (map (fun d => d + offset st) lo ++ n + offset st :: map (fun d => d + offset st) hi)
    with (map (fun d => d + offset st) lo ++ map (fun d => d + offset st) (n :: hi)) in T1, F1.
  rewrite <-map_app in T1, F1.
  destruct (avl_node_init_Ok r1 _ t1 (v + offset st) T1) as (r2 & E2 & T2 & F2 & M2);
    [by rewrite elem_map_node | done |].
  pose proof (sorted_rename _ _ _ _ Hs Hk) as Hs'.
  exists (mk_tree r2 (offset st) (tsize st) (u64 (Z.of_nat (length (lo ++ n :: hi))))).
  split.
  - rewrite (bind_Ok _ _ _ _ _ (on_root_Ok _ _ _ _ E1)). unfold avl_node_init in E2.
    rewrite (on_root_Ok _ (with_root st r1) _ _ E2). unfold with_root. cbn.
    assert (count st = u64 (Z.of_nat (length (lo ++ n :: hi)))) as ->; [| done].
    assert (length (lo ++ n :: hi) = length (lo ++ v :: hi)) as -> by (by rewrite !length_app).
    rewrite Hct. symmetry.
    apply (count_of_length (offset st)); [lia | by apply Forall_app in Hval as [? _] | done].
  - split; [| done].
    eapply (holds_change key st r2 (lo ++ n :: hi) _ t1 _ _ (v :: lo ++ n :: hi) H T2 Hs').
    + intros x Hx. cbn in Hx. rewrite F2, F1; [done | lia | cbn; lia].
    + intros f [-> | [Hfn Hf]%list_elem_of_filter]%elem_of_cons.
      * split; [done |]. by right.
      * destruct (HF _ Hf) as [Hfd _]. split; [set_solver |]. left. split; [done |]. set_solver.
    + intros x [Hx | [-> | [_ Hx]%list_elem_of_filter]%elem_of_cons]%elem_of_app; set_solver.
Qed.
End removal.

(** ** Clearing *)

(** What [avl_tree_clear] relies on in [destroy]: it has the effect [eff] on
    the client's state, and does not touch the tree or any other object. *)
Definition destroys_own {T} (destroy : option (Z -> M (avl_tree * T) unit)) (eff : Z -> T -> T) : Prop :=
  match destroy with
  | None => forall d c, eff d c = c
  | Some destroy => forall d st c, exists st', destroy d (st, c) = Ok (tt, (st', eff d c)) /\
      node (root st') = node (root st) /\ offset st' = offset st /\ count st' = count st /\
      forall q, q <> AVL_DATA2NODE d (offset st) -> nmem (root st') !! q = nmem (root st) !! q
  end.
(** The client's state after the data [L] were destroyed in turn. *)
Definition after_all {T} (eff : Z -> T -> T) (L : list Z) (c : T) : T := fold_left (fun c d => eff d c) L c.

Lemma destroy_Ok {T} destroy (eff : Z -> T -> T) d st c : destroys_own destroy eff ->
  exists st', match destroy with Some destroy => destroy d | None => ret tt end (st, c) = Ok (tt, (st', eff d c)) /\
    node (root st') = node (root st) /\ offset st' = offset st /\ count st' = count st /\
    forall q, q <> AVL_DATA2NODE d (offset st) -> nmem (root st') !! q = nmem (root st) !! q.
Proof. destruct destroy; cbn; intros H; [apply H |]. exists st. by rewrite H. Qed.
Lemma on_tree_Ok {T A} (m : M avl_tree A) st (c : T) r st' : m st = Ok (r, st') -> on_tree m (st, c) = Ok (r, (st', c)).
Proof. intros E. unfold on_tree, zoom. cbn. by rewrite E. Qed.

Lemma node_roundtrip o n : 0 <= n < 2 ^ 64 -> AVL_DATA2NODE (AVL_NODE2DATA n o) o = n.
Proof.
  intros Hn. unfold AVL_DATA2NODE, AVL_NODE2DATA, u64.
  rewrite Zplus_mod_idemp_l. replace (n - o + o) with n by lia. by apply Z.mod_small.
Qed.

Lemma avl_node_tear_empty s next :
  is_tree s E -> next = NULL -> avl_node_tear next s = Ok ((NULL, NULL), s).
Proof.
  intros (_ & Hn & _) ->. unfold avl_node_tear, get_root. unfold bind at 1, gets at 1.
  rewrite Hn. done.
Qed.

Section clear.
Context {T : Type} (destroy : option (Z -> M (avl_tree * T) unit)) (eff : Z -> T -> T) (Hdestroy : destroys_own destroy eff).

Lemma clear_loop_Ok fuel : forall st c t next,
  is_tree (root st) t -> next = NULL \/ (next ∈ nodes t) ->
  (length (nodes t) < fuel)%nat -> count st = Z.of_nat (length (nodes t)) -> count st < 2 ^ 64 ->
  Forall (fun n => 0 <= n < 2 ^ 64) (nodes t) ->
  exists L st', clear_loop fuel destroy next (st, c) =
      Ok (tt, (st', after_all eff (map (fun n => AVL_NODE2DATA n (offset st)) L) c)) /\
    L ≡ₚ nodes t /\ node (root st') = NULL /\ count st' = 0 /\ offset st' = offset st /\
    same_out (nodes t) (nmem (root st)) (nmem (root st')).
Proof using Hdestroy.
  induction fuel as [|fuel IH]; intros st c t next Ht Hnx Hf Hct Hc64 Hv; [lia |].
  destruct (decide (t = E)) as [-> | Hne].
  - assert (next = NULL) as Hn0 by (destruct Hnx as [? | ?%elem_of_nil]; done).
    cbn [clear_loop]. rewrite (bind_Ok _ _ _ _ _ (on_tree_Ok _ _ c _ _ (on_root_Ok _ _ _ _ (avl_node_tear_empty _ _ Ht Hn0)))).
    exists [], st. split; [by destruct st |]. split; [done |].
    split; [by destruct Ht as (_ & -> & _) |]. split; [done |]. split; [done |]. apply same_out_refl.
  - destruct (avl_node_tear_Ok _ _ _ Ht Hnx Hne) as
      (n & nx & r1 & L1 & L2 & t' & E1 & HL & T1 & HL' & Hnx' & F1 & M1).
    assert (n <> NULL) as Hn0.
    { intros ->. pose proof (rep_null _ _ _ (proj1 Ht)) as H0. rewrite HL, cnt_app in H0. cbn [cnt] in H0. rewrite decide_True in H0 by done. lia. }
    assert (n ∉ nodes t') as Hnt'.
    { destruct Ht as (_ & _ & HN). rewrite HL in HN. rewrite HL'.
      apply NoDup_app in HN as (_ & Hl & [Hd' _]%NoDup_cons). set_solver. }
    cbn [clear_loop]. rewrite (bind_Ok _ _ _ _ _ (on_tree_Ok _ _ c _ _ (on_root_Ok _ _ _ _ E1))).
    cbn beta iota. rewrite (proj2 (Z.eqb_neq _ _) Hn0).
    erewrite bind_Ok by reflexivity. cbn [offset with_root].
    destruct M1 as [[nl nr np nh] M1].
    rewrite (bind_Ok _ _ _ _ _ (on_tree_Ok _ _ c _ _ (on_root_Ok _ (with_root st r1) _ _ (set_parent_Ok _ _ _ _ _ _ M1 n)))).
    erewrite bind_Ok by reflexivity. cbn [fst snd root offset tsize count with_root].
    match goal with |- context [bind _ _ (?s, _)] => destruct (destroy_Ok _ _ (AVL_NODE2DATA n (offset st)) s c Hdestroy) as
      (st2 & E2 & N2 & O2 & C2 & F2) end.
    rewrite (bind_Ok _ _ _ _ _ E2). cbn [root nmem node offset count tsize with_root] in *.
    rewrite HL, Forall_app, Forall_cons in Hv. destruct Hv as (Hv1 & Hvn & Hv2).
    rewrite node_roundtrip in F2 by done.
    assert (forall q, q <> n -> nmem (root st2) !! q = nmem r1 !! q) as F2'.
    { intros q Hq. rewrite F2 by done. by rewrite lookup_insert_ne. }
    assert (count st2 = Z.of_nat (length (nodes t'))) as Hct2.
    { rewrite C2, Hct, HL, HL', !length_app. unfold u64.
      rewrite Hct, HL, length_app in Hc64. cbn [length] in *. rewrite Z.mod_small; lia. }
    destruct (IH st2 (eff (AVL_NODE2DATA n (offset st)) c) t' nx) as (L & st' & E' & P' & N' & C' & O' & F').
    + destruct T1 as (R1 & Rn & RN). split; [| split; [by rewrite N2 | done]].
      apply (rep_frame (nmem r1)); [done |]. intros q Hq. apply F2'. intros ->.
      apply cnt_elem in Hq. done.
    + done.
    + rewrite HL, length_app in Hf. rewrite HL', length_app. cbn in Hf. lia.
    + done.
    + rewrite Hct2, HL', length_app. rewrite Hct, HL, length_app in Hc64. cbn in Hc64. lia.
    + rewrite HL'. by apply Forall_app.
    + cbn [offset with_root] in O2. rewrite E', O2. exists (n :: L), st'. split; [done |]. split.
      { rewrite P', HL, HL'. by apply Permutation_middle. }
      split; [done |]. split; [done |]. split; [by rewrite O', O2 |].
      intros q Hq. assert (q <> n /\ cnt q (nodes t') = 0%nat) as [Hqn Hqt].
      { rewrite HL, cnt_app in Hq. cbn in Hq. rewrite HL', cnt_app. case_decide; [lia |]. split; [done | lia]. }
      rewrite F', F2', F1; done.
Qed.
End clear.

Lemma avl_tree_clear_Ok {T} (destroy : option (Z -> M (avl_tree * T) unit)) eff st c D F :
  holds st D F -> NoDup D -> destroys_own destroy eff ->
  exists L st', avl_tree_clear destroy (st, c) = Ok (tt, (st', after_all eff L c)) /\ L ≡ₚ D /\
    node (root st') = NULL /\ count st' = 0 /\ offset st' = offset st /\
    forall q, (forall d, (d ∈ D) -> q <> d + offset st) ->
      nmem (root st') !! q = nmem (root st) !! q.
Proof.
  intros ((t & Ht & _ & HL) & Hct & Ho & Hv & _) Hn Hd. apply Forall_app in Hv as [Hv _].
  destruct (clear_loop_Ok _ _ Hd (S (size (nmem (root st)))) st c t NULL) as
    (L & st' & E' & P' & N' & C' & O' & F').
  - done.
  - by left.
  - by apply tree_of_fuel.
  - by rewrite HL, length_map.
  - rewrite Hct. apply NoDup_bounded; [done | | done]. eapply Forall_impl; [exact Hv |]. cbn. lia.
  - rewrite HL, Forall_map. eapply Forall_impl; [exact Hv |]. cbn. lia.
  - unfold avl_tree_clear. erewrite bind_Ok; [| by apply on_tree_Ok, on_root_Ok].
    assert (with_root st (root st) = st) as -> by (by destruct st).
    rewrite (bind_Ok _ _ _ _ _ E'). erewrite bind_Ok by reflexivity. cbn [fst]. rewrite C'.
    eexists _, st'. split; [done |]. split.
    + rewrite P', HL, map_map. rewrite <-(map_id D) at 2.
      assert (map (fun x => AVL_NODE2DATA (x + offset st) (offset st)) D = map id D) as ->; [| done].
      apply map_ext_in. intros d Hd'. rewrite Forall_forall in Hv. apply node_data; [done |].
      apply Hv. by apply list_elem_of_In.
    + split; [done |]. split; [done |]. split; [done |]. intros q Hq. apply F'.
      rewrite HL. destruct (cnt q _) eqn:Ec; [done |]. exfalso.
      assert (q ∈ map (fun d => d + offset st) D) as Hin by (apply cnt_elem; lia).
      apply list_elem_of_In, in_map_iff in Hin as (d & <- & Hd'). apply (Hq d); [by apply list_elem_of_In | done].
Qed.

(** ** Programs over the interface *)

(** Calls of a client, and what the dictionary does for them. *)
Inductive dict_op :=
  | OpAdd (d : Z) | OpRemove (d : Z) | OpReplace (victim d : Z)
  | OpFind (d : Z) | OpFirst | OpLast | OpNext (d : Z) | OpPrev (d : Z).

Definition exec (compare : Z -> Z -> Z) (op : dict_op) : M avl_tree Z :=
  match op with
  | OpAdd d => avl_tree_add compare d
  | OpRemove d => avl_tree_remove d;; ret 0
  | OpReplace v d => avl_tree_replace v d;; ret 0
  | OpFind d => avl_tree_find compare d
  | OpFirst => avl_tree_first
  | OpLast => avl_tree_last
  | OpNext d => avl_tree_next d
  | OpPrev d => avl_tree_prev d
  end.

Fixpoint exec_all (compare : Z -> Z -> Z) (ops : list dict_op) : M avl_tree (list Z) :=
  match ops with
  | [] => ret []
  | op :: ops => r ← exec compare op; rs ← exec_all compare ops; ret (r :: rs)
  end.

(** The dictionary: the data in the tree, sorted, and the detached objects. *)
Definition spec (key : Z -> Z) (op : dict_op) (D F : list Z) : Z * (list Z * list Z) :=
  match op with
  | OpAdd d =>
      if lookup_key key d D =? NULL then (NULL, (place key d D, without d F))
      else (lookup_key key d D, (D, F))
  | OpRemove d => (0, (without d D, if decide (d ∈ D) then d :: F else F))
  | OpReplace v d => (0, (swap v d D, v :: without d F))
  | OpFind d => (lookup_key key d D, (D, F))
  | OpFirst => (first_of D, (D, F))
  | OpLast => (last_of D, (D, F))
  | OpNext d => (after d D, (D, F))
  | OpPrev d => (before d D, (D, F))
  end.

(** What a client must respect: it names live objects, moves along elements of
    the tree, and replaces an element by a detached one with the same key. *)
Definition legal (key : Z -> Z) (op : dict_op) (D F : list Z) : Prop :=
  match op with
  | OpAdd d | OpRemove d => d ∈ D ++ F
  | OpReplace v d => (v ∈ D) /\ (d ∈ F) /\ key d = key v
  | OpNext d | OpPrev d => d ∈ D
  | OpFind _ | OpFirst | OpLast => True
  end.

Fixpoint spec_all (key : Z -> Z) (ops : list dict_op) (D F : list Z) : list Z * (list Z * list Z) :=
  match ops with
  | [] => ([], (D, F))
  | op :: ops =>
      let '(r, (D, F)) := spec key op D F in
      let '(rs, DF) := spec_all key ops D F in (r :: rs, DF)
  end.
Fixpoint legal_all (key : Z -> Z) (ops : list dict_op) (D F : list Z) : Prop :=
  match ops with
  | [] => True
  | op :: ops =>
      legal key op D F /\
      let '(_, (D, F)) := spec key op D F in legal_all key ops D F
  end.

Section client.
Context (key : Z -> Z) (compare : Z -> Z -> Z).
Hypothesis compare_lt : forall a b, compare a b < 0 <-> key a < key b.
Hypothesis compare_eq : forall a b, compare a b = 0 <-> key a = key b.

Lemma exec_Ok op st D F :
  holds st D F -> sorted key D -> legal key op D F ->
  exists st', exec compare op st = Ok ((spec key op D F).1, st') /\
    let '(_, (D', F')) := spec key op D F in holds st' D' F' /\ sorted key D'.
Proof using All.
  intros H Hs Hl. destruct op as [d | d | v d | d | | | d | d]; cbn [exec spec legal] in *.
  - destruct (avl_tree_add_Ok key compare compare_lt compare_eq _ _ _ _ H Hs Hl) as (st' & E & P).
    exists st'. destruct (Z.eqb_spec (lookup_key key d D) NULL) as [He | He].
    + by rewrite E, He.
    + subst st'. by rewrite E.
  - destruct (avl_tree_remove_Ok key _ _ _ _ H Hs Hl) as (st' & E & P).
    exists st'. by rewrite (bind_Ok _ _ _ _ _ E).
  - destruct Hl as (Hv & Hd & Hk).
    destruct (avl_tree_replace_Ok key _ _ _ _ _ H Hs Hv Hd Hk) as (st' & E & P).
    exists st'. by rewrite (bind_Ok _ _ _ _ _ E).
  - exists st. by rewrite (avl_tree_find_Ok key compare compare_lt compare_eq _ _ _ _ H Hs).
  - exists st. by rewrite (avl_tree_first_Ok _ _ _ H).
  - exists st. by rewrite (avl_tree_last_Ok _ _ _ H).
  - pose proof Hl as (lo & hi & ->)%list_elem_of_split. exists st.
    rewrite (avl_tree_next_Ok _ _ _ _ _ H), after_split by (by eapply sorted_NoDup). done.
  - pose proof Hl as (lo & hi & ->)%list_elem_of_split. exists st.
    rewrite (avl_tree_prev_Ok _ _ _ _ _ H), before_split by (by eapply sorted_NoDup). done.
Qed.

Lemma exec_all_Ok ops : forall st D F,
  holds st D F -> sorted key D -> legal_all key ops D F ->
  exists st', exec_all compare ops st = Ok ((spec_all key ops D F).1, st') /\
    let '(_, (D', F')) := spec_all key ops D F in holds st' D' F' /\ sorted key D'.
Proof using All.
  induction ops as [|op ops IH]; intros st D F H Hs Hl; [by exists st |].
  cbn [exec_all spec_all legal_all] in *. destruct Hl as [Hl1 Hl2].
  destruct (exec_Ok op st D F H Hs Hl1) as (st1 & E1 & P1).
  destruct (spec key op D F) as [r [D1 F1]]. destruct P1 as [H1 Hs1].
  destruct (IH st1 D1 F1 H1 Hs1 Hl2) as (st2 & E2 & P2).
  destruct (spec_all key ops D1 F1) as [rs [D2 F2]].
  exists st2. by rewrite (bind_Ok _ _ _ _ _ E1), (bind_Ok _ _ _ _ _ E2).
Qed.
End client.

Lemma levels_ht t : balanced t -> Z.of_nat (levels t) = ht t.
Proof.
  induction t as [|l IHl p r IHr h]; [done |]. cbn. intros (Hl & Hr & -> & _).
  rewrite <-(IHl Hl), <-(IHr Hr). lia.
Qed.

(** A search needs only as many rounds as the tree has levels. *)
Lemma search_bounded cmp s L t fuel :
  tree_of s L t -> monotone cmp L -> (levels t < fuel)%nat ->
  search fuel cmp (node s) NULL s = search (S (size (nmem s))) cmp (node s) NULL s.
Proof.
  intros (Ht & Hb & HL) Hm Hf.
  destruct (search_ends cmp t Top) as (c' & t' & _ & Hs);
    [cbn [plug]; by rewrite HL | by constructor | by constructor |].
  apply zat_top in Ht. pose proof Ht as (Hn & _). cbn in Hn.
  destruct (Hs s fuel Ht Hf) as [H1 _].
  destruct (Hs s (S (size (nmem s))) Ht (levels_fuel _ _ _ Ht)) as [H2 _].
  rewrite Hn. cbn [cpar] in *. by rewrite H1, H2.
Qed.

(** ** Claims *)

(** C4: Any program of a client over the [avl_tree] interface (add, remove,
    replace, find, first, last, next, prev) terminates without fault, returns
    what the sorted-list dictionary returns, and ends in a balanced tree whose
    in-order data are that dictionary's list. *)
Theorem avl_tree_refines_dictionary (key : Z -> Z) (compare : Z -> Z -> Z)
    (Hlt : forall a b, compare a b < 0 <-> key a < key b)
    (Heq : forall a b, compare a b = 0 <-> key a = key b)
    (ops : list dict_op) (st : avl_tree) (D F : list Z)
    (H : holds st D F) (Hs : sorted key D) (Hl : legal_all key ops D F) :
  exists st', exec_all compare ops st = Ok ((spec_all key ops D F).1, st') /\
    let '(_, (D', F')) := spec_all key ops D F in holds st' D' F' /\ sorted key D'.
Proof. by apply exec_all_Ok. Qed.

(** Three objects at 100, 200, 300 with their node at offset 8, detached. *)
Definition demo_nodes : gmap Z avl_node :=
  {[ 108 := mk_avl 0 0 108 0; 208 := mk_avl 0 0 208 0; 308 := mk_avl 0 0 308 0 ]}.
Definition demo_tree : avl_tree := mk_tree (mk_avl_state demo_nodes NULL) 8 40 0.
Definition demo_ops : list dict_op :=
  [OpAdd 300; OpAdd 200; OpAdd 100; OpFind 200; OpAdd 100; OpFirst; OpNext 100; OpRemove 200;
   OpPrev 300; OpAdd 200; OpRemove 100; OpLast].

Lemma demo_holds : holds demo_tree [] [100; 200; 300].
Proof.
  split; [exists E; repeat constructor |]. split; [done |]. split; [done |].
  split; [repeat constructor |].
  repeat constructor; try by intros ?%elem_of_nil.
  all: eexists; split; [vm_compute; reflexivity | done].
Qed.

Lemma avl_tree_refines_dictionary_witness :
  exists st', exec_all Z.sub demo_ops demo_tree =
    Ok ([0; 0; 0; 200; 100; 100; 200; 0; 100; 0; 0; 300], st').
Proof.
  destruct (avl_tree_refines_dictionary id Z.sub
    ltac:(intros; unfold id; lia) ltac:(intros; unfold id; lia)
    demo_ops demo_tree [] [100; 200; 300] demo_holds ltac:(constructor)
    ltac:(cbn; repeat split; (apply (bool_decide_unpack _); vm_compute; exact I))) as (st' & E & _).
  exists st'. rewrite E. vm_compute. reflexivity.
Defined.

(** C19: [avl_node_add] on a balanced tree whose order agrees with the
    comparison terminates: either it returns a node comparing equal and changes
    nothing, or it returns NULL and the new node stands between the nodes below
    and above it in a tree that is balanced again; nodes outside the tree are
    not touched. *)
Theorem avl_node_add_balanced (cmp : Z -> Z) (s : avl) (L : list Z) (t : tree) (n : Z)
    (HT : tree_of s L t) (Hm : monotone cmp L) (Hn : n <> NULL) (Hf : n ∉ L)
    (Hdom : is_Some (nmem s !! n)) :
  exists d s', avl_node_add n cmp s = Ok (d, s') /\ added cmp s L n d s'.
Proof. by eapply avl_node_add_Ok. Qed.

(** A tree of the nodes 16, 32 and 48 with 32 at the root; 64 is free. *)
Definition demo3 : avl := mk_avl_state
  {[ 16 := mk_avl 0 0 32 1; 32 := mk_avl 16 48 0 2; 48 := mk_avl 0 0 32 1; 64 := mk_avl 0 0 64 0 ]} 32.
Lemma demo3_tree : tree_of demo3 [16; 32; 48] (N (N E 16 E 1) 32 (N E 48 E 1) 2).
Proof.
  split; [split; [| split; [done |]] | split; [cbn; lia | done]].
  - repeat split; done.
  - apply (bool_decide_unpack _). by vm_compute.
Qed.

Lemma demo3_monotone k : monotone (fun n => k - n) [16; 32; 48].
Proof.
  intros l1 x l2 HL. split; intros Hx.
  - destruct l1 as [|a [|b [|c [|]]]]; cbn in HL; simplify_eq; repeat constructor; lia.
  - destruct l1 as [|a [|b [|c [|]]]]; cbn in HL; simplify_eq; repeat constructor; lia.
Qed.

Lemma avl_node_add_balanced_witness :
  exists d s', avl_node_add 64 (fun n => 64 - n) demo3 = Ok (d, s') /\
    added (fun n => 64 - n) demo3 [16; 32; 48] 64 d s'.
Proof.
  apply (avl_node_add_balanced (fun n => 64 - n) demo3 [16; 32; 48] _ 64 demo3_tree (demo3_monotone 64)
    ltac:(done)); [by apply (bool_decide_unpack _); vm_compute | by eexists].
Defined.

(** C13: [avl_node_erase] of any node of a balanced tree terminates, removes
    exactly that node from the in-order list and leaves the tree balanced, with
    every stored height correct; nodes outside the tree are not touched. *)
Theorem avl_node_erase_balanced (s : avl) (L1 : list Z) (n : Z) (L2 : list Z) (t : tree)
    (HT : tree_of s (L1 ++ n :: L2) t) :
  exists s' t', avl_node_erase n s = Ok (tt, s') /\ tree_of s' (L1 ++ L2) t' /\
    same_out (L1 ++ n :: L2) (nmem s) (nmem s').
Proof. destruct (avl_node_erase_Ok _ _ _ _ _ HT) as (s' & t' & ? & ? & ? & _). by exists s', t'. Qed.

Lemma avl_node_erase_balanced_witness :
  exists s' t', avl_node_erase 32 demo3 = Ok (tt, s') /\ tree_of s' [16; 48] t'.
Proof.
  destruct (avl_node_erase_balanced demo3 [16] 32 [48] _ demo3_tree) as (s' & t' & E & T & _).
  by exists s', t'.
Defined.

(** C22: In a balanced tree of [n] nodes the search loop of [avl_node_find] and
    the tree lookups ends within [fuel] rounds as soon as [(n + 1)^2 < 2^fuel],
    that is in about [2 log2 (n + 1)] rounds. *)
Theorem avl_search_logarithmic (cmp : Z -> Z) (s : avl) (L : list Z) (t : tree) (fuel : nat)
    (HT : tree_of s L t) (Hm : monotone cmp L)
    (Hf : (Z.of_nat (length L) + 1) ^ 2 < 2 ^ Z.of_nat fuel) :
  exists r, search fuel cmp (node s) NULL s = Ok (r, s) /\
    search (S (size (nmem s))) cmp (node s) NULL s = Ok (r, s).
Proof.
  pose proof HT as (Ht & Hb & HL).
  destruct (search_root cmp s L t HT Hm) as (c' & t' & _ & _ & Hs & _).
  rewrite (search_bounded _ _ _ _ fuel HT Hm).
  - by eexists.
  - pose proof (avl_height t Hb) as Hh. rewrite HL in Hh. rewrite <-(levels_ht t Hb) in Hh.
    apply Nat2Z.inj_lt. apply (Z.pow_lt_mono_r_iff 2); lia.
Qed.

Lemma avl_search_logarithmic_witness :
  exists r, search 5 (fun n => 48 - n) (node demo3) NULL demo3 = Ok (r, demo3).
Proof.
  destruct (avl_search_logarithmic (fun n => 48 - n) demo3 [16; 32; 48] _ 5 demo3_tree
    (demo3_monotone 48) ltac:(done)) as (r & E & _).
  by exists r.
Defined.

(** C33: [avl_tree_clear] terminates, calls [destroy] on every datum of the tree
    exactly once (the client's state at the end is what the calls make of it
    one after the other, over some order of the data), and leaves an empty tree
    with a zero count; memory outside the tree's own nodes is unchanged.
    [destroy] itself touches no object but the one it is given. *)
Theorem avl_tree_clear_all {T} (destroy : option (Z -> M (avl_tree * T) unit)) (eff : Z -> T -> T) (st : avl_tree) (c : T)
    (D F : list Z) (H : holds st D F) (Hn : NoDup D) (Hd : destroys_own destroy eff) :
  exists L st', avl_tree_clear destroy (st, c) = Ok (tt, (st', after_all eff L c)) /\ L ≡ₚ D /\
    node (root st') = NULL /\ count st' = 0 /\
    forall q, (forall d, (d ∈ D) -> q <> d + offset st) ->
      nmem (root st') !! q = nmem (root st) !! q.
Proof.
  destruct (avl_tree_clear_Ok _ _ _ c _ _ H Hn Hd) as (L & st' & ? & ? & ? & ? & _ & ?).
  by exists L, st'.
Qed.

(** Freeing the destroyed object, and a note of it in the client's log. *)
Definition demo_free (d : Z) : M (avl_tree * list Z) unit :=
  modify (fun '(t, log) =>
    (mk_tree (mk_avl_state (delete (AVL_DATA2NODE d (offset t)) (nmem (root t))) (node (root t)))
       (offset t) (tsize t) (count t), d :: log)).

Lemma demo_free_own : destroys_own (Some demo_free) cons.
Proof.
  intros d st c. eexists. split; [done |]. split; [done |]. split; [done |]. split; [done |].
  intros q Hq. cbn. by rewrite lookup_delete_ne.
Qed.
Lemma after_all_cons L : forall c, after_all cons L c = rev L ++ c.
Proof. induction L as [|d L IH]; intros c; [done |]. cbn. rewrite <-app_assoc. apply (IH (d :: c)). Qed.

(** The log ends with every object once, whatever it held before. *)
Lemma avl_tree_clear_all_witness :
  exists log st', avl_tree_clear (Some demo_free) (mk_tree demo3 0 40 3, [7]) = Ok (tt, (st', log ++ [7])) /\
    log ≡ₚ [16; 32; 48] /\ node (root st') = NULL.
Proof.
  destruct (avl_tree_clear_all (Some demo_free) cons (mk_tree demo3 0 40 3) [7] [16; 32; 48] []) as
    (L & st' & E & P & N & _).
  - split; [exists (N (N E 16 E 1) 32 (N E 48 E 1) 2); apply demo3_tree |].
    split; [done |]. split; [done |]. split; [repeat constructor | constructor].
  - apply (bool_decide_unpack _). by vm_compute.
  - apply demo_free_own.
  - exists (rev L), st'. rewrite after_all_cons in E. split; [exact E |]. split; [| exact N].
    by rewrite <-P, <-Permutation_rev.
Defined.
