(* ===== verification/Rbtree.v ===== *)
(** * Red-black trees: the code

    [include/aco/rbtree.h] and [lib/dstructer/rbtree.c].  A node keeps its
    parent and its colour in one word: nodes are aligned, so the low bits of
    their addresses are free.  As for the AVL trees, an operation works on the
    memory of the nodes and the pointer [root->rb_node]; the callers search and
    compare themselves, so a place for a node is a [link]. *)
From S2P Require Import Prelude Avl.

(** [src/include/aco/rbtree.h:138-145 struct rb_node] *)
Record rb_node := mk_rb { rb_parent_color : Z; rb_right : Z; rb_left : Z }.

(** [src/include/aco/rbtree.h:148-151 struct rb_root] The root pointer, with the
    memory of the nodes. *)
Record rbt := mk_rbt { rb_mem : gmap Z rb_node; rb_node_of_root : Z }.

(** [src/include/aco/rbtree.h:141-141 RB_RED] *)
Definition RB_RED : Z := 0.
(** [src/include/aco/rbtree.h:142-142 RB_BLACK] *)
Definition RB_BLACK : Z := 1.

Definition set_rb_mem (m : gmap Z rb_node) (s : rbt) : rbt := mk_rbt m (rb_node_of_root s).
Definition at_rb (p : Z) : M rbt rb_node := zoom rb_mem set_rb_mem (load p).
Definition upd_rb (p : Z) (f : rb_node -> rb_node) : M rbt unit := zoom rb_mem set_rb_mem (update p f).

Definition get_rb_left (p : Z) : M rbt Z := n ← at_rb p; ret (rb_left n).
Definition get_rb_right (p : Z) : M rbt Z := n ← at_rb p; ret (rb_right n).
Definition get_rb_word (p : Z) : M rbt Z := n ← at_rb p; ret (rb_parent_color n).
Definition set_rb_left (p v : Z) : M rbt unit := upd_rb p (fun n => mk_rb (rb_parent_color n) (rb_right n) v).
Definition set_rb_right (p v : Z) : M rbt unit := upd_rb p (fun n => mk_rb (rb_parent_color n) v (rb_left n)).
Definition set_rb_word (p : Z) (f : Z -> Z) : M rbt unit := upd_rb p (fun n => mk_rb (f (rb_parent_color n)) (rb_right n) (rb_left n)).
Definition get_rb_root : M rbt Z := gets rb_node_of_root.
Definition set_rb_root (v : Z) : M rbt unit := modify (fun s => mk_rbt (rb_mem s) v).

(** [~n] of an [int], as an unsigned long. *)
Definition mask_not (n : Z) : Z := u64 (Z.lnot n).

(** [src/include/aco/rbtree.h:154-154 rb_parent] *)
Definition rb_parent (r : Z) : M rbt Z := w ← get_rb_word r; ret (Z.land w (mask_not 3)).
(** [src/include/aco/rbtree.h:155-155 rb_color] *)
Definition rb_color (r : Z) : M rbt Z := w ← get_rb_word r; ret (Z.land w 1).
(** [src/include/aco/rbtree.h:156-156 rb_is_red] *)
Definition rb_is_red (r : Z) : M rbt bool := c ← rb_color r; ret (c =? 0).
(** [src/include/aco/rbtree.h:157-157 rb_is_black] *)
Definition rb_is_black (r : Z) : M rbt bool := c ← rb_color r; ret (negb (c =? 0)).
(** [src/include/aco/rbtree.h:158-158 rb_set_red] *)
Definition rb_set_red (r : Z) : M rbt unit := set_rb_word r (fun w => Z.land w (mask_not 1)).
(** [src/include/aco/rbtree.h:159-159 rb_set_black] *)
Definition rb_set_black (r : Z) : M rbt unit := set_rb_word r (fun w => Z.lor w 1).
(** [src/include/aco/rbtree.h:161-164 rb_set_parent] *)
Definition rb_set_parent (rb p : Z) : M rbt unit := set_rb_word rb (fun w => Z.lor (Z.land w 3) p).
(** [src/include/aco/rbtree.h:165-168 rb_set_color] *)
Definition rb_set_color (rb color : Z) : M rbt unit := set_rb_word rb (fun w => Z.lor (Z.land w (mask_not 1)) (u64 color)).

(** [src/include/aco/rbtree.h:170-170 RB_ROOT] *)
Definition RB_ROOT : M rbt unit := set_rb_root NULL.
(** [src/include/aco/rbtree.h:173-173 RB_EMPTY_ROOT] *)
Definition RB_EMPTY_ROOT : M rbt bool := r ← get_rb_root; ret (r =? NULL).
(** [src/include/aco/rbtree.h:174-174 RB_EMPTY_NODE] *)
Definition RB_EMPTY_NODE (node : Z) : M rbt bool := p ← rb_parent node; ret (p =? node).
(** [src/include/aco/rbtree.h:175-175 RB_CLEAR_NODE] *)
Definition RB_CLEAR_NODE (node : Z) : M rbt unit := rb_set_parent node node.

(** [src/include/aco/rbtree.h:177-183 rb_init_node] *)
Definition rb_init_node (rb : Z) : M rbt unit :=
  set_rb_word rb (fun _ => 0);;
  set_rb_right rb NULL;;
  set_rb_left rb NULL;;
  RB_CLEAR_NODE rb.

(** [*rb_link = node] *)
Definition write_rb_link (l : link) (v : Z) : M rbt unit :=
  match l with
  | RootLink => set_rb_root v
  | LeftLink p => set_rb_left p v
  | RightLink p => set_rb_right p v
  end.

(** [src/include/aco/rbtree.h:206-213 rb_link_node] *)
Definition rb_link_node (node parent : Z) (rb_link : link) : M rbt unit :=
  set_rb_word node (fun _ => parent);;
  set_rb_right node NULL;;
  set_rb_left node NULL;;
  write_rb_link rb_link node.

(** The loops make at most one round per node in memory, and one more to leave. *)
Definition rb_fuel : M rbt nat := gets (fun s => S (size (rb_mem s))).

(** ** Rotations *)

(** [src/lib/dstructer/rbtree.c:41-62 __rb_rotate_left] *)
Definition __rb_rotate_left (node : Z) : M rbt unit :=
  right ← get_rb_right node;
  parent ← rb_parent node;
  rl ← get_rb_left right;
  set_rb_right node rl;;
  when (nz rl) (rl ← get_rb_left right; rb_set_parent rl node);;
  set_rb_left right node;;
  rb_set_parent right parent;;
  (if nz parent then
     pl ← get_rb_left parent;
     if node =? pl then set_rb_left parent right else set_rb_right parent right
   else set_rb_root right);;
  rb_set_parent node right.

(** [src/lib/dstructer/rbtree.c:64-85 __rb_rotate_right] *)
Definition __rb_rotate_right (node : Z) : M rbt unit :=
  left ← get_rb_left node;
  parent ← rb_parent node;
  lr ← get_rb_right left;
  set_rb_left node lr;;
  when (nz lr) (lr ← get_rb_right left; rb_set_parent lr node);;
  set_rb_right left node;;
  rb_set_parent left parent;;
  (if nz parent then
     pr ← get_rb_right parent;
     if node =? pr then set_rb_right parent left else set_rb_left parent left
   else set_rb_root left);;
  rb_set_parent node left.

(** ** Insertion *)

(** [p && rb_is_red(p)] and [!p || rb_is_black(p)] *)
Definition red_node (p : Z) : M rbt bool := if nz p then rb_is_red p else ret false.
Definition black_or_null (p : Z) : M rbt bool := if nz p then rb_is_black p else ret true.

(** [src/lib/dstructer/rbtree.c:91-147 rb_insert_color (loop)] *)
Fixpoint insert_color_loop (fuel : nat) (node : Z) : M rbt unit :=
  match fuel with
  | O => fail NoFuel
  | S fuel =>
    parent ← rb_parent node;
    red ← red_node parent;
    if negb red then ret tt
    else
      gparent ← rb_parent parent;
      gl ← get_rb_left gparent;
      if parent =? gl then
        uncle ← get_rb_right gparent;
        ured ← red_node uncle;
        if ured : bool then
          rb_set_black uncle;;
          rb_set_black parent;;
          rb_set_red gparent;;
          insert_color_loop fuel gparent
        else
          pr ← get_rb_right parent;
          np ← (if pr =? node then __rb_rotate_left parent;; ret (parent, node) else ret (node, parent));
          let '(node, parent) := np : Z * Z in
          rb_set_black parent;;
          rb_set_red gparent;;
          __rb_rotate_right gparent;;
          insert_color_loop fuel node
      else
        uncle ← get_rb_left gparent;
        ured ← red_node uncle;
        if ured : bool then
          rb_set_black uncle;;
          rb_set_black parent;;
          rb_set_red gparent;;
          insert_color_loop fuel gparent
        else
          pl ← get_rb_left parent;
          np ← (if pl =? node then __rb_rotate_right parent;; ret (parent, node) else ret (node, parent));
          let '(node, parent) := np : Z * Z in
          rb_set_black parent;;
          rb_set_red gparent;;
          __rb_rotate_left gparent;;
          insert_color_loop fuel node
  end.

(** [src/lib/dstructer/rbtree.c:87-150 rb_insert_color] *)
Definition rb_insert_color (node : Z) : M rbt unit :=
  fuel ← rb_fuel;
  insert_color_loop fuel node;;
  root ← get_rb_root;
  rb_set_black root.

(** ** Removal *)

(** [(!p->rb_left || rb_is_black(p->rb_left)) &&
    (!p->rb_right || rb_is_black(p->rb_right))] *)
Definition both_black (p : Z) : M rbt bool :=
  l ← get_rb_left p;
  lblack ← black_or_null l;
  if lblack : bool then r ← get_rb_right p; black_or_null r else ret false.

(** [src/lib/dstructer/rbtree.c:157-227 __rb_erase_color (loop)] The node to
    paint black at the end. *)
Fixpoint erase_color_loop (fuel : nat) (node parent : Z) : M rbt Z :=
  match fuel with
  | O => fail NoFuel
  | S fuel =>
    black ← black_or_null node;
    root ← get_rb_root;
    if negb (black && negb (node =? root)) then ret node
    else
      pl ← get_rb_left parent;
      if pl =? node then
        other ← get_rb_right parent;
        ored ← rb_is_red other;
        other ← (if ored : bool then
                   rb_set_black other;;
                   rb_set_red parent;;
                   __rb_rotate_left parent;;
                   get_rb_right parent
                 else ret other);
        both ← both_black other;
        if both : bool then
          rb_set_red other;;
          above ← rb_parent parent;
          erase_color_loop fuel parent above
        else
          or ← get_rb_right other;
          orblack ← black_or_null or;
          other ← (if orblack : bool then
                     ol ← get_rb_left other;
                     rb_set_black ol;;
                     rb_set_red other;;
                     __rb_rotate_right other;;
                     get_rb_right parent
                   else ret other);
          color ← rb_color parent;
          rb_set_color other color;;
          rb_set_black parent;;
          or ← get_rb_right other;
          rb_set_black or;;
          __rb_rotate_left parent;;
          get_rb_root
      else
        other ← get_rb_left parent;
        ored ← rb_is_red other;
        other ← (if ored : bool then
                   rb_set_black other;;
                   rb_set_red parent;;
                   __rb_rotate_right parent;;
                   get_rb_left parent
                 else ret other);
        both ← both_black other;
        if both : bool then
          rb_set_red other;;
          above ← rb_parent parent;
          erase_color_loop fuel parent above
        else
          ol ← get_rb_left other;
          olblack ← black_or_null ol;
          other ← (if olblack : bool then
                     or ← get_rb_right other;
                     rb_set_black or;;
                     rb_set_red other;;
                     __rb_rotate_left other;;
                     get_rb_left parent
                   else ret other);
          color ← rb_color parent;
          rb_set_color other color;;
          rb_set_black parent;;
          ol ← get_rb_left other;
          rb_set_black ol;;
          __rb_rotate_right parent;;
          get_rb_root
  end.

(** [src/lib/dstructer/rbtree.c:152-230 __rb_erase_color] *)
Definition __rb_erase_color (node parent : Z) : M rbt unit :=
  fuel ← rb_fuel;
  node ← erase_color_loop fuel node parent;
  when (nz node) (rb_set_black node).

(** [while((left = node->rb_left) != NULL) node = left], and its mirror. *)
Fixpoint rb_leftmost (fuel : nat) (node : Z) : M rbt Z :=
  match fuel with
  | O => fail NoFuel
  | S fuel => l ← get_rb_left node; if nz l then rb_leftmost fuel l else ret node
  end.
Fixpoint rb_rightmost (fuel : nat) (node : Z) : M rbt Z :=
  match fuel with
  | O => fail NoFuel
  | S fuel => r ← get_rb_right node; if nz r then rb_rightmost fuel r else ret node
  end.

(** [parent->rb_left == node], the link of a node in its parent or the root. *)
Definition replace_child (old new parent : Z) : M rbt unit :=
  if nz parent then
    pl ← get_rb_left parent;
    if pl =? old then set_rb_left parent new else set_rb_right parent new
  else set_rb_root new.

(** [src/lib/dstructer/rbtree.c:240-276 rb_erase (two children)] The node that
    follows [old] takes its place; what is left to recolour: the child that
    moved up, its parent and the colour that is gone. *)
Definition erase_two (old : Z) : M rbt (Z * Z * Z) :=
  r ← get_rb_right old;
  fuel ← rb_fuel;
  node ← rb_leftmost fuel r;
  op ← rb_parent old;
  replace_child old node op;;
  child ← get_rb_right node;
  parent ← rb_parent node;
  color ← rb_color node;
  parent ← (if parent =? old then ret node
            else
              when (nz child) (rb_set_parent child parent);;
              set_rb_left parent child;;
              or ← get_rb_right old;
              set_rb_right node or;;
              or ← get_rb_right old;
              rb_set_parent or node;;
              ret parent);
  ow ← get_rb_word old;
  set_rb_word node (fun _ => ow);;
  ol ← get_rb_left old;
  set_rb_left node ol;;
  ol ← get_rb_left old;
  rb_set_parent ol node;;
  ret (child, parent, color).

(** [src/lib/dstructer/rbtree.c:279-292 rb_erase (one child)] *)
Definition erase_one (node child : Z) : M rbt (Z * Z * Z) :=
  parent ← rb_parent node;
  color ← rb_color node;
  when (nz child) (rb_set_parent child parent);;
  replace_child node child parent;;
  ret (child, parent, color).

(** [src/lib/dstructer/rbtree.c:232-297 rb_erase] *)
Definition rb_erase (node : Z) : M rbt unit :=
  l ← get_rb_left node;
  cpc ← (if negb (nz l) then r ← get_rb_right node; erase_one node r
         else r ← get_rb_right node; if negb (nz r) then erase_one node l else erase_two node);
  let '(child, parent, color) := cpc : Z * Z * Z in
  when (color =? RB_BLACK) (__rb_erase_color child parent).

(** ** Walking *)

(** [src/lib/dstructer/rbtree.c:370-380 rb_first] *)
Definition rb_first : M rbt Z :=
  n ← get_rb_root;
  if n =? NULL then ret NULL else fuel ← rb_fuel; rb_leftmost fuel n.

(** [src/lib/dstructer/rbtree.c:382-392 rb_last] *)
Definition rb_last : M rbt Z :=
  n ← get_rb_root;
  if n =? NULL then ret NULL else fuel ← rb_fuel; rb_rightmost fuel n.

(** [src/lib/dstructer/rbtree.c:416-419 rb_next (climb)] *)
Fixpoint rb_climb_next (fuel : nat) (node : Z) : M rbt Z :=
  match fuel with
  | O => fail NoFuel
  | S fuel =>
    parent ← rb_parent node;
    if parent =? NULL then ret parent
    else r ← get_rb_right parent; if node =? r then rb_climb_next fuel parent else ret parent
  end.

(** [src/lib/dstructer/rbtree.c:394-420 rb_next] *)
Definition rb_next (node : Z) : M rbt Z :=
  p ← rb_parent node;
  if p =? node then ret NULL
  else
    r ← get_rb_right node;
    fuel ← rb_fuel;
    if nz r then rb_leftmost fuel r else rb_climb_next fuel node.

(** [src/lib/dstructer/rbtree.c:440-443 rb_prev (climb)] *)
Fixpoint rb_climb_prev (fuel : nat) (node : Z) : M rbt Z :=
  match fuel with
  | O => fail NoFuel
  | S fuel =>
    parent ← rb_parent node;
    if parent =? NULL then ret parent
    else l ← get_rb_left parent; if node =? l then rb_climb_prev fuel parent else ret parent
  end.

(** [src/lib/dstructer/rbtree.c:422-444 rb_prev] *)
Definition rb_prev (node : Z) : M rbt Z :=
  p ← rb_parent node;
  if p =? node then ret NULL
  else
    l ← get_rb_left node;
    fuel ← rb_fuel;
    if nz l then rb_rightmost fuel l else rb_climb_prev fuel node.

(** [src/lib/dstructer/rbtree.c:446-467 rb_replace_node] *)
Definition rb_replace_node (victim new : Z) : M rbt unit :=
  parent ← rb_parent victim;
  (if nz parent then
     pl ← get_rb_left parent;
     if victim =? pl then set_rb_left parent new else set_rb_right parent new
   else set_rb_root new);;
  l ← get_rb_left victim;
  when (nz l) (l ← get_rb_left victim; rb_set_parent l new);;
  r ← get_rb_right victim;
  when (nz r) (r ← get_rb_right victim; rb_set_parent r new);;
  v ← at_rb victim;
  upd_rb new (fun _ => v).

(** ** Augmented trees *)

Section augment.
(** The callback [func], with its argument [data]. *)
Context (func : Z -> M rbt unit).

(** [src/lib/dstructer/rbtree.c:299-316 rb_augment_path] *)
Fixpoint rb_augment_path (fuel : nat) (node : Z) : M rbt unit :=
  match fuel with
  | O => fail NoFuel
  | S fuel =>
    func node;;
    parent ← rb_parent node;
    if parent =? NULL then ret tt
    else
      pl ← get_rb_left parent;
      pr ← get_rb_right parent;
      (if (node =? pl) && nz pr then func pr else when (nz pl) (func pl));;
      rb_augment_path fuel parent
  end.

(** [src/lib/dstructer/rbtree.c:322-330 rb_augment_insert] *)
Definition rb_augment_insert (node : Z) : M rbt unit :=
  l ← get_rb_left node;
  r ← get_rb_right node;
  fuel ← rb_fuel;
  rb_augment_path fuel (if nz l then l else if nz r then r else node).

(** [src/lib/dstructer/rbtree.c:361-365 rb_augment_erase_end] *)
Definition rb_augment_erase_end (node : Z) : M rbt unit :=
  fuel ← rb_fuel;
  when (nz node) (rb_augment_path fuel node).
End augment.

(** [src/lib/dstructer/rbtree.c:336-355 rb_augment_erase_begin] *)
Definition rb_augment_erase_begin (node : Z) : M rbt Z :=
  r ← get_rb_right node;
  l ← get_rb_left node;
  if negb (nz r) && negb (nz l) then rb_parent node
  else if negb (nz r) then ret l
  else if negb (nz l) then ret r
  else
    deepest ← rb_next node;
    dr ← get_rb_right deepest;
    if nz dr then ret dr
    else
      p ← rb_parent deepest;
      if p =? node then ret deepest else ret p.
