(* ===== verification/RbSpec.v ===== *)
(** * Red-black trees: memory

    A memory of red-black nodes whose words are well formed is the image
    ([conc]) of a memory of [AvlSpec] that keeps the colour in the place of the
    height.  An operation of [Rbtree] on the image does what its counterpart
    does on the original ([sim]), so trees, contexts and their lemmas are those
    of [AvlSpec]. *)
From S2P Require Import Prelude Avl AvlSpec Rbtree.

(** ** Words *)

(** The address of a node, or NULL: a multiple of [sizeof(long)]. *)
Definition ptr (p : Z) : Prop := 0 <= p < 2 ^ 64 /\ p mod 8 = 0.
Definition bit (h : Z) : Prop := h = 0 \/ h = 1.

Lemma ptr_null : ptr NULL.
Proof. split; [unfold NULL; lia | done]. Qed.

Lemma ptr_mult p : ptr p -> exists k, p = 8 * k /\ 0 <= k < 2 ^ 61.
Proof. intros [Hp Hm]. exists (p / 8). pose proof (Z.div_mod p 8 ltac:(lia)). lia. Qed.

Lemma land_mask w n : 0 <= n -> 0 <= w < 2 ^ 64 -> Z.land w (mask_not (Z.ones n)) = Z.shiftl (Z.shiftr w n) n.
Proof.
  intros Hn Hw. rewrite <-Z.ldiff_ones_r by done. unfold mask_not, u64. rewrite <-Z.land_ones by lia.
  apply Z.bits_inj'. intros i Hi. rewrite !Z.land_spec, Z.ldiff_spec, Z.lnot_spec by done.
  destruct (Z.lt_ge_cases i 64); [by rewrite (Z.ones_spec_low 64 i), andb_true_r by lia |].
  assert (Z.testbit w i = false) as ->; [| done]. apply (Z.bits_above_log2 w i); [lia |].
  destruct (decide (w = 0)) as [-> |]; [cbn; lia |]. apply Z.log2_lt_pow2; [lia |].
  apply Z.lt_le_trans with (2 ^ 64); [lia | apply Z.pow_le_mono_r; lia].
Qed.

(** A word holds a parent and a colour. *)
Lemma word_parent p h : ptr p -> bit h -> Z.land (p + h) (mask_not 3) = p.
Proof.
  intros (k & -> & Hk)%ptr_mult Hh. change 3 with (Z.ones 2). rewrite land_mask by (destruct Hh; lia).
  rewrite Z.shiftr_div_pow2, Z.shiftl_mul_pow2 by lia. change (2 ^ 2) with 4.
  replace ((8 * k + h) / 4) with (2 * k); [lia |]. destruct Hh as [-> | ->].
  - replace (8 * k + 0) with (2 * k * 4) by lia. by rewrite Z.div_mul by lia.
  - replace (8 * k + 1) with (1 + 2 * k * 4) by lia. rewrite Z.div_add by lia. done.
Qed.
Lemma word_color p h : ptr p -> bit h -> Z.land (p + h) 1 = h.
Proof.
  intros (k & -> & Hk)%ptr_mult Hh. change 1 with (Z.ones 1). rewrite Z.land_ones by lia.
  replace (8 * k + h) with (h + 4 * k * 2 ^ 1) by lia. rewrite Z.mod_add by lia. by destruct Hh as [-> | ->].
Qed.
Lemma word_clear p h : ptr p -> bit h -> Z.land (p + h) (mask_not 1) = p.
Proof.
  intros (k & -> & Hk)%ptr_mult Hh. change 1 with (Z.ones 1). rewrite land_mask by (destruct Hh; lia).
  rewrite Z.shiftr_div_pow2, Z.shiftl_mul_pow2 by lia. change (2 ^ 1) with 2.
  replace ((8 * k + h) / 2) with (4 * k); [lia |]. destruct Hh as [-> | ->].
  - replace (8 * k + 0) with (4 * k * 2) by lia. by rewrite Z.div_mul by lia.
  - replace (8 * k + 1) with (1 + 4 * k * 2) by lia. rewrite Z.div_add by lia. done.
Qed.
Lemma word_low p h : ptr p -> bit h -> Z.land (p + h) 3 = h.
Proof.
  intros (k & -> & Hk)%ptr_mult Hh. change 3 with (Z.ones 2). rewrite Z.land_ones by lia.
  replace (8 * k + h) with (h + 2 * k * 2 ^ 2) by lia. rewrite Z.mod_add by lia. by destruct Hh as [-> | ->].
Qed.
Lemma word_join p h : ptr p -> bit h -> Z.lor h p = p + h /\ Z.lor p h = p + h.
Proof.
  intros Hp Hh. pose proof (word_color p 0 Hp ltac:(by left)) as H0. rewrite Z.add_0_r in H0.
  assert (Z.lor p h = p + h) as E; [| by rewrite Z.lor_comm].
  destruct Hh as [-> | ->]; [by rewrite Z.lor_0_r, Z.add_0_r |]. pose proof (Z.add_lor_land p 1). lia.
Qed.

(** ** Memories *)

Definition enc (n : avl_node) : rb_node := mk_rb (parent n + height n) (right n) (left n).
Definition conc (a : avl) : rbt := mk_rbt (enc <$> nmem a) (node a).

Record typed (n : avl_node) : Prop := {
  ty_left : ptr (left n);
  ty_right : ptr (right n);
  ty_parent : ptr (parent n);
  ty_color : bit (height n)
}.
(** Every node is well formed, and so is the root pointer. *)
Record good (a : avl) : Prop := {
  gd_nodes : forall p n, nmem a !! p = Some n -> typed n;
  gd_root : ptr (node a)
}.

Lemma good_insert a p n : good a -> typed n -> good (mk_avl_state (<[p := n]> (nmem a)) (node a)).
Proof.
  intros [G R] T. split; [| done]. intros q m. cbn. rewrite lookup_insert_Some. intros [[_ <-] | [_ Hm]]; [done | by eapply G].
Qed.

(** ** Simulation *)

(** What [m2] does to a well-formed memory, [m1] does to its image; the result
    satisfies [P]. *)
Definition sim {A} (P : A -> Prop) (m1 : M rbt A) (m2 : M avl A) : Prop :=
  forall a r a', good a -> m2 a = Ok (r, a') -> m1 (conc a) = Ok (r, conc a') /\ good a' /\ P r.

Lemma sim_ret {A} (P : A -> Prop) (x : A) : P x -> sim P (ret x) (ret x).
Proof. intros Hx a r a' G [= <- <-]. done. Qed.
Lemma sim_bind {A B} (P : A -> Prop) (Q : B -> Prop) m1 m2 f1 f2 :
  sim P m1 m2 -> (forall x, P x -> sim Q (f1 x) (f2 x)) -> sim Q (bind m1 f1) (bind m2 f2).
Proof.
  intros H Hf a r a' G (x & a1 & E1 & E2)%bind_inv. destruct (H a x a1 G E1) as (E & G1 & Px). mstep E.
  by apply (Hf x Px).
Qed.
Lemma sim_if {A} (P : A -> Prop) (b : bool) m1 m2 k1 k2 : sim P m1 m2 -> sim P k1 k2 -> sim P (if b then m1 else k1) (if b then m2 else k2).
Proof. by destruct b. Qed.
Lemma sim_when (b : bool) m1 m2 : sim (fun _ => True) m1 m2 -> sim (fun _ => True) (when b m1) (when b m2).
Proof. intros H. destruct b; [done | by apply sim_ret]. Qed.
Lemma sim_weaken {A} (P Q : A -> Prop) m1 m2 : (forall x, P x -> Q x) -> sim P m1 m2 -> sim Q m1 m2.
Proof. intros HPQ H a r a' G E. destruct (H a r a' G E) as (? & ? & ?). auto. Qed.

Lemma at_rb_conc a p n : nmem a !! p = Some n -> at_rb p (conc a) = Ok (enc n, conc a).
Proof. intros H. unfold at_rb, zoom, load. cbn. by rewrite lookup_fmap, H. Qed.
Lemma upd_rb_conc a p f n n' : nmem a !! p = Some n -> f (enc n) = enc n' ->
  upd_rb p f (conc a) = Ok (tt, conc (mk_avl_state (<[p := n']> (nmem a)) (node a))).
Proof. intros H E. unfold upd_rb, zoom, update. cbn. rewrite lookup_fmap, H. cbn. unfold conc, set_rb_mem. cbn. by rewrite E, fmap_insert. Qed.

Lemma at_node_inv a p n a' : at_node p a = Ok (n, a') -> a' = a /\ nmem a !! p = Some n.
Proof. unfold at_node, zoom, load. destruct (nmem a !! p) eqn:E0; [| done]. intros [= <- <-]. by destruct a. Qed.
Lemma upd_node_inv a p f r a' : upd_node p f a = Ok (r, a') ->
  exists n, nmem a !! p = Some n /\ a' = mk_avl_state (<[p := f n]> (nmem a)) (node a).
Proof. unfold upd_node, zoom, update. destruct (nmem a !! p) as [n|] eqn:E0; [| done]. intros [= <- <-]. by exists n. Qed.

Section primitives.
Context (p : Z).

Lemma sim_read {A} (P : A -> Prop) (f : rb_node -> A) (f2 : avl_node -> A) :
  (forall n, typed n -> f (enc n) = f2 n /\ P (f2 n)) ->
  sim P (bind (at_rb p) (fun n => ret (f n))) (bind (at_node p) (fun n => ret (f2 n))).
Proof.
  intros Hf a r a' G (n & a1 & E1 & E2)%bind_inv. apply at_node_inv in E1 as [-> Hn]. injection E2 as <- <-.
  mstep (at_rb_conc a p n Hn). destruct (Hf n (gd_nodes _ G p n Hn)) as [-> HP]. done.
Qed.
Lemma sim_left : sim ptr (get_rb_left p) (get_left p).
Proof. apply sim_read. intros n T. split; [done | apply T]. Qed.
Lemma sim_right : sim ptr (get_rb_right p) (get_right p).
Proof. apply sim_read. intros n T. split; [done | apply T]. Qed.

Lemma bind_ret_read {A B S} (m : M S A) (f : A -> B) (g : B -> Z) s :
  bind (bind m (fun n => ret (f n))) (fun w => ret (g w)) s = bind m (fun n => ret (g (f n))) s.
Proof. unfold bind, ret. by destruct (m s) as [[? ?] | ?]. Qed.

Lemma sim_parent : sim ptr (rb_parent p) (get_parent p).
Proof.
  intros a r a' G E. unfold rb_parent, get_rb_word. rewrite bind_ret_read. revert a r a' G E. apply sim_read.
  intros n [_ _ Tp Tc]. split; [by apply word_parent | done].
Qed.
Lemma sim_color : sim bit (rb_color p) (get_height p).
Proof.
  intros a r a' G E. unfold rb_color, get_rb_word. rewrite bind_ret_read. revert a r a' G E. apply sim_read.
  intros n [_ _ Tp Tc]. split; [by apply word_color | done].
Qed.

Lemma sim_write (f : rb_node -> rb_node) (f2 : avl_node -> avl_node) :
  (forall n, typed n -> f (enc n) = enc (f2 n) /\ typed (f2 n)) -> sim (fun _ => True) (upd_rb p f) (upd_node p f2).
Proof.
  intros Hf a [] a' G (n & Hn & ->)%upd_node_inv. destruct (Hf n (gd_nodes _ G p n Hn)) as [E T].
  split; [by apply (upd_rb_conc a p f n) | split; [by apply good_insert | done]].
Qed.

Lemma sim_set_left v : ptr v -> sim (fun _ => True) (set_rb_left p v) (set_left p v).
Proof. intros Hv. apply sim_write. intros n []. by split. Qed.
Lemma sim_set_right v : ptr v -> sim (fun _ => True) (set_rb_right p v) (set_right p v).
Proof. intros Hv. apply sim_write. intros n []. by split. Qed.
Lemma sim_set_parent v : ptr v -> sim (fun _ => True) (rb_set_parent p v) (set_parent p v).
Proof.
  intros Hv. apply sim_write. intros n [T1 T2 T3 T4]. split; [| by split]. unfold enc. cbn.
  by rewrite word_low, (proj1 (word_join v _ Hv T4)).
Qed.
Lemma sim_set_color h : bit h -> sim (fun _ => True) (rb_set_color p h) (set_height p h).
Proof.
  intros Hh. apply sim_write. intros n [T1 T2 T3 T4]. split; [| by split]. unfold enc. cbn.
  rewrite word_clear by done. rewrite u64_small by (destruct Hh; lia). by rewrite (proj2 (word_join _ h T3 Hh)).
Qed.
Lemma sim_set_red : sim (fun _ => True) (rb_set_red p) (set_height p 0).
Proof.
  apply sim_write. intros n [T1 T2 T3 T4]. split; [| split; try done; by left]. unfold enc. cbn.
  by rewrite word_clear, Z.add_0_r.
Qed.
Lemma sim_set_black : sim (fun _ => True) (rb_set_black p) (set_height p 1).
Proof.
  apply sim_write. intros n [T1 T2 T3 T4]. split; [| split; try done; by right]. unfold enc. cbn. f_equal.
  pose proof (word_join _ 1 T3 (or_intror eq_refl)) as [_ J1]. destruct T4 as [-> | ->]; [by rewrite Z.add_0_r |].
  rewrite <-J1, <-Z.lor_assoc. done.
Qed.
End primitives.

Lemma sim_root : sim ptr get_rb_root get_root.
Proof. intros a r a' G [= <- <-]. split; [done |]. split; [done | apply G]. Qed.
Lemma sim_set_root v : ptr v -> sim (fun _ => True) (set_rb_root v) (set_root v).
Proof. intros Hv a r a' [G R] [= <- <-]. by split. Qed.
Lemma sim_fuel : sim (fun _ => True) rb_fuel avl_fuel.
Proof.
  intros a r a' G [= <- <-]. split; [| done]. unfold rb_fuel, gets. cbn. by rewrite map_size_fmap.
Qed.

#[export] Hint Resolve sim_left sim_right sim_parent sim_color sim_root sim_fuel sim_set_left sim_set_right sim_set_parent
  sim_set_color sim_set_red sim_set_black sim_set_root ptr_null : sim.
(** [sim_auto] follows both programs step by step. *)
Ltac sim_auto := repeat first
  [ solve [eauto with sim] | apply sim_ret; solve [auto with sim] | apply sim_when | apply sim_if
  | eapply sim_bind; [solve [eauto with sim] |]; intros ? ?; cbv beta
  | eapply sim_bind; [| intros ? ?; cbv beta] ].

(** ** Sides

    The code treats a left child and a right child alike, with the sides
    exchanged; here both are one case, for a side [d]. *)
Inductive side := SL | SR.
Definition opp (d : side) : side := match d with SL => SR | SR => SL end.

(** The tree with [t] on the side [d] and [u] on the other. *)
Definition Nd (d : side) (t : tree) (p : Z) (u : tree) (h : Z) : tree :=
  match d with SL => N t p u h | SR => N u p t h end.
(** The context with the hole on the side [d]. *)
Definition Cd (d : side) (c : ctx) (p : Z) (u : tree) (h : Z) : ctx :=
  match d with SL => CL c p u h | SR => CR c u p h end.

Lemma plug_Cd d c p u h t : plug (Cd d c p u h) t = plug c (Nd d t p u h).
Proof. by destruct d. Qed.
Lemma Nd_opp d t p u h : Nd (opp d) t p u h = Nd d u p t h.
Proof. by destruct d. Qed.
Lemma rp_Nd d t p u h : rp (Nd d t p u h) = p.
Proof. by destruct d. Qed.
Lemma opp_opp d : opp (opp d) = d.
Proof. by destruct d. Qed.
Lemma Nd_cases d l p r h : exists t u, N l p r h = Nd d t p u h.
Proof. destruct d; [by exists l, r | by exists r, l]. Qed.

Definition get_side (d : side) (p : Z) : M avl Z := match d with SL => get_left p | SR => get_right p end.
Definition set_side (d : side) (p v : Z) : M avl unit := match d with SL => set_left p v | SR => set_right p v end.
Definition rb_get_side (d : side) (p : Z) : M rbt Z := match d with SL => get_rb_left p | SR => get_rb_right p end.
Definition rb_rotate (d : side) (n : Z) : M rbt unit := match d with SL => __rb_rotate_left n | SR => __rb_rotate_right n end.

(** The link to [old] becomes one to [new]; the child on the side [d] is the one
    that is compared. *)
Definition relink (d : side) (old new par : Z) : M avl unit :=
  if nz par then
    y ← get_side d par;
    if old =? y then set_side d par new else set_side (opp d) par new
  else set_root new.

(** [n] goes down to the side [d]. *)
Definition rot (d : side) (n : Z) : M avl unit :=
  x ← get_side (opp d) n;
  par ← get_parent n;
  b ← get_side d x;
  set_side (opp d) n b;;
  when (nz b) (b ← get_side d x; set_parent b n);;
  set_side d x n;;
  set_parent x par;;
  relink d n x par;;
  set_parent n x.

Lemma sim_rot d n : ptr n -> sim (fun _ => True) (rb_rotate d n) (rot d n).
Proof. intros Hn. destruct d; unfold rb_rotate, __rb_rotate_left, __rb_rotate_right, rot, relink; cbn [get_side set_side opp]; sim_auto. Qed.

Lemma relink_Ok d s c old new :
  repc (nmem s) (node s) c old -> old <> NULL ->
  (forall x, (cnt x (cl c) + cnt x [old] + cnt x (cr c) <= 1)%nat) ->
  exists s', relink d old new (cpar c) s = Ok (tt, s') /\
    repc (nmem s') (node s') c new /\ same_out (cl c ++ cr c) (nmem s) (nmem s').
Proof.
  intros Hc Hold HD. unfold relink.
  destruct c as [|c p r h|c l p h]; cbn [cpar repc] in *.
  - eexists. cbn. split; [done |]. split; [done |]. by intros ? ?.
  - destruct Hc as (Hp & Hm & Hr & Hc). rewrite nz_true by done.
    assert (old =? rp r = false) as Hne.
    { apply Z.eqb_neq. intros ->. destruct r; [done |]. pose proof (rp_cnt (N r1 p0 r2 h0) ltac:(done)). cbn [rp] in *. cn p0. }
    eexists. split; [destruct d; cbn [get_side set_side opp]; astep; rewrite ?Z.eqb_refl, ?Hne; astep; done |]. cbn [nmem node].
    split; [split; [done |]; split; [by rewrite lookup_insert_eq |]; split |].
    + apply (rep_frame (nmem s)); [done |]. intros x Hx. hop x. done.
    + apply (repc_frame (nmem s)); [done |]. intros x Hx. hop x. done.
    + intros x Hx. hop x. done.
  - destruct Hc as (Hp & Hm & Hl & Hc). rewrite nz_true by done.
    assert (old =? rp l = false) as Hne.
    { apply Z.eqb_neq. intros ->. destruct l; [done |]. pose proof (rp_cnt (N l1 p0 l2 h0) ltac:(done)). cbn [rp] in *. cn p0. }
    eexists. split; [destruct d; cbn [get_side set_side opp]; astep; rewrite ?Z.eqb_refl, ?Hne; astep; done |]. cbn [nmem node].
    split; [split; [done |]; split; [by rewrite lookup_insert_eq |]; split |].
    + apply (rep_frame (nmem s)); [done |]. intros x Hx. hop x. done.
    + apply (repc_frame (nmem s)); [done |]. intros x Hx. hop x. done.
    + intros x Hx. hop x. done.
Qed.

(** A node with [x] on the side [d] and [y] on the other. *)
Definition sn (d : side) (x y par h : Z) : avl_node := match d with SL => mk_avl x y par h | SR => mk_avl y x par h end.

Lemma rep_Nd m par d t p u h : rep m par (Nd d t p u h) <->
  p <> NULL /\ m !! p = Some (sn d (rp t) (rp u) par h) /\ rep m p t /\ rep m p u.
Proof. destruct d; cbn; tauto. Qed.

Section side_steps.
Context (s : avl) (d : side) (p x y q h : Z) (H : nmem s !! p = Some (sn d x y q h)).
Notation put n := (mk_avl_state (<[p := n]> (nmem s)) (node s)).
Lemma get_side_Ok : get_side d p s = Ok (x, s).
Proof using H. destruct d; [by eapply get_left_Ok | by eapply get_right_Ok]. Qed.
Lemma get_opp_Ok : get_side (opp d) p s = Ok (y, s).
Proof using H. destruct d; [by eapply get_right_Ok | by eapply get_left_Ok]. Qed.
Lemma get_par_Ok : get_parent p s = Ok (q, s).
Proof using H. destruct d; by eapply get_parent_Ok. Qed.
Lemma get_col_Ok : get_height p s = Ok (h, s).
Proof using H. destruct d; by eapply get_height_Ok. Qed.
Lemma set_side_Ok v : set_side d p v s = Ok (tt, put (sn d v y q h)).
Proof using H. destruct d; cbn; [by eapply set_left_Ok | by eapply set_right_Ok]. Qed.
Lemma set_opp_Ok v : set_side (opp d) p v s = Ok (tt, put (sn d x v q h)).
Proof using H. destruct d; cbn; [by eapply set_right_Ok | by eapply set_left_Ok]. Qed.
Lemma set_par_Ok v : set_parent p v s = Ok (tt, put (sn d x y v h)).
Proof using H. destruct d; cbn; by eapply set_parent_Ok. Qed.
Lemma set_col_Ok v : set_height p v s = Ok (tt, put (sn d x y q v)).
Proof using H. destruct d; cbn; by eapply set_height_Ok. Qed.
End side_steps.

(** [astep], by side. *)
Ltac dstep :=
  first
  [ erewrite bind_Ok; [| eapply get_side_Ok; alook]
  | erewrite bind_Ok; [| eapply get_opp_Ok; alook]
  | erewrite bind_Ok; [| eapply get_par_Ok; alook]
  | erewrite bind_Ok; [| eapply get_col_Ok; alook]
  | erewrite bind_Ok; [| eapply set_side_Ok; alook]
  | erewrite bind_Ok; [| eapply set_opp_Ok; alook]
  | erewrite bind_Ok; [| eapply set_par_Ok; alook]
  | erewrite bind_Ok; [| eapply set_col_Ok; alook]
  | erewrite set_side_Ok; [| alook]
  | erewrite set_opp_Ok; [| alook]
  | erewrite set_par_Ok; [| alook]
  | erewrite set_col_Ok; [| alook] ].

(** The nodes below [p], by side. *)
Lemma cnt_Nd x d t p u h : cnt x (nodes (Nd d t p u h)) = (cnt x (nodes t) + (cnt x [p] + cnt x (nodes u)))%nat.
Proof. destruct d; cbn [Nd nodes]; rewrite cnt_app; cbn [cnt]; lia. Qed.

Lemma rot_Ok d s c a n b r e hr hn :
  zat s c (Nd d a n (Nd d b r e hr) hn) ->
  exists s', rot d n s = Ok (tt, s') /\ zat s' c (Nd d (Nd d a n b hn) r e hr) /\
    same_out (cl c ++ nodes (Nd d a n (Nd d b r e hr) hn) ++ cr c) (nmem s) (nmem s').
Proof.
  intros (Hc & Ht & HD). rewrite rep_Nd, rep_Nd, rp_Nd in Ht. destruct Ht as (Hn & Hmn & Ha & (Hr & Hmr & Hb & He)). rewrite rp_Nd in Hc.
  setoid_rewrite cnt_Nd in HD. setoid_rewrite cnt_Nd in HD.
  assert (n <> r) as Hnr by (intros ->; cn r).
  unfold rot. do 3 dstep. dstep.
  assert (exists s2, when (nz (rp b)) (x ← get_side d r; set_parent x n)%aco (mk_avl_state (<[n:=sn d (rp a) (rp b) (cpar c) hn]> (nmem s)) (node s)) = Ok (tt, s2) /\
    node s2 = node s /\ rep (nmem s2) n b /\ same_out (nodes b) (<[n:=sn d (rp a) (rp b) (cpar c) hn]> (nmem s)) (nmem s2)) as (s2 & E2 & N2 & R2 & F2).
  { destruct (reparent_Ok (mk_avl_state (<[n:=sn d (rp a) (rp b) (cpar c) hn]> (nmem s)) (node s)) r b n) as (s2 & E2 & H2).
    - apply (rep_frame (nmem s)); [done |]. intros q Hq. hop q. done.
    - intros x. cn x.
    - exists s2. split; [| done]. destruct (nz (rp b)); [| done]. cbn [when] in *. by dstep. }
  mstep E2.
  assert (nmem s2 !! r = Some (sn d (rp b) (rp e) n hr)) as Hr2 by (hop r; done).
  assert (nmem s2 !! n = Some (sn d (rp a) (rp b) (cpar c) hn)) as Hn2 by (hop n; done).
  do 2 dstep. cbn [nmem node]. rewrite insert_insert_eq.
  match goal with |- context [bind _ _ ?x] =>
    destruct (relink_Ok d x c n r) as (s4 & E4 & R4 & F4); [| done | intros y; cn y |] end.
  { apply (repc_frame (nmem s)); [cbn [node]; by rewrite N2 |]. intros q Hq. hop q. done. }
  mstep E4. assert (nmem s4 !! n = Some (sn d (rp a) (rp b) (cpar c) hn)) as Hn4 by (hop n; done).
  dstep. eexists. split; [done |]. split; [split; [| split] |].
  - cbn [nmem node]. rewrite rp_Nd. apply (repc_frame (nmem s4)); [done |]. intros q Hq. hop q. done.
  - rewrite rep_Nd, rep_Nd, rp_Nd. cbn [nmem]. split; [done |]. split; [hop r; done |]. split; [split; [done |]; split |].
    + by rewrite lookup_insert_eq.
    + split; [apply (rep_frame (nmem s)) | apply (rep_frame (nmem s2))]; try done; intros q Hq; hop q; done.
    + apply (rep_frame (nmem s)); [done |]. intros q Hq. hop q. done.
  - intros x. rewrite !cnt_Nd. cn x.
  - intros q Hq. rewrite !cnt_app, !cnt_Nd in Hq. hop q. done.
Qed.

(** ** Steps on a tree *)

Definition at_tree (a : avl) (T : tree) : Prop := good a /\ is_tree a T.
(** [a'] holds [T'] in the place of [T]: the same nodes in the same order, and no
    other node is touched. *)
Definition moved (a : avl) (T : tree) (a' : avl) (T' : tree) : Prop :=
  at_tree a' T' /\ nodes T' = nodes T /\ same_out (nodes T) (nmem a) (nmem a').

Lemma moved_refl a T : at_tree a T -> moved a T a T.
Proof. intros H. split; [done |]. split; [done | apply same_out_refl]. Qed.
Lemma moved_trans a T a1 T1 a2 T2 : moved a T a1 T1 -> moved a1 T1 a2 T2 -> moved a T a2 T2.
Proof.
  intros (_ & N1 & S1) (H2 & N2 & S2). split; [done |]. split; [congruence |]. rewrite N1 in S2. by eapply same_out_trans.
Qed.

(** An equation between trees that differ in how they are seen. *)
Ltac sides := rewrite ?plug_Cd, ?Nd_opp, ?opp_opp; first [reflexivity | by rewrite <-?plug_Cd | repeat match goal with d : side |- _ => destruct d end; reflexivity].

Section at_focus.
Context (a : avl) (T : tree) (c : ctx) (d : side) (t : tree) (p : Z) (u : tree) (h : Z).
Context (HT : at_tree a T) (ET : T = plug c (Nd d t p u h)).

Lemma at_zat : zat a c (Nd d t p u h).
Proof using All. apply zat_tree. rewrite <-ET. apply HT. Qed.
Lemma at_node_of : p <> NULL /\ nmem a !! p = Some (sn d (rp t) (rp u) (cpar c) h).
Proof using All. pose proof at_zat as (_ & Hr & _). apply rep_Nd in Hr. tauto. Qed.

Lemma read_side : rb_get_side d p (conc a) = Ok (rp t, conc a) /\ ptr (rp t).
Proof using All.
  destruct at_node_of as [_ Hm]. destruct HT as [G _].
  destruct d; [edestruct sim_left as (? & _ & ?) | edestruct sim_right as (? & _ & ?)]; eauto; [exact (get_side_Ok a SL p _ _ _ _ Hm) | exact (get_side_Ok a SR p _ _ _ _ Hm)].
Qed.
Lemma read_opp : rb_get_side (opp d) p (conc a) = Ok (rp u, conc a) /\ ptr (rp u).
Proof using All.
  destruct at_node_of as [_ Hm]. destruct HT as [G _].
  destruct d; [edestruct sim_right as (? & _ & ?) | edestruct sim_left as (? & _ & ?)]; eauto; [exact (get_opp_Ok a SL p _ _ _ _ Hm) | exact (get_opp_Ok a SR p _ _ _ _ Hm)].
Qed.
Lemma read_parent : rb_parent p (conc a) = Ok (cpar c, conc a) /\ ptr (cpar c).
Proof using All.
  destruct at_node_of as [_ Hm]. destruct HT as [G _]. edestruct sim_parent as (? & _ & ?); eauto. by eapply get_par_Ok.
Qed.
Lemma read_color : rb_color p (conc a) = Ok (h, conc a) /\ bit h.
Proof using All.
  destruct at_node_of as [_ Hm]. destruct HT as [G _]. edestruct sim_color as (? & _ & ?); eauto. by eapply get_col_Ok.
Qed.
Lemma read_red : rb_is_red p (conc a) = Ok (h =? 0, conc a).
Proof using All. unfold rb_is_red. by mstep (proj1 read_color). Qed.
Lemma read_black : rb_is_black p (conc a) = Ok (negb (h =? 0), conc a).
Proof using All. unfold rb_is_black. by mstep (proj1 read_color). Qed.

(** The node itself is an address: it is kept in its parent or the root. *)
Lemma focus_ptr : ptr p.
Proof using All.
  pose proof at_zat as (Hc & _ & _). rewrite rp_Nd in Hc. destruct HT as [[G R] _].
  destruct c as [|c' q r k|c' l q k]; cbn in Hc; [by subst | |]; destruct Hc as (_ & Hm & _); apply G in Hm as []; done.
Qed.

(** Painting a node. *)
Lemma paint m v : sim (fun _ => True) m (set_height p v) ->
  exists a', m (conc a) = Ok (tt, conc a') /\ moved a T a' (plug c (Nd d t p u v)).
Proof using All.
  intros Hs. pose proof at_zat as Hz. destruct HT as [G HI].
  assert (exists l r k, Nd d t p u h = N l p r k /\ Nd d t p u v = N l p r v) as (l & r & k & E1 & E2) by (destruct d; by eexists _, _, _).
  rewrite E1 in Hz. destruct (zat_set_height _ _ _ _ _ _ v Hz) as (a' & E & Hz' & Ho).
  destruct (Hs a tt a' G E) as (E' & G' & _). exists a'. split; [done |]. rewrite E2.
  split; [split; [done | by apply zat_tree] |]. rewrite ET, E1, !nodes_plug. split; [done |].
  intros q Hq. apply Ho. rewrite !cnt_app in Hq. cbn [nodes] in Hq. rewrite cnt_app in Hq. cbn [cnt] in *. lia.
Qed.

(** Siblings differ. *)
Lemma siblings : rp t = rp u -> t = E /\ u = E.
Proof using All. pose proof at_zat as Hz. destruct d; cbn in Hz; intros He; [| symmetry in He; apply and_comm]; by eapply children_ne. Qed.
End at_focus.

Lemma nodes_rot d a n b r e hr hn : nodes (Nd d a n (Nd d b r e hr) hn) = nodes (Nd d (Nd d a n b hn) r e hr).
Proof. destruct d; cbn; by rewrite <-?app_assoc. Qed.

Lemma rotate a T c d A n B r C hr hn :
  at_tree a T -> T = plug c (Nd d A n (Nd d B r C hr) hn) ->
  exists a', rb_rotate d n (conc a) = Ok (tt, conc a') /\ moved a T a' (plug c (Nd d (Nd d A n B hn) r C hr)).
Proof.
  intros HT ET. pose proof (focus_ptr _ _ _ _ _ _ _ _ HT ET) as Hp. pose proof (at_zat _ _ _ _ _ _ _ _ HT ET) as Hz.
  destruct (rot_Ok _ _ _ _ _ _ _ _ _ _ Hz) as (a' & E & Hz' & Ho). destruct HT as [G _].
  destruct (sim_rot d n Hp a tt a' G E) as (E' & G' & _). exists a'. split; [done |].
  split; [split; [done | by apply zat_tree] |]. rewrite ET, !nodes_plug, nodes_rot. split; [done |].
  intros q Hq. apply Ho. by rewrite nodes_rot.
Qed.

(** ** Runs *)

(** [m] runs on [T] and makes it a tree that satisfies [Q]. *)
Definition becomes (Q : tree -> Prop) (a : avl) (T : tree) (m : M rbt unit) : Prop :=
  exists a' T', m (conc a) = Ok (tt, conc a') /\ moved a T a' T' /\ Q T'.

Lemma becomes_step {A} Q a T (m : M rbt A) f x a1 T1 :
  m (conc a) = Ok (x, conc a1) -> moved a T a1 T1 -> becomes Q a1 T1 (f x) -> becomes Q a T (bind m f).
Proof. intros E H (a' & T' & E' & H' & Hr). exists a', T'. mstep E. split; [done |]. split; [by eapply moved_trans | done]. Qed.
Lemma becomes_read {A} Q a T (m : M rbt A) f x : m (conc a) = Ok (x, conc a) -> becomes Q a T (f x) -> becomes Q a T (bind m f).
Proof. intros E (a' & T' & E' & H). exists a', T'. mstep E. done. Qed.
Lemma becomes_assoc {A B} Q a T (m : M rbt A) (f : A -> M rbt B) k :
  becomes Q a T (bind m (fun x => bind (f x) k)) -> becomes Q a T (bind (bind m f) k).
Proof. intros (a' & T' & E & H). exists a', T'. by rewrite bind_bind. Qed.
