(* ===== verification/RbInsert.v ===== *)
(** * Red-black trees: insertion

    The invariant of a red-black tree, and that linking a node at a leaf and
    [rb_insert_color] keep it. *)
From S2P Require Import Prelude Avl AvlSpec Rbtree RbSpec.

(** ** The invariant *)

(** The root is black; an empty tree counts as black. *)
Definition blk (t : tree) : Prop := match t with E => True | N _ _ _ h => h = 1 end.

(** No red node has a red child, and every way down meets [k] black nodes. *)
Fixpoint rb (t : tree) (k : nat) : Prop :=
  match t with
  | E => k = O
  | N l _ r h => h = 0 /\ blk l /\ blk r /\ rb l k /\ rb r k \/ h = 1 /\ exists j, k = S j /\ rb l j /\ rb r j
  end.
Definition rb_tree (t : tree) : Prop := blk t /\ exists k, rb t k.

(** The same of a context whose hole takes a tree of [k] black nodes; a red
    node in it has a black parent. *)
Definition cblk (c : ctx) : Prop := match c with Top => False | CL _ _ _ h | CR _ _ _ h => h = 1 end.
Fixpoint crb (c : ctx) (k : nat) : Prop :=
  match c with
  | Top => True
  | CL c _ u h | CR c u _ h => h = 0 /\ blk u /\ rb u k /\ crb c k /\ cblk c \/ h = 1 /\ rb u k /\ crb c (S k)
  end.

Lemma blk_Nd d t p u h : blk (Nd d t p u h) <-> h = 1.
Proof. by destruct d. Qed.
Lemma rb_Nd d t p u h k : rb (Nd d t p u h) k <->
  h = 0 /\ blk t /\ blk u /\ rb t k /\ rb u k \/ h = 1 /\ exists j, k = S j /\ rb t j /\ rb u j.
Proof. destruct d; cbn; [done |]. split; (intros [(? & ? & ? & ? & ?) | (? & j & ? & ? & ?)]; [left; tauto | right; split; [done |]; by exists j]). Qed.
Lemma crb_Cd d c p u h k : crb (Cd d c p u h) k <->
  h = 0 /\ blk u /\ rb u k /\ crb c k /\ cblk c \/ h = 1 /\ rb u k /\ crb c (S k).
Proof. by destruct d. Qed.
Lemma cblk_Cd d c p u h : cblk (Cd d c p u h) <-> h = 1.
Proof. by destruct d. Qed.

Lemma rb_red t p u k d : blk t -> blk u -> rb t k -> rb u k -> rb (Nd d t p u 0) k.
Proof. intros. apply rb_Nd. by left. Qed.
Lemma rb_black t p u k d : rb t k -> rb u k -> rb (Nd d t p u 1) (S k).
Proof. intros. apply rb_Nd. right. split; [done |]. by exists k. Qed.

(** A red-black tree is a context and a tree that fit. *)
Lemma rb_plug c : forall t k, crb c k -> rb t k -> blk t \/ cblk c -> rb_tree (plug c t).
Proof.
  induction c as [|c IH p u h|c IH u p h]; intros t k Hc Ht Hb.
  - destruct Hb as [Hb | []]. split; [done | by exists k].
  - apply (crb_Cd SL) in Hc as [(-> & Hu & Hk & Hc & Hcb) | (-> & Hk & Hc)].
    + destruct Hb as [Hb | Hb]; [| done]. apply (IH _ k Hc); [by apply (rb_red t p u k SL) | by right].
    + apply (IH _ (S k) Hc); [by apply (rb_black t p u k SL) | by left].
  - apply (crb_Cd SR) in Hc as [(-> & Hu & Hk & Hc & Hcb) | (-> & Hk & Hc)].
    + destruct Hb as [Hb | Hb]; [| done]. apply (IH _ k Hc); [by apply (rb_red t p u k SR) | by right].
    + apply (IH _ (S k) Hc); [by apply (rb_black t p u k SR) | by left].
Qed.
Lemma rb_unplug c : forall t, rb_tree (plug c t) -> exists k, crb c k /\ rb t k /\ (blk t \/ cblk c).
Proof.
  assert (forall d c p u h k t, rb (Nd d t p u h) k -> blk (Nd d t p u h) \/ cblk c -> crb c k ->
    exists j, crb (Cd d c p u h) j /\ rb t j /\ (blk t \/ cblk (Cd d c p u h))) as step.
  { intros d c' p u h k t Hr Hb Hc. apply rb_Nd in Hr as [(-> & Ht & Hu & Hkt & Hku) | (-> & j & -> & Ht & Hu)].
    - exists k. rewrite crb_Cd, cblk_Cd. rewrite blk_Nd in Hb. destruct Hb as [Hb | Hb]; [done |]. tauto.
    - exists j. rewrite crb_Cd, cblk_Cd. tauto. }
  induction c as [|c IH p u h|c IH u p h]; intros t H.
  - destruct H as [Hb (k & Hk)]. exists k. split; [done |]. split; [done | by left].
  - destruct (IH _ H) as (k & Hc & Hr & Hb). by apply (step SL c p u h k).
  - destruct (IH _ H) as (k & Hc & Hr & Hb). by apply (step SR c p u h k).
Qed.

(** A red node in a context has a black parent. *)
Lemma crb_red d c p u k : crb (Cd d c p u 0) k -> exists e c' q v, c = Cd e c' q v 1 /\ blk u /\ rb u k /\ rb v k /\ crb c' (S k).
Proof.
  rewrite crb_Cd. intros [(_ & Hu & Hk & Hc & Hb) | (? & _)]; [| done].
  destruct c as [|c' q v h|c' v q h]; [done | |]; cbn in Hb; subst h.
  - exists SL, c', q, v. split; [done |]. apply (crb_Cd SL) in Hc as [(? & _) | (_ & ? & ?)]; [done |]. done.
  - exists SR, c', q, v. split; [done |]. apply (crb_Cd SR) in Hc as [(? & _) | (_ & ? & ?)]; [done |]. done.
Qed.

Lemma ctx_cases c : c = Top \/ exists d c' p u h, c = Cd d c' p u h.
Proof. destruct c as [|c p u h|c u p h]; [by left | right; by exists SL, c, p, u, h | right; by exists SR, c, p, u, h]. Qed.

(** ** [rb_insert_color] *)

(** One side of the loop: [parent] is on the side [e] of [gparent]. *)
Definition insert_side (e : side) (fuel : nat) (node parent gparent : Z) : M rbt unit :=
  uncle ← rb_get_side (opp e) gparent;
  ured ← red_node uncle;
  if ured : bool then
    rb_set_black uncle;;
    rb_set_black parent;;
    rb_set_red gparent;;
    insert_color_loop fuel gparent
  else
    pr ← rb_get_side (opp e) parent;
    np ← (if pr =? node then rb_rotate e parent;; ret (parent, node) else ret (node, parent));
    let '(node, parent) := np : Z * Z in
    rb_set_black parent;;
    rb_set_red gparent;;
    rb_rotate (opp e) gparent;;
    insert_color_loop fuel node.

Lemma insert_color_loop_S fuel node : insert_color_loop (S fuel) node = (
  parent ← rb_parent node;
  red ← red_node parent;
  if negb red then ret tt
  else
    gparent ← rb_parent parent;
    gl ← get_rb_left gparent;
    if parent =? gl then insert_side SL fuel node parent gparent else insert_side SR fuel node parent gparent)%aco.
Proof. done. Qed.

(** The colour of the root of a subtree. *)
Definition red_root (t : tree) : bool := match t with E => false | N _ _ _ h => h =? 0 end.
Lemma red_root_blk t k : rb t k -> red_root t = false -> blk t.
Proof. destruct t; [done |]. cbn. intros [(-> & _) | (-> & _)]; done. Qed.

Lemma read_red_node a T c t : at_tree a T -> T = plug c t -> red_node (rp t) (conc a) = Ok (red_root t, conc a).
Proof.
  intros HT ET. unfold red_node. destruct t as [|l p r h]; [done |]. cbn [rp].
  destruct (at_node_of a T c SL l p r h HT ET) as [Hp _]. rewrite nz_true by done. by apply (read_red a T c SL l p r h HT ET).
Qed.

Definition cred (c : ctx) : bool := match c with Top => false | CL _ _ _ h | CR _ _ _ h => h =? 0 end.
Lemma read_parent_red a T c t : at_tree a T -> T = plug c t -> red_node (cpar c) (conc a) = Ok (cred c, conc a).
Proof.
  intros HT ET. destruct (ctx_cases c) as [-> | (d & c' & q & v & k & ->)]; [done |].
  rewrite plug_Cd in ET. pose proof (read_red_node _ _ _ _ HT ET) as E. rewrite rp_Nd in E. by destruct d.
Qed.

Lemma insert_stop fuel a T c d t p u h : at_tree a T -> T = plug c (Nd d t p u h) -> cred c = false ->
  insert_color_loop (S fuel) p (conc a) = Ok (tt, conc a).
Proof.
  intros HT ET Hc. rewrite insert_color_loop_S. mstep (proj1 (read_parent _ _ _ _ _ _ _ _ HT ET)).
  mstep (read_parent_red _ _ _ _ HT ET). by rewrite Hc.
Qed.

(** A recoloured or rotated tree. *)
Definition inserted : avl -> tree -> M rbt unit -> Prop := becomes (fun T => exists k, rb T k).

(** The uncle is black and [parent] is on the outer side of [gparent]: one
    rotation ends the loop. *)
Lemma insert_outer fuel a T c e x y p par s g u k :
  at_tree a T -> T = plug c (Nd e (Nd e (Nd e x p y 0) par s 0) g u 1) ->
  blk x -> blk y -> blk s -> blk u -> rb x k -> rb y k -> rb s k -> rb u k -> crb c (S k) -> (0 < fuel)%nat ->
  forall q, q = p -> inserted a T (rb_set_black par;; rb_set_red g;; rb_rotate (opp e) g;; insert_color_loop fuel q).
Proof.
  intros HT ET Bx By Bs Bu Kx Ky Ks Ku Hc Hf q ->. set (X := Nd e x p y 0) in *.
  destruct (paint a T (Cd e c g u 1) e X par s 0 HT ltac:(rewrite ET; sides) _ 1 (sim_set_black par)) as (a1 & E1 & M1).
  apply (becomes_step _ _ _ _ _ _ _ _ E1 M1). destruct M1 as [H1 _].
  destruct (paint a1 _ c e (Nd e X par s 1) g u 1 H1 ltac:(sides) _ 0 (sim_set_red g)) as (a2 & E2 & M2).
  apply (becomes_step _ _ _ _ _ _ _ _ E2 M2). destruct M2 as [H2 _].
  destruct (rotate a2 _ c (opp e) u g s par X 1 0 H2 ltac:(sides)) as (a3 & E3 & M3).
  apply (becomes_step _ _ _ _ _ _ _ _ E3 M3). destruct M3 as [H3 _]. rewrite !Nd_opp in H3.
  destruct fuel as [|fuel']; [lia |]. exists a3, (plug c (Nd e X par (Nd e s g u 0) 1)).
  rewrite (insert_stop fuel' a3 _ (Cd e c par (Nd e s g u 0) 1) e x p y 0 H3); [| by rewrite plug_Cd | by destruct e].
  split; [done |]. rewrite !Nd_opp in *. split; [by apply moved_refl |].
  destruct (rb_plug c (Nd e X par (Nd e s g u 0) 1) (S k)) as [_ Hr]; [done | | left; by apply blk_Nd | done].
  by apply rb_black; apply rb_red.
Qed.
Section round.
Context (fuel : nat).
Context (IH : forall a T c d x p y k, at_tree a T -> T = plug c (Nd d x p y 0) ->
  blk x -> blk y -> rb x k -> rb y k -> crb c k -> (depth c < fuel)%nat -> inserted a T (insert_color_loop fuel p)).

(** The uncle is red: the two are painted and the grandparent goes on. *)
Lemma insert_uncle_red a T c e A par g u k :
  at_tree a T -> T = plug c (Nd e (A 0) g u 1) -> (exists d t s, forall h, A h = Nd d t par s h) ->
  red_root u = true -> rb (A 1) (S k) -> rb u k -> crb c (S k) -> (depth c < fuel)%nat ->
  inserted a T (rb_set_black (rp u);; rb_set_black par;; rb_set_red g;; insert_color_loop fuel g).
Proof using IH.
  intros HT ET (d & t & s & EA) Hu HA Hk Hc Hd. destruct u as [|ul up ur uh]; [done |]. cbn in Hu. apply Z.eqb_eq in Hu. subst uh.
  destruct Hk as [(_ & Hb1 & Hb2 & Hk1 & Hk2) | (? & _)]; [| done]. rewrite EA in ET, HA.
  destruct (paint a T (Cd (opp e) c g (Nd d t par s 0) 1) SL ul up ur 0 HT ltac:(rewrite ET; sides) _ 1 (sim_set_black up)) as (a1 & E1 & M1).
  apply (becomes_step _ _ _ _ _ _ _ _ E1 M1). destruct M1 as [H1 _].
  destruct (paint a1 _ (Cd e c g (N ul up ur 1) 1) d t par s 0 H1 ltac:(sides) _ 1 (sim_set_black par)) as (a2 & E2 & M2).
  apply (becomes_step _ _ _ _ _ _ _ _ E2 M2). destruct M2 as [H2 _].
  destruct (paint a2 _ c e (Nd d t par s 1) g (N ul up ur 1) 1 H2 ltac:(sides) _ 0 (sim_set_red g)) as (a3 & E3 & M3).
  apply (becomes_step _ _ _ _ _ _ _ _ E3 M3). destruct M3 as [H3 _].
  apply (IH a3 _ c e (Nd d t par s 1) g (N ul up ur 1) (S k) H3 eq_refl); try done; [by rewrite blk_Nd |].
  by apply (rb_black ul up ur k SL).
Qed.


(** One round of the loop at a red node below a red parent. *)
Lemma insert_round a T c e d x y p par s g u k :
  at_tree a T -> T = plug c (Nd e (Nd d (Nd e x p y 0) par s 0) g u 1) ->
  blk x -> blk y -> blk s -> rb x k -> rb y k -> rb s k -> rb u k -> crb c (S k) -> (S (depth c) < fuel)%nat ->
  inserted a T (insert_side e fuel p par g).
Proof using IH.
  intros HT ET Bx By Bs Kx Ky Ks Ku Hc Hd. set (X := Nd e x p y 0) in *.
  assert (rb X k) as KX by by apply rb_red. assert (rp X = p) as EX by apply rp_Nd. unfold insert_side.
  apply (becomes_read _ _ _ _ _ _ (proj1 (read_opp _ _ _ _ _ _ _ _ HT ET))).
  assert (T = plug (Cd (opp e) c g (Nd d X par s 0) 1) u) as EU by (rewrite ET; sides).
  apply (becomes_read _ _ _ _ _ _ (read_red_node _ _ _ _ HT EU)). destruct (red_root u) eqn:Hu.
  { apply (insert_uncle_red a T c e (fun h => Nd d X par s h) par g u k); try done; [by exists d, X, s | by apply rb_black | lia]. }
  apply red_root_blk with (k := k) in Hu; [| done]. assert (d = e \/ d = opp e) as [-> | ->] by (destruct d, e; auto).
  - assert (T = plug (Cd e c g u 1) (Nd e X par s 0)) as EP by (rewrite ET; sides).
    apply (becomes_read _ _ _ _ _ _ (proj1 (read_opp _ _ _ _ _ _ _ _ HT EP))).
    assert (rp s =? p = false) as ->.
    { apply Z.eqb_neq. intros Es. destruct (siblings _ _ _ _ _ _ _ _ HT EP) as [HX _]; [by rewrite EX | by destruct e]. }
    eapply becomes_read; [done |]. cbv beta iota. eapply insert_outer; eauto; lia.
  - assert (T = plug (Cd e c g u 1) (Nd e s par (Nd e x p y 0) 0)) as EP by (rewrite ET; sides).
    apply (becomes_read _ _ _ _ _ _ (proj1 (read_opp _ _ _ _ _ _ _ _ HT EP))). rewrite rp_Nd, Z.eqb_refl.
    destruct (rotate _ _ _ _ _ _ _ _ _ _ _ HT EP) as (a1 & E1 & M1). destruct M1 as [H1 M1'].
    eapply becomes_step; [mstep E1; reflexivity | split; [exact H1 | exact M1'] |]. cbv beta iota.
    eapply (insert_outer fuel a1 _ c e s x par p y g u k); try done; [sides | lia].
Qed.
End round.

Lemma depth_Cd d c p u h : depth (Cd d c p u h) = S (depth c).
Proof. by destruct d. Qed.
Lemma cpar_Cd d c p u h : cpar (Cd d c p u h) = p.
Proof. by destruct d. Qed.
Lemma cred_Cd d c p u h : cred (Cd d c p u h) = (h =? 0).
Proof. by destruct d. Qed.

Lemma insert_color_loop_Ok fuel : forall a T c d x p y k,
  at_tree a T -> T = plug c (Nd d x p y 0) -> blk x -> blk y -> rb x k -> rb y k -> crb c k -> (depth c < fuel)%nat ->
  inserted a T (insert_color_loop fuel p).
Proof.
  induction fuel as [|fuel IH]; intros a T c d x p y k HT ET Bx By Kx Ky Hc Hf; [lia |].
  assert (rb (Nd d x p y 0) k) as KX by by apply rb_red.
  destruct (cred c) eqn:Hr.
  - destruct (ctx_cases c) as [-> | (d' & c' & par & s & h & ->)]; [done |]. rewrite cred_Cd in Hr. apply Z.eqb_eq in Hr. subst h.
    pose proof Hc as (e & c2 & g & u & -> & Bs & Ks & Ku & Hc2)%crb_red. rewrite !depth_Cd in Hf.
    set (X := Nd d x p y 0) in *. rewrite plug_Cd, plug_Cd in ET.
    assert (T = plug (Cd d' (Cd e c2 g u 1) par s 0) X) as EX by (rewrite ET; sides).
    assert (T = plug (Cd e c2 g u 1) (Nd d' X par s 0)) as EP by (rewrite ET; sides).
    assert (inserted a T (insert_side e fuel p par g)) as Hround.
    { assert (exists x' y', X = Nd e x' p y' 0 /\ blk x' /\ blk y' /\ rb x' k /\ rb y' k) as (x' & y' & EX' & ? & ? & ? & ?)
        by (destruct d, e; [by exists x, y | by exists y, x | by exists y, x | by exists x, y]).
      apply (insert_round fuel IH a T c2 e d' x' y' p par s g u k); rewrite <-?EX'; try done. lia. }
    rewrite insert_color_loop_S. apply (becomes_read _ _ _ _ _ _ (proj1 (read_parent _ _ _ _ _ _ _ _ HT EX))).
    apply (becomes_read _ _ _ _ _ _ (read_parent_red _ _ _ _ HT EX)). rewrite cred_Cd, cpar_Cd. cbn [negb Z.eqb].
    apply (becomes_read _ _ _ _ _ _ (proj1 (read_parent _ _ _ _ _ _ _ _ HT EP))). rewrite cpar_Cd.
    destruct e.
    + apply (becomes_read _ _ _ _ _ _ (proj1 (read_side _ _ _ _ _ _ _ _ HT ET))). by rewrite rp_Nd, Z.eqb_refl.
    + apply (becomes_read _ _ _ _ _ _ (proj1 (read_opp _ _ _ _ _ _ _ _ HT ET))).
      assert (par =? rp u = false) as ->; [| done]. apply Z.eqb_neq. intros Eu.
      destruct (siblings _ _ _ _ _ _ _ _ HT ET) as [HX _]; [by rewrite rp_Nd | by destruct d'].
  - exists a, T. split; [by apply (insert_stop fuel a T c d x p y 0) |]. split; [by apply moved_refl |].
    destruct (ctx_cases c) as [-> | (d' & c' & par & s & h & ->)]; [exists k; by rewrite ET |].
    rewrite cred_Cd in Hr. apply Z.eqb_neq in Hr. rewrite ET.
    apply (rb_plug _ _ k Hc KX). right. rewrite cblk_Cd. apply crb_Cd in Hc as [(? & _) | (? & _)]; done.
Qed.

(** The whole of it, at a new red node. *)
Lemma rb_insert_color_Ok a T c d x p y k :
  at_tree a T -> T = plug c (Nd d x p y 0) -> blk x -> blk y -> rb x k -> rb y k -> crb c k ->
  exists a' T', rb_insert_color p (conc a) = Ok (tt, conc a') /\ moved a T a' T' /\ rb_tree T'.
Proof.
  intros HT ET Bx By Kx Ky Hc. pose proof (at_zat _ _ _ _ _ _ _ _ HT ET) as Hz. unfold rb_insert_color.
  destruct (sim_fuel a _ a (proj1 HT) eq_refl) as (Ef & _). mstep Ef.
  destruct (insert_color_loop_Ok (S (size (nmem a))) a T c d x p y k) as (a1 & T1 & E1 & M1 & j & Hj); try done; [by eapply depth_fuel |].
  mstep E1. destruct M1 as (H1 & N1 & S1). destruct T1 as [|l q r h].
  { exfalso. rewrite ET, nodes_plug in N1. destruct d; cbn in N1; by destruct (cl c), (nodes x), (nodes y). }
  assert (get_rb_root (conc a1) = Ok (q, conc a1)) as Er by (unfold get_rb_root, gets; cbn; by rewrite (proj1 (proj2 (proj2 H1)))).
  mstep Er. destruct (paint a1 _ Top SL l q r h H1 eq_refl _ 1 (sim_set_black q)) as (a2 & E2 & M2).
  exists a2, (N l q r 1). split; [exact E2 |]. split; [by eapply moved_trans |]. split; [done |].
  destruct Hj as [(_ & _ & _ & ? & ?) | (_ & i & -> & ? & ?)]; [exists (S j) | exists (S i)]; by apply (rb_black l q r _ SL).
Qed.

(** ** The height *)

Lemma rb_size t : forall k, rb t k -> (2 ^ k <= S (length (nodes t)))%nat.
Proof.
  induction t as [|l IHl p r IHr h]; intros k; cbn [rb nodes]; [by intros -> |]. rewrite length_app. cbn [length].
  intros [(_ & _ & _ & Hl%IHl & Hr%IHr) | (_ & j & -> & Hl%IHl & Hr%IHr)]; [lia |]. rewrite Nat.pow_succ_r'. lia.
Qed.
Lemma rb_levels t : forall k, rb t k -> (levels t <= 2 * k + 1)%nat /\ (blk t -> levels t <= 2 * k)%nat.
Proof.
  induction t as [|l IHl p r IHr h]; intros k; cbn [rb levels]; [lia |].
  intros [(-> & Bl & Br & Hl%IHl & Hr%IHr) | (_ & j & -> & Hl%IHl & Hr%IHr)]; [| lia].
  destruct Hl as [_ Hl], Hr as [_ Hr]. specialize (Hl Bl). specialize (Hr Br). split; [lia | by cbn].
Qed.
Lemma rb_height t : rb_tree t -> (levels t <= 2 * Nat.log2 (S (length (nodes t))))%nat.
Proof.
  intros [Hb (k & Hk)]. pose proof (proj2 (rb_levels t k Hk) Hb). pose proof (rb_size t k Hk) as Hs.
  apply Nat.log2_le_mono in Hs. rewrite Nat.log2_pow2 in Hs by lia. lia.
Qed.

(** ** Linking a node *)

Lemma sim_write_link l v : ptr v -> sim (fun _ => True) (write_rb_link l v) (write_link l v).
Proof. intros Hv. destruct l; cbn; auto with sim. Qed.

(** [rb_link_node] overwrites the node, whatever it held. *)
Lemma rb_link_node_Ok a n w par lnk a' :
  good a -> ptr n -> ptr par ->
  avl_node_link n par lnk (mk_avl_state (<[n := mk_avl NULL NULL NULL 0]> (nmem a)) (node a)) = Ok (tt, a') ->
  rb_link_node n par lnk (mk_rbt (<[n := w]> (enc <$> nmem a)) (node a)) = Ok (tt, conc a') /\ good a'.
Proof.
  intros G Hn Hp E. set (a1 := mk_avl_state (<[n := mk_avl NULL NULL par 0]> (nmem a)) (node a)).
  assert (good a1) as G1 by (apply good_insert; [done | split; try apply ptr_null; [done | by left]]).
  assert (write_link lnk n a1 = Ok (tt, a')) as E1.
  { revert E. unfold avl_node_link. do 4 astep. cbn [nmem node]. by rewrite !insert_insert_eq. }
  destruct (sim_write_link lnk n Hn a1 tt a' G1 E1) as (E2 & G2 & _). split; [| done].
  unfold rb_link_node, set_rb_word, set_rb_right, set_rb_left, upd_rb, zoom, update, bind. cbn. rewrite !lookup_insert_eq. cbn.
  rewrite !insert_insert_eq, lookup_insert_eq. cbn. rewrite insert_insert_eq, lookup_insert_eq. cbn. rewrite insert_insert_eq. cbn.
  rewrite <-E2. unfold a1, conc. cbn. rewrite fmap_insert.
  unfold enc at 5. cbn [left right parent height]. by rewrite Z.add_0_r.
Qed.

(** A memory with a tree [T], and the bytes of a node that is to go into it. *)
Definition with_bytes (n : Z) (w : rb_node) (a : avl) : rbt := mk_rbt (<[n := w]> (enc <$> nmem a)) (node a).

(** [rb_link_node] and [rb_insert_color], at any free place. *)
Lemma rb_link_insert_Ok (a : avl) (c : ctx) (n : Z) (w : rb_node) :
  at_tree a (plug c E) -> rb_tree (plug c E) -> n <> NULL -> ptr n -> cnt n (cl c ++ cr c) = 0%nat ->
  exists a' T', (rb_link_node n (cpar c) (link_of c);; rb_insert_color n)%aco (with_bytes n w a) = Ok (tt, conc a') /\
    at_tree a' T' /\ rb_tree T' /\ nodes T' = cl c ++ n :: cr c /\
    (levels T' <= 2 * Nat.log2 (S (length (cl c ++ n :: cr c))))%nat /\
    (forall q, q <> n -> cnt q (cl c ++ cr c) = 0%nat -> nmem a' !! q = nmem a !! q).
Proof.
  intros HT HR Hn Hp Hni. pose proof HT as [G HI]. set (a0 := mk_avl_state (<[n := mk_avl NULL NULL NULL 0]> (nmem a)) (node a)).
  assert (zat a0 c E) as Hz.
  { apply zat_tree in HI as (Hc & _ & HD). split; [| split; [done | done]].
    apply (repc_frame (nmem a)); [done |]. intros q Hq. apply lookup_insert_ne. intros <-. rewrite cnt_app in Hni. lia. }
  destruct (avl_node_link_Ok a0 c n Hz Hn Hni) as (a1 & E1 & Z1 & F1); [by eexists; apply lookup_insert_eq |].
  assert (ptr (cpar c)) as Hpar.
  { destruct (ctx_cases c) as [-> | (d & c' & p & u & h & ->)]; [apply ptr_null |]. rewrite cpar_Cd. rewrite plug_Cd in HT.
    by apply (focus_ptr _ _ _ _ _ _ _ _ HT eq_refl). }
  destruct (rb_link_node_Ok a n w (cpar c) (link_of c) a1 G Hp Hpar E1) as [E2 G1].
  destruct (rb_unplug c E HR) as (k & Hc & Hk & _). cbn in Hk. subst k.
  destruct (rb_insert_color_Ok a1 _ c SL E n E O (conj G1 (proj1 (zat_tree _ _ _) Z1)) eq_refl) as (a' & T' & E3 & (H' & N' & S') & R'); [done .. |].
  exists a', T'. split; [unfold with_bytes; mstep E2; exact E3 |]. split; [done |]. split; [done |].
  rewrite nodes_plug in N', S'. split; [done |]. split; [pose proof (rb_height T' R') as Hh; by rewrite N' in Hh |].
  intros q Hq Hc0. rewrite cnt_app in Hc0. rewrite S', F1; [unfold a0; by apply lookup_insert_ne | |];
    rewrite ?cnt_app; cbn [Nd nodes cnt app]; rewrite ?decide_False by done; lia.
Qed.

(** C21: linking a node at a leaf of a red-black tree and calling
    [rb_insert_color] puts it at that place of the in-order sequence, whatever
    its bytes were, and leaves a red-black tree again: the root is black, no red
    node has a red child, all ways down meet the same number of black nodes, so
    that its height is at most [2 log2 (n + 1)]; nodes outside the tree are not
    touched, and the words still hold a parent and a colour. *)
Theorem rb_insert_red_black (a : avl) (c : ctx) (n : Z) (w : rb_node) :
  at_tree a (plug c E) -> rb_tree (plug c E) -> n <> NULL -> ptr n -> cnt n (cl c ++ cr c) = 0%nat ->
  exists a' T', (rb_link_node n (cpar c) (link_of c);; rb_insert_color n)%aco (with_bytes n w a) = Ok (tt, conc a') /\
    at_tree a' T' /\ rb_tree T' /\ nodes T' = cl c ++ n :: cr c /\
    (levels T' <= 2 * Nat.log2 (S (length (cl c ++ n :: cr c))))%nat /\
    (forall q, q <> n -> cnt q (cl c ++ cr c) = 0%nat -> nmem a' !! q = nmem a !! q).
Proof. apply rb_link_insert_Ok. Qed.

(** Three nodes, of which the last goes in: [8] below [16], beside [24]. *)
Definition rb_demo : avl :=
  mk_avl_state {[16 := mk_avl NULL 24 NULL 1; 24 := mk_avl NULL NULL 16 0]} 16.
Definition rb_demo_tree : tree := N E 16 (N E 24 E 0) 1.

Lemma rb_demo_at : at_tree rb_demo rb_demo_tree.
Proof.
  split; [split |].
  - intros p n. unfold rb_demo. cbn [nmem]. rewrite lookup_insert_Some, lookup_singleton_Some.
    intros [[_ <-] | [_ [_ <-]]]; (split; cbn; [by split; [unfold NULL; lia | done] .. |]); [by right | by left].
  - split; [cbn; lia | done].
  - split; [| split; [done |]].
    + cbn. unfold NULL. repeat split; done.
    + apply (bool_decide_unpack _). by vm_compute.
Qed.

Lemma rb_insert_red_black_witness :
  exists a' T', (rb_link_node 8 16 (LeftLink 16);; rb_insert_color 8)%aco (with_bytes 8 (mk_rb 77 5 6) rb_demo) = Ok (tt, conc a') /\
    rb_tree T' /\ nodes T' = [8; 16; 24].
Proof.
  destruct (rb_insert_red_black rb_demo (CL Top 16 (N E 24 E 0) 1) 8 (mk_rb 77 5 6) rb_demo_at) as (a' & T' & H1 & H2 & H3 & H4 & _).
  - split; [done |]. exists 1%nat. right. split; [done |]. exists O. split; [done |]. split; [done |]. left. done.
  - done.
  - split; [lia | done].
  - vm_compute. reflexivity.
  - exists a', T'. split; [exact H1 |]. done.
Defined.
