(* ===== verification/RbErase.v ===== *)
(** * Red-black trees: removal

    [__rb_erase_color] gives back the black node that a removal takes from one
    side of a tree, and [rb_erase] removes a node from anywhere in it. *)
From S2P Require Import Prelude Avl AvlSpec Rbtree RbSpec RbInsert.

(** ** [__rb_erase_color] *)

(** Its last line. *)
Definition paint_end (m : M rbt Z) : M rbt unit := (node ← m; when (nz node) (rb_set_black node))%aco.

(** One side of the loop: [node] is the child of [parent] on the side [d]. *)
Definition erase_final (d : side) (parent other : Z) : M rbt Z :=
  color ← rb_color parent;
  rb_set_color other color;;
  rb_set_black parent;;
  or ← rb_get_side (opp d) other;
  rb_set_black or;;
  rb_rotate d parent;;
  get_rb_root.
Definition erase_rest (d : side) (fuel : nat) (parent other : Z) : M rbt Z :=
  both ← both_black other;
  if both : bool then
    rb_set_red other;;
    above ← rb_parent parent;
    erase_color_loop fuel parent above
  else
    or ← rb_get_side (opp d) other;
    orblack ← black_or_null or;
    other ← (if orblack : bool then
               ol ← rb_get_side d other;
               rb_set_black ol;;
               rb_set_red other;;
               rb_rotate (opp d) other;;
               rb_get_side (opp d) parent
             else ret other);
    erase_final d parent other.
Definition erase_side (d : side) (fuel : nat) (parent : Z) : M rbt Z :=
  other ← rb_get_side (opp d) parent;
  ored ← rb_is_red other;
  other ← (if ored : bool then
             rb_set_black other;;
             rb_set_red parent;;
             rb_rotate d parent;;
             rb_get_side (opp d) parent
           else ret other);
  erase_rest d fuel parent other.

Lemma erase_color_loop_S fuel node parent : erase_color_loop (S fuel) node parent = (
  black ← black_or_null node;
  root ← get_rb_root;
  if negb (black && negb (node =? root)) then ret node
  else
    pl ← get_rb_left parent;
    if pl =? node then erase_side SL fuel parent else erase_side SR fuel parent)%aco.
Proof. done. Qed.

(** A tree that is one black node short when its root is painted black. *)
Definition owed (t : tree) (k : nat) : Prop :=
  blk t /\ rb t k \/ exists d x p y, t = Nd d x p y 0 /\ rb x k /\ rb y k.
(** The node above it, and what is above that. *)
Definition above_ok (h : Z) (c : ctx) (k : nat) : Prop :=
  h = 0 /\ crb c (S k) /\ cblk c \/ h = 1 /\ crb c (S (S k)).

Lemma above_black h c k d x p y : above_ok h c k -> rb x (S k) -> rb y (S k) -> blk x -> blk y -> rb_tree (plug c (Nd d x p y h)).
Proof.
  intros [(-> & Hc & Hb) | (-> & Hc)] Kx Ky Bx By.
  - apply (rb_plug _ _ (S k) Hc); [by apply rb_red | by right].
  - apply (rb_plug _ _ (S (S k)) Hc); [by apply rb_black | left; by apply blk_Nd].
Qed.

Lemma read_black_or_null a T c t : at_tree a T -> T = plug c t -> black_or_null (rp t) (conc a) = Ok (negb (red_root t), conc a).
Proof.
  intros HT ET. unfold black_or_null. destruct t as [|l p r h]; [done |]. cbn [rp].
  destruct (at_node_of a T c SL l p r h HT ET) as [Hp _]. rewrite nz_true by done. apply (read_black a T c SL l p r h HT ET).
Qed.
Lemma read_root a T : at_tree a T -> get_rb_root (conc a) = Ok (rp T, conc a).
Proof. intros [_ (_ & Hr & _)]. unfold get_rb_root, gets. cbn. by rewrite Hr. Qed.

Lemma black_owed t k : owed t k -> red_root t = false -> blk t /\ rb t k.
Proof. intros [H | (d & x & p & y & -> & _)] Hr; [done | by destruct d]. Qed.
Lemma red_owed t k : owed t k -> red_root t = true -> exists d x p y, t = Nd d x p y 0 /\ rb x k /\ rb y k.
Proof. intros [[Hb _] | H] Hr; [| done]. destruct t as [|l p r h]; [done |]. cbn in Hb, Hr. by subst. Qed.

Lemma red_parts d y k : rb y k -> red_root y = true ->
  exists y1 z y2, y = Nd d y1 z y2 0 /\ blk y1 /\ blk y2 /\ rb y1 k /\ rb y2 k.
Proof.
  destruct y as [|l p r h]; [done |]. cbn [red_root rb]. intros Hr ->%Z.eqb_eq.
  destruct Hr as [(_ & ? & ? & ? & ?) | (? & _)]; [| done]. destruct d; [by exists l, p, r | by exists r, p, l].
Qed.

(** The loop ends at a red node, which is painted black. *)
Lemma erase_red fuel a T c t k : at_tree a T -> T = plug c t -> owed t k -> red_root t = true -> crb c (S k) ->
  becomes rb_tree a T (paint_end (erase_color_loop (S fuel) (rp t) (cpar c))).
Proof.
  intros HT ET Ho Hr Hc. unfold paint_end. rewrite erase_color_loop_S.
  apply becomes_assoc, (becomes_read _ _ _ _ _ _ (read_black_or_null _ _ _ _ HT ET)). rewrite Hr.
  apply becomes_assoc, (becomes_read _ _ _ _ _ _ (read_root _ _ HT)). cbn [negb andb].
  destruct (red_owed t k Ho Hr) as (d & x & p & y & -> & Kx & Ky). rewrite rp_Nd.
  eapply becomes_read; [done |]. cbv beta. destruct (at_node_of _ _ _ _ _ _ _ _ HT ET) as [Hp _]. rewrite nz_true by done.
  destruct (paint _ _ _ _ _ _ _ _ HT ET _ 1 (sim_set_black p)) as (a' & E & M). exists a', (plug c (Nd d x p y 1)).
  split; [exact E |]. split; [done |]. apply (rb_plug _ _ (S k) Hc); [by apply rb_black | left; by apply blk_Nd].
Qed.

(** The loop ends at the root. *)
Lemma paint_root a T : at_tree a T -> rb_tree T -> becomes rb_tree a T (paint_end get_rb_root).
Proof.
  intros HT HR. unfold paint_end. apply (becomes_read _ _ _ _ _ _ (read_root _ _ HT)). destruct T as [|l p r h].
  - exists a, E. split; [done |]. split; [by apply moved_refl | done].
  - destruct HR as [Hb Hk]. cbn in Hb. subst h. cbn [rp]. destruct (at_node_of _ _ Top SL _ _ _ _ HT eq_refl) as [Hp _].
    rewrite nz_true by done. destruct (paint _ _ Top SL _ _ _ _ HT eq_refl _ 1 (sim_set_black p)) as (a' & E' & M).
    exists a', (N l p r 1). split; [exact E' |]. done.
Qed.

(** The far nephew is red: one rotation restores the black node. *)
Lemma erase_final_Ok d a T c t par x o y h k :
  at_tree a T -> T = plug c (Nd d t par (Nd d x o y 1) h) -> rb t k -> rb x k -> rb y k -> red_root y = true ->
  above_ok h c k -> becomes rb_tree a T (paint_end (erase_final d par o)).
Proof.
  intros HT ET Kt Kx Ky Hy Hab. unfold paint_end, erase_final.
  destruct (red_parts d y k Ky Hy) as (y1 & z & y2 & -> & _ & _ & K1 & K2).
  apply becomes_assoc, (becomes_read _ _ _ _ _ _ (proj1 (read_color _ _ _ _ _ _ _ _ HT ET))).
  pose proof (proj2 (read_color _ _ _ _ _ _ _ _ HT ET)) as Hbit.
  assert (T = plug (Cd (opp d) c par t h) (Nd d x o (Nd d y1 z y2 0) 1)) as E1 by (rewrite ET; sides).
  destruct (paint _ _ _ _ _ _ _ _ HT E1 _ h (sim_set_color o h Hbit)) as (a1 & R1 & M1).
  apply becomes_assoc, (becomes_step _ _ _ _ _ _ _ _ R1 M1). destruct M1 as [H1 _].
  destruct (paint _ _ c d t par (Nd d x o (Nd d y1 z y2 0) h) h H1 ltac:(sides) _ 1 (sim_set_black par)) as (a2 & R2 & M2).
  apply becomes_assoc, (becomes_step _ _ _ _ _ _ _ _ R2 M2). destruct M2 as [H2 _].
  assert (plug c (Nd d t par (Nd d x o (Nd d y1 z y2 0) h) 1) = plug (Cd (opp d) c par t 1) (Nd d x o (Nd d y1 z y2 0) h)) as E2 by sides.
  apply becomes_assoc, (becomes_read _ _ _ _ _ _ (proj1 (read_opp _ _ _ _ _ _ _ _ H2 E2))). rewrite rp_Nd.
  destruct (paint _ _ (Cd (opp d) (Cd (opp d) c par t 1) o x h) d y1 z y2 0 H2 ltac:(sides) _ 1 (sim_set_black z)) as (a3 & R3 & M3).
  apply becomes_assoc, (becomes_step _ _ _ _ _ _ _ _ R3 M3). destruct M3 as [H3 _].
  destruct (rotate _ _ c d t par x o (Nd d y1 z y2 1) h 1 H3 ltac:(sides)) as (a4 & R4 & M4).
  apply becomes_assoc, (becomes_step _ _ _ _ _ _ _ _ R4 M4). destruct M4 as [H4 _].
  apply paint_root; [done |]. apply (above_black _ _ k); try done; [by apply rb_black .. | by apply blk_Nd | by apply blk_Nd].
Qed.

Lemma read_both_black a T c d x o y h : at_tree a T -> T = plug c (Nd d x o y h) ->
  both_black o (conc a) = Ok (negb (red_root x) && negb (red_root y), conc a).
Proof.
  intros HT ET. unfold both_black.
  assert (exists l r, Nd d x o y h = N l o r h /\ negb (red_root x) && negb (red_root y) = negb (red_root l) && negb (red_root r))
    as (l & r & EN & ->) by (destruct d; [by exists x, y | exists y, x; by rewrite andb_comm]). rewrite EN in ET.
  mstep (proj1 (read_side _ _ _ SL l o r h HT ET)). mstep (read_black_or_null _ _ (Cd SL c o r h) l HT ET).
  destruct (negb (red_root l)); [| done]. mstep (proj1 (read_opp _ _ _ SL l o r h HT ET)).
  by rewrite (read_black_or_null _ _ (Cd SR c o l h) r HT ET).
Qed.

(** The near nephew is red and the far one is not: it becomes the sibling. *)
Lemma erase_near d a T c t par x o y h k (f : Z -> M rbt Z) :
  at_tree a T -> T = plug c (Nd d t par (Nd d x o y 1) h) -> rb x k -> rb y k -> blk y -> red_root x = true ->
  (forall a1 q x1 y1, let T1 := plug c (Nd d t par (Nd d x1 q y1 1) h) in
     at_tree a1 T1 -> rb x1 k -> rb y1 k -> red_root y1 = true -> becomes rb_tree a1 T1 (paint_end (f q))) ->
  becomes rb_tree a T (paint_end (other ← (ol ← rb_get_side d o;
    rb_set_black ol;; rb_set_red o;; rb_rotate (opp d) o;; rb_get_side (opp d) par); f other)%aco).
Proof.
  intros HT ET Kx Ky By Hx Hf. destruct (red_parts d x k Kx Hx) as (x1 & q & x2 & -> & B1 & B2 & K1 & K2).
  unfold paint_end. apply becomes_assoc, becomes_assoc.
  assert (T = plug (Cd (opp d) c par t h) (Nd d (Nd d x1 q x2 0) o y 1)) as E1 by (rewrite ET; sides).
  apply (becomes_read _ _ _ _ _ _ (proj1 (read_side _ _ _ _ _ _ _ _ HT E1))). rewrite rp_Nd.
  destruct (paint _ _ (Cd d (Cd (opp d) c par t h) o y 1) d x1 q x2 0 HT ltac:(rewrite ET; sides) _ 1 (sim_set_black q)) as (a1 & R1 & M1).
  apply becomes_assoc, (becomes_step _ _ _ _ _ _ _ _ R1 M1). destruct M1 as [H1 _].
  destruct (paint _ _ (Cd (opp d) c par t h) d (Nd d x1 q x2 1) o y 1 H1 ltac:(sides) _ 0 (sim_set_red o)) as (a2 & R2 & M2).
  apply becomes_assoc, (becomes_step _ _ _ _ _ _ _ _ R2 M2). destruct M2 as [H2 _].
  destruct (rotate _ _ (Cd (opp d) c par t h) (opp d) y o x2 q x1 1 0 H2 ltac:(sides)) as (a3 & R3 & M3).
  apply becomes_assoc, (becomes_step _ _ _ _ _ _ _ _ R3 M3). destruct M3 as [H3 _].
  assert (plug (Cd (opp d) c par t h) (Nd (opp d) (Nd (opp d) y o x2 0) q x1 1) =
    plug c (Nd d t par (Nd d x1 q (Nd d x2 o y 0) 1) h)) as E3 by sides. rewrite E3 in H3 |- *.
  apply (becomes_read _ _ _ _ _ _ (proj1 (read_opp _ _ _ _ _ _ _ _ H3 eq_refl))). rewrite rp_Nd.
  apply Hf; [done | done | by apply rb_red | by destruct d].
Qed.

Section loop.
Context (fuel : nat).
Context (IH : forall a T c t k, at_tree a T -> T = plug c t -> owed t k -> crb c (S k) -> (depth c < fuel)%nat ->
  becomes rb_tree a T (paint_end (erase_color_loop fuel (rp t) (cpar c)))).

(** The sibling is black. *)
Lemma erase_rest_Ok d a T c t par x o y h k :
  at_tree a T -> T = plug c (Nd d t par (Nd d x o y 1) h) -> blk t -> rb t k -> rb x k -> rb y k ->
  above_ok h c k -> (h = 1 -> (depth c < fuel)%nat) -> (0 < fuel)%nat ->
  becomes rb_tree a T (paint_end (erase_rest d fuel par o)).
Proof using IH.
  intros HT ET Bt Kt Kx Ky Hab Hd Hf. unfold paint_end, erase_rest.
  assert (T = plug (Cd (opp d) c par t h) (Nd d x o y 1)) as EO by (rewrite ET; sides).
  apply becomes_assoc, (becomes_read _ _ _ _ _ _ (read_both_black _ _ _ _ _ _ _ _ HT EO)).
  destruct (red_root x) eqn:Hx, (red_root y) eqn:Hy; cbn [negb andb].
  4: { apply red_root_blk with (k := k) in Hx, Hy; try done.
    destruct (paint _ _ _ _ _ _ _ _ HT EO _ 0 (sim_set_red o)) as (a1 & R1 & M1).
    apply becomes_assoc, (becomes_step _ _ _ _ _ _ _ _ R1 M1). destruct M1 as [H1 _].
    assert (plug (Cd (opp d) c par t h) (Nd d x o y 0) = plug c (Nd d t par (Nd d x o y 0) h)) as E1 by sides. rewrite E1 in H1 |- *.
    apply becomes_assoc, (becomes_read _ _ _ _ _ _ (proj1 (read_parent _ _ _ _ _ _ _ _ H1 eq_refl))).
    assert (rb (Nd d x o y 0) k) as Ko by by apply rb_red.
    set (W := Nd d t par (Nd d x o y 0) h) in *. assert (rp W = par) as EW by apply rp_Nd. rewrite <-EW.
    destruct Hab as [(-> & Hc & Hcb) | (-> & Hc)].
    - destruct fuel as [|fuel']; [lia |]. eapply erase_red; [done | done | | by destruct d | done].
      right. by exists d, t, par, (Nd d x o y 0).
    - eapply (IH _ _ c _ (S k)); [done | done | | done | by apply Hd].
      left. split; [by apply blk_Nd | by apply rb_black]. }
  all: apply becomes_assoc, (becomes_read _ _ _ _ _ _ (proj1 (read_opp _ _ _ _ _ _ _ _ HT EO)));
    assert (T = plug (Cd (opp d) (Cd (opp d) c par t h) o x 1) y) as EY by (rewrite ET; sides);
    apply becomes_assoc, (becomes_read _ _ _ _ _ _ (read_black_or_null _ _ _ _ HT EY)); rewrite Hy; cbn [negb].
  - apply becomes_assoc. eapply becomes_read; [done |]. by eapply erase_final_Ok.
  - apply (erase_near d a T c t par x o y h k (erase_final d par)); try done; [by eapply red_root_blk |].
    intros a1 q x1 y1 T1 H1 K1 K2 Hr. by eapply erase_final_Ok.
  - apply becomes_assoc. eapply becomes_read; [done |]. by eapply erase_final_Ok.
Qed.

Lemma erase_side_Ok d a T c t par s h k :
  at_tree a T -> T = plug c (Nd d t par s h) -> blk t -> rb t k -> crb (Cd d c par s h) (S k) -> (depth c < fuel)%nat ->
  becomes rb_tree a T (paint_end (erase_side d fuel par)).
Proof using IH.
  intros HT ET Bt Kt Hc Hf. assert (rb s (S k)) as Ks by (by apply crb_Cd in Hc as [(_ & _ & ? & _) | (_ & ? & _)]).
  destruct s as [|l o r hs]; [done |]. destruct (Nd_cases d l o r hs) as (x & y & Es). rewrite Es in *.
  unfold paint_end, erase_side. apply becomes_assoc, (becomes_read _ _ _ _ _ _ (proj1 (read_opp _ _ _ _ _ _ _ _ HT ET))). rewrite rp_Nd.
  assert (T = plug (Cd (opp d) c par t h) (Nd d x o y hs)) as EO by (rewrite ET; sides).
  apply becomes_assoc, (becomes_read _ _ _ _ _ _ (read_red _ _ _ _ _ _ _ _ HT EO)).
  apply rb_Nd in Ks as [(-> & Bx & By & Kx & Ky) | (-> & j & [= <-] & Kx & Ky)]; cbn [Z.eqb].
  - apply crb_Cd in Hc as [(_ & Hb & _) | (-> & _ & Hc)]; [by apply blk_Nd in Hb |]. apply becomes_assoc, becomes_assoc.
    destruct (paint _ _ _ _ _ _ _ _ HT EO _ 1 (sim_set_black o)) as (a1 & R1 & M1).
    apply (becomes_step _ _ _ _ _ _ _ _ R1 M1). destruct M1 as [H1 _].
    destruct (paint _ _ c d t par (Nd d x o y 1) 1 H1 ltac:(sides) _ 0 (sim_set_red par)) as (a2 & R2 & M2).
    apply becomes_assoc, (becomes_step _ _ _ _ _ _ _ _ R2 M2). destruct M2 as [H2 _].
    destruct (rotate _ _ c d t par x o y 1 0 H2 eq_refl) as (a3 & R3 & M3).
    apply becomes_assoc, (becomes_step _ _ _ _ _ _ _ _ R3 M3). destruct M3 as [H3 _].
    assert (plug c (Nd d (Nd d t par x 0) o y 1) = plug (Cd d c o y 1) (Nd d t par x 0)) as E3 by sides. rewrite E3 in H3 |- *.
    apply (becomes_read _ _ _ _ _ _ (proj1 (read_opp _ _ _ _ _ _ _ _ H3 eq_refl))).
    destruct x as [|xl q xr hx]; [done |]. cbn in Bx. subst hx. destruct (Nd_cases d xl q xr 1) as (x1 & x2 & Ex). rewrite Ex in *.
    apply rb_Nd in Kx as [(? & _) | (_ & j & [= <-] & K1 & K2)]; [done |]. rewrite rp_Nd.
    eapply (erase_rest_Ok d a3 _ (Cd d c o y 1) t par x1 q x2 0 k); try done; [| lia]. left. split; [done |].
    split; [apply crb_Cd; by right | by apply cblk_Cd].
  - apply becomes_assoc. eapply becomes_read; [done |]. eapply (erase_rest_Ok d a T c t par x o y h k); try done; [| lia].
    apply crb_Cd in Hc as [(-> & _ & _ & ? & ?) | (-> & _ & ?)]; [by left | by right].
Qed.
End loop.

(** A node below the root is not the root. *)
Lemma not_root a T d c t par s h : at_tree a T -> T = plug (Cd d c par s h) t -> rp t =? rp T = false.
Proof.
  intros HT ET. assert (ET' : T = plug c (Nd d t par s h)) by (by rewrite ET, plug_Cd).
  destruct (at_node_of _ _ _ _ _ _ _ _ HT ET') as [Hp _]. apply Z.eqb_neq. intros Er. destruct HT as [G HI].
  pose proof HI as (Hr & _). destruct t as [|l q r k].
  - symmetry in Er. apply (rp_null _ _ _ Hr) in Er. rewrite Er in ET'. apply (f_equal nodes) in ET'. rewrite nodes_plug in ET'.
    destruct d; cbn in ET'; by destruct (cl c), (nodes s).
  - assert (zat a (Cd d c par s h) (N l q r k)) as Hz by (apply zat_tree; by rewrite <-ET).
    pose proof (zat_parent _ _ _ Hz ltac:(done)) as E1. rewrite cpar_Cd in E1.
    assert (T <> E) as HTE by (intros ->; cbn in Er; destruct Hz as (_ & (? & _) & _); done).
    pose proof (zat_parent _ _ _ (proj2 (zat_top a T) HI) HTE) as E2. rewrite <-Er in E2. cbn [cpar] in E2. congruence.
Qed.

Lemma erase_color_loop_Ok fuel : forall a T c t k,
  at_tree a T -> T = plug c t -> owed t k -> crb c (S k) -> (depth c < fuel)%nat ->
  becomes rb_tree a T (paint_end (erase_color_loop fuel (rp t) (cpar c))).
Proof.
  induction fuel as [|fuel IH]; intros a T c t k HT ET Ho Hc Hf; [lia |].
  destruct (red_root t) eqn:Hr; [by eapply erase_red |]. destruct (black_owed t k Ho Hr) as [Bt Kt].
  unfold paint_end. rewrite erase_color_loop_S. apply becomes_assoc, (becomes_read _ _ _ _ _ _ (read_black_or_null _ _ _ _ HT ET)).
  rewrite Hr. apply becomes_assoc, (becomes_read _ _ _ _ _ _ (read_root _ _ HT)).
  destruct (ctx_cases c) as [-> | (d & c' & par & s & h & ->)].
  - cbn [plug] in ET. subst t. rewrite Z.eqb_refl. cbn [negb andb].
    destruct (paint_root a T HT) as (a' & T' & E & H); [by split; [| exists k] |].
    exists a', T'. split; [| done]. unfold paint_end in E. by rewrite (bind_Ok _ _ _ _ _ (read_root _ _ HT)) in E.
  - rewrite (not_root _ _ _ _ _ _ _ _ HT ET), cpar_Cd. cbn [negb andb]. rewrite depth_Cd in Hf. rewrite plug_Cd in ET.
    apply becomes_assoc. destruct d.
    + apply (becomes_read _ _ _ _ _ _ (proj1 (read_side _ _ _ _ _ _ _ _ HT ET))). rewrite Z.eqb_refl.
      eapply (erase_side_Ok fuel IH SL); try done. lia.
    + apply (becomes_read _ _ _ _ _ _ (proj1 (read_opp _ _ _ _ _ _ _ _ HT ET))).
      assert (rp s =? rp t = false) as ->.
      { apply Z.eqb_neq. intros Es. destruct (siblings _ _ _ _ _ _ _ _ HT ET) as [_ ->]; [done |].
        apply (crb_Cd SR) in Hc as [(_ & _ & ? & _) | (_ & ? & _)]; done. }
      eapply (erase_side_Ok fuel IH SR); try done. lia.
Qed.

Lemma erase_color_Ok a T c t k : at_tree a T -> T = plug c t -> owed t k -> crb c (S k) ->
  becomes rb_tree a T (__rb_erase_color (rp t) (cpar c)).
Proof.
  intros HT ET Ho Hc. unfold __rb_erase_color. destruct (sim_fuel a _ a (proj1 HT) eq_refl) as (Ef & _).
  apply (becomes_read _ _ _ _ _ _ Ef). apply (erase_color_loop_Ok _ a T c t k); try done.
  apply (depth_fuel a c t). apply zat_tree. rewrite <-ET. apply HT.
Qed.

(** ** Taking a node out *)

Lemma sim_replace_child old new par : ptr new -> sim (fun _ => True) (replace_child old new par) (_avl_child_replace old new par).
Proof. intros Hn. unfold replace_child, _avl_child_replace. sim_auto. Qed.

Lemma rb_owed t k : rb t k -> owed t k.
Proof.
  intros Hk. destruct (red_root t) eqn:Hr; [right | left; split; [by eapply red_root_blk | done]].
  destruct (red_parts SL t k Hk Hr) as (x & p & y & -> & _ & _ & K1 & K2). by exists SL, x, p, y.
Qed.

(** A node with at most one child is bypassed. *)
Definition bypass (node child : Z) : M avl (Z * Z * Z) :=
  parent ← get_parent node;
  color ← get_height node;
  when (nz child) (set_parent child parent);;
  _avl_child_replace node child parent;;
  ret (child, parent, color).

Lemma sim_bypass n ch : ptr ch -> sim (fun _ => True) (erase_one n ch) (bypass n ch).
Proof. intros Hc. unfold erase_one, bypass. pose proof sim_replace_child. sim_auto. Qed.

Lemma bypass_Ok d s c n ch h :
  zat s c (Nd d E n ch h) ->
  exists s', bypass n (rp ch) s = Ok ((rp ch, cpar c, h), s') /\ zat s' c ch /\ same_out (cl c ++ nodes ch ++ cr c) (nmem s) (nmem s').
Proof.
  intros (Hc & Ht & HD). rewrite rp_Nd in Hc. apply rep_Nd in Ht as (Hn & Hm & _ & Hr). setoid_rewrite cnt_Nd in HD.
  unfold bypass. do 2 dstep.
  destruct (reparent_Ok s n ch (cpar c)) as (s1 & E1 & N1 & R1 & F1); [done | intros y; cn y |].
  rewrite (bind_Ok _ _ _ _ _ E1).
  destruct (child_replace_Ok s1 c n (rp ch)) as (s2 & E2 & R2 & F2).
  { rewrite N1. apply (repc_frame (nmem s)); [done |]. intros q Hq. hop q. done. }
  { done. }
  { intros y. cn y. }
  mstep E2. exists s2. split; [done |]. split; [split; [| split] |].
  - done.
  - apply (rep_frame (nmem s1)); [done |]. intros q Hq. hop q. done.
  - intros x. cn x.
  - intros q Hq. hop q. done.
Qed.

(** Part of a tree below the parent [par]: a context with its own base. *)
Definition base_par (par : Z) (i : ctx) : Z := match i with Top => par | CL _ p _ _ | CR _ _ p _ => p end.
Fixpoint repi (m : gmap Z avl_node) (par : Z) (i : ctx) (x : Z) : Prop :=
  match i with
  | Top => True
  | CL i p r h => p <> NULL /\ m !! p = Some (mk_avl x (rp r) (base_par par i) h) /\ rep m p r /\ repi m par i p
  | CR i l p h => p <> NULL /\ m !! p = Some (mk_avl (rp l) x (base_par par i) h) /\ rep m p l /\ repi m par i p
  end.
Lemma rep_plug m par i : forall t, rep m par (plug i t) <-> repi m par i (rp t) /\ rep m (base_par par i) t.
Proof. induction i as [|i IH p r h|i IH l p h]; intros t; cbn; [tauto | |]; rewrite IH; cbn; tauto. Qed.
Lemma repi_frame m m' par i : forall x, repi m par i x ->
  (forall q, (1 <= cnt q (cl i) + cnt q (cr i))%nat -> m' !! q = m !! q) -> repi m' par i x.
Proof.
  induction i as [|i IH p r h|i IH l p h]; intros x; cbn; [done | |]; intros (Hp & Hm & Ht & Hc) Hf;
    (split; [done |]; split; [rewrite Hf; [done |]; rewrite ?cnt_app; cbn [cnt]; rewrite ?cnt_app; rewrite decide_True by done; lia |]; split).
  - apply (rep_frame m); [done |]. intros q Hq. apply Hf. rewrite cnt_app. lia.
  - apply IH; [done |]. intros q Hq. apply Hf. rewrite cnt_app. lia.
  - apply (rep_frame m); [done |]. intros q Hq. apply Hf. rewrite !cnt_app. lia.
  - apply IH; [done |]. intros q Hq. apply Hf. rewrite !cnt_app. lia.
Qed.

(** The node that takes the place of [old]: on its way out of the tree, and into
    the place. *)
Definition detach (old node child parent : Z) : M avl Z :=
  if parent =? old then ret node
  else
    when (nz child) (set_parent child parent);;
    set_left parent child;;
    or ← get_right old;
    set_right node or;;
    or ← get_right old;
    set_parent or node;;
    ret parent.
Definition settle {A} (old node : Z) (x : A) : M avl A :=
  op ← get_parent old;
  oh ← get_height old;
  set_parent node op;;
  set_height node oh;;
  ol ← get_left old;
  set_left node ol;;
  ol ← get_left old;
  set_parent ol node;;
  ret x.
Definition swap_out (old : Z) : M avl (Z * Z * Z) :=
  r ← get_right old;
  fuel ← avl_fuel;
  node ← leftmost fuel r;
  op ← get_parent old;
  _avl_child_replace old node op;;
  child ← get_right node;
  parent ← get_parent node;
  color ← get_height node;
  parent ← detach old node child parent;
  settle old node (child, parent, color).

Lemma rp_plug i : forall t t', rp t = rp t' -> rp (plug i t) = rp (plug i t').
Proof. induction i as [|i IH p r h|i IH l p h]; intros t t' Hr; cbn; [done | |]; by apply IH. Qed.
Lemma plug_ne i l p r h : plug i (N l p r h) <> E.
Proof. intros Hp. apply (f_equal nodes) in Hp. rewrite nodes_plug in Hp. cbn in Hp. by destruct (cl i), (nodes l). Qed.
Lemma rep_nz m par t : rep m par t -> t <> E -> nz (rp t) = true.
Proof. intros Hr Ht. apply nz_true. intros H0. by apply (rp_null _ _ _ Hr) in H0. Qed.

Lemma detach_Ok s n x q h i m mr mh :
  nmem s !! n = Some (mk_avl x (rp (plug i (N E m mr mh))) q h) ->
  rep (nmem s) n (plug i (N E m mr mh)) -> cl i = [] ->
  (forall y, (cnt y [n] + cnt y (m :: nodes mr ++ cr i) <= 1)%nat) ->
  exists s' pm, detach n m (rp mr) (base_par n i) s = Ok (base_par m i, s') /\ node s' = node s /\
    rep (nmem s') m (plug i mr) /\ nmem s' !! m = Some (mk_avl NULL (rp (plug i mr)) pm mh) /\
    same_out (m :: nodes mr ++ cr i) (nmem s) (nmem s').
Proof.
  intros Hn Hr Hi HD. apply rep_plug in Hr as (Hri & Hm0 & Hm & _ & Hmr). cbn [rp] in *. unfold detach.
  destruct i as [|i p rr rh|i ll p rh]; cbn [base_par plug] in *.
  - exists s, n. rewrite Z.eqb_refl. split; [done |]. split; [done |]. split; [done |]. split; [done | apply same_out_refl].
  - destruct Hri as (Hp & Hmp & Hrr & Hri). cbn [cl cr] in *.
    assert (p <> n) as Hpn by (intros ->; cn n). rewrite (proj2 (Z.eqb_neq _ _) Hpn).
    destruct (reparent_Ok s m mr p) as (s1 & E1 & N1 & R1 & F1); [done | intros y; cn y |]. mstep E1.
    assert (nmem s1 !! p = Some (mk_avl m (rp rr) (base_par n i) rh)) as Hp1 by (hop p; done).
    assert (nmem s1 !! n = Some (mk_avl x (rp (plug i (N (N E m mr mh) p rr rh))) q h)) as Hn1 by (hop n; done).
    assert (nmem s1 !! m = Some (mk_avl NULL (rp mr) p mh)) as Hm1 by (hop m; done).
    assert (p <> m) as Hpm by (intros ->; cn m). assert (n <> m) as Hnm by (intros ->; cn m).
    do 4 astep. cbn [nmem node]. rewrite (rp_plug i (N (N E m mr mh) p rr rh) (N mr p rr rh)) in * by done.
    match goal with |- context [bind _ _ ?y] => set (s2 := y) end.
    assert (rep (nmem s2) n (plug i (N mr p rr rh))) as R2.
    { apply rep_plug. unfold s2. cbn [nmem rep]. split; [apply (repi_frame (nmem s)); [done |]; intros y Hy; rewrite Hi in Hy; hop y; done |].
      split; [done |]. split; [hop p; done |]. split; [apply (rep_frame (nmem s1)) | apply (rep_frame (nmem s))]; try done; intros y Hy; hop y; done. }
    assert (forall y, cnt y (nodes (plug i (N mr p rr rh))) = (cnt y (nodes mr) + cnt y (p :: nodes rr) + cnt y (cr i))%nat) as NC.
    { intros y. rewrite nodes_plug, Hi. cbn [app nodes]. rewrite !cnt_app. lia. }
    destruct (reparent_Ok s2 n (plug i (N mr p rr rh)) m) as (s3 & E3 & N3 & R3 & F3); [done | intros y; rewrite NC; cn y |].
    rewrite (rep_nz _ _ _ R2 (plug_ne _ _ _ _ _)) in E3. mstep E3. exists s3, p. split; [done |].
    split; [by rewrite N3, <-N1 |]. split; [done |]. assert (same_out (m :: nodes mr ++ p :: nodes rr ++ cr i) (nmem s2) (nmem s3)) as F3'.
    { intros y Hy. apply F3. rewrite NC. cn y. }
    split; [rewrite F3; [unfold s2; hop m; done |]; rewrite NC; cn m |].
    intros y Hy. rewrite F3' by done. unfold s2. hop y. done.
  - exfalso. cbn [cl] in Hi. by destruct (cl i), (nodes ll).
Qed.

Lemma settle_Ok {A} s c n l R m r0 pm mh h (x : A) :
  nmem s !! n = Some (mk_avl (rp l) r0 (cpar c) h) -> nmem s !! m = Some (mk_avl NULL (rp R) pm mh) -> m <> NULL -> l <> E ->
  repc (nmem s) (node s) c m -> rep (nmem s) n l -> rep (nmem s) m R ->
  (forall y, (cnt y (cl c) + cnt y (nodes l) + cnt y (n :: m :: nodes R) + cnt y (cr c) <= 1)%nat) ->
  exists s', settle n m x s = Ok (x, s') /\ zat s' c (N l m R h) /\ same_out (m :: nodes l) (nmem s) (nmem s').
Proof.
  intros Hn Hm Hm0 Hl Hc Rl RR HD. assert (n <> m) as Hnm by (intros ->; cn m). unfold settle. do 7 astep.
  cbn [nmem node]. rewrite !insert_insert_eq.
  match goal with |- context [bind _ _ ?y] => set (s1 := y) end.
  destruct (reparent_Ok s1 n l m) as (s2 & E2 & N2 & R2 & F2).
  { apply (rep_frame (nmem s)); [done |]. intros y Hy. unfold s1. hop y. done. }
  { intros y. cn y. }
  rewrite (rep_nz _ _ _ Rl Hl) in E2. mstep E2. exists s2. split; [done |]. split; [split; [| split] |].
  - cbn [rp]. rewrite N2. apply (repc_frame (nmem s)); [done |]. intros y Hy. rewrite F2 by cn y. unfold s1. hop y. done.
  - cbn [rep]. split; [done |]. split; [rewrite F2 by cn m; unfold s1; hop m; done |]. split; [done |].
    apply (rep_frame (nmem s)); [done |]. intros y Hy. rewrite F2 by cn y. unfold s1. hop y. done.
  - intros y. cn y.
  - intros y Hy. rewrite F2 by cn y. unfold s1. hop y. done.
Qed.

Lemma cpar_capp_base c l m h i : cpar (capp (CR c l m h) i) = base_par m i.
Proof. by destruct i. Qed.

(** The node after [n] is cut out below it and put in its place. *)
Lemma swap_out_Ok s c l n r h i m mr mh :
  zat s c (N l n r h) -> l <> E -> r = plug i (N E m mr mh) -> cl i = [] ->
  (forall fuel, (levels r < fuel)%nat -> leftmost fuel (rp r) s = Ok (m, s)) ->
  exists s', swap_out n s = Ok ((rp mr, cpar (capp (CR c l m h) i), mh), s') /\
    is_tree s' (plug (capp (CR c l m h) i) mr) /\ same_out (cl c ++ nodes (N l n r h) ++ cr c) (nmem s) (nmem s').
Proof.
  intros Hz Hl Er Hi Hleft. pose proof Hz as (Hc & (Hn & Hm & Rl & Rr) & HD). cbn [rp] in *.
  assert (nodes r = m :: nodes mr ++ cr i) as NR by (rewrite Er, nodes_plug, Hi; done).
  assert (forall y, (cnt y (cl c) + cnt y (nodes l) + cnt y (n :: m :: nodes mr ++ cr i) + cnt y (cr c) <= 1)%nat) as HD'.
  { intros y. specialize (HD y). cbn [nodes] in HD. rewrite NR in HD. cn y. }
  pose proof Rr as Rr0. rewrite Er in Rr0. apply rep_plug in Rr0 as (Ri & Hm0 & Hmm & _ & Rmr). cbn [rp] in *.
  assert (n <> m) as Hnm by (intros ->; cn m).
  unfold swap_out. astep. erewrite bind_Ok by reflexivity.
  mstep (Hleft (S (size (nmem s))) (levels_fuel _ _ _ (proj2 (zat_up_r _ _ _ _ _ _) Hz))). astep.
  destruct (child_replace_Ok s c n m) as (s1 & E1 & R1 & F1); [done | done | intros y; cn y |]. mstep E1.
  assert (nmem s1 !! n = Some (mk_avl (rp l) (rp r) (cpar c) h)) as Hn1 by (hop n; done).
  assert (nmem s1 !! m = Some (mk_avl NULL (rp mr) (base_par n i) mh)) as Hm1 by (hop m; done). do 3 astep.
  destruct (detach_Ok s1 n (rp l) (cpar c) h i m mr mh) as (s2 & pm & E2 & N2 & R2 & Hm2 & F2);
    [by rewrite <-Er | apply (rep_frame (nmem s)); [by rewrite <-Er |]; intros y Hy; rewrite <-Er, NR in Hy; hop y; done | done | intros y; cn y |].
  mstep E2.
  assert (forall y, cnt y (nodes (plug i mr)) = cnt y (nodes mr ++ cr i)) as NP by (intros y; by rewrite nodes_plug, Hi).
  destruct (settle_Ok s2 c n l (plug i mr) m (rp r) pm mh h (rp mr, base_par m i, mh)) as (s3 & E3 & Z3 & F3); try done.
  - hop n. done.
  - rewrite N2. apply (repc_frame (nmem s1)); [done |]. intros y Hy. hop y. done.
  - apply (rep_frame (nmem s)); [done |]. intros y Hy. hop y. done.
  - intros y. cbn [cnt]. rewrite NP. cn y.
  - exists s3. rewrite cpar_capp_base. split; [done |]. split; [rewrite plug_capp; by apply zat_tree in Z3 |].
    intros y Hy. cbn [nodes] in Hy. rewrite NR in Hy. hop y. done.
Qed.

Lemma sim_leftmost fuel : forall n, ptr n -> sim ptr (rb_leftmost fuel n) (leftmost fuel n).
Proof. induction fuel as [|fuel IH]; intros n Hn; cbn; [done |]. sim_auto; auto with sim. Qed.
Lemma sim_rightmost fuel : forall n, ptr n -> sim ptr (rb_rightmost fuel n) (rightmost fuel n).
Proof. induction fuel as [|fuel IH]; intros n Hn; cbn; [done |]. sim_auto; auto with sim. Qed.

Lemma sim_copy {A} (P : A -> Prop) old nd k1 k2 : sim P k1 k2 ->
  sim P (ow ← get_rb_word old; set_rb_word nd (fun _ => ow);; k1)%aco
    (op ← get_parent old; oh ← get_height old; set_parent nd op;; set_height nd oh;; k2)%aco.
Proof.
  intros Hk a r a' G (op & a1 & E1 & (oh & a2 & E2 & (u1 & a3 & E3 & (u2 & a4 & E4 & E5)%bind_inv)%bind_inv)%bind_inv)%bind_inv.
  unfold get_parent in E1. apply bind_inv in E1 as (n & ? & [-> Hn]%at_node_inv & [= <- <-]).
  unfold get_height in E2. apply bind_inv in E2 as (n' & ? & [-> Hn']%at_node_inv & [= <- <-]).
  assert (n' = n) as -> by congruence. apply upd_node_inv in E3 as (q & Hq & ->). apply upd_node_inv in E4 as (q' & Hq' & ->).
  cbn in Hq'. rewrite lookup_insert_eq in Hq'. injection Hq' as <-. cbn [nmem node left right parent] in E5. rewrite insert_insert_eq in E5.
  pose proof (gd_nodes _ G _ _ Hn) as [_ _ Tp Tc]. pose proof (gd_nodes _ G _ _ Hq) as [Tl Tr _ _].
  assert (get_rb_word old (conc a) = Ok (parent n + height n, conc a)) as W1 by (unfold get_rb_word; by mstep (at_rb_conc a old n Hn)).
  mstep W1. unfold set_rb_word.
  mstep (upd_rb_conc a nd (fun n0 => mk_rb (parent n + height n) (rb_right n0) (rb_left n0)) q (mk_avl (left q) (right q) (parent n) (height n)) Hq eq_refl).
  by apply Hk; [apply good_insert |].
Qed.

Lemma sim_swap_out old : ptr old -> sim (fun _ => True) (erase_two old) (swap_out old).
Proof.
  intros Ho. unfold erase_two, swap_out, detach, settle. pose proof sim_replace_child. pose proof sim_leftmost.
  eapply sim_bind; [apply sim_right |]. intros r Hr. eapply sim_bind; [apply sim_fuel |]. intros fuel _.
  eapply sim_bind; [by apply sim_leftmost |]. intros node Hnode. eapply sim_bind; [apply sim_parent |]. intros op Hop.
  eapply sim_bind; [by apply sim_replace_child |]. intros _ _. eapply sim_bind; [apply sim_right |]. intros child Hchild.
  eapply sim_bind; [apply sim_parent |]. intros par Hpar. eapply sim_bind; [apply sim_color |]. intros color Hcolor.
  eapply (sim_bind (fun _ => True)); [sim_auto; auto with sim |]. intros parent _.
  apply sim_copy. sim_auto.
Qed.

(** ** [rb_erase] *)

(** What taking a node out leaves of the colours: nothing to do, or a black node
    that one side owes. *)
Lemma taken_fits c d n t h : rb_tree (plug c (Nd d E n t h)) ->
  h = 0 /\ rb_tree (plug c t) \/ h = 1 /\ exists k, owed t k /\ crb c (S k).
Proof.
  intros (k & Hc & Hr & Hb)%rb_unplug. apply rb_Nd in Hr as [(-> & _ & Bt & _ & Kt) | (-> & j & -> & _ & Kt)].
  - left. split; [done |]. apply (rb_plug c t k); [done | done | by left].
  - right. split; [done |]. exists j. split; [by apply rb_owed | done].
Qed.
(** The colours do not depend on which node stands where. *)
Lemma rb_tree_rename c l n m r h : rb_tree (plug c (N l n r h)) -> rb_tree (plug c (N l m r h)).
Proof. intros (k & Hc & Hr & Hb)%rb_unplug. by apply (rb_plug c (N l m r h) k). Qed.

(** [rb_erase] up to the recolouring. *)
Definition take_out (node : Z) : M rbt (Z * Z * Z) :=
  l ← get_rb_left node;
  if negb (nz l) then r ← get_rb_right node; erase_one node r
  else r ← get_rb_right node; if negb (nz r) then erase_one node l else erase_two node.

Lemma rb_erase_split node s : rb_erase node s =
  bind (take_out node) (fun cpc => let '(child, parent, color) := cpc : Z * Z * Z in
    when (color =? RB_BLACK) (__rb_erase_color child parent)) s.
Proof. unfold rb_erase, take_out. by rewrite bind_bind. Qed.

(** The tree without [n], and the place the node was taken from. *)
Definition out_at (a : avl) (L : list Z) (c : ctx) (t : tree) (h : Z) (a' : avl) : Prop :=
  at_tree a' (plug c t) /\ nodes (plug c t) = L /\
  (h = 0 /\ rb_tree (plug c t) \/ h = 1 /\ exists k, owed t k /\ crb c (S k)).

Section take_out.
Context (a : avl) (T : tree) (c : ctx) (l : tree) (n : Z) (r : tree) (h : Z).
Context (HT : at_tree a T) (ET : T = plug c (N l n r h)) (HR : rb_tree T).

Lemma take_one d t : N l n r h = Nd d E n t h ->
  exists a', erase_one n (rp t) (conc a) = Ok ((rp t, cpar c, h), conc a') /\
    out_at a ((cl c ++ nodes l) ++ nodes r ++ cr c) c t h a' /\ same_out (nodes T) (nmem a) (nmem a').
Proof using All.
  intros EN. assert (ET' : T = plug c (Nd d E n t h)) by (by rewrite <-EN). pose proof (at_zat _ _ _ _ _ _ _ _ HT ET') as Hz.
  destruct (bypass_Ok _ _ _ _ _ _ Hz) as (a' & E1 & Z1 & F1).
  assert (ptr (rp t)) as Hp by apply (read_opp _ _ _ _ _ _ _ _ HT ET').
  destruct (sim_bypass n (rp t) Hp a _ _ (proj1 HT) E1) as (E2 & G2 & _). exists a'. split; [done |].
  assert (nodes l ++ nodes r = nodes t) as EL by (destruct d; injection EN as -> ->; cbn; [done | by rewrite app_nil_r]).
  split; [split; [| split] |].
  - split; [done | by apply zat_tree].
  - rewrite nodes_plug, <-EL. by rewrite <-!app_assoc.
  - apply (taken_fits c d n). by rewrite <-ET'.
  - intros q Hq. apply F1. rewrite ET', nodes_plug, !cnt_app, cnt_Nd in Hq. rewrite !cnt_app. lia.
Qed.

Lemma take_two : l <> E -> r <> E ->
  exists a' c' t' h', erase_two n (conc a) = Ok ((rp t', cpar c', h'), conc a') /\
    out_at a ((cl c ++ nodes l) ++ nodes r ++ cr c) c' t' h' a' /\ same_out (nodes T) (nmem a) (nmem a').
Proof using All.
  intros Hl Hr. assert (exists rl rq rr rh, r = N rl rq rr rh) as (rl & rq & rr & rh & Er) by (destruct r; [done | by eexists _, _, _, _]).
  destruct (leftmost_ends rl rq rr rh) as (i & m & mr & mh & Ei & Hi & Hleft). rewrite <-Er in Ei, Hleft.
  pose proof (at_zat _ _ _ SL _ _ _ _ HT ET) as Hz. cbn [Nd] in Hz.
  destruct (swap_out_Ok a c l n r h i m mr mh Hz Hl Ei Hi) as (a' & E1 & T1 & F1).
  { intros fuel Hf. rewrite Er at 1. cbn [rp]. apply (Hleft _ (CR c l n h)); [by apply zat_up_r | done]. }
  destruct (sim_swap_out n (focus_ptr _ _ _ SL _ _ _ _ HT ET) a _ _ (proj1 HT) E1) as (E2 & G2 & _).
  exists a', (capp (CR c l m h) i), mr, mh. split; [done |]. split; [split; [done | split] |].
  - rewrite plug_capp, !nodes_plug, Hi, Ei, nodes_plug, Hi. cbn [plug nodes app cl cr]. by rewrite <-!app_assoc.
  - apply (taken_fits _ SL m). cbn [Nd]. rewrite plug_capp. cbn [plug]. rewrite <-Ei. apply (rb_tree_rename c l n). by rewrite <-ET.
  - rewrite ET, nodes_plug. exact F1.
Qed.

Lemma take_out_Ok :
  exists a' c' t' h', take_out n (conc a) = Ok ((rp t', cpar c', h'), conc a') /\
    out_at a ((cl c ++ nodes l) ++ nodes r ++ cr c) c' t' h' a' /\ same_out (nodes T) (nmem a) (nmem a').
Proof using All.
  unfold take_out. pose proof (at_zat _ _ _ SL _ _ _ _ HT ET) as (_ & (Hn & _ & Rl & Rr) & _). cbn [Nd] in *.
  mstep (proj1 (read_side _ _ _ SL _ _ _ _ HT ET)).
  pose proof (proj1 (read_opp _ _ _ SL _ _ _ _ HT ET)) as Er. cbn [rb_get_side opp] in Er.
  assert (forall t, t = E \/ t <> E) as empty by (intros []; auto). destruct (empty l) as [El | El].
  - assert (nz (rp l) = false) as -> by (by rewrite El). cbn [negb]. mstep Er. destruct (take_one SL r) as (a' & H); [by rewrite El |].
    by exists a', c, r, h.
  - rewrite (rep_nz _ _ _ Rl El). cbn [negb]. mstep Er. destruct (empty r) as [Er' | Er'].
    + assert (nz (rp r) = false) as -> by (by rewrite Er'). destruct (take_one SR l) as (a' & H); [by rewrite Er' |].
      by exists a', c, l, h.
    + rewrite (rep_nz _ _ _ Rr Er'). by apply take_two.
Qed.
End take_out.

(** [rb_erase], wherever the node stands. *)
Lemma rb_erase_Ok (a : avl) (T : tree) (L1 : list Z) (n : Z) (L2 : list Z) :
  at_tree a T -> rb_tree T -> nodes T = L1 ++ n :: L2 ->
  exists a' T', rb_erase n (conc a) = Ok (tt, conc a') /\
    at_tree a' T' /\ rb_tree T' /\ nodes T' = L1 ++ L2 /\
    (levels T' <= 2 * Nat.log2 (S (length (L1 ++ L2))))%nat /\
    same_out (nodes T) (nmem a) (nmem a').
Proof.
  intros HT HR HL. destruct (focus_at a L1 n L2 T (proj2 HT) HL) as (c & l & r & h & _ & ET & <- & <-).
  destruct (take_out_Ok a T c l n r h HT ET HR) as (a1 & c1 & t1 & h1 & E1 & (H1 & N1 & Hfit) & F1).
  assert (becomes rb_tree a1 (plug c1 t1) (when (h1 =? RB_BLACK) (__rb_erase_color (rp t1) (cpar c1)))) as (a' & T' & E2 & (H' & N' & S') & R').
  { destruct Hfit as [(-> & Hf) | (-> & k & Ho & Hc)]; [| by eapply erase_color_Ok]. exists a1, (plug c1 t1).
    split; [done |]. split; [by apply moved_refl | done]. }
  exists a', T'. split; [rewrite rb_erase_split; mstep E1; exact E2 |]. split; [done |]. split; [done |].
  rewrite N1 in N'. split; [done |]. split; [pose proof (rb_height T' R') as Hh; by rewrite N' in Hh |].
  intros q Hq. rewrite S'; [by apply F1 |]. rewrite N1. rewrite HL in Hq. rewrite cnt_app in *. cbn [cnt] in Hq. lia.
Qed.

(** C20: [rb_erase] takes a node out of a red-black tree, wherever it stands: the
    others keep their order, the tree is a red-black tree again, nodes outside it
    are not touched, and the words still hold a parent and a colour. *)
Theorem rb_erase_red_black (a : avl) (T : tree) (L1 : list Z) (n : Z) (L2 : list Z) :
  at_tree a T -> rb_tree T -> nodes T = L1 ++ n :: L2 ->
  exists a' T', rb_erase n (conc a) = Ok (tt, conc a') /\
    at_tree a' T' /\ rb_tree T' /\ nodes T' = L1 ++ L2 /\
    (levels T' <= 2 * Nat.log2 (S (length (L1 ++ L2))))%nat /\
    same_out (nodes T) (nmem a) (nmem a').
Proof. apply rb_erase_Ok. Qed.

Lemma rb_erase_red_black_witness :
  exists a' T', rb_erase 16 (conc rb_demo) = Ok (tt, conc a') /\ at_tree a' T' /\ rb_tree T' /\ nodes T' = [24].
Proof.
  destruct (rb_erase_red_black rb_demo rb_demo_tree [] 16 [24] rb_demo_at) as (a' & T' & H1 & H2 & H3 & H4 & _).
  - split; [done |]. exists 1%nat. right. split; [done |]. exists O. split; [done |]. split; [done |]. left. done.
  - reflexivity.
  - exists a', T'. split; [exact H1 |]. split; [exact H2 |]. split; [exact H3 | exact H4].
Defined.
