(* ===== verification/RbWalk.v ===== *)
(** * Red-black trees: walking and replacing

    [rb_first], [rb_last], [rb_next] and [rb_prev] walk the nodes in order, and
    [rb_replace_node] puts one node in the place of another.  None of them
    depends on the colours. *)
From S2P Require Import Prelude Avl AvlSpec Rbtree RbSpec RbInsert RbErase.

(** ** Walking *)

(** The node that follows a context on the side [d], and the loops that look for
    it: down to the side [opp d], and up. *)
Definition ahead (d : side) (c : ctx) : Z := match d with SR => first_of (cr c) | SL => last_of (cl c) end.
Definition down (d : side) : nat -> Z -> M rbt Z := match d with SR => rb_leftmost | SL => rb_rightmost end.
Definition climb (d : side) : nat -> Z -> M rbt Z := match d with SR => rb_climb_next | SL => rb_climb_prev end.
Definition step (d : side) : Z -> M rbt Z := match d with SR => rb_next | SL => rb_prev end.
Definition farthest (d : side) (t : tree) : Z := match d with SR => first_of (nodes t) | SL => last_of (nodes t) end.

Lemma climb_S d fuel node : climb d (S fuel) node = (
  parent ← rb_parent node;
  if parent =? NULL then ret parent
  else r ← rb_get_side d parent; if node =? r then climb d fuel parent else ret parent)%aco.
Proof. by destruct d. Qed.
Lemma step_eq d node : step d node = (
  p ← rb_parent node;
  if p =? node then ret NULL
  else r ← rb_get_side d node; fuel ← rb_fuel; if nz r then down d fuel r else climb d fuel node)%aco.
Proof. by destruct d. Qed.

Lemma ahead_opp d c p u h : ahead d (Cd (opp d) c p u h) = p.
Proof. destruct d; cbn; [unfold last_of; by rewrite app_assoc, last_snoc | done]. Qed.
Lemma ahead_same d c p u h : ahead d (Cd d c p u h) = ahead d c.
Proof. by destruct d. Qed.

Lemma tree_Nd d t : t <> E -> exists x p y h, t = Nd d x p y h.
Proof. destruct t as [|l p r h]; [done |]. intros _. destruct (Nd_cases d l p r h) as (x & y & ->). by exists x, p, y, h. Qed.

Lemma climb_Ok d a T fuel : forall c t, at_tree a T -> T = plug c t -> t <> E -> (depth c < fuel)%nat ->
  climb d fuel (rp t) (conc a) = Ok (ahead d c, conc a).
Proof.
  induction fuel as [|fuel IH]; intros c t HT ET Ht Hf; [lia |]. rewrite climb_S.
  destruct (tree_Nd d t Ht) as (x & q & y & k & Et). pose proof ET as ET'. rewrite Et in ET'.
  pose proof (proj1 (read_parent _ _ _ _ _ _ _ _ HT ET')) as Ep. rewrite Et, rp_Nd. mstep Ep.
  destruct (ctx_cases c) as [-> | (e & c' & p & u & h & ->)]; [by destruct d |]. rewrite cpar_Cd. rewrite depth_Cd in Hf.
  rewrite plug_Cd in ET. destruct (at_node_of _ _ _ _ _ _ _ _ HT ET) as [Hp _]. rewrite (proj2 (Z.eqb_neq _ _) Hp).
  assert (rp t = q) as Eq by (by rewrite Et, rp_Nd).
  assert (e = d \/ e = opp d) as [-> | ->] by (destruct e, d; auto).
  - mstep (proj1 (read_side _ _ _ _ _ _ _ _ HT ET)). rewrite Eq, Z.eqb_refl, ahead_same.
    pose proof (IH c' (Nd d t p u h) HT ET) as H. rewrite rp_Nd in H. apply H; [by destruct d | lia].
  - pose proof (proj1 (read_opp _ _ _ _ _ _ _ _ HT ET)) as Eu. rewrite opp_opp in Eu. mstep Eu. rewrite ahead_opp.
    assert (q =? rp u = false) as ->; [| done]. apply Z.eqb_neq. intros E0. apply Ht.
    apply (siblings _ _ _ _ _ _ _ _ HT ET). congruence.
Qed.

Lemma down_Ok d a T c t : at_tree a T -> T = plug c t -> t <> E ->
  down d (S (size (nmem a))) (rp t) (conc a) = Ok (farthest d t, conc a).
Proof.
  intros HT ET Ht. destruct t as [|l p r h]; [done |]. cbn [rp].
  pose proof (at_zat _ _ _ SL _ _ _ _ HT ET) as Hz. cbn [Nd] in Hz. pose proof (focus_ptr _ _ _ SL _ _ _ _ HT ET) as Hp.
  destruct HT as [G _]. pose proof (levels_fuel _ _ _ Hz) as Hf. destruct d.
  - by apply (sim_rightmost _ p Hp a _ _ G (rightmost_Ok _ _ _ _ _ _ _ Hz Hf)).
  - by apply (sim_leftmost _ p Hp a _ _ G (leftmost_Ok _ _ _ _ _ _ _ Hz Hf)).
Qed.

Lemma fuel_Ok a : good a -> rb_fuel (conc a) = Ok (S (size (nmem a)), conc a).
Proof. intros G. apply (sim_fuel a _ a G eq_refl). Qed.

(** A node is not its own parent. *)
Lemma parent_ne a T c d t p u h : at_tree a T -> T = plug c (Nd d t p u h) -> cpar c =? p = false.
Proof.
  intros HT ET. pose proof (at_zat _ _ _ _ _ _ _ _ HT ET) as (_ & Hr & HD). apply rep_Nd in Hr as [Hp _].
  apply Z.eqb_neq. setoid_rewrite cnt_Nd in HD. destruct c as [|c q v k|c v q k]; cbn [cpar]; [congruence | |]; intros ->; cn p.
Qed.

(** What [rb_next] and [rb_prev] look at: the nodes of a subtree, then those
    around it. *)
Definition beside (d : side) (c : ctx) (t : tree) : Z :=
  match d with SR => first_of (nodes t ++ cr c) | SL => last_of (cl c ++ nodes t) end.

Lemma beside_E d c : beside d c E = ahead d c.
Proof. destruct d; cbn; [by rewrite app_nil_r | done]. Qed.
Lemma beside_tree d c t : t <> E -> beside d c t = farthest d t.
Proof.
  destruct t as [|l p r h]; [done |]. intros _. destruct d; cbn [beside farthest nodes]; unfold first_of, last_of.
  - rewrite !last_app, !last_cons. by destruct (last (nodes r)).
  - by destruct (nodes l).
Qed.

Lemma step_Ok d a T c t n u h : at_tree a T -> T = plug c (Nd d t n u h) ->
  step d n (conc a) = Ok (beside d c t, conc a).
Proof.
  intros HT ET. rewrite step_eq. mstep (proj1 (read_parent _ _ _ _ _ _ _ _ HT ET)). rewrite (parent_ne _ _ _ _ _ _ _ _ HT ET).
  mstep (proj1 (read_side _ _ _ _ _ _ _ _ HT ET)). mstep (fuel_Ok a (proj1 HT)).
  pose proof (at_zat _ _ _ _ _ _ _ _ HT ET) as Hz. assert (t = E \/ t <> E) as [-> | Ht] by (destruct t; auto).
  - rewrite beside_E. cbn [rp]. pose proof (climb_Ok d a T (S (size (nmem a))) c _ HT ET) as H. rewrite rp_Nd in H.
    apply H; [by destruct d | by eapply depth_fuel].
  - rewrite beside_tree by done. destruct Hz as (_ & Hr & _). apply rep_Nd in Hr as (_ & _ & Hr & _).
    rewrite (rep_nz _ _ _ Hr Ht). apply (down_Ok d a T (Cd d c n u h)); [done | by rewrite plug_Cd | done].
Qed.

Lemma ends_Ok a T : at_tree a T ->
  rb_first (conc a) = Ok (first_of (nodes T), conc a) /\ rb_last (conc a) = Ok (last_of (nodes T), conc a).
Proof.
  intros HT. pose proof (read_root a T HT) as Hr. pose proof (fuel_Ok a (proj1 HT)) as Hf.
  destruct T as [|l p r h]; [by split; [unfold rb_first | unfold rb_last]; mstep Hr |].
  destruct (at_node_of _ _ Top SL _ _ _ _ HT eq_refl) as [Hp _]. apply Z.eqb_neq in Hp.
  split; [unfold rb_first | unfold rb_last]; mstep Hr; cbn [rp]; rewrite Hp; mstep Hf.
  - by apply (down_Ok SR a _ Top _ HT eq_refl).
  - by apply (down_Ok SL a _ Top _ HT eq_refl).
Qed.

Lemma neighbours_Ok a T L1 n L2 : at_tree a T -> nodes T = L1 ++ n :: L2 ->
  rb_next n (conc a) = Ok (first_of L2, conc a) /\ rb_prev n (conc a) = Ok (last_of L1, conc a).
Proof.
  intros HT HL. destruct (focus_at a L1 n L2 T (proj2 HT) HL) as (c & l & r & h & _ & ET & <- & <-).
  split; [apply (step_Ok SR a T c r n l h HT ET) | apply (step_Ok SL a T c l n r h HT ET)].
Qed.

(** C38: on a tree [rb_first] and [rb_last] are the ends of the in-order sequence,
    and [rb_next] and [rb_prev] of any of its nodes are its neighbours there, NULL
    at the ends; none of them changes a byte.  So a walk meets every node once, in
    order. *)
Theorem rb_walk_in_order (a : avl) (T : tree) :
  at_tree a T ->
  rb_first (conc a) = Ok (first_of (nodes T), conc a) /\
  rb_last (conc a) = Ok (last_of (nodes T), conc a) /\
  forall L1 n L2, nodes T = L1 ++ n :: L2 ->
    rb_next n (conc a) = Ok (first_of L2, conc a) /\ rb_prev n (conc a) = Ok (last_of L1, conc a).
Proof.
  intros HT. destruct (ends_Ok a T HT) as [Hf Hl]. split; [done |]. split; [done |]. intros L1 n L2. by apply neighbours_Ok.
Qed.

Lemma rb_walk_in_order_witness :
  rb_first (conc rb_demo) = Ok (16, conc rb_demo) /\ rb_next 16 (conc rb_demo) = Ok (24, conc rb_demo) /\
  rb_prev 16 (conc rb_demo) = Ok (NULL, conc rb_demo).
Proof.
  destruct (rb_walk_in_order rb_demo rb_demo_tree rb_demo_at) as (H1 & _ & H2).
  split; [exact H1 |]. apply (H2 [] 16 [24]). reflexivity.
Defined.

(** ** Replacing a node *)

Lemma sim_copy_node v x : sim (fun _ => True) (n ← at_rb v; upd_rb x (fun _ => n))%aco
  (l ← get_left v; set_left x l;; r ← get_right v; set_right x r;; p ← get_parent v; set_parent x p;;
   h ← get_height v; set_height x h)%aco.
Proof.
  intros a [] a' G E.
  assert (exists nv nx, nmem a !! v = Some nv /\ nmem a !! x = Some nx) as (nv & nx & Hv & Hx).
  { unfold get_left in E. apply bind_inv in E as (l & a1 & (nv & ? & [-> Hv]%at_node_inv & [= _ ->])%bind_inv & (? & ? & (nx & Hx & _)%upd_node_inv & _)%bind_inv).
    by exists nv, nx. }
  mstep (at_rb_conc a v nv Hv). rewrite (upd_rb_conc a x _ nx nv Hx eq_refl).
  assert (a' = mk_avl_state (<[x := nv]> (nmem a)) (node a)) as ->.
  { destruct nv as [l r p h], nx as [l' r' p' h']. destruct (decide (v = x)) as [<- | Hne].
    - rewrite Hv in Hx. injection Hx as <- <- <- <-. revert E. do 8 astep. intros [= <-]. cbn [nmem node]. by rewrite !insert_insert_eq.
    - revert E. do 8 astep. intros [= <-]. cbn [nmem node]. by rewrite !insert_insert_eq. }
  split; [done |]. split; [| done]. apply good_insert; [done | by apply (gd_nodes _ G v)].
Qed.

(** A field read twice in a row. *)
Lemma sim_reread {A} (P : A -> Prop) (g1 : M rbt Z) (g2 : M avl Z) (f1 : Z -> M rbt unit) (f2 : Z -> M avl unit) k1 k2 :
  (forall a l a', g2 a = Ok (l, a') -> a' = a) ->
  sim ptr g1 g2 -> (forall l, ptr l -> sim (fun _ => True) (f1 l) (f2 l)) -> sim P k1 k2 ->
  sim P (l ← g1; when (nz l) (l ← g1; f1 l);; k1)%aco (l ← g2; when (nz l) (f2 l);; k2)%aco.
Proof.
  intros Hg Hs Hf Hk a r a' G (l & a1 & E1 & E2)%bind_inv. pose proof (Hg _ _ _ E1) as ->.
  destruct (Hs a l a G E1) as (R1 & _ & Hl). mstep R1. destruct (nz l); cbn [when] in *.
  - rewrite bind_bind. mstep R1. refine (sim_bind _ _ _ _ (fun _ => k1) (fun _ => k2) (Hf l Hl) _ a r a' G E2). done.
  - by apply (Hk a).
Qed.
Lemma get_left_same v a l a' : get_left v a = Ok (l, a') -> a' = a.
Proof. unfold get_left. by intros (? & ? & [-> _]%at_node_inv & [= _ ->])%bind_inv. Qed.
Lemma get_right_same v a l a' : get_right v a = Ok (l, a') -> a' = a.
Proof. unfold get_right. by intros (? & ? & [-> _]%at_node_inv & [= _ ->])%bind_inv. Qed.

Lemma sim_replace v x : ptr x -> sim (fun _ => True) (rb_replace_node v x) (avl_node_replace v x).
Proof.
  intros Hx. unfold rb_replace_node, avl_node_replace.
  eapply sim_bind; [apply sim_parent |]. intros par Hpar.
  eapply (sim_bind (fun _ => True)); [| intros _ _].
  { unfold _avl_child_replace. apply sim_if; [| by apply sim_set_root]. eapply sim_bind; [apply sim_left |]. intros l Hl.
    rewrite Z.eqb_sym. sim_auto. }
  apply (sim_reread _ _ _ (fun l => rb_set_parent l x) (fun l => set_parent l x));
    [intros ???; apply get_left_same | apply sim_left | intros; by apply sim_set_parent |].
  apply (sim_reread _ _ _ (fun r => rb_set_parent r x) (fun r => set_parent r x));
    [intros ???; apply get_right_same | apply sim_right | intros; by apply sim_set_parent | apply sim_copy_node].
Qed.

(** [rb_replace_node] puts [x] where [v] was; the colours stay. *)
Lemma rb_replace_node_Ok a T L1 v L2 x :
  at_tree a T -> rb_tree T -> nodes T = L1 ++ v :: L2 -> x <> NULL -> ptr x -> (x ∉ L1 ++ v :: L2) -> is_Some (nmem a !! x) ->
  exists a' T', rb_replace_node v x (conc a) = Ok (tt, conc a') /\ at_tree a' T' /\ rb_tree T' /\ nodes T' = L1 ++ x :: L2 /\
    same_out (L1 ++ x :: L2) (nmem a) (nmem a').
Proof.
  intros HT HR HL Hx Hp Hf Hm. destruct (focus_at a L1 v L2 T (proj2 HT) HL) as (c & l & r & h & Hz & ET & <- & <-).
  destruct (avl_node_replace_Ok a c l v r h x Hz Hx Hm) as (a' & E & Z' & _ & F').
  { destruct (cnt x _) eqn:Ec; [done |]. destruct Hf. rewrite <-assoc_erase. apply cnt_elem. cbn [nodes] in Ec. lia. }
  destruct (sim_replace v x Hp a _ _ (proj1 HT) E) as (E2 & G2 & _). exists a', (plug c (N l x r h)). split; [done |].
  split; [split; [done | by apply zat_tree] |]. split; [apply (rb_tree_rename c l v); by rewrite <-ET |].
  rewrite nodes_plug. cbn [nodes]. rewrite assoc_erase. split; [done |]. by rewrite <-assoc_erase.
Qed.
