(* ===== verification/RbClient.v ===== *)
(** * Red-black trees: clients

    The callers of the library search and compare themselves; all they know of a
    tree is the sequence of its nodes and the places where a link is NULL.  A
    client starts with an empty root on any well-typed memory, and then links,
    erases and replaces nodes as it likes, as long as it respects the contract of
    [rbtree.h]: new nodes are aligned and not in the tree, links are empty, nodes
    to erase are in the tree.  Whatever it does, the tree is a red-black tree over
    the sequence the client expects, and the next operation returns. *)
From S2P Require Import Prelude Avl AvlSpec Rbtree RbSpec RbInsert RbErase RbWalk.

(** ** The types of the words

    A parent and a colour share a word.  A memory is well typed when every word
    is an aligned address with a colour bit and every link an aligned address. *)

Record typed_rb (n : rb_node) : Prop := {
  tr_left : ptr (rb_left n);
  tr_right : ptr (rb_right n);
  tr_word : exists p h, ptr p /\ bit h /\ rb_parent_color n = p + h
}.
Definition typed_mem (s : rbt) : Prop :=
  (forall p n, rb_mem s !! p = Some n -> typed_rb n) /\ ptr (rb_node_of_root s).

(** Such memories are the images of the well-formed ones of [RbSpec]. *)
Lemma typed_conc a : good a -> typed_mem (conc a).
Proof.
  intros [G R]. split; [| done]. intros p n. cbn. rewrite lookup_fmap, fmap_Some. intros (m & Hm & ->).
  apply G in Hm as [T1 T2 T3 T4]. split; [done | done |]. by exists (parent m), (height m).
Qed.

Definition dec (n : rb_node) : avl_node :=
  mk_avl (rb_left n) (rb_right n) (Z.land (rb_parent_color n) (mask_not 3)) (Z.land (rb_parent_color n) 1).
Definition plain (s : rbt) : avl := mk_avl_state (dec <$> rb_mem s) (rb_node_of_root s).

Lemma enc_dec n : typed_rb n -> enc (dec n) = n /\ typed (dec n).
Proof.
  intros [T1 T2 (p & h & Hp & Hh & E)]. destruct n as [w r l]. cbn in *. subst w. unfold dec, enc. cbn.
  rewrite word_parent, word_color by done. split; [done | by split].
Qed.
Lemma plain_Ok s : typed_mem s -> conc (plain s) = s /\ good (plain s).
Proof.
  intros [T R]. split.
  - unfold conc, plain. destruct s as [m r]. cbn in *. f_equal. rewrite <-map_fmap_compose.
    rewrite <-(map_fmap_id m) at 2. apply map_fmap_ext. intros p n Hn. by apply enc_dec, (T p).
  - split; [| done]. intros p n. cbn. rewrite lookup_fmap, fmap_Some. intros (k & Hk & ->). by apply enc_dec, (T p).
Qed.

(** ** Places *)

(** [lnk], in the node [par], is an empty link, between the nodes [L1] and [L2]
    of the sequence. *)
Inductive vacant (s : rbt) : Z -> link -> list Z -> list Z -> Prop :=
  | vacant_root : vacant s NULL RootLink [] []
  | vacant_left p nd L1 L2 : rb_mem s !! p = Some nd -> rb_left nd = NULL -> vacant s p (LeftLink p) L1 (p :: L2)
  | vacant_right p nd L1 L2 : rb_mem s !! p = Some nd -> rb_right nd = NULL -> vacant s p (RightLink p) (L1 ++ [p]) L2.

Lemma conc_at a p n : nmem a !! p = Some n -> rb_mem (conc a) !! p = Some (enc n).
Proof. intros H. cbn. by rewrite lookup_fmap, H. Qed.

(** A place in memory is a place in the tree. *)
Lemma vacant_context a T par lnk L1 L2 : at_tree a T -> nodes T = L1 ++ L2 -> vacant (conc a) par lnk L1 L2 ->
  exists c, T = plug c E /\ cpar c = par /\ link_of c = lnk /\ cl c = L1 /\ cr c = L2.
Proof.
  intros HT HL V. assert (forall t q, rep (nmem a) q t -> rp t = NULL -> t = E) as empty by (intros [] q; [done |]; by intros (? & _)).
  destruct V as [| p nd L1 L2 Hm Hl | p nd L1 L2 Hm Hr].
  - exists Top. destruct T as [|l p r h]; [done |]. cbn in HL. by destruct (nodes l).
  - destruct (focus_at a L1 p L2 T (proj2 HT) HL) as (c & l & r & h & (_ & (_ & Hp & Rl & _) & _) & -> & <- & <-).
    rewrite (conc_at _ _ _ Hp) in Hm. injection Hm as <-. cbn in Hl. rewrite (empty _ _ Rl Hl) in *.
    exists (CL c p r h). cbn. by rewrite app_nil_r.
  - rewrite <-app_assoc in HL. cbn [app] in HL.
    destruct (focus_at a L1 p L2 T (proj2 HT) HL) as (c & l & r & h & (_ & (_ & Hp & _ & Rr) & _) & -> & <- & <-).
    rewrite (conc_at _ _ _ Hp) in Hm. injection Hm as <-. cbn in Hr. rewrite (empty _ _ Rr Hr) in *.
    exists (CR c l p h). cbn. by rewrite <-app_assoc.
Qed.

(** There is one between any two neighbours, and at the ends. *)
Lemma gap t : forall c L1 L2, nodes t = L1 ++ L2 ->
  exists c', plug c t = plug c' E /\ cl c' = cl c ++ L1 /\ cr c' = L2 ++ cr c.
Proof.
  induction t as [|l IHl p r IHr h]; intros c L1 L2 HL; cbn [nodes] in HL.
  - symmetry in HL. apply app_eq_nil in HL as [-> ->]. exists c. by rewrite app_nil_r.
  - apply app_eq_app in HL as (k & [[HL Hk] | [HL Hk]]).
    + destruct (IHl (CL c p r h) L1 k HL) as (c' & E' & C1 & C2). exists c'. split; [exact E' |]. split; [exact C1 |].
      rewrite C2, Hk. cbn. by rewrite <-app_assoc.
    + destruct k as [|q k]; cbn in Hk.
      * destruct (IHl (CL c p r h) (nodes l) [] ltac:(by rewrite app_nil_r)) as (c' & E' & C1 & C2).
        exists c'. split; [exact E' |]. rewrite app_nil_r in HL. subst L1 L2. split; [exact C1 |]. by rewrite C2.
      * injection Hk as -> Hk. destruct (IHr (CR c l q h) k L2 Hk) as (c' & E' & C1 & C2).
        exists c'. split; [exact E' |]. split; [rewrite C1, HL; cbn; by rewrite <-!app_assoc | by rewrite C2].
Qed.
Lemma context_vacant a c : at_tree a (plug c E) -> vacant (conc a) (cpar c) (link_of c) (cl c) (cr c).
Proof.
  intros HT. destruct c as [|c p r h|c l p h]; [constructor | |]; cbn [plug] in HT.
  - destruct (at_node_of a _ c SL E p r h HT eq_refl) as [_ Hm%conc_at]. by eapply vacant_left.
  - destruct (at_node_of a _ c SR E p l h HT eq_refl) as [_ Hm%conc_at]. cbn. rewrite app_assoc. by eapply vacant_right.
Qed.

(** ** The operations on a sequence *)

(** The memory [s] holds a red-black tree over [L]. *)
Definition rb_over (s : rbt) (L : list Z) : Prop :=
  exists a T, s = conc a /\ at_tree a T /\ rb_tree T /\ nodes T = L.
(** Nodes outside of [L] are as before. *)
Definition leaves (L : list Z) (s s' : rbt) : Prop := forall q, (q ∉ L) -> rb_mem s' !! q = rb_mem s !! q.
(** The bytes of a node. *)
Definition put_bytes (n : Z) (w : rb_node) (s : rbt) : rbt := mk_rbt (<[n := w]> (rb_mem s)) (rb_node_of_root s).
(** An aligned address of a node that is not in the tree. *)
Definition new_node (n : Z) (L : list Z) : Prop := n <> NULL /\ ptr n /\ (n ∉ L).

Lemma cnt_out n L : (n ∉ L) <-> cnt n L = 0%nat.
Proof. rewrite cnt_elem. lia. Qed.
Lemma leaves_conc L a a' : same_out L (nmem a) (nmem a') -> leaves L (conc a) (conc a').
Proof. intros H q Hq%cnt_out. cbn. by rewrite !lookup_fmap, H. Qed.

Lemma insert_over s L1 L2 n w par lnk : rb_over s (L1 ++ L2) -> new_node n (L1 ++ L2) -> vacant s par lnk L1 L2 ->
  exists s', (rb_link_node n par lnk;; rb_insert_color n)%aco (put_bytes n w s) = Ok (tt, s') /\
    rb_over s' (L1 ++ n :: L2) /\ leaves (L1 ++ n :: L2) s s'.
Proof.
  intros (a & T & -> & HT & HR & HL) (Hn & Hp & Hf) V.
  destruct (vacant_context a T par lnk L1 L2 HT HL V) as (c & -> & <- & <- & <- & <-).
  destruct (rb_link_insert_Ok a c n w HT HR Hn Hp (proj1 (cnt_out _ _) Hf)) as (a' & T' & E' & HT' & HR' & HL' & _ & F).
  exists (conc a'). split; [exact E' |]. split; [by exists a', T' |]. apply leaves_conc. intros q Hq.
  rewrite cnt_app in Hq. cbn [cnt] in Hq. apply F; [intros ->; rewrite decide_True in Hq by done; lia | rewrite cnt_app; lia].
Qed.

Lemma erase_over s L1 n L2 : rb_over s (L1 ++ n :: L2) ->
  exists s', rb_erase n s = Ok (tt, s') /\ rb_over s' (L1 ++ L2) /\ leaves (L1 ++ n :: L2) s s'.
Proof.
  intros (a & T & -> & HT & HR & HL). destruct (rb_erase_Ok a T L1 n L2 HT HR HL) as (a' & T' & E' & HT' & HR' & HL' & _ & F).
  exists (conc a'). split; [exact E' |]. split; [by exists a', T' |]. apply leaves_conc. by rewrite <-HL.
Qed.

Lemma replace_over s L1 v L2 n : rb_over s (L1 ++ v :: L2) -> new_node n (L1 ++ v :: L2) -> is_Some (rb_mem s !! n) ->
  exists s', rb_replace_node v n s = Ok (tt, s') /\ rb_over s' (L1 ++ n :: L2) /\ leaves (L1 ++ n :: L2) s s'.
Proof.
  intros (a & T & -> & HT & HR & HL) (Hn & Hp & Hf) Hm. cbn in Hm. rewrite lookup_fmap, fmap_is_Some in Hm.
  destruct (rb_replace_node_Ok a T L1 v L2 n HT HR HL Hn Hp Hf Hm) as (a' & T' & E' & HT' & HR' & HL' & F).
  exists (conc a'). split; [exact E' |]. split; [by exists a', T' |]. by apply leaves_conc.
Qed.

(** A node outside of the tree is marked as such. *)
Lemma init_over s L n : rb_over s L -> new_node n L -> is_Some (rb_mem s !! n) ->
  exists s', rb_init_node n s = Ok (tt, s') /\ rb_over s' L /\ leaves [n] s s' /\ RB_EMPTY_NODE n s' = Ok (true, s').
Proof.
  intros (a & T & -> & HT & HR & HL) (Hn & Hp & Hf) [w Hm]. destruct HT as [G (Hr & Hroot & HN)].
  set (a' := mk_avl_state (<[n := mk_avl NULL NULL n 0]> (nmem a)) (node a)). exists (conc a').
  assert (rb_mem (conc a') !! n = Some (enc (mk_avl NULL NULL n 0))) as Hm' by (apply conc_at, lookup_insert_eq).
  split; [| split; [| split]].
  - unfold rb_init_node, RB_CLEAR_NODE, rb_set_parent, set_rb_word, set_rb_right, set_rb_left, upd_rb, zoom, update, bind.
    cbn in Hm |- *. rewrite Hm. cbn. rewrite !lookup_insert_eq. cbn. rewrite insert_insert_eq, lookup_insert_eq. cbn.
    rewrite insert_insert_eq, lookup_insert_eq. cbn. rewrite insert_insert_eq. unfold conc, a', set_rb_mem. cbn [rb_mem rb_node_of_root nmem node].
    rewrite fmap_insert. unfold enc at 2. cbn [left right parent height]. by rewrite Z.add_0_r.
  - exists a', T. split; [done |]. split; [| done]. split; [apply good_insert; [done |]; split; try apply ptr_null; [done | by left] |].
    split; [| done]. apply (rep_frame (nmem a)); [done |]. intros q Hq. apply lookup_insert_ne. intros <-.
    apply Hf. rewrite <-HL. by apply cnt_elem.
  - intros q Hq. cbn. rewrite !lookup_fmap, lookup_insert_ne; [done | set_solver].
  - unfold RB_EMPTY_NODE, rb_parent, get_rb_word, at_rb, zoom, load, bind. rewrite Hm'. unfold ret. cbn [enc rb_parent_color parent height].
    rewrite (word_parent n 0) by (done || by left). rewrite Z.eqb_refl. reflexivity.
Qed.

Lemma empty_over s L : rb_over s L -> RB_EMPTY_ROOT s = Ok (bool_decide (L = []), s).
Proof.
  intros (a & T & -> & [_ (Hr & Hroot & _)] & _ & <-). unfold RB_EMPTY_ROOT, get_rb_root, gets, bind, ret. cbn. rewrite Hroot.
  destruct T as [|l p r h]; [done |]. destruct Hr as (Hp & _). cbn [rp nodes]. rewrite (proj2 (Z.eqb_neq _ _) Hp).
  rewrite bool_decide_eq_false_2; [done |]. by destruct (nodes l).
Qed.

(** ** Clients *)

(** What a client can reach from the memory [s0], and the sequence it expects:
    its nodes may hold anything before they are linked. *)
Inductive client (s0 : rbt) : rbt -> list Z -> Prop :=
  | client_start s : RB_ROOT s0 = Ok (tt, s) -> client s0 s []
  | client_insert s s' L1 L2 n w par lnk :
      client s0 s (L1 ++ L2) -> new_node n (L1 ++ L2) -> vacant s par lnk L1 L2 ->
      (rb_link_node n par lnk;; rb_insert_color n)%aco (put_bytes n w s) = Ok (tt, s') -> client s0 s' (L1 ++ n :: L2)
  | client_erase s s' L1 n L2 :
      client s0 s (L1 ++ n :: L2) -> rb_erase n s = Ok (tt, s') -> client s0 s' (L1 ++ L2)
  | client_replace s s' L1 v L2 n :
      client s0 s (L1 ++ v :: L2) -> new_node n (L1 ++ v :: L2) -> is_Some (rb_mem s !! n) ->
      rb_replace_node v n s = Ok (tt, s') -> client s0 s' (L1 ++ n :: L2)
  | client_init s s' L n :
      client s0 s L -> new_node n L -> is_Some (rb_mem s !! n) -> rb_init_node n s = Ok (tt, s') -> client s0 s' L.

Lemma start_over s0 s : typed_mem s0 -> RB_ROOT s0 = Ok (tt, s) -> rb_over s [].
Proof.
  intros T [= <-]. destruct (plain_Ok s0 T) as [E G]. exists (mk_avl_state (nmem (plain s0)) NULL), AvlSpec.E.
  split; [by rewrite <-E at 1 |]. split; [split; [split; [apply G | apply ptr_null] |] |].
  - split; [done |]. split; [done | constructor].
  - split; [split; [done | by exists O] | done].
Qed.

Lemma client_over s0 s L : typed_mem s0 -> client s0 s L -> rb_over s L.
Proof.
  intros T. induction 1 as [s E | s s' L1 L2 n w par lnk _ IH Hn V E | s s' L1 n L2 _ IH E | s s' L1 v L2 n _ IH Hn Hm E | s s' L n _ IH Hn Hm E].
  - by eapply start_over.
  - destruct (insert_over s L1 L2 n w par lnk IH Hn V) as (s1 & E1 & H & _). rewrite E in E1. by injection E1 as <-.
  - destruct (erase_over s L1 n L2 IH) as (s1 & E1 & H & _). rewrite E in E1. by injection E1 as <-.
  - destruct (replace_over s L1 v L2 n IH Hn Hm) as (s1 & E1 & H & _). rewrite E in E1. by injection E1 as <-.
  - destruct (init_over s L n IH Hn Hm) as (s1 & E1 & H & _). rewrite E in E1. by injection E1 as <-.
Qed.

(** What holds of a red-black tree over [L], and of what can be done next. *)
Lemma over_shape s L : rb_over s L -> typed_mem s /\ NoDup L /\
  exists a T, s = conc a /\ is_tree a T /\ rb_tree T /\ nodes T = L /\ (levels T <= 2 * Nat.log2 (S (length L)))%nat.
Proof.
  intros (a & T & -> & [G HI] & HR & <-). split; [by apply typed_conc |]. split; [apply HI |].
  exists a, T. do 4 (split; [done |]). by apply rb_height.
Qed.
Lemma over_walk s L : rb_over s L ->
  rb_first s = Ok (first_of L, s) /\ rb_last s = Ok (last_of L, s) /\
  forall L1 n L2, L = L1 ++ n :: L2 -> rb_next n s = Ok (first_of L2, s) /\ rb_prev n s = Ok (last_of L1, s).
Proof.
  intros (a & T & -> & HT & _ & <-). destruct (ends_Ok a T HT) as [Hf Hl]. split; [done |]. split; [done |].
  intros L1 n L2. by apply neighbours_Ok.
Qed.
Lemma over_places s L : rb_over s L -> forall L1 L2, L = L1 ++ L2 -> exists par lnk, vacant s par lnk L1 L2.
Proof.
  intros (a & T & -> & HT & _ & <-) L1 L2 HL. destruct (gap T Top L1 L2 HL) as (c & E' & C1 & C2). cbn in E', C1, C2.
  rewrite app_nil_r in C2. subst L1 L2. exists (cpar c), (link_of c). apply context_vacant. by rewrite <-E'.
Qed.

(** C37: the library serves every client.  From an empty root on any well-typed
    memory, however a client links new nodes at empty links (whatever their
    bytes were), erases, replaces and initialises nodes, in every state it
    reaches: all words still are an aligned address with a colour bit and all
    links aligned addresses; the memory holds a red-black tree, of at most
    [2 log2 (n + 1)] levels, over exactly the sequence of nodes that the client's
    calls make; [rb_first], [rb_last], [rb_next] and [rb_prev] walk that sequence
    and change nothing; there is an empty link between any two neighbours and at
    both ends; and each of the next insertions, removals, replacements and
    initialisations returns (no bad access, no loop without end), leaving nodes
    outside of the tree alone. *)
Theorem rb_client_served (s0 s : rbt) (L : list Z) :
  typed_mem s0 -> client s0 s L ->
  (typed_mem s /\ NoDup L /\ exists a T, s = conc a /\ is_tree a T /\ rb_tree T /\ nodes T = L /\
     (levels T <= 2 * Nat.log2 (S (length L)))%nat) /\
  RB_EMPTY_ROOT s = Ok (bool_decide (L = []), s) /\
  (rb_first s = Ok (first_of L, s) /\ rb_last s = Ok (last_of L, s) /\
   forall L1 n L2, L = L1 ++ n :: L2 -> rb_next n s = Ok (first_of L2, s) /\ rb_prev n s = Ok (last_of L1, s)) /\
  (forall L1 L2, L = L1 ++ L2 -> exists par lnk, vacant s par lnk L1 L2) /\
  (forall L1 L2 n w par lnk, L = L1 ++ L2 -> new_node n L -> vacant s par lnk L1 L2 ->
     exists s', (rb_link_node n par lnk;; rb_insert_color n)%aco (put_bytes n w s) = Ok (tt, s') /\
       leaves (L1 ++ n :: L2) s s') /\
  (forall n, (n ∈ L) -> exists s', rb_erase n s = Ok (tt, s') /\ leaves L s s') /\
  (forall v n, (v ∈ L) -> new_node n L -> is_Some (rb_mem s !! n) ->
     exists s', rb_replace_node v n s = Ok (tt, s') /\ leaves (n :: L) s s') /\
  (forall n, new_node n L -> is_Some (rb_mem s !! n) ->
     exists s', rb_init_node n s = Ok (tt, s') /\ RB_EMPTY_NODE n s' = Ok (true, s') /\ leaves [n] s s').
Proof.
  intros T Hc. pose proof (client_over s0 s L T Hc) as H.
  split; [by apply over_shape |]. split; [by apply empty_over |]. split; [by apply over_walk |]. split; [by apply over_places |].
  split; [| split; [| split]].
  - intros L1 L2 n w par lnk -> Hn V. destruct (insert_over s L1 L2 n w par lnk H Hn V) as (s' & E' & _ & F). by exists s'.
  - intros n (L1 & L2 & ->)%list_elem_of_split. destruct (erase_over s L1 n L2 H) as (s' & E' & _ & F). by exists s'.
  - intros v n (L1 & L2 & ->)%list_elem_of_split Hn Hm. destruct (replace_over s L1 v L2 n H Hn Hm) as (s' & E' & _ & F).
    exists s'. split; [done |]. intros q Hq. apply F. set_solver.
  - intros n Hn Hm. destruct (init_over s L n H Hn Hm) as (s' & E' & _ & F & M). by exists s'.
Qed.

(** Three nodes with any bytes; [16] goes in, [8] before it and [24] after it, then
    [16] is erased. *)
Definition rb_client_demo : rbt := mk_rbt {[8 := mk_rb 0 0 0; 16 := mk_rb 0 0 0; 24 := mk_rb 8 0 0]} 24.
Definition put_in (n par : Z) (lnk : link) (s : rbt) : rbt :=
  match (rb_link_node n par lnk;; rb_insert_color n)%aco (put_bytes n (mk_rb 77 5 6) s) with Ok (_, s') => s' | Err _ => s end.
Definition demo1 : rbt := put_in 16 NULL RootLink (mk_rbt (rb_mem rb_client_demo) NULL).
Definition demo2 : rbt := put_in 8 16 (LeftLink 16) demo1.
Definition demo3rb : rbt := put_in 24 16 (RightLink 16) demo2.

Lemma rb_client_demo_typed : typed_mem rb_client_demo.
Proof.
  split; [| by split; [cbn; lia |]]. intros p n. unfold rb_client_demo. cbn [rb_mem].
  rewrite !lookup_insert_Some, lookup_singleton_Some.
  intros [[_ <-] | [_ [[_ <-] | [_ [_ <-]]]]]; (split; [by split; [cbn; lia |] .. |]); cbn [rb_parent_color].
  - exists 0, 0. split; [by split; [lia |] |]. split; [by left | done].
  - exists 0, 0. split; [by split; [lia |] |]. split; [by left | done].
  - exists 8, 0. split; [by split; [lia |] |]. split; [by left | done].
Qed.
Lemma demo_new n L : (n =? 0) || negb (n mod 8 =? 0) || negb ((0 <=? n) && (n <? 2 ^ 64)) || bool_decide (n ∈ L) = false -> new_node n L.
Proof.
  rewrite !orb_false_iff, !negb_false_iff, andb_true_iff, bool_decide_eq_false, Z.eqb_neq, Z.eqb_eq, Z.leb_le, Z.ltb_lt.
  intros (((? & ?) & ?) & ?). by split; [| split; [split |]].
Qed.
Lemma demo_client : client rb_client_demo demo3rb [8; 16; 24].
Proof.
  apply (client_insert _ demo2 _ [8; 16] [] 24 (mk_rb 77 5 6) 16 (RightLink 16));
    [| by apply demo_new; vm_compute | by eapply (vacant_right _ 16 _ [8]); vm_compute | by vm_compute].
  apply (client_insert _ demo1 _ [] [16] 8 (mk_rb 77 5 6) 16 (LeftLink 16));
    [| by apply demo_new; vm_compute | by eapply (vacant_left _ 16 _ [] []); vm_compute | by vm_compute].
  apply (client_insert _ (mk_rbt (rb_mem rb_client_demo) NULL) _ [] [] 16 (mk_rb 77 5 6) NULL RootLink);
    [by apply client_start | by apply demo_new; vm_compute | constructor | by vm_compute].
Qed.

Lemma rb_client_served_witness :
  typed_mem demo3rb /\ rb_first demo3rb = Ok (8, demo3rb) /\ rb_next 8 demo3rb = Ok (16, demo3rb) /\
  rb_prev 8 demo3rb = Ok (NULL, demo3rb) /\ exists s', rb_erase 16 demo3rb = Ok (tt, s').
Proof.
  destruct (rb_client_served rb_client_demo demo3rb [8; 16; 24] rb_client_demo_typed demo_client)
    as ((H1 & _) & _ & (H2 & _ & H3) & _ & _ & H4 & _).
  destruct (H3 [] 8 [16; 24] eq_refl) as [H5 H6]. split; [exact H1 |]. split; [exact H2 |]. split; [exact H5 |]. split; [exact H6 |].
  destruct (H4 16) as (s' & E' & _); [by right; left |]. by exists s'.
Defined.
