(* ===== verification/CString.v ===== *)
(** * The string library

    [lib/string/string.c] and [lib/math/math.c] on a memory of bytes.  [char] is
    unsigned on RISC-V, so a byte is an integer of [0, 256).  A loop whose index
    is an [int] faults when the index would pass [INT_MAX]; one that reads past
    the end of mapped memory faults there.  Every round of a scan reads a new
    address, so the number of mapped bytes bounds the rounds of every loop. *)
From S2P Require Import Prelude.

Notation bytes := (gmap Z Z) (only parsing).
Definition INT_MAX : Z := 2 ^ 31 - 1.

Definition get (p : Z) : M bytes Z := load p.
Definition put (p v : Z) : M bytes unit := update p (fun _ => u8 v).
Definition str_fuel : M bytes nat := gets (fun m => S (size m)).
(** [i++] on an [int] in an array loop. *)
Definition int_inc (i : Z) : M bytes Z := if i <? INT_MAX then ret (i + 1) else fail Overflow.

(** [for(int i=0;i<n;i++) des[i] = src[i]] *)
Fixpoint copy_int (fuel : nat) (dst src n i : Z) : M bytes unit :=
  match fuel with
  | O => fail NoFuel
  | S fuel =>
    if i <? n then
      c ← get (src + i); put (dst + i) c;;
      i ← int_inc i; copy_int fuel dst src n i
    else ret tt
  end.

(** [src/lib/string/string.c:6-13 memmove] *)
Definition memmove (str1 str2 n : Z) : M bytes Z :=
  if (str1 =? NULL) || (str2 =? NULL) || (n <=? 0) then ret str1
  else copy_int (S (Z.to_nat n)) str1 str2 n 0;; ret str1.

(** [src/lib/string/string.c:20-20 strnlen (loop)] *)
Fixpoint strnlen_loop (fuel : nat) (s maxlen lenth : Z) : M bytes Z :=
  match fuel with
  | O => fail NoFuel
  | S fuel =>
    if lenth <? maxlen then
      c ← get (s + lenth);
      if c =? 0 then ret lenth else strnlen_loop fuel s maxlen (lenth + 1)
    else ret lenth
  end.
(** [src/lib/string/string.c:15-22 strnlen] *)
Definition strnlen (s maxlen : Z) : M bytes Z :=
  if s =? NULL then ret 0 else fuel ← str_fuel; strnlen_loop fuel s maxlen 0.

(** [src/lib/string/string.c:29-29 strlen (loop)] *)
Fixpoint strlen_loop (fuel : nat) (src lenth : Z) : M bytes Z :=
  match fuel with
  | O => fail NoFuel
  | S fuel =>
    c ← get (src + lenth);
    if c =? 0 then ret lenth else strlen_loop fuel src (lenth + 1)
  end.
(** [src/lib/string/string.c:24-31 strlen] *)
Definition strlen (src : Z) : M bytes Z :=
  if src =? NULL then ret 0 else fuel ← str_fuel; strlen_loop fuel src 0.

(** The copy loops of [strcpy_safe], [strcpy], [strncpy_safe] and [strncpy]:
    copy while the source byte is not zero and [go i] holds; the final [i]. *)
Fixpoint copy_str (fuel : nat) (go : Z -> bool) (dest src i : Z) : M bytes Z :=
  match fuel with
  | O => fail NoFuel
  | S fuel =>
    c ← get (src + i);
    if negb (c =? 0) && go i then
      put (dest + i) c;;
      i ← int_inc i; copy_str fuel go dest src i
    else ret i
  end.

(** [src/lib/string/string.c:33-49 strcpy_safe] *)
Definition strcpy_safe (dest src max_size : Z) : M bytes Z :=
  if max_size <=? 0 then ret dest
  else if (src =? NULL) || (dest =? NULL) then ret dest
  else
    fuel ← str_fuel;
    i ← copy_str fuel (fun i => i <? max_size) dest src 0;
    (if max_size <=? i then put (dest + (i - 1)) 0 else put (dest + i) 0);;
    ret dest.

(** [src/lib/string/string.c:51-62 strcpy] *)
Definition strcpy (dest src : Z) : M bytes Z :=
  if (src =? NULL) || (dest =? NULL) then ret dest
  else
    fuel ← str_fuel;
    i ← copy_str fuel (fun _ => true) dest src 0;
    put (dest + i) 0;;
    ret dest.

(** [src/lib/string/string.c:64-80 strncpy_safe] *)
Definition strncpy_safe (dest src n max_size : Z) : M bytes Z :=
  if (max_size <=? 0) || (n <=? 0) then ret dest
  else if (src =? NULL) || (dest =? NULL) then ret dest
  else
    fuel ← str_fuel;
    i ← copy_str fuel (fun i => (i <? n) && (i <? max_size)) dest src 0;
    (if max_size <=? i then put (dest + (i - 1)) 0 else put (dest + i) 0);;
    ret dest.

(** [src/lib/string/string.c:82-93 strncpy] *)
Definition strncpy (dest src n : Z) : M bytes Z :=
  if (n <=? 0) || (dest =? NULL) || (src =? NULL) then ret dest
  else
    fuel ← str_fuel;
    i ← copy_str fuel (fun i => i <? n) dest src 0;
    put (dest + i) 0;;
    ret dest.

(** [src/lib/string/string.c:105-110 strcmp (loop)] *)
Fixpoint strcmp_loop (fuel : nat) (src des i : Z) : M bytes Z :=
  match fuel with
  | O => fail NoFuel
  | S fuel =>
    a ← get (src + i);
    b ← get (des + i);
    if (a =? 0) && (b =? 0) then ret 0
    else if negb (a - b =? 0) then ret (a - b)
    else i ← int_inc i; strcmp_loop fuel src des i
  end.
(** [src/lib/string/string.c:95-111 strcmp] *)
Definition strcmp (src des : Z) : M bytes Z :=
  if (src =? NULL) && (des =? NULL) then ret 0
  else if xorb (src =? NULL) (des =? NULL) then
    if src =? NULL then d ← get des; ret (- d) else get src
  else fuel ← str_fuel; strcmp_loop fuel src des 0.

(** [src/lib/string/string.c:119-122 strcat (loop)] The final [p]. *)
Fixpoint strcat_loop (fuel : nat) (src i p : Z) : M bytes Z :=
  match fuel with
  | O => fail NoFuel
  | S fuel =>
    c ← get (src + i);
    if c =? 0 then ret p
    else put p c;; i ← int_inc i; strcat_loop fuel src i (p + 1)
  end.
(** [src/lib/string/string.c:113-125 strcat] *)
Definition strcat (dest src : Z) : M bytes Z :=
  if (src =? NULL) || (dest =? NULL) then ret dest
  else
    fuel ← str_fuel;
    len ← strlen_loop fuel dest 0;
    p ← strcat_loop fuel src 0 (dest + len);
    put p 0;;
    ret dest.

(** [src/lib/string/string.c:132-139 strchr (loop)] *)
Fixpoint strchr_loop (fuel : nat) (p c : Z) : M bytes Z :=
  match fuel with
  | O => fail NoFuel
  | S fuel =>
    x ← get p;
    if x =? 0 then ret NULL
    else if x =? c then ret p
    else strchr_loop fuel (p + 1) c
  end.
(** [src/lib/string/string.c:127-140 strchr] *)
Definition strchr (str c : Z) : M bytes Z :=
  if str =? NULL then ret NULL else fuel ← str_fuel; strchr_loop fuel str c.

(** [src/lib/string/string.c:148-155 strrchr (loop)] *)
Fixpoint strrchr_loop (fuel : nat) (p c last : Z) : M bytes Z :=
  match fuel with
  | O => fail NoFuel
  | S fuel =>
    x ← get p;
    if x =? 0 then ret last
    else strrchr_loop fuel (p + 1) c (if x =? c then p else last)
  end.
(** [src/lib/string/string.c:142-157 strrchr] *)
Definition strrchr (str c : Z) : M bytes Z :=
  if str =? NULL then ret NULL else fuel ← str_fuel; strrchr_loop fuel str c NULL.

(** [src/lib/string/string.c:172-176 memcmp (loop)] *)
Fixpoint memcmp_loop (fuel : nat) (s1 s2 n i : Z) : M bytes Z :=
  match fuel with
  | O => fail NoFuel
  | S fuel =>
    if i <? n then
      a ← get (s1 + i);
      b ← get (s2 + i);
      if negb (a - b =? 0) then ret (a - b)
      else i ← int_inc i; memcmp_loop fuel s1 s2 n i
    else ret 0
  end.
(** [src/lib/string/string.c:159-177 memcmp] *)
Definition memcmp (str1 str2 n : Z) : M bytes Z :=
  if ((str1 =? NULL) && (str2 =? NULL)) || (n <=? 0) then ret 0
  else if xorb (str1 =? NULL) (str2 =? NULL) then
    if str1 =? NULL then d ← get str2; ret (- d) else get str1
  else memcmp_loop (S (Z.to_nat n)) str1 str2 n 0.

(** [src/lib/string/string.c:185-188 memcpy (loop)] The index is a [size_t]. *)
Fixpoint copy_size (fuel : nat) (dst src n i : Z) : M bytes unit :=
  match fuel with
  | O => fail NoFuel
  | S fuel =>
    if i <? n then
      c ← get (src + i); put (dst + i) c;; copy_size fuel dst src n (i + 1)
    else ret tt
  end.
(** [src/lib/string/string.c:179-190 memcpy] *)
Definition memcpy (des src n : Z) : M bytes Z :=
  if (des =? NULL) || (src =? NULL) || (n <=? 0) then ret des
  else copy_size (S (Z.to_nat n)) des src n 0;; ret des.

(** [src/lib/string/string.c:198-204 memchr (loop)] *)
Fixpoint memchr_loop (fuel : nat) (p c n i : Z) : M bytes Z :=
  match fuel with
  | O => fail NoFuel
  | S fuel =>
    if i <? n then
      x ← get (p + i);
      if x =? c then ret (p + i) else i ← int_inc i; memchr_loop fuel p c n i
    else ret NULL
  end.
(** [src/lib/string/string.c:192-206 memchr] *)
Definition memchr (str c n : Z) : M bytes Z :=
  if (str =? NULL) || (n <=? 0) then ret NULL
  else memchr_loop (S (Z.to_nat n)) str c n 0.

(** [src/lib/string/string.c:214-215 memset (loop)] *)
Fixpoint memset_loop (fuel : nat) (t c n i : Z) : M bytes unit :=
  match fuel with
  | O => fail NoFuel
  | S fuel =>
    if i <? n then put (t + i) c;; i ← int_inc i; memset_loop fuel t c n i
    else ret tt
  end.
(** [src/lib/string/string.c:208-217 memset] *)
Definition memset (des c n : Z) : M bytes Z :=
  if (des =? NULL) || (n <=? 0) then ret des
  else memset_loop (S (Z.to_nat n)) des (u8 c) n 0;; ret des.

(** ** Hashes

    [str++] and [i++] both advance, so round [i] tests the byte at offset [2i]
    and mixes in the byte at offset [i]. *)

(** [src/lib/math/math.c:6-7 JSHash (loop)] *)
Fixpoint JSHash_loop (fuel : nat) (str size i hash : Z) : M bytes Z :=
  match fuel with
  | O => fail NoFuel
  | S fuel =>
    if i <? size then
      c ← get (str + i);
      if c =? 0 then ret hash
      else
        b ← get str;
        i ← int_inc i;
        JSHash_loop fuel (str + 1) size i
          (Z.lxor hash (u32 (u32 (Z.shiftl hash 5) + b + Z.shiftr hash 2)))
    else ret hash
  end.
(** [src/lib/math/math.c:3-9 JSHash] *)
Definition JSHash (str size : Z) : M bytes Z :=
  h ← JSHash_loop (S (Z.to_nat size)) str size 0 1315423911;
  ret (Z.land h 0x7FFFFFFF).

(** [src/lib/math/math.c:14-15 SDBMHash (loop)] *)
Fixpoint SDBMHash_loop (fuel : nat) (str size i hash : Z) : M bytes Z :=
  match fuel with
  | O => fail NoFuel
  | S fuel =>
    if i <? size then
      c ← get (str + i);
      if c =? 0 then ret hash
      else
        b ← get str;
        i ← int_inc i;
        SDBMHash_loop fuel (str + 1) size i
          (u32 (b + u32 (Z.shiftl hash 6) + u32 (Z.shiftl hash 16) - hash))
    else ret hash
  end.
(** [src/lib/math/math.c:11-18 SDBMHash] *)
Definition SDBMHash (str size : Z) : M bytes Z :=
  h ← SDBMHash_loop (S (Z.to_nat size)) str size 0 0;
  ret (Z.land h 0x7FFFFFFF).
