(* ===== verification/CStringSpec.v ===== *)
(** * The string library: what it computes

    Strings as lists of non-zero bytes; the copy functions as list writes. *)
From S2P Require Import Prelude CString.

(** ** Bytes in memory *)

Fixpoint bytes_at (m : bytes) (p : Z) (l : list Z) : Prop :=
  match l with [] => True | c :: l => m !! p = Some c /\ bytes_at m (p + 1) l end.
(** The C string [s] at [p]. *)
Definition is_str (m : bytes) (p : Z) (s : list Z) : Prop :=
  p <> NULL /\ Forall (fun c => 0 < c < 256) s /\ bytes_at m p (s ++ [0]).
(** [n] mapped bytes from [p]. *)
Definition room (m : bytes) (p n : Z) : Prop := forall i, 0 <= i < n -> is_Some (m !! (p + i)).
Definition len (l : list Z) : Z := Z.of_nat (length l).

Fixpoint write (m : bytes) (p : Z) (l : list Z) : bytes :=
  match l with [] => m | c :: l => write (<[p := c]> m) (p + 1) l end.

Lemma bytes_at_app m p l k : bytes_at m p (l ++ k) <-> bytes_at m p l /\ bytes_at m (p + len l) k.
Proof.
  revert p. induction l as [|c l IH]; intros p; cbn.
  - rewrite Z.add_0_r. tauto.
  - rewrite IH. unfold len. cbn [length].
    replace (p + 1 + Z.of_nat (length l)) with (p + Z.of_nat (S (length l))) by lia. tauto.
Qed.

Lemma bytes_at_lookup m p l : bytes_at m p l <-> forall i c, l !! i = Some c -> m !! (p + Z.of_nat i) = Some c.
Proof.
  revert p. induction l as [|c l IH]; intros p; cbn; [split; [by intros _ [|]| done] |].
  rewrite IH. split.
  - intros [H1 H2] [|i] x Hx; cbn in Hx; [simplify_eq; by rewrite Z.add_0_r |].
    rewrite <-(H2 i x Hx). f_equal. lia.
  - intros H. split; [rewrite <-(H 0%nat c eq_refl); f_equal; lia |].
    intros i x Hx. rewrite <-(H (S i) x Hx). f_equal. lia.
Qed.

Lemma bytes_at_frame m m' p l :
  bytes_at m p l -> (forall q, p <= q < p + len l -> m' !! q = m !! q) -> bytes_at m' p l.
Proof.
  revert p. induction l as [|c l IH]; intros p; cbn; [done |]. intros [H1 H2] Hf.
  unfold len in *. cbn [length] in *. split; [rewrite Hf; [done | lia] |].
  apply IH; [done |]. intros q Hq. apply Hf. lia.
Qed.

Lemma bytes_at_size m p l : bytes_at m p l -> (length l <= size m)%nat.
Proof.
  intros H. rewrite <-(size_dom (D := gset Z)).
  assert (length l = length (seqZ p (len l))) as -> by (rewrite length_seqZ; unfold len; lia).
  rewrite <-(size_list_to_set (C := gset Z)) by apply NoDup_seqZ.
  apply subseteq_size. unfold len. intros q Hq%elem_of_list_to_set%elem_of_seqZ. apply elem_of_dom.
  rewrite bytes_at_lookup in H. destruct (lookup_lt_is_Some_2 l (Z.to_nat (q - p))) as [c Hc]; [lia |].
  specialize (H _ _ Hc). rewrite Z2Nat.id in H by lia. replace (p + (q - p)) with q in H by lia. by rewrite H.
Qed.

Lemma write_out m p l q : q < p \/ p + len l <= q -> write m p l !! q = m !! q.
Proof.
  revert m p. induction l as [|c l IH]; intros m p; cbn; [done |]. unfold len in *. cbn [length].
  intros H. rewrite IH by lia. by rewrite lookup_insert_ne by lia.
Qed.
Lemma write_at m p l : bytes_at (write m p l) p l.
Proof.
  revert m p. induction l as [|c l IH]; intros m p; cbn; [done |]. split; [| apply IH].
  rewrite write_out by lia. by rewrite lookup_insert_eq.
Qed.
Lemma write_app m p l k : write m p (l ++ k) = write (write m p l) (p + len l) k.
Proof.
  revert m p. induction l as [|c l IH]; intros m p; cbn.
  - by rewrite Z.add_0_r.
  - rewrite IH. f_equal. unfold len. cbn [length]. lia.
Qed.
Lemma write_dom m p l q : is_Some (m !! q) -> is_Some (write m p l !! q).
Proof.
  revert m p. induction l as [|c l IH]; intros m p H; cbn; [done |].
  apply IH. destruct (decide (p = q)) as [-> |]; [rewrite lookup_insert_eq; by eexists |].
  by rewrite lookup_insert_ne.
Qed.
(** Writing is an update of the bytes in the range, whatever was there. *)
Lemma write_size m p l : room m p (len l) -> size (write m p l) = size m.
Proof.
  revert m p. induction l as [|c l IH]; intros m p H; cbn; [done |].
  unfold len in *. cbn [length] in *. rewrite IH.
  - destruct (H 0) as [x Hx]; [lia |]. rewrite Z.add_0_r in Hx. by rewrite map_size_insert, Hx.
  - intros i Hi. destruct (H (i + 1)) as [x Hx]; [lia |].
    rewrite lookup_insert_ne by lia. exists x. rewrite <-Hx. f_equal. lia.
Qed.

Lemma room_of_bytes m p l : bytes_at m p l -> room m p (len l).
Proof.
  rewrite bytes_at_lookup. intros H i Hi. unfold len in Hi.
  destruct (lookup_lt_is_Some_2 l (Z.to_nat i)) as [c Hc]; [lia |].
  specialize (H _ _ Hc). rewrite Z2Nat.id in H by lia. by rewrite H.
Qed.

Lemma len_app l k : len (l ++ k) = len l + len k.
Proof. unfold len. rewrite length_app. lia. Qed.
Lemma len_cons c l : len (c :: l) = len l + 1.
Proof. unfold len. cbn. lia. Qed.
Lemma len_nonneg l : 0 <= len l.
Proof. unfold len. lia. Qed.

(** ** Steps *)

Lemma get_Ok m p c : m !! p = Some c -> get p m = Ok (c, m).
Proof. apply load_Ok. Qed.
Lemma put_Ok m p v : is_Some (m !! p) -> 0 <= v < 256 -> put p v m = Ok (tt, <[p := v]> m).
Proof.
  intros [c Hc] Hv. unfold put. rewrite (update_Ok _ _ _ _ Hc). unfold u8. rewrite Z.mod_small; [done | exact Hv].
Qed.
Lemma int_inc_Ok (m : bytes) i : i < INT_MAX -> int_inc i m = Ok (i + 1, m).
Proof. intros H. unfold int_inc. by rewrite (proj2 (Z.ltb_lt _ _) H). Qed.

Lemma str_fuel_Ok m : str_fuel m = Ok (S (size m), m).
Proof. done. Qed.

(** ** Scans *)

(** Lexicographic comparison of byte strings: the difference at the first place
    where they differ, the end of a string being a zero byte. *)
Fixpoint str_diff (s t : list Z) : Z :=
  match s, t with
  | [], [] => 0
  | a :: _, [] => a
  | [], b :: _ => - b
  | a :: s, b :: t => if a =? b then str_diff s t else a - b
  end.

(** The first and last position of a byte, as an address. *)
Fixpoint first_at (p c : Z) (s : list Z) : Z :=
  match s with [] => NULL | x :: s => if x =? c then p else first_at (p + 1) c s end.
Fixpoint last_at (p c last : Z) (s : list Z) : Z :=
  match s with [] => last | x :: s => last_at (p + 1) c (if x =? c then p else last) s end.

Ltac sstep := cbn [strlen_loop strnlen_loop strcmp_loop strchr_loop strrchr_loop copy_str
  app bytes_at length first_at last_at str_diff] in *.

Lemma strlen_loop_Ok m src s : forall i fuel,
  Forall (fun c => 0 < c < 256) s -> bytes_at m (src + i) (s ++ [0]) -> (length s < fuel)%nat ->
  strlen_loop fuel src i m = Ok (i + len s, m).
Proof.
  induction s as [|c s IH]; intros i [|fuel] Hs Hb Hf; sstep; try lia; destruct Hb as [Hc Hb];
    rewrite (bind_Ok _ _ _ _ _ (get_Ok _ _ _ Hc)).
  - by rewrite Z.add_0_r.
  - apply Forall_cons in Hs as [H1 H2]. rewrite (proj2 (Z.eqb_neq _ _)) by lia.
    rewrite IH; [rewrite len_cons; do 2 f_equal; lia | done | by rewrite Z.add_assoc | lia].
Qed.

Lemma str_size m p s : is_str m p s -> (length s < size m)%nat.
Proof. intros (_ & _ & H%bytes_at_size). rewrite length_app in H. cbn in H. lia. Qed.

Lemma strlen_Ok m p s : is_str m p s -> strlen p m = Ok (len s, m).
Proof.
  intros H. pose proof (str_size _ _ _ H) as Hsz. destruct H as (Hp & Hs & Hb).
  unfold strlen. rewrite (proj2 (Z.eqb_neq _ _) Hp), (bind_Ok _ _ _ _ _ (str_fuel_Ok m)).
  rewrite (strlen_loop_Ok m p s 0); [done | done | by rewrite Z.add_0_r | lia].
Qed.

Lemma strnlen_loop_Ok m src maxlen s : forall i fuel,
  Forall (fun c => 0 < c < 256) s -> bytes_at m (src + i) (s ++ [0]) -> i <= maxlen -> (length s < fuel)%nat ->
  strnlen_loop fuel src maxlen i m = Ok (Z.min maxlen (i + len s), m).
Proof.
  induction s as [|c s IH]; intros i [|fuel] Hs Hb Hi Hf; sstep; try lia;
    destruct Hb as [Hc Hb];
    (destruct (Z.ltb_spec i maxlen);
     [| unfold ret; do 2 f_equal; rewrite ?len_cons; change (len []) with 0; unfold len; lia]);
    rewrite (bind_Ok _ _ _ _ _ (get_Ok _ _ _ Hc)).
  - change (0 =? 0) with true. unfold ret. do 2 f_equal. change (len []) with 0. lia.
  - apply Forall_cons in Hs as [H1 H2]. rewrite (proj2 (Z.eqb_neq _ _)) by lia.
    rewrite IH; [rewrite len_cons; do 3 f_equal; lia | done | by rewrite Z.add_assoc | lia | lia].
Qed.

Lemma strcmp_loop_Ok m a b s : forall t i fuel,
  Forall (fun c => 0 < c < 256) s -> Forall (fun c => 0 < c < 256) t ->
  bytes_at m (a + i) (s ++ [0]) -> bytes_at m (b + i) (t ++ [0]) ->
  (length s < fuel)%nat -> i + len s < INT_MAX ->
  strcmp_loop fuel a b i m = Ok (str_diff s t, m).
Proof.
  induction s as [|x s IH]; intros [|y t] i [|fuel] Hs Ht Ha Hb Hf Hi; sstep; try lia;
    destruct Ha as [Ha1 Ha2], Hb as [Hb1 Hb2];
    rewrite (bind_Ok _ _ _ _ _ (get_Ok _ _ _ Ha1)), (bind_Ok _ _ _ _ _ (get_Ok _ _ _ Hb1)).
  - done.
  - apply Forall_cons in Ht as [H1 _]. rewrite (proj2 (Z.eqb_neq y 0)) by lia. cbn [andb Z.eqb].
    rewrite (proj2 (Z.eqb_neq (0 - y) 0)) by lia. cbn [negb].
    done.
  - apply Forall_cons in Hs as [H1 _]. rewrite (proj2 (Z.eqb_neq x 0)) by lia. cbn [andb].
    rewrite (proj2 (Z.eqb_neq (x - 0) 0)) by lia. cbn [negb]. unfold ret. do 2 f_equal. lia.
  - apply Forall_cons in Hs as [H1 H2]. apply Forall_cons in Ht as [H3 H4]. rewrite len_cons in Hi.
    rewrite (proj2 (Z.eqb_neq x 0)) by lia. cbn [andb].
    destruct (Z.eqb_spec x y) as [-> | Hne].
    + rewrite Z.sub_diag. change (0 =? 0) with true. cbn [negb]. pose proof (len_nonneg s).
      rewrite (bind_Ok _ _ _ _ _ (int_inc_Ok m i ltac:(lia))).
      apply IH; try done; [by rewrite Z.add_assoc | by rewrite Z.add_assoc | lia | lia].
    + by rewrite (proj2 (Z.eqb_neq (x - y) 0)) by lia.
Qed.

Lemma strcmp_Ok m a b s t :
  is_str m a s -> is_str m b t -> len s < INT_MAX -> strcmp a b m = Ok (str_diff s t, m).
Proof.
  intros Ha Hb Hl. pose proof (str_size _ _ _ Ha). destruct Ha as (Hp & Hs & Ha), Hb as (Hq & Ht & Hb).
  unfold strcmp. rewrite (proj2 (Z.eqb_neq _ _) Hp), (proj2 (Z.eqb_neq _ _) Hq). cbn [andb xorb].
  rewrite (bind_Ok _ _ _ _ _ (str_fuel_Ok m)).
  apply strcmp_loop_Ok; rewrite ?Z.add_0_r; try done; lia.
Qed.

Lemma str_diff_zero s t :
  Forall (fun c => 0 < c < 256) s -> Forall (fun c => 0 < c < 256) t -> str_diff s t = 0 <-> s = t.
Proof.
  revert t. induction s as [|x s IH]; intros [|y t] Hs Ht; cbn; try done.
  - apply Forall_cons in Ht as [H _]. split; [lia | done].
  - apply Forall_cons in Hs as [H _]. split; [lia | done].
  - apply Forall_cons in Hs as [_ Hs]. apply Forall_cons in Ht as [_ Ht].
    destruct (Z.eqb_spec x y) as [-> | Hne].
    + rewrite IH by done. split; [by intros -> | by intros [= ->]].
    + split; [lia | by intros [= -> _]].
Qed.

Lemma strchr_loop_Ok m c s : forall p fuel,
  Forall (fun c => 0 < c < 256) s -> bytes_at m p (s ++ [0]) -> (length s < fuel)%nat ->
  strchr_loop fuel p c m = Ok (first_at p c s, m).
Proof.
  induction s as [|x s IH]; intros p [|fuel] Hs Hb Hf; sstep; try lia; destruct Hb as [Hc Hb];
    rewrite (bind_Ok _ _ _ _ _ (get_Ok _ _ _ Hc)); [done |].
  apply Forall_cons in Hs as [H1 H2]. rewrite (proj2 (Z.eqb_neq x 0)) by lia.
  destruct (x =? c); [done |]. apply IH; [done | done | lia].
Qed.
Lemma strrchr_loop_Ok m c s : forall p last fuel,
  Forall (fun c => 0 < c < 256) s -> bytes_at m p (s ++ [0]) -> (length s < fuel)%nat ->
  strrchr_loop fuel p c last m = Ok (last_at p c last s, m).
Proof.
  induction s as [|x s IH]; intros p last [|fuel] Hs Hb Hf; sstep; try lia; destruct Hb as [Hc Hb];
    rewrite (bind_Ok _ _ _ _ _ (get_Ok _ _ _ Hc)); [done |].
  apply Forall_cons in Hs as [H1 H2]. rewrite (proj2 (Z.eqb_neq x 0)) by lia.
  apply IH; [done | done | lia].
Qed.

(** ** Copies *)

(** The bytes a bounded string copy takes: while [go] holds of the index. *)
Fixpoint taken (go : Z -> bool) (i : Z) (s : list Z) : list Z :=
  match s with [] => [] | c :: s => if go i then c :: taken go (i + 1) s else [] end.

Lemma taken_all s i : taken (fun _ => true) i s = s.
Proof. revert i. induction s as [|c s IH]; intros i; cbn; [done |]. by rewrite IH. Qed.
Lemma taken_lt k s i : taken (fun i => i <? k) i s = take (Z.to_nat (k - i)) s.
Proof.
  revert i. induction s as [|c s IH]; intros i; cbn; [by rewrite take_nil |].
  destruct (Z.ltb_spec i k).
  - replace (Z.to_nat (k - i)) with (S (Z.to_nat (k - (i + 1)))) by lia. cbn. by rewrite IH.
  - by replace (Z.to_nat (k - i)) with 0%nat by lia.
Qed.
Lemma taken_length go s i : (length (taken go i s) <= length s)%nat.
Proof. revert i. induction s as [|c s IH]; intros i; cbn; [lia |]. specialize (IH (i + 1)). destruct (go i); cbn; lia. Qed.
Lemma taken_bytes go s i : Forall (fun c => 0 < c < 256) s -> Forall (fun c => 0 < c < 256) (taken go i s).
Proof.
  intros H. revert i. induction H as [|c s Hc Hs IH]; intros i; cbn; [done |]. destruct (go i); [by constructor | done].
Qed.

(** Two ranges of memory do not meet. *)
Definition disjoint (p n q k : Z) : Prop := p + n <= q \/ q + k <= p.

Lemma copy_str_Ok go dest src s : forall m i fuel,
  Forall (fun c => 0 < c < 256) s -> bytes_at m (src + i) (s ++ [0]) ->
  room m (dest + i) (len (taken go i s)) ->
  disjoint (src + i) (len s + 1) (dest + i) (len (taken go i s)) ->
  (length s < fuel)%nat -> i + len s <= INT_MAX ->
  copy_str fuel go dest src i m =
    Ok (i + len (taken go i s), write m (dest + i) (taken go i s)).
Proof.
  induction s as [|c s IH]; intros m i [|fuel] Hs Hb Hr Hd Hf Hi; sstep; try lia; destruct Hb as [Hc Hb];
    rewrite (bind_Ok _ _ _ _ _ (get_Ok _ _ _ Hc)).
  - cbn. by rewrite Z.add_0_r.
  - apply Forall_cons in Hs as [H1 H2]. rewrite (proj2 (Z.eqb_neq c 0)) by lia. cbn [negb andb taken] in *.
    pose proof (len_nonneg s). rewrite len_cons in *.
    destruct (go i).
    + rewrite len_cons in *. pose proof (len_nonneg (taken go (i + 1) s)).
      rewrite (bind_Ok _ _ _ _ _ (put_Ok m (dest + i) c ltac:(rewrite <-(Z.add_0_r (dest + i)); apply Hr; lia) ltac:(lia))).
      rewrite (bind_Ok _ _ _ _ _ (int_inc_Ok _ i ltac:(lia))). cbn [write].
      rewrite IH; [do 2 f_equal; [lia | f_equal; lia] | done | | | | lia | lia].
      * apply (bytes_at_frame m); [by rewrite Z.add_assoc |]. rewrite len_app. change (len [0]) with 1.
        intros q Hq. rewrite lookup_insert_ne; [done |]. unfold disjoint in Hd. lia.
      * intros j Hj. destruct (Hr (1 + j)) as [x Hx]; [lia |].
        rewrite lookup_insert_ne by lia. exists x. rewrite <-Hx. f_equal. lia.
      * unfold disjoint in *. lia.
    + cbn. by rewrite Z.add_0_r.
Qed.

Lemma copy_size_Ok dst src l : forall m i fuel n,
  bytes_at m (src + i) l -> Forall (fun c => 0 <= c < 256) l -> room m (dst + i) (len l) ->
  (dst <= src \/ src + i + len l <= dst + i) -> (length l < fuel)%nat -> n = i + len l ->
  copy_size fuel dst src n i m = Ok (tt, write m (dst + i) l).
Proof.
  induction l as [|c l IH]; intros m i [|fuel] n Hb Hv Hr Hd Hf Hn; cbn [copy_size bytes_at length write] in *; try lia.
  - rewrite Hn. change (len []) with 0. by rewrite (proj2 (Z.ltb_ge _ _)) by lia.
  - destruct Hb as [Hc Hb]. apply Forall_cons in Hv as [H1 H2]. rewrite len_cons in *. pose proof (len_nonneg l).
    rewrite (proj2 (Z.ltb_lt _ _)) by lia.
    rewrite (bind_Ok _ _ _ _ _ (get_Ok _ _ _ Hc)).
    rewrite (bind_Ok _ _ _ _ _ (put_Ok m (dst + i) c ltac:(rewrite <-(Z.add_0_r (dst + i)); apply Hr; lia) ltac:(lia))).
    rewrite (IH _ (i + 1)); [do 3 f_equal; lia | | done | | lia | lia | lia].
    + apply (bytes_at_frame m); [by rewrite Z.add_assoc |].
      intros q Hq. rewrite lookup_insert_ne; [done |]. lia.
    + intros j Hj. destruct (Hr (1 + j)) as [x Hx]; [lia |].
      destruct (decide (dst + i = dst + (i + 1) + j)); [lia |].
      rewrite lookup_insert_ne by lia. exists x. rewrite <-Hx. f_equal. lia.
Qed.

Lemma copy_int_size fuel dst src n : forall m i,
  n <= INT_MAX -> 0 <= i -> copy_int fuel dst src n i m = copy_size fuel dst src n i m.
Proof.
  induction fuel as [|fuel IH]; intros m i Hn Hi; cbn [copy_int copy_size]; [done |].
  destruct (Z.ltb_spec i n); [| done]. unfold bind.
  destruct (get (src + i) m) as [[c m1]|]; [| done].
  destruct (put (dst + i) c m1) as [[[] m2]|]; [| done].
  rewrite int_inc_Ok by lia. apply IH; lia.
Qed.

Lemma memset_loop_Ok t c : forall k m i fuel n,
  0 <= c < 256 -> room m (t + i) (Z.of_nat k) -> (k < fuel)%nat -> n = i + Z.of_nat k -> n <= INT_MAX ->
  memset_loop fuel t c n i m = Ok (tt, write m (t + i) (replicate k c)).
Proof.
  induction k as [|k IH]; intros m i [|fuel] n Hc Hr Hf Hn Hm; cbn [memset_loop replicate write]; try lia.
  - by rewrite (proj2 (Z.ltb_ge _ _)) by lia.
  - rewrite (proj2 (Z.ltb_lt _ _)) by lia.
    rewrite (bind_Ok _ _ _ _ _ (put_Ok m (t + i) c ltac:(rewrite <-(Z.add_0_r (t + i)); apply Hr; lia) ltac:(lia))).
    rewrite (bind_Ok _ _ _ _ _ (int_inc_Ok _ i ltac:(lia))).
    rewrite (IH _ (i + 1)); [do 3 f_equal; lia | done | | lia | lia | lia].
    intros j Hj. destruct (Hr (1 + j)) as [x Hx]; [lia |].
    rewrite lookup_insert_ne by lia. exists x. rewrite <-Hx. f_equal. lia.
Qed.

(** Bytes [l] starting at [p] are in the byte range. *)
Definition byte_vals (l : list Z) : Prop := Forall (fun c => 0 <= c < 256) l.

Lemma memcpy_Ok m des src l :
  des <> NULL -> src <> NULL -> bytes_at m src l -> byte_vals l -> room m des (len l) ->
  (des <= src \/ src + len l <= des) ->
  memcpy des src (len l) m = Ok (des, write m des l).
Proof.
  intros Hd Hs Hb Hv Hr Ho. unfold memcpy.
  rewrite (proj2 (Z.eqb_neq _ _) Hd), (proj2 (Z.eqb_neq _ _) Hs). cbn [orb].
  destruct (Z.leb_spec (len l) 0).
  - destruct l; [done | rewrite len_cons in *; pose proof (len_nonneg l); lia].
  - assert (copy_size (S (Z.to_nat (len l))) des src (len l) 0 m = Ok (tt, write m (des + 0) l)) as E.
    { apply copy_size_Ok; rewrite ?Z.add_0_r; try done; unfold len; lia. }
    rewrite (bind_Ok _ _ _ _ _ E). by rewrite Z.add_0_r.
Qed.

Lemma memmove_memcpy str1 str2 n m : n <= INT_MAX -> memmove str1 str2 n m = memcpy str1 str2 n m.
Proof.
  intros Hn. unfold memmove, memcpy. destruct (_ || _); [done |].
  unfold bind. by rewrite copy_int_size by lia.
Qed.

Lemma memset_Ok m des c n :
  des <> NULL -> 0 <= c < 256 -> 0 <= n <= INT_MAX -> room m des n ->
  memset des c n m = Ok (des, write m des (replicate (Z.to_nat n) c)).
Proof.
  intros Hd Hc Hn Hr. unfold memset. rewrite (proj2 (Z.eqb_neq _ _) Hd). cbn [orb].
  destruct (Z.leb_spec n 0).
  - replace n with 0 by lia. done.
  - assert (memset_loop (S (Z.to_nat n)) des (u8 c) n 0 m = Ok (tt, write m (des + 0) (replicate (Z.to_nat n) c))) as E.
    { unfold u8. rewrite Z.mod_small by (change (2 ^ 8) with 256; lia).
      apply memset_loop_Ok; rewrite ?Z2Nat.id by lia; rewrite ?Z.add_0_r; try done; lia. }
    rewrite (bind_Ok _ _ _ _ _ E). by rewrite Z.add_0_r.
Qed.

(** The common core of the string copies: where they stop and what they write,
    the final zero included. *)
Lemma copy_str_zero m go dest src s k :
  is_str m src s -> len s <= INT_MAX -> k = len (taken go 0 s) ->
  room m dest (k + 1) -> disjoint src (len s + 1) dest (k + 1) ->
  (i ← (fuel ← str_fuel; copy_str fuel go dest src 0); put (dest + i) 0) m =
    Ok (tt, write m dest (taken go 0 s ++ [0])).
Proof.
  intros H Hl -> Hr Hd. pose proof (str_size _ _ _ H). destruct H as (Hp & Hs & Hb).
  pose proof (len_nonneg (taken go 0 s)).
  rewrite bind_bind, (bind_Ok _ _ _ _ _ (str_fuel_Ok m)).
  assert (copy_str (S (size m)) go dest src 0 m =
    Ok (0 + len (taken go 0 s), write m (dest + 0) (taken go 0 s))) as E.
  { apply copy_str_Ok; rewrite ?Z.add_0_r; try done; try lia.
    - intros j Hj. apply Hr. lia.
    - unfold disjoint in *. lia. }
  rewrite (bind_Ok _ _ _ _ _ E), Z.add_0_r, Z.add_0_l.
  rewrite put_Ok; [| apply write_dom, Hr; lia | lia]. by rewrite write_app.
Qed.

Lemma strcpy_Ok m dest src s :
  is_str m src s -> dest <> NULL -> len s <= INT_MAX ->
  room m dest (len s + 1) -> disjoint src (len s + 1) dest (len s + 1) ->
  strcpy dest src m = Ok (dest, write m dest (s ++ [0])).
Proof.
  intros H Hd Hl Hr Ho. unfold strcpy. destruct (H) as (Hp & _).
  rewrite (proj2 (Z.eqb_neq _ _) Hd), (proj2 (Z.eqb_neq _ _) Hp). cbn [orb].
  pose proof (copy_str_zero m (fun _ => true) dest src s (len s) H Hl) as E.
  rewrite taken_all in E. specialize (E eq_refl Hr Ho).
  rewrite bind_bind in E. unfold bind in *.
  destruct (str_fuel m) as [[f m1]|]; [| done].
  destruct (copy_str _ _ _ _ _ _) as [[i m2]|]; [| done]. by rewrite E.
Qed.

Lemma strncpy_Ok m dest src s n :
  is_str m src s -> dest <> NULL -> len s <= INT_MAX -> 0 < n ->
  let k := take (Z.to_nat n) s in
  room m dest (len k + 1) -> disjoint src (len s + 1) dest (len k + 1) ->
  strncpy dest src n m = Ok (dest, write m dest (k ++ [0])).
Proof.
  intros H Hd Hl Hn k Hr Ho. unfold strncpy. destruct (H) as (Hp & _).
  rewrite (proj2 (Z.eqb_neq _ _) Hd), (proj2 (Z.eqb_neq _ _) Hp), (proj2 (Z.leb_gt _ _) Hn). cbn [orb].
  pose proof (copy_str_zero m (fun i => i <? n) dest src s (len k) H Hl) as E.
  rewrite taken_lt, Z.sub_0_r in E. specialize (E eq_refl Hr Ho).
  rewrite bind_bind in E. unfold bind in *.
  destruct (str_fuel m) as [[f m1]|]; [| done].
  destruct (copy_str _ _ _ _ _ _) as [[i m2]|]; [| done]. by rewrite E.
Qed.

Lemma len_take k l : 0 <= k -> len (take (Z.to_nat k) l) = Z.min k (len l).
Proof. intros Hk. unfold len. rewrite length_take. lia. Qed.

(** The bounded copies: a loop stopped by [max_size] leaves room for the zero by
    giving up its last byte. *)
Lemma copy_str_safe m dest src s lim max_size :
  is_str m src s -> len s <= INT_MAX -> 0 < max_size -> 0 < lim <= max_size ->
  room m dest max_size -> disjoint src (len s + 1) dest max_size ->
  (fuel ← str_fuel;
   i ← copy_str fuel (fun i => i <? lim) dest src 0;
   (if max_size <=? i then put (dest + (i - 1)) 0 else put (dest + i) 0)) m =
    Ok (tt, write m dest (take (Z.to_nat (Z.min lim (max_size - 1))) s ++ [0])).
Proof.
  intros H Hl Hm Hlim Hr Hd. pose proof (str_size _ _ _ H). destruct H as (Hp & Hs & Hb).
  rewrite (bind_Ok _ _ _ _ _ (str_fuel_Ok m)).
  set (k := take (Z.to_nat lim) s). assert (len k = Z.min lim (len s)) as Hk by (apply len_take; lia).
  pose proof (len_nonneg s) as Hs0.
  assert (copy_str (S (size m)) (fun i => i <? lim) dest src 0 m =
    Ok (0 + len k, write m (dest + 0) k)) as E.
  { assert (k = taken (fun i => i <? lim) 0 s) as Hk' by (by rewrite taken_lt, Z.sub_0_r).
    rewrite Hk' in *.
    apply copy_str_Ok; rewrite ?Z.add_0_r; try done; try lia.
    - intros j Hj. apply Hr. lia.
    - unfold disjoint in *. lia. }
  rewrite (bind_Ok _ _ _ _ _ E), Z.add_0_r, Z.add_0_l.
  destruct (Z.leb_spec max_size (len k)).
  - assert (lim = max_size) as -> by lia.
    rewrite put_Ok; [| apply write_dom, Hr; lia | lia]. f_equal. f_equal.
    destruct (lookup_lt_is_Some_2 s (Z.to_nat (max_size - 1))) as [x Hx]; [unfold len in *; lia |].
    assert (k = take (Z.to_nat (max_size - 1)) s ++ [x]) as ->.
    { unfold k. replace (Z.to_nat max_size) with (S (Z.to_nat (max_size - 1))) by lia. by apply take_S_r. }
    rewrite Z.min_r by lia. rewrite !write_app. cbn [write].
    rewrite len_app. change (len [x]) with 1.
    replace (dest + (len (take (Z.to_nat (max_size - 1)) s) + 1 - 1)) with
      (dest + len (take (Z.to_nat (max_size - 1)) s)) by lia.
    by rewrite insert_insert_eq.
  - rewrite put_Ok; [| apply write_dom, Hr; lia | lia]. f_equal. f_equal.
    assert (take (Z.to_nat (Z.min lim (max_size - 1))) s = k) as ->; [| by rewrite write_app].
    unfold k. destruct (Z.le_gt_cases lim (max_size - 1)); [by rewrite Z.min_l by lia |].
    rewrite !take_ge; [done | unfold len in *; lia..].
Qed.

Lemma strcpy_safe_Ok m dest src s max_size :
  is_str m src s -> dest <> NULL -> len s <= INT_MAX -> 0 < max_size ->
  room m dest max_size -> disjoint src (len s + 1) dest max_size ->
  strcpy_safe dest src max_size m = Ok (dest, write m dest (take (Z.to_nat (max_size - 1)) s ++ [0])).
Proof.
  intros H Hd Hl Hm Hr Ho. unfold strcpy_safe. destruct (H) as (Hp & _).
  rewrite (proj2 (Z.eqb_neq _ _) Hd), (proj2 (Z.eqb_neq _ _) Hp), (proj2 (Z.leb_gt _ _) Hm). cbn [orb].
  pose proof (copy_str_safe m dest src s max_size max_size H Hl Hm ltac:(lia) Hr Ho) as E.
  rewrite Z.min_r in E by lia. unfold bind in *.
  destruct (str_fuel m) as [[f m1]|]; [| done].
  destruct (copy_str _ _ _ _ _ _) as [[i m2]|]; [| done]. by rewrite E.
Qed.

Lemma copy_str_ext go go' dest src fuel : forall m i,
  (forall i, go i = go' i) -> copy_str fuel go dest src i m = copy_str fuel go' dest src i m.
Proof.
  induction fuel as [|fuel IH]; intros m i Hg; cbn [copy_str]; [done |]. unfold bind.
  destruct (get (src + i) m) as [[c m1]|]; [| done]. rewrite Hg.
  destruct (_ && _); [| done]. destruct (put (dest + i) c m1) as [[[] m2]|]; [| done].
  destruct (int_inc i m2) as [[j m3]|]; [| done]. by apply IH.
Qed.

Lemma strncpy_safe_Ok m dest src s n max_size :
  is_str m src s -> dest <> NULL -> len s <= INT_MAX -> 0 < max_size -> 0 < n ->
  room m dest max_size -> disjoint src (len s + 1) dest max_size ->
  strncpy_safe dest src n max_size m =
    Ok (dest, write m dest (take (Z.to_nat (Z.min n (max_size - 1))) s ++ [0])).
Proof.
  intros H Hd Hl Hm Hn Hr Ho. unfold strncpy_safe. destruct (H) as (Hp & _).
  rewrite (proj2 (Z.eqb_neq _ _) Hd), (proj2 (Z.eqb_neq _ _) Hp), (proj2 (Z.leb_gt _ _) Hm),
    (proj2 (Z.leb_gt _ _) Hn). cbn [orb].
  pose proof (copy_str_safe m dest src s (Z.min n max_size) max_size H Hl Hm ltac:(lia) Hr Ho) as E.
  replace (Z.min (Z.min n max_size) (max_size - 1)) with (Z.min n (max_size - 1)) in E by lia.
  unfold bind in *. destruct (str_fuel m) as [[f m1]|]; [| done].
  rewrite (copy_str_ext _ (fun i => i <? Z.min n max_size)).
  2:{ intros i. destruct (Z.ltb_spec i n), (Z.ltb_spec i max_size), (Z.ltb_spec i (Z.min n max_size)); lia || done. }
  destruct (copy_str _ _ _ _ _ _) as [[i m2]|]; [| done]. by rewrite E.
Qed.

Lemma strcat_loop_Ok src s : forall m i p fuel,
  Forall (fun c => 0 < c < 256) s -> bytes_at m (src + i) (s ++ [0]) -> room m p (len s) ->
  disjoint (src + i) (len s + 1) p (len s) -> (length s < fuel)%nat -> i + len s <= INT_MAX ->
  strcat_loop fuel src i p m = Ok (p + len s, write m p s).
Proof.
  induction s as [|c s IH]; intros m i p [|fuel] Hs Hb Hr Hd Hf Hi; cbn [strcat_loop app bytes_at length] in *; try lia;
    destruct Hb as [Hc Hb]; rewrite (bind_Ok _ _ _ _ _ (get_Ok _ _ _ Hc)).
  - cbn. by rewrite Z.add_0_r.
  - apply Forall_cons in Hs as [H1 H2]. rewrite (proj2 (Z.eqb_neq c 0)) by lia.
    pose proof (len_nonneg s). rewrite len_cons in *.
    rewrite (bind_Ok _ _ _ _ _ (put_Ok m p c ltac:(rewrite <-(Z.add_0_r p); apply Hr; lia) ltac:(lia))).
    rewrite (bind_Ok _ _ _ _ _ (int_inc_Ok _ i ltac:(lia))). cbn [write].
    rewrite IH; [do 2 f_equal; lia | done | | | | lia | lia].
    * apply (bytes_at_frame m); [by rewrite Z.add_assoc |]. rewrite len_app. change (len [0]) with 1.
      intros q Hq. rewrite lookup_insert_ne; [done |]. unfold disjoint in Hd. lia.
    * intros j Hj. destruct (Hr (1 + j)) as [x Hx]; [lia |].
      rewrite lookup_insert_ne by lia. exists x. rewrite <-Hx. f_equal. lia.
    * unfold disjoint in *. lia.
Qed.

Lemma strcat_Ok m dest src d s :
  is_str m dest d -> is_str m src s -> len s <= INT_MAX ->
  room m (dest + len d) (len s + 1) -> disjoint src (len s + 1) (dest + len d) (len s + 1) ->
  strcat dest src m = Ok (dest, write m (dest + len d) (s ++ [0])).
Proof.
  intros Hd Hs Hl Hr Ho. pose proof (str_size _ _ _ Hd). pose proof (str_size _ _ _ Hs).
  destruct Hd as (Hp & Hdv & Hdb), Hs as (Hq & Hsv & Hsb). unfold strcat.
  rewrite (proj2 (Z.eqb_neq _ _) Hp), (proj2 (Z.eqb_neq _ _) Hq). cbn [orb].
  rewrite (bind_Ok _ _ _ _ _ (str_fuel_Ok m)).
  assert (strlen_loop (S (size m)) dest 0 m = Ok (0 + len d, m)) as E1.
  { apply strlen_loop_Ok; [done | by rewrite Z.add_0_r | lia]. }
  rewrite (bind_Ok _ _ _ _ _ E1), Z.add_0_l. pose proof (len_nonneg s).
  assert (strcat_loop (S (size m)) src 0 (dest + len d) m =
    Ok (dest + len d + len s, write m (dest + len d) s)) as E2.
  { apply strcat_loop_Ok; rewrite ?Z.add_0_r; try done; try lia.
    - intros j Hj. apply Hr. lia.
    - unfold disjoint in *. lia. }
  rewrite (bind_Ok _ _ _ _ _ E2).
  rewrite (bind_Ok _ _ _ _ _ (put_Ok (write m (dest + len d) s) (dest + len d + len s) 0
    ltac:(apply write_dom, Hr; lia) ltac:(lia))).
  by rewrite write_app.
Qed.

(** ** Comparisons of memory *)

Lemma memcmp_loop_Ok m a b k : forall l i fuel n,
  length k = length l -> bytes_at m (a + i) k -> bytes_at m (b + i) l -> (length k < fuel)%nat ->
  n = i + len k -> n <= INT_MAX -> 0 <= i ->
  exists r, memcmp_loop fuel a b n i m = Ok (r, m) /\ (r = 0 <-> k = l).
Proof.
  induction k as [|x k IH]; intros [|y l] i [|fuel] n Hlen Ha Hb Hf Hn Hm Hi;
    cbn [memcmp_loop bytes_at length] in *; try lia.
  - change (len []) with 0 in Hn. rewrite (proj2 (Z.ltb_ge _ _)) by lia. by exists 0.
  - destruct Ha as [Ha1 Ha2], Hb as [Hb1 Hb2]. rewrite len_cons in Hn. pose proof (len_nonneg k).
    rewrite (proj2 (Z.ltb_lt _ _)) by lia.
    rewrite (bind_Ok _ _ _ _ _ (get_Ok _ _ _ Ha1)), (bind_Ok _ _ _ _ _ (get_Ok _ _ _ Hb1)).
    destruct (Z.eqb_spec (x - y) 0) as [He | He]; cbn [negb].
    + rewrite (bind_Ok _ _ _ _ _ (int_inc_Ok m i ltac:(lia))).
      destruct (IH l (i + 1) fuel n) as (r & Hr & Hrl); try lia; [by rewrite Z.add_assoc.. |].
      exists r. split; [done |]. rewrite Hrl. split; [intros ->; f_equal; lia | by intros [= _ ->]].
    + exists (x - y). split; [done |]. split; [lia |]. intros [= -> _]. lia.
Qed.

(** ** Claims *)

(** On NUL-terminated strings of the supported length the queries
    terminate, leave memory unchanged and return: the length; the length capped
    by [maxlen]; the difference of the first bytes that differ, which is zero
    exactly for equal strings; the first and the last address of a byte, or
    NULL. *)
Lemma string_queries (m : bytes) (a b : Z) (s t : list Z) (n c : Z)
    (Ha : is_str m a s) (Hb : is_str m b t) (Hl : len s < INT_MAX) (Hn : 0 <= n) :
  strlen a m = Ok (len s, m) /\
  strnlen a n m = Ok (Z.min n (len s), m) /\
  strcmp a b m = Ok (str_diff s t, m) /\ (str_diff s t = 0 <-> s = t) /\
  strchr a c m = Ok (first_at a c s, m) /\
  strrchr a c m = Ok (last_at a c NULL s, m).
Proof.
  pose proof (str_size _ _ _ Ha). destruct (Ha) as (Hp & Hs & Hbs). destruct (Hb) as (_ & Ht & _).
  split; [by apply strlen_Ok |]. split.
  { unfold strnlen. rewrite (proj2 (Z.eqb_neq _ _) Hp), (bind_Ok _ _ _ _ _ (str_fuel_Ok m)).
    rewrite (strnlen_loop_Ok m a n s 0); [done | done | by rewrite Z.add_0_r | lia | lia]. }
  split; [by apply strcmp_Ok |]. split; [by apply str_diff_zero |].
  unfold strchr, strrchr. rewrite !(proj2 (Z.eqb_neq _ _) Hp), !(bind_Ok _ _ _ _ _ (str_fuel_Ok m)).
  split; [apply strchr_loop_Ok | apply strrchr_loop_Ok]; done || lia.
Qed.

(** "abca" at 16 and "abd" at 32. *)
Definition demo_bytes : bytes :=
  write (write (write ∅ 16 [97; 98; 99; 97; 0]) 32 [97; 98; 100; 0]) 64 (replicate 8 255).
Lemma demo_a : is_str demo_bytes 16 [97; 98; 99; 97].
Proof. split; [done |]. split; [repeat constructor; lia | repeat split; by vm_compute]. Qed.
Lemma demo_b : is_str demo_bytes 32 [97; 98; 100].
Proof. split; [done |]. split; [repeat constructor; lia | repeat split; by vm_compute]. Qed.

Lemma string_queries_witness :
  strlen 16 demo_bytes = Ok (4, demo_bytes) /\ strcmp 16 32 demo_bytes = Ok (-1, demo_bytes) /\
  strrchr 16 97 demo_bytes = Ok (19, demo_bytes).
Proof.
  destruct (string_queries demo_bytes 16 32 [97; 98; 99; 97] [97; 98; 100] 2 97 demo_a demo_b
    ltac:(done) ltac:(lia)) as (H1 & _ & H3 & _ & _ & H6).
  split; [exact H1 |]. split; [exact H3 | exact H6].
Defined.

(** [strcpy_safe] and [strncpy_safe] into a buffer of [max_size] bytes
    terminate, write only inside that buffer and leave in it the longest prefix
    of the source that fits with its terminating zero. *)
Lemma safe_copies_bounded (m : bytes) (dest src : Z) (s : list Z) (n max_size : Z)
    (Hs : is_str m src s) (Hd : dest <> NULL) (Hl : len s <= INT_MAX) (Hm : 0 < max_size) (Hn : 0 < n)
    (Hr : room m dest max_size) (Ho : disjoint src (len s + 1) dest max_size) :
  (let out := take (Z.to_nat (max_size - 1)) s in
   exists m', strcpy_safe dest src max_size m = Ok (dest, m') /\ is_str m' dest out /\
     forall q, q < dest \/ dest + max_size <= q -> m' !! q = m !! q) /\
  (let out := take (Z.to_nat (Z.min n (max_size - 1))) s in
   exists m', strncpy_safe dest src n max_size m = Ok (dest, m') /\ is_str m' dest out /\
     forall q, q < dest \/ dest + max_size <= q -> m' !! q = m !! q).
Proof.
  destruct (Hs) as (_ & Hv & _).
  assert (forall k, 0 <= k <= max_size - 1 -> let out := take (Z.to_nat k) s in
    is_str (write m dest (out ++ [0])) dest out /\
    forall q, q < dest \/ dest + max_size <= q -> write m dest (out ++ [0]) !! q = m !! q) as Hout.
  { intros k Hk out. split; [split; [done |]; split; [by apply Forall_take | apply write_at] |].
    intros q Hq. apply write_out. unfold out. rewrite len_app, len_take by lia.
    change (len [0]) with 1. lia. }
  split; intros out; [destruct (Hout (max_size - 1)) as [H1 H2]; [lia |]
    | destruct (Hout (Z.min n (max_size - 1))) as [H1 H2]; [lia |]];
    eexists; (split; [| split; [exact H1 | exact H2]]).
  - by apply strcpy_safe_Ok.
  - by apply strncpy_safe_Ok.
Qed.

Lemma safe_copies_bounded_witness :
  exists m', strcpy_safe 64 16 3 demo_bytes = Ok (64, m') /\ is_str m' 64 [97; 98].
Proof.
  destruct (safe_copies_bounded demo_bytes 64 16 [97; 98; 99; 97] 1 3 demo_a ltac:(done) ltac:(done)
    ltac:(lia) ltac:(lia)) as [(m' & E & P & _) _].
  - intros i Hi. assert (i = 0 \/ i = 1 \/ i = 2) as [-> | [-> | ->]] by lia; by eexists.
  - left. by vm_compute.
  - by exists m'.
Defined.

(** A copy of a string, and a string after it. *)
Lemma string_written m dest s l : is_str m dest s \/ dest <> NULL -> Forall (fun c => 0 < c < 256) l ->
  is_str (write m dest (l ++ [0])) dest l.
Proof. intros H Hl. split; [destruct H as [[H _] | H]; exact H |]. split; [done | apply write_at]. Qed.
Lemma str_frame m m' p s : is_str m p s -> (forall q, p <= q < p + (len s + 1) -> m' !! q = m !! q) -> is_str m' p s.
Proof.
  intros (Hp & Hs & Hb) Hf. split; [done |]. split; [done |]. apply (bytes_at_frame m); [done |]. rewrite len_app. done.
Qed.

Lemma string_joined m dest p q s t : dest <> NULL -> is_str m p s -> is_str m q t -> len s + len t < INT_MAX ->
  room m dest (len s + len t + 1) -> disjoint p (len s + 1) dest (len s + len t + 1) ->
  disjoint q (len t + 1) dest (len s + len t + 1) ->
  exists m1 m2, strcpy dest p m = Ok (dest, m1) /\ strcmp dest p m1 = Ok (0, m1) /\
    strcat dest q m1 = Ok (dest, m2) /\ is_str m2 dest (s ++ t) /\ strlen dest m2 = Ok (len s + len t, m2) /\
    forall a, a < dest \/ dest + (len s + len t + 1) <= a -> m2 !! a = m !! a.
Proof.
  intros Hd Hs Ht Hl Hr Hp Hq. pose proof (len_nonneg s). pose proof (len_nonneg t). unfold disjoint in *.
  pose proof Hs as (_ & Hsv & _). pose proof Ht as (_ & Htv & _).
  set (m1 := write m dest (s ++ [0])). set (m2 := write m1 (dest + len s) (t ++ [0])).
  assert (forall a, a < dest \/ dest + (len s + 1) <= a -> m1 !! a = m !! a) as F1.
  { intros a Ha. apply write_out. rewrite len_app. change (len [0]) with 1. lia. }
  assert (is_str m1 dest s) as H1 by (apply (string_written m dest s); [by right | done]).
  assert (is_str m1 p s) as Hs1 by (apply (str_frame m); [done | intros a Ha; apply F1; lia]).
  assert (is_str m1 q t) as Ht1 by (apply (str_frame m); [done | intros a Ha; apply F1; lia]).
  assert (is_str m2 dest (s ++ t)) as H2.
  { assert (m2 = write m dest ((s ++ t) ++ [0])) as ->; [| apply (string_written m dest s); [by right | by apply Forall_app]].
    unfold m2, m1. rewrite <-app_assoc, !(write_app m dest s). destruct t as [|c t]; cbn [app write]; by rewrite insert_insert_eq. }
  exists m1, m2. split; [apply strcpy_Ok; try done; [lia | intros i Hi; apply Hr; lia | unfold disjoint; lia] |].
  split; [rewrite (strcmp_Ok m1 dest p s s) by (done || lia); by rewrite (proj2 (str_diff_zero s s Hsv Hsv) eq_refl) |].
  split; [apply strcat_Ok; try done; [lia | | unfold disjoint; lia] |].
  { intros i Hi. apply write_dom. rewrite <-Z.add_assoc. apply Hr. lia. }
  split; [done |]. split; [rewrite (strlen_Ok _ _ _ H2), len_app; done |].
  intros a Ha. rewrite <-F1 by lia. apply write_out. rewrite len_app. change (len [0]) with 1. lia.
Qed.

(** C40: [memcpy], and [memmove] when the destination does not start inside the
    source, copy the bytes and change nothing else; [memcmp] of the copy with
    data equal to the source is 0, with other data it is not.  [strcpy] makes a
    string that [strcmp] finds equal to its source, [strcat] after it the
    concatenation, as [strlen] then reads it, and they write nowhere but in the
    bytes of the result; the strings lie apart from the destination, and lengths
    are [int]s. *)
Theorem copies_round_trip (m : bytes) :
  (forall des src other l k, des <> NULL -> src <> NULL -> other <> NULL ->
     bytes_at m src l -> bytes_at m other k -> byte_vals l -> length k = length l ->
     0 < len l <= INT_MAX -> room m des (len l) ->
     des <= src \/ src + len l <= des -> disjoint other (len l) des (len l) ->
     exists m', memcpy des src (len l) m = Ok (des, m') /\ memmove des src (len l) m = Ok (des, m') /\
       bytes_at m' des l /\ (forall q, q < des \/ des + len l <= q -> m' !! q = m !! q) /\
       exists r, memcmp des other (len l) m' = Ok (r, m') /\ (r = 0 <-> l = k)) /\
  (forall dest p q s t, dest <> NULL -> is_str m p s -> is_str m q t -> len s + len t < INT_MAX ->
     room m dest (len s + len t + 1) -> disjoint p (len s + 1) dest (len s + len t + 1) ->
     disjoint q (len t + 1) dest (len s + len t + 1) ->
     exists m1 m2, strcpy dest p m = Ok (dest, m1) /\ strcmp dest p m1 = Ok (0, m1) /\
       strcat dest q m1 = Ok (dest, m2) /\ is_str m2 dest (s ++ t) /\ strlen dest m2 = Ok (len s + len t, m2) /\
       forall a, a < dest \/ dest + (len s + len t + 1) <= a -> m2 !! a = m !! a).
Proof.
  split; [| intros; by apply string_joined]. intros des src other l k Hd Hs Hot Hb Hk Hv Hlen Hmax Hr Ho Hx.
  exists (write m des l). split; [by apply memcpy_Ok |]. split; [rewrite memmove_memcpy by lia; by apply memcpy_Ok |].
  split; [apply write_at |]. split; [intros q Hq; by apply write_out |].
  unfold memcmp. rewrite (proj2 (Z.eqb_neq _ _) Hd), (proj2 (Z.eqb_neq _ _) Hot), (proj2 (Z.leb_gt _ _)) by lia.
  cbn [andb orb xorb]. unfold disjoint in Hx. unfold len in *.
  apply memcmp_loop_Ok; rewrite ?Z.add_0_r; try done; try (unfold len; lia).
  - apply write_at.
  - apply (bytes_at_frame m); [done |]. intros q Hq. apply write_out. unfold len in *. lia.
Qed.

Lemma demo_room n : 0 <= n <= 8 -> room demo_bytes 64 n.
Proof.
  intros Hn i Hi. apply (room_of_bytes demo_bytes 64 (replicate 8 255)); [by repeat split; vm_compute | change (len (replicate 8 255)) with 8; lia].
Qed.
Lemma copies_round_trip_witness :
  (exists m', memmove 64 16 3 demo_bytes = Ok (64, m') /\ exists r, memcmp 64 32 3 m' = Ok (r, m') /\ r <> 0) /\
  exists m1 m2, strcpy 64 16 demo_bytes = Ok (64, m1) /\ strcat 64 32 m1 = Ok (64, m2) /\
    is_str m2 64 [97; 98; 99; 97; 97; 98; 100] /\ strlen 64 m2 = Ok (7, m2).
Proof.
  destruct (copies_round_trip demo_bytes) as [H1 H2]. split.
  - destruct (H1 64 16 32 [97; 98; 99] [97; 98; 100]) as
      (m' & _ & E & _ & _ & r & Er & Hr); try done; try (by repeat split; vm_compute).
    + repeat constructor; lia.
    + apply demo_room. change (len [97; 98; 99]) with 3. lia.
    + right. by vm_compute.
    + left. by vm_compute.
    + exists m'. split; [exact E |]. exists r. split; [exact Er |]. intros H0. apply Hr in H0. done.
  - destruct (H2 64 16 32 [97; 98; 99; 97] [97; 98; 100] ltac:(done) demo_a demo_b) as (m1 & m2 & E1 & _ & E2 & S & L & _);
      [done | by apply demo_room; vm_compute | by left; vm_compute | by left; vm_compute |].
    by exists m1, m2.
Defined.

(** ** Where the library differs from its C namesakes *)

(** [memmove] copies forwards: moved one byte up, every byte of the region
    becomes the first one. *)
Lemma memmove_overlap_smears p l a : forall m i fuel,
  0 <= a < 256 -> m !! (p + i) = Some a -> room m (p + 1 + i) (len l) -> (length l < fuel)%nat ->
  copy_size fuel (p + 1) p (i + len l) i m = Ok (tt, write m (p + 1 + i) (map (fun _ => a) l)).
Proof.
  induction l as [|c l IH]; intros m i [|fuel] Ha Hp Hr Hf; cbn [copy_size length map write] in *; try lia.
  - change (len []) with 0. by rewrite (proj2 (Z.ltb_ge _ _)) by lia.
  - rewrite len_cons in *. pose proof (len_nonneg l). rewrite (proj2 (Z.ltb_lt _ _)) by lia.
    rewrite (bind_Ok _ _ _ _ _ (get_Ok _ _ _ Hp)).
    rewrite (bind_Ok _ _ _ _ _ (put_Ok m (p + 1 + i) a
      ltac:(rewrite <-(Z.add_0_r (p + 1 + i)); apply Hr; lia) Ha)).
    replace (i + (len l + 1)) with (i + 1 + len l) by lia.
    rewrite IH; [do 3 f_equal; lia | done | | | lia].
    + replace (p + (i + 1)) with (p + 1 + i) by lia. by rewrite lookup_insert_eq.
    + intros j Hj. destruct (Hr (1 + j)) as [x Hx]; [lia |].
      rewrite lookup_insert_ne by lia. exists x. rewrite <-Hx. f_equal. lia.
Qed.

Lemma memmove_not_move : exists m', memmove 17 16 3 demo_bytes = Ok (17, m') /\
  bytes_at demo_bytes 16 [97; 98; 99] /\ bytes_at m' 17 [97; 97; 97].
Proof. eexists. split; [vm_compute; reflexivity |]. repeat split; by vm_compute. Qed.

(** [strncpy] writes a byte past the [n] it is given. *)
Lemma strncpy_writes_past_n : exists m', strncpy 64 16 3 demo_bytes = Ok (64, m') /\
  demo_bytes !! 67 = Some 255 /\ m' !! 67 = Some 0.
Proof. eexists. split; [vm_compute; reflexivity |]. by split; vm_compute. Qed.

(** The hashes stop at offset [2i]: "abcd" and "abxy" collide. *)
Lemma SDBMHash_ignores_tail :
  let m1 := write ∅ 16 [97; 98; 99; 100; 0] in
  let m2 := write ∅ 16 [97; 98; 120; 121; 0] in
  exists h, SDBMHash 16 4 m1 = Ok (h, m1) /\ SDBMHash 16 4 m2 = Ok (h, m2).
Proof. eexists. split; vm_compute; reflexivity. Qed.
