(* ===== verification/ByteOrder.v ===== *)
(** * Byte order

    [include/aco/byteorder.h].  RISC-V is little-endian, so the little-endian
    conversions are casts and the big-endian ones swap bytes. *)
From S2P Require Import Prelude.

(** [src/include/aco/byteorder.h:14-16 ___constant_swab16] *)
Definition swab16 (x : Z) : Z :=
  u16 (Z.lor (Z.shiftl (Z.land (u16 x) 0x00ff) 8)
             (Z.shiftr (Z.land (u16 x) 0xff00) 8)).

(** [src/include/aco/byteorder.h:18-22 ___constant_swab32] *)
Definition swab32 (x : Z) : Z :=
  u32 (Z.lor (Z.lor (Z.lor
    (Z.shiftl (Z.land (u32 x) 0x000000ff) 24)
    (Z.shiftl (Z.land (u32 x) 0x0000ff00) 8))
    (Z.shiftr (Z.land (u32 x) 0x00ff0000) 8))
    (Z.shiftr (Z.land (u32 x) 0xff000000) 24)).

(** [src/include/aco/byteorder.h:24-32 ___constant_swab64] *)
Definition swab64 (x : Z) : Z :=
  u64 (Z.lor (Z.lor (Z.lor (Z.lor (Z.lor (Z.lor (Z.lor
    (Z.shiftl (Z.land (u64 x) 0x00000000000000ff) 56)
    (Z.shiftl (Z.land (u64 x) 0x000000000000ff00) 40))
    (Z.shiftl (Z.land (u64 x) 0x0000000000ff0000) 24))
    (Z.shiftl (Z.land (u64 x) 0x00000000ff000000) 8))
    (Z.shiftr (Z.land (u64 x) 0x000000ff00000000) 8))
    (Z.shiftr (Z.land (u64 x) 0x0000ff0000000000) 24))
    (Z.shiftr (Z.land (u64 x) 0x00ff000000000000) 40))
    (Z.shiftr (Z.land (u64 x) 0xff00000000000000) 56)).

(** [src/include/aco/byteorder.h:34-36 ___constant_swahw32] *)
Definition swahw32 (x : Z) : Z :=
  u32 (Z.lor (Z.shiftl (Z.land (u32 x) 0x0000ffff) 16)
             (Z.shiftr (Z.land (u32 x) 0xffff0000) 16)).

(** [src/include/aco/byteorder.h:38-40 ___constant_swahb32] *)
Definition swahb32 (x : Z) : Z :=
  u32 (Z.lor (Z.shiftl (Z.land (u32 x) 0x00ff00ff) 8)
             (Z.shiftr (Z.land (u32 x) 0xff00ff00) 8)).

(** [src/include/aco/byteorder.h:62-62 __cpu_to_le64] *)
Definition cpu_to_le64 (x : Z) : Z := u64 x.
(** [src/include/aco/byteorder.h:63-63 __le64_to_cpu] *)
Definition le64_to_cpu (x : Z) : Z := u64 x.
(** [src/include/aco/byteorder.h:64-64 __cpu_to_le32] *)
Definition cpu_to_le32 (x : Z) : Z := u32 x.
(** [src/include/aco/byteorder.h:65-65 __le32_to_cpu] *)
Definition le32_to_cpu (x : Z) : Z := u32 x.
(** [src/include/aco/byteorder.h:66-66 __cpu_to_le16] *)
Definition cpu_to_le16 (x : Z) : Z := u16 x.
(** [src/include/aco/byteorder.h:67-67 __le16_to_cpu] *)
Definition le16_to_cpu (x : Z) : Z := u16 x.
(** [src/include/aco/byteorder.h:68-68 __cpu_to_be64] *)
Definition cpu_to_be64 (x : Z) : Z := swab64 x.
(** [src/include/aco/byteorder.h:69-69 __be64_to_cpu] *)
Definition be64_to_cpu (x : Z) : Z := swab64 x.
(** [src/include/aco/byteorder.h:70-70 __cpu_to_be32] *)
Definition cpu_to_be32 (x : Z) : Z := swab32 x.
(** [src/include/aco/byteorder.h:71-71 __be32_to_cpu] *)
Definition be32_to_cpu (x : Z) : Z := swab32 x.
(** [src/include/aco/byteorder.h:72-72 __cpu_to_be16] *)
Definition cpu_to_be16 (x : Z) : Z := swab16 x.
(** [src/include/aco/byteorder.h:73-73 __be16_to_cpu] *)
Definition be16_to_cpu (x : Z) : Z := swab16 x.

(** ** Bytes *)

(** The [n] low bytes of a word, lowest first, as they lie in memory. *)
Fixpoint le_bytes (n : nat) (x : Z) : list Z :=
  match n with O => [] | S n => Z.land x 255 :: le_bytes n (Z.shiftr x 8) end.
(** The word with these bytes, lowest first. *)
Fixpoint le_word (l : list Z) : Z :=
  match l with [] => 0 | b :: l => b + 256 * le_word l end.

Lemma le_word_bytes n x : le_word (le_bytes n x) = x mod 2 ^ (8 * Z.of_nat n).
Proof.
  revert x. induction n as [|n IH]; intros x; cbn [le_bytes le_word].
  - by rewrite Z.mod_1_r.
  - rewrite IH. change 255 with (Z.ones 8). rewrite Z.land_ones, Z.shiftr_div_pow2 by lia.
    replace (8 * Z.of_nat (S n)) with (8 + 8 * Z.of_nat n) by lia.
    rewrite Z.pow_add_r by lia. change (2 ^ 8) with 256.
    rewrite Z.rem_mul_r by lia. lia.
Qed.

Lemma le_bytes_inj n x y :
  0 <= x < 2 ^ (8 * Z.of_nat n) -> 0 <= y < 2 ^ (8 * Z.of_nat n) ->
  le_bytes n x = le_bytes n y -> x = y.
Proof.
  intros Hx Hy H. apply (f_equal le_word) in H. rewrite !le_word_bytes in H.
  by rewrite !Z.mod_small in H.
Qed.

Lemma byte_eq x y : (forall i, 0 <= i < 8 -> Z.testbit x i = Z.testbit y i) -> Z.land x 255 = Z.land y 255.
Proof.
  intros H. apply Z.bits_inj'. intros i Hi. rewrite !Z.land_spec.
  destruct (Z.lt_ge_cases i 8); [by rewrite H |].
  change 255 with (Z.ones 8). by rewrite !Z.ones_spec_high, !andb_false_r by lia.
Qed.

Lemma range8 i : 0 <= i < 8 ->
  i = 0 \/ i = 1 \/ i = 2 \/ i = 3 \/ i = 4 \/ i = 5 \/ i = 6 \/ i = 7.
Proof. lia. Qed.

(** [swap_byte] proves that a byte of a swapped word is the mirrored byte of the
    word, bit by bit. *)
Ltac mask_bits :=
  repeat match goal with |- context [Z.testbit (Zpos ?p) ?c] =>
    let v := eval vm_compute in (Z.testbit (Zpos p) c) in
    change (Z.testbit (Zpos p) c) with v end;
  rewrite ?andb_false_r, ?andb_true_r, ?orb_false_r, ?orb_false_l.
Ltac swap_byte :=
  apply byte_eq; let i := fresh "i" in let Hi := fresh "Hi" in intros i Hi;
  unfold swab16, swab32, swab64, swahw32, swahb32, u16, u32, u64;
  repeat rewrite Z.shiftr_spec by lia;
  destruct (range8 i Hi) as [-> | [-> | [-> | [-> | [-> | [-> | [-> | ->]]]]]]];
  rewrite Z.mod_pow2_bits_low by lia;
  repeat rewrite Z.lor_spec; repeat rewrite Z.shiftl_spec by lia; repeat rewrite Z.shiftr_spec by lia;
  repeat rewrite Z.land_spec; mask_bits;
  rewrite Z.mod_pow2_bits_low by lia; f_equal; lia.

Lemma swab16_bytes x : le_bytes 2 (swab16 x) = rev (le_bytes 2 x).
Proof. cbn [le_bytes rev app]. repeat (apply f_equal2; [swap_byte |]). done. Qed.
Lemma swab32_bytes x : le_bytes 4 (swab32 x) = rev (le_bytes 4 x).
Proof. cbn [le_bytes rev app]. repeat (apply f_equal2; [swap_byte |]). done. Qed.
Lemma swab64_bytes x : le_bytes 8 (swab64 x) = rev (le_bytes 8 x).
Proof. cbn [le_bytes rev app]. repeat (apply f_equal2; [swap_byte |]). done. Qed.

Lemma le_bytes_mod n x : le_bytes n (x mod 2 ^ (8 * Z.of_nat n)) = le_bytes n x.
Proof.
  assert (forall n l, (length l = n)%nat -> Forall (fun b => 0 <= b < 256) l -> le_bytes n (le_word l) = l) as H.
  { clear. induction n as [|n IH]; intros [|b l] Hl Hv; try done. cbn [le_bytes le_word].
    apply Forall_cons in Hv as [Hb Hv]. change 255 with (Z.ones 8).
    rewrite Z.land_ones, Z.shiftr_div_pow2 by lia. change (2 ^ 8) with 256.
    rewrite (Z.mul_comm 256), Z.mod_add, Z.div_add, Z.mod_small, Z.div_small by lia.
    f_equal. apply IH; [by injection Hl | done]. }
  rewrite <-le_word_bytes. apply H.
  - clear. revert x. induction n; intros x; cbn; auto.
  - clear. revert x. induction n as [|n IH]; intros x; cbn; constructor; auto.
    change 255 with (Z.ones 8). rewrite Z.land_ones by lia. by apply Z.mod_pos_bound.
Qed.

(** A swap that reverses bytes is its own inverse. *)
Lemma swab_involutive n (swab : Z -> Z) x :
  (forall x, le_bytes n (swab x) = rev (le_bytes n x)) ->
  (forall x, 0 <= swab x < 2 ^ (8 * Z.of_nat n)) ->
  swab (swab x) = x mod 2 ^ (8 * Z.of_nat n).
Proof.
  intros Hb Hr. apply (le_bytes_inj n); [done | by apply Z.mod_pos_bound, Z.pow_pos_nonneg; lia |].
  by rewrite !Hb, rev_involutive, le_bytes_mod.
Qed.

(** The big-endian conversions of RISC-V reverse the bytes of their 16, 32
    or 64-bit argument, and converting to big or little endian and back is the
    identity on values of that width. *)
Lemma byteorder_round_trip (x : Z) :
  (le_bytes 2 (cpu_to_be16 x) = rev (le_bytes 2 x) /\ be16_to_cpu (cpu_to_be16 x) = u16 x /\
   le16_to_cpu (cpu_to_le16 x) = u16 x) /\
  (le_bytes 4 (cpu_to_be32 x) = rev (le_bytes 4 x) /\ be32_to_cpu (cpu_to_be32 x) = u32 x /\
   le32_to_cpu (cpu_to_le32 x) = u32 x) /\
  (le_bytes 8 (cpu_to_be64 x) = rev (le_bytes 8 x) /\ be64_to_cpu (cpu_to_be64 x) = u64 x /\
   le64_to_cpu (cpu_to_le64 x) = u64 x).
Proof.
  unfold cpu_to_be16, be16_to_cpu, cpu_to_be32, be32_to_cpu, cpu_to_be64, be64_to_cpu,
    cpu_to_le16, le16_to_cpu, cpu_to_le32, le32_to_cpu, cpu_to_le64, le64_to_cpu.
  split; [| split]; (split; [| split]).
  - apply swab16_bytes.
  - apply (swab_involutive 2); [apply swab16_bytes | intros; apply Z.mod_pos_bound; lia].
  - apply Z.mod_mod. lia.
  - apply swab32_bytes.
  - apply (swab_involutive 4); [apply swab32_bytes | intros; apply Z.mod_pos_bound; lia].
  - apply Z.mod_mod. lia.
  - apply swab64_bytes.
  - apply (swab_involutive 8); [apply swab64_bytes | intros; apply Z.mod_pos_bound; lia].
  - apply Z.mod_mod. lia.
Qed.
