(* ===== verification/Double.v ===== *)
(** * Double-precision numbers

    The type [double] of C: IEEE 754 binary64 with rounding to nearest, each
    operation rounded on its own (the compiler does not contract expressions),
    by the executable specification of the Standard Library.  A conversion to
    an integer type that cannot hold the value is undefined and faults. *)
From Stdlib Require Import Floats.SpecFloat.
From S2P Require Import Prelude.

Definition double : Type := spec_float.

Definition dadd : double -> double -> double := SFadd 53 1024.
Definition dsub : double -> double -> double := SFsub 53 1024.
Definition dmul : double -> double -> double := SFmul 53 1024.
Definition ddiv : double -> double -> double := SFdiv 53 1024.
Definition dneg : double -> double := SFopp.
(** [a < b], [a <= b] and [a == b], false on a NaN. *)
Definition dlt : double -> double -> bool := SFltb.
Definition dle : double -> double -> bool := SFleb.
Definition deq : double -> double -> bool := SFeqb.

(** An integer as a [double]. *)
Definition of_int (z : Z) : double := binary_normalize 53 1024 z 0 false.
(** A decimal constant: [n / d], both below [2 ^ 53] or exact, so the quotient is
    the nearest double. *)
Definition dec (n d : Z) : double := ddiv (of_int n) (of_int d).
Definition DBL_MAX : double := S754_finite false (2 ^ 53 - 1) 971.

(** The integer part, towards zero. *)
Definition trunc (x : double) : option Z :=
  match x with
  | S754_zero _ => Some 0
  | S754_finite s m e =>
    let a := if 0 <=? e then Z.pos m * 2 ^ e else Z.pos m / 2 ^ (- e) in
    Some (if s then - a else a)
  | _ => None
  end.
(** [(T)x] for an integer type [T] with the values from [lo] to [hi]. *)
Definition to_integer {S} (lo hi : Z) (x : double) : M S Z :=
  match trunc x with
  | Some z => if (lo <=? z) && (z <=? hi) then ret z else fail Overflow
  | None => fail Overflow
  end.
Definition to_int {S} : double -> M S Z := to_integer (- 2 ^ 31) (2 ^ 31 - 1).
Definition to_ulong {S} : double -> M S Z := to_integer 0 (2 ^ 64 - 1).

(** The representation, as a union with [uint64_t] shows it. *)
Definition sign_bit (s : bool) : Z := if s then 2 ^ 63 else 0.
Definition bits_of (x : double) : Z :=
  match x with
  | S754_zero s => sign_bit s
  | S754_infinity s => sign_bit s + Z.shiftl 2047 52
  | S754_nan => Z.shiftl 4095 51
  | S754_finite s m e =>
    sign_bit s + (if Z.pos m <? 2 ^ 52 then Z.pos m else Z.shiftl (e + 1075) 52 + (Z.pos m - 2 ^ 52))
  end.
Definition of_bits (u : Z) : double :=
  let s := Z.testbit u 63 in
  let e := Z.land (Z.shiftr u 52) 2047 in
  let f := Z.land u (2 ^ 52 - 1) in
  if e =? 2047 then (if f =? 0 then S754_infinity s else S754_nan)
  else if e =? 0 then match f with Z.pos m => S754_finite s m (- 1074) | _ => S754_zero s end
  else match f + 2 ^ 52 with Z.pos m => S754_finite s m (e - 1075) | _ => S754_nan end.

Example bits_of_1 : bits_of (of_int 1) = 0x3FF0000000000000 /\ of_bits 0x3FF0000000000000 = of_int 1.
Proof. by vm_compute. Qed.

