(* ===== verification/Printf.v ===== *)
(** * Formatted output: the code

    [lib/string/vsnprintf.c], [include/aco/vsnprintf.h] and the copy to the
    console of [kernel/printf.c], on the byte memory of [CString].

    The digit buffer [buf[PRINTF_NTOA_BUFFER_SIZE]] is the list of its first
    [len] elements; appending to a full buffer faults.  Variable arguments are a
    list; taking one that is not there, or of the wrong kind, faults.  Numbers of
    type [double] are those of [Double]. *)
From S2P Require Import Prelude CString Double.

(** [src/lib/string/vsnprintf.c:51-51 PRINTF_NTOA_BUFFER_SIZE] *)
Definition PRINTF_NTOA_BUFFER_SIZE : Z := 32.
(** [src/lib/string/vsnprintf.c:101-101 FLAGS_ZEROPAD] *)
Definition FLAGS_ZEROPAD : Z := 2 ^ 0.
(** [src/lib/string/vsnprintf.c:102-102 FLAGS_LEFT] *)
Definition FLAGS_LEFT : Z := 2 ^ 1.
(** [src/lib/string/vsnprintf.c:103-103 FLAGS_PLUS] *)
Definition FLAGS_PLUS : Z := 2 ^ 2.
(** [src/lib/string/vsnprintf.c:104-104 FLAGS_SPACE] *)
Definition FLAGS_SPACE : Z := 2 ^ 3.
(** [src/lib/string/vsnprintf.c:105-105 FLAGS_HASH] *)
Definition FLAGS_HASH : Z := 2 ^ 4.
(** [src/lib/string/vsnprintf.c:106-106 FLAGS_UPPERCASE] *)
Definition FLAGS_UPPERCASE : Z := 2 ^ 5.
(** [src/lib/string/vsnprintf.c:107-107 FLAGS_CHAR] *)
Definition FLAGS_CHAR : Z := 2 ^ 6.
(** [src/lib/string/vsnprintf.c:108-108 FLAGS_SHORT] *)
Definition FLAGS_SHORT : Z := 2 ^ 7.
(** [src/lib/string/vsnprintf.c:109-109 FLAGS_LONG] *)
Definition FLAGS_LONG : Z := 2 ^ 8.
(** [src/lib/string/vsnprintf.c:110-110 FLAGS_LONG_LONG] *)
Definition FLAGS_LONG_LONG : Z := 2 ^ 9.
(** [src/lib/string/vsnprintf.c:111-111 FLAGS_PRECISION] *)
Definition FLAGS_PRECISION : Z := 2 ^ 10.
(** [src/lib/string/vsnprintf.c:112-112 FLAGS_ADAPT_EXP] *)
Definition FLAGS_ADAPT_EXP : Z := 2 ^ 11.

(** [flags & f] as a condition. *)
Definition has (flags f : Z) : bool := negb (Z.land flags f =? 0).
(** [flags &= ~f] *)
Definition clear (flags f : Z) : Z := Z.ldiff flags f.

(** Characters. *)
Definition C_space : Z := 32.
Definition C_hash : Z := 35.
Definition C_percent : Z := 37.
Definition C_star : Z := 42.
Definition C_plus : Z := 43.
Definition C_minus : Z := 45.
Definition C_dot : Z := 46.
Definition C_0 : Z := 48.
Definition C_9 : Z := 57.
Definition C_A : Z := 65.
Definition C_X : Z := 88.
Definition C_a : Z := 97.
Definition C_b : Z := 98.
Definition C_x : Z := 120.

(** ** Output *)

(** [src/lib/string/vsnprintf.c:122-122 out_fct_type] The output functions that
    the file passes around. *)
Inductive out_fct_type := Out_buffer | Out_null.

(** [src/lib/string/vsnprintf.c:133-138 _out_buffer] *)
Definition _out_buffer (character buffer idx maxlen : Z) : M bytes unit :=
  when (idx <? maxlen) (put (buffer + idx) character).
(** [src/lib/string/vsnprintf.c:142-145 _out_null] *)
Definition _out_null (character buffer idx maxlen : Z) : M bytes unit := ret tt.

Definition out (o : out_fct_type) : Z -> Z -> Z -> Z -> M bytes unit :=
  match o with Out_buffer => _out_buffer | Out_null => _out_null end.

(** [src/lib/string/vsnprintf.c:164-164 _strnlen_s (loop)] The final [s]. *)
Fixpoint strnlen_s_loop (fuel : nat) (s maxsize : Z) : M bytes Z :=
  match fuel with
  | O => fail NoFuel
  | S fuel =>
    c ← get s;
    if negb (c =? 0) && negb (maxsize =? 0) then strnlen_s_loop fuel (s + 1) (maxsize - 1)
    else ret s
  end.
(** [src/lib/string/vsnprintf.c:161-166 _strnlen_s] *)
Definition _strnlen_s (str maxsize : Z) : M bytes Z :=
  fuel ← str_fuel; s ← strnlen_s_loop fuel str maxsize; ret (u32 (s - str)).

(** [src/lib/string/vsnprintf.c:171-174 _is_digit] *)
Definition _is_digit (ch : Z) : bool := (C_0 <=? ch) && (ch <=? C_9).

(** [src/lib/string/vsnprintf.c:181-183 _atoi (loop)] *)
Fixpoint atoi_loop (fuel : nat) (str i : Z) : M bytes (Z * Z) :=
  match fuel with
  | O => fail NoFuel
  | S fuel =>
    c ← get str;
    if _is_digit c then atoi_loop fuel (str + 1) (u32 (u32 (i * 10) + u32 (c - C_0)))
    else ret (i, str)
  end.
(** [src/lib/string/vsnprintf.c:178-185 _atoi] The number and the new [*str]. *)
Definition _atoi (str : Z) : M bytes (Z * Z) := fuel ← str_fuel; atoi_loop fuel str 0.

(** [n] spaces from [idx]: the padding loops. *)
Fixpoint out_spaces (o : out_fct_type) (buffer : Z) (n : nat) (idx maxlen : Z) : M bytes Z :=
  match n with
  | O => ret idx
  | S n => out o C_space buffer idx maxlen;; out_spaces o buffer n (idx + 1) maxlen
  end.
(** The bytes of a list from [idx]. *)
Fixpoint out_list (o : out_fct_type) (buffer : Z) (l : list Z) (idx maxlen : Z) : M bytes Z :=
  match l with
  | [] => ret idx
  | c :: l => out o c buffer idx maxlen;; out_list o buffer l (idx + 1) maxlen
  end.

(** [src/lib/string/vsnprintf.c:189-213 _out_rev] [while(len) out(buf[--len])]
    outputs [buf] backwards. *)
Definition _out_rev (o : out_fct_type) (buffer idx maxlen : Z) (buf : list Z) (width flags : Z) :
    M bytes Z :=
  let start_idx := idx in
  let len := Z.of_nat (length buf) in
  idx ← (if negb (has flags FLAGS_LEFT) && negb (has flags FLAGS_ZEROPAD)
         then out_spaces o buffer (Z.to_nat (width - len)) idx maxlen else ret idx);
  idx ← out_list o buffer (rev buf) idx maxlen;
  if has flags FLAGS_LEFT
  then out_spaces o buffer (Z.to_nat (width - (idx - start_idx))) idx maxlen
  else ret idx.

(** ** Integers *)

(** [buf[len++] = c] *)
Definition push (buf : list Z) (c : Z) : M bytes (list Z) :=
  if Z.of_nat (length buf) <? PRINTF_NTOA_BUFFER_SIZE then ret (buf ++ [c]) else fail BadPointer.
(** [buf[len++] = c] guarded by the size. *)
Definition push_if_room (buf : list Z) (c : Z) : list Z :=
  if Z.of_nat (length buf) <? PRINTF_NTOA_BUFFER_SIZE then buf ++ [c] else buf.

(** [while ((len < bound) && (len < PRINTF_NTOA_BUFFER_SIZE)) buf[len++] = '0'] *)
Fixpoint pad_zeros (fuel : nat) (bound : Z) (buf : list Z) : list Z :=
  match fuel with
  | O => buf
  | S fuel =>
    let len := Z.of_nat (length buf) in
    if (len <? bound) && (len <? PRINTF_NTOA_BUFFER_SIZE) then pad_zeros fuel bound (buf ++ [C_0])
    else buf
  end.

(** [src/lib/string/vsnprintf.c:217-267 _ntoa_format] *)
Definition _ntoa_format (o : out_fct_type) (buffer idx maxlen : Z) (buf : list Z) (negative : bool)
    (base prec width flags : Z) : M bytes Z :=
  let width1 :=
    if negb (has flags FLAGS_LEFT) && (negb (width =? 0) && has flags FLAGS_ZEROPAD &&
         (negative || has flags (Z.lor FLAGS_PLUS FLAGS_SPACE)))
    then width - 1 else width in
  let buf :=
    if negb (has flags FLAGS_LEFT) then
      let buf := pad_zeros 32 prec buf in
      if has flags FLAGS_ZEROPAD then pad_zeros 32 width1 buf else buf
    else buf in
  let width := width1 in
  buf ← (
    if has flags FLAGS_HASH then
      let len := Z.of_nat (length buf) in
      let buf :=
        if negb (has flags FLAGS_PRECISION) && negb (len =? 0) && ((len =? prec) || (len =? width)) then
          let buf := removelast buf in
          if negb (Z.of_nat (length buf) =? 0) && (base =? 16) then removelast buf else buf
        else buf in
      let room := Z.of_nat (length buf) <? PRINTF_NTOA_BUFFER_SIZE in
      buf ← (if (base =? 16) && negb (has flags FLAGS_UPPERCASE) && room then push buf C_x
             else if (base =? 16) && has flags FLAGS_UPPERCASE && room then push buf C_X
             else if (base =? 2) && room then push buf C_b
             else ret buf);
      ret (push_if_room buf C_0)
    else ret buf);
  buf ← (
    if Z.of_nat (length buf) <? PRINTF_NTOA_BUFFER_SIZE then
      if negative then push buf C_minus
      else if has flags FLAGS_PLUS then push buf C_plus
      else if has flags FLAGS_SPACE then push buf C_space
      else ret buf
    else ret buf);
  _out_rev o buffer idx maxlen buf width flags.

(** [src/lib/string/vsnprintf.c:284-285 _ntoa_long (digit)] *)
Definition digit_char (digit flags : Z) : Z :=
  if digit <? 10 then C_0 + digit else (if has flags FLAGS_UPPERCASE then C_A else C_a) + digit - 10.

(** [src/lib/string/vsnprintf.c:283-287 _ntoa_long (digits)] *)
Fixpoint ntoa_digits (fuel : nat) (value base flags : Z) (buf : list Z) : M bytes (list Z) :=
  match fuel with
  | O => fail NoFuel
  | S fuel =>
    buf ← push buf (digit_char (u8 (value mod base)) flags);
    let value := value / base in
    if negb (value =? 0) && (Z.of_nat (length buf) <? PRINTF_NTOA_BUFFER_SIZE)
    then ntoa_digits fuel value base flags buf
    else ret buf
  end.

(** [src/lib/string/vsnprintf.c:271-291 _ntoa_long] *)
Definition _ntoa_long (o : out_fct_type) (buffer idx maxlen value : Z) (negative : bool)
    (base prec width flags : Z) : M bytes Z :=
  let flags := if value =? 0 then clear flags FLAGS_HASH else flags in
  buf ← (if negb (has flags FLAGS_PRECISION) || negb (value =? 0)
         then ntoa_digits 32 value base flags [] else ret []);
  _ntoa_format o buffer idx maxlen buf negative base prec width flags.

(** [src/lib/string/vsnprintf.c:296-316 _ntoa_long_long] [unsigned long] and
    [unsigned long long] have the same width here. *)
Definition _ntoa_long_long (o : out_fct_type) (buffer idx maxlen value : Z) (negative : bool)
    (base prec width flags : Z) : M bytes Z :=
  let flags := if value =? 0 then clear flags FLAGS_HASH else flags in
  buf ← (if negb (has flags FLAGS_PRECISION) || negb (value =? 0)
         then ntoa_digits 32 value base flags [] else ret []);
  _ntoa_format o buffer idx maxlen buf negative base prec width flags.

(** ** Floating-point numbers *)

(** [src/lib/string/vsnprintf.c:58-58 PRINTF_FTOA_BUFFER_SIZE] The same size, so
    [push_if_room] and [pad_zeros] serve both buffers. *)
Definition PRINTF_FTOA_BUFFER_SIZE : Z := PRINTF_NTOA_BUFFER_SIZE.
(** [src/lib/string/vsnprintf.c:76-76 PRINTF_DEFAULT_FLOAT_PRECISION] *)
Definition PRINTF_DEFAULT_FLOAT_PRECISION : Z := 6.
(** [src/lib/string/vsnprintf.c:82-82 PRINTF_MAX_FLOAT] *)
Definition PRINTF_MAX_FLOAT : double := of_int (10 ^ 9).

(** [src/lib/string/vsnprintf.c:336-336 _ftoa (pow10)] A read past the table
    faults. *)
Definition pow10_table : list double := (fun e => of_int (10 ^ e)) <$> seqZ 0 10.
Definition pow10 (prec : Z) : M bytes double :=
  match pow10_table !! Z.to_nat prec with Some x => ret x | None => fail BadPointer end.

(** [src/lib/string/vsnprintf.c:367-371 _ftoa (limit the precision)] The buffer
    and the precision; 32 rounds fill the buffer. *)
Fixpoint limit_prec (fuel : nat) (prec : Z) (buf : list Z) : list Z * Z :=
  match fuel with
  | O => (buf, prec)
  | S fuel =>
    if (Z.of_nat (length buf) <? PRINTF_FTOA_BUFFER_SIZE) && (9 <? prec)
    then limit_prec fuel (prec - 1) (buf ++ [C_0]) else (buf, prec)
  end.

(** [src/lib/string/vsnprintf.c:373-391 _ftoa (rounding)] The whole part and the
    fraction of [value] as an integer of [prec] digits. *)
Definition ftoa_parts (value : double) (prec : Z) : M bytes (Z * Z) :=
  whole ← to_int value;
  scale ← pow10 prec;
  let tmp := dmul (dsub value (of_int whole)) scale in
  frac ← to_ulong tmp;
  let diff := dsub tmp (of_int frac) in
  if dlt (dec 1 2) diff then
    let frac := u64 (frac + 1) in
    if dle scale (of_int frac) then
      (if whole =? 2 ^ 31 - 1 then fail Overflow else ret (whole + 1, 0))
    else ret (whole, frac)
  else if dlt diff (dec 1 2) then ret (whole, frac)
  else if (frac =? 0) || Z.odd frac then ret (whole, u64 (frac + 1))
  else ret (whole, frac).

(** [src/lib/string/vsnprintf.c:404-410 _ftoa (fraction)] The buffer and
    [count]. *)
Fixpoint frac_digits (fuel : nat) (count frac : Z) (buf : list Z) : list Z * Z :=
  match fuel with
  | O => (buf, count)
  | S fuel =>
    if Z.of_nat (length buf) <? PRINTF_FTOA_BUFFER_SIZE then
      let count := u32 (count - 1) in
      let buf := buf ++ [C_0 + frac mod 10] in
      let frac := frac / 10 in
      if frac =? 0 then (buf, count) else frac_digits fuel count frac buf
    else (buf, count)
  end.
(** [src/lib/string/vsnprintf.c:412-414 _ftoa (extra zeros)] *)
Fixpoint extra_zeros (fuel : nat) (count : Z) (buf : list Z) : list Z :=
  match fuel with
  | O => buf
  | S fuel =>
    if (Z.of_nat (length buf) <? PRINTF_FTOA_BUFFER_SIZE) && (0 <? count)
    then extra_zeros fuel (count - 1) (buf ++ [C_0]) else buf
  end.
(** [src/lib/string/vsnprintf.c:422-427 _ftoa (whole part)] *)
Fixpoint whole_digits (fuel : nat) (whole : Z) (buf : list Z) : list Z :=
  match fuel with
  | O => buf
  | S fuel =>
    if Z.of_nat (length buf) <? PRINTF_FTOA_BUFFER_SIZE then
      let buf := buf ++ [C_0 + whole mod 10] in
      let whole := whole / 10 in
      if whole =? 0 then buf else whole_digits fuel whole buf
    else buf
  end.

(** [src/lib/string/vsnprintf.c:393-449 _ftoa (characters)] The characters of
    the number, last one first, and the width that is left. *)
Definition ftoa_chars (value : double) (negative : bool) (prec whole frac width flags : Z) (buf : list Z) : M bytes (list Z * Z) :=
  '(whole, buf) ← (
    if prec =? 0 then
      let diff := dsub value (of_int whole) in
      if (negb (dlt diff (dec 1 2)) || dlt (dec 1 2) diff) && Z.odd whole then
        (if whole =? 2 ^ 31 - 1 then fail Overflow else ret (whole + 1, buf))
      else ret (whole, buf)
    else
      let '(buf, count) := frac_digits 32 prec frac buf in
      ret (whole, push_if_room (extra_zeros 32 count buf) C_dot));
  let buf := whole_digits 32 whole buf in
  let zeros := negb (has flags FLAGS_LEFT) && has flags FLAGS_ZEROPAD in
  let width :=
    if zeros && negb (width =? 0) && (negative || has flags (Z.lor FLAGS_PLUS FLAGS_SPACE)) then width - 1 else width in
  let buf := if zeros then pad_zeros 32 width buf else buf in
  let buf :=
    if negative then push_if_room buf C_minus
    else if has flags FLAGS_PLUS then push_if_room buf C_plus
    else if has flags FLAGS_SPACE then push_if_room buf C_space
    else buf in
  ret (buf, width).

(** [src/lib/string/vsnprintf.c:354-449 _ftoa (finite)] *)
Definition ftoa_plan (value : double) (prec width flags : Z) : M bytes (list Z * Z) :=
  let negative := dlt value (of_int 0) in
  let value := if negative then dsub (of_int 0) value else value in
  let prec := if has flags FLAGS_PRECISION then prec else PRINTF_DEFAULT_FLOAT_PRECISION in
  let '(buf, prec) := limit_prec 32 prec [] in
  '(whole, frac) ← ftoa_parts value prec;
  ftoa_chars value negative prec whole frac width flags buf.

Definition S_nan : list Z := [110; 97; 110].
Definition S_fni_minus : list Z := [102; 110; 105; 45].
Definition S_fni_plus : list Z := [102; 110; 105; 43].
Definition S_fni : list Z := [102; 110; 105].

(** [src/lib/string/vsnprintf.c:329-452 _ftoa] The two call each
    other: [_etoa] is an argument here, and [double_text] ties the knot. *)
Definition ftoa_with (etoa : out_fct_type -> Z -> Z -> Z -> double -> Z -> Z -> Z -> M bytes Z)
    (o : out_fct_type) (buffer idx maxlen : Z) (value : double) (prec width flags : Z) : M bytes Z :=
  if negb (deq value value) then _out_rev o buffer idx maxlen S_nan width flags
  else if dlt value (dneg DBL_MAX) then _out_rev o buffer idx maxlen S_fni_minus width flags
  else if dlt DBL_MAX value then
    _out_rev o buffer idx maxlen (if has flags FLAGS_PLUS then S_fni_plus else S_fni) width flags
  else if dlt PRINTF_MAX_FLOAT value || dlt value (dneg PRINTF_MAX_FLOAT) then
    etoa o buffer idx maxlen value prec width flags
  else
    '(buf, width) ← ftoa_plan value prec width flags;
    _out_rev o buffer idx maxlen buf width flags.

(** [src/lib/string/vsnprintf.c:482-498 _etoa (exponent)] The decimal exponent of
    a positive number and the power of ten to divide by. *)
Definition etoa_exponent (value : double) : M bytes (Z * double) :=
  let u := bits_of value in
  let exp2 := Z.land (Z.shiftr u 52) 0x07FF - 1023 in
  let F := of_bits (Z.lor (Z.land u (2 ^ 52 - 1)) (Z.shiftl 1023 52)) in
  expval ← to_int (dadd (dadd (dec 1760912590558 (10 ^ 13)) (dmul (of_int exp2) (dec 301029995663981 (10 ^ 15))))
                        (dmul (dsub F (dec 3 2)) (dec 289529654602168 (10 ^ 15))));
  exp2 ← to_int (dadd (dmul (of_int expval) (dec 3321928094887362 (10 ^ 15))) (dec 1 2));
  let z := dsub (dmul (of_int expval) (dec 2302585092994046 (10 ^ 15))) (dmul (of_int exp2) (dec 6931471805599453 (10 ^ 16))) in
  let z2 := dmul z z in
  let F := of_bits (u64 (Z.shiftl (u64 (exp2 + 1023)) 52)) in
  let F := dmul F (dadd (of_int 1) (ddiv (dmul (of_int 2) z)
    (dadd (dsub (of_int 2) z) (ddiv z2 (dadd (of_int 6) (ddiv z2 (dadd (of_int 10) (ddiv z2 (of_int 14))))))))) in
  ret (if dlt value F then (expval - 1, ddiv F (of_int 10)) else (expval, F)).

(** [src/lib/string/vsnprintf.c:502-524 _etoa (%g)] Precision, flags, [minwidth]
    and exponent. *)
Definition etoa_adapt (value : double) (prec flags minwidth expval : Z) : M bytes (Z * Z * Z * Z) :=
  if has flags FLAGS_ADAPT_EXP then
    if dle (dec 1 10000) value && dlt value (of_int (10 ^ 6)) then
      prec ← (if expval <? s32 prec then
                (if 2 ^ 31 <=? s32 prec - expval then fail Overflow else ret (u32 (s32 prec - expval - 1)))
              else ret 0);
      ret (prec, Z.lor flags FLAGS_PRECISION, 0, 0)
    else ret (if (0 <? prec) && has flags FLAGS_PRECISION then prec - 1 else prec, flags, minwidth, expval)
  else ret (prec, flags, minwidth, expval).

(** [src/lib/string/vsnprintf.c:464-543 _etoa (number)] What is printed: the
    number before the exponent with its precision, width and flags, [minwidth]
    and the exponent. *)
Definition etoa_plan (value : double) (prec width flags : Z) : M bytes (double * Z * Z * Z * Z * Z) :=
  let negative := dlt value (of_int 0) in
  let value := if negative then dneg value else value in
  let prec := if has flags FLAGS_PRECISION then prec else PRINTF_DEFAULT_FLOAT_PRECISION in
  '(expval, F) ← etoa_exponent value;
  let minwidth := if (expval <? 100) && (- 100 <? expval) then 4 else 5 in
  '(prec, flags, minwidth, expval) ← etoa_adapt value prec flags minwidth expval;
  let fwidth := if minwidth <? width then width - minwidth else 0 in
  let fwidth := if has flags FLAGS_LEFT && negb (minwidth =? 0) then 0 else fwidth in
  let value := if expval =? 0 then value else ddiv value F in
  ret (if negative then dneg value else value, prec, fwidth, flags, minwidth, expval).

Definition C_e : Z := 101.
Definition C_E : Z := 69.

(** [src/lib/string/vsnprintf.c:545-560 _etoa (output)] [_ftoa] is an
    argument. *)
Definition etoa_out (ftoa : out_fct_type -> Z -> Z -> Z -> double -> Z -> Z -> Z -> M bytes Z)
    (o : out_fct_type) (buffer idx maxlen : Z) (width : Z) (plan : double * Z * Z * Z * Z * Z) : M bytes Z :=
  let '(value, prec, fwidth, flags, minwidth, expval) := plan in
  let start_idx := idx in
  idx ← ftoa o buffer idx maxlen value prec fwidth (clear flags FLAGS_ADAPT_EXP);
  if minwidth =? 0 then ret idx
  else
    out o (if has flags FLAGS_UPPERCASE then C_E else C_e) buffer idx maxlen;;
    idx ← _ntoa_long o buffer (idx + 1) maxlen (if expval <? 0 then - expval else expval) (expval <? 0) 10 0 (minwidth - 1)
      (Z.lor FLAGS_ZEROPAD FLAGS_PLUS);
    if has flags FLAGS_LEFT then out_spaces o buffer (Z.to_nat (width - (idx - start_idx))) idx maxlen else ret idx.

(** [src/lib/string/vsnprintf.c:457-561 _etoa] *)
Definition etoa_with (ftoa : out_fct_type -> Z -> Z -> Z -> double -> Z -> Z -> Z -> M bytes Z)
    (o : out_fct_type) (buffer idx maxlen : Z) (value : double) (prec width flags : Z) : M bytes Z :=
  if negb (deq value value) || dlt DBL_MAX value || dlt value (dneg DBL_MAX) then
    ftoa o buffer idx maxlen value prec width flags
  else
    plan ← etoa_plan value prec width flags;
    etoa_out ftoa o buffer idx maxlen width plan.

(** The calls of the two by each other: [_ftoa] passes a number beyond
    [PRINTF_MAX_FLOAT] to [_etoa], which hands it back divided by its power of
    ten. *)
Fixpoint double_text (fuel : nat) (exponential : bool) : out_fct_type -> Z -> Z -> Z -> double -> Z -> Z -> Z -> M bytes Z :=
  match fuel with
  | O => fun _ _ _ _ _ _ _ _ => fail NoFuel
  | S fuel => if exponential then etoa_with (double_text fuel false) else ftoa_with (double_text fuel true)
  end.
Definition _ftoa := double_text 3 false.
Definition _etoa := double_text 3 true.

(** ** The format interpreter *)

(** A variable argument, as the caller passes it. *)
Inductive va := VInt (z : Z) | VDouble (d : double).

(** [va_arg(va, T)] for an integer or pointer type [T], before the conversion
    to [T]. *)
Definition va_word (args : list va) : M bytes (Z * list va) :=
  match args with VInt z :: args => ret (z, args) | _ => fail BadPointer end.
Definition va_double (args : list va) : M bytes (double * list va) :=
  match args with VDouble d :: args => ret (d, args) | _ => fail BadPointer end.

(** [src/lib/string/vsnprintf.c:593-602 _vsnprintf (flags)] *)
Fixpoint eval_flags (fuel : nat) (format flags : Z) : M bytes (Z * Z) :=
  match fuel with
  | O => fail NoFuel
  | S fuel =>
    c ← get format;
    if c =? C_0 then eval_flags fuel (format + 1) (Z.lor flags FLAGS_ZEROPAD)
    else if c =? C_minus then eval_flags fuel (format + 1) (Z.lor flags FLAGS_LEFT)
    else if c =? C_plus then eval_flags fuel (format + 1) (Z.lor flags FLAGS_PLUS)
    else if c =? C_space then eval_flags fuel (format + 1) (Z.lor flags FLAGS_SPACE)
    else if c =? C_hash then eval_flags fuel (format + 1) (Z.lor flags FLAGS_HASH)
    else ret (format, flags)
  end.

(** [src/lib/string/vsnprintf.c:604-619 _vsnprintf (width)] The new format
    pointer, flags, width and arguments. *)
Definition eval_width (format flags : Z) (args : list va) : M bytes (Z * Z * Z * list va) :=
  c ← get format;
  if _is_digit c then
    '(width, format) ← _atoi format;
    ret (format, flags, width, args)
  else if c =? C_star then
    '(a, args) ← va_word args;
    let w := s32 a in
    if w <? 0 then
      (if w =? - 2 ^ 31 then fail Overflow
       else ret (format + 1, Z.lor flags FLAGS_LEFT, u32 (- w), args))
    else ret (format + 1, flags, u32 w, args)
  else ret (format, flags, 0, args).

(** [src/lib/string/vsnprintf.c:621-634 _vsnprintf (precision)] *)
Definition eval_precision (format flags : Z) (args : list va) : M bytes (Z * Z * Z * list va) :=
  c ← get format;
  if c =? C_dot then
    let flags := Z.lor flags FLAGS_PRECISION in
    let format := format + 1 in
    c ← get format;
    if _is_digit c then
      '(precision, format) ← _atoi format;
      ret (format, flags, precision, args)
    else if c =? C_star then
      '(a, args) ← va_word args;
      let prec := s32 a in
      ret (format + 1, flags, if 0 <? prec then u32 prec else 0, args)
    else ret (format, flags, 0, args)
  else ret (format, flags, 0, args).

(** [src/lib/string/vsnprintf.c:636-670 _vsnprintf (length)] [ptrdiff_t],
    [intmax_t] and [size_t] have the size of [long]. *)
Definition eval_length (format flags : Z) : M bytes (Z * Z) :=
  c ← get format;
  if c =? 108 then
    d ← get (format + 1);
    if d =? 108 then ret (format + 2, Z.lor (Z.lor flags FLAGS_LONG) FLAGS_LONG_LONG)
    else ret (format + 1, Z.lor flags FLAGS_LONG)
  else if c =? 104 then
    d ← get (format + 1);
    if d =? 104 then ret (format + 2, Z.lor (Z.lor flags FLAGS_SHORT) FLAGS_CHAR)
    else ret (format + 1, Z.lor flags FLAGS_SHORT)
  else if c =? 116 then ret (format + 1, Z.lor flags FLAGS_LONG)
  else if c =? 106 then ret (format + 1, Z.lor flags FLAGS_LONG)
  else if c =? 122 then ret (format + 1, Z.lor flags FLAGS_LONG)
  else ret (format, flags).

(** [(unsigned T)(value > 0 ? value : 0 - value)] for a signed [T] with least
    value [lo], whose negation overflows. *)
Definition magnitude (lo value : Z) : M bytes Z :=
  if 0 <? value then ret value
  else if value =? lo then fail Overflow
  else ret (0 - value).

(** [src/lib/string/vsnprintf.c:674-746 _vsnprintf (integers)] *)
Definition spec_integer (o : out_fct_type) (buffer idx maxlen c flags width precision : Z)
    (args : list va) : M bytes (Z * list va) :=
  let base := if (c =? C_x) || (c =? C_X) then 16 else if c =? 111 then 8
              else if c =? C_b then 2 else 10 in
  let flags := if (c =? C_x) || (c =? C_X) || (c =? 111) || (c =? C_b) then flags
               else clear flags FLAGS_HASH in
  let flags := if c =? C_X then Z.lor flags FLAGS_UPPERCASE else flags in
  let signed := (c =? 105) || (c =? 100) in
  let flags := if signed then flags else clear flags (Z.lor FLAGS_PLUS FLAGS_SPACE) in
  let flags := if has flags FLAGS_PRECISION then clear flags FLAGS_ZEROPAD else flags in
  '(a, args) ← va_word args;
  if signed then
    if has flags FLAGS_LONG_LONG then
      let value := s64 a in
      m ← magnitude (- 2 ^ 63) value;
      idx ← _ntoa_long_long o buffer idx maxlen (u64 m) (value <? 0) base precision width flags;
      ret (idx, args)
    else if has flags FLAGS_LONG then
      let value := s64 a in
      m ← magnitude (- 2 ^ 63) value;
      idx ← _ntoa_long o buffer idx maxlen (u64 m) (value <? 0) base precision width flags;
      ret (idx, args)
    else
      let value := if has flags FLAGS_CHAR then u8 (s32 a)
                   else if has flags FLAGS_SHORT then (s32 a + 2 ^ 15) mod 2 ^ 16 - 2 ^ 15
                   else s32 a in
      m ← magnitude (- 2 ^ 31) value;
      idx ← _ntoa_long o buffer idx maxlen (u32 m) (value <? 0) base precision width flags;
      ret (idx, args)
  else
    if has flags FLAGS_LONG_LONG then
      idx ← _ntoa_long_long o buffer idx maxlen (u64 a) false base precision width flags;
      ret (idx, args)
    else if has flags FLAGS_LONG then
      idx ← _ntoa_long o buffer idx maxlen (u64 a) false base precision width flags;
      ret (idx, args)
    else
      let value := if has flags FLAGS_CHAR then u8 a
                   else if has flags FLAGS_SHORT then u16 a
                   else u32 a in
      idx ← _ntoa_long o buffer idx maxlen value false base precision width flags;
      ret (idx, args).

(** [src/lib/string/vsnprintf.c:766-784 _vsnprintf (character)] *)
Definition spec_char (o : out_fct_type) (buffer idx maxlen flags width : Z) (args : list va) :
    M bytes (Z * list va) :=
  let n := Z.to_nat (width - 1) in
  idx ← (if negb (has flags FLAGS_LEFT) then out_spaces o buffer n idx maxlen else ret idx);
  '(a, args) ← va_word args;
  out o (u8 a) buffer idx maxlen;;
  idx ← (if has flags FLAGS_LEFT then out_spaces o buffer n (idx + 1) maxlen else ret (idx + 1));
  ret (idx, args).

(** [src/lib/string/vsnprintf.c:799-801 _vsnprintf (string loop)] *)
Fixpoint out_string (fuel : nat) (o : out_fct_type) (buffer p idx maxlen flags precision : Z) :
    M bytes Z :=
  match fuel with
  | O => fail NoFuel
  | S fuel =>
    c ← get p;
    if negb (c =? 0) && (negb (has flags FLAGS_PRECISION) || negb (precision =? 0)) then
      out o c buffer idx maxlen;;
      out_string fuel o buffer (p + 1) (idx + 1) maxlen flags (precision - 1)
    else ret idx
  end.

(** [src/lib/string/vsnprintf.c:786-810 _vsnprintf (string)] *)
Definition spec_string (o : out_fct_type) (buffer idx maxlen flags width precision : Z)
    (args : list va) : M bytes (Z * list va) :=
  '(a, args) ← va_word args;
  let p := u64 a in
  l ← _strnlen_s p (if precision =? 0 then 2 ^ 64 - 1 else precision);
  let l := if has flags FLAGS_PRECISION then (if l <? precision then l else precision) else l in
  let n := Z.to_nat (width - l) in
  idx ← (if negb (has flags FLAGS_LEFT) then out_spaces o buffer n idx maxlen else ret idx);
  fuel ← str_fuel;
  idx ← out_string fuel o buffer p idx maxlen flags precision;
  idx ← (if has flags FLAGS_LEFT then out_spaces o buffer n idx maxlen else ret idx);
  ret (idx, args).

(** [src/lib/string/vsnprintf.c:812-828 _vsnprintf (pointer)] [uintptr_t] has
    the size of [long long]. *)
Definition spec_pointer (o : out_fct_type) (buffer idx maxlen flags precision : Z) (args : list va) :
    M bytes (Z * list va) :=
  let flags := Z.lor flags (Z.lor FLAGS_ZEROPAD FLAGS_UPPERCASE) in
  '(a, args) ← va_word args;
  idx ← _ntoa_long_long o buffer idx maxlen (u64 a) false 16 precision 16 flags;
  ret (idx, args).

(** [src/lib/string/vsnprintf.c:748-763 _vsnprintf (floating point)] *)
Definition spec_double (o : out_fct_type) (buffer idx maxlen c flags width precision : Z)
    (args : list va) : M bytes (Z * list va) :=
  '(d, args) ← va_double args;
  if (c =? 102) || (c =? 70) then
    let flags := if c =? 70 then Z.lor flags FLAGS_UPPERCASE else flags in
    idx ← _ftoa o buffer idx maxlen d precision width flags;
    ret (idx, args)
  else
    let flags := if (c =? 103) || (c =? 71) then Z.lor flags FLAGS_ADAPT_EXP else flags in
    let flags := if (c =? 69) || (c =? 71) then Z.lor flags FLAGS_UPPERCASE else flags in
    idx ← _etoa o buffer idx maxlen d precision width flags;
    ret (idx, args).

Definition is_one_of (c : Z) (l : list Z) : bool := existsb (Z.eqb c) l.

(** [src/lib/string/vsnprintf.c:673-839 _vsnprintf (specifier)] *)
Definition specifier (o : out_fct_type) (buffer idx maxlen c flags width precision : Z)
    (args : list va) : M bytes (Z * list va) :=
  if is_one_of c [100; 105; 117; 120; 88; 111; 98] then
    spec_integer o buffer idx maxlen c flags width precision args
  else if is_one_of c [102; 70; 101; 69; 103; 71] then
    spec_double o buffer idx maxlen c flags width precision args
  else if c =? 99 then spec_char o buffer idx maxlen flags width args
  else if c =? 115 then spec_string o buffer idx maxlen flags width precision args
  else if c =? 112 then spec_pointer o buffer idx maxlen flags precision args
  else if c =? C_percent then out o C_percent buffer idx maxlen;; ret (idx + 1, args)
  else out o c buffer idx maxlen;; ret (idx + 1, args).

(** [src/lib/string/vsnprintf.c:577-840 _vsnprintf (loop)] *)
Fixpoint vsnprintf_loop (fuel : nat) (o : out_fct_type) (buffer maxlen format idx : Z)
    (args : list va) : M bytes Z :=
  match fuel with
  | O => fail NoFuel
  | S fuel =>
    c ← get format;
    if c =? 0 then ret idx
    else if negb (c =? C_percent) then
      out o c buffer idx maxlen;;
      vsnprintf_loop fuel o buffer maxlen (format + 1) (idx + 1) args
    else
      n ← str_fuel;
      '(format, flags) ← eval_flags n (format + 1) 0;
      '(format, flags, width, args) ← eval_width format flags args;
      '(format, flags, precision, args) ← eval_precision format flags args;
      '(format, flags) ← eval_length format flags;
      c ← get format;
      '(idx, args) ← specifier o buffer idx maxlen c flags width precision args;
      vsnprintf_loop fuel o buffer maxlen (format + 1) idx args
  end.

(** [src/lib/string/vsnprintf.c:567-847 _vsnprintf] *)
Definition _vsnprintf (o : out_fct_type) (buffer maxlen format : Z) (args : list va) : M bytes Z :=
  let o := if buffer =? NULL then Out_null else o in
  fuel ← str_fuel;
  idx ← vsnprintf_loop fuel o buffer maxlen format 0 args;
  out o 0 buffer (if idx <? maxlen then idx else u64 (maxlen - 1)) maxlen;;
  ret (s32 idx).

(** [src/lib/string/vsnprintf.c:852-859 sprintf_] *)
Definition sprintf_ (buffer format : Z) (args : list va) : M bytes Z :=
  _vsnprintf Out_buffer buffer (2 ^ 64 - 1) format args.
(** [src/lib/string/vsnprintf.c:862-869 snprintf_] *)
Definition snprintf_ (buffer count format : Z) (args : list va) : M bytes Z :=
  _vsnprintf Out_buffer buffer count format args.
(** [src/lib/string/vsnprintf.c:872-875 vsnprintf_] *)
Definition vsnprintf_ (buffer count format : Z) (args : list va) : M bytes Z :=
  _vsnprintf Out_buffer buffer count format args.
(** [src/include/aco/vsnprintf.h:72-75 vsprintf_] *)
Definition vsprintf_ (buf fmt : Z) (args : list va) : M bytes Z :=
  vsnprintf_ buf (2 ^ 64 - 1) fmt args.

(** [src/kernel/printf.c:5-14 puts] The characters given to [putchar], and the
    result. *)
Definition puts (str : Z) : M bytes (list Z * Z) :=
  len ← strlen str;
  l ← (fix loop (n : nat) (i : Z) : M bytes (list Z) :=
         match n with
         | O => ret [10]
         | S n => c ← get (str + i); l ← loop n (i + 1); ret (c :: l)
         end) (Z.to_nat len) 0;
  ret (l, len + 1).

(** [src/kernel/printf.c:16-27 printf] The console characters and the result;
    [buffer] is the address of its 256-byte local. *)
Definition printf (buffer format : Z) (args : list va) : M bytes (list Z * Z) :=
  done ← vsnprintf_ buffer 512 format args;
  len ← strlen buffer;
  l ← (fix loop (n : nat) (i : Z) : M bytes (list Z) :=
         match n with
         | O => ret []
         | S n => c ← get (buffer + i); l ← loop n (i + 1); ret (c :: l)
         end) (Z.to_nat len) 0;
  ret (l, done).
