(* ===== verification/PrintfSpec.v ===== *)
(** * Formatted output: the text of a format

    A format and its arguments denote one text; where it goes, and how much of
    it fits, is decided by the output function alone.  [emits] says this of a
    routine of [Printf]: from its run with [_out_null], which only counts, it
    gives the text that every other run sends to its buffer.  The relation is
    between two versions of a routine because a memory that also holds the
    buffer has more bytes, hence more fuel. *)
From S2P Require Import Prelude CString CStringSpec Double Printf.

(** ** Where a text goes *)

(** The characters that [_out_buffer] stores for [text] from index [idx]. *)
Fixpoint clip (buffer maxlen idx : Z) (text : list Z) (w : bytes) : bytes :=
  match text with
  | [] => w
  | c :: text => clip buffer maxlen (idx + 1) text (if idx <? maxlen then <[buffer + idx := c]> w else w)
  end.
Definition sent (o : out_fct_type) (buffer maxlen idx : Z) (text : list Z) (w : bytes) : bytes :=
  match o with Out_buffer => clip buffer maxlen idx text w | Out_null => w end.

Lemma sent_nil o b m i w : sent o b m i [] w = w.
Proof. by destruct o. Qed.

Lemma clip_app b m t1 t2 : forall i w, clip b m i (t1 ++ t2) w = clip b m (i + len t1) t2 (clip b m i t1 w).
Proof.
  induction t1 as [|c t1 IH]; intros i w; cbn.
  - by rewrite Z.add_0_r.
  - rewrite IH. f_equal. unfold len. cbn [length]. lia.
Qed.
Lemma sent_app o b m i t1 t2 w :
  sent o b m i (t1 ++ t2) w = sent o b m (i + len t1) t2 (sent o b m i t1 w).
Proof. destruct o; [apply clip_app | done]. Qed.

Lemma clip_write b m t : forall i w, 0 <= i -> clip b m i t w = write w (b + i) (take (Z.to_nat (m - i)) t).
Proof.
  induction t as [|c t IH]; intros i w Hi; cbn [clip]; [by rewrite take_nil |].
  rewrite IH by lia. destruct (i <? m) eqn:E; [apply Z.ltb_lt in E | apply Z.ltb_ge in E].
  - replace (Z.to_nat (m - i)) with (S (Z.to_nat (m - (i + 1)))) by lia. cbn. f_equal. lia.
  - replace (Z.to_nat (m - i)) with 0%nat by lia. by replace (Z.to_nat (m - (i + 1))) with 0%nat by lia.
Qed.

Lemma len_app_take count (t : list Z) : 0 < count -> len (take (Z.to_nat (count - 1)) t) = Z.min (len t) (count - 1).
Proof. intros H. unfold len. rewrite length_take. lia. Qed.

Lemma clip_in b m t : forall i w q, is_Some (w !! q) -> is_Some (clip b m i t w !! q).
Proof.
  induction t as [|c t IH]; intros i w q H; cbn; [done |]. apply IH.
  destruct (i <? m); [| done]. destruct (decide (b + i = q)) as [-> |];
    [rewrite lookup_insert_eq; eauto | by rewrite lookup_insert_ne].
Qed.

Lemma clip_disjoint b m t (r : bytes) : forall i w, 0 <= i -> room w b m -> w ##ₘ r -> clip b m i t w ##ₘ r.
Proof.
  induction t as [|c t IH]; intros i w Hi Hr Hd; cbn; [done |].
  destruct (i <? m) eqn:E; [| apply IH; [lia | done | done]].
  apply Z.ltb_lt in E. apply IH; [lia | |].
  - intros j Hj. destruct (decide (b + i = b + j)) as [-> |];
      [rewrite lookup_insert_eq; eauto | rewrite lookup_insert_ne by done; by apply Hr].
  - apply map_disjoint_insert_l. split; [| done].
    destruct (Hr i) as [x Hx]; [lia |]. by eapply map_disjoint_Some_l.
Qed.

(** A memory [r] that is read, and a buffer [w] beside it. *)
Definition target (o : out_fct_type) (b m i : Z) (w r : bytes) : Prop :=
  0 <= i /\ w ##ₘ r /\ (o = Out_buffer -> room w b m).

Lemma target_sent o b m i t w r : target o b m i w r -> target o b m (i + len t) (sent o b m i t w) r.
Proof.
  intros (Hi & Hd & Hr). pose proof (len_nonneg t). split; [lia |]. destruct o; cbn in *; [| done].
  split; [by apply clip_disjoint; auto |]. intros _ j Hj. apply clip_in. by apply Hr.
Qed.

(** ** Routines that read, and routines that emit

    The second routine of each relation takes the fuel that it has beside that
    of the first. *)

Notation routine R := (out_fct_type -> Z -> Z -> Z -> M bytes R).

Definition reads {A} (c : M bytes A) (c' : nat -> M bytes A) : Prop := forall r a r',
  c r = Ok (a, r') -> r' = r /\ forall d w, w ##ₘ r -> c' d (r ∪ w) = Ok (a, r ∪ w).

(** [K]: what the result says beside the new index. *)
Definition emits {R} (K : (Z -> R) -> Prop) (e : routine R) (e' : nat -> routine R) : Prop :=
  forall r b i m x r', e Out_null b i m r = Ok (x, r') ->
    r' = r /\ exists text k, K k /\ x = k (i + len text) /\
      forall d o b i m w, target o b m i w r ->
        e' d o b i m (r ∪ w) = Ok (k (i + len text), r ∪ sent o b m i text w).

(** The result is the new index, or the new index and a value. *)
Definition index : (Z -> Z) -> Prop := fun k => k = fun i => i.
Definition index_and {A} : (Z -> Z * A) -> Prop := fun k => exists a, k = fun i => (i, a).

Lemma reads_ret {A} (a : A) : reads (ret a) (fun _ => ret a).
Proof. intros r x r' [= <- <-]. done. Qed.
Lemma reads_fail {A} e (c : nat -> M bytes A) : reads (fail e) c.
Proof. by intros r x r'. Qed.
Lemma reads_get p : reads (get p) (fun _ => get p).
Proof.
  intros r x r' H. unfold get, load in *. destruct (r !! p) as [c|] eqn:E; [| done]. simplify_eq.
  split; [done |]. intros _ w Hw. by rewrite (lookup_union_Some_l _ _ _ _ E).
Qed.
Lemma reads_bind {A B} (c : M bytes A) c' (f : A -> M bytes B) f' :
  reads c c' -> (forall a, reads (f a) (fun d => f' d a)) -> reads (bind c f) (fun d => bind (c' d) (f' d)).
Proof.
  intros Hc Hf r x r' H. minv H. destruct (Hc _ _ _ Hm) as [-> Hc']. destruct (Hf _ _ _ _ H) as [-> Hf'].
  split; [done |]. intros d w Hw. rewrite (bind_Ok _ _ _ _ _ (Hc' d w Hw)). by apply Hf'.
Qed.

Lemma fuel_union (r w : bytes) : w ##ₘ r -> S (size (r ∪ w)) = (S (size r) + size w)%nat.
Proof. intros Hw. rewrite map_size_disj_union by (by symmetry). lia. Qed.

Lemma reads_fuel {A} (f : nat -> M bytes A) :
  (forall n, reads (f n) (fun d => f (n + d)%nat)) -> reads (bind str_fuel f) (fun _ => bind str_fuel f).
Proof.
  intros Hf r x r' H. unfold str_fuel, bind, gets in *.
  destruct (Hf _ _ _ _ H) as [-> E]. split; [done |]. intros _ w Hw. rewrite fuel_union by done. by apply E.
Qed.

(** Sequences of routines: the second one is told how much the first one sent. *)
Definition then_ {R} (e : routine Z) (f : Z -> routine R) : routine R := fun o b i m =>
  bind (e o b i m) (fun j => f (j - i) o b j m).
Definition then_with {A R} (e : routine (Z * A)) (f : A -> routine R) : routine R := fun o b i m =>
  bind (e o b i m) (fun '(j, a) => f a o b j m).
Definition reading {A R} (c : M bytes A) (e : A -> routine R) : routine R := fun o b i m =>
  bind c (fun a => e a o b i m).
Definition char_then {R} (c : Z) (f : routine R) : routine R := fun o b i m =>
  bind (out o c b i m) (fun _ => f o b (i + 1) m).

Lemma emits_bind {R} (K : (Z -> R) -> Prop) e e' (f : Z -> routine R) f' :
  emits index e e' -> (forall n, emits K (f n) (fun d => f' d n)) ->
  emits K (then_ e f) (fun d => then_ (e' d) (f' d)).
Proof.
  intros He Hf r b i m x r' H. unfold then_, then_with in *. minv H. destruct (He _ _ _ _ _ _ Hm) as [-> (t1 & k1 & -> & -> & E1)].
  destruct (Hf _ _ _ _ _ _ _ H) as [-> (t2 & k & HK & -> & E2)]. split; [done |].
  exists (t1 ++ t2), k. rewrite len_app. split; [done |]. split; [f_equal; lia |].
  intros d o b' i' m' w Hw. rewrite (bind_Ok _ _ _ _ _ (E1 d o b' i' m' w Hw)).
  replace (i' + len t1 - i') with (i + len t1 - i) by lia.
  rewrite (E2 d o b' _ m' _ (target_sent _ _ _ _ t1 _ _ Hw)), sent_app. do 3 f_equal. lia.
Qed.

Lemma emits_bind_pair {A R} (K : (Z -> R) -> Prop) e e' (f : A -> routine R) f' :
  emits index_and e e' -> (forall a, emits K (f a) (fun d => f' d a)) ->
  emits K (then_with e f) (fun d => then_with (e' d) (f' d)).
Proof.
  intros He Hf r b i m x r' H. unfold then_, then_with in *. minv H. destruct (He _ _ _ _ _ _ Hm) as [-> (t1 & k1 & (a1 & ->) & -> & E1)].
  destruct (Hf _ _ _ _ _ _ _ H) as [-> (t2 & k & HK & -> & E2)]. split; [done |].
  exists (t1 ++ t2), k. rewrite len_app. split; [done |]. split; [f_equal; lia |].
  intros d o b' i' m' w Hw. rewrite (bind_Ok _ _ _ _ _ (E1 d o b' i' m' w Hw)).
  rewrite (E2 d o b' _ m' _ (target_sent _ _ _ _ t1 _ _ Hw)), sent_app. do 3 f_equal. lia.
Qed.

Lemma emits_read {A R} (K : (Z -> R) -> Prop) (c : M bytes A) c' (e : A -> routine R) e' :
  reads c c' -> (forall a, emits K (e a) (fun d => e' d a)) ->
  emits K (reading c e) (fun d => reading (c' d) (e' d)).
Proof.
  intros Hc He r b i m x r' H. unfold reading in *. minv H. destruct (Hc _ _ _ Hm) as [-> Hc'].
  destruct (He _ _ _ _ _ _ _ H) as [-> (t & k & HK & -> & E)]. split; [done |]. exists t, k.
  split; [done |]. split; [done |]. intros d o b' i' m' w Hw.
  rewrite (bind_Ok _ _ _ _ _ (Hc' d w (proj1 (proj2 Hw)))). by apply E.
Qed.

Lemma emits_fuel {R} (K : (Z -> R) -> Prop) (e : nat -> routine R) :
  (forall n, emits K (e n) (fun d => e (n + d)%nat)) ->
  emits K (reading str_fuel e) (fun _ => reading str_fuel e).
Proof.
  intros He r b i m x r' H. unfold reading, str_fuel, bind, gets in *.
  destruct (He _ _ _ _ _ _ _ H) as [-> (t & k & HK & -> & E)]. split; [done |]. exists t, k.
  split; [done |]. split; [done |]. intros _ o b' i' m' w Hw.
  rewrite (fuel_union _ _ (proj1 (proj2 Hw))). by apply E.
Qed.

Lemma emits_ret : emits index (fun _ _ i _ => ret i) (fun _ _ _ i _ => ret i).
Proof.
  intros r b i m x r' [= <- <-]. split; [done |]. exists [], (fun i => i). unfold len. cbn.
  split; [done |]. split; [lia |]. intros d o b' i' m' w Hw. by rewrite Z.add_0_r, sent_nil.
Qed.
Lemma emits_ret_pair {A} (a : A) : emits index_and (fun _ _ i _ => ret (i, a)) (fun _ _ _ i _ => ret (i, a)).
Proof.
  intros r b i m x r' [= <- <-]. split; [done |]. exists [], (fun i => (i, a)). unfold len. cbn.
  split; [by exists a |]. split; [by rewrite Z.add_0_r |].
  intros d o b' i' m' w Hw. by rewrite Z.add_0_r, sent_nil.
Qed.
Lemma emits_fail {R} (K : (Z -> R) -> Prop) e e' : emits K (fun _ _ _ _ => fail e) e'.
Proof. by intros r b i m x r'. Qed.

Lemma emits_ext {R} (K : (Z -> R) -> Prop) (e0 e : routine R) (e0' e' : nat -> routine R) :
  emits K e0 e0' -> (forall o b i m s, e o b i m s = e0 o b i m s) ->
  (forall d o b i m s, e' d o b i m s = e0' d o b i m s) -> emits K e e'.
Proof.
  intros H E E' r b i m x r' Hr. rewrite E in Hr.
  destruct (H _ _ _ _ _ _ Hr) as [-> (t & k & HK & -> & Hs)]. split; [done |]. exists t, k.
  split; [done |]. split; [done |]. intros. rewrite E'. by apply Hs.
Qed.

(** One character. *)
Lemma emits_out {R} (K : (Z -> R) -> Prop) c (f : routine R) f' :
  emits K f f' ->
  emits K (char_then c f) (fun d => char_then c (f' d)).
Proof.
  intros Hf r b i m x r' H. unfold char_then in *. cbn in H. destruct (Hf _ _ _ _ _ _ H) as [-> (t & k & HK & -> & E)].
  split; [done |]. exists (u8 c :: t), k. rewrite len_cons. split; [done |]. split; [f_equal; lia |].
  intros d o b' i' m' w Hw.
  assert (out o c b' i' m' (r ∪ w) = Ok (tt, r ∪ sent o b' m' i' [u8 c] w)) as Eo.
  { destruct Hw as (Hi & Hd & Hr). destruct o; [| done]. cbn. unfold _out_buffer, when.
    destruct (i' <? m') eqn:El; [| done]. apply Z.ltb_lt in El.
    destruct (Hr eq_refl i') as [y Hy]; [lia |].
    unfold put. rewrite (update_Ok _ _ _ y) by (by rewrite lookup_union_Some by (by symmetry); right).
    rewrite insert_union_r; [done |]. by eapply map_disjoint_Some_l. }
  rewrite (bind_Ok _ _ _ _ _ Eo).
  pose proof (target_sent _ _ _ _ [u8 c] _ _ Hw) as Ht. unfold len in Ht. cbn [length] in Ht.
  change (Z.of_nat 1) with 1 in Ht.
  rewrite (E d o b' _ m' _ Ht). change (u8 c :: t) with ([u8 c] ++ t). rewrite sent_app. do 3 f_equal.
  lia.
Qed.

(** ** Padding and reversed output *)

Lemma emits_spaces n :
  emits index (fun o b i m => out_spaces o b n i m) (fun _ o b i m => out_spaces o b n i m).
Proof.
  induction n as [|n IH]; [apply emits_ret |].
  exact (emits_out index C_space _ _ IH).
Qed.
Lemma emits_list l :
  emits index (fun o b i m => out_list o b l i m) (fun _ o b i m => out_list o b l i m).
Proof.
  induction l as [|c l IH]; [apply emits_ret |].
  exact (emits_out index c _ _ IH).
Qed.

(** The padding loops that end [_out_rev], [_vsnprintf] on [%c] and on [%s]. *)
Definition pad_if (c : bool) (n : nat) : routine Z := fun o b i m =>
  if c then out_spaces o b n i m else ret i.
Lemma emits_pad c n : emits index (pad_if c n) (fun _ => pad_if c n).
Proof. destruct c; [apply emits_spaces | apply emits_ret]. Qed.

(** A routine that has the same runs as one built from the combinators. *)
Lemma emits_same {R} (K : (Z -> R) -> Prop) (e0 e : routine R) :
  emits K e0 (fun _ => e0) -> (forall o b i m s, e o b i m s = e0 o b i m s) -> emits K e (fun _ => e).
Proof. intros H E. by eapply emits_ext. Qed.

Lemma emits_rev buf width flags :
  emits index (fun o b i m => _out_rev o b i m buf width flags) (fun _ o b i m => _out_rev o b i m buf width flags).
Proof.
  set (left := has flags FLAGS_LEFT).
  apply (emits_same _ (then_
    (pad_if (negb left && negb (has flags FLAGS_ZEROPAD)) (Z.to_nat (width - Z.of_nat (length buf)))) (fun d =>
    then_ (fun o b i m => out_list o b (rev buf) i m) (fun d' => pad_if left (Z.to_nat (width - (d + d'))))))).
  - apply emits_bind; [apply emits_pad |]. intros d. apply emits_bind; [apply emits_list |].
    intros d'. apply emits_pad.
  - intros o b i m s. apply bind_ext. intros j s1. apply bind_ext. intros j' s2. unfold pad_if. fold left.
    by replace (j - i + (j' - j)) with (j' - i) by lia.
Qed.

(** ** Readers *)

Notation steady c := (reads c (fun _ => c)).

Lemma steady_bind {A B} (c : M bytes A) (f : A -> M bytes B) :
  steady c -> (forall a, steady (f a)) -> steady (bind c f).
Proof. intros Hc Hf. exact (reads_bind c (fun _ => c) f (fun _ => f) Hc Hf). Qed.

Create HintDb steady.
#[export] Hint Resolve reads_ret reads_fail reads_get : steady.

(** [steady] follows the control flow of a reader down to its reads. *)
Ltac steady :=
  repeat first
  [ solve [auto with steady]
  | match goal with |- reads (bind _ _) _ => apply steady_bind; [| intros ?] end
  | match goal with
    | |- reads (if ?c then _ else _) _ => destruct c
    | |- reads (let '(_, _) := ?p in _) _ => destruct p
    | |- reads (match ?l with [] => _ | _ => _ end) _ => destruct l
    end ].

Lemma push_steady buf c : steady (push buf c).
Proof. unfold push. steady. Qed.
#[export] Hint Resolve push_steady : steady.

Lemma strnlen_s_loop_reads n : forall s maxsize,
  reads (strnlen_s_loop n s maxsize) (fun d => strnlen_s_loop (n + d) s maxsize).
Proof.
  induction n as [|n IH]; intros s maxsize; [apply reads_fail |]. cbn [strnlen_s_loop Nat.add].
  apply (reads_bind (get s) (fun _ => get s)); [apply reads_get |]. intros c.
  destruct (_ && _); [apply IH | apply reads_ret].
Qed.
Lemma atoi_loop_reads n : forall str i, reads (atoi_loop n str i) (fun d => atoi_loop (n + d) str i).
Proof.
  induction n as [|n IH]; intros str i; [apply reads_fail |]. cbn [atoi_loop Nat.add].
  apply (reads_bind (get str) (fun _ => get str)); [apply reads_get |]. intros c.
  destruct (_is_digit c); [apply IH | apply reads_ret].
Qed.
Lemma eval_flags_reads n : forall format flags, reads (eval_flags n format flags) (fun d => eval_flags (n + d) format flags).
Proof.
  induction n as [|n IH]; intros format flags; [apply reads_fail |]. cbn [eval_flags Nat.add].
  apply (reads_bind (get format) (fun _ => get format)); [apply reads_get |]. intros c.
  repeat (destruct (c =? _); [apply IH |]). apply reads_ret.
Qed.

Lemma strnlen_s_steady str maxsize : steady (_strnlen_s str maxsize).
Proof.
  apply reads_fuel. intros n.
  apply (reads_bind _ _ _ (fun _ s => ret (u32 (s - str))) (strnlen_s_loop_reads n str maxsize)).
  intros s. apply reads_ret.
Qed.
Lemma atoi_steady str : steady (_atoi str).
Proof. apply reads_fuel. intros n. apply atoi_loop_reads. Qed.
#[export] Hint Resolve strnlen_s_steady atoi_steady : steady.

Lemma ntoa_digits_steady n : forall value base flags buf, steady (ntoa_digits n value base flags buf).
Proof. induction n as [|n IH]; intros value base flags buf; cbn [ntoa_digits]; steady; apply IH. Qed.
Lemma magnitude_steady lo value : steady (magnitude lo value).
Proof. unfold magnitude. steady. Qed.
#[export] Hint Resolve ntoa_digits_steady magnitude_steady : steady.

Section readers.
Context {double : Type}.

Lemma va_word_steady (args : list va) : steady (va_word args).
Proof. unfold va_word. destruct args as [|[] ]; auto with steady. Qed.
Lemma va_double_steady (args : list va) : steady (va_double args).
Proof. unfold va_double. destruct args as [|[] ]; auto with steady. Qed.
Hint Resolve va_word_steady va_double_steady : steady.
Lemma eval_width_steady format flags (args : list va) : steady (eval_width format flags args).
Proof. unfold eval_width. steady. Qed.
Lemma eval_precision_steady format flags (args : list va) : steady (eval_precision format flags args).
Proof. unfold eval_precision. steady. Qed.
Lemma eval_length_steady format flags : steady (eval_length format flags).
Proof using. unfold eval_length. steady. Qed.
End readers.
#[export] Hint Resolve va_word_steady va_double_steady eval_width_steady eval_precision_steady eval_length_steady : steady.

(** ** The routines of the interpreter *)

Notation uniform K e := (emits K e (fun _ => e)).

Lemma uniform_read {A R} (K : (Z -> R) -> Prop) (c : M bytes A) (e : A -> routine R) :
  steady c -> (forall a, uniform K (e a)) -> uniform K (reading c e).
Proof. intros Hc He. exact (emits_read K c (fun _ => c) e (fun _ => e) Hc He). Qed.

Lemma uniform_then {R} (K : (Z -> R) -> Prop) (e : routine Z) (f : Z -> routine R) :
  uniform index e -> (forall n, uniform K (f n)) -> uniform K (then_ e f).
Proof. intros He Hf. exact (emits_bind K e (fun _ => e) f (fun _ => f) He Hf). Qed.

Lemma uniform_index_ret {A} (e : routine Z) (a : A) :
  uniform index e -> uniform index_and (fun o b i m => bind (e o b i m) (fun j => ret (j, a))).
Proof.
  intros He. apply (uniform_then index_and e (fun _ _ _ i _ => ret (i, a)) He). intros _. apply emits_ret_pair.
Qed.

Lemma emits_ntoa_format buf negative base prec width flags :
  uniform index (fun o b i m => _ntoa_format o b i m buf negative base prec width flags).
Proof.
  unfold _ntoa_format. cbv zeta.
  apply uniform_read; [steady |]. intros buf1.
  apply uniform_read; [steady |]. intros buf2. apply emits_rev.
Qed.

Lemma emits_ntoa_long value negative base prec width flags :
  uniform index (fun o b i m => _ntoa_long o b i m value negative base prec width flags).
Proof.
  unfold _ntoa_long. cbv zeta. apply uniform_read; [steady |]. intros buf. apply emits_ntoa_format.
Qed.
Lemma emits_ntoa_long_long value negative base prec width flags :
  uniform index (fun o b i m => _ntoa_long_long o b i m value negative base prec width flags).
Proof.
  unfold _ntoa_long_long. cbv zeta. apply uniform_read; [steady |]. intros buf. apply emits_ntoa_format.
Qed.


Lemma emits_integer c flags width precision (args : list va) :
  uniform index_and (fun o b i m => spec_integer o b i m c flags width precision args).
Proof.
  unfold spec_integer. cbv zeta. apply uniform_read; [steady |]. intros [a rest].
  repeat match goal with |- emits _ (fun o b i m => if ?c then _ else _) _ => destruct c end;
    first [apply uniform_index_ret; first [apply emits_ntoa_long_long | apply emits_ntoa_long] |
           apply uniform_read; [steady |]; intros v; apply uniform_index_ret;
             first [apply emits_ntoa_long_long | apply emits_ntoa_long]].
Qed.

Lemma emits_pointer flags precision (args : list va) :
  uniform index_and (fun o b i m => spec_pointer o b i m flags precision args).
Proof.
  unfold spec_pointer. cbv zeta. apply uniform_read; [steady |]. intros [a rest].
  apply uniform_index_ret, emits_ntoa_long_long.
Qed.

Lemma emits_char flags width (args : list va) :
  uniform index_and (fun o b i m => spec_char o b i m flags width args).
Proof.
  unfold spec_char. cbv zeta. set (n := Z.to_nat (width - 1)).
  apply (emits_same _ (then_ (pad_if (negb (has flags FLAGS_LEFT)) n) (fun _ =>
    reading (va_word args) (fun p => char_then (u8 p.1) (fun o b i m =>
      bind (pad_if (has flags FLAGS_LEFT) n o b i m) (fun j => ret (j, p.2))))))).
  - apply uniform_then; [apply emits_pad |]. intros _. apply uniform_read; [steady |]. intros p.
    apply (emits_out index_and _ _ (fun _ => _)). apply uniform_index_ret, emits_pad.
  - intros o b i m s. apply bind_ext. intros j s1. unfold reading. apply bind_ext. intros [a rest] s2. done.
Qed.

Lemma out_string_emits n : forall p flags precision,
  emits index (fun o b i m => out_string n o b p i m flags precision)
    (fun d o b i m => out_string (n + d) o b p i m flags precision).
Proof.
  induction n as [|n IH]; intros p flags precision; [apply emits_fail |]. cbn [out_string Nat.add].
  apply (emits_read index (get p) (fun _ => get p) (fun c o b i m => _) (fun d c o b i m => _)); [apply reads_get |].
  intros c. destruct (_ && _); [| apply emits_ret].
  exact (emits_out index c _ _ (IH (p + 1) flags (precision - 1))).
Qed.

Lemma emits_string flags width precision (args : list va) :
  uniform index_and (fun o b i m => spec_string o b i m flags width precision args).
Proof.
  unfold spec_string. cbv zeta. apply uniform_read; [steady |]. intros [a rest].
  apply uniform_read; [steady |]. intros l.
  set (n := Z.to_nat _). set (left := has flags FLAGS_LEFT).
  apply (emits_same _ (then_ (pad_if (negb left) n) (fun _ => then_
    (reading str_fuel (fun f o b i m => out_string f o b (u64 a) i m flags precision)) (fun _ o b i m =>
      bind (pad_if left n o b i m) (fun j => ret (j, rest)))))).
  - apply uniform_then; [apply emits_pad |]. intros _. apply uniform_then.
    + apply emits_fuel. intros f. apply out_string_emits.
    + intros _. apply uniform_index_ret, emits_pad.
  - intros o b i m s. apply bind_ext. intros j s1. unfold reading, then_. by rewrite bind_bind.
Qed.

(** ** Floating-point numbers *)

Lemma to_integer_steady lo hi x : steady (to_integer lo hi x).
Proof. unfold to_integer. destruct (trunc x); steady. Qed.
Lemma pow10_steady prec : steady (pow10 prec).
Proof. unfold pow10. destruct (pow10_table !! _); steady. Qed.
#[export] Hint Resolve pow10_steady : steady.
#[export] Hint Extern 1 (reads (to_int _) _) => apply to_integer_steady : steady.
#[export] Hint Extern 1 (reads (to_ulong _) _) => apply to_integer_steady : steady.

Lemma ftoa_parts_steady value prec : steady (ftoa_parts value prec).
Proof. unfold ftoa_parts. cbv zeta. steady. Qed.
Lemma ftoa_chars_steady value negative prec whole frac width flags buf :
  steady (ftoa_chars value negative prec whole frac width flags buf).
Proof. unfold ftoa_chars. cbv zeta. destruct (frac_digits _ _ _ _). steady. Qed.
#[export] Hint Resolve ftoa_parts_steady ftoa_chars_steady : steady.
Lemma ftoa_plan_steady value prec width flags : steady (ftoa_plan value prec width flags).
Proof. unfold ftoa_plan. cbv zeta. destruct (limit_prec _ _ _). steady. Qed.
Lemma etoa_exponent_steady value : steady (etoa_exponent value).
Proof. unfold etoa_exponent. cbv zeta. steady. Qed.
Lemma etoa_adapt_steady value prec flags minwidth expval : steady (etoa_adapt value prec flags minwidth expval).
Proof. unfold etoa_adapt. steady. Qed.
#[export] Hint Resolve ftoa_plan_steady etoa_exponent_steady etoa_adapt_steady : steady.
Lemma etoa_plan_steady value prec width flags : steady (etoa_plan value prec width flags).
Proof. unfold etoa_plan. cbv zeta. steady. Qed.

(** A routine for a number and its modifiers. *)
Definition uniform_number (e : out_fct_type -> Z -> Z -> Z -> double -> Z -> Z -> Z -> M bytes Z) : Prop :=
  forall x precision width flags, uniform index (fun o b i m => e o b i m x precision width flags).

Lemma emits_ftoa_with etoa : uniform_number etoa -> uniform_number (ftoa_with etoa).
Proof.
  intros He x precision width flags. unfold ftoa_with. do 3 (destruct (_ : bool); [apply emits_rev |]).
  destruct (_ || _); [apply He |]. apply uniform_read; [apply ftoa_plan_steady |]. intros [buf w]. apply emits_rev.
Qed.

Lemma emits_etoa_out ftoa width plan : uniform_number ftoa -> uniform index (fun o b i m => etoa_out ftoa o b i m width plan).
Proof.
  intros Hf. destruct plan as [[[[[y p] fw] fl] mw] ev]. unfold etoa_out. destruct (mw =? 0).
  - apply (emits_same _ (fun o b i m => ftoa o b i m y p fw (clear fl FLAGS_ADAPT_EXP))); [apply Hf |].
    intros o b i m s. unfold bind, ret. by destruct (ftoa _ _ _ _ _ _ _ _ s) as [[? ?] | ?].
  - set (c := if has fl FLAGS_UPPERCASE then C_E else C_e).
    apply (emits_same _ (then_ (fun o b i m => ftoa o b i m y p fw (clear fl FLAGS_ADAPT_EXP)) (fun d => char_then c (then_
      (fun o b i m => _ntoa_long o b i m (if ev <? 0 then - ev else ev) (ev <? 0) 10 0 (mw - 1) (Z.lor FLAGS_ZEROPAD FLAGS_PLUS))
      (fun d' => pad_if (has fl FLAGS_LEFT) (Z.to_nat (width - (d + 1 + d')))))))).
    + apply uniform_then; [apply Hf |]. intros d. apply (emits_out index c _ (fun _ => _)).
      apply uniform_then; [apply emits_ntoa_long |]. intros d'. apply emits_pad.
    + intros o b i m s. unfold then_, char_then. apply bind_ext. intros j s1. apply bind_ext. intros [] s2. apply bind_ext. intros j' s3.
      unfold pad_if. by replace (j - i + 1 + (j' - (j + 1))) with (j' - i) by lia.
Qed.

Lemma emits_etoa_with ftoa : uniform_number ftoa -> uniform_number (etoa_with ftoa).
Proof.
  intros Hf x precision width flags. unfold etoa_with. destruct (_ || _ || _); [apply Hf |].
  apply (uniform_read index (etoa_plan x precision width flags) (fun plan o b i m => etoa_out ftoa o b i m width plan));
    [apply etoa_plan_steady |]. intros plan. by apply emits_etoa_out.
Qed.

Lemma emits_double_text n e : uniform_number (double_text n e).
Proof.
  revert e. induction n as [|n IH]; intros e; [intros x p w f; apply emits_fail |].
  destruct e; [apply emits_etoa_with | apply emits_ftoa_with]; apply IH.
Qed.

(** ** The interpreter *)

Lemma emits_double c flags width precision args :
  uniform index_and (fun o b i m => spec_double o b i m c flags width precision args).
Proof.
  unfold spec_double. cbv zeta. apply uniform_read; [steady |]. intros [x rest].
  destruct ((c =? 102) || (c =? 70)); apply uniform_index_ret, emits_double_text.
Qed.

Lemma emits_specifier c flags width precision args :
  uniform index_and (fun o b i m => specifier o b i m c flags width precision args).
Proof.
  unfold specifier.
  destruct (is_one_of c _); [apply emits_integer |].
  destruct (is_one_of c _); [apply emits_double |].
  destruct (c =? 99); [apply emits_char |].
  destruct (c =? 115); [apply emits_string |].
  destruct (c =? 112); [apply emits_pointer |].
  destruct (c =? C_percent);
    [exact (emits_out index_and C_percent _ _ (emits_ret_pair args)) | exact (emits_out index_and c _ _ (emits_ret_pair args))].
Qed.

(** [regroup] compares two sequences up to the grouping of their steps. *)
Ltac regroup :=
  first
  [ by rewrite bind_bind
  | rewrite bind_bind; apply bind_ext;
    let x := fresh in let s := fresh in
    intros x s; repeat match goal with p : (_ * _)%type |- _ => destruct p end; regroup ].

Lemma vsnprintf_loop_emits n : forall format args,
  emits index (fun o b i m => vsnprintf_loop n o b m format i args)
    (fun d o b i m => vsnprintf_loop (n + d) o b m format i args).
Proof.
  induction n as [|n IH]; intros format args; [apply emits_fail |]. cbn [vsnprintf_loop Nat.add].
  apply (emits_read index (get format) (fun _ => get format) (fun c o b i m => _) (fun d c o b i m => _)); [apply reads_get |].
  intros c. destruct (c =? 0); [apply emits_ret |].
  destruct (negb (c =? C_percent)).
  { exact (emits_out index c _ _ (IH (format + 1) args)). }
  (* the modifiers *)
  set (modifiers := bind str_fuel (fun f => bind (eval_flags f (format + 1) 0) (fun '(format, flags) =>
    bind (eval_width format flags args) (fun '(format, flags, width, args) =>
    bind (eval_precision format flags args) (fun '(format, flags, precision, args) =>
    bind (eval_length format flags) (fun '(format, flags) =>
    bind (get format) (fun c => ret (format, flags, width, precision, args, c)))))))).
  assert (steady modifiers) as Hm.
  { apply reads_fuel. intros f. eapply reads_bind; [apply eval_flags_reads |]. intros [f1 fl1]. cbn beta.
    apply steady_bind; [steady |]. intros [[[f2 fl2] w] args2].
    apply steady_bind; [steady |]. intros [[[f3 fl3] p] args3]. steady. }
  eapply (emits_ext index (reading modifiers (fun '(f, flags, width, precision, args, c) =>
      then_with (fun o b i m => specifier o b i m c flags width precision args)
        (fun args o b i m => vsnprintf_loop n o b m (f + 1) i args)))
    _ (fun d => reading modifiers (fun '(f, flags, width, precision, args, c) =>
      then_with (fun o b i m => specifier o b i m c flags width precision args)
        (fun args o b i m => vsnprintf_loop (n + d) o b m (f + 1) i args)))).
  - apply (emits_read index modifiers (fun _ => modifiers) _ (fun d => _)); [done |].
    intros [[[[[f flags] width] precision] args'] c'].
    apply (emits_bind_pair index _ (fun _ => _)); [apply emits_specifier |]. intros args2. apply IH.
  - intros o b i m s. unfold reading, modifiers. regroup.
  - intros d o b i m s. unfold reading, modifiers. regroup.
Qed.

(** ** Properties *)

(** The length of the text of a format, counted without writing. *)
Definition text_length (r : bytes) (format : Z) (args : list va) (n : Z) : Prop :=
  exists maxlen r', vsnprintf_loop (S (size r)) Out_null NULL maxlen format 0 args r = Ok (n, r').

(** What the property below says, from the length before it becomes an [int]. *)
Lemma vsnprintf_text (r : bytes) format args n :
  text_length r format args n ->
  exists text, len text = n /\
    forall buffer count w, buffer <> NULL -> 0 <= count < 2 ^ 64 -> w ##ₘ r -> room w buffer count ->
      exists w', vsnprintf_ buffer count format args (r ∪ w) = Ok (s32 n, r ∪ w') /\
        (0 < count -> bytes_at w' buffer (take (Z.to_nat (count - 1)) text ++ [0])) /\
        (forall q, q < buffer \/ buffer + Z.min count (len text + 1) <= q -> w' !! q = w !! q).
Proof.
  intros (m0 & r' & H). destruct (vsnprintf_loop_emits _ _ _ _ _ _ _ _ _ H) as [-> (text & k & -> & -> & E)].
  exists text. split; [by rewrite Z.add_0_l |]. unfold vsnprintf_, _vsnprintf.
  intros buffer count w Hb Hc Hd Hr. rewrite (proj2 (Z.eqb_neq _ _) Hb).
  unfold str_fuel. unfold bind at 1, gets at 1. rewrite (fuel_union _ _ Hd).
  assert (target Out_buffer buffer count 0 w r) as Ht by done.
  rewrite (bind_Ok _ _ _ _ _ (E (size w) _ _ _ _ _ Ht)). cbn [sent]. rewrite clip_write, Z.sub_0_r, Z.add_0_r by lia.
  set (w1 := write w buffer (take (Z.to_nat count) text)). pose proof (len_nonneg text) as Hlen.
  assert (len (take (Z.to_nat count) text) = Z.min count (len text)) as Htake by (unfold len; rewrite length_take; lia).
  assert (forall q, q < buffer \/ buffer + Z.min count (len text + 1) <= q -> w1 !! q = w !! q) as Hout.
  { intros q Hq. apply write_out. rewrite Htake. lia. }
  destruct (decide (count = 0)) as [-> | Hc0].
  { exists w1. cbn -[len]. rewrite (proj2 (Z.ltb_ge _ _)) by lia. split; [done |]. split; [lia | done]. }
  set (e := Z.min (len text) (count - 1)).
  replace (if _ <? count then _ else u64 (count - 1)) with e
    by (unfold e; destruct (_ <? count) eqn:El; [apply Z.ltb_lt in El | apply Z.ltb_ge in El; rewrite u64_small by lia]; lia).
  exists (<[buffer + e := 0]> w1). split; [| split].
  - cbn. unfold _out_buffer. rewrite (proj2 (Z.ltb_lt _ _)) by lia. cbn [when].
    destruct (Hr e) as [x Hx]; [lia |]. destruct (write_dom w buffer (take (Z.to_nat count) text) (buffer + e)) as [y Hy]; [by eexists |].
    assert (r !! (buffer + e) = None) as Hn by by eapply map_disjoint_Some_l.
    unfold bind, put. rewrite (update_Ok _ _ _ y) by by rewrite lookup_union_r.
    by rewrite insert_union_r.
  - intros _. apply bytes_at_app. rewrite len_app_take by lia. fold e. split; [| by cbn; rewrite lookup_insert_eq].
    apply (bytes_at_frame w1).
    + pose proof (write_at w buffer (take (Z.to_nat count) text)) as Hw. fold w1 in Hw.
      replace (take (Z.to_nat count) text) with (take (Z.to_nat (count - 1)) text ++ drop (Z.to_nat (count - 1)) (take (Z.to_nat count) text)) in Hw at 1.
      { by apply bytes_at_app in Hw as [? _]. }
      rewrite <-(take_drop (Z.to_nat (count - 1)) (take (Z.to_nat count) text)) at 2. f_equal.
      rewrite take_take. f_equal. lia.
    + intros q Hq. rewrite len_app_take in Hq by lia. rewrite lookup_insert_ne by lia. done.
  - intros q Hq. rewrite lookup_insert_ne by lia. by apply Hout.
Qed.

(** C36: one text, clipped.  When the length query (a NULL buffer) succeeds, it
    leaves the memory alone and returns the length of a text that depends on
    the format and the arguments only.  For every buffer beside the memory
    that is read, [vsnprintf] returns that same length whatever the limit
    [count] is, and leaves in the buffer the first [count - 1] characters of
    the text and a terminator; no byte at or past [count], or after the
    terminator, changes. *)
Theorem vsnprintf_clips (r : bytes) n format args res r' :
  vsnprintf_ NULL n format args r = Ok (res, r') ->
  r' = r /\ exists text, res = s32 (len text) /\
    forall buffer count w, buffer <> NULL -> 0 <= count < 2 ^ 64 -> w ##ₘ r -> room w buffer count ->
      exists w', vsnprintf_ buffer count format args (r ∪ w) = Ok (res, r ∪ w') /\
        (0 < count -> bytes_at w' buffer (take (Z.to_nat (count - 1)) text ++ [0])) /\
        (forall q, q < buffer \/ buffer + Z.min count (len text + 1) <= q -> w' !! q = w !! q).
Proof.
  intros H. unfold vsnprintf_, _vsnprintf in H. change (NULL =? NULL) with true in H. cbn iota in H. minv H.
  unfold str_fuel, gets in Hm. injection Hm as <- <-. minv H.
  destruct (vsnprintf_loop_emits _ _ _ _ _ _ _ _ _ Hm) as [-> (text & k & -> & -> & _)].
  unfold out, _out_null, bind, ret in H. injection H as <- <-. split; [done |].
  assert (text_length r format args (len text)) as (t & <- & Ht)%vsnprintf_text; [| by exists t]. by exists n, r.
Qed.

(** The format [a%d%f%s]. *)
Definition demo_text_mem : bytes :=
  list_to_map (zip (seqZ 0x100 9) [97; 37; 100; 37; 46; 49; 102; 37; 115] ++ [(0x109, 0)] ++ zip (seqZ 0x200 3) [122; 122; 0]).
Definition demo_buffer : bytes := list_to_map (zip (seqZ 0x1000 4) [7; 7; 7; 7]).

(** The text is [a-42.5zz], of which the first three characters are stored. *)
Lemma vsnprintf_clips_witness :
  exists text, 8 = s32 (len text) /\ exists w',
    vsnprintf_ 0x1000 4 0x100 [VInt (-4); VDouble (dec 5 2); VInt 0x200] (demo_text_mem ∪ demo_buffer) =
      Ok (8, demo_text_mem ∪ w') /\
    bytes_at w' 0x1000 (take 3 text ++ [0]).
Proof.
  destruct (vsnprintf_clips demo_text_mem 0 0x100 [VInt (-4); VDouble (dec 5 2); VInt 0x200] 8 demo_text_mem)
    as (_ & text & Ht & H); [by vm_compute |].
  exists text. split; [done |]. destruct (H 0x1000 4 demo_buffer) as (w' & E & Hb & _); [done | lia | | |].
  - apply map_disjoint_dom. apply (bool_decide_unpack _). by vm_compute.
  - intros i Hi. assert (i = 0 \/ i = 1 \/ i = 2 \/ i = 3) as Hi' by lia.
    destruct_or! Hi'; subst i; by eexists; vm_compute.
  - exists w'. split; [done | by apply Hb].
Defined.

(** ** Numbers that are printed wrong *)

Definition number_text (r : result (Z * bytes)) : list Z :=
  match r with Ok (n, m) => omap (fun i => m !! (0x1000 + i)) (seqZ 0 n) | Err _ => [] end.
Definition demo_page : bytes := list_to_map ((fun i => (0x1000 + i, 0)) <$> seqZ 0 64).
Definition show (e : bool) (value : double) (prec : Z) : result (Z * bytes) :=
  double_text 3 e Out_buffer 0x1000 0 64 value prec 0 FLAGS_PRECISION demo_page.

(** 2.5 with one digit, and a large number. *)
Lemma ftoa_examples : number_text (show false (dec 5 2) 1) = [50; 46; 53] /\
  number_text (show true (dec 5 2) 1) = [50; 46; 53; 101; 43; 48; 48].
Proof. split; vm_compute; reflexivity. Qed.

(** 0.95 with one digit: the fraction is rounded up to 10, whose two digits make
    [count] wrap around, so zeros fill the buffer and neither a point nor the
    whole part is printed. *)
Lemma ftoa_halfway_garbage : number_text (show false (dec 95 100) 1) = repeat C_0 30 ++ [49; 48].
Proof. vm_compute. reflexivity. Qed.
(** A precision of 42 and more indexes past the table of powers. *)
Lemma ftoa_reads_past_pow10 : show false (of_int 1) 42 = Err BadPointer.
Proof. vm_compute. reflexivity. Qed.
(** Zero has the exponent -308. *)
Lemma etoa_zero : number_text (show true (of_int 0) 1) = [48; 46; 48; 101; 45; 51; 48; 56].
Proof. vm_compute. reflexivity. Qed.
