(* ===== verification/Log.v ===== *)
(** * Logging: the code

    [module/log/log.c] and [module/log/log_module.c].  A line goes to the console
    through a static buffer, and to the registered callbacks.  The lock and the
    callbacks are functions of the rest of the kernel: [call_lock] and [call_fn]
    say what a call of such an address does, on the whole state.  Where the linker
    puts the strings and the buffer is a parameter. *)
From S2P Require Import Prelude CString Printf.

(** [src/module/log/log.c:28-28 MAX_CALLBACKS] *)
Definition MAX_CALLBACKS : Z := 32.

(** [src/include/aco/log.h:29-29 enum] *)
Definition LOG_TRACE : Z := 0.
Definition LOG_DEBUG : Z := 1.
Definition LOG_INFO : Z := 2.
Definition LOG_WARN : Z := 3.
Definition LOG_ERROR : Z := 4.
Definition LOG_FATAL : Z := 5.

(** [src/module/log/log.c:30-34 Callback] *)
Record Callback := mk_callback { fn : Z; udata : Z; cb_level : Z }.
Definition no_callback : Callback := mk_callback NULL 0 0.

(** [src/module/log/log.c:36-42 L] *)
Record log_L := mk_L {
  L_udata : Z;
  L_lock : Z;
  L_level : Z;
  L_quiet : bool;
  L_callbacks : list Callback
}.
(** A static structure starts with zeros. *)
Definition L_init : log_L := mk_L NULL NULL 0 false (replicate (Z.to_nat MAX_CALLBACKS) no_callback).

Section log.
Context {W : Type}.

(** [src/include/aco/log.h:17-24 log_Event] *)
Record log_Event := mk_event {
  ap : list va;
  fmt : Z;
  file : Z;
  ev_udata : Z;
  line : Z;
  ev_level : Z
}.

(** The logger, the memory of its strings, the characters on the console, the
    atomic [log_init_done], and what else the callbacks work on. *)
Record logs := mk_logs { L : log_L; text : bytes; console : list Z; log_init_done : Z; world : W }.
Definition set_L (f : log_L -> log_L) : M logs unit :=
  modify (fun s => mk_logs (f (L s)) (text s) (console s) (log_init_done s) (world s)).
Definition on_text {A} (m : M bytes A) : M logs A :=
  zoom text (fun t s => mk_logs (L s) t (console s) (log_init_done s) (world s)) m.
Definition emit (l : list Z) : M logs unit :=
  modify (fun s => mk_logs (L s) (text s) (console s ++ l) (log_init_done s) (world s)).

(** What the linker and the configuration decide. *)
Context (level_strings level_colors : list Z) (color_format plain_format std_buffer : Z).
Context (CONFIG_LOG_USE_COLOR : bool) (CONFIG_LOG_STDBUFFERSIZE : Z).
(** What a call of a function pointer does. *)
Context (call_lock : Z -> bool -> Z -> M logs unit) (call_fn : Z -> log_Event -> M logs unit).

(** [a[i]] of a static array of pointers. *)
Definition entry (a : list Z) (i : Z) : M logs Z :=
  if i <? 0 then fail BadPointer
  else match a !! Z.to_nat i with Some p => ret p | None => fail BadPointer end.
(** [length += n] on an [int]. *)
Definition add_length (length n : Z) : M logs Z :=
  if (- 2 ^ 31 <=? length + n) && (length + n <? 2 ^ 31) then ret (length + n) else fail Overflow.

(** [src/module/log/log.c:56-71 stdout_callback] *)
Definition stdout_callback (ev : log_Event) : M logs unit :=
  length ← (if CONFIG_LOG_USE_COLOR then
              color ← entry level_colors (ev_level ev);
              name ← entry level_strings (ev_level ev);
              on_text (snprintf_ (ev_udata ev) (u64 CONFIG_LOG_STDBUFFERSIZE) color_format
                [VInt color; VInt name; VInt (file ev); VInt (line ev)])
            else
              name ← entry level_strings (ev_level ev);
              on_text (snprintf_ (ev_udata ev) (u64 CONFIG_LOG_STDBUFFERSIZE) plain_format
                [VInt name; VInt (file ev); VInt (line ev)]));
  when (length <? CONFIG_LOG_STDBUFFERSIZE)
    (n ← on_text (vsnprintf_ (ev_udata ev + length) (u64 (CONFIG_LOG_STDBUFFERSIZE - length)) (fmt ev) (ap ev));
     _ ← add_length length n;
     ret tt);;
  '(chars, _) ← on_text (puts (ev_udata ev));
  emit chars.

(** [src/module/log/log.c:74-76 lock] *)
Definition lock : M logs unit :=
  l ← gets L;
  when (negb (L_lock l =? NULL)) (call_lock (L_lock l) true (L_udata l)).
(** [src/module/log/log.c:79-81 unlock] *)
Definition unlock : M logs unit :=
  l ← gets L;
  when (negb (L_lock l =? NULL)) (call_lock (L_lock l) false (L_udata l)).

(** [src/module/log/log.c:84-86 log_level_string] *)
Definition log_level_string (level : Z) : M logs Z := entry level_strings level.
(** [src/module/log/log.c:89-92 log_set_lock] *)
Definition log_set_lock (f u : Z) : M logs unit :=
  set_L (fun l => mk_L u f (L_level l) (L_quiet l) (L_callbacks l)).
(** [src/module/log/log.c:95-97 log_set_level] *)
Definition log_set_level (level : Z) : M logs unit :=
  set_L (fun l => mk_L (L_udata l) (L_lock l) level (L_quiet l) (L_callbacks l)).
(** [src/module/log/log.c:100-102 log_set_quiet] *)
Definition log_set_quiet (enable : bool) : M logs unit :=
  set_L (fun l => mk_L (L_udata l) (L_lock l) (L_level l) enable (L_callbacks l)).

(** [L.callbacks[i]] *)
Definition callback (i : nat) : M logs Callback :=
  l ← gets L;
  match L_callbacks l !! i with Some cb => ret cb | None => fail BadPointer end.
Definition set_callback (i : nat) (cb : Callback) : M logs unit :=
  set_L (fun l => mk_L (L_udata l) (L_lock l) (L_level l) (L_quiet l) (<[i := cb]> (L_callbacks l))).

(** [src/module/log/log.c:106-111 log_add_callback (loop)] From the index
    [MAX_CALLBACKS - n]. *)
Fixpoint add_callback_loop (n : nat) (cb : Callback) : M logs Z :=
  match n with
  | O => ret (- ENOBUFS)
  | S n' =>
    let i := (Z.to_nat MAX_CALLBACKS - n)%nat in
    old ← callback i;
    if fn old =? NULL then set_callback i cb;; ret 0 else add_callback_loop n' cb
  end.
(** [src/module/log/log.c:105-113 log_add_callback] *)
Definition log_add_callback (f u level : Z) : M logs Z :=
  add_callback_loop (Z.to_nat MAX_CALLBACKS) (mk_callback f u level).

(** [src/module/log/log.c:116-118 init_event] *)
Definition init_event (ev : log_Event) (u : Z) : log_Event :=
  mk_event (ap ev) (fmt ev) (file ev) u (line ev) (ev_level ev).

(** [src/module/log/log.c:138-146 log_log (callbacks)] From the index
    [MAX_CALLBACKS - n]. *)
Fixpoint dispatch_loop (n : nat) (ev : log_Event) : M logs unit :=
  match n with
  | O => ret tt
  | S n' =>
    cb ← callback (Z.to_nat MAX_CALLBACKS - n)%nat;
    if fn cb =? NULL then ret tt
    else
      when (cb_level cb <=? ev_level ev) (call_fn (fn cb) (init_event ev (udata cb)));;
      dispatch_loop n' ev
  end.

(** [src/module/log/log.c:121-149 log_log] *)
Definition log_log (level file line fmt : Z) (args : list va) : M logs unit :=
  let ev := mk_event args fmt file NULL line level in
  lock;;
  l ← gets L;
  when (negb (L_quiet l) && (L_level l <=? level)) (stdout_callback (init_event ev std_buffer));;
  dispatch_loop (Z.to_nat MAX_CALLBACKS) ev;;
  unlock.

(** ** The module *)

(** [src/module/log/log_module.c:10-22 lock_function] [take] and [give] are
    [lock] and [unlock] of a spinlock. *)
Definition lock_function (take give : Z -> M logs unit) (is_lock : bool) (u : Z) : M logs unit :=
  if is_lock then take u else give u.

(** [src/module/log/log_module.c:24-50 log_module_init] [init_lock] is that of
    spinlocks, [log_lock] and [lock_fn] the addresses of [log_lock] and
    [lock_function]; the configuration chooses the level, or none. *)
Definition log_module_init (init_lock : Z -> M logs unit) (log_lock lock_fn : Z) (config : option Z) : M logs Z :=
  done ← gets log_init_done;
  if negb (done =? 0) then ret 0
  else
    init_lock log_lock;;
    match config with
    | None => ret (- EINVAL)
    | Some level =>
      log_set_level level;;
      log_set_lock lock_fn log_lock;;
      log_set_quiet false;;
      modify (fun s => mk_logs (L s) (text s) (console s) (log_init_done s + 1) (world s));;
      ret 0
    end.
End log.
