(* ===== verification/LogSpec.v ===== *)
(** * Logging: properties

    A line is built in a static buffer of fixed size and never passes its end;
    the callbacks are a list of at most 32 subscribers, called in the order of
    their registration. *)
From S2P Require Import Prelude CString CStringSpec Double Printf PrintfSpec Log.

(** ** Subscribers *)

Section subscribers.
Context {W : Type}.
Notation event := (log_Event).
Notation state := (logs (W := W)).

(** The table of a logger with the subscribers [l]. *)
Definition holds (g : log_L) (l : list Callback) : Prop :=
  exists rest, L_callbacks g = l ++ rest /\ length (L_callbacks g) = Z.to_nat MAX_CALLBACKS /\
    Forall (fun c => fn c <> NULL) l /\ Forall (fun c => fn c = NULL) rest.

Lemma holds_init : holds L_init [].
Proof. exists (replicate (Z.to_nat MAX_CALLBACKS) no_callback). split; [done |]. split; [done |]. split; [done |]. by apply Forall_replicate. Qed.

Lemma callback_Ok (s : state) i cb : L_callbacks (L s) !! i = Some cb -> callback i s = Ok (cb, s).
Proof. intros H. unfold callback, bind, gets. by rewrite H. Qed.

Definition with_callbacks (cs : list Callback) (s : state) : state :=
  mk_logs (mk_L (L_udata (L s)) (L_lock (L s)) (L_level (L s)) (L_quiet (L s)) cs) (text s) (console s) (log_init_done s) (world s).

Lemma registered_entry (g : log_L) l i cb : holds g l -> l !! i = Some cb -> L_callbacks g !! i = Some cb /\ fn cb <> NULL.
Proof.
  intros (rest & -> & _ & Hl & _) Hi. split; [rewrite lookup_app_l; [done | by eapply lookup_lt_Some] |].
  by eapply (Forall_lookup_1 _ _ _ _ Hl).
Qed.
Lemma free_entry (g : log_L) l i : holds g l -> (length l <= i < Z.to_nat MAX_CALLBACKS)%nat -> exists cb, L_callbacks g !! i = Some cb /\ fn cb = NULL.
Proof.
  intros (rest & E & Hlen & _ & Hr) Hi. destruct (lookup_lt_is_Some_2 (L_callbacks g) i) as [cb Hcb]; [lia |].
  exists cb. split; [done |]. rewrite E, lookup_app_r in Hcb by lia. by eapply (Forall_lookup_1 _ _ _ _ Hr).
Qed.

(** The loop of [log_add_callback] passes the entries in use. *)
Lemma add_loop_Ok cb l n : forall (s : state), holds (L s) l -> (n <= Z.to_nat MAX_CALLBACKS)%nat ->
  (Z.to_nat MAX_CALLBACKS - n <= length l)%nat -> (length l <= Z.to_nat MAX_CALLBACKS)%nat ->
  add_callback_loop n cb s =
    if decide (length l < Z.to_nat MAX_CALLBACKS)%nat
    then Ok (0, with_callbacks (<[length l := cb]> (L_callbacks (L s))) s) else Ok (- ENOBUFS, s).
Proof.
  induction n as [|n IH]; intros s Hs Hn Hi Hl; cbn [add_callback_loop]; [by rewrite decide_False by lia |].
  set (i := (Z.to_nat MAX_CALLBACKS - S n)%nat) in *. destruct (decide (i = length l)) as [Ei | Ei].
  - destruct (free_entry _ l i Hs) as (old & Ho & Hf); [lia |]. mstep (callback_Ok s i old Ho). rewrite Hf. cbn [Z.eqb NULL].
    rewrite decide_True by lia. rewrite <-Ei. done.
  - destruct (lookup_lt_is_Some_2 l i) as [old Hold]; [lia |]. destruct (registered_entry _ l i old Hs Hold) as [Ho Hf].
    mstep (callback_Ok s i old Ho). rewrite (proj2 (Z.eqb_neq _ _) Hf). apply IH; [done | lia | lia | done].
Qed.

Lemma holds_length g l : holds g l -> (length l <= Z.to_nat MAX_CALLBACKS)%nat.
Proof. intros (rest & E & Hlen & _). rewrite E, length_app in Hlen. lia. Qed.

Lemma log_add_callback_Ok (s : state) l f u level : holds (L s) l ->
  log_add_callback f u level s =
    if decide (length l < Z.to_nat MAX_CALLBACKS)%nat
    then Ok (0, with_callbacks (<[length l := mk_callback f u level]> (L_callbacks (L s))) s) else Ok (- ENOBUFS, s).
Proof. intros Hs. apply add_loop_Ok; [done | done | lia | by eapply holds_length]. Qed.

Lemma holds_add (s : state) l f u level : holds (L s) l -> (length l < Z.to_nat MAX_CALLBACKS)%nat -> f <> NULL ->
  holds (L (with_callbacks (<[length l := mk_callback f u level]> (L_callbacks (L s))) s)) (l ++ [mk_callback f u level]).
Proof.
  intros (rest & E & Hlen & Hl & Hr) Hlt Hf. destruct rest as [|c rest]; [rewrite E, length_app in Hlen; cbn in Hlen; lia |].
  exists rest. cbn [with_callbacks L L_callbacks]. rewrite length_insert. apply Forall_cons in Hr as [_ Hr]. split; [| split; [done |]].
  - rewrite E. replace (length l) with (length l + 0)%nat by lia. rewrite insert_app_r. by rewrite <-app_assoc.
  - split; [| done]. apply Forall_app. split; [done |]. by apply Forall_singleton.
Qed.

(** ** Dispatch *)

Context (level_strings level_colors : list Z) (color_format plain_format std_buffer : Z) (use_color : bool) (size : Z).
Context (call_lock : Z -> bool -> Z -> M state unit) (call_fn : Z -> event -> M state unit).
(** Locks and subscribers leave the settings of the logger alone. *)
Context (Hlock : forall f b u s r s', call_lock f b u s = Ok (r, s') -> L s' = L s).
Context (Hfn : forall f ev s r s', call_fn f ev s = Ok (r, s') -> L s' = L s).

(** The subscribers that an event reaches are called one after the other. *)
Fixpoint notify (l : list Callback) (ev : event) : M state unit :=
  match l with
  | [] => ret tt
  | c :: l => call_fn (fn c) (init_event ev (udata c));; notify l ev
  end.
Definition reached (l : list Callback) (level : Z) : list Callback := filter (fun c => cb_level c <= level) l.

Lemma dispatch_loop_Ok ev n : forall (s : state) l k, holds (L s) l -> (n <= Z.to_nat MAX_CALLBACKS)%nat ->
  l = take (Z.to_nat MAX_CALLBACKS - n) l ++ k ->
  dispatch_loop call_fn n ev s = notify (reached k (ev_level ev)) ev s.
Proof using Hfn.
  induction n as [|n IH]; intros s l k Hs Hn Ek; cbn [dispatch_loop].
  - pose proof (holds_length _ _ Hs) as Hl. rewrite take_ge in Ek by lia. apply (f_equal length) in Ek. rewrite length_app in Ek.
    by destruct k; [| cbn in Ek; lia].
  - set (i := (Z.to_nat MAX_CALLBACKS - S n)%nat) in *. destruct (decide (i < length l)%nat) as [Hi | Hi].
    + destruct (lookup_lt_is_Some_2 l i Hi) as [c Hc]. destruct (registered_entry _ l i c Hs Hc) as [Ho Hf].
      mstep (callback_Ok s i c Ho). rewrite (proj2 (Z.eqb_neq _ _) Hf).
      assert (k = c :: drop (S i) l) as ->.
      { rewrite <-(drop_S l c i Hc). apply (app_inv_head (take i l)). by rewrite take_drop, <-Ek. }
      assert (forall s', L s' = L s -> dispatch_loop call_fn n ev s' = notify (reached (drop (S i) l) (ev_level ev)) ev s') as Hrest.
      { intros s' E'. apply (IH s' l); [by rewrite E' | lia |]. replace (Z.to_nat MAX_CALLBACKS - n)%nat with (S i) by lia. by rewrite take_drop. }
      unfold reached. rewrite filter_cons. destruct (cb_level c <=? ev_level ev) eqn:El.
      * rewrite decide_True by lia. cbn [when notify]. unfold bind at 1 2. destruct (call_fn _ _ s) as [[[] s']|] eqn:Ec; [| done].
        apply Hrest. by eapply Hfn.
      * rewrite decide_False by lia. cbn [when]. by apply Hrest.
    + rewrite take_ge in Ek by lia. assert (k = []) as -> by (apply (f_equal length) in Ek; rewrite length_app in Ek; by destruct k; [| cbn in Ek; lia]).
      destruct (free_entry _ l i Hs) as (c & Ho & Hf); [lia |]. mstep (callback_Ok s i c Ho). by rewrite Hf.
Qed.

(** The line of the console, if the event is to be shown there. *)
Notation stdout := (stdout_callback level_strings level_colors color_format plain_format use_color size).
Notation log := (log_log level_strings level_colors color_format plain_format std_buffer use_color size call_lock call_fn).
Definition shown (g : log_L) (level : Z) : bool := negb (L_quiet g) && (L_level g <=? level).

(** Computations that leave the settings alone. *)
Definition same_L {A} (m : M state A) : Prop := forall s r s', m s = Ok (r, s') -> L s' = L s.
Lemma same_ret {A} (x : A) : same_L (ret x).
Proof using Type. by intros s r s' [= _ <-]. Qed.
Lemma same_bind {A B} (m : M state A) (f : A -> M state B) : same_L m -> (forall x, same_L (f x)) -> same_L (bind m f).
Proof using Type. intros Hm Hf s r s' (x & s1 & E1 & E2)%bind_inv. transitivity (L s1); [by eapply Hf | by eapply Hm]. Qed.
Lemma same_text {A} (m : M bytes A) : same_L (on_text m).
Proof using Type. intros s r s'. unfold on_text, zoom. destruct (m _) as [[? ?]|]; [| done]. by intros [= _ <-]. Qed.
Lemma same_entry a i : same_L (entry a i).
Proof using Type. intros s r s'. unfold entry. destruct (i <? 0); [done |]. destruct (a !! _); [| done]. apply same_ret. Qed.
Lemma same_when (b : bool) (m : M state unit) : same_L m -> same_L (when b m).
Proof using Type. intros Hm. destruct b; [done | apply same_ret]. Qed.
Lemma same_emit l : same_L (emit l).
Proof using Type. by intros s r s' [= _ <-]. Qed.
Lemma same_add_length a b : same_L (add_length a b).
Proof using Type. unfold add_length. destruct (_ && _); [apply same_ret | done]. Qed.
Lemma same_lock b : same_L (l ← gets L; when (negb (L_lock l =? NULL)) (call_lock (L_lock l) b (L_udata l)))%aco.
Proof using Hlock.
  intros s r s' (l & s1 & [= <- <-] & E)%bind_inv. destruct (negb _); cbn [when] in E; [by eapply Hlock | by injection E as _ <-].
Qed.

Lemma same_stdout ev : same_L (stdout ev).
Proof using Type.
  unfold stdout_callback. apply same_bind.
  - destruct use_color; repeat (apply same_bind; [apply same_entry | intros ?]); apply same_text.
  - intros length. apply same_bind.
    + apply same_when, same_bind; [apply same_text | intros n]. apply same_bind; [apply same_add_length | intros _; apply same_ret].
    + intros _. apply same_bind; [apply same_text | intros [chars k]; apply same_emit].
Qed.

(** C23: the logger refines a list of at most 32 subscribers.  [log_add_callback]
    appends one, or returns [-ENOBUFS] and changes nothing when 32 are there;
    [log_log], between the calls of the lock, shows the line on the console
    unless it is quiet or the event below its level, and then calls each
    subscriber of at most the event's level once, with the event and its own
    data, in the order of their registration.  The callbacks and the function of
    the lock do what they like with the rest of the state, but leave the
    logger's settings alone. *)
Theorem log_refines_subscribers (s : state) (l : list Callback) :
  holds (L s) l ->
  (forall f u level, f <> NULL ->
    if decide (length l < Z.to_nat MAX_CALLBACKS)%nat
    then exists s', log_add_callback f u level s = Ok (0, s') /\ holds (L s') (l ++ [mk_callback f u level]) /\
      text s' = text s /\ console s' = console s /\ world s' = world s
    else log_add_callback f u level s = Ok (- ENOBUFS, s)) /\
  (forall level file line fmt args, let ev := mk_event args fmt file NULL line level in
    log level file line fmt args s = (
      lock call_lock;;
      when (shown (L s) level) (stdout (init_event ev std_buffer));;
      notify (reached l level) ev;;
      unlock call_lock)%aco s).
Proof using Hfn Hlock.
  intros Hs. split.
  - intros f u level Hf. rewrite (log_add_callback_Ok s l f u level Hs). case_decide as Hl; [| done].
    eexists. split; [done |]. split; [by apply holds_add | done].
  - intros level file line fmt args ev. unfold log_log. fold ev. unfold bind at 1 5.
    destruct (lock call_lock s) as [[[] s1]|] eqn:E1; [| done]. pose proof (same_lock true s tt s1 E1) as L1.
    unfold bind at 1, gets at 1. rewrite L1. fold (shown (L s) level). unfold bind at 1 3.
    destruct (when _ _ s1) as [[[] s2]|] eqn:E2; [| done]. pose proof (same_when _ _ (same_stdout _) s1 tt s2 E2) as L2.
    unfold bind at 1 2. rewrite (dispatch_loop_Ok ev _ s2 l l); [done | by rewrite L2, L1 | done | done].
Qed.
End subscribers.

(** ** The console line *)

(** A C string stops at the first zero. *)
Fixpoint c_str (l : list Z) : list Z := match l with [] => [] | c :: l => if c =? 0 then [] else c :: c_str l end.

Lemma strlen_line l : forall m p i fuel, bytes_at m (p + i) (l ++ [0]) -> (length l < fuel)%nat ->
  strlen_loop fuel p i m = Ok (i + len (c_str l), m).
Proof.
  induction l as [|c l IH]; intros m p i [|fuel] [Hc Hb] Hf; cbn [length] in Hf; try lia; cbn [strlen_loop c_str];
    mstep (load_Ok m _ _ Hc).
  - cbn. by rewrite Z.add_0_r.
  - destruct (c =? 0) eqn:E0; [by rewrite Z.add_0_r |]. rewrite (IH m p (i + 1) fuel); [| by rewrite Z.add_assoc | lia].
    unfold len. cbn [length]. do 2 f_equal. lia.
Qed.

Lemma bytes_at_c_str m p l : bytes_at m p l -> bytes_at m p (c_str l).
Proof. revert p. induction l as [|c l IH]; intros p; cbn; [done |]. intros [Hc Hb]. destruct (c =? 0); cbn; auto. Qed.

Lemma puts_Ok m p l : p <> NULL -> bytes_at m p (l ++ [0]) -> puts p m = Ok ((c_str l ++ [10], len (c_str l) + 1), m).
Proof.
  intros Hp Hb. assert (strlen p m = Ok (len (c_str l), m)) as E.
  { unfold strlen. rewrite (proj2 (Z.eqb_neq _ _) Hp). unfold str_fuel. unfold bind, gets.
    rewrite (strlen_line l m p 0); [done | by rewrite Z.add_0_r |]. apply bytes_at_size in Hb. rewrite length_app in Hb. cbn in Hb. lia. }
  unfold puts. mstep E. set (loop := fix loop (n : nat) (i : Z) : M (gmap Z Z) (list Z) := match n with O => _ | S n' => _ end).
  assert (forall k i, bytes_at m (p + i) k -> loop (length k) i m = Ok (k ++ [10], m)) as H.
  { induction k as [|c k IH]; intros i; [done |]. intros [Hc Hk]. cbn [length loop]. fold loop. mstep (load_Ok m _ _ Hc).
    mstep (IH (i + 1) ltac:(by rewrite Z.add_assoc)). done. }
  unfold len at 1. rewrite Nat2Z.id. erewrite bind_Ok; [| apply (H _ 0); rewrite Z.add_0_r; apply bytes_at_c_str; by apply bytes_at_app in Hb as [Hb _]].
  done.
Qed.

(** A buffer beside the memory that is read. *)
Lemma beside_keep (r w w' : bytes) b n : room w b n -> w ##ₘ r -> (forall q, q < b \/ b + n <= q -> w' !! q = w !! q) -> w' ##ₘ r.
Proof.
  intros Hr Hd Hw. apply map_disjoint_spec. intros q x y Hx Hy. destruct (decide (q < b \/ b + n <= q)) as [Hq | Hq].
  - rewrite Hw in Hx by done. by eapply map_disjoint_spec.
  - destruct (Hr (q - b)) as [z Hz]; [lia |]. replace (b + (q - b)) with q in Hz by lia. by eapply map_disjoint_spec.
Qed.
Lemma bytes_union (r w : bytes) p l : w ##ₘ r -> bytes_at w p l -> bytes_at (r ∪ w) p l.
Proof.
  intros Hd. rewrite !bytes_at_lookup. intros H i c Hi. rewrite lookup_union_r; [by apply H |].
  eapply map_disjoint_Some_l; [done | by apply H].
Qed.

Section line.
Context {W : Type}.
Context (level_strings level_colors : list Z) (color_format plain_format : Z) (use_color : bool) (size : Z).
Notation event := (log_Event).
Notation state := (logs (W := W)).
Notation stdout := (stdout_callback level_strings level_colors color_format plain_format use_color size).
Notation vsn := (vsnprintf_).

(** The format before the message, with its arguments; none for a level out of
    range. *)
Definition prefix_of (ev : event) : option (Z * list va) :=
  let i := Z.to_nat (ev_level ev) in
  if ev_level ev <? 0 then None
  else if use_color then
    match level_colors !! i, level_strings !! i with
    | Some color, Some name => Some (color_format, [VInt color; VInt name; VInt (file ev); VInt (line ev)])
    | _, _ => None
    end
  else
    match level_strings !! i with
    | Some name => Some (plain_format, [VInt name; VInt (file ev); VInt (line ev)])
    | None => None
    end.

(** The callback, once the format is chosen. *)
Lemma stdout_eq ev f a (s : state) : prefix_of ev = Some (f, a) -> stdout ev s = (
  length ← on_text (vsn (ev_udata ev) (u64 size) f a);
  when (length <? size)
    (n ← on_text (vsn (ev_udata ev + length) (u64 (size - length)) (fmt ev) (ap ev)); _ ← add_length length n; ret tt);;
  '(chars, _) ← on_text (puts (ev_udata ev));
  emit chars)%aco s.
Proof using Type.
  unfold prefix_of, stdout_callback, entry. destruct (ev_level ev <? 0); [done |]. destruct use_color.
  - destruct (level_colors !! _); [| done]. destruct (level_strings !! _); [| done]. intros [= <- <-]. done.
  - destruct (level_strings !! _); [| done]. intros [= <- <-]. done.
Qed.

Lemma on_text_Ok {A} (m : M bytes A) (s : state) x t : m (text s) = Ok (x, t) ->
  on_text m s = Ok (x, mk_logs (L s) t (console s) (log_init_done s) (world s)).
Proof using Type. intros E. unfold on_text, zoom. by rewrite E. Qed.

Lemma print_Ok (s : state) b k : b <> NULL -> bytes_at (text s) b (k ++ [0]) ->
  (x ← on_text (puts b); let '(chars, _) := x : list Z * Z in emit chars)%aco s =
    Ok (tt, mk_logs (L s) (text s) (console s ++ c_str k ++ [10]) (log_init_done s) (world s)).
Proof using Type. intros Hb Hk. mstep (on_text_Ok _ s _ _ (puts_Ok _ _ _ Hb Hk)). done. Qed.

(** C39: a line on the console is the level, the file, the number and the
    message, cut to the size of the static buffer: for parts of any
    length, together below 2 ^ 31, no byte outside the buffer is written, the first [size - 1] characters
    of their concatenation are left there with a terminator, and these, up to
    their first zero, and a newline are what is printed. *)
Theorem log_line_bounded (r : bytes) (ev : event) (f : Z) (a : list va) (n1 n2 : Z) :
  prefix_of ev = Some (f, a) -> 0 < size < 2 ^ 31 ->
  text_length r f a n1 -> text_length r (fmt ev) (ap ev) n2 -> n1 + n2 < 2 ^ 31 ->
  exists prefix message, len prefix = n1 /\ len message = n2 /\
    forall (s : state) (w : bytes),
      text s = r ∪ w -> w ##ₘ r -> 0 < ev_udata ev -> room w (ev_udata ev) size ->
      exists w', stdout ev s = Ok (tt, mk_logs (L s) (r ∪ w')
          (console s ++ c_str (take (Z.to_nat (size - 1)) (prefix ++ message)) ++ [10]) (log_init_done s) (world s)) /\
        bytes_at w' (ev_udata ev) (take (Z.to_nat (size - 1)) (prefix ++ message) ++ [0]) /\
        (forall q, q < ev_udata ev \/ ev_udata ev + size <= q -> w' !! q = w !! q).
Proof using Type.
  intros Hpre Hsize E1 E2 Hlen.
  destruct (vsnprintf_text _ _ _ _ E1) as (prefix & N1 & H1).
  destruct (vsnprintf_text _ _ _ _ E2) as (message & N2 & H2).
  exists prefix, message. split; [done |]. split; [done |]. intros s w Ht Hd Hb Hr. set (b := ev_udata ev) in *.
  pose proof (len_nonneg prefix) as P1. pose proof (len_nonneg message) as P2. symmetry in N1, N2.
  rewrite s32_small in H1, H2 by lia.
  rewrite (stdout_eq ev f a s Hpre). fold b. rewrite u64_small by lia.
  destruct (H1 b size w) as (w1 & V1 & B1 & F1); [unfold NULL; lia | lia | done | done |]. specialize (B1 ltac:(lia)).
  mstep (on_text_Ok _ s n1 (r ∪ w1) ltac:(by rewrite Ht)).
  assert (w1 ##ₘ r) as D1 by (apply (beside_keep r w w1 b size); [done | done |]; intros q Hq; apply F1; lia).
  destruct (n1 <? size) eqn:El; cbn [when].
  - apply Z.ltb_lt in El. rewrite u64_small by lia.
    assert (bytes_at w1 b (prefix ++ [0])) as B1' by (rewrite take_ge in B1 by (unfold len in *; lia); done).
    assert (room w1 (b + n1) (size - n1)) as Hr1.
    { intros i Hi. destruct (decide (i = 0)) as [-> | Hi0].
      - apply bytes_at_app in B1' as [_ [B0 _]]. rewrite N1, Z.add_0_r. by eexists.
      - rewrite F1 by lia. replace (b + n1 + i) with (b + (n1 + i)) by lia. apply Hr. lia. }
    destruct (H2 (b + n1) (size - n1) w1) as (w2 & V2 & B2 & F2); [unfold NULL; lia | lia | done | done |]. specialize (B2 ltac:(lia)).
    rewrite bind_bind. mstep (on_text_Ok _ (mk_logs (L s) (r ∪ w1) (console s) (log_init_done s) (world s)) n2 (r ∪ w2) V2).
    unfold add_length. rewrite (proj2 (Z.leb_le _ _)), (proj2 (Z.ltb_lt _ _)) by lia. cbn [andb L console log_init_done world].
    assert (forall q, q < b \/ b + size <= q -> w2 !! q = w !! q) as F.
    { intros q Hq. rewrite F2 by lia. apply F1. lia. }
    assert (bytes_at w2 b (take (Z.to_nat (size - 1)) (prefix ++ message) ++ [0])) as B.
    { rewrite take_app_ge by (unfold len in *; lia). rewrite <-app_assoc. apply bytes_at_app. split.
      - apply bytes_at_app in B1' as [B1' _]. apply (bytes_at_frame w1); [done |]. intros q Hq. apply F2. lia.
      - rewrite <-N1. by replace (Z.to_nat (size - 1) - length prefix)%nat with (Z.to_nat (size - n1 - 1)) by (unfold len in *; lia). }
    exists w2. split; [| done]. erewrite bind_Ok by reflexivity.
    refine (print_Ok (mk_logs (L s) (r ∪ w2) (console s) (log_init_done s) (world s)) b _ _ _); [unfold NULL; lia |].
    apply bytes_union; [by apply (beside_keep r w w2 b size) | done].
  - apply Z.ltb_ge in El. exists w1.
    assert (take (Z.to_nat (size - 1)) (prefix ++ message) = take (Z.to_nat (size - 1)) prefix) as -> by (apply take_app_le; unfold len in *; lia).
    split; [| split; [done |]; intros q Hq; apply F1; lia]. erewrite bind_Ok by reflexivity.
    refine (print_Ok (mk_logs (L s) (r ∪ w1) (console s) (log_init_done s) (world s)) b _ _ _); [unfold NULL; lia | by apply bytes_union].
Qed.
(** The module is initialised once; without a level in the configuration it
    refuses, after the lock was initialised. *)
Lemma log_module_init_Ok (init_lock : Z -> M state unit) log_lock lock_fn config (s s1 : state) :
  init_lock log_lock s = Ok (tt, s1) ->
  log_module_init init_lock log_lock lock_fn config s =
    if log_init_done s =? 0 then
      match config with
      | None => Ok (- EINVAL, s1)
      | Some level => Ok (0, mk_logs (mk_L log_lock lock_fn level false (L_callbacks (L s1))) (text s1) (console s1)
          (log_init_done s1 + 1) (world s1))
      end
    else Ok (0, s).
Proof using Type.
  intros E. unfold log_module_init. unfold bind at 1, gets at 1. destruct (log_init_done s =? 0); [| done]. cbn [negb].
  mstep E. by destruct config.
Qed.
End line.

(** A quiet logger with two subscribers; its world is the list of calls. *)
Definition quiet_demo : logs (W := list (Z * Z)) :=
  mk_logs (mk_L 0 0 LOG_TRACE true ([mk_callback 7 70 LOG_INFO; mk_callback 9 90 LOG_ERROR] ++ replicate 30 no_callback)) ∅ [] 1 [].
Definition note_call (f : Z) (ev : log_Event) : M (logs (W := list (Z * Z))) unit :=
  modify (fun s => mk_logs (L s) (text s) (console s) (log_init_done s) (world s ++ [(f, ev_udata ev)])).
Definition no_lock (f : Z) (b : bool) (u : Z) : M (logs (W := list (Z * Z))) unit := ret tt.

Lemma log_refines_subscribers_witness :
  log_log [] [] 0 0 0 false 0 no_lock note_call LOG_WARN 0 0 0 [] quiet_demo =
    Ok (tt, mk_logs (L quiet_demo) ∅ [] 1 [(7, 70)]) /\
  exists s', log_add_callback 8 80 LOG_DEBUG quiet_demo = Ok (0, s') /\
    holds (L s') [mk_callback 7 70 LOG_INFO; mk_callback 9 90 LOG_ERROR; mk_callback 8 80 LOG_DEBUG].
Proof.
  destruct (log_refines_subscribers [] [] 0 0 0 false 0 no_lock note_call) with
    (s := quiet_demo) (l := [mk_callback 7 70 LOG_INFO; mk_callback 9 90 LOG_ERROR]) as [H1 H2].
  - by intros f b u s r s' [= _ <-].
  - by intros f ev s r s' [= _ <-].
  - exists (replicate 30 no_callback). split; [done |]. split; [done |]. split; [repeat constructor; done |]. by apply Forall_replicate.
  - split; [rewrite H2; vm_compute; reflexivity |]. specialize (H1 8 80 LOG_DEBUG ltac:(done)).
    rewrite decide_True in H1 by (vm_compute; lia). destruct H1 as (s' & E & Hs & _). exists s'. split; [exact E | exact Hs].
Defined.

(** The strings of a log call: ["INFO"], ["a.c"], ["%-5s %s:%d: "] and ["hi %d"],
    and a buffer of 16 bytes. *)
Definition line_mem : bytes :=
  list_to_map (zip (seqZ 0x100 5) [73; 78; 70; 79; 0] ++ zip (seqZ 0x110 4) [97; 46; 99; 0] ++
    zip (seqZ 0x120 13) [37; 45; 53; 115; 32; 37; 115; 58; 37; 100; 58; 32; 0] ++ zip (seqZ 0x140 6) [104; 105; 32; 37; 100; 0]).
Definition line_buffer : bytes := list_to_map (zip (seqZ 0x1000 16) (replicate 16 0)).
Definition line_event : log_Event := mk_event [VInt 7] 0x140 0x110 0x1000 3 LOG_INFO.

Lemma log_line_bounded_witness :
  exists prefix message w', len prefix = 13 /\ len message = 4 /\
    stdout_callback [0; 0; 0x100] [] 0 0x120 false 16 line_event
      (mk_logs L_init (line_mem ∪ line_buffer) [] 1 tt) =
    Ok (tt, mk_logs L_init (line_mem ∪ w') (c_str (take 15 (prefix ++ message)) ++ [10]) 1 tt).
Proof.
  destruct (log_line_bounded (W := unit)
    [0; 0; 0x100] [] 0 0x120 false 16 line_mem line_event 0x120 [VInt 0x100; VInt 0x110; VInt 3] 13 4) as (prefix & message & N1 & N2 & H).
  - reflexivity.
  - lia.
  - exists 0, line_mem. vm_compute. reflexivity.
  - exists 0, line_mem. vm_compute. reflexivity.
  - lia.
  - destruct (H (mk_logs L_init (line_mem ∪ line_buffer) [] 1 tt) line_buffer eq_refl) as (w' & E & _).
    + apply map_disjoint_dom. apply (bool_decide_unpack _). by vm_compute.
    + cbn. lia.
    + intros i Hi. cbn [ev_udata line_event].
      assert (Forall (fun i => is_Some (line_buffer !! (0x1000 + i))) (seqZ 0 16)) as Hall by (apply (bool_decide_unpack _); by vm_compute).
      rewrite Forall_forall in Hall. apply Hall, elem_of_seqZ. lia.
    + exists prefix, message, w'. split; [exact N1 |]. split; [exact N2 | exact E].
Defined.
