(* ===== verification/Slab.v ===== *)
(** * The slab allocator

    [include/mm/slab.h], [module/mm/kmem_cache/slab.c] and
    [module/mm/kmem_cache/kmem_cache_init.c], on top of [Buddy].

    A slab header sits at the start of its block of pages; headers are kept in a
    map from that address.  Caches are kept in a map from the address of their
    [struct kmem_cache], whose three list heads are nodes of the list memory.
    The colour of a slab hashes the four bytes of a local variable; the hash
    reads past it ([CString.SDBMHash] tests offsets 0, 2, 4 and 6), so the bytes
    that follow it on the stack are a parameter. *)
From S2P Require Import Prelude DList Cpu Locks KernelMap PageFrame CString ByteOrder Buddy.

(** ** One slab *)

(** [src/module/mm/kmem_cache/slab.c:11-19 struct slab_s] [mem_index] is the
    array at [mem_index_start]. *)
Record slab_t := mk_slab {
  obj_all : Z; obj_free : Z; obj_size : Z; mem_free_head : Z; mem_free_tail : Z;
  mem_index_start : Z; mem_obj_start : Z; mem_index : list Z
}.

Definition set_obj_free (n : Z) (s : slab_t) : slab_t :=
  mk_slab (obj_all s) n (obj_size s) (mem_free_head s) (mem_free_tail s)
    (mem_index_start s) (mem_obj_start s) (mem_index s).
Definition set_free_head (v : Z) (s : slab_t) : slab_t :=
  mk_slab (obj_all s) (obj_free s) (obj_size s) v (mem_free_tail s)
    (mem_index_start s) (mem_obj_start s) (mem_index s).
Definition set_free_tail (v : Z) (s : slab_t) : slab_t :=
  mk_slab (obj_all s) (obj_free s) (obj_size s) (mem_free_head s) v
    (mem_index_start s) (mem_obj_start s) (mem_index s).
Definition set_index_arr (l : list Z) (s : slab_t) : slab_t :=
  mk_slab (obj_all s) (obj_free s) (obj_size s) (mem_free_head s) (mem_free_tail s)
    (mem_index_start s) (mem_obj_start s) l.

Definition sizeof_slab_t : Z := 40.
Definition sizeof_int : Z := 4.

(** [mem_index_start[i]], read and written. *)
Definition get_index (i : Z) : M slab_t Z := fun s =>
  if i <? 0 then Err BadPointer
  else match mem_index s !! Z.to_nat i with Some v => Ok (v, s) | None => Err BadPointer end.
Definition set_index (i v : Z) : M slab_t unit := fun s =>
  if (i <? 0) || (Z.of_nat (length (mem_index s)) <=? i) then Err BadPointer
  else Ok (tt, set_index_arr (<[Z.to_nat i := v]> (mem_index s)) s).

(** [src/module/mm/kmem_cache/slab.c:48-54 init_slab_xip (index loop)] *)
Definition init_index (obj_num : Z) : list Z :=
  map (fun i => if negb (i =? obj_num - 1) then i + 1 else i) (seqZ 0 obj_num).

(** [src/module/mm/kmem_cache/slab.c:31-39 init_slab_xip (colour)] The local
    [offset] and the stack after it, as bytes at some address. *)
Definition slab_colour (stack_after : list Z) (offset padding : Z) : M (gmap Z slab_t) Z := fun s =>
  if padding =? 0 then Ok (0, s)
  else
    match SDBMHash 16 sizeof_int (map_seqZ 16 (le_bytes 4 (u32 offset) ++ stack_after)) with
    | Ok (h, _) => Ok (Z.land (s32 h mod padding) (Z.lnot 3), s)
    | Err e => Err e
    end.

(** [src/module/mm/kmem_cache/slab.c:23-58 init_slab_xip] *)
Definition init_slab_xip (stack_after : list Z) (start size osize offset : Z) :
    M (gmap Z slab_t) (option Z) :=
  ASSERT (negb (start =? NULL) && (0 <? size) && (0 <? osize) && (osize <? size)
          && VAL_IS_PAGE_ALIGNED start);;
  let obj_num := s32 (u64 (size - sizeof_slab_t) / (sizeof_int + osize)) in
  let padding := s32 (u64 (size - sizeof_slab_t) mod (sizeof_int + osize)) in
  offset ← slab_colour stack_after offset padding;
  ASSERT (0 <=? offset);;
  if obj_num <=? 0 then ret None
  else
    let index_start := start + sizeof_slab_t in
    modify (fun slabs => <[start :=
      mk_slab obj_num obj_num osize 0 (obj_num - 1) index_start
        (u64 (index_start + sizeof_int * obj_num + offset)) (init_index obj_num)]> slabs);;
    ret (Some start).

(** [src/module/mm/kmem_cache/slab.c:60-78 slab_alloc] *)
Definition slab_alloc : M slab_t Z :=
  s ← gets id;
  if obj_free s =? 0 then ret NULL
  else
    let index := mem_free_head s in
    ASSERT (negb (index =? -1));;
    let r := u64 (mem_obj_start s + s32 (obj_size s * index)) in
    v ← get_index index;
    modify (set_free_head v);;
    set_index index (-1);;
    modify (fun s => set_obj_free (obj_free s - 1) s);;
    s ← gets id;
    when (obj_free s =? 0) (modify (set_free_head (-1));; modify (set_free_tail (-1)));;
    ret r.

(** [src/module/mm/kmem_cache/slab.c:80-105 slab_free] *)
Definition slab_free (address : Z) : M slab_t unit :=
  ASSERT (negb (address =? NULL));;
  s ← gets id;
  ASSERT ((mem_obj_start s <=? address) &&
          (address <? u64 (mem_obj_start s + s32 (obj_all s * obj_size s))));;
  let index := s32 (address - mem_obj_start s) in
  ASSERT (Z.rem index (obj_size s) =? 0);;
  let index := Z.quot index (obj_size s) in
  v ← get_index index;
  ASSERT (v =? -1);;
  (if obj_free s =? 0 then
     ASSERT ((mem_free_head s =? -1) && (mem_free_tail s =? -1));;
     modify (set_free_head index);;
     modify (set_free_tail index);;
     set_index index index
   else
     ASSERT (negb (mem_free_head s =? -1) && negb (mem_free_tail s =? -1));;
     set_index (mem_free_tail s) index;;
     set_index index index;;
     modify (set_free_tail index));;
  modify (fun s => set_obj_free (obj_free s + 1) s).

(** ** Caches *)

(** [src/include/mm/slab.h:7-18 struct kmem_cache] *)
Record kmem_cache := mk_cache {
  kc_lk : Z; obj_num : Z; kc_obj_size : Z; pg_order : Z; pg_orlimit : Z; pg_orhas : Z;
  color_offset : Z
}.

Definition sizeof_kmem_cache : Z := 80.
(** [&kmm_cache->free], [&kmm_cache->full] and [&kmm_cache->partial]. *)
Definition free_of (c : Z) : Z := c + 32.
Definition full_of (c : Z) : Z := c + 48.
Definition partial_of (c : Z) : Z := c + 64.

Definition with_kc_lk (v : Z) (c : kmem_cache) : kmem_cache :=
  mk_cache v (obj_num c) (kc_obj_size c) (pg_order c) (pg_orlimit c) (pg_orhas c) (color_offset c).
Definition with_obj_num (v : Z) (c : kmem_cache) : kmem_cache :=
  mk_cache (kc_lk c) v (kc_obj_size c) (pg_order c) (pg_orlimit c) (pg_orhas c) (color_offset c).
Definition with_pg_orhas (v : Z) (c : kmem_cache) : kmem_cache :=
  mk_cache (kc_lk c) (obj_num c) (kc_obj_size c) (pg_order c) (pg_orlimit c) v (color_offset c).
Definition with_color (v : Z) (c : kmem_cache) : kmem_cache :=
  mk_cache (kc_lk c) (obj_num c) (kc_obj_size c) (pg_order c) (pg_orlimit c) (pg_orhas c) v.

(** [src/include/mm/slab.h:30-36 struct kmem_cache_info] *)
Record kmm_cinfo := mk_cinfo {
  i_obj_num : Z; i_obj_size : Z; i_pg_orlimit : Z; i_pg_orhas : Z; i_pg_order : Z
}.

Record kmem := mk_kmem { bud : buddy; slabs : gmap Z slab_t; caches : gmap Z kmem_cache }.

Definition on_bud {A} (m : M buddy A) : M kmem A :=
  zoom bud (fun b s => mk_kmem b (slabs s) (caches s)) m.
Definition on_slabs {A} (m : M (gmap Z slab_t) A) : M kmem A :=
  zoom slabs (fun x s => mk_kmem (bud s) x (caches s)) m.
Definition on_caches {A} (m : M (gmap Z kmem_cache) A) : M kmem A :=
  zoom caches (fun x s => mk_kmem (bud s) (slabs s) x) m.
(** A computation on the slab header at an address. *)
Definition at_slab {A} (p : Z) (m : M slab_t A) : M kmem A := on_slabs (fun sl =>
  match sl !! p with
  | None => Err BadPointer
  | Some s => match m s with
              | Ok (a, s') => Ok (a, <[p := s']> sl)
              | Err e => Err e
              end
  end).
Definition get_slab (p : Z) : M kmem slab_t := on_slabs (load p).
Definition get_cache (c : Z) : M kmem kmem_cache := on_caches (load c).
Definition set_cache (c : Z) (f : kmem_cache -> kmem_cache) : M kmem unit := on_caches (update c f).
Definition on_list {A} (m : M heap A) : M kmem A := on_bud (on_nodes m).

Definition lock_cache (c : Z) : M kmem unit :=
  k ← get_cache c; if kc_lk k =? 0 then fail Deadlock else set_cache c (with_kc_lk 0).
Definition unlock_cache (c : Z) : M kmem unit :=
  set_cache c (fun k => with_kc_lk (Z.lor (kc_lk k) 1) k).

Section slab.
Context (km : kernel_mapping) (g_buddy : Z) (stack_after : list Z).
(** The address of [slab_kmm_cache]. *)
Context (slab_kmm_cache : Z).

(** The list node of a page, and the page of a list node. *)
Definition page_node (pg : Z) : M kmem Z := gets (fun s => buddy_node (pgframe_pages (frames_of (bud s))) pg).
Definition node_page (n : Z) : M kmem Z := gets (fun s => node_entry (pgframe_pages (frames_of (bud s))) n).

(** [src/module/mm/kmem_cache/slab.c:109-118 set_pgfm_aslab] *)
Definition set_pgfm_aslab (pg : Z) : M kmem unit := on_bud (
  p ← get_page pg;
  ASSERT (bool_decide (pgtype p = PAGE_BUDDYALLOCATOR) && (buddy_flags p =? PG_BUDDY_FLAG_HEAD));;
  lock_pgfm pg;;
  set_page pg (with_type SLAB_ALLOCATOR);;
  unlock_pgfm pg).

(** [src/module/mm/kmem_cache/slab.c:120-129 set_pgfm_asbuddy] *)
Definition set_pgfm_asbuddy (pg : Z) : M kmem unit := on_bud (
  p ← get_page pg;
  ASSERT (bool_decide (pgtype p = SLAB_ALLOCATOR) && (buddy_flags p =? PG_BUDDY_FLAG_HEAD));;
  lock_pgfm pg;;
  set_page pg (with_type PAGE_BUDDYALLOCATOR);;
  unlock_pgfm pg).

(** [src/module/mm/kmem_cache/slab.c:131-143 init_slab] *)
Definition init_slab (pg osize offset : Z) : M kmem (option Z) :=
  p ← on_bud (get_page pg);
  ASSERT (bool_decide (pgtype p = SLAB_ALLOCATOR) && (buddy_flags p =? PG_BUDDY_FLAG_HEAD));;
  on_bud (lock_pgfm pg);;
  let va := pg2va km pg in
  r ← on_slabs (init_slab_xip stack_after va (s32 (u64 (Z.shiftl 1 (buddy_order p) * PAGE_SIZE))) osize offset);
  on_bud (unlock_pgfm pg);;
  ret r.

(** [(int)(((uintptr_t)offset + 1) & 0x7fffffff)] *)
Definition next_color (c : Z) : Z := Z.land (u64 (c + 1)) 0x7fffffff.

(** [src/module/mm/kmem_cache/slab.c:264-270 kmem_obj_alloc (growth, the slab)]
    The slab [sl] of the block [pg] is counted and linked. *)
Definition link_slab (c pg sl : Z) : M kmem unit :=
  s ← get_slab sl;
  ASSERT (obj_all s =? obj_free s);;
  set_cache c (fun k => with_color (next_color (color_offset k)) k);;
  set_cache c (fun k => with_obj_num (s32 (obj_num k + obj_free s)) k);;
  set_cache c (fun k => with_pg_orhas (s32 (pg_orhas k + 1)) k);;
  on_bud (lock_pgfm pg);;
  n ← page_node pg;
  on_list (list_add_tail n (free_of c));;
  on_bud (unlock_pgfm pg).

(** [src/module/mm/kmem_cache/slab.c:249-263 kmem_obj_alloc (growth)] With
    [link_slab], the same steps as lines 177-194 of [kmem_cache_init]. *)
Definition grow (c : Z) : M kmem bool :=
  k ← get_cache c;
  pgfm ← on_bud (bkp_alloc_zero km g_buddy (pg_order k));
  match pgfm with
  | None => ret false
  | Some pg =>
    set_pgfm_aslab pg;;
    k ← get_cache c;
    r ← init_slab pg (kc_obj_size k) (color_offset k);
    match r with
    | None =>
      set_pgfm_asbuddy pg;;
      on_bud (bkp_free km g_buddy (Some pg));;
      ret false
    | Some sl => link_slab c pg sl;; ret true
    end
  end.

(** [src/module/mm/kmem_cache/slab.c:202-209 kmem_cache_init (a slab is released)] *)
Definition release_slab (iterator : Z) : M kmem unit :=
  pg ← node_page iterator;
  on_bud (lock_pgfm pg);;
  n ← page_node pg;
  on_list (list_del n);;
  on_bud (set_page pg (with_type PAGE_BUDDYALLOCATOR));;
  p ← on_bud (get_page pg);
  ASSERT (buddy_flags p =? PG_BUDDY_FLAG_HEAD);;
  on_bud (unlock_pgfm pg);;
  on_bud (bkp_free km g_buddy (Some pg)).

(** [src/module/mm/kmem_cache/slab.c:197-201 kmem_cache_init (release loop)]
    The same loop as lines 222-231. *)
Definition release_free (c : Z) : M kmem unit :=
  first ← on_list (get_next (free_of c));
  fuel ← gets (fun s => list_fuel (nodes (frames_of (bud s))));
  list_for_each_safe (A := unit) (R := unit) (fun s => nodes (frames_of (bud s))) fuel (free_of c) first
    (fun _ iterator => release_slab iterator;; ret (Next tt)) tt;;
  ret tt.

(** The bytes at [p] become a list head: a node of the list memory. *)
Definition raw_list_head (p : Z) : M kmem unit :=
  on_list (fun h => Ok (tt, if decide (is_Some (h !! p)) then h else <[p := mk_list_head 0 0]> h)).
(** The bytes at [c] become a [kmem_cache]. *)
Definition raw_cache (c : Z) : M kmem unit :=
  on_caches (fun m => Ok (tt, if decide (is_Some (m !! c)) then m else <[c := mk_cache 0 0 0 0 0 0 0]> m)).

(** [src/module/mm/kmem_cache/slab.c:165-174 kmem_cache_init (fields)] *)
Definition init_fields (c osize order pgor_limit : Z) : M kmem unit :=
  raw_cache c;;
  raw_list_head (free_of c);; raw_list_head (full_of c);; raw_list_head (partial_of c);;
  set_cache c (with_kc_lk 1);;
  on_list (INIT_LIST_HEAD (free_of c));;
  on_list (INIT_LIST_HEAD (full_of c));;
  on_list (INIT_LIST_HEAD (partial_of c));;
  set_cache c (fun k => mk_cache (kc_lk k) 0 osize order pgor_limit 0 (Z.land c 0x7fffffff)).

(** [src/module/mm/kmem_cache/slab.c:157-211 kmem_cache_init] *)
Definition kmem_cache_init (c osize order pgor_limit init_pgor_alloc : Z) : M kmem Z :=
  if (c =? NULL) || (osize <=? 0) || negb ((0 <=? order) && (order <? MAX_ORDER))
     || (pgor_limit <=? 0) || (init_pgor_alloc <? 0) || (pgor_limit <? init_pgor_alloc)
     || (u64 (Z.shiftl 1 order * PAGE_SIZE) <=? u64 osize)
  then ret (- EFAULT)
  else
    init_fields c osize order pgor_limit;;
    r ← for_up (A := unit) (Z.to_nat init_pgor_alloc) 0 (fun _ _ =>
      ok ← grow c;
      ret (if ok : bool then Next tt else Return tt)) tt;
    match r with
    | Next _ => ret 0
    | Return _ => release_free c;; ret (- ENOMEM)
    end.

(** [src/module/mm/kmem_cache/slab.c:213-235 kmem_cache_deinit] The [memset]
    clears [sizeof(kmm_cache)] bytes, the size of a pointer: the first two
    fields. *)
Definition kmem_cache_deinit (c : Z) : M kmem unit :=
  if c =? NULL then ret tt
  else
    lock_cache c;;
    full ← on_list (list_empty (full_of c));
    partial ← on_list (list_empty (partial_of c));
    ASSERT (full && partial);;
    release_free c;;
    unlock_cache c;;
    set_cache c (fun k => with_obj_num 0 (with_kc_lk 0 k)).

(** [src/module/mm/kmem_cache/slab.c:274-288 kmem_obj_alloc (partial slab)] *)
Definition alloc_partial (c : Z) : M kmem Z :=
  n ← on_list (list_first_entry (partial_of c));
  pg ← node_page n;
  on_bud (lock_pgfm pg);;
  let sl := pg2va km pg in
  r ← at_slab sl slab_alloc;
  ASSERT (negb (r =? NULL));;
  s ← get_slab sl;
  when (obj_free s =? 0)
    (n ← page_node pg;
     on_list (list_del n);;
     on_list (list_add_tail n (full_of c)));;
  on_bud (unlock_pgfm pg);;
  set_cache c (fun k => with_obj_num (s32 (obj_num k - 1)) k);;
  unlock_cache c;;
  ret r.

(** [src/module/mm/kmem_cache/slab.c:290-304 kmem_obj_alloc (free slab)] *)
Definition alloc_free (c : Z) : M kmem Z :=
  n ← on_list (list_first_entry (free_of c));
  pg ← node_page n;
  on_bud (lock_pgfm pg);;
  let sl := pg2va km pg in
  r ← at_slab sl slab_alloc;
  ASSERT (negb (r =? NULL));;
  n ← page_node pg;
  on_list (list_del n);;
  s ← get_slab sl;
  on_list (list_add_tail n (if obj_free s =? 0 then full_of c else partial_of c));;
  on_bud (unlock_pgfm pg);;
  set_cache c (fun k => with_obj_num (s32 (obj_num k - 1)) k);;
  unlock_cache c;;
  ret r.

(** [src/module/mm/kmem_cache/slab.c:237-305 kmem_obj_alloc] *)
Definition kmem_obj_alloc (c : Z) : M kmem Z :=
  if c =? NULL then ret NULL
  else
    lock_cache c;;
    k ← get_cache c;
    room ← (
      if obj_num k =? 0 then
        if pg_orlimit k <=? pg_orhas k then ret false else grow c
      else ret true);
    if negb (room : bool) then unlock_cache c;; ret NULL
    else
      no_partial ← on_list (list_empty (partial_of c));
      if negb no_partial then alloc_partial c else alloc_free c.

(** Is [address] inside the block of the slab at [sl]? *)
Definition in_block (address sl size : Z) : bool := (sl <? address) && (address <? u64 (sl + size)).

(** [src/module/mm/kmem_cache/slab.c:315-337 kmem_obj_free (partial slabs)] *)
Definition free_partial (c address size : Z) : unit -> Z -> M kmem (step unit unit) := fun _ iterator =>
  pg ← node_page iterator;
  on_bud (lock_pgfm pg);;
  p ← on_bud (get_page pg);
  ASSERT (bool_decide (pgtype p = SLAB_ALLOCATOR) && (buddy_flags p =? PG_BUDDY_FLAG_HEAD));;
  let sl := pg2va km pg in
  s ← get_slab sl;
  ASSERT (obj_free s <? obj_all s);;
  if in_block address sl size then
    at_slab sl (slab_free address);;
    s ← get_slab sl;
    when (obj_free s =? obj_all s)
      (n ← page_node pg;
       on_list (list_del n);;
       on_list (list_add_tail n (free_of c)));;
    on_bud (unlock_pgfm pg);;
    set_cache c (fun k => with_obj_num (s32 (obj_num k + 1)) k);;
    unlock_cache c;;
    ret (Return tt)
  else
    on_bud (unlock_pgfm pg);;
    ret (Next tt).

(** [src/module/mm/kmem_cache/slab.c:339-361 kmem_obj_free (full slabs)] *)
Definition free_full (c address size : Z) : unit -> Z -> M kmem (step unit unit) := fun _ iterator =>
  pg ← node_page iterator;
  on_bud (lock_pgfm pg);;
  p ← on_bud (get_page pg);
  ASSERT (bool_decide (pgtype p = SLAB_ALLOCATOR) && (buddy_flags p =? PG_BUDDY_FLAG_HEAD));;
  let sl := pg2va km pg in
  s ← get_slab sl;
  ASSERT (obj_free s =? 0);;
  if in_block address sl size then
    at_slab sl (slab_free address);;
    n ← page_node pg;
    on_list (list_del n);;
    s ← get_slab sl;
    on_list (list_add_tail n (if obj_free s =? obj_all s then free_of c else partial_of c));;
    on_bud (unlock_pgfm pg);;
    set_cache c (fun k => with_obj_num (s32 (obj_num k + 1)) k);;
    unlock_cache c;;
    ret (Return tt)
  else
    on_bud (unlock_pgfm pg);;
    ret (Next tt).

(** [src/module/mm/kmem_cache/slab.c:307-364 kmem_obj_free] *)
Definition kmem_obj_free (c address : Z) : M kmem unit :=
  if (c =? NULL) || (address =? NULL) then ret tt
  else
    lock_cache c;;
    k ← get_cache c;
    let size := s32 (u64 (Z.shiftl 1 (pg_order k) * PAGE_SIZE)) in
    let walk head body :=
      first ← on_list (get_next head);
      fuel ← gets (fun s => list_fuel (nodes (frames_of (bud s))));
      list_for_each_safe (fun s => nodes (frames_of (bud s))) fuel head first body tt in
    r ← walk (partial_of c) (free_partial c address size);
    match r with
    | Return _ => ret tt
    | Next _ =>
      r ← walk (full_of c) (free_full c address size);
      match r with
      | Return _ => ret tt
      | Next _ => unlock_cache c
      end
    end.

(** [src/module/mm/kmem_cache/slab.c:146-149 kmem_cache_alloc] *)
Definition kmem_cache_alloc : M kmem Z := kmem_obj_alloc slab_kmm_cache.
(** [src/module/mm/kmem_cache/slab.c:151-155 kmem_cache_free] *)
Definition kmem_cache_free (c : Z) : M kmem unit := kmem_obj_free slab_kmm_cache c.

(** [src/module/mm/kmem_cache/slab.c:366-378 kmem_cached_info] [None]: nothing
    is written to [info]. *)
Definition kmem_cached_info (c info : Z) : M kmem (option kmm_cinfo) :=
  if (c =? NULL) || (info =? NULL) then ret None
  else
    lock_cache c;;
    k ← get_cache c;
    unlock_cache c;;
    ret (Some (mk_cinfo (obj_num k) (kc_obj_size k) (pg_orlimit k) (pg_orhas k) (pg_order k))).

(** [src/module/mm/kmem_cache/kmem_cache_init.c:9-27 kmem_module_init] The state
    carries the counter [kmem_module_init_done]; the log messages are left
    out. *)
Definition kmem_module_init : M (Z * kmem) Z :=
  done ← gets fst;
  if negb (done =? 0) then ret 0
  else
    r ← zoom snd (fun s ds => (fst ds, s)) (kmem_cache_init slab_kmm_cache sizeof_kmem_cache 0 3 3);
    if r <? 0 then ret r
    else modify (fun ds => (u32 (fst ds + 1), snd ds));; ret r.
End slab.
