(* ===== verification/SlabSpec.v ===== *)
(** * The slab allocator: properties

    A slab is a [FreeQueue] of its objects: the array of indices threads the
    free ones in a chain whose last element points to itself, and holds -1 for
    the others. *)
From S2P Require Import Prelude DList KernelMap PageFrame CString CStringSpec ByteOrder FreeQueue Buddy Slab.

(** ** The chain of free indices *)

(** [idx] links [l]: every element to the next, the last to itself. *)
Fixpoint chain (idx : list Z) (l : list Z) : Prop :=
  match l with
  | [] => True
  | a :: l' => idx !! Z.to_nat a = Some (List.hd a l') /\ chain idx l'
  end.

Definition in_range (n : Z) (l : list Z) : Prop := forall i, i ∈ l -> 0 <= i < n.

Lemma chain_insert idx l j v n :
  chain idx l -> in_range n l -> 0 <= j -> j ∉ l -> chain (<[Z.to_nat j := v]> idx) l.
Proof.
  intros Hc Hr Hj. induction l as [|a l IH]; [done |]. destruct Hc as [Ha Hc]. intros Hn.
  apply not_elem_of_cons in Hn as [Hja Hn]. pose proof (Hr a ltac:(set_solver)).
  split; [rewrite list_lookup_insert_ne by lia; done |]. apply IH; [done | | done].
  intros i Hi. apply Hr. set_solver.
Qed.

(** Appending [j] to a chain: the last element is made to point to it. *)
Lemma chain_snoc idx l e j n :
  chain idx (l ++ [e]) -> in_range n (l ++ [e]) -> NoDup (l ++ [e]) -> 0 <= j < n -> j ∉ l ++ [e] ->
  Z.of_nat (length idx) = n ->
  chain (<[Z.to_nat j := j]> (<[Z.to_nat e := j]> idx)) ((l ++ [e]) ++ [j]).
Proof.
  intros Hc Hr Hnd Hj Hn Hlen. pose proof (Hr e ltac:(set_solver)) as He.
  rewrite <- app_assoc. simpl. induction l as [|a l IH]; simpl in *.
  - apply not_elem_of_cons in Hn as [Hn _].
    repeat split; [rewrite list_lookup_insert_ne by lia |];
      (rewrite list_lookup_insert_eq; [done | rewrite ?length_insert; lia]).
  - apply NoDup_cons in Hnd as [Hae Hnd]. apply not_elem_of_cons in Hn as [Hja Hn].
    pose proof (Hr a ltac:(set_solver)) as Ha. destruct Hc as [Hc1 Hc].
    split.
    + rewrite list_lookup_insert_ne by lia. rewrite list_lookup_insert_ne.
      2:{ intros E. apply Hae. apply Z2Nat.inj in E; [| lia ..]. set_solver. }
      rewrite Hc1. by destruct l.
    + apply IH; [done | | done | done]. intros i Hi. apply Hr. set_solver.
Qed.

(** ** One slab *)

Section geometry.
(** The number of objects, their size, and where the first one is. *)
Context (n osize obj_start : Z).

Record slab_geometry : Prop := {
  sg_n : 0 < n;
  sg_size : 0 < osize;
  sg_int : n * osize < 2 ^ 31;
  sg_start : 0 < obj_start;
  sg_end : obj_start + n * osize < 2 ^ 64
}.
Context (G : slab_geometry).

Definition slab_obj (i : Z) : Z := obj_start + osize * i.

Record slab_inv (s : slab_t) (fl : list Z) : Prop := {
  si_all : obj_all s = n;
  si_size : obj_size s = osize;
  si_start : mem_obj_start s = obj_start;
  si_len : Z.of_nat (length (mem_index s)) = n;
  si_free : obj_free s = Z.of_nat (length fl);
  si_nodup : NoDup fl;
  si_range : in_range n fl;
  si_head : mem_free_head s = List.hd (-1) fl;
  si_tail : mem_free_tail s = List.last fl (-1);
  si_chain : chain (mem_index s) fl;
  si_used : forall i, 0 <= i < n -> i ∉ fl -> mem_index s !! Z.to_nat i = Some (-1)
}.

Lemma get_index_Ok s i v : 0 <= i -> mem_index s !! Z.to_nat i = Some v -> get_index i s = Ok (v, s).
Proof. intros Hi E. unfold get_index. by rewrite (proj2 (Z.ltb_ge _ _) Hi), E. Qed.
Lemma set_index_Ok s i v :
  0 <= i < Z.of_nat (length (mem_index s)) ->
  set_index i v s = Ok (tt, set_index_arr (<[Z.to_nat i := v]> (mem_index s)) s).
Proof.
  intros Hi. unfold set_index. rewrite (proj2 (Z.ltb_ge i 0)), (proj2 (Z.leb_gt _ i)) by lia. done.
Qed.

Lemma slab_alloc_empty s : slab_inv s [] -> slab_alloc s = Ok (NULL, s).
Proof. intros I. unfold slab_alloc, bind, gets, id. by rewrite (si_free _ _ I). Qed.

Lemma slab_obj_bounds i : 0 <= i < n ->
  0 <= osize * i < 2 ^ 31 /\ 0 < slab_obj i < 2 ^ 64 /\ osize * i + osize <= n * osize.
Proof using G. destruct G. intros Hi. unfold slab_obj. nia. Qed.

Lemma slab_alloc_Ok s i fl :
  slab_inv s (i :: fl) -> exists s', slab_alloc s = Ok (slab_obj i, s') /\ slab_inv s' fl.
Proof using G.
  intros I. pose proof (si_range _ _ I i ltac:(set_solver)) as Hi.
  destruct (slab_obj_bounds i Hi) as (B1 & B2 & _).
  pose proof (si_nodup _ _ I) as Hnd. apply NoDup_cons in Hnd as [Hni Hnd].
  destruct (si_chain _ _ I) as [Hnext Hc].
  unfold slab_alloc. unfold bind at 1, gets at 1, id.
  rewrite (si_free _ _ I), (si_head _ _ I), (si_start _ _ I), (si_size _ _ I).
  rewrite (proj2 (Z.eqb_neq _ 0)) by (simpl; lia). cbn [List.hd].
  unfold bind at 1, ASSERT at 1. rewrite (proj2 (Z.eqb_neq i (-1))) by lia. cbn [negb].
  rewrite s32_small, u64_small by (unfold slab_obj in *; lia). fold (slab_obj i).
  mstep (get_index_Ok s i _ ltac:(lia) Hnext). unfold bind at 1, modify at 1.
  mstep (set_index_Ok (set_free_head (List.hd i fl) s) i (-1)
           ltac:(cbn [mem_index set_free_head]; rewrite (si_len _ _ I); lia)).
  unfold bind at 1, modify at 1. unfold bind at 1, gets at 1, id.
  assert (Hlen : obj_free s - 1 = Z.of_nat (length fl)) by (rewrite (si_free _ _ I); simpl; lia).
  assert (Hr : in_range n fl) by (intros j Hj; apply (si_range _ _ I); set_solver).
  assert (Hu : forall j, 0 <= j < n -> j ∉ fl -> <[Z.to_nat i := -1]> (mem_index s) !! Z.to_nat j = Some (-1)).
  { intros j Hj Hjf. destruct (decide (j = i)) as [-> | Hne].
    - rewrite list_lookup_insert_eq; [done |]. pose proof (si_len _ _ I). lia.
    - rewrite list_lookup_insert_ne by lia. apply (si_used _ _ I); [done | set_solver]. }
  cbn [obj_free set_obj_free set_index_arr set_free_head]. rewrite Hlen.
  destruct fl as [|j fl].
  - rewrite Z.eqb_refl. eexists. split; [reflexivity |].
    destruct I; split; cbn; rewrite ?length_insert; try done; lia.
  - rewrite (proj2 (Z.eqb_neq _ 0)) by (simpl; lia). eexists. split; [reflexivity |].
    destruct I; split; cbn; rewrite ?length_insert; try done.
    apply (chain_insert _ (j :: fl) i (-1) n); try done. lia.
Qed.

Lemma slab_free_index s i fl :
  slab_inv s fl -> 0 <= i < n ->
  slab_free (slab_obj i) s =
  (v ← get_index i;
   ASSERT (v =? -1);;
   (if obj_free s =? 0 then
      ASSERT ((mem_free_head s =? -1) && (mem_free_tail s =? -1));;
      modify (set_free_head i);;
      modify (set_free_tail i);;
      set_index i i
    else
      ASSERT (negb (mem_free_head s =? -1) && negb (mem_free_tail s =? -1));;
      set_index (mem_free_tail s) i;;
      set_index i i;;
      modify (set_free_tail i));;
   modify (fun s => set_obj_free (obj_free s + 1) s)) s.
Proof using G.
  intros I Hi. destruct (slab_obj_bounds i Hi) as (B1 & B2 & B3). pose proof G as [? ? ? ? ?].
  unfold slab_free. unfold bind at 1, ASSERT at 1.
  rewrite (proj2 (Z.eqb_neq _ NULL)) by (unfold NULL; lia). cbn [negb].
  unfold bind at 1, gets at 1, id. unfold bind at 1, ASSERT at 1.
  rewrite (si_start _ _ I), (si_all _ _ I), (si_size _ _ I), s32_small, u64_small by lia.
  unfold slab_obj in *. rewrite (proj2 (Z.leb_le _ _)), (proj2 (Z.ltb_lt _ _)) by lia. cbn [andb].
  replace (obj_start + osize * i - obj_start) with (i * osize) by lia.
  rewrite s32_small by lia.
  unfold bind at 1, ASSERT at 1. rewrite Z.rem_mul by lia. cbn [Z.eqb].
  rewrite Z.quot_mul by lia. done.
Qed.

Lemma slab_free_Ok s i fl :
  slab_inv s fl -> 0 <= i < n -> i ∉ fl ->
  exists s', slab_free (slab_obj i) s = Ok (tt, s') /\ slab_inv s' (fl ++ [i]).
Proof using G.
  intros I Hi Hni. rewrite (slab_free_index s i fl I Hi).
  pose proof (si_used _ _ I i Hi Hni) as Hu. mstep (get_index_Ok s i _ ltac:(lia) Hu).
  unfold bind at 1, ASSERT at 1. cbn [Z.eqb Pos.eqb].
  rewrite (si_free _ _ I), (si_head _ _ I), (si_tail _ _ I).
  pose proof (si_len _ _ I) as Hlen.
  destruct fl as [|e fl _] using rev_ind.
  - unfold bind, ASSERT, modify. cbn -[set_index Z.to_nat].
    change (Z.of_nat 0 =? 0) with true. cbn beta iota. rewrite set_index_Ok by (cbn; lia).
    eexists. split; [reflexivity |]. destruct I; split; cbn; try done.
    + by rewrite length_insert.
    + by rewrite si_free0.
    + apply NoDup_singleton.
    + intros j ->%list_elem_of_singleton. done.
    + rewrite list_lookup_insert_eq by lia. done.
    + intros j Hj Hne%not_elem_of_cons. rewrite list_lookup_insert_ne by lia. apply si_used0; [done | set_solver].
  - pose proof (si_range _ _ I e ltac:(set_solver)) as He.
    pose proof (si_range _ _ I) as Hr. destruct (fl ++ [e]) as [|hd0 fl0] eqn:Efl; [by destruct fl |].
    pose proof (Hr hd0 ltac:(set_solver)) as Hh0. rewrite <- Efl in *. rewrite List.last_last.
    replace (List.hd (-1) (fl ++ [e])) with hd0 by (by rewrite Efl).
    rewrite (proj2 (Z.eqb_neq (Z.of_nat _) 0)) by (rewrite length_app; simpl; lia).
    unfold bind, ASSERT, modify.
    rewrite (proj2 (Z.eqb_neq hd0 (-1))), (proj2 (Z.eqb_neq e (-1))) by lia. cbn [negb andb].
    rewrite set_index_Ok by lia. rewrite set_index_Ok by (cbn; rewrite length_insert; lia).
    eexists. split; [reflexivity |].
    destruct I; split; cbn -[Z.to_nat]; try done.
    + by rewrite !length_insert.
    + rewrite si_free0, !length_app. simpl. lia.
    + apply NoDup_app. split; [done |]. split; [| apply NoDup_singleton].
      intros j Hj ->%list_elem_of_singleton. done.
    + intros j [Hj | ->%list_elem_of_singleton]%elem_of_app; [by apply si_range0 | done].
    + rewrite si_head0. by destruct fl.
    + by rewrite List.last_last.
    + by apply (chain_snoc _ _ _ _ n).
    + intros j Hj [Hjf Hji%not_elem_of_cons]%not_elem_of_app.
      assert (j <> e) by (intros ->; apply Hjf; set_solver).
      rewrite !list_lookup_insert_ne by lia. by apply si_used0.
Qed.

Lemma chain_value idx fl i : chain idx fl -> i ∈ fl -> exists v, v ∈ fl /\ idx !! Z.to_nat i = Some v.
Proof.
  induction fl as [|a fl IH]; [set_solver |]. intros [Ha Hc] [-> | Hi]%elem_of_cons.
  - exists (List.hd a fl). split; [| done]. destruct fl; set_solver.
  - destruct (IH Hc Hi) as (v & Hv & E). exists v. split; [set_solver | done].
Qed.

(** Everything but a handed-out object is refused. *)
Lemma slab_free_refuses s fl a :
  slab_inv s fl -> (forall i, 0 <= i < n -> i ∉ fl -> a <> slab_obj i) -> slab_free a s = Err AssertFailed.
Proof using G.
  intros I Ha. pose proof G as [? ? ? ? ?].
  assert (Hd : (exists i, 0 <= i < n /\ a = slab_obj i) \/ ~ exists i, 0 <= i < n /\ a = slab_obj i).
  { destruct (decide (a = slab_obj ((a - obj_start) / osize) /\ 0 <= (a - obj_start) / osize < n)) as [[] | Hno];
      [eauto | right]. intros (i & Hi & ->). apply Hno. unfold slab_obj.
    replace (obj_start + osize * i - obj_start) with (i * osize) by lia. by rewrite Z.div_mul by lia. }
  destruct Hd as [(i & Hi & ->) | Hno].
  - rewrite (slab_free_index s i fl I Hi).
    assert (Hf : i ∈ fl) by (destruct (decide (i ∈ fl)); [done | exfalso; by apply (Ha i)]).
    destruct (chain_value _ _ _ (si_chain _ _ I) Hf) as (v & Hv & E).
    pose proof (si_range _ _ I v Hv). mstep (get_index_Ok s i _ ltac:(lia) E).
    unfold bind, ASSERT. by rewrite (proj2 (Z.eqb_neq _ _)) by lia.
  - unfold slab_free. unfold bind at 1, ASSERT at 1. destruct (negb _); [| done].
    unfold bind at 1, gets at 1, id. unfold bind at 1, ASSERT at 1.
    rewrite (si_start _ _ I), (si_all _ _ I), (si_size _ _ I), s32_small, u64_small by lia.
    destruct (Z.leb_spec obj_start a); [| done]. destruct (Z.ltb_spec a (obj_start + n * osize)); [| done].
    cbn [andb]. rewrite s32_small by lia. unfold bind at 1, ASSERT at 1.
    destruct (Z.eqb_spec (Z.rem (a - obj_start) osize) 0) as [Hz |]; [| done]. exfalso. apply Hno.
    rewrite Z.rem_mod_nonneg in Hz by lia. apply Z.mod_divide in Hz as [i Hi]; [| lia].
    exists i. unfold slab_obj. split; [nia | lia].
Qed.

(** ** A slab implements [FreeQueue] *)

Definition slab_objs (l : list Z) : list Z := slab_obj <$> l.
Definition slab_queue (s : slab_t) (l : list Z) : Prop := exists fl, l = slab_objs fl /\ slab_inv s fl.

Lemma slab_obj_inj i j : slab_obj i = slab_obj j -> i = j.
Proof using G. destruct G. unfold slab_obj. nia. Qed.

Lemma slab_free_queue : FreeQueue slab_alloc slab_free slab_queue (slab_objs (seqZ 0 n)).
Proof using G.
  split.
  - apply NoDup_fmap_2; [exact slab_obj_inj | apply NoDup_seqZ].
  - intros s ([|] & E & I); [| done]. by apply slab_alloc_empty.
  - intros s b l ([|i fl] & E & I); [done |]. injection E as -> ->.
    destruct (slab_alloc_Ok s i fl I) as (s1 & E1 & I1). exists s1. split; [done |]. by exists fl.
  - intros s l a (fl & -> & I) Ha Hal _. apply list_elem_of_fmap in Ha as (i & -> & Hi%elem_of_seqZ).
    destruct (slab_free_Ok s i fl I) as (s1 & E1 & I1); [lia | |].
    { intros Hf. apply Hal. by apply list_elem_of_fmap_2. }
    exists s1. split; [done |]. exists (fl ++ [i]). split; [| done]. unfold slab_objs. by rewrite fmap_app.
Qed.
End geometry.

(** ** The layout of a new slab *)

Lemma SDBMHash_loop_total (m : bytes) size fuel str i hash :
  (Z.to_nat (size - i) < fuel)%nat -> 0 <= i -> size < 2 ^ 31 ->
  (forall a, str <= a < str + 2 * size - 1 - i -> is_Some (m !! a)) ->
  exists h, SDBMHash_loop fuel str size i hash m = Ok (h, m).
Proof.
  revert str i hash. induction fuel as [|fuel IH]; intros str i hash Hf Hi Hs Hm; [lia |].
  cbn [SDBMHash_loop]. destruct (Z.ltb_spec i size) as [Hlt | Hge]; [| by eexists].
  destruct (Hm (str + i)) as [c Hc]; [lia |]. destruct (Hm str) as [b Hb]; [lia |].
  mstep (load_Ok m _ _ Hc). destruct (c =? 0); [by eexists |]. mstep (load_Ok m _ _ Hb).
  unfold int_inc. rewrite (proj2 (Z.ltb_lt i INT_MAX)) by (unfold INT_MAX; lia).
  unfold bind at 1, ret at 1. apply IH; [lia | lia | done |]. intros a Ha. apply Hm. lia.
Qed.

Lemma land_7fffffff h : 0 <= Z.land h 0x7FFFFFFF < 2 ^ 31.
Proof.
  change 0x7FFFFFFF with (Z.ones 31). rewrite Z.land_ones by lia. apply Z.mod_pos_bound. lia.
Qed.

(** The colour is less than the space left over, whatever the stack holds. *)
Lemma slab_colour_Ok stack_after offset padding (slabs : gmap Z slab_t) :
  (3 <= length stack_after)%nat -> 0 <= padding < 2 ^ 31 ->
  exists c, slab_colour stack_after offset padding slabs = Ok (c, slabs) /\ 0 <= c <= padding.
Proof.
  intros Hst Hp. unfold slab_colour. destruct (Z.eqb_spec padding 0); [exists 0; split; [done | lia] |].
  unfold SDBMHash, bind. set (m := map_seqZ 16 _).
  destruct (SDBMHash_loop_total m sizeof_int (S (Z.to_nat sizeof_int)) 16 0 0) as (h & E).
  1-3: unfold sizeof_int; lia.
  { intros a Ha. unfold sizeof_int in Ha. unfold m. rewrite lookup_map_seqZ. rewrite option_guard_True by lia.
    apply lookup_lt_is_Some. rewrite length_app. simpl.
    lia. }
  rewrite E. cbn. eexists. split; [done |]. pose proof (land_7fffffff h) as Hh.
  rewrite s32_small by lia. pose proof (Z.mod_pos_bound (Z.land h 0x7FFFFFFF) padding ltac:(lia)) as Hm.
  set (x := _ mod padding) in *. change (Z.lnot 3) with (Z.lnot (Z.ones 2)).
  rewrite <- Z.ldiff_land. rewrite Z.ldiff_ones_r by lia.
  rewrite Z.shiftr_div_pow2, Z.shiftl_mul_pow2 by lia.
  pose proof (Z.div_mod x (2 ^ 2) ltac:(lia)). pose proof (Z.mod_pos_bound x (2 ^ 2) ltac:(lia)). lia.
Qed.

Lemma init_index_lookup n i :
  0 <= i < n -> init_index n !! Z.to_nat i = Some (if negb (i =? n - 1) then i + 1 else i).
Proof.
  intros Hi. unfold init_index. change (map ?f ?l) with (f <$> l).
  rewrite list_lookup_fmap, lookup_seqZ_lt by lia. simpl. by rewrite Z.add_0_l, Z2Nat.id by lia.
Qed.

Lemma init_index_chain n k : 0 <= k <= n -> chain (init_index n) (seqZ (n - k) k).
Proof.
  intros Hk. remember (Z.to_nat k) as m eqn:Em. revert k Hk Em. induction m as [|m IH]; intros k Hk Em.
  - replace k with 0 by lia. done.
  - rewrite (seqZ_cons _ k) by lia. split.
    + rewrite init_index_lookup by lia. destruct (Z.eqb_spec (n - k) (n - 1)) as [E | E]; cbn [negb].
      * replace k with 1 by lia. done.
      * rewrite (seqZ_cons _ (Z.pred k)) by lia. f_equal; simpl; lia.
    + replace (Z.succ (n - k)) with (n - Z.pred k) by lia. apply IH; lia.
Qed.

Lemma seqZ_last n d : 0 < n -> List.last (seqZ 0 n) d = n - 1.
Proof.
  intros Hn. rewrite <- (Z.sub_add 1 n) at 1. rewrite seqZ_app by lia.
  rewrite (seqZ_cons _ 1) by lia. rewrite (seqZ_nil _ (Z.pred 1)) by lia. rewrite List.last_last. lia.
Qed.

(** The arguments of [init_slab_xip] name a region that starts on a page. *)
Record slab_region (start size osize : Z) : Prop := {
  sr_start : 0 < start /\ start + size < 2 ^ 64;
  sr_page : VAL_IS_PAGE_ALIGNED start = true;
  sr_size : sizeof_slab_t <= size < 2 ^ 31;
  sr_osize : 0 < osize < size
}.

Definition slab_num (size osize : Z) : Z := (size - sizeof_slab_t) / (sizeof_int + osize).

Lemma init_slab_xip_Ok stack_after start size osize offset (slabs : gmap Z slab_t) :
  slab_region start size osize -> (3 <= length stack_after)%nat ->
  let n := slab_num size osize in
  (n = 0 /\ init_slab_xip stack_after start size osize offset slabs = Ok (None, slabs)) \/
  (exists s obj_start, init_slab_xip stack_after start size osize offset slabs = Ok (Some start, <[start := s]> slabs) /\
     slab_geometry n osize obj_start /\ slab_inv n osize obj_start s (seqZ 0 n) /\
     start + sizeof_slab_t + sizeof_int * n <= obj_start /\ obj_start + n * osize <= start + size).
Proof.
  intros [[Hst Hend] Hpg Hsz Hos] Hlen n. unfold sizeof_slab_t, sizeof_int in *.
  assert (Hn : 0 <= n /\ (size - 40) = (4 + osize) * n + (size - 40) mod (4 + osize)).
  { unfold n, slab_num, sizeof_slab_t, sizeof_int. split; [apply Z.div_pos; lia |]. apply Z.div_mod. lia. }
  destruct Hn as [Hn Hdiv]. pose proof (Z.mod_pos_bound (size - 40) (4 + osize) ltac:(lia)) as Hmod.
  destruct (slab_colour_Ok stack_after offset ((size - 40) mod (4 + osize)) slabs Hlen) as (c & Ec & Hc);
    [lia |].
  assert (E : init_slab_xip stack_after start size osize offset slabs =
    if n <=? 0 then Ok (None, slabs)
    else Ok (Some start, <[start := mk_slab n n osize 0 (n - 1) (start + 40)
                                      (u64 (start + 40 + 4 * n + c)) (init_index n)]> slabs)).
  { unfold init_slab_xip. unfold bind at 1, ASSERT at 1.
    rewrite (proj2 (Z.eqb_neq start NULL)) by (unfold NULL; lia).
    rewrite (proj2 (Z.ltb_lt 0 size)), (proj2 (Z.ltb_lt 0 osize)), (proj2 (Z.ltb_lt osize size)), Hpg by lia.
    cbn [negb andb]. unfold sizeof_slab_t, sizeof_int. rewrite (u64_small (size - 40)) by lia.
    rewrite (s32_small ((size - 40) mod (4 + osize))) by lia.
    change ((size - 40) / (4 + osize)) with n. rewrite (s32_small n) by nia.
    mstep Ec. unfold bind at 1, ASSERT at 1. rewrite (proj2 (Z.leb_le 0 c)) by lia.
    by destruct (n <=? 0). }
  rewrite E. destruct (Z.leb_spec n 0) as [Hz | Hz]; [left; split; [lia | done] | right].
  eexists _, (start + 40 + 4 * n + c). split; [reflexivity |].
  rewrite (u64_small (start + 40 + 4 * n + c)) by nia.
  split; [split; nia |]. split; [| split; nia].
  split; cbn [obj_all obj_free Slab.obj_size mem_free_head mem_free_tail mem_obj_start mem_index]; try done.
  - unfold init_index. rewrite length_map, length_seqZ. lia.
  - rewrite length_seqZ. lia.
  - apply NoDup_seqZ.
  - intros i Hi%elem_of_seqZ. lia.
  - by rewrite seqZ_cons by lia.
  - rewrite seqZ_last by lia. done.
  - pose proof (init_index_chain n n ltac:(lia)) as Hch. by rewrite Z.sub_diag in Hch.
  - intros i Hi Hni. exfalso. apply Hni, elem_of_seqZ. lia.
Qed.

(** ** Properties *)

Definition demo_slab : slab_t :=
  mk_slab 3 3 16 0 2 40 0x3034 [1; 2; 2].
Definition demo_slab_used : slab_t := mk_slab 3 2 16 1 2 40 0x3034 [-1; 2; 2].

Lemma demo_slab_used_inv : slab_inv 3 16 0x3034 demo_slab_used [1; 2].
Proof.
  split; try done.
  - apply (bool_decide_unpack _). by vm_compute.
  - intros i Hi. set_unfold. lia.
  - intros i Hi Hn. assert (i = 0) as -> by (set_unfold; lia). done.
Qed.

(** C8: a slab is a queue of objects laid out in its block.
    [init_slab_xip] either finds no room for an object and builds nothing, or
    builds a slab of as many objects as the sizes allow: header, index array
    and objects lie in the block in this order without overlap, and from the
    new slab every sequence of allocations and frees of held objects returns
    what the queue of free objects returns; the free and the held objects
    remain together all objects of the slab, each once. *)
Theorem slab_refines_queue stack_after start size osize offset (slabs : gmap Z slab_t) :
  slab_region start size osize -> (3 <= length stack_after)%nat ->
  let n := slab_num size osize in
  (n = 0 /\ init_slab_xip stack_after start size osize offset slabs = Ok (None, slabs)) \/
  (0 < n /\ exists s obj_start,
     init_slab_xip stack_after start size osize offset slabs = Ok (Some start, <[start := s]> slabs) /\
     start + sizeof_slab_t + sizeof_int * n <= obj_start /\ obj_start + n * osize <= start + size /\
     let B := slab_objs osize obj_start (seqZ 0 n) in
     forall ops outs free held, spec_run B [] ops = Some (outs, (free, held)) ->
       exists s', run slab_alloc slab_free ops s = Ok (outs, s') /\ free ++ held ≡ₚ B /\ NoDup B).
Proof.
  intros R Hlen n. destruct (init_slab_xip_Ok stack_after _ _ _ offset slabs R Hlen) as
    [Hz | (s & os & E & G & I & H1 & H2)]; [by left | right].
  split; [apply G |]. exists s, os. do 3 (split; [done |]). intros B ops outs free held Hrun.
  pose proof (slab_free_queue n osize os G) as FQ.
  destruct (run_refines (FQ := FQ) ops s B [] outs free held) as (s1 & E1 & _ & HP);
    [by rewrite app_nil_r | by exists (seqZ 0 n) | done |].
  exists s1. split; [done |]. split; [done | exact (fq_nodup (FreeQueue := FQ))].
Qed.

Lemma slab_refines_queue_witness :
  let n := slab_num 4096 96 in
  (n = 0 /\ init_slab_xip [0; 0; 0] 0x3000 4096 96 7 ∅ = Ok (None, ∅)) \/
  (0 < n /\ exists s obj_start,
     init_slab_xip [0; 0; 0] 0x3000 4096 96 7 ∅ = Ok (Some 0x3000, <[0x3000 := s]> ∅) /\
     0x3000 + sizeof_slab_t + sizeof_int * n <= obj_start /\ obj_start + n * 96 <= 0x3000 + 4096 /\
     let B := slab_objs 96 obj_start (seqZ 0 n) in
     forall ops outs free held, spec_run B [] ops = Some (outs, (free, held)) ->
       exists s', run slab_alloc slab_free ops s = Ok (outs, s') /\ free ++ held ≡ₚ B /\ NoDup B).
Proof.
  apply (slab_refines_queue [0; 0; 0] 0x3000 4096 96 7 ∅); [| simpl; lia].
  split; unfold sizeof_slab_t; first [lia | done].
Defined.

(** C31: a slab checks what it is given back.  In every reachable slab,
    [slab_free] accepts exactly the objects that are handed out, and puts them
    at the end of the queue; for every other address (outside the objects,
    inside an object, or of an object that is already free) its assertion
    fails. *)
Theorem slab_free_checked n osize obj_start s fl a :
  slab_geometry n osize obj_start -> slab_inv n osize obj_start s fl ->
  (exists i s', a = slab_obj osize obj_start i /\ 0 <= i < n /\ i ∉ fl /\
     slab_free a s = Ok (tt, s') /\ slab_inv n osize obj_start s' (fl ++ [i])) \/
  (slab_free a s = Err AssertFailed /\
     forall i, 0 <= i < n -> i ∉ fl -> a <> slab_obj osize obj_start i).
Proof.
  intros G I. set (i := (a - obj_start) / osize).
  destruct (decide (a = slab_obj osize obj_start i /\ 0 <= i < n /\ i ∉ fl)) as [(E & Hi & Hf) | Hno].
  - left. destruct (slab_free_Ok _ _ _ G s i fl I Hi Hf) as (s' & E' & I').
    exists i, s'. by rewrite E at 2.
  - right. assert (Hall : forall j, 0 <= j < n -> j ∉ fl -> a <> slab_obj osize obj_start j).
    { intros j Hj Hf ->. apply Hno. assert (i = j) as ->; [| done]. unfold i, slab_obj. destruct G.
      replace (obj_start + osize * j - obj_start) with (j * osize) by lia. by rewrite Z.div_mul by lia. }
    split; [| done]. by apply (slab_free_refuses _ _ _ G s fl).
Qed.

Lemma slab_free_checked_witness :
  (exists i s', 0x3038 = slab_obj 16 0x3034 i /\ 0 <= i < 3 /\ i ∉ [1; 2] /\
     slab_free 0x3038 demo_slab_used = Ok (tt, s') /\ slab_inv 3 16 0x3034 s' ([1; 2] ++ [i])) \/
  (slab_free 0x3038 demo_slab_used = Err AssertFailed /\
     forall i, 0 <= i < 3 -> i ∉ [1; 2] -> 0x3038 <> slab_obj 16 0x3034 i).
Proof. apply (slab_free_checked 3 16 0x3034 demo_slab_used [1; 2]); [split; lia | apply demo_slab_used_inv]. Defined.
