(* ===== verification/CacheSpec.v ===== *)
(** * Object caches: the specification

    A [kmem_cache] keeps its slabs on three lists, by how full they are.  The
    invariant [cache_ok] describes them together with all other rings of the
    list memory, so that the operations of a cache are seen to leave the other
    lists of the kernel alone.  The cache is considered where it does not grow:
    as long as it has a free object, or when it has reached its limit. *)
From S2P Require Import Prelude DList Cpu Locks KernelMap PageFrame Buddy Slab FreeQueue SlabSpec.

(** A slab of a cache: its page, its first object, the indices of its free
    objects in the order in which they will be handed out. *)
Record slab_desc := mk_desc { d_pg : Z; d_start : Z; d_free : list Z }.
#[export] Instance slab_desc_eq_dec : EqDecision slab_desc.
Proof. solve_decision. Defined.
Definition with_free (fl : list Z) (d : slab_desc) : slab_desc := mk_desc (d_pg d) (d_start d) fl.

(** The three lists of a cache. *)
Record cache_slabs := mk_slabs { cs_free : list slab_desc; cs_partial : list slab_desc; cs_full : list slab_desc }.
Definition all_slabs (X : cache_slabs) : list slab_desc := cs_free X ++ cs_partial X ++ cs_full X.
Definition slab_pages (X : cache_slabs) : list Z := d_pg <$> all_slabs X.

Section cache.
Context (km : kernel_mapping) (g_buddy : Z) (stack_after : list Z).
(** The cache [c], its objects of [osize] bytes, [n] in a block of [bsize]
    bytes; the array of descriptors is at [b]. *)
Context (c b n osize bsize : Z).
Context (O : gmap Z mempool) (mem : Z -> Z).

Definition KS (P : gmap Z pageframe) (h : heap) (SL : gmap Z slab_t) (CA : gmap Z kmem_cache) : kmem :=
  mk_kmem (mk_buddy (mk_frames b P h) O mem) SL CA.
Definition d_node (d : slab_desc) : Z := buddy_node b (d_pg d).
Definition d_addr (d : slab_desc) : Z := pg2va km (d_pg d).

Record slab_ok (P : gmap Z pageframe) (SL : gmap Z slab_t) (d : slab_desc) : Prop := {
  so_page : exists p, P !! d_pg d = Some p /\ page_lk p = 1 /\ pgtype p = SLAB_ALLOCATOR /\
    buddy_flags p = PG_BUDDY_FLAG_HEAD;
  so_slab : exists s, SL !! d_addr d = Some s /\ slab_inv n osize (d_start d) s (d_free d);
  so_geometry : slab_geometry n osize (d_start d);
  so_inside : d_addr d < d_start d /\ d_start d + n * osize <= d_addr d + bsize /\ d_addr d + bsize < 2 ^ 64
}.

(** The objects of a slab, and the free ones. *)
Definition d_objs (d : slab_desc) : list Z := slab_obj osize (d_start d) <$> seqZ 0 n.
Definition d_avail (d : slab_desc) : list Z := slab_obj osize (d_start d) <$> d_free d.
Definition objects (X : cache_slabs) : list Z := all_slabs X ≫= d_objs.
Definition available (X : cache_slabs) : list Z := all_slabs X ≫= d_avail.

(** Slabs of one cache that share nothing. *)
Record slabs_ok (P : gmap Z pageframe) (SL : gmap Z slab_t) (A : list slab_desc) : Prop := {
  sl_ok : Forall (slab_ok P SL) A;
  sl_apart : forall d e, d ∈ A -> e ∈ A -> d_pg d <> d_pg e ->
    d_addr d + bsize <= d_addr e \/ d_addr e + bsize <= d_addr d;
  sl_pages : NoDup (d_pg <$> A)
}.

Definition heads : list Z := [free_of c; partial_of c; full_of c].
Record rings_ok (X : cache_slabs) (Fam : gmap Z (list Z)) : Prop := {
  ri_free : Fam !! free_of c = Some (d_node <$> cs_free X);
  ri_partial : Fam !! partial_of c = Some (d_node <$> cs_partial X);
  ri_full : Fam !! full_of c = Some (d_node <$> cs_full X)
}.
(** Each slab is on the list it belongs to. *)
Record sorted_ok (X : cache_slabs) : Prop := {
  so_free : Forall (fun d => Z.of_nat (length (d_free d)) = n) (cs_free X);
  so_partial : Forall (fun d => 0 < Z.of_nat (length (d_free d)) < n) (cs_partial X);
  so_full : Forall (fun d => d_free d = []) (cs_full X)
}.
Record kcache_ok (k : kmem_cache) (X : cache_slabs) : Prop := {
  kc_open : kc_lk k = 1;
  kc_block : bsize = s32 (u64 (Z.shiftl 1 (pg_order k) * PAGE_SIZE));
  kc_number : obj_num k = Z.of_nat (length (available X));
  kc_bound : Z.of_nat (length (objects X)) < 2 ^ 31
}.

(** The cache [c] with fields [k] and slabs [X], beside the rings of [Fam]. *)
Definition cache_ok (k : kmem_cache) (X : cache_slabs) (Fam : gmap Z (list Z)) (s : kmem) : Prop :=
  exists P h SL CA, s = KS P h SL CA /\ CA !! c = Some k /\ dlists h Fam /\ rings_ok X Fam /\
    slabs_ok P SL (all_slabs X) /\ sorted_ok X /\ kcache_ok k X.

#[export] Instance slabs_ok_perm P SL : Proper (Permutation ==> iff) (slabs_ok P SL).
Proof.
  assert (forall A A', A ≡ₚ A' -> slabs_ok P SL A -> slabs_ok P SL A') as H.
  { intros A A' HA [H1 H2 H3]. split; [by rewrite <-HA | | by rewrite <-HA].
    intros d e. rewrite <-!HA. apply H2. }
  intros A A' HA. split; apply H; by rewrite HA.
Qed.

Lemma heads_apart : free_of c <> partial_of c /\ free_of c <> full_of c /\ partial_of c <> full_of c.
Proof. unfold free_of, partial_of, full_of. lia. Qed.

(** Changing the free objects of one slab. *)
Lemma slabs_ok_update P SL d rest s' fl' :
  slabs_ok P SL (d :: rest) -> slab_inv n osize (d_start d) s' fl' ->
  slabs_ok P (<[d_addr d := s']> SL) (with_free fl' d :: rest).
Proof.
  intros [H1 H2 H3] Hs. apply Forall_cons in H1 as [Hd Hr]. split.
  - constructor.
    + destruct Hd as [Hp _ Hg Hi]. split; [done | | done | done].
      exists s'. by rewrite lookup_insert_eq.
    + rewrite Forall_forall in Hr. apply Forall_forall. intros e He.
      destruct (Hr e He) as [Hp [se [Hse Hinv]] Hg Hi]. split; [done | | done | done].
      exists se. split; [| done]. rewrite lookup_insert_ne; [done |]. intros E.
      apply NoDup_cons in H3 as [Hni _].
      destruct (H2 d e) as [H | H]; [set_solver | set_solver | | |]; [| destruct Hi, Hg; lia ..].
      intros E'. apply Hni. rewrite E'. by apply list_elem_of_fmap_2.
  - intros x y. rewrite !elem_of_cons. intros [-> | Hx] [-> | Hy] Hne; [done | | |].
    + by apply (H2 d y); [left | right |].
    + by apply (H2 x d); [right | left |].
    + by apply (H2 x y); [right | right |].
  - done.
Qed.

(** ** Steps *)

Lemma ks_bud {A} (m : M buddy A) a P h P' h' SL CA :
  m (St b P h O mem) = Ok (a, St b P' h' O mem) -> on_bud m (KS P h SL CA) = Ok (a, KS P' h' SL CA).
Proof. intros H. unfold on_bud, zoom. cbn. unfold St in H. by rewrite H. Qed.

Section steps.
Context (P : gmap Z pageframe) (h : heap) (SL : gmap Z slab_t) (CA : gmap Z kmem_cache).

Lemma ks_lock pg p :
  P !! pg = Some p -> page_lk p = 1 ->
  on_bud (lock_pgfm pg) (KS P h SL CA) = Ok (tt, KS (<[pg := with_lk 0 p]> P) h SL CA).
Proof. intros. apply ks_bud. by apply lock_pgfm_Ok. Qed.
Lemma ks_unlock pg p :
  P !! pg = Some p -> page_lk p = 1 ->
  on_bud (unlock_pgfm pg) (KS (<[pg := with_lk 0 p]> P) h SL CA) = Ok (tt, KS P h SL CA).
Proof.
  intros Hp Hl. apply ks_bud. rewrite (unlock_pgfm_Ok _ _ _ _ _ _ (with_lk 0 p)) by (done || apply lookup_insert_eq).
  by rewrite insert_insert_eq, with_lk_id, insert_id.
Qed.
Lemma ks_page pg p : P !! pg = Some p -> on_bud (get_page pg) (KS P h SL CA) = Ok (p, KS P h SL CA).
Proof. intros. apply ks_bud. by apply get_page_Ok. Qed.
Lemma ks_list {A} (m : M heap A) a h' : m h = Ok (a, h') -> on_list m (KS P h SL CA) = Ok (a, KS P h' SL CA).
Proof. intros. apply ks_bud. by apply on_nodes_Ok. Qed.
Lemma ks_node_page d : node_page (d_node d) (KS P h SL CA) = Ok (d_pg d, KS P h SL CA).
Proof. unfold node_page, gets, d_node. cbn. by rewrite buddy_node_entry. Qed.
Lemma ks_page_node d : page_node (d_pg d) (KS P h SL CA) = Ok (d_node d, KS P h SL CA).
Proof. done. Qed.
Lemma ks_at_slab {A} a (m : M slab_t A) s r s' :
  SL !! a = Some s -> m s = Ok (r, s') ->
  at_slab a m (KS P h SL CA) = Ok (r, KS P h (<[a := s']> SL) CA).
Proof. intros Hs Hm. unfold at_slab, on_slabs, zoom. cbn. by rewrite Hs, Hm. Qed.
Lemma ks_get_slab a s : SL !! a = Some s -> get_slab a (KS P h SL CA) = Ok (s, KS P h SL CA).
Proof. intros Hs. unfold get_slab, on_slabs, zoom. cbn. by rewrite (load_Ok _ _ _ Hs). Qed.
Lemma ks_get_cache k : CA !! c = Some k -> get_cache c (KS P h SL CA) = Ok (k, KS P h SL CA).
Proof. intros Hs. unfold get_cache, on_caches, zoom. cbn. by rewrite (load_Ok _ _ _ Hs). Qed.
Lemma ks_set_cache k f :
  CA !! c = Some k -> set_cache c f (KS P h SL CA) = Ok (tt, KS P h SL (<[c := f k]> CA)).
Proof. intros Hs. unfold set_cache, on_caches, zoom. cbn. by rewrite (update_Ok _ _ _ _ Hs). Qed.
Lemma ks_lock_cache k :
  CA !! c = Some k -> kc_lk k = 1 ->
  lock_cache c (KS P h SL CA) = Ok (tt, KS P h SL (<[c := with_kc_lk 0 k]> CA)).
Proof. intros Hk Hl. unfold lock_cache. mstep (ks_get_cache k Hk). rewrite Hl. by apply ks_set_cache. Qed.
End steps.

(** The end of an operation: the number of free objects, and the lock. *)
Lemma ks_leave {A} P h SL CA k (f : Z -> Z) (r : A) :
  kc_lk k = 1 ->
  (set_cache c (fun k => with_obj_num (f (obj_num k)) k);; unlock_cache c;; ret r)
    (KS P h SL (<[c := with_kc_lk 0 k]> CA)) =
    Ok (r, KS P h SL (<[c := with_obj_num (f (obj_num k)) k]> CA)).
Proof.
  intros Hl. mstep (ks_set_cache P h SL _ _ (fun k => with_obj_num (f (obj_num k)) k) (lookup_insert_eq CA c (with_kc_lk 0 k))).
  unfold unlock_cache. mstep (ks_set_cache P h SL _ _ (fun k => with_kc_lk (Z.lor (kc_lk k) 1) k) (lookup_insert_eq (<[c := with_kc_lk 0 k]> CA) c
    (with_obj_num (f (obj_num (with_kc_lk 0 k))) (with_kc_lk 0 k)))).
  rewrite !insert_insert_eq. unfold ret. do 4 f_equal. destruct k. cbn in *. by subst.
Qed.

Lemma lookup_same {A} (m : gmap Z A) i x : <[i := x]> m !! i = Some x.
Proof using. apply lookup_insert_eq. Qed.

Create HintDb kmem.
Hint Resolve ks_lock ks_unlock ks_list ks_page ks_node_page ks_page_node ks_get_slab ks_get_cache ks_set_cache
  ks_lock_cache lookup_same : kmem.
(** [kstep] runs the next step of an operation by the lemmas above. *)
Ltac kstep := erewrite bind_Ok; [| solve [eauto with kmem nocore]]; cbn beta.

(** What an operation on the cache leaves alone. *)
Record only_cache (X : cache_slabs) (Fam Fam' : gmap Z (list Z)) (s s' : kmem) : Prop := {
  oc_rings : forall q, q ∉ heads -> Fam' !! q = Fam !! q;
  oc_pages : pages (frames_of (bud s')) = pages (frames_of (bud s));
  oc_dom : dom (nodes (frames_of (bud s'))) = dom (nodes (frames_of (bud s)));
  oc_slabs : forall a, a ∉ d_addr <$> all_slabs X -> slabs s' !! a = slabs s !! a;
  oc_caches : forall a, a <> c -> caches s' !! a = caches s !! a
}.

(** ** Allocation *)

Lemma d_avail_cons d i fl : d_free d = i :: fl -> d_avail d = slab_obj osize (d_start d) i :: d_avail (with_free fl d).
Proof. unfold d_avail. by intros ->. Qed.

(** Taking the first free object of a slab, its page locked. *)
Lemma take_object P h SL CA d rest i fl :
  slabs_ok P SL (d :: rest) -> d_free d = i :: fl ->
  exists p s', P !! d_pg d = Some p /\ page_lk p = 1 /\
    at_slab (d_addr d) slab_alloc (KS (<[d_pg d := with_lk 0 p]> P) h SL CA) =
      Ok (slab_obj osize (d_start d) i, KS (<[d_pg d := with_lk 0 p]> P) h (<[d_addr d := s']> SL) CA) /\
    slab_obj osize (d_start d) i <> NULL /\ obj_free s' = Z.of_nat (length fl) /\
    slabs_ok P (<[d_addr d := s']> SL) (with_free fl d :: rest).
Proof.
  intros Hok Hf. pose proof Hok as [[[(p & Hp & Hl & _) (s & Hs & Hinv) Hg Hin] _]%Forall_cons _ _].
  rewrite Hf in Hinv. destruct (slab_alloc_Ok n osize _ Hg s i fl Hinv) as (s' & E & Hinv').
  exists p, s'. split; [done |]. split; [done |]. split; [by apply (ks_at_slab _ _ _ _ _ _ s) |].
  split; [| split; [by apply (si_free _ _ _ _ _ Hinv') | by apply slabs_ok_update]].
  pose proof (slab_obj_bounds n osize _ Hg i (si_range _ _ _ _ _ Hinv i ltac:(set_solver))). unfold NULL. lia.
Qed.

Lemma slab_avail_sub P SL d : slab_ok P SL d -> d_avail d ⊆+ d_objs d.
Proof.
  intros [_ (s & _ & Hinv) Hg _]. unfold d_avail, d_objs. apply fmap_submseteq, NoDup_submseteq.
  - by apply (si_nodup _ _ _ _ _ Hinv).
  - intros i Hi%(si_range _ _ _ _ _ Hinv). apply elem_of_seqZ. lia.
Qed.
Lemma available_sub P SL X : slabs_ok P SL (all_slabs X) -> available X ⊆+ objects X.
Proof.
  intros [H _ _]. unfold available, objects. induction H as [|d A Hd HA IH]; [done |].
  cbn. apply submseteq_app; [by eapply slab_avail_sub | done].
Qed.

(** [a] was handed out. *)
Definition handed (k : kmem_cache) (X : cache_slabs) (Fam : gmap Z (list Z)) (s : kmem) (a : Z) (s' : kmem) : Prop :=
  a <> NULL /\ exists X' Fam', cache_ok (with_obj_num (obj_num k - 1) k) X' Fam' s' /\
    available X ≡ₚ a :: available X' /\ objects X' ≡ₚ objects X /\ only_cache X Fam Fam' s s' /\ slab_pages X' ≡ₚ slab_pages X.

Lemma available_split X d rest : all_slabs X ≡ₚ d :: rest -> available X ≡ₚ d_avail d ++ (rest ≫= d_avail).
Proof. unfold available. by intros ->. Qed.
Lemma objects_split X d rest : all_slabs X ≡ₚ d :: rest -> objects X ≡ₚ d_objs d ++ (rest ≫= d_objs).
Proof. unfold objects. by intros ->. Qed.

Lemma handed_intro P h SL CA k X Fam d rest i fl h' s1 X' Fam' :
  CA !! c = Some k -> kcache_ok k X -> slabs_ok P SL (all_slabs X) -> all_slabs X ≡ₚ d :: rest -> d_free d = i :: fl ->
  slab_obj osize (d_start d) i <> NULL ->
  slabs_ok P (<[d_addr d := s1]> SL) (with_free fl d :: rest) ->
  all_slabs X' ≡ₚ with_free fl d :: rest -> sorted_ok X' -> dlists h' Fam' -> rings_ok X' Fam' ->
  dom h' = dom h -> (forall q, q ∉ heads -> Fam' !! q = Fam !! q) ->
  handed k X Fam (KS P h SL CA) (slab_obj osize (d_start d) i)
    (KS P h' (<[d_addr d := s1]> SL) (<[c := with_obj_num (s32 (obj_num k - 1)) k]> CA)).
Proof.
  intros Hk [Ho Hb Hn Hbd] Hsl HX Hd Ha Hs HX' Hso Hdl Hr Hdom HF.
  assert (available X ≡ₚ slab_obj osize (d_start d) i :: available X') as Hav.
  { rewrite (available_split _ _ _ HX), (available_split _ _ _ HX'), (d_avail_cons _ _ _ Hd). done. }
  assert (objects X' ≡ₚ objects X) as Hob by by rewrite (objects_split _ _ _ HX), (objects_split _ _ _ HX').
  assert (Z.of_nat (length (available X)) <= Z.of_nat (length (objects X))) as Hle
    by (apply available_sub, submseteq_length in Hsl; lia).
  assert (obj_num k = Z.of_nat (length (available X')) + 1) as Hn' by (rewrite Hn, Hav; cbn; lia).
  split; [done |]. exists X', Fam'.
  rewrite s32_small by lia. split; [| split; [done | split; [done |]]].
  - exists P, h', (<[d_addr d := s1]> SL), (<[c := with_obj_num (obj_num k - 1) k]> CA).
    split; [done |]. split; [by rewrite lookup_insert_eq |]. split; [done |]. split; [done |].
    split; [by rewrite HX' |]. split; [done |]. split; [done | done | cbn; lia | by rewrite Hob].
  - split; [split; [done | done | done | |] | unfold slab_pages; by rewrite HX, HX'].
    + intros a Hna. apply lookup_insert_ne. intros <-. apply Hna. rewrite HX. apply list_elem_of_fmap_2. by left.
    + intros a Hna. by apply lookup_insert_ne.
Qed.

(** Moving the page of a slab to the end of another list. *)
Lemma move_page h Fam q1 q2 l1 x l2 l :
  dlists h Fam -> Fam !! q1 = Some (l1 ++ x :: l2) -> Fam !! q2 = Some l -> q1 <> q2 ->
  exists h1 h2, list_del x h = Ok (tt, h1) /\ list_add_tail x q2 h1 = Ok (tt, h2) /\
    dlists h2 (<[q2 := l ++ [x]]> (<[q1 := l1 ++ l2]> Fam)) /\ dom h2 = dom h.
Proof.
  intros Hd H1 H2 Hne. destruct (dlists_del h Fam q1 l1 l2 x Hd H1) as (h1 & E1 & D1 & Hdom1 & Hun).
  destruct (dlists_add_tail h1 _ q2 l x D1) as (h2 & E2 & D2 & Hdom2);
    [by rewrite lookup_insert_ne | | done |].
  - rewrite Hdom1. apply (dlist_dom h q1 (l1 ++ x :: l2)); [by apply Hd | set_solver].
  - exists h1, h2. split; [done |]. split; [done |]. split; [done |]. by rewrite Hdom2.
Qed.

(** [rings] looks the three lists up after a move; [other_rings] the others. *)
Ltac rings :=
  destruct heads_apart as (? & ? & ?);
  match goal with
  | H : rings_ok ?X _, EX : ?X = _ |- _ => destruct H as [? ? ?]; rewrite EX in *; cbn in *
  end;
  split; cbn; simplify_map_eq; rewrite ?fmap_app; done.
Ltac other_rings :=
  intros q Hq; unfold heads in Hq; rewrite !lookup_insert_ne by (intros <-; apply Hq; set_solver); done.

Section alloc.
Context (P : gmap Z pageframe) (h : heap) (SL : gmap Z slab_t) (CA : gmap Z kmem_cache).
Context (k : kmem_cache) (X : cache_slabs) (Fam : gmap Z (list Z)).
Context (Hk : CA !! c = Some k) (Hd : dlists h Fam) (Hr : rings_ok X Fam).
Context (Hsl : slabs_ok P SL (all_slabs X)) (Hso : sorted_ok X) (Hkc : kcache_ok k X).

Lemma first_page q d l : Fam !! q = Some (d_node d :: l) -> list_first_entry q h = Ok (d_node d, h).
Proof using Hd. intros H. apply (dlists_first h Fam q (d_node d :: l) Hd H). Qed.

Lemma alloc_partial_Ok d Pa :
  cs_partial X = d :: Pa ->
  exists a s', alloc_partial km c (KS P h SL (<[c := with_kc_lk 0 k]> CA)) = Ok (a, s') /\
    handed k X Fam (KS P h SL CA) a s'.
Proof using All.
  intros HX. destruct X as [F Q U] eqn:EX. cbn in HX. subst Q. rewrite <-EX in *.
  pose proof (so_partial _ Hso) as Hp. rewrite EX in Hp. cbn in Hp. apply Forall_cons in Hp as [Hp HPa].
  destruct (d_free d) as [|i fl] eqn:Efl; [cbn in Hp; lia |].
  set (rest := F ++ Pa ++ U).
  assert (all_slabs X ≡ₚ d :: rest) as HX by (rewrite EX; unfold all_slabs; cbn; symmetry; apply Permutation_middle).
  pose proof Hsl as Hsl0. rewrite HX in Hsl0.
  destruct (take_object P h SL (<[c := with_kc_lk 0 k]> CA) d rest i fl Hsl0 Efl)
    as (p & s1 & Epg & Elk & Et & Hnn & Hfree & Hsl').
  pose proof (ri_partial _ _ Hr) as Rp. pose proof (ri_full _ _ Hr) as Rf. rewrite EX in Rp, Rf. cbn in Rp, Rf.
  pose proof (so_full _ Hso) as HU. rewrite EX in HU. pose proof (so_free _ Hso) as HF. rewrite EX in HF. cbn in HU, HF.
  pose proof (first_page _ _ _ Rp) as Efirst.
  unfold alloc_partial. do 3 kstep. fold (d_addr d). mstep Et.
  unfold bind at 1, ASSERT at 1. rewrite (proj2 (Z.eqb_neq _ _) Hnn). cbn [negb].
  kstep. rewrite Hfree. destruct fl as [|j fl].
  - destruct (move_page h Fam _ _ [] (d_node d) _ _ Hd Rp Rf) as (h1 & h2 & E1 & E2 & Hd2 & Hdom);
      [apply heads_apart |].
    change (Z.of_nat (length []) =? 0) with true. cbn [when]. rewrite bind_bind. kstep. rewrite bind_bind.
    do 3 kstep. rewrite (ks_leave P h2 _ CA k (fun x => s32 (x - 1)) _ (kc_open _ _ Hkc)).
    eexists _, _. split; [done |].
    eapply (handed_intro _ _ _ _ _ _ _ d rest i [] _ _ (mk_slabs F Pa (U ++ [with_free [] d])) _ Hk Hkc); try done.
    + unfold all_slabs, rest. cbn. rewrite !app_assoc. by rewrite <-Permutation_cons_append.
    + split; cbn; [done | done |]. apply Forall_app. split; [done | by constructor].
    + rings.
    + other_rings.
  - rewrite (proj2 (Z.eqb_neq (Z.of_nat _) 0)) by (cbn; lia). cbn [when].
    unfold bind at 1, ret at 1. kstep. rewrite (ks_leave P h _ CA k (fun x => s32 (x - 1)) _ (kc_open _ _ Hkc)).
    eexists _, _. split; [done |].
    apply (handed_intro _ _ _ _ _ _ _ d rest i (j :: fl) _ _ (mk_slabs F (with_free (j :: fl) d :: Pa) U) Fam Hk Hkc); try done.
    + unfold all_slabs, rest. cbn. symmetry. apply Permutation_middle.
    + split; cbn; [done | | done]. constructor; [cbn in *; lia | done].
    + rings.
Qed.

Lemma alloc_free_Ok d F :
  cs_partial X = [] -> cs_free X = d :: F -> 0 < n ->
  exists a s', alloc_free km c (KS P h SL (<[c := with_kc_lk 0 k]> CA)) = Ok (a, s') /\
    handed k X Fam (KS P h SL CA) a s'.
Proof using All.
  intros HQ HX Hn. destruct X as [F' Q U] eqn:EX. cbn in HQ, HX. subst Q F'. rewrite <-EX in *.
  pose proof (so_free _ Hso) as Hp. rewrite EX in Hp. cbn in Hp. apply Forall_cons in Hp as [Hp HF].
  destruct (d_free d) as [|i fl] eqn:Efl; [cbn in Hp; lia |].
  set (rest := F ++ U).
  assert (all_slabs X ≡ₚ d :: rest) as HX by by rewrite EX.
  pose proof Hsl as Hsl0. rewrite HX in Hsl0.
  destruct (take_object P h SL (<[c := with_kc_lk 0 k]> CA) d rest i fl Hsl0 Efl)
    as (p & s1 & Epg & Elk & Et & Hnn & Hfree & Hsl').
  pose proof (ri_partial _ _ Hr) as Rp. pose proof (ri_full _ _ Hr) as Rf. pose proof (ri_free _ _ Hr) as Ro.
  rewrite EX in Rp, Rf, Ro. cbn in Rp, Rf, Ro.
  pose proof (so_full _ Hso) as HU. rewrite EX in HU. cbn in HU.
  pose proof (first_page _ _ _ Ro) as Efirst.
  unfold alloc_free. do 3 kstep. fold (d_addr d). mstep Et.
  unfold bind at 1, ASSERT at 1. rewrite (proj2 (Z.eqb_neq _ _) Hnn). cbn [negb].
  kstep. destruct fl as [|j fl].
  - destruct (move_page h Fam _ _ [] (d_node d) _ _ Hd Ro Rf) as (h1 & h2 & E1 & E2 & Hd2 & Hdom);
      [apply heads_apart |].
    do 2 kstep. rewrite Hfree. change (Z.of_nat (length []) =? 0) with true. cbn iota.
    do 2 kstep. rewrite (ks_leave P h2 _ CA k (fun x => s32 (x - 1)) _ (kc_open _ _ Hkc)).
    eexists _, _. split; [done |].
    eapply (handed_intro _ _ _ _ _ _ _ d rest i [] _ _ (mk_slabs F [] (U ++ [with_free [] d])) _ Hk Hkc); try done.
    + unfold all_slabs, rest. cbn. rewrite !app_assoc. by rewrite <-Permutation_cons_append.
    + split; cbn; [done | done |]. apply Forall_app. split; [done | by constructor].
    + rings.
    + other_rings.
  - destruct (move_page h Fam _ _ [] (d_node d) _ _ Hd Ro Rp) as (h1 & h2 & E1 & E2 & Hd2 & Hdom);
      [apply heads_apart |].
    do 2 kstep. rewrite Hfree. rewrite (proj2 (Z.eqb_neq (Z.of_nat _) 0)) by (cbn; lia).
    do 2 kstep. rewrite (ks_leave P h2 _ CA k (fun x => s32 (x - 1)) _ (kc_open _ _ Hkc)).
    eexists _, _. split; [done |].
    eapply (handed_intro _ _ _ _ _ _ _ d rest i (j :: fl) _ _ (mk_slabs F [with_free (j :: fl) d] U) _ Hk Hkc); try done.
    + unfold all_slabs, rest. cbn. symmetry. apply Permutation_middle.
    + split; cbn; [done | | done]. constructor; [cbn in *; lia | done].
    + rings.
    + other_rings.
Qed.
(** An object is free: from the lists on, with the cache locked. *)
Definition alloc_rest : M kmem Z :=
  no_partial ← on_list (list_empty (partial_of c));
  if negb no_partial then alloc_partial km c else alloc_free km c.

Lemma alloc_rest_Ok :
  0 < n -> available X <> [] ->
  exists a s', alloc_rest (KS P h SL (<[c := with_kc_lk 0 k]> CA)) = Ok (a, s') /\ handed k X Fam (KS P h SL CA) a s'.
Proof using All.
  intros Hn Hav. unfold alloc_rest. pose proof (list_empty_Ok h _ _ (proj1 Hd _ _ (ri_partial _ _ Hr))) as Ee. kstep.
  destruct (cs_partial X) as [|d Pa] eqn:EQ.
  - rewrite bool_decide_true by done. cbn [negb].
    destruct (cs_free X) as [|d F] eqn:EF; [| by eapply alloc_free_Ok].
    destruct Hav. unfold available, all_slabs. rewrite EQ, EF. cbn.
    pose proof (so_full _ Hso) as HU. induction HU as [|d U Hd0 HU IH]; [done |]. cbn. unfold d_avail at 1. by rewrite Hd0.
  - rewrite bool_decide_false by done. by eapply alloc_partial_Ok.
Qed.
End alloc.

Lemma kmem_obj_alloc_Ok k X Fam s :
  cache_ok k X Fam s -> c <> NULL -> 0 < n -> available X <> [] ->
  exists a s', kmem_obj_alloc km g_buddy stack_after c s = Ok (a, s') /\ handed k X Fam s a s'.
Proof.
  intros (P & h & SL & CA & -> & Hk & Hd & Hr & Hsl & Hso & Hkc) Hc Hn Hav.
  unfold kmem_obj_alloc. rewrite (proj2 (Z.eqb_neq _ _) Hc).
  pose proof (kc_open _ _ Hkc). do 2 kstep. cbn [obj_num with_kc_lk].
  rewrite (kc_number _ _ Hkc). rewrite (proj2 (Z.eqb_neq _ 0)) by (destruct (available X); [done | cbn; lia]).
  unfold bind at 1, ret at 1. cbn [negb]. by eapply alloc_rest_Ok.
Qed.

(** A cache that is exhausted, and may not grow. *)
Lemma kmem_obj_alloc_none k X Fam s :
  cache_ok k X Fam s -> available X = [] -> pg_orlimit k <= pg_orhas k ->
  kmem_obj_alloc km g_buddy stack_after c s = Ok (NULL, s).
Proof.
  intros (P & h & SL & CA & -> & Hk & Hd & Hr & Hsl & Hso & Hkc) Hav Hlim.
  unfold kmem_obj_alloc. destruct (c =? NULL); [done |].
  pose proof (kc_open _ _ Hkc) as Hl. do 2 kstep. cbn [obj_num with_kc_lk pg_orlimit pg_orhas].
  rewrite (kc_number _ _ Hkc), Hav. change (Z.of_nat (length []) =? 0) with true. cbn iota. rewrite (proj2 (Z.leb_le _ _) Hlim).
  unfold bind at 1, ret at 1. cbn [negb]. unfold unlock_cache. kstep. unfold ret. do 3 f_equal.
  rewrite insert_insert_eq. cbn [kc_lk with_kc_lk]. rewrite insert_id; [done |]. rewrite Hk. destruct k. cbn in *. by subst.
Qed.

(** ** Release *)

(** [a] was given back. *)
Definition returned (k : kmem_cache) (X : cache_slabs) (Fam : gmap Z (list Z)) (s : kmem) (a : Z) (s' : kmem) : Prop :=
  exists X' Fam', cache_ok (with_obj_num (obj_num k + 1) k) X' Fam' s' /\
    available X' ≡ₚ a :: available X /\ objects X' ≡ₚ objects X /\ only_cache X Fam Fam' s s' /\ slab_pages X' ≡ₚ slab_pages X.

Lemma d_avail_snoc d i :
  d_avail (with_free (d_free d ++ [i]) d) = d_avail d ++ [slab_obj osize (d_start d) i].
Proof. unfold d_avail. cbn. by rewrite fmap_app. Qed.

Lemma returned_intro P h SL CA k X Fam d rest i h' s1 X' Fam' :
  CA !! c = Some k -> kcache_ok k X -> all_slabs X ≡ₚ d :: rest ->
  slabs_ok P (<[d_addr d := s1]> SL) (with_free (d_free d ++ [i]) d :: rest) ->
  all_slabs X' ≡ₚ with_free (d_free d ++ [i]) d :: rest -> sorted_ok X' -> dlists h' Fam' -> rings_ok X' Fam' ->
  dom h' = dom h -> (forall q, q ∉ heads -> Fam' !! q = Fam !! q) ->
  returned k X Fam (KS P h SL CA) (slab_obj osize (d_start d) i)
    (KS P h' (<[d_addr d := s1]> SL) (<[c := with_obj_num (s32 (obj_num k + 1)) k]> CA)).
Proof.
  intros Hk [Ho Hb Hn Hbd] HX Hs HX' Hso Hdl Hr Hdom HF.
  assert (available X' ≡ₚ slab_obj osize (d_start d) i :: available X) as Hav.
  { rewrite (available_split _ _ _ HX), (available_split _ _ _ HX'), d_avail_snoc, <-app_assoc.
    symmetry. apply Permutation_middle. }
  assert (objects X' ≡ₚ objects X) as Hob by by rewrite (objects_split _ _ _ HX), (objects_split _ _ _ HX').
  rewrite <-HX' in Hs. pose proof (available_sub _ _ _ Hs) as Hle%submseteq_length. rewrite Hav, Hob in Hle. cbn in Hle.
  exists X', Fam'. rewrite s32_small by lia. split; [| split; [done | split; [done |]]].
  - exists P, h', (<[d_addr d := s1]> SL), (<[c := with_obj_num (obj_num k + 1) k]> CA).
    split; [done |]. split; [by rewrite lookup_insert_eq |]. split; [done |]. split; [done |].
    split; [done |]. split; [done |]. split; [done | done | rewrite Hav; cbn; lia | by rewrite Hob].
  - split; [split; [done | done | done | |] | unfold slab_pages; by rewrite HX, HX'].
    + intros a Hna. apply lookup_insert_ne. intros <-. apply Hna. rewrite HX. apply list_elem_of_fmap_2. by left.
    + intros a Hna. by apply lookup_insert_ne.
Qed.

(** Putting an object back into its slab. *)
Lemma put_object P SL d rest i :
  slabs_ok P SL (d :: rest) -> 0 <= i < n -> i ∉ d_free d ->
  exists s1, (forall P0 h CA, at_slab (d_addr d) (slab_free (slab_obj osize (d_start d) i)) (KS P0 h SL CA) =
      Ok (tt, KS P0 h (<[d_addr d := s1]> SL) CA)) /\
    obj_free s1 = Z.of_nat (length (d_free d)) + 1 /\ obj_all s1 = n /\
    slabs_ok P (<[d_addr d := s1]> SL) (with_free (d_free d ++ [i]) d :: rest).
Proof.
  intros Hok Hi Hf. pose proof Hok as [[[_ (s & Hs & Hinv) Hg Hin] _]%Forall_cons _ _].
  destruct (slab_free_Ok n osize _ Hg s i _ Hinv Hi Hf) as (s1 & E & Hinv').
  exists s1. split; [intros; by apply (ks_at_slab _ _ _ _ _ _ s) |].
  split; [| split; [by apply (si_all _ _ _ _ _ Hinv') | by apply slabs_ok_update]].
  rewrite (si_free _ _ _ _ _ Hinv'), length_app. cbn. lia.
Qed.

(** The object [i] of slab [d] lies in the block of [d] and in no other. *)
Lemma in_block_self P SL d i : slab_ok P SL d -> 0 <= i < n -> in_block (slab_obj osize (d_start d) i) (d_addr d) bsize = true.
Proof.
  intros [_ _ Hg Hin] Hi. destruct (slab_obj_bounds n osize _ Hg i Hi) as (B1 & _ & B3). unfold in_block, slab_obj in *.
  destruct Hg as [G1 G2 G3 G4 G5].
  assert (0 <= d_addr d) by (unfold d_addr, pg2va, id2va; apply u64_range).
  rewrite u64_small by lia. rewrite (proj2 (Z.ltb_lt _ _)), (proj2 (Z.ltb_lt _ _)) by lia. done.
Qed.
Lemma in_block_other P SL A d e i :
  slabs_ok P SL A -> d ∈ A -> e ∈ A -> d_pg d <> d_pg e -> 0 <= i < n ->
  in_block (slab_obj osize (d_start d) i) (d_addr e) bsize = false.
Proof.
  intros [HF Hap _] Hd He Hne Hi. rewrite Forall_forall in HF.
  destruct (HF d Hd) as [_ _ Hg Hin]. pose proof (HF e He) as [_ _ Hg' Hin''].
  destruct (slab_obj_bounds n osize _ Hg i Hi) as (B1 & _ & B3). unfold in_block, slab_obj in *.
  destruct Hg as [G1 G2 G3 G4 G5].
  assert (0 <= d_addr e) by (unfold d_addr, pg2va, id2va; apply u64_range).
  destruct Hg' as [G1' G2' G3' G4' G5'].
  rewrite u64_small by nia.
  destruct (Hap d e Hd He Hne); apply andb_false_iff; [left | right]; apply Z.ltb_ge; lia.
Qed.

Section release.
Context (P : gmap Z pageframe) (h : heap) (SL : gmap Z slab_t) (CA : gmap Z kmem_cache).
Context (k : kmem_cache) (X : cache_slabs) (Fam : gmap Z (list Z)).
Context (Hk : CA !! c = Some k) (Hd : dlists h Fam) (Hr : rings_ok X Fam).
Context (Hsl : slabs_ok P SL (all_slabs X)) (Hso : sorted_ok X) (Hkc : kcache_ok k X).
Let s0 := KS P h SL (<[c := with_kc_lk 0 k]> CA).

(** The visit of a slab up to the test of the address. *)
Lemma slab_here d : d ∈ all_slabs X ->
  exists p s, P !! d_pg d = Some p /\ page_lk p = 1 /\ pgtype p = SLAB_ALLOCATOR /\ buddy_flags p = PG_BUDDY_FLAG_HEAD /\
    SL !! d_addr d = Some s /\ obj_free s = Z.of_nat (length (d_free d)) /\ obj_all s = n.
Proof using Hsl.
  intros Hin. pose proof Hsl as [HF _ _]. rewrite Forall_forall in HF.
  destruct (HF d Hin) as [(p & ? & ? & ? & ?) (s & Hs & Hinv) _ _]. exists p, s.
  do 5 (split; [done |]). split; [by apply (si_free _ _ _ _ _ Hinv) | by apply (si_all _ _ _ _ _ Hinv)].
Qed.

Lemma skip_partial a e :
  e ∈ cs_partial X -> in_block a (d_addr e) bsize = false ->
  free_partial km c a bsize tt (d_node e) s0 = Ok (Next tt, s0).
Proof using Hsl Hso.
  clear Hk Hd Hr Hkc Fam. intros He Hb. destruct (slab_here e) as (p & s & Hp & Hl & Ht & Hf & Hs & Hof & Hoa).
  { unfold all_slabs. set_solver. }
  pose proof (so_partial _ Hso) as Hq. rewrite Forall_forall in Hq. specialize (Hq e He).
  unfold free_partial, s0. do 2 kstep. kstep. unfold bind at 1, ASSERT at 1.
  cbn [pgtype buddy_flags with_lk]. rewrite Ht, Hf, bool_decide_true, Z.eqb_refl by done. cbn [andb].
  fold (d_addr e). kstep. unfold bind at 1, ASSERT at 1. rewrite Hof, Hoa, (proj2 (Z.ltb_lt _ _)) by lia.
  rewrite Hb. by kstep.
Qed.

Lemma skip_full a e :
  e ∈ cs_full X -> in_block a (d_addr e) bsize = false ->
  free_full km c a bsize tt (d_node e) s0 = Ok (Next tt, s0).
Proof using Hsl Hso.
  clear Hk Hd Hr Hkc Fam. intros He Hb. destruct (slab_here e) as (p & s & Hp & Hl & Ht & Hf & Hs & Hof & Hoa).
  { unfold all_slabs. set_solver. }
  pose proof (so_full _ Hso) as Hq. rewrite Forall_forall in Hq. specialize (Hq e He).
  unfold free_full, s0. do 2 kstep. kstep. unfold bind at 1, ASSERT at 1.
  cbn [pgtype buddy_flags with_lk]. rewrite Ht, Hf, bool_decide_true, Z.eqb_refl by done. cbn [andb].
  fold (d_addr e). kstep. unfold bind at 1, ASSERT at 1. rewrite Hof, Hq.
  change (Z.of_nat (length []) =? 0) with true. cbn iota.
  rewrite Hb. by kstep.
Qed.

Section hit.
Context (d : slab_desc) (i : Z) (Hi : 0 <= i < n) (Hf : i ∉ d_free d).
Let a := slab_obj osize (d_start d) i.

Lemma hit_partial P1 P2 :
  cs_partial X = P1 ++ d :: P2 ->
  exists s', free_partial km c a bsize tt (d_node d) s0 = Ok (Return tt, s') /\
    returned k X Fam (KS P h SL CA) a s'.
Proof using All.
  intros HX. assert (exists F U, X = mk_slabs F (P1 ++ d :: P2) U) as (F & U & EX)
    by (rewrite <-HX; exists (cs_free X), (cs_full X); by destruct X).
  clear HX.
  set (rest := F ++ P1 ++ P2 ++ U).
  assert (all_slabs X ≡ₚ d :: rest) as HX.
  { rewrite EX. unfold all_slabs, rest. cbn. rewrite <-app_assoc. cbn. by rewrite <-!Permutation_middle. }
  destruct (slab_here d) as (p & s & Hp & Hl & Ht & Hfl & Hs & Hof & Hoa); [rewrite HX; by left |].
  pose proof Hsl as Hsl0. rewrite HX in Hsl0. pose proof (sl_ok _ _ _ Hsl0) as Hd0. apply Forall_cons in Hd0 as [Hd0 _].
  pose proof (so_partial _ Hso) as HQ. rewrite EX in HQ. cbn in HQ.
  apply Forall_app in HQ as [HP1 HQ]. apply Forall_cons in HQ as [Hdp HP2].
  pose proof (so_full _ Hso) as HU. rewrite EX in HU. pose proof (so_free _ Hso) as HF. rewrite EX in HF. cbn in HU, HF.
  pose proof (ri_partial _ _ Hr) as Rp. pose proof (ri_free _ _ Hr) as Ro. rewrite EX in Rp, Ro. cbn in Rp, Ro.
  rewrite fmap_app in Rp. cbn in Rp.
  destruct (put_object P SL d rest i Hsl0 Hi Hf) as (s1 & Et & Hf1 & Ha1 & Hsl').
  unfold free_partial, s0. do 3 kstep. unfold bind at 1, ASSERT at 1.
  cbn [pgtype buddy_flags with_lk]. rewrite Ht, Hfl, bool_decide_true, Z.eqb_refl by done. cbn [andb].
  fold (d_addr d). kstep. unfold bind at 1, ASSERT at 1. rewrite Hof, Hoa, (proj2 (Z.ltb_lt _ _)) by lia.
  unfold a. rewrite (in_block_self _ _ _ _ Hd0 Hi). mstep (Et (<[d_pg d := with_lk 0 p]> P) h (<[c := with_kc_lk 0 k]> CA)).
  kstep. rewrite Hf1, Ha1. destruct (Z.eqb_spec (Z.of_nat (length (d_free d)) + 1) n) as [En | En]; cbn [when].
  - destruct (move_page h Fam _ _ _ (d_node d) _ _ Hd Rp Ro) as (h1 & h2 & E1 & E2 & Hd2 & Hdom);
      [unfold free_of, partial_of, full_of; lia |].
    rewrite bind_bind. kstep. rewrite bind_bind. do 3 kstep.
    rewrite (ks_leave P h2 _ CA k (fun x => s32 (x + 1)) _ (kc_open _ _ Hkc)).
    eexists. split; [done |].
    eapply (returned_intro _ _ _ _ _ _ _ d rest i _ _ (mk_slabs (F ++ [with_free (d_free d ++ [i]) d]) (P1 ++ P2) U) _ Hk Hkc); try done.
    + unfold all_slabs, rest. cbn. rewrite <-!app_assoc. cbn. by rewrite <-Permutation_middle.
    + split; cbn; [| by apply Forall_app | done]. apply Forall_app. split; [done |]. constructor; [| done].
      cbn. rewrite length_app. cbn. lia.
    + rings.
    + other_rings.
  - unfold bind at 1, ret at 1. kstep. rewrite (ks_leave P h _ CA k (fun x => s32 (x + 1)) _ (kc_open _ _ Hkc)).
    eexists. split; [done |].
    eapply (returned_intro _ _ _ _ _ _ _ d rest i _ _ (mk_slabs F (P1 ++ with_free (d_free d ++ [i]) d :: P2) U) Fam Hk Hkc); try done.
    + unfold all_slabs, rest. cbn. rewrite <-app_assoc. cbn. by rewrite <-!Permutation_middle.
    + split; cbn; [done | | done]. apply Forall_app. split; [done |]. constructor; [| done].
      cbn. rewrite length_app. cbn. lia.
    + rings.
Qed.

Lemma hit_full U1 U2 :
  cs_full X = U1 ++ d :: U2 ->
  exists s', free_full km c a bsize tt (d_node d) s0 = Ok (Return tt, s') /\
    returned k X Fam (KS P h SL CA) a s'.
Proof using All.
  intros HX. assert (exists F Q, X = mk_slabs F Q (U1 ++ d :: U2)) as (F & Q & EX)
    by (rewrite <-HX; exists (cs_free X), (cs_partial X); by destruct X).
  clear HX.
  set (rest := F ++ Q ++ U1 ++ U2).
  assert (all_slabs X ≡ₚ d :: rest) as HX.
  { rewrite EX. unfold all_slabs, rest. cbn. by rewrite <-!Permutation_middle. }
  destruct (slab_here d) as (p & s & Hp & Hl & Ht & Hfl & Hs & Hof & Hoa); [rewrite HX; by left |].
  pose proof Hsl as Hsl0. rewrite HX in Hsl0. pose proof (sl_ok _ _ _ Hsl0) as Hd0. apply Forall_cons in Hd0 as [Hd0 _].
  pose proof (so_full _ Hso) as HU. rewrite EX in HU. cbn in HU.
  apply Forall_app in HU as [HU1 HU]. apply Forall_cons in HU as [Hdf HU2].
  pose proof (so_partial _ Hso) as HQ. rewrite EX in HQ. pose proof (so_free _ Hso) as HF. rewrite EX in HF. cbn in HQ, HF.
  pose proof (ri_partial _ _ Hr) as Rp. pose proof (ri_free _ _ Hr) as Ro. pose proof (ri_full _ _ Hr) as Rf.
  rewrite EX in Rp, Ro, Rf. cbn in Rp, Ro, Rf. rewrite fmap_app in Rf. cbn in Rf.
  destruct (put_object P SL d rest i Hsl0 Hi Hf) as (s1 & Et & Hf1 & Ha1 & Hsl').
  unfold free_full, s0. do 3 kstep. unfold bind at 1, ASSERT at 1.
  cbn [pgtype buddy_flags with_lk]. rewrite Ht, Hfl, bool_decide_true, Z.eqb_refl by done. cbn [andb].
  fold (d_addr d). kstep. unfold bind at 1, ASSERT at 1. rewrite Hof, Hdf.
  change (Z.of_nat (length []) =? 0) with true. cbn iota.
  unfold a. rewrite (in_block_self _ _ _ _ Hd0 Hi). mstep (Et (<[d_pg d := with_lk 0 p]> P) h (<[c := with_kc_lk 0 k]> CA)).
  kstep. rewrite Hdf in Hf1. change (obj_free s1 = 1) in Hf1.
  destruct (Z.eqb_spec 1 n) as [En | En].
  - destruct (move_page h Fam _ _ _ (d_node d) _ _ Hd Rf Ro) as (h1 & h2 & E1 & E2 & Hd2 & Hdom);
      [unfold free_of, partial_of, full_of; lia |].
    kstep. kstep. rewrite Hf1, Ha1, (proj2 (Z.eqb_eq _ _) En). do 2 kstep.
    rewrite (ks_leave P h2 _ CA k (fun x => s32 (x + 1)) _ (kc_open _ _ Hkc)).
    eexists. split; [done |].
    eapply (returned_intro _ _ _ _ _ _ _ d rest i _ _ (mk_slabs (F ++ [with_free (d_free d ++ [i]) d]) Q (U1 ++ U2)) _ Hk Hkc); try done.
    + unfold all_slabs, rest. cbn. rewrite <-!app_assoc. cbn. by rewrite <-Permutation_middle.
    + split; cbn; [| done | by apply Forall_app]. apply Forall_app. split; [done |]. constructor; [| done].
      cbn. rewrite Hdf. cbn. lia.
    + rings.
    + other_rings.
  - destruct (move_page h Fam _ _ _ (d_node d) _ _ Hd Rf Rp) as (h1 & h2 & E1 & E2 & Hd2 & Hdom);
      [unfold free_of, partial_of, full_of; lia |].
    kstep. kstep. rewrite Hf1, Ha1, (proj2 (Z.eqb_neq _ _) En). do 2 kstep.
    rewrite (ks_leave P h2 _ CA k (fun x => s32 (x + 1)) _ (kc_open _ _ Hkc)).
    eexists. split; [done |].
    eapply (returned_intro _ _ _ _ _ _ _ d rest i _ _ (mk_slabs F (Q ++ [with_free (d_free d ++ [i]) d]) (U1 ++ U2)) _ Hk Hkc); try done.
    + unfold all_slabs, rest. cbn. rewrite <-!app_assoc. cbn. by rewrite <-!Permutation_middle.
    + split; cbn; [done | | by apply Forall_app]. apply Forall_app. split; [done |]. constructor; [| done].
      cbn. rewrite Hdf. cbn. lia.
    + rings.
    + other_rings.
Qed.
End hit.

(** The visit of a list of slabs, as [kmem_obj_free] makes it. *)
Definition walk (head : Z) (body : unit -> Z -> M kmem (step unit unit)) : M kmem (step unit unit) :=
  first ← on_list (get_next head);
  fuel ← gets (fun s => list_fuel (nodes (frames_of (bud s))));
  list_for_each_safe (fun s => nodes (frames_of (bud s))) fuel head first body tt.

Lemma slab_walk_start q l body :
  Fam !! q = Some l ->
  walk q body s0 = list_for_each_safe (fun s => nodes (frames_of (bud s))) (list_fuel h) q (first_node q l) body tt s0.
Proof using Hd.
  intros Hq. unfold walk, s0. mstep (ks_list P h SL (<[c := with_kc_lk 0 k]> CA) _ _ _ (dlists_first h Fam q l Hd Hq)).
  done.
Qed.

Lemma walk_miss q L body :
  Fam !! q = Some (d_node <$> L) -> (forall e, e ∈ L -> body tt (d_node e) s0 = Ok (Next tt, s0)) ->
  walk q body s0 = Ok (Next tt, s0).
Proof using Hd.
  intros Hq Hb. rewrite (slab_walk_start _ _ _ Hq).
  apply (list_for_each_safe_miss (fun s => nodes (frames_of (bud s))) q body tt s0); [by apply Hd |].
  intros y (e & -> & He)%list_elem_of_fmap. by apply Hb.
Qed.

Lemma walk_hit q L1 d L2 body s' :
  Fam !! q = Some (d_node <$> (L1 ++ d :: L2)) -> (forall e, e ∈ L1 -> body tt (d_node e) s0 = Ok (Next tt, s0)) ->
  body tt (d_node d) s0 = Ok (Return tt, s') ->
  walk q body s0 = Ok (Return tt, s').
Proof using Hd.
  intros Hq Hb Hx. rewrite (slab_walk_start _ _ _ Hq). rewrite fmap_app in *. cbn in *.
  apply (list_for_each_safe_hit (fun s => nodes (frames_of (bud s))) q body tt s0); [by apply Hd | | done].
  intros y (e & -> & He)%list_elem_of_fmap. by apply Hb.
Qed.

(** The slab of an object that is not free, and its list. *)
Lemma held_slab a :
  a ∈ objects X -> a ∉ available X ->
  exists d i, a = slab_obj osize (d_start d) i /\ 0 <= i < n /\ i ∉ d_free d /\ d ∈ all_slabs X /\
    (d ∈ cs_partial X \/ d ∈ cs_full X).
Proof using Hsl Hso.
  clear Hk Hd Hr Hkc Fam. intros (d & Ha & Hd)%list_elem_of_bind Hav.
  apply list_elem_of_fmap in Ha as (i & -> & Hi%elem_of_seqZ).
  assert (i ∉ d_free d) as Hni.
  { intros Hin. apply Hav. apply list_elem_of_bind. exists d. split; [by apply list_elem_of_fmap_2 | done]. }
  exists d, i. do 2 (split; [done || lia |]). split; [done |]. split; [done |].
  pose proof Hd as Hin. unfold all_slabs in Hin. rewrite !elem_of_app in Hin. destruct Hin as [HF | [H | H]]; [| auto ..].
  exfalso. pose proof (so_free _ Hso) as Hf. rewrite Forall_forall in Hf. specialize (Hf d HF).
  destruct Hsl as [Hall _ _]. rewrite Forall_forall in Hall. destruct (Hall d Hd) as [_ (s & _ & Hinv) _ _].
  assert (d_free d ⊆+ seqZ 0 n) as Hsub.
  { apply NoDup_submseteq; [by apply (si_nodup _ _ _ _ _ Hinv) |]. intros j Hj%(si_range _ _ _ _ _ Hinv).
    apply elem_of_seqZ. lia. }
  apply submseteq_length_Permutation in Hsub; [| rewrite length_seqZ; lia].
  apply Hni. rewrite Hsub. apply elem_of_seqZ. lia.
Qed.

Lemma kmem_free_locked a :
  a ∈ objects X -> a ∉ available X -> a <> NULL -> c <> NULL ->
  exists s', kmem_obj_free km c a (KS P h SL CA) = Ok (tt, s') /\ returned k X Fam (KS P h SL CA) a s'.
Proof using All.
  intros Ha Hav Hn Hc. destruct (held_slab a Ha Hav) as (d & i & -> & Hi & Hf & Hin & HL).
  assert (forall e, e ∈ all_slabs X -> d_pg d <> d_pg e ->
    in_block (slab_obj osize (d_start d) i) (d_addr e) bsize = false) as Hother.
  { intros e He Hne. by apply (in_block_other P SL (all_slabs X)). }
  assert (forall e, e ∈ all_slabs X -> d_pg d = d_pg e -> d = e) as Hsame.
  { intros e He E. destruct Hsl as [_ _ Hnd]. apply list_elem_of_lookup in Hin as [x Hx], He as [y Hy].
    assert (x = y) as ->; [| congruence].
    eapply NoDup_lookup; [exact Hnd | by rewrite list_lookup_fmap, Hx | by rewrite list_lookup_fmap, Hy, E]. }
  assert (forall L1 L2, (forall e, e ∈ L1 ++ d :: L2 -> e ∈ all_slabs X) -> NoDup (d_pg <$> (L1 ++ d :: L2)) ->
    forall e, e ∈ L1 -> d_pg d <> d_pg e) as Hbefore.
  { intros L1 L2 _ Hnd e He E. rewrite fmap_app in Hnd. apply NoDup_app in Hnd as (_ & Hx & _).
    apply (Hx (d_pg e)); [by apply list_elem_of_fmap_2 | rewrite <-E; set_solver]. }
  pose proof (sl_pages _ _ _ Hsl) as Hnd. unfold all_slabs in Hnd. rewrite !fmap_app in Hnd.
  apply NoDup_app in Hnd as (_ & _ & Hnd). apply NoDup_app in Hnd as (NP & NPU & NU).
  unfold kmem_obj_free. rewrite (proj2 (Z.eqb_neq _ _) Hc), (proj2 (Z.eqb_neq _ _) Hn). cbn [orb].
  pose proof (kc_open _ _ Hkc). do 2 kstep. cbn [pg_order with_kc_lk]. rewrite <-(kc_block _ _ Hkc).
  fold (walk (partial_of c) (free_partial km c (slab_obj osize (d_start d) i) bsize)).
  fold (walk (full_of c) (free_full km c (slab_obj osize (d_start d) i) bsize)). fold s0.
  destruct (decide (d ∈ cs_partial X)) as [HP | HP].
  - apply list_elem_of_split in HP as (P1 & P2 & HX).
    destruct (hit_partial d i Hi Hf P1 P2 HX) as (s' & E & HR). exists s'. split; [| done].
    pose proof (ri_partial _ _ Hr) as Rp. rewrite HX in Rp, NP.
    mstep (walk_hit _ _ _ _ _ _ Rp (fun e He => skip_partial _ e ltac:(rewrite HX; set_solver)
      (Hother e ltac:(unfold all_slabs; rewrite HX; set_solver) (Hbefore P1 P2 ltac:(unfold all_slabs; rewrite HX; set_solver) NP e He))) E).
    done.
  - destruct HL as [? | HU]; [done |].
    apply list_elem_of_split in HU as (U1 & U2 & HX).
    destruct (hit_full d i Hi Hf U1 U2 HX) as (s' & E & HR). exists s'. split; [| done].
    mstep (walk_miss _ _ _ (ri_partial _ _ Hr) (fun e He => skip_partial _ e He
      (Hother e ltac:(unfold all_slabs; set_solver) ltac:(intros Eq; apply HP; by rewrite (Hsame e ltac:(unfold all_slabs; set_solver) Eq))))).
    pose proof (ri_full _ _ Hr) as Rf. rewrite HX in Rf, NU.
    mstep (walk_hit _ _ _ _ _ _ Rf (fun e He => skip_full _ e ltac:(rewrite HX; set_solver)
      (Hother e ltac:(unfold all_slabs; rewrite HX; set_solver) (Hbefore U1 U2 ltac:(unfold all_slabs; rewrite HX; set_solver) NU e He))) E).
    done.
Qed.
End release.

Lemma kmem_obj_free_Ok k X Fam s a :
  cache_ok k X Fam s -> c <> NULL -> a <> NULL -> a ∈ objects X -> a ∉ available X ->
  exists s', kmem_obj_free km c a s = Ok (tt, s') /\ returned k X Fam s a s'.
Proof.
  intros (P & h & SL & CA & -> & Hk & Hd & Hr & Hsl & Hso & Hkc) Hc Hn Ha Hav. by eapply kmem_free_locked.
Qed.

(** ** Objects *)

(** Two ranges of [osize] bytes share nothing. *)
Definition apart (a b' : Z) : Prop := a + osize <= b' \/ b' + osize <= a.

Lemma object_at P SL A a : slabs_ok P SL A -> a ∈ A ≫= d_objs ->
  exists d i, d ∈ A /\ slab_ok P SL d /\ 0 <= i < n /\ a = slab_obj osize (d_start d) i.
Proof.
  intros [H _ _] (d & Ha & Hd)%list_elem_of_bind. apply list_elem_of_fmap in Ha as (i & -> & Hi%elem_of_seqZ).
  rewrite Forall_forall in H. exists d, i. split; [done |]. split; [by apply H |]. split; [lia | done].
Qed.

(** Objects of different slabs. *)
Lemma objects_cross P SL A d e a b' :
  slabs_ok P SL A -> d ∈ A -> e ∈ A -> d_pg d <> d_pg e -> a ∈ d_objs d -> b' ∈ d_objs e -> apart a b'.
Proof.
  intros [H Hap _] Hd He Hne Ha Hb. rewrite Forall_forall in H.
  apply list_elem_of_fmap in Ha as (i & -> & Hi%elem_of_seqZ), Hb as (j & -> & Hj%elem_of_seqZ).
  destruct (H d Hd) as [_ _ [G1 G2 G3 G4 G5] (I1 & I2 & _)].
  destruct (H e He) as [_ _ [_ _ _ _ _] (I3 & I4 & _)].
  unfold apart, slab_obj. destruct (Hap d e Hd He Hne); [left | right]; nia.
Qed.

Lemma objects_apart P SL A a b' :
  slabs_ok P SL A -> a ∈ A ≫= d_objs -> b' ∈ A ≫= d_objs -> a <> b' -> apart a b'.
Proof.
  intros Hsl (d & Ha & Hd)%list_elem_of_bind (e & Hb & He)%list_elem_of_bind Hne.
  destruct (decide (d_pg d = d_pg e)) as [Epg | Hpg]; [| by apply (objects_cross P SL A d e)].
  assert (d = e) as <-.
  { destruct Hsl as [_ _ Hnd]. apply list_elem_of_lookup in Hd as [x Hx], He as [y Hy].
    assert (x = y) as ->; [| congruence].
    eapply NoDup_lookup; [exact Hnd | by rewrite list_lookup_fmap, Hx | by rewrite list_lookup_fmap, Hy, Epg]. }
  apply list_elem_of_fmap in Ha as (i & -> & Hi%elem_of_seqZ), Hb as (j & -> & Hj%elem_of_seqZ).
  destruct Hsl as [H _ _]. rewrite Forall_forall in H. destruct (H d Hd) as [_ _ [G1 G2 G3 G4 G5] _].
  unfold apart, slab_obj in *. assert (i <> j) by congruence. nia.
Qed.

Lemma objects_NoDup P SL A : slabs_ok P SL A -> NoDup (A ≫= d_objs).
Proof.
  induction A as [|d A IH]; intros Hsl; [constructor |]. cbn.
  pose proof Hsl as [H Hap Hnd]. apply Forall_cons in H as [Hd HA]. apply NoDup_cons in Hnd as [Hni Hnd].
  apply NoDup_app. split; [| split].
  - apply NoDup_fmap_2_strong; [| apply NoDup_seqZ]. destruct Hd as [_ _ Hg _]. intros i j _ _. by apply (slab_obj_inj n osize _ Hg).
  - intros a Ha (e & Hb & He)%list_elem_of_bind.
    assert (apart a a) as Hx.
    { apply (objects_cross P SL (d :: A) d e); [done | by left | by right | | done | done].
      intros E. apply Hni. rewrite E. by apply list_elem_of_fmap_2. }
    destruct Hd as [_ _ [_ ? _ _ _] _]. unfold apart in Hx. lia.
  - apply IH. split; [done | | done]. intros x y Hx Hy. apply Hap; by right.
Qed.

(** ** A client *)

(** What a client reaches from [s0] that allocates and gives back what it
    holds; [held] are the objects it holds. *)
Inductive client (s0 : kmem) : kmem -> list Z -> Prop :=
  | client_start : client s0 s0 []
  | client_alloc s held a s' :
      client s0 s held -> kmem_obj_alloc km g_buddy stack_after c s = Ok (a, s') ->
      client s0 s' (if a =? NULL then held else a :: held)
  | client_free s held a s' :
      client s0 s held -> a ∈ held -> kmem_obj_free km c a s = Ok (tt, s') ->
      client s0 s' (filter (fun x => x <> a) held).

(** Every object is free or held. *)
Definition served (k0 : kmem_cache) (X0 : cache_slabs) (s : kmem) (held : list Z) : Prop :=
  exists k X Fam, cache_ok k X Fam s /\ available X ++ held ≡ₚ objects X0 /\ objects X ≡ₚ objects X0 /\
    pg_orlimit k = pg_orlimit k0 /\ pg_orhas k = pg_orhas k0 /\ NULL ∉ objects X0 /\ NoDup (objects X0).

Lemma objects_pos P SL A : slabs_ok P SL A -> NULL ∉ A ≫= d_objs.
Proof.
  intros Hsl Hin. destruct (object_at P SL A _ Hsl Hin) as (d & i & _ & [_ _ Hg _] & Hi & E).
  destruct (slab_obj_bounds n osize _ Hg i Hi) as (_ & B & _). rewrite <-E in B. unfold NULL in B. lia.
Qed.

Lemma served_alloc k0 X0 s held :
  c <> NULL -> pg_orlimit k0 <= pg_orhas k0 -> served k0 X0 s held ->
  exists a s', kmem_obj_alloc km g_buddy stack_after c s = Ok (a, s') /\
    served k0 X0 s' (if a =? NULL then held else a :: held) /\
    (a = NULL <-> held ≡ₚ objects X0) /\ (a <> NULL -> a ∈ objects X0 /\ a ∉ held).
Proof.
  intros Hc Hlim (k & X & Fam & Hok & Hav & Hob & Hl & Hh & H0 & Hnd).
  destruct (available X) as [|b0 l] eqn:EA.
  - exists NULL, s. split; [apply (kmem_obj_alloc_none k X Fam); [done | done | lia] |].
    split; [by exists k, X, Fam; rewrite EA |]. by split.
  - assert (0 < n) as Hn.
    { destruct Hok as (P & h & SL & CA & _ & _ & _ & _ & Hsl & _).
      assert (b0 ∈ objects X) as Hb by (rewrite Hob, <-Hav; set_solver).
      destruct (object_at _ _ _ _ Hsl Hb) as (d & i & _ & _ & Hi & _). lia. }
    destruct (kmem_obj_alloc_Ok k X Fam s Hok Hc Hn) as (a & s' & E & Ha & X' & Fam' & Hok' & Hav' & Hob' & _); [by rewrite EA |].
    exists a, s'. split; [done |]. rewrite (proj2 (Z.eqb_neq _ _) Ha). rewrite EA in Hav'.
    assert (available X' ++ a :: held ≡ₚ objects X0) as Hall.
    { rewrite <-Hav, Hav'. cbn. symmetry. apply Permutation_middle. }
    split; [exists (with_obj_num (obj_num k - 1) k), X', Fam'; by rewrite Hob' |].
    split; [split; [done |]; intros Hall' |].
    + exfalso. rewrite <-Hall in Hall'. apply Permutation_length in Hall'. rewrite length_app in Hall'. cbn in Hall'. lia.
    + intros _. split; [rewrite <-Hall; set_solver |]. rewrite <-Hall in Hnd.
      apply NoDup_app in Hnd as (_ & _ & [? _]%NoDup_cons). done.
Qed.

Lemma served_free k0 X0 s held a :
  c <> NULL -> served k0 X0 s held -> a ∈ held ->
  exists s', kmem_obj_free km c a s = Ok (tt, s') /\ served k0 X0 s' (filter (fun x => x <> a) held).
Proof.
  intros Hc (k & X & Fam & Hok & Hav & Hob & Hl & Hh & H0 & Hnd) Ha.
  assert (a ∈ objects X0) as HaX by (rewrite <-Hav; set_solver).
  pose proof Hnd as Hnd'. rewrite <-Hav in Hnd'. apply NoDup_app in Hnd' as (_ & Hx & Hnh).
  destruct (kmem_obj_free_Ok k X Fam s a Hok Hc) as (s' & E & X' & Fam' & Hok' & Hav' & Hob' & _).
  - intros ->. done.
  - by rewrite Hob.
  - intros Hin. by apply (Hx a).
  - exists s'. split; [done |]. exists (with_obj_num (obj_num k + 1) k), X', Fam'.
    rewrite Hob'. split; [done |]. split; [| done].
    rewrite Hav', <-Hav. etransitivity; [apply Permutation_middle |]. f_equiv. symmetry.
    exact (FreeQueue.held_split a held Hnh Ha).
Qed.

Lemma client_served k0 X0 s0 s held :
  c <> NULL -> pg_orlimit k0 <= pg_orhas k0 -> served k0 X0 s0 [] -> client s0 s held -> served k0 X0 s held.
Proof.
  intros Hc Hlim H0 Hcl. induction Hcl as [| s held a s' _ IH E | s held a s' _ IH Ha E]; [done | |].
  - destruct (served_alloc k0 X0 s held Hc Hlim IH) as (a1 & s1 & E1 & Hs & _).
    rewrite E1 in E. by injection E as <- <-.
  - destruct (served_free k0 X0 s held a Hc IH Ha) as (s1 & E1 & Hs). rewrite E1 in E. by injection E as <-.
Qed.

(** A cache at its limit serves its objects.  However a client allocates
    from it and gives back, it holds different objects of the cache that share
    no byte; the next allocation returns an object that is not held, or NULL
    exactly when the client holds all of them; and every object that is held can
    be given back, whichever of the three lists its slab is on. *)
Lemma kmem_cache_serves k X Fam s0 s held :
  c <> NULL -> pg_orlimit k <= pg_orhas k ->
  cache_ok k X Fam s0 -> available X ≡ₚ objects X -> client s0 s held ->
  NoDup held /\
  (forall a, a ∈ held -> a ∈ objects X) /\
  (forall a a', a ∈ held -> a' ∈ held -> a <> a' -> apart a a') /\
  (exists a s', kmem_obj_alloc km g_buddy stack_after c s = Ok (a, s') /\
    (a = NULL <-> held ≡ₚ objects X) /\
    (a <> NULL -> a ∈ objects X /\ (a ∉ held) /\ forall a', a' ∈ held -> apart a a')) /\
  (forall a, a ∈ held -> exists s', kmem_obj_free km c a s = Ok (tt, s')).
Proof.
  intros Hc Hlim Hok Hav Hcl. pose proof Hok as (P & h & SL & CA & _ & _ & _ & _ & Hsl & _).
  assert (served k X s0 []) as H0.
  { exists k, X, Fam. rewrite app_nil_r. split; [done |]. do 4 (split; [done |]).
    split; [by apply (objects_pos P SL) | by apply (objects_NoDup P SL)]. }
  pose proof (client_served k X s0 s held Hc Hlim H0 Hcl) as Hs.
  assert (forall a, a ∈ held -> a ∈ objects X) as Hin.
  { destruct Hs as (k1 & X1 & F1 & _ & Hp & _). intros a Ha. rewrite <-Hp. set_solver. }
  assert (forall a a', a ∈ objects X -> a' ∈ objects X -> a <> a' -> apart a a') as Hap
    by (intros a a'; apply (objects_apart P SL (all_slabs X) a a' Hsl)).
  split; [| split; [| split; [| split]]].
  - destruct Hs as (k1 & X1 & F1 & _ & Hp & _ & _ & _ & _ & Hnd). rewrite <-Hp in Hnd. by apply NoDup_app in Hnd as (_ & _ & ?).
  - done.
  - intros a a' Ha Ha'. by apply Hap; apply Hin.
  - destruct (served_alloc k X s held Hc Hlim Hs) as (a & s' & E & _ & Hnull & Hnew).
    exists a, s'. do 2 (split; [done |]). intros Hne. destruct (Hnew Hne) as [HaX Hah].
    do 2 (split; [done |]). intros a' Ha'. apply Hap; [done | by apply Hin | by intros ->].
  - intros a Ha. destruct (served_free k X s held a Hc Hs Ha) as (s' & E & _). by exists s'.
Qed.
End cache.

(** A cache [0x3000002000] of three objects of 16 bytes whose only slab is on
    page 0. *)
Definition demo_cache_at : Z := 0x3000002000.
Definition demo_desc : slab_desc := mk_desc 0 0x3000000100 [0; 1; 2].
Definition demo_slabs : cache_slabs := mk_slabs [demo_desc] [] [].
Definition demo_rings : gmap Z (list Z) :=
  list_to_map [(free_of demo_cache_at, [buddy_node 0x3000001000 0]); (partial_of demo_cache_at, []);
    (full_of demo_cache_at, [])].
Definition demo_kcache : kmem_cache := mk_cache 1 3 16 0 1 1 0.
Definition demo_kheap : heap :=
  let hd := free_of demo_cache_at in let nd := buddy_node 0x3000001000 0 in
  let pa := partial_of demo_cache_at in let fu := full_of demo_cache_at in
  list_to_map [(hd, mk_list_head nd nd); (nd, mk_list_head hd hd); (pa, mk_list_head pa pa); (fu, mk_list_head fu fu)].
Definition demo_kmem : kmem :=
  KS 0x3000001000 ∅ (fun _ => 0) {[0 := mk_pageframe 1 SLAB_ALLOCATOR PG_BUDDY_FLAG_HEAD 0 0 0]} demo_kheap
    {[0x3000000000 := mk_slab 3 3 16 0 2 0x3000000080 0x3000000100 [1; 2; 2]]} {[demo_cache_at := demo_kcache]}.

Lemma demo_kheap_rings : dlists demo_kheap demo_rings.
Proof.
  assert (forall k l, demo_rings !! k = Some l -> (k, l) = (free_of demo_cache_at, [buddy_node 0x3000001000 0]) \/
    (k, l) = (partial_of demo_cache_at, []) \/ (k, l) = (full_of demo_cache_at, [])) as Hk.
  { intros k l H%elem_of_list_to_map_2. set_solver. }
  split.
  - intros k l [[= -> ->] | [[= -> ->] | [= -> ->]]]%Hk; (split; [apply (bool_decide_unpack _); by vm_compute | by vm_compute]).
  - intros k1 k2 l1 l2 q Hne [[= -> ->] | [[= -> ->] | [= -> ->]]]%Hk [[= -> ->] | [[= -> ->] | [= -> ->]]]%Hk;
      try done; rewrite ?elem_of_cons, elem_of_nil; unfold buddy_node, free_of, partial_of, full_of, demo_cache_at,
      sizeof_pageframe, offsetof_buddy_node; lia.
Qed.

Lemma demo_kmem_ok :
  cache_ok demo_km demo_cache_at 0x3000001000 3 16 4096 ∅ (fun _ => 0) demo_kcache demo_slabs demo_rings demo_kmem.
Proof.
  eexists _, _, _, _. split; [reflexivity |]. split; [apply lookup_singleton_eq |]. split; [exact demo_kheap_rings |].
  assert (d_addr demo_km demo_desc = 0x3000000000) as Ha by reflexivity.
  split; [split; vm_compute; reflexivity |]. split; [| split].
  - split; cbn [all_slabs demo_slabs cs_free cs_partial cs_full app].
    + apply Forall_singleton. split.
      * eexists. split; [apply lookup_singleton_eq | done].
      * eexists. rewrite Ha. split; [apply lookup_singleton_eq |].
        split; try done; [apply (bool_decide_unpack _); by vm_compute | |].
        -- intros i. cbn. rewrite !elem_of_cons, elem_of_nil. lia.
        -- intros i Hi Hf. exfalso. apply Hf. cbn. rewrite !elem_of_cons. lia.
      * split; cbn; lia.
      * rewrite Ha. cbn. lia.
    + intros d e ->%list_elem_of_singleton ->%list_elem_of_singleton. done.
    + cbn. apply NoDup_singleton.
  - split; cbn; repeat constructor.
  - split; vm_compute; reflexivity.
Qed.

Lemma kmem_cache_serves_witness :
  exists a s', kmem_obj_alloc demo_km demo_g [] demo_cache_at demo_kmem = Ok (a, s') /\
    exists a' s'', kmem_obj_alloc demo_km demo_g [] demo_cache_at s' = Ok (a', s'') /\ a <> NULL /\
      (a' <> NULL -> (a' ∉ [a]) /\ forall x, x ∈ [a] -> apart 16 a' x).
Proof.
  assert (demo_cache_at <> NULL) as Hc by done.
  pose proof (fun s held => kmem_cache_serves demo_km demo_g [] demo_cache_at 0x3000001000 3 16 4096 ∅ (fun _ => 0)
    demo_kcache demo_slabs demo_rings demo_kmem s held Hc ltac:(done) demo_kmem_ok ltac:(reflexivity)) as T.
  destruct (T demo_kmem [] (client_start _ _ _ _ _)) as (_ & _ & _ & (a & s' & E & Hn & Ho) & _).
  exists a, s'. split; [done |].
  assert (a <> NULL) as Ha. { intros Ea%Hn%Permutation_nil_l. by vm_compute in Ea. }
  pose proof (client_alloc _ _ _ _ _ _ _ _ _ (client_start demo_km demo_g [] demo_cache_at demo_kmem) E) as Hcl.
  rewrite (proj2 (Z.eqb_neq _ _) Ha) in Hcl.
  destruct (T s' [a] Hcl) as (_ & _ & _ & (a' & s'' & E' & _ & Ho') & _).
  exists a', s''. do 2 (split; [done |]). intros Hne. destruct (Ho' Hne) as (_ & ? & ?). done.
Defined.
