(* ===== verification/Sv39.v ===== *)
(** * The Sv39 page tables

    [arch/riscv/include/asm/vm.h] and [arch/riscv/mm/vm.c]: three-level page
    tables in the pages of the buddy allocator.  An entry is a 64-bit
    little-endian word of the byte memory of [Buddy.buddy], so that a table the
    allocator has just zeroed holds invalid entries.  [translate] is the walk
    the hardware makes. *)
From S2P Require Import Prelude DList KernelMap PageFrame Buddy.

(** ** [arch/riscv/include/asm/vm.h] *)

(** [src/arch/riscv/include/asm/vm.h:10-10 VM_PROT_V] *)
Definition VM_PROT_V : Z := Z.shiftl 1 0.
(** [src/arch/riscv/include/asm/vm.h:11-11 VM_PROT_R] *)
Definition VM_PROT_R : Z := Z.shiftl 1 1.
(** [src/arch/riscv/include/asm/vm.h:12-12 VM_PROT_W] *)
Definition VM_PROT_W : Z := Z.shiftl 1 2.
(** [src/arch/riscv/include/asm/vm.h:13-13 VM_PROT_X] *)
Definition VM_PROT_X : Z := Z.shiftl 1 3.
(** [src/arch/riscv/include/asm/vm.h:14-14 VM_PROT_U] *)
Definition VM_PROT_U : Z := Z.shiftl 1 4.
(** [src/arch/riscv/include/asm/vm.h:15-15 VM_PROT_G] *)
Definition VM_PROT_G : Z := Z.shiftl 1 5.
(** [src/arch/riscv/include/asm/vm.h:16-16 VM_PROT_A] *)
Definition VM_PROT_A : Z := Z.shiftl 1 6.
(** [src/arch/riscv/include/asm/vm.h:17-17 VM_PROT_D] *)
Definition VM_PROT_D : Z := Z.shiftl 1 7.

Definition bit_set (pte bit : Z) : bool := negb (Z.land pte bit =? 0).

(** [src/arch/riscv/include/asm/vm.h:19-19 PTE_VALID] *)
Definition PTE_VALID (pte : Z) : bool := bit_set pte VM_PROT_V.
(** [src/arch/riscv/include/asm/vm.h:20-20 PTE_WRITEABLE] *)
Definition PTE_WRITEABLE (pte : Z) : bool := bit_set pte VM_PROT_W.
(** [src/arch/riscv/include/asm/vm.h:21-21 PTE_READABLE] *)
Definition PTE_READABLE (pte : Z) : bool := bit_set pte VM_PROT_R.
(** [src/arch/riscv/include/asm/vm.h:22-22 PTE_EXCUTABLE] *)
Definition PTE_EXCUTABLE (pte : Z) : bool := bit_set pte VM_PROT_X.
(** [src/arch/riscv/include/asm/vm.h:23-23 PTE_NEXTPGT] *)
Definition PTE_NEXTPGT (pte : Z) : bool :=
  PTE_VALID pte && (negb (PTE_WRITEABLE pte) && negb (PTE_READABLE pte) && negb (PTE_EXCUTABLE pte)).

(** [src/arch/riscv/include/asm/vm.h:25-25 SV39_Index2Shift] *)
Definition SV39_Index2Shift (index : Z) : Z := 12 + 9 * (2 - index).
(** [src/arch/riscv/include/asm/vm.h:26-26 SV39_Index2Bit] *)
Definition SV39_Index2Bit (index : Z) : Z := Z.shiftl 0x1ff (SV39_Index2Shift index).
(** [src/arch/riscv/include/asm/vm.h:27-27 SV39_Index2Id] *)
Definition SV39_Index2Id (va index : Z) : Z :=
  Z.shiftr (Z.land va (SV39_Index2Bit index)) (SV39_Index2Shift index).

(** [src/arch/riscv/include/asm/vm.h:29-29 SV39_Pa2PTE] *)
Definition SV39_Pa2PTE (pa prot : Z) : Z :=
  Z.lor (Z.shiftl (Z.land (Z.shiftr pa PAGE_OFFSET) 0xfffffffffff) 10) (Z.land prot 0x3ff).
(** [src/arch/riscv/include/asm/vm.h:30-30 SV39_PTE2Pa] *)
Definition SV39_PTE2Pa (pte : Z) : Z :=
  Z.shiftl (Z.land (Z.shiftr (Z.land pte (Z.lnot 0x3ff)) 10) 0xfffffffffff) 12.

(** [src/arch/riscv/include/asm/vm.h:32-32 SATP_MODE_SV39] *)
Definition SATP_MODE_SV39 : Z := Z.shiftl 8 60.
(** [src/arch/riscv/include/asm/vm.h:33-33 SATP_MODE_SV48] *)
Definition SATP_MODE_SV48 : Z := u64 (Z.shiftl 9 60).
(** [src/arch/riscv/include/asm/vm.h:34-34 SV39_PGT2SATP] *)
Definition SV39_PGT2SATP (pgt : Z) : Z :=
  Z.lor (Z.shiftr (Z.land (u64 pgt) 0xfffffffffff) 12) SATP_MODE_SV39.
(** [src/arch/riscv/include/asm/vm.h:35-35 SV39_SATP2PGT] *)
Definition SV39_SATP2PGT (satp : Z) : Z := Z.shiftl (Z.land (u64 satp) 0xfffffffffff) 12.

(** [src/arch/riscv/include/asm/vm.h:37-39 PTE_NUMS] *)
Definition PTE_NUMS : Z := Z.shiftl 1 CONFIG_PAGE_OFFSET / 8.

(** [src/arch/riscv/include/asm/vm.h:44-53 SV39_INDEX_PAGES] The macro
    [PTE_NUMS] is not parenthesised: the product is evaluated from the left. *)
Definition SV39_INDEX_PAGES (index : Z) : Z :=
  if index =? 0 then s32 (Z.shiftl 1 CONFIG_PAGE_OFFSET / 8 * Z.shiftl 1 CONFIG_PAGE_OFFSET / 8)
  else if index =? 1 then s32 PTE_NUMS
  else if index =? 2 then 1
  else 0.

(** ** Entries in memory *)

(** The 64-bit little-endian word at an address, and its update. *)
Definition ld64 (m : Z -> Z) (a : Z) : Z :=
  m a + 2 ^ 8 * m (a + 1) + 2 ^ 16 * m (a + 2) + 2 ^ 24 * m (a + 3)
  + 2 ^ 32 * m (a + 4) + 2 ^ 40 * m (a + 5) + 2 ^ 48 * m (a + 6) + 2 ^ 56 * m (a + 7).
Definition st64 (a v : Z) (m : Z -> Z) : Z -> Z := fun b =>
  if (a <=? b) && (b <? a + 8) then Z.shiftr v (8 * (b - a)) mod 2 ^ 8 else m b.

(** [(pgtable->ptes)[idx]] *)
Definition pte_addr (pgtable idx : Z) : Z := pgtable + 8 * idx.
Definition get_pte (pgtable idx : Z) : M buddy Z :=
  gets (fun s => ld64 (memory s) (pte_addr pgtable idx)).
Definition set_pte (pgtable idx v : Z) : M buddy unit :=
  modify (fun s => set_memory (st64 (pte_addr pgtable idx) v (memory s)) s).

(** ** [arch/riscv/mm/vm.c] *)

(** [src/arch/riscv/mm/vm.c:6-6 VMPROT2RVPROT] *)
Definition VMPROT2RVPROT (x : Z) : Z := x.

Section sv39.
Context (km : kernel_mapping) (g_buddy : Z).

(** The level [index] of a table with [levels] levels below it. *)
Definition index_of (levels : nat) : Z := 2 - Z.of_nat levels.

(** [src/arch/riscv/mm/vm.c:8-87 vm_walkthrough] The result is the return
    value and [*pages]; the recursion on [index] is on the levels left. *)
Fixpoint vm_walkthrough (levels : nat) (pagetable va pa flags pages : Z) : M buddy (Z * Z) :=
  let index := index_of levels in
  ASSERT ((0 <=? index) && (index <? 3));;
  let idx := s32 (SV39_Index2Id va index) in
  ASSERT ((0 <=? idx) && (idx <? PTE_NUMS));;
  r ← for_up (Z.to_nat (PTE_NUMS - idx)) idx (fun '(va, pa, pages) idx =>
    let descend next_pagetable :=
      match levels with
      | O => fail AssertFailed
      | S levels =>
        '(ret', pages') ← vm_walkthrough levels next_pagetable va pa flags pages;
        let step := u64 (s32 (pages - pages') * PAGE_SIZE) in
        if negb (ret' =? 0) then ret (Return (ret', pages'))
        else if pages' =? 0 then ret (Return (0, pages'))
        else ret (Next (u64 (va + step), u64 (pa + step), pages'))
      end in
    e ← get_pte pagetable idx;
    if index =? 2 then
      if negb (PTE_VALID e) then
        set_pte pagetable idx (SV39_Pa2PTE pa flags);;
        let pages := s32 (pages - 1) in
        if pages =? 0 then ret (Return (0, pages))
        else ret (Next (u64 (va + PAGE_SIZE), u64 (pa + PAGE_SIZE), pages))
      else ret (Return (- EEXIST, pages))
    else if PTE_VALID e then
      if negb (PTE_NEXTPGT e) then ret (Return (- EFAULT, pages))
      else
        let pa_next_pagetable := SV39_PTE2Pa e in
        let next_pagetable := pa2va km pa_next_pagetable in
        ASSERT (VAL_IS_PAGE_ALIGNED pa_next_pagetable && VAL_IS_PAGE_ALIGNED next_pagetable);;
        descend next_pagetable
    else
      ptr ← bk_alloc_zero km g_buddy 0;
      if ptr =? 0 then ret (Return (- ENOMEM, pages))
      else
        let pa_ptr := va2pa km ptr in
        ASSERT (VAL_IS_PAGE_ALIGNED pa_ptr && VAL_IS_PAGE_ALIGNED ptr);;
        set_pte pagetable idx (SV39_Pa2PTE pa_ptr VM_PROT_V);;
        descend ptr) (va, pa, pages);
  match r with
  | Next (_, _, pages) => ret (0, pages)
  | Return rp => ret rp
  end.

(** [src/arch/riscv/mm/vm.c:89-141 riscv_unmap] The result is [*pages]. *)
Fixpoint riscv_unmap (levels : nat) (pgtable va pages : Z) : M buddy Z :=
  let index := index_of levels in
  ASSERT ((0 <=? index) && (index <? 3));;
  let idx := s32 (SV39_Index2Id va index) in
  ASSERT ((0 <=? idx) && (idx <? PTE_NUMS));;
  r ← for_up (Z.to_nat (PTE_NUMS - idx)) idx (fun '(va, pages) idx =>
    if negb (index =? 2) then
      e ← get_pte pgtable idx;
      if PTE_NEXTPGT e then
        let pa_next_pgtable := SV39_PTE2Pa e in
        let next_pgtable := pa2va km pa_next_pgtable in
        ASSERT (negb (next_pgtable =? NULL) && VAL_IS_PAGE_ALIGNED pa_next_pgtable
                && VAL_IS_PAGE_ALIGNED next_pgtable);;
        pages' ← match levels with
                 | O => fail AssertFailed
                 | S levels => riscv_unmap levels next_pgtable va pages
                 end;
        let va := u64 (va + u64 (s32 (pages - pages') * PAGE_SIZE)) in
        when (s32 (pages - pages') =? SV39_INDEX_PAGES index)
          (set_pte pgtable idx 0;; bk_free km g_buddy next_pgtable);;
        if pages' =? 0 then ret (Return pages') else ret (Next (va, pages'))
      else
        let sv39_index_max_pages := SV39_INDEX_PAGES index in
        if sv39_index_max_pages <? pages then
          ret (Next (u64 (va + u64 (sv39_index_max_pages * PAGE_SIZE)), s32 (pages - sv39_index_max_pages)))
        else ret (Return 0)
    else
      set_pte pgtable idx 0;;
      let pages := s32 (pages - 1) in
      if pages =? 0 then ret (Return pages) else ret (Next (va, pages))) (va, pages);
  match r with
  | Next (_, pages) => ret pages
  | Return pages => ret pages
  end.

(** [src/arch/riscv/mm/vm.c:143-169 riscv_free_pgtable] *)
Fixpoint riscv_free_pgtable (levels : nat) (pgtable : Z) : M buddy unit :=
  let index := index_of levels in
  ASSERT ((0 <=? index) && (index <? 3));;
  for_up (R := unit) (Z.to_nat PTE_NUMS) 0 (fun (_ : unit) i =>
    e ← get_pte pgtable i;
    if index =? 2 then when (PTE_VALID e) (set_pte pgtable i 0);; ret (Next tt)
    else if PTE_NEXTPGT e then
      let pa_next_pgtable := SV39_PTE2Pa e in
      let next_pgtable := pa2va km pa_next_pgtable in
      ASSERT (VAL_IS_PAGE_ALIGNED pa_next_pgtable && VAL_IS_PAGE_ALIGNED next_pgtable);;
      match levels with
      | O => fail AssertFailed
      | S levels => riscv_free_pgtable levels next_pgtable
      end;;
      set_pte pgtable i 0;;
      bk_free km g_buddy next_pgtable;;
      ret (Next tt)
    else ASSERT (negb (PTE_VALID e));; ret (Next tt)) tt;;
  ret tt.

(** [src/arch/riscv/mm/vm.c:191-202 __arch_hw_unmap] *)
Definition __arch_hw_unmap (pgtable va size : Z) : M buddy unit :=
  ASSERT (negb (pgtable =? NULL) && VAL_IS_PAGE_ALIGNED size && VAL_IS_PAGE_ALIGNED va);;
  if size =? 0 then ret tt
  else
    let npages := s32 (size / PAGE_SIZE) in
    ASSERT (0 <=? npages);;
    npages ← riscv_unmap 2 pgtable va npages;
    ASSERT (npages =? 0).

(** [src/arch/riscv/mm/vm.c:172-189 __arch_hw_mmap] *)
Definition __arch_hw_mmap (pgtable va pa prot size : Z) : M buddy Z :=
  ASSERT (negb (pgtable =? NULL) && VAL_IS_PAGE_ALIGNED pgtable);;
  ASSERT (VAL_IS_PAGE_ALIGNED va && VAL_IS_PAGE_ALIGNED pa);;
  ASSERT (VAL_IS_PAGE_ALIGNED size);;
  if size =? 0 then ret 0
  else
    let npages := s32 (size / PAGE_SIZE) in
    ASSERT (0 <=? npages);;
    let cur_pages := npages in
    '(r, npages) ← vm_walkthrough 2 pgtable va pa (VMPROT2RVPROT prot) npages;
    if negb (r =? 0) then
      __arch_hw_unmap pgtable va (u64 (s32 (cur_pages - npages) * PAGE_SIZE));;
      ret r
    else ret 0.

(** [src/arch/riscv/mm/vm.c:204-208 __arch_hw_unmap_all] *)
Definition __arch_hw_unmap_all (pgtable : Z) : M buddy unit :=
  ASSERT (negb (pgtable =? NULL));; riscv_free_pgtable 2 pgtable.

(** [src/arch/riscv/mm/vm.c:210-218 __arch_hw_reset_prot] *)
Definition __arch_hw_reset_prot (pgtable prot va size : Z) : M buddy unit :=
  ASSERT (negb (pgtable =? NULL) && VAL_IS_PAGE_ALIGNED size && VAL_IS_PAGE_ALIGNED va);;
  if size =? 0 then ret tt else ret tt.

(** The register [satp]. *)
(** [src/arch/riscv/include/csr.h:246-252 r_satp] *)
Definition r_satp : M Z Z := gets id.
(** [src/arch/riscv/include/csr.h:240-244 w_satp] *)
Definition w_satp (x : Z) : M Z unit := modify (fun _ => x).

(** [src/arch/riscv/mm/vm.c:221-227 __arch_hw_get_current_pgtable] *)
Definition __arch_hw_get_current_pgtable : M Z Z :=
  satp ← r_satp;
  let pg_pa := SV39_SATP2PGT satp in
  ASSERT (VAL_IS_PAGE_ALIGNED pg_pa);;
  ret (pa2va km pg_pa).

(** [src/arch/riscv/mm/vm.c:229-236 __arch_hw_load_pgtable] The TLB flush has
    no counterpart. *)
Definition __arch_hw_load_pgtable (pgtable : Z) : M Z unit :=
  ASSERT (negb (pgtable =? NULL) && VAL_IS_PAGE_ALIGNED pgtable);;
  let pg_pa := va2pa km pgtable in
  let satp := SV39_PGT2SATP pg_pa in
  w_satp satp.
End sv39.
