(* ===== verification/Sv39Pte.v ===== *)
(** * Page table entries: bit fields and memory words *)
From S2P Require Import Prelude KernelMap PageFrame Buddy Sv39.

(** ** Fields of an entry *)

Lemma bit_set_testbit e n : 0 <= n -> bit_set e (Z.shiftl 1 n) = Z.testbit e n.
Proof.
  intros Hn. unfold bit_set. rewrite Z.shiftl_1_l. destruct (Z.testbit e n) eqn:Hb.
  - apply negb_true_iff, Z.eqb_neq. intros E. assert (H : Z.testbit (Z.land e (2 ^ n)) n = false) by (by rewrite E, Z.bits_0).
    by rewrite Z.land_spec, Hb, Z.pow2_bits_true in H by done.
  - apply negb_false_iff, Z.eqb_eq. apply Z.bits_inj'. intros k Hk. rewrite Z.land_spec, Z.bits_0.
    destruct (decide (k = n)) as [-> |]; [by rewrite Hb | by rewrite Z.pow2_bits_false, andb_false_r by lia].
Qed.

Lemma PTE_VALID_bit e : PTE_VALID e = Z.testbit e 0.
Proof. apply bit_set_testbit. lia. Qed.
Lemma PTE_NEXTPGT_bits e :
  PTE_NEXTPGT e = Z.testbit e 0 && (negb (Z.testbit e 2) && negb (Z.testbit e 1) && negb (Z.testbit e 3)).
Proof.
  unfold PTE_NEXTPGT, PTE_VALID, PTE_WRITEABLE, PTE_READABLE, PTE_EXCUTABLE, VM_PROT_V, VM_PROT_W, VM_PROT_R, VM_PROT_X.
  by rewrite !bit_set_testbit by lia.
Qed.
Lemma NEXTPGT_VALID e : PTE_NEXTPGT e = true -> PTE_VALID e = true.
Proof. unfold PTE_NEXTPGT. by intros [? _]%andb_true_iff. Qed.

Lemma Pa2PTE_bit pa prot n : 0 <= n < 10 -> Z.testbit (SV39_Pa2PTE pa prot) n = Z.testbit prot n.
Proof.
  intros Hn. unfold SV39_Pa2PTE. rewrite Z.lor_spec, Z.shiftl_spec_low by lia.
  change 0x3ff with (Z.ones 10). by rewrite Z.land_spec, Z.ones_spec_low, andb_true_r by lia.
Qed.

Lemma lor_shiftl_add a b n : 0 <= n -> 0 <= b < 2 ^ n -> Z.lor (Z.shiftl a n) b = a * 2 ^ n + b.
Proof.
  intros Hn Hb. rewrite <- Z.shiftl_mul_pow2 by done. symmetry. rewrite <- Z.lxor_lor, <- Z.add_nocarry_lxor; [done | |].
  all: apply Z.bits_inj'; intros k Hk; rewrite Z.land_spec, Z.bits_0;
    destruct (Z.ltb_spec k n); [by rewrite Z.shiftl_spec_low by done |];
    rewrite <- (Z.mod_small b (2 ^ n)), Z.mod_pow2_bits_high, andb_false_r by lia; done.
Qed.

Lemma Pa2PTE_eq pa prot : 0 <= pa < 2 ^ 56 -> pa mod 4096 = 0 -> SV39_Pa2PTE pa prot = pa / 4 + prot mod 1024.
Proof.
  intros Hpa Hal. unfold SV39_Pa2PTE. change 0x3ff with (Z.ones 10). change 0xfffffffffff with (Z.ones 44).
  rewrite !Z.land_ones by lia. rewrite lor_shiftl_add by (try apply Z.mod_pos_bound; lia).
  change PAGE_OFFSET with 12. rewrite Z.shiftr_div_pow2 by lia.
  apply Z.mod_divide in Hal as [q ->]; [| lia]. change (2 ^ 12) with 4096. rewrite Z.div_mul by lia.
  rewrite (Z.mod_small q) by lia. replace (q * 4096) with (q * 2 ^ 10 * 4) by lia. rewrite Z.div_mul by lia. done.
Qed.

Lemma PTE2Pa_eq e : 0 <= e -> SV39_PTE2Pa e = 4096 * ((e / 1024) mod 2 ^ 44).
Proof.
  intros He. unfold SV39_PTE2Pa. change 0x3ff with (Z.ones 10). change 0xfffffffffff with (Z.ones 44).
  rewrite Z.land_ones, Z.shiftl_mul_pow2, <- Z.ldiff_land by lia.
  replace (Z.shiftr (Z.ldiff e (Z.ones 10)) 10) with (e / 1024); [lia |].
  rewrite Z.ldiff_ones_r, Z.shiftr_shiftl_l, Z.sub_diag, Z.shiftl_0_r, Z.shiftr_div_pow2 by lia. done.
Qed.

Lemma Pa2PTE_range pa prot : 0 <= pa < 2 ^ 56 -> pa mod 4096 = 0 -> 0 <= SV39_Pa2PTE pa prot < 2 ^ 64.
Proof.
  intros Hpa Hal. rewrite Pa2PTE_eq by done. pose proof (Z.mod_pos_bound prot 1024 ltac:(lia)).
  pose proof (Z.div_pos pa 4 ltac:(lia) ltac:(lia)). pose proof (Z.div_lt_upper_bound pa 4 (2 ^ 54) ltac:(lia) ltac:(lia)).
  lia.
Qed.

Lemma PTE2Pa_Pa2PTE pa prot : 0 <= pa < 2 ^ 56 -> pa mod 4096 = 0 -> SV39_PTE2Pa (SV39_Pa2PTE pa prot) = pa.
Proof.
  intros Hpa Hal. rewrite PTE2Pa_eq by (by apply Pa2PTE_range). rewrite Pa2PTE_eq by done.
  apply Z.mod_divide in Hal as [q ->]; [| lia]. replace (q * 4096) with (q * 1024 * 4) by lia.
  rewrite Z.div_mul by lia. pose proof (Z.mod_pos_bound prot 1024 ltac:(lia)).
  rewrite Z.div_add_l, (Z.div_small (prot mod 1024)), Z.add_0_r, Z.mod_small by lia. lia.
Qed.

Lemma PTE_flags pa prot : 0 <= pa < 2 ^ 56 -> pa mod 4096 = 0 -> Z.land (SV39_Pa2PTE pa prot) 0x3ff = prot mod 1024.
Proof.
  intros Hpa Hal. rewrite Pa2PTE_eq by done. change 0x3ff with (Z.ones 10). rewrite Z.land_ones by lia.
  apply Z.mod_divide in Hal as [q ->]; [| lia]. replace (q * 4096) with (q * 1024 * 4) by lia.
  rewrite Z.div_mul by lia. change (2 ^ 10) with 1024. rewrite Z.add_comm, Z.mod_add, Z.mod_mod by lia. done.
Qed.

(** The root table of [satp]. *)
Lemma SATP2PGT_PGT2SATP pa : 0 <= pa < 2 ^ 44 -> pa mod 4096 = 0 -> SV39_SATP2PGT (SV39_PGT2SATP pa) = pa.
Proof.
  intros Hpa Hal. unfold SV39_SATP2PGT, SV39_PGT2SATP, SATP_MODE_SV39. change 0xfffffffffff with (Z.ones 44).
  rewrite (u64_small pa), (Z.land_ones pa), (Z.mod_small pa), (Z.shiftr_div_pow2 pa) by lia.
  assert (0 <= pa / 2 ^ 12 < 2 ^ 32) by (split; [apply Z.div_pos | apply Z.div_lt_upper_bound]; lia).
  rewrite Z.lor_comm, lor_shiftl_add by lia.
  rewrite u64_small, Z.land_ones, Z.shiftl_mul_pow2 by lia.
  change (8 * 2 ^ 60) with (2 ^ 19 * 2 ^ 44). rewrite Z.add_comm, Z.mod_add, Z.mod_small by lia.
  apply Z.mod_divide in Hal as [q ->]; [| lia]. change (2 ^ 12) with 4096. rewrite Z.div_mul by lia. done.
Qed.

Lemma NEXTPGT_table pa : PTE_NEXTPGT (SV39_Pa2PTE pa VM_PROT_V) = true.
Proof. rewrite PTE_NEXTPGT_bits, !Pa2PTE_bit by lia. done. Qed.

(** The index of a level is a digit of the page number in base 512. *)
Lemma Index2Id_eq va index :
  0 <= va -> 0 <= index < 3 -> SV39_Index2Id va index = (va / 4096) / 512 ^ (2 - index) mod 512.
Proof.
  intros Hva Hi. unfold SV39_Index2Id, SV39_Index2Bit. set (k := SV39_Index2Shift index).
  assert (Hk : k = 12 + 9 * (2 - index)) by done.
  replace (Z.shiftr (Z.land va (Z.shiftl 511 k)) k) with (Z.land (Z.shiftr va k) 511).
  - change 511 with (Z.ones 9). rewrite Z.land_ones, Z.shiftr_div_pow2 by lia.
    rewrite Z.div_div by lia. f_equal. f_equal. rewrite Hk, Z.pow_add_r, Z.pow_mul_r by lia. done.
  - rewrite Z.shiftr_land. f_equal. rewrite Z.shiftr_shiftl_l, Z.sub_diag by lia. done.
Qed.

Lemma PTE_NUMS_eq : PTE_NUMS = 512.
Proof. done. Qed.

(** ** Words of the memory *)

Definition is_byte (m : Z -> Z) : Prop := forall a, 0 <= m a < 256.

Lemma ld64_ext m m' a : (forall b, a <= b < a + 8 -> m' b = m b) -> ld64 m' a = ld64 m a.
Proof. intros H. unfold ld64. by rewrite !H by lia. Qed.

Lemma ld64_st64_same m a v : 0 <= v < 2 ^ 64 -> ld64 (st64 a v m) a = v.
Proof.
  intros Hv. unfold ld64.
  assert (Hb : forall k, 0 <= k < 8 -> st64 a v m (a + k) = v / 2 ^ (8 * k) mod 256).
  { intros k Hk. unfold st64. rewrite (proj2 (Z.leb_le a _)), (proj2 (Z.ltb_lt (a + k) _)) by lia. cbn [andb].
    rewrite Z.shiftr_div_pow2 by lia. do 4 f_equal. lia. }
  pose proof (Hb 0 ltac:(lia)) as Hb0. rewrite Z.add_0_r in Hb0. change (2 ^ (8 * 0)) with 1 in Hb0.
  rewrite Z.div_1_r in Hb0. rewrite Hb0, !Hb by lia. clear Hb Hb0.
  assert (Hs : forall k j, 0 <= k -> j = k + 1 -> v / 2 ^ (8 * k) = v / 2 ^ (8 * k) mod 256 + 256 * (v / 2 ^ (8 * j))).
  { intros k j Hk ->. replace (8 * (k + 1)) with (8 * k + 8) by lia. rewrite Z.pow_add_r, <- Z.div_div by lia.
    change (2 ^ 8) with 256. pose proof (Z.div_mod (v / 2 ^ (8 * k)) 256). lia. }
  pose proof (Hs 0 1 ltac:(lia) eq_refl) as H0. pose proof (Hs 1 2 ltac:(lia) eq_refl) as H1.
  pose proof (Hs 2 3 ltac:(lia) eq_refl) as H2. pose proof (Hs 3 4 ltac:(lia) eq_refl) as H3.
  pose proof (Hs 4 5 ltac:(lia) eq_refl) as H4. pose proof (Hs 5 6 ltac:(lia) eq_refl) as H5.
  pose proof (Hs 6 7 ltac:(lia) eq_refl) as H6. pose proof (Hs 7 8 ltac:(lia) eq_refl) as H7. clear Hs.
  change (2 ^ (8 * 0)) with 1 in H0. rewrite Z.div_1_r in H0.
  rewrite (Z.div_small v (2 ^ (8 * 8))) in H7 by lia.
  generalize dependent (v mod 256). generalize dependent (v / 2 ^ (8 * 1)). generalize dependent (v / 2 ^ (8 * 2)).
  generalize dependent (v / 2 ^ (8 * 3)). generalize dependent (v / 2 ^ (8 * 4)). generalize dependent (v / 2 ^ (8 * 5)).
  generalize dependent (v / 2 ^ (8 * 6)). generalize dependent (v / 2 ^ (8 * 7)). intros. lia.
Qed.

Lemma ld64_st64_other m a b v : a + 8 <= b \/ b + 8 <= a -> ld64 (st64 a v m) b = ld64 m b.
Proof.
  intros Hab. apply ld64_ext. intros c Hc. unfold st64.
  destruct (Z.leb_spec a c), (Z.ltb_spec c (a + 8)); simpl; try done; lia.
Qed.

Lemma ld64_fill_in m p b : p <= b -> b + 8 <= p + 4096 -> ld64 (fill p 4096 0 m) b = 0.
Proof.
  intros H1 H2. unfold ld64, fill.
  repeat match goal with |- context [(?x <=? ?y) && (?y <? ?z)] =>
    rewrite (proj2 (Z.leb_le x y)), (proj2 (Z.ltb_lt y z)) by lia end. done.
Qed.
Lemma ld64_fill_out m p b : b + 8 <= p \/ p + 4096 <= b -> ld64 (fill p 4096 0 m) b = ld64 m b.
Proof.
  intros Hab. apply ld64_ext. intros c Hc. unfold fill.
  destruct (Z.leb_spec p c), (Z.ltb_spec c (p + 4096)); simpl; try done; lia.
Qed.
