(* ===== verification/Sv39Tree.v ===== *)
(** * Page tables as trees

    What a hierarchy of tables in memory means: the pages it takes ([in_tree]),
    that it is well formed ([tree_ok]), and the last-level entry it holds for a
    page number ([look]); and how these change when one entry of one table and
    the subtree below it change ([node_update]). *)
From S2P Require Import Prelude KernelMap PageFrame Buddy Sv39 Sv39Pte.

Section tree.
Context (km : kernel_mapping).

(** A page that can be a table: aligned, and addressed through the linear
    mapping by the physical address its entry can hold. *)
Record usable (v : Z) : Prop := {
  us_pos : 0 < v < 2 ^ 63;
  us_page : v mod 4096 = 0;
  us_pa : 0 <= va2pa km v < 2 ^ 56;
  us_pa_page : va2pa km v mod 4096 = 0;
  us_back : pa2va km (va2pa km v) = v
}.

Definition entry (m : Z -> Z) (t i : Z) : Z := ld64 m (pte_addr t i).
Definition child (e : Z) : Z := pa2va km (SV39_PTE2Pa e).

(** The number of pages below a table, and its digit of a page number. *)
Definition span (levels : nat) : Z := 512 ^ (Z.of_nat levels + 1).
Definition digit (levels : nat) (P : Z) : Z := P / 512 ^ Z.of_nat levels mod 512.

Fixpoint in_tree (levels : nat) (m : Z -> Z) (t q : Z) : Prop :=
  q = t \/
  match levels with
  | O => False
  | S levels => exists i, 0 <= i < 512 /\ PTE_NEXTPGT (entry m t i) = true /\
                          in_tree levels m (child (entry m t i)) q
  end.

(** A page of the subtree of another entry than [idx]. *)
Definition elsewhere (levels : nat) (m : Z -> Z) (t idx q : Z) : Prop :=
  exists j, 0 <= j < 512 /\ j <> idx /\ PTE_NEXTPGT (entry m t j) = true /\ in_tree levels m (child (entry m t j)) q.

Fixpoint tree_ok (levels : nat) (m : Z -> Z) (t : Z) : Prop :=
  usable t /\
  match levels with
  | O => True
  | S levels => forall i, 0 <= i < 512 -> PTE_VALID (entry m t i) = true ->
      PTE_NEXTPGT (entry m t i) = true /\ tree_ok levels m (child (entry m t i)) /\
      ~ in_tree levels m (child (entry m t i)) t /\
      forall q, in_tree levels m (child (entry m t i)) q -> ~ elsewhere levels m t i q
  end.

(** The valid last-level entry for the page number [P]. *)
Fixpoint look (levels : nat) (m : Z -> Z) (t P : Z) : option Z :=
  let e := entry m t (digit levels P) in
  match levels with
  | O => if PTE_VALID e then Some e else None
  | S levels => if PTE_NEXTPGT e then look levels m (child e) P else None
  end.

Lemma tree_usable levels m t : tree_ok levels m t -> usable t.
Proof. by destruct levels; intros [? _]. Qed.
Lemma in_tree_root levels m t : in_tree levels m t t.
Proof. destruct levels; by left. Qed.
Lemma digit_range levels P : 0 <= digit levels P < 512.
Proof. apply Z.mod_pos_bound. lia. Qed.

Lemma in_tree_usable levels m t q : tree_ok levels m t -> in_tree levels m t q -> usable q.
Proof.
  revert t. induction levels as [|levels IH]; intros t Ht [-> | Hq]; try done.
  - by apply (tree_usable 0 m).
  - by apply (tree_usable (S levels) m).
  - destruct Hq as (i & Hi & Hn & Hq). destruct Ht as [_ Ht].
    destruct (Ht i Hi (NEXTPGT_VALID _ Hn)) as (_ & Hok & _). by apply (IH _ Hok).
Qed.

(** ** Frame *)

(** The page [q] holds the same entries in both memories. *)
Definition page_same (m m' : Z -> Z) (q : Z) : Prop := forall i, 0 <= i < 512 -> entry m' q i = entry m q i.

Lemma in_tree_frame levels m m' t q :
  (forall q, in_tree levels m t q -> page_same m m' q) -> in_tree levels m' t q <-> in_tree levels m t q.
Proof.
  revert t q. induction levels as [|levels IH]; intros t q Hs; [done |]. simpl.
  assert (Hroot : page_same m m' t) by (apply Hs, in_tree_root).
  split; (intros [-> | (i & Hi & Hn & Hq)]; [by left | right; exists i; split; [done |]]).
  - rewrite (Hroot i Hi) in *. split; [done |]. apply (IH (child (entry m t i))); [| done].
    intros q' Hq'. apply Hs. right. by exists i.
  - rewrite (Hroot i Hi) in *. split; [done |]. apply (IH (child (entry m t i))); [| done].
    intros q' Hq'. apply Hs. right. by exists i.
Qed.

Lemma subtree_same levels m m' t i :
  (forall q, in_tree (S levels) m t q -> page_same m m' q) -> 0 <= i < 512 ->
  PTE_NEXTPGT (entry m t i) = true ->
  forall q, in_tree levels m (child (entry m t i)) q -> page_same m m' q.
Proof. intros Hs Hi Hn q Hq. apply Hs. right. by exists i. Qed.

Lemma tree_ok_frame levels m m' t :
  (forall q, in_tree levels m t q -> page_same m m' q) -> tree_ok levels m t -> tree_ok levels m' t.
Proof.
  revert t. induction levels as [|levels IH]; intros t Hs; [done |]. intros [Hu Ht]. split; [done |].
  pose proof (Hs t (in_tree_root _ _ _)) as Hroot. intros i Hi. rewrite (Hroot i Hi). intros Hv.
  destruct (Ht i Hi Hv) as (Hn & Hok & Hnt & Hdis).
  pose proof (subtree_same levels m m' t i Hs Hi Hn) as Hsi.
  split; [done |]. split; [by apply IH |]. split; [by rewrite in_tree_frame |].
  intros q Hq (j & Hj & Hji & Hnj & Hqj). rewrite (Hroot j Hj) in *.
  apply (Hdis q); [by apply (in_tree_frame levels m m') |]. exists j. do 3 (split; [done |]).
  apply (in_tree_frame levels m m'); [by apply subtree_same | done].
Qed.

Lemma look_frame levels m m' t P :
  (forall q, in_tree levels m t q -> page_same m m' q) -> look levels m' t P = look levels m t P.
Proof.
  revert t. induction levels as [|levels IH]; intros t Hs; simpl.
  - by rewrite (Hs t (in_tree_root 0 m t) _ (digit_range 0 P)).
  - rewrite (Hs t (in_tree_root (S levels) m t) _ (digit_range _ P)).
    destruct (PTE_NEXTPGT _) eqn:Hn; [| done]. apply IH. apply subtree_same; [done | apply digit_range | done].
Qed.

(** ** Update of one entry and of the subtree below it *)

Section update.
Context (levels : nat) (m m' : Z -> Z) (t idx : Z).
Context (Hidx : 0 <= idx < 512).
Context (Hok : tree_ok (S levels) m t).
Context (Hroot : forall i, 0 <= i < 512 -> i <> idx -> entry m' t i = entry m t i).
Context (Helse : forall q, elsewhere levels m t idx q -> page_same m m' q).
(** The new entry. *)
Notation e' := (entry m' t idx).
Context (Hnew : PTE_VALID e' = true -> PTE_NEXTPGT e' = true /\ tree_ok levels m' (child e') /\
           ~ in_tree levels m' (child e') t /\
           forall q, in_tree levels m' (child e') q -> ~ elsewhere levels m t idx q).

Lemma other_same i :
  0 <= i < 512 -> i <> idx -> PTE_NEXTPGT (entry m t i) = true ->
  forall q, in_tree levels m (child (entry m t i)) q -> page_same m m' q.
Proof using Helse. intros Hi Hne Hn q Hq. apply Helse. by exists i. Qed.

Lemma elsewhere_update q : elsewhere levels m' t idx q <-> elsewhere levels m t idx q.
Proof using Hroot Helse.
  split; intros (j & Hj & Hji & Hnj & Hq); exists j; rewrite (Hroot j Hj Hji) in *; do 3 (split; [done |]);
    apply (in_tree_frame levels m m'); try done; by apply other_same.
Qed.

Lemma in_tree_update q :
  in_tree (S levels) m' t q <->
  q = t \/ elsewhere levels m t idx q \/ (PTE_NEXTPGT e' = true /\ in_tree levels m' (child e') q).
Proof using Hidx Hroot Helse.
  rewrite <- elsewhere_update. simpl. split.
  - intros [-> | (i & Hi & Hn & Hq)]; [by left | right]. destruct (decide (i = idx)) as [-> | Hne].
    + by right.
    + left. by exists i.
  - intros [-> | [(i & Hi & _ & Hn & Hq) | [Hn Hq]]]; [by left | right; by exists i | right; by exists idx].
Qed.

Lemma tree_ok_update : tree_ok (S levels) m' t.
Proof using All.
  destruct Hok as [Hu Ht]. split; [done |]. intros i Hi Hv. destruct (decide (i = idx)) as [-> | Hne].
  - destruct (Hnew Hv) as (Hn & Hc & Hnt & Hd). do 3 (split; [done |]).
    intros q Hq. rewrite elsewhere_update. by apply Hd.
  - rewrite (Hroot i Hi Hne) in *. destruct (Ht i Hi Hv) as (Hn & Hc & Hnt & Hd). split; [done |].
    pose proof (other_same i Hi Hne Hn) as Hs.
    split; [by apply (tree_ok_frame levels m) |]. split; [by rewrite in_tree_frame |].
    intros q Hq (j & Hj & Hji & Hnj & Hqj). apply (in_tree_frame levels m m' _ q Hs) in Hq.
    destruct (decide (j = idx)) as [-> | Hjne].
    + destruct (Hnew (NEXTPGT_VALID _ Hnj)) as (_ & _ & _ & Hdn). apply (Hdn q Hqj). by exists i.
    + rewrite (Hroot j Hj Hjne) in *. apply (Hd q Hq). exists j. do 3 (split; [done |]).
      apply (in_tree_frame levels m m'); [by apply other_same | done].
Qed.

Lemma look_update P :
  look (S levels) m' t P =
  if decide (digit (S levels) P = idx) then if PTE_NEXTPGT e' then look levels m' (child e') P else None
  else look (S levels) m t P.
Proof using Hroot Helse.
  cbn [look]. case_decide as Hd; [by rewrite Hd |].
  rewrite (Hroot _ (digit_range (S levels) P) Hd).
  destruct (PTE_NEXTPGT (entry m t (digit (S levels) P))) eqn:Hn; [| reflexivity].
  apply look_frame. by apply (other_same _ (digit_range _ P) Hd).
Qed.
End update.

(** The pages of the subtree of an entry are not the table, and in no other
    subtree. *)
Lemma subtree_apart levels m t i q :
  tree_ok (S levels) m t -> 0 <= i < 512 -> PTE_NEXTPGT (entry m t i) = true ->
  in_tree levels m (child (entry m t i)) q -> q <> t /\ ~ elsewhere levels m t i q.
Proof.
  intros [_ Ht] Hi Hn Hq. destruct (Ht i Hi (NEXTPGT_VALID _ Hn)) as (_ & _ & Hnt & Hd).
  split; [by intros -> | by apply Hd].
Qed.
End tree.
