(* ===== verification/Sv39Map.v ===== *)
(** * Mapping pages: [vm_walkthrough]

    Proved against the interface [PageSource] of the page allocator. *)
From S2P Require Import Prelude DList KernelMap PageFrame Buddy Sv39 Sv39Pte Sv39Tree.

(** ** What the page tables need of the page allocator

    [Own s l]: the pages [l] were taken from the allocator, one at a time, and
    not given back. *)
Class PageOwner (km : kernel_mapping) (Own : buddy -> list Z -> Prop) : Prop := {
  ps_nodup : forall s l, Own s l -> NoDup l;
  ps_usable : forall s l v, Own s l -> v ∈ l -> usable km v;
  ps_memory : forall s l m, Own s l -> Own (set_memory m s) l
}.
Class PageSource (km : kernel_mapping) (alloc_zero : M buddy Z) (free : Z -> M buddy unit)
    (Own : buddy -> list Z -> Prop) : Prop := {
  ps_owner :: PageOwner km Own;
  ps_alloc : forall s l, Own s l ->
    alloc_zero s = Ok (NULL, s) \/
    exists v s', alloc_zero s = Ok (v, s') /\ usable km v /\ v ∉ l /\ Own s' (v :: l) /\
      forall a, memory s' a = fill v 4096 0 (memory s) a;
  ps_free : forall s l1 v l2, Own s (l1 ++ v :: l2) ->
    exists s', free v s = Ok (tt, s') /\ Own s' (l1 ++ l2) /\ forall a, memory s' a = memory s a
}.

(** Bytes of whole pages. *)
Definition bytes_same (m m' : Z -> Z) (q : Z) : Prop := forall a, q <= a < q + 4096 -> m' a = m a.

Lemma bytes_page_same m m' q : bytes_same m m' q -> page_same m m' q.
Proof. intros H i Hi. apply ld64_ext. intros b Hb. apply H. unfold pte_addr in Hb. lia. Qed.

Lemma pages_apart q t : q mod 4096 = 0 -> t mod 4096 = 0 -> q <> t -> q + 4096 <= t \/ t + 4096 <= q.
Proof. intros [x ->]%Z.mod_divide [y ->]%Z.mod_divide; lia. Qed.

Lemma st64_bytes_same m t i v q :
  0 <= i < 512 -> q mod 4096 = 0 -> t mod 4096 = 0 -> q <> t -> bytes_same m (st64 (pte_addr t i) v m) q.
Proof.
  intros Hi Hq Ht Hne a Ha. pose proof (pages_apart q t Hq Ht Hne). unfold st64, pte_addr.
  destruct (Z.leb_spec (t + 8 * i) a), (Z.ltb_spec a (t + 8 * i + 8)); simpl; try done; lia.
Qed.
Lemma fill_bytes_same m v q :
  q mod 4096 = 0 -> v mod 4096 = 0 -> q <> v -> bytes_same m (fill v 4096 0 m) q.
Proof.
  intros Hq Hv Hne a Ha. pose proof (pages_apart q v Hq Hv Hne). unfold fill.
  destruct (Z.leb_spec v a), (Z.ltb_spec a (v + 4096)); simpl; try done; lia.
Qed.

Lemma entry_st64_same m t i v : 0 <= v < 2 ^ 64 -> entry (st64 (pte_addr t i) v m) t i = v.
Proof. apply ld64_st64_same. Qed.
Lemma entry_st64_other m t i j v : i <> j -> entry (st64 (pte_addr t i) v m) t j = entry m t j.
Proof. intros Hij. apply ld64_st64_other. unfold pte_addr. lia. Qed.

(** ** Digits *)

Lemma span_S levels : span (S levels) = 512 * span levels.
Proof. unfold span. rewrite <- Z.pow_succ_r by lia. f_equal. lia. Qed.
Lemma span_pos levels : 0 < span levels.
Proof. apply Z.pow_pos_nonneg; lia. Qed.
(** The part of a table below one entry. *)
Definition width (levels : nat) : Z := 512 ^ Z.of_nat levels.
Lemma width_S levels : width (S levels) = span levels.
Proof. unfold width, span. f_equal. lia. Qed.
Lemma span_width levels : span levels = 512 * width levels.
Proof. unfold width, span. rewrite Z.pow_add_r by lia. lia. Qed.
Lemma width_pos levels : 0 < width levels.
Proof. apply Z.pow_pos_nonneg; lia. Qed.

(** A page number is the block of its table, and the digit in it. *)
Lemma digit_div levels P : P / width levels = 512 * (P / span levels) + digit levels P.
Proof.
  pose proof (width_pos levels). unfold digit. fold (width levels).
  replace (span levels) with (width levels * 512) by (rewrite span_width; lia). rewrite <- Z.div_div by lia.
  pose proof (Z.div_mod (P / width levels) 512 ltac:(lia)). lia.
Qed.

Lemma same_width levels P Q :
  P / span levels = Q / span levels -> digit levels P = digit levels Q <-> P / width levels = Q / width levels.
Proof. intros H. rewrite !digit_div, H. lia. Qed.

Lemma div_range P w : 0 < w -> P / w * w <= P < (P / w + 1) * w.
Proof. intros Hw. pose proof (Z.div_mod P w ltac:(lia)). pose proof (Z.mod_pos_bound P w). lia. Qed.
Lemma div_unique P w c : 0 < w -> c * w <= P < (c + 1) * w -> P / w = c.
Proof. intros Hw H. symmetry. apply (Z.div_unique P w c (P - c * w)); lia. Qed.

Section grown.
Context {km : kernel_mapping} {Own : buddy -> list Z -> Prop} {PO : PageOwner km Own}.

(** ** What a partial mapping has done

    [k] pages from page number [P] on are mapped to [pa] and the pages after
    it; [l] and [l'] are the pages taken from the allocator. *)
Record grown (levels : nat) (t P pa flags k : Z) (s : buddy) (l : list Z) (s' : buddy) (l' : list Z) : Prop := {
  gr_own : Own s' l';
  gr_sub : forall q, q ∈ l -> q ∈ l';
  gr_ok : tree_ok km levels (memory s') t;
  gr_new : forall q, in_tree km levels (memory s') t q -> in_tree km levels (memory s) t q \/ (q ∈ l' /\ q ∉ l);
  gr_mono : forall q, in_tree km levels (memory s) t q -> in_tree km levels (memory s') t q;
  gr_same : forall q, q mod 4096 = 0 -> ~ in_tree km levels (memory s') t q -> bytes_same (memory s) (memory s') q;
  gr_look : forall Q, Q / span levels = P / span levels ->
    look km levels (memory s') t Q =
    if decide (P <= Q < P + k) then Some (SV39_Pa2PTE (pa + 4096 * (Q - P)) flags)
    else look km levels (memory s) t Q;
  gr_free : forall Q, Q / span levels = P / span levels -> P <= Q < P + k -> look km levels (memory s) t Q = None;
  gr_tight : forall q, q ∈ l' -> q ∈ l \/ in_tree km levels (memory s') t q
}.

Lemma grown_refl levels t P pa flags s l :
  Own s l -> tree_ok km levels (memory s) t -> grown levels t P pa flags 0 s l s l.
Proof. intros HO Ht. split; try done; [by left | | lia | by left]. intros Q HQ. rewrite decide_False by lia. done. Qed.

Lemma grown_trans levels t P pa flags k k' s l s1 l1 s2 l2 :
  grown levels t P pa flags k s l s1 l1 ->
  grown levels t (P + k) (pa + 4096 * k) flags k' s1 l1 s2 l2 ->
  (P + k) / span levels = P / span levels -> 0 <= k -> 0 <= k' ->
  grown levels t P pa flags (k + k') s l s2 l2.
Proof.
  intros [O1 S1 T1 N1 M1 F1 L1 Z1 G1] [O2 S2 T2 N2 M2 F2 L2 Z2 G2] Hb Hk Hk'. split; try done.
  - intros q Hq. by apply S2, S1.
  - intros q [Hq | [Hq Hnq]]%N2; [| by right; split; [| intros ?; by apply Hnq, S1]].
    apply N1 in Hq as [Hq | [Hq Hnq]]; [by left | right; split; [by apply S2 | done]].
  - intros q Hq. by apply M2, M1.
  - intros q Hq Hnq a Ha. rewrite (F2 q Hq Hnq a Ha). apply (F1 q Hq); [| done]. intros Hi. by apply Hnq, M2.
  - intros Q HQ. rewrite L2 by congruence. rewrite L1 by done.
    repeat case_decide; try lia; try done. do 2 f_equal. lia.
  - intros Q HQ HQ2. destruct (decide (Q < P + k)) as [Hlt | Hge]; [apply Z1; [done | lia] |].
    rewrite <- (Z2 Q ltac:(congruence) ltac:(lia)). rewrite L1 by done. by rewrite decide_False by lia.
  - intros q [[Hq | Hq]%G1 | Hq]%G2; [by left | right; by apply M2 | by right].
Qed.

(** A step in the table below an entry is a step of the table. *)
Lemma grown_child levels t P pa flags k s l s' l' :
  tree_ok km (S levels) (memory s) t -> (forall q, in_tree km (S levels) (memory s) t q -> q ∈ l) ->
  let e := entry (memory s) t (digit (S levels) P) in
  PTE_NEXTPGT e = true -> 0 <= k -> P + k <= (P / span levels + 1) * span levels ->
  grown levels (child km e) P pa flags k s l s' l' ->
  grown (S levels) t P pa flags k s l s' l'.
Proof.
  intros Ht Hl e Hn Hk Hend [O1 S1 T1 N1 M1 F1 L1 Z1 G1].
  pose proof (digit_range (S levels) P) as Hi. set (idx := digit (S levels) P) in *.
  assert (Hout : forall q, q ∈ l -> ~ in_tree km levels (memory s) (child km e) q ->
                           ~ in_tree km levels (memory s') (child km e) q).
  { intros q Hq Hnq [Hq' | [_ Hq']]%N1; done. }
  assert (Hroot : bytes_same (memory s) (memory s') t).
  { apply F1; [apply (us_page km), (tree_usable km _ _ _ Ht) |]. apply Hout; [apply Hl, in_tree_root |].
    intros Hq. by destruct (subtree_apart km _ _ _ _ _ Ht Hi Hn Hq). }
  assert (He : forall i, 0 <= i < 512 -> entry (memory s') t i = entry (memory s) t i) by (by apply bytes_page_same).
  assert (Helse : forall q, elsewhere km levels (memory s) t idx q ->
                  q mod 4096 = 0 /\ ~ in_tree km levels (memory s') (child km e) q).
  { intros q Hq. assert (Hin : in_tree km (S levels) (memory s) t q).
    { destruct Hq as (j & Hj & _ & Hnj & Hq). right. by exists j. }
    split; [by apply (us_page km), (in_tree_usable km _ _ _ _ Ht) |]. apply Hout; [by apply Hl |].
    intros Hq'. by destruct (subtree_apart km _ _ _ _ _ Ht Hi Hn Hq'). }
  assert (Hes : forall q, elsewhere km levels (memory s) t idx q -> page_same (memory s) (memory s') q).
  { intros q Hq. apply bytes_page_same, F1; by apply Helse. }
  assert (Hnew : PTE_VALID (entry (memory s') t idx) = true -> PTE_NEXTPGT (entry (memory s') t idx) = true /\
     tree_ok km levels (memory s') (child km (entry (memory s') t idx)) /\
     ~ in_tree km levels (memory s') (child km (entry (memory s') t idx)) t /\
     forall q, in_tree km levels (memory s') (child km (entry (memory s') t idx)) q ->
               ~ elsewhere km levels (memory s) t idx q).
  { intros _. rewrite (He idx Hi). fold e. split; [done |]. split; [done |]. split.
    - apply Hout; [apply Hl, in_tree_root |]. intros Hq. by destruct (subtree_apart km _ _ _ _ _ Ht Hi Hn Hq).
    - intros q Hq Hel. by destruct (Helse q Hel). }
  assert (Hit : forall q, in_tree km (S levels) (memory s') t q <->
     q = t \/ elsewhere km levels (memory s) t idx q \/ in_tree km levels (memory s') (child km e) q).
  { intros q. rewrite (in_tree_update km levels (memory s) (memory s') t idx Hi) by (intros; auto).
    rewrite (He idx Hi). fold e. naive_solver. }
  assert (Hit0 : forall q, in_tree km (S levels) (memory s) t q <->
     q = t \/ elsewhere km levels (memory s) t idx q \/ in_tree km levels (memory s) (child km e) q).
  { intros q. rewrite (in_tree_update km levels (memory s) (memory s) t idx Hi) by done. fold e. naive_solver. }
  split; try done.
  - apply (tree_ok_update km levels (memory s)) with (idx := idx); auto.
  - intros q [-> | [Hq | Hq]]%Hit; [left; apply in_tree_root | left; apply Hit0; tauto |].
    apply N1 in Hq as [Hq | Hq]; [left; apply Hit0; tauto | by right].
  - intros q Hq%Hit0. apply Hit. naive_solver.
  - intros q Hq Hnq. apply F1; [done |]. intros Hin. apply Hnq, Hit. tauto.
  - intros Q HQ. rewrite (look_update km levels (memory s) (memory s') t idx) by (intros; auto).
    rewrite (He idx Hi). fold e. rewrite Hn. pose proof (same_width _ _ _ HQ) as Hd. rewrite width_S in Hd.
    case_decide as Hdq.
    + rewrite L1 by (by apply Hd). case_decide; [done |]. cbn [look]. rewrite Hdq. fold e. by rewrite Hn.
    + rewrite decide_False; [done |]. intros HPQ. apply Hdq, Hd. pose proof (span_pos levels).
      apply div_unique; [done |]. pose proof (div_range P (span levels) ltac:(lia)). lia.
  - intros Q HQ HPQ. pose proof (span_pos levels). pose proof (div_range P (span levels) ltac:(lia)).
    assert (Hw : Q / span levels = P / span levels) by (apply div_unique; lia).
    pose proof (same_width _ _ _ HQ) as Hd. rewrite width_S in Hd. cbn [look].
    rewrite (proj2 Hd Hw). fold idx e. rewrite Hn. by apply Z1.
  - intros q [Hq | Hq]%G1; [by left | right; apply Hit; tauto].
Qed.

(** ** A new table *)

Lemma fresh_tree levels m v :
  usable km v -> (forall i, 0 <= i < 512 -> entry m v i = 0) ->
  tree_ok km levels m v /\ (forall q, in_tree km levels m v q <-> q = v) /\ forall P, look km levels m v P = None.
Proof.
  intros Hu H0. split; [| split].
  - destruct levels; (split; [done |]); [done |]. intros i Hi. by rewrite H0.
  - intros q. destruct levels; simpl; [tauto |]. split; [| by left].
    intros [-> | (i & Hi & Hn & _)]; [done |]. by rewrite H0 in Hn.
  - intros P. destruct levels; simpl; by rewrite H0 by apply digit_range.
Qed.

(** Linking a fresh table [v] maps nothing. *)
Lemma grown_link levels t P pa flags s l s1 v :
  Own s l -> tree_ok km (S levels) (memory s) t -> (forall q, in_tree km (S levels) (memory s) t q -> q ∈ l) ->
  let idx := digit (S levels) P in
  PTE_VALID (entry (memory s) t idx) = false ->
  usable km v -> v ∉ l -> Own s1 (v :: l) -> (forall a, memory s1 a = fill v 4096 0 (memory s) a) ->
  let s2 := set_memory (st64 (pte_addr t idx) (SV39_Pa2PTE (va2pa km v) VM_PROT_V) (memory s1)) s1 in
  grown (S levels) t P pa flags 0 s l s2 (v :: l) /\
  child km (entry (memory s2) t idx) = v /\ PTE_NEXTPGT (entry (memory s2) t idx) = true.
Proof.
  intros HO Ht Hl idx Hv Hu Hvl HO1 Hm1 s2. pose proof (digit_range (S levels) P) as Hi. fold idx in Hi.
  pose proof Hu as [_ Hvp Hpa Hpap Hback]. pose proof (tree_usable km _ _ _ Ht) as [_ Htp _ _ _].
  assert (Hvt : v <> t) by (intros ->; apply Hvl, Hl, in_tree_root).
  set (e := SV39_Pa2PTE (va2pa km v) VM_PROT_V) in *.
  assert (Hm2 : forall a, memory s2 a = st64 (pte_addr t idx) e (fill v 4096 0 (memory s)) a).
  { intros a. simpl. unfold st64. by destruct (_ && _); [| apply Hm1]. }
  assert (He' : entry (memory s2) t idx = e) by (apply entry_st64_same, Pa2PTE_range; done).
  assert (Hn : PTE_NEXTPGT e = true) by apply NEXTPGT_table.
  assert (Hc : child km e = v) by (unfold child, e; by rewrite PTE2Pa_Pa2PTE).
  assert (Hsame : forall q, q mod 4096 = 0 -> q <> t -> q <> v -> bytes_same (memory s) (memory s2) q).
  { intros q Hq Hqt Hqv a Ha. rewrite Hm2, (st64_bytes_same _ t idx e q) by done.
    by apply (fill_bytes_same _ v q). }
  assert (Hroot : forall i, 0 <= i < 512 -> i <> idx -> entry (memory s2) t i = entry (memory s) t i).
  { intros i Hi' Hne. unfold entry. simpl. rewrite ld64_st64_other by (unfold pte_addr; lia).
    transitivity (ld64 (fill v 4096 0 (memory s)) (pte_addr t i)); [apply ld64_ext; auto |].
    pose proof (pages_apart v t Hvp Htp Hvt). apply ld64_fill_out. unfold pte_addr. lia. }
  destruct (fresh_tree levels (memory s2) v Hu) as (Hok2 & Hin2 & Hlook2).
  { intros i Hi'. pose proof (pages_apart v t Hvp Htp Hvt). unfold entry. simpl.
    rewrite ld64_st64_other by (unfold pte_addr; lia).
    transitivity (ld64 (fill v 4096 0 (memory s)) (pte_addr v i)); [apply ld64_ext; auto |].
    apply ld64_fill_in; unfold pte_addr; lia. }
  assert (Hin0 : forall q, elsewhere km levels (memory s) t idx q -> in_tree km (S levels) (memory s) t q /\ q <> t).
  { intros q (j & Hj & _ & Hnj & Hq). split; [right; by exists j |].
    by destruct (subtree_apart km _ _ _ _ _ Ht Hj Hnj Hq). }
  assert (Hes : forall q, elsewhere km levels (memory s) t idx q -> page_same (memory s) (memory s2) q).
  { intros q Hq%Hin0. destruct Hq as [Hq Hqt]. apply bytes_page_same, Hsame; [| done |].
    - by apply (us_page km), (in_tree_usable km _ _ _ _ Ht).
    - intros ->. by apply Hvl, Hl. }
  assert (Hnew : PTE_VALID (entry (memory s2) t idx) = true -> PTE_NEXTPGT (entry (memory s2) t idx) = true /\
     tree_ok km levels (memory s2) (child km (entry (memory s2) t idx)) /\
     ~ in_tree km levels (memory s2) (child km (entry (memory s2) t idx)) t /\
     forall q, in_tree km levels (memory s2) (child km (entry (memory s2) t idx)) q ->
               ~ elsewhere km levels (memory s) t idx q).
  { intros _. rewrite He', Hc. do 2 (split; [done |]). split; [rewrite Hin2; congruence |].
    intros q ->%Hin2 Hq%Hin0. destruct Hq as [Hq _]. by apply Hvl, Hl. }
  assert (Hit : forall q, in_tree km (S levels) (memory s2) t q <->
     q = t \/ elsewhere km levels (memory s) t idx q \/ q = v).
  { intros q. rewrite (in_tree_update km levels (memory s) (memory s2) t idx Hi) by (intros; auto).
    rewrite He', Hc, Hin2. naive_solver. }
  assert (Hinv : PTE_NEXTPGT (entry (memory s) t idx) = false).
  { apply not_true_is_false. intros E%NEXTPGT_VALID. congruence. }
  assert (Hit0 : forall q, in_tree km (S levels) (memory s) t q -> q = t \/ elsewhere km levels (memory s) t idx q).
  { intros q. rewrite (in_tree_update km levels (memory s) (memory s) t idx Hi) by done.
    rewrite Hinv. naive_solver. }
  split; [| by rewrite He']. split.
  - by apply ps_memory.
  - intros q Hq. by right.
  - apply (tree_ok_update km levels (memory s)) with (idx := idx); auto.
  - intros q [-> | [Hq | ->]]%Hit; [left; apply in_tree_root | left; by apply Hin0 |].
    right. split; [by left | done].
  - intros q Hq%Hit0. apply Hit. tauto.
  - intros q Hq Hnq. apply Hsame; [done | |]; intros ->; apply Hnq, Hit; tauto.
  - intros Q HQ. rewrite decide_False by lia.
    rewrite (look_update km levels (memory s) (memory s2) t idx) by (intros; auto).
    rewrite He', Hn, Hc, Hlook2. case_decide as Hdq; [| done]. cbn [look]. by rewrite Hdq, Hinv.
  - lia.
  - intros q [-> | Hq]%elem_of_cons; [right; apply Hit; tauto | by left].
Qed.

(** ** A last-level entry *)

Lemma grown_leaf t P pa flags s l :
  Own s l -> tree_ok km 0 (memory s) t -> t ∈ l ->
  let idx := digit 0 P in
  PTE_VALID (entry (memory s) t idx) = false -> 0 <= pa < 2 ^ 56 -> pa mod 4096 = 0 -> Z.testbit flags 0 = true ->
  let s1 := set_memory (st64 (pte_addr t idx) (SV39_Pa2PTE pa flags) (memory s)) s in
  grown 0 t P pa flags 1 s l s1 l.
Proof.
  intros HO [Hu _] Htl idx Hv Hpa Hpap Hf s1. pose proof (digit_range 0 P) as Hi. fold idx in Hi.
  pose proof Hu as [_ Htp _ _ _]. split.
  - by apply ps_memory.
  - done.
  - by split.
  - by left.
  - done.
  - intros q Hq Hnq. apply st64_bytes_same; try done. intros ->. apply Hnq. by left.
  - intros Q HQ. pose proof (same_width 0 Q P HQ) as Hd. unfold width in Hd. rewrite !Z.div_1_r in Hd.
    cbn [look]. destruct (decide (digit 0 Q = idx)) as [E | E].
    + assert (Q = P) as -> by (by apply Hd). rewrite decide_True by lia. fold idx.
      unfold s1. cbn [memory set_memory]. rewrite entry_st64_same by (by apply Pa2PTE_range).
      rewrite PTE_VALID_bit, Pa2PTE_bit, Hf by lia. do 2 f_equal. lia.
    + rewrite decide_False by (intros ?; apply E, Hd; lia).
      unfold s1. cbn [memory set_memory]. by rewrite entry_st64_other by done.
  - intros Q HQ HPQ. assert (Q = P) as -> by lia. cbn [look]. fold idx. by rewrite Hv.
  - by left.
Qed.

Lemma grown_in levels t P pa flags k s l s' l' q :
  (forall q, in_tree km levels (memory s) t q -> q ∈ l) -> grown levels t P pa flags k s l s' l' ->
  in_tree km levels (memory s') t q -> q ∈ l'.
Proof. intros Hl [? Hsub ? Hnew ? ? ? ? ?] [Hq | [Hq _]]%Hnew; [by apply Hsub, Hl | done]. Qed.

End grown.

(** ** The walk *)

Section map.
Context {km : kernel_mapping} {g_buddy : Z} {Own : buddy -> list Z -> Prop}.
Context {PS : PageSource km (bk_alloc_zero km g_buddy 0) (bk_free km g_buddy) Own}.
Notation grown := (grown (km := km) (Own := Own)).

(** The last page number of the table of [P], and after it. *)
Definition table_end (levels : nat) (P : Z) : Z := (P / span levels + 1) * span levels.

(** How a walk that mapped [k] of [pages] pages ends: all are mapped, or the
    table is used up, or memory is, or the next page is mapped already. *)
Definition outcome (levels : nat) (m : Z -> Z) (t P pages r k : Z) : Prop :=
  (r = 0 /\ (k = pages \/ P + k = table_end levels P)) \/
  (k < pages /\ P + k < table_end levels P /\
   (r = - ENOMEM \/ (r = - EEXIST /\ is_Some (look km levels m t (P + k))))).

Record walk_pre (levels : nat) (s : buddy) (l : list Z) (t P pa flags pages : Z) : Prop := {
  wp_own : Own s l;
  wp_tree : tree_ok km levels (memory s) t;
  wp_in : forall q, in_tree km levels (memory s) t q -> q ∈ l;
  wp_P : 0 <= P /\ 4096 * (P + pages) < 2 ^ 64;
  wp_pages : 0 < pages < 2 ^ 31;
  wp_pa : 0 <= pa /\ pa + 4096 * pages <= 2 ^ 56;
  wp_pa_page : pa mod 4096 = 0;
  wp_flags : Z.testbit flags 0 = true
}.

Definition walk_post (levels : nat) (s : buddy) (l : list Z) (t P pa flags pages r k : Z) (s' : buddy) (l' : list Z) : Prop :=
  0 <= k <= pages /\ P + k <= table_end levels P /\ grown levels t P pa flags k s l s' l' /\
  outcome levels (memory s) t P pages r k.

Definition walk_spec (levels : nat) : Prop := forall s l t P pa flags pages,
  walk_pre levels s l t P pa flags pages ->
  exists r k s' l', vm_walkthrough km g_buddy levels t (4096 * P) pa flags pages s = Ok ((r, pages - k), s') /\
    walk_post levels s l t P pa flags pages r k s' l'.

Lemma table_end_width levels P : table_end levels P = (512 * (P / span levels) + 512) * width levels.
Proof. unfold table_end. rewrite (span_width levels) at 2. lia. Qed.
Lemma table_end_gt levels P : P < table_end levels P.
Proof. apply div_range, span_pos. Qed.
Lemma table_end_same levels P Q : Q / span levels = P / span levels -> table_end levels Q = table_end levels P.
Proof. unfold table_end. by intros ->. Qed.
Lemma in_table levels P Q : P <= Q < table_end levels P -> Q / span levels = P / span levels.
Proof.
  intros HQ. pose proof (span_pos levels) as Hs. pose proof (div_range P _ Hs).
  apply div_unique; [done |]. unfold table_end in HQ. lia.
Qed.

(** Where the loop is at entry [idx]: the next page is in its part. *)
Definition at_entry (levels : nat) (P k idx : Z) : Prop :=
  digit levels P <= idx /\ 0 <= k /\ P + k < table_end levels P + 1 /\
  ((k = 0 /\ idx = digit levels P) \/ P + k = (512 * (P / span levels) + idx) * width levels).

Lemma at_entry_here levels P k idx :
  at_entry levels P k idx -> idx < 512 ->
  (P + k) / span levels = P / span levels /\ digit levels (P + k) = idx /\
  (P + k) / width levels = 512 * (P / span levels) + idx.
Proof.
  intros (H1 & H2 & H3 & H4) Hi. pose proof (width_pos levels) as Hw. pose proof (span_pos levels) as Hsp.
  assert (Hdiv : (P + k) / width levels = 512 * (P / span levels) + idx).
  { destruct H4 as [[-> ->] | E]; [by rewrite Z.add_0_r, digit_div | by rewrite E, Z.div_mul by lia]. }
  assert (Hb : (P + k) / span levels = P / span levels).
  { apply in_table. split; [lia |]. destruct H4 as [[-> ->] | E]; [rewrite Z.add_0_r; apply table_end_gt |].
    rewrite E, table_end_width. nia. }
  split; [done |]. split; [| done]. rewrite digit_div, Hb in Hdiv. lia.
Qed.

Lemma at_entry_next levels P k k' idx :
  at_entry levels P k idx -> idx < 512 -> 0 <= k' ->
  P + k + k' = ((P + k) / width levels + 1) * width levels -> at_entry levels P (k + k') (idx + 1).
Proof.
  intros H Hi Hk' E. destruct (at_entry_here _ _ _ _ H Hi) as (_ & _ & Ed). rewrite Ed in E.
  destruct H as (H1 & H2 & _ & _). pose proof (width_pos levels). split; [lia |]. split; [lia |].
  split; [| right; lia]. rewrite table_end_width. nia.
Qed.

Lemma index_asserts levels P :
  (levels <= 2)%nat -> 0 <= P -> (0 <=? index_of levels) && (index_of levels <? 3) = true /\
  s32 (SV39_Index2Id (4096 * P) (index_of levels)) = digit levels P /\
  (0 <=? digit levels P) && (digit levels P <? PTE_NUMS) = true /\
  (index_of levels =? 2) = match levels with O => true | _ => false end.
Proof.
  intros Hl HP. unfold index_of. pose proof (digit_range levels P) as Hd. split; [lia |]. split; [| split].
  - rewrite Index2Id_eq by lia. rewrite (Z.mul_comm 4096), Z.div_mul by lia.
    replace (2 - (2 - Z.of_nat levels)) with (Z.of_nat levels) by lia. fold (digit levels P).
    apply s32_small. lia.
  - rewrite PTE_NUMS_eq. lia.
  - destruct levels; [done |]. apply Z.eqb_neq. lia.
Qed.

Lemma usable_aligned v : usable km v -> VAL_IS_PAGE_ALIGNED v = true /\ VAL_IS_PAGE_ALIGNED (va2pa km v) = true.
Proof.
  intros [Hp Hv Hpa Hpav _]. unfold VAL_IS_PAGE_ALIGNED. change PAGE_ALIGN_BIT with (Z.ones 12).
  rewrite !Z.land_ones, !u64_small by lia. change (2 ^ 12) with 4096. by rewrite Hv, Hpav.
Qed.
Lemma PTE2Pa_aligned e : VAL_IS_PAGE_ALIGNED (SV39_PTE2Pa e) = true.
Proof.
  unfold VAL_IS_PAGE_ALIGNED, SV39_PTE2Pa. change PAGE_ALIGN_BIT with (Z.ones 12).
  rewrite Z.land_ones by lia. rewrite Z.shiftl_mul_pow2 by lia. unfold u64.
  change (2 ^ 64) with (2 ^ 52 * 2 ^ 12). rewrite Z.mul_mod_distr_r by lia. rewrite Z.mod_mul by lia. done.
Qed.

(** The loop invariant and the result of the loop. *)
Section loop.
Context (levels : nat) (s : buddy) (l : list Z) (t P pa flags pages : Z).
Context (Hpre : walk_pre levels s l t P pa flags pages).

Definition loop_inv (idx : Z) (a : Z * Z * Z) (st : buddy) : Prop :=
  exists k l1, a = (4096 * (P + k), pa + 4096 * k, pages - k) /\ k < pages /\
    at_entry levels P k idx /\ grown levels t P pa flags k s l st l1.

Definition loop_exit (rp : Z * Z) (st : buddy) : Prop :=
  exists r k l1, rp = (r, pages - k) /\ walk_post levels s l t P pa flags pages r k st l1.

Definition loop_leaves (idx : Z) (r : step (Z * Z * Z) (Z * Z)) (st : buddy) : Prop :=
  match r with Next a => loop_inv (idx + 1) a st | Return r => loop_exit r st end.

(** [k'] more pages are mapped at [idx]. *)
Lemma step_done idx k k' l1 st l2 st2 r :
  at_entry levels P k idx -> idx < 512 -> k < pages ->
  grown levels t P pa flags k s l st l1 -> grown levels t (P + k) (pa + 4096 * k) flags k' st l1 st2 l2 ->
  0 <= k' <= pages - k -> P + k + k' <= ((P + k) / width levels + 1) * width levels ->
  (r = 0 /\ (k' = pages - k \/ P + k + k' = ((P + k) / width levels + 1) * width levels)) ->
  loop_leaves idx (if pages - k - k' =? 0 then Return (0, pages - k - k')
                   else Next (4096 * (P + k + k'), pa + 4096 * k + 4096 * k', pages - k - k')) st2.
Proof using Hpre.
  intros Hat Hi Hk G1 G2 Hk' Hend [-> Hr]. destruct (at_entry_here _ _ _ _ Hat Hi) as (Hb & _ & Ew).
  pose proof Hat as (_ & Hk0 & _ & _).
  pose proof (grown_trans _ _ _ _ _ _ _ _ _ _ _ _ _ G1 G2 Hb Hk0 (proj1 Hk')) as G.
  destruct (Z.eqb_spec (pages - k - k') 0) as [Hz | Hz].
  - exists 0, (k + k'), l2. split; [f_equal; lia |]. split; [lia |]. split.
    + rewrite table_end_width. pose proof (width_pos levels). rewrite Ew in Hend. nia.
    + split; [done |]. left. split; [done | left; lia].
  - exists (k + k'), l2. split; [f_equal; [f_equal |]; lia |]. split; [lia |]. split; [| done].
    apply at_entry_next; [done | done | lia |]. destruct Hr as [-> | Hr]; [lia | done].
Qed.

(** The walk stops with an error after [k'] more pages. *)
Lemma step_stop idx k k' l1 st l2 st2 r :
  at_entry levels P k idx -> idx < 512 ->
  grown levels t P pa flags k s l st l1 -> grown levels t (P + k) (pa + 4096 * k) flags k' st l1 st2 l2 ->
  0 <= k' < pages - k -> P + k + k' < ((P + k) / width levels + 1) * width levels ->
  (r = - ENOMEM \/ (r = - EEXIST /\ is_Some (look km levels (memory st) t (P + k + k')))) ->
  loop_exit (r, pages - k - k') st2.
Proof using Hpre.
  intros Hat Hi G1 G2 Hk' Hend Hr. destruct (at_entry_here _ _ _ _ Hat Hi) as (Hb & _ & Ew).
  pose proof Hat as (_ & Hk0 & _ & _).
  pose proof (grown_trans _ _ _ _ _ _ _ _ _ _ _ _ _ G1 G2 Hb Hk0 (proj1 Hk')) as G.
  assert (Hlt : P + (k + k') < table_end levels P).
  { rewrite table_end_width. pose proof (width_pos levels). rewrite Ew in Hend. nia. }
  exists r, (k + k'), l2. split; [f_equal; lia |]. split; [lia |]. split; [lia |]. split; [done |].
  right. split; [lia |]. split; [done |]. destruct Hr as [-> | [-> Hs]]; [by left | right; split; [done |]].
  rewrite (gr_look _ _ _ _ _ _ _ _ _ _ G1) in Hs by (apply in_table; lia).
  rewrite decide_False in Hs by lia. by rewrite Z.add_assoc.
Qed.
End loop.

(** One entry of a last-level table. *)
Lemma body_leaf s l t P pa flags pages idx k st l1 :
  walk_pre 0 s l t P pa flags pages -> idx < 512 -> k < pages -> at_entry 0 P k idx ->
  grown 0 t P pa flags k s l st l1 ->
  let e := entry (memory st) t idx in
  exists r st2,
    (if negb (PTE_VALID e) then
       set_pte t idx (SV39_Pa2PTE (pa + 4096 * k) flags);;
       let pages' := s32 (pages - k - 1) in
       if pages' =? 0 then ret (Return (0, pages'))
       else ret (Next (u64 (4096 * (P + k) + PAGE_SIZE), u64 (pa + 4096 * k + PAGE_SIZE), pages'))
     else ret (Return (- EEXIST, pages - k))) st = Ok (r, st2) /\
    loop_leaves 0 s l t P pa flags pages idx r st2.
Proof.
  intros W Hi Hk Hat G e. pose proof W as [HO Ht Hin HP Hpg Hpa Hpap Hf].
  destruct (at_entry_here _ _ _ _ Hat Hi) as (Hb & Hd & Ew). pose proof Hat as (_ & Hk0 & _ & _).
  pose proof (grown_in _ _ _ _ _ _ _ _ _ _ t Hin G (in_tree_root km _ _ _)) as Htl.
  destruct (PTE_VALID e) eqn:Hv; cbn [negb].
  - exists (Return (- EEXIST, pages - k)), st. split; [done |].
    rewrite <- (Z.sub_0_r (pages - k)).
    apply (step_stop 0 s l t P pa flags pages W idx k 0 l1 st l1 st); try done; [| lia | |].
    + apply grown_refl; [apply G | apply G].
    + rewrite Z.add_0_r. apply (div_range (P + k)). apply width_pos.
    + right. split; [done |]. rewrite Z.add_0_r. cbn [look]. rewrite Hd. fold e. rewrite Hv. by eexists.
  - unfold set_pte, modify, bind. rewrite s32_small by lia. rewrite PAGE_SIZE_eq.
    assert (G2 : grown 0 t (P + k) (pa + 4096 * k) flags 1 st l1
        (set_memory (st64 (pte_addr t idx) (SV39_Pa2PTE (pa + 4096 * k) flags) (memory st)) st) l1).
    { rewrite <- Hd. apply grown_leaf; [apply G | apply G | done | by rewrite Hd | lia | | done].
      rewrite Z.mul_comm, Z.mod_add by lia. done. }
    pose proof (step_done 0 s l t P pa flags pages W idx k 1 l1 st l1 _ 0 Hat Hi Hk G G2) as Hstep.
    assert (Hw : P + k + 1 = ((P + k) / width 0 + 1) * width 0) by (change (width 0) with 1; rewrite Z.div_1_r; lia).
    specialize (Hstep ltac:(lia) ltac:(lia) (conj eq_refl (or_intror Hw))).
    eexists _, _. split; [| exact Hstep]. destruct (Z.eqb_spec (pages - k - 1) 0); [done |].
    unfold ret. rewrite !u64_small by lia. do 3 f_equal. f_equal. f_equal; lia.
Qed.

(** The descent through an entry that points to a table. *)
Lemma body_descend levels s l t P pa flags pages idx k st0 l0 st l1 (next : Z) :
  walk_spec levels ->
  walk_pre (S levels) s l t P pa flags pages -> idx < 512 -> k < pages -> at_entry (S levels) P k idx ->
  grown (S levels) t P pa flags k s l st0 l0 ->
  grown (S levels) t (P + k) (pa + 4096 * k) flags 0 st0 l0 st l1 ->
  PTE_NEXTPGT (entry (memory st) t idx) = true -> next = child km (entry (memory st) t idx) ->
  exists r st2,
    ('(ret', pages') ← vm_walkthrough km g_buddy levels next (4096 * (P + k)) (pa + 4096 * k) flags (pages - k);
     let step := u64 (s32 (pages - k - pages') * PAGE_SIZE) in
     if negb (ret' =? 0) then ret (Return (ret', pages'))
     else if pages' =? 0 then ret (Return (0, pages'))
     else ret (Next (u64 (4096 * (P + k) + step), u64 (pa + 4096 * k + step), pages'))) st = Ok (r, st2) /\
    loop_leaves (S levels) s l t P pa flags pages idx r st2.
Proof.
  intros IH W Hi Hk Hat G0 Glink Hn ->. pose proof W as [HO Ht Hin HP Hpg Hpa Hpap Hf].
  destruct (at_entry_here _ _ _ _ Hat Hi) as (Hb & Hd & Ew). pose proof Hat as (Hi0 & Hk0 & _ & _).
  pose proof (digit_range (S levels) P) as Hidx0.
  pose proof (grown_trans _ _ _ _ _ _ _ _ _ _ _ _ _ G0 Glink Hb Hk0 ltac:(lia)) as G. rewrite Z.add_0_r in G.
  assert (Hin1 : forall q, in_tree km (S levels) (memory st) t q -> q ∈ l1).
  { intros q Hq. by apply (grown_in _ _ _ _ _ _ _ _ _ _ q Hin G). }
  set (c := child km (entry (memory st) t idx)) in *.
  pose proof (gr_ok _ _ _ _ _ _ _ _ _ _ G) as Hok. pose proof Hok as [_ Hok'].
  destruct (Hok' idx ltac:(lia) (NEXTPGT_VALID _ Hn)) as (_ & Hokc & _ & _).
  destruct (IH st l1 c (P + k) (pa + 4096 * k) flags (pages - k)) as (r & k' & st2 & l2 & E & Hk' & Hend & Gc & Ho).
  { split; [apply G | done | | lia | lia | lia | | done].
    - intros q Hq. apply Hin1. right. exists idx. split; [lia | done].
    - rewrite Z.mul_comm, Z.mod_add by lia. done. }
  mstep E. replace (pages - k - (pages - k - k')) with k' by lia. rewrite PAGE_SIZE_eq, s32_small, (u64_small (k' * 4096)) by lia.
  unfold outcome, table_end in Hend, Ho. rewrite <- !width_S in Hend, Ho.
  assert (Gs : grown (S levels) t (P + k) (pa + 4096 * k) flags k' st l1 st2 l2).
  { apply grown_child; [done | done | by rewrite Hd | lia | by rewrite <- width_S | by rewrite Hd]. }
  destruct Ho as [[-> Hr] | (Hlt & Hlt2 & Hr)].
  - cbn [negb Z.eqb].
    pose proof (step_done (S levels) s l t P pa flags pages W idx k k' l1 st l2 st2 0 Hat Hi Hk G Gs) as Hstep.
    specialize (Hstep ltac:(lia) ltac:(lia) (conj eq_refl Hr)).
    eexists _, _. split; [| exact Hstep]. destruct (Z.eqb_spec (pages - k - k') 0); [done |].
    unfold ret. rewrite !u64_small by lia. do 3 f_equal. f_equal. f_equal; lia.
  - exists (Return (r, pages - k - k')), st2. split.
    + destruct (Z.eqb_spec r 0) as [-> |]; [| done]. exfalso.
      destruct Hr as [Hr | [Hr _]]; by vm_compute in Hr.
    + apply (step_stop (S levels) s l t P pa flags pages W idx k k' l1 st l2 st2 r); try done; [lia |].
      destruct Hr as [-> | [-> Hs]]; [by left | right; split; [done |]].
      cbn [look]. pose proof (same_width (S levels) (P + k) (P + k + k')) as Hsw.
      assert (Hb2 : (P + k + k') / width (S levels) = (P + k) / width (S levels)).
      { apply div_unique; [apply width_pos |]. pose proof (div_range (P + k) _ (width_pos (S levels))). lia. }
      replace (digit (S levels) (P + k + k')) with idx; [by rewrite Hn |].
      rewrite <- Hd. unfold digit. fold (width (S levels)). by rewrite Hb2.
Qed.

Lemma loop_finish levels s l t P pa flags pages r st2 :
  match r with
  | Next a => loop_inv levels s l t P pa flags pages 512 a st2
  | Return rp => loop_exit levels s l t P pa flags pages rp st2
  end ->
  exists rr k l2, (match r with Next (_, _, pages) => ret (0, pages) | Return rp => ret rp end) st2
      = Ok ((rr, pages - k), st2) /\ walk_post levels s l t P pa flags pages rr k st2 l2.
Proof.
  destruct r as [a | rp].
  - intros (k & l2 & -> & Hk & (H1 & H2 & H3 & H4) & G). exists 0, k, l2. split; [done |].
    split; [lia |]. split; [lia |]. split; [done |]. left. split; [done |]. right. rewrite table_end_width.
    pose proof (digit_range levels P). destruct H4 as [[-> E] | E]; lia.
  - intros (rr & k & l2 & -> & Hp). by exists rr, k, l2.
Qed.

Lemma walk_start levels s l t P pa flags pages :
  walk_pre levels s l t P pa flags pages ->
  loop_inv levels s l t P pa flags pages (digit levels P) (4096 * P, pa, pages) s.
Proof.
  intros [HO Ht Hin HP Hpg Hpa Hpap Hf]. exists 0, l. rewrite Z.add_0_r, Z.mul_0_r, Z.add_0_r, Z.sub_0_r.
  split; [done |]. split; [lia |]. split; [| by apply grown_refl].
  pose proof (table_end_gt levels P). split; [lia |]. split; [lia |]. split; [lia | by left].
Qed.

Lemma run_loop levels s l t P pa flags pages body :
  walk_pre levels s l t P pa flags pages ->
  (forall idx a st, idx < 512 -> loop_inv levels s l t P pa flags pages idx a st ->
     exists r st', body a idx st = Ok (r, st') /\ loop_leaves levels s l t P pa flags pages idx r st') ->
  exists r k s' l', (r ← for_up (Z.to_nat (PTE_NUMS - digit levels P)) (digit levels P) body (4096 * P, pa, pages);
     match r with Next (_, _, pages) => ret (0, pages) | Return rp => ret rp end) s = Ok ((r, pages - k), s') /\
    walk_post levels s l t P pa flags pages r k s' l'.
Proof.
  intros W Hb. pose proof (digit_range levels P).
  destruct (for_up_ind body (loop_inv levels s l t P pa flags pages) (loop_exit levels s l t P pa flags pages) 512 Hb
    (Z.to_nat (PTE_NUMS - digit levels P)) (digit levels P) (4096 * P, pa, pages) s) as (r & st2 & E & Hr).
  - rewrite PTE_NUMS_eq. lia.
  - by apply walk_start.
  - mstep E. destruct (loop_finish _ _ _ _ _ _ _ _ _ _ Hr) as (rr & k & l2 & Ef & Hp). by exists rr, k, st2, l2.
Qed.

Lemma walk_Ok levels : (levels <= 2)%nat -> walk_spec levels.
Proof.
  induction levels as [|levels IH]; intros Hl s l t P pa flags pages W;
    destruct (index_asserts _ P Hl (proj1 (wp_P _ _ _ _ _ _ _ _ W))) as (E1 & E2 & E3 & E4);
    cbn [vm_walkthrough]; unfold bind at 1, ASSERT at 1; rewrite E1, E2;
    unfold bind at 1, ASSERT at 1; rewrite E3; (apply run_loop; [done |]).
  - intros idx a st Hi (k & l1 & -> & Hk & Hat & G). unfold get_pte. unfold bind at 1, gets at 1.
    rewrite E4. exact (body_leaf s l t P pa flags pages idx k st l1 W Hi Hk Hat G).
  - specialize (IH ltac:(lia)). intros idx a st Hi (k & l1 & -> & Hk & Hat & G).
    unfold get_pte. unfold bind at 1, gets at 1. rewrite E4. fold (entry (memory st) t idx).
    destruct (at_entry_here _ _ _ _ Hat Hi) as (Hb & Hd & Ew). pose proof Hat as (Hi0 & Hk0 & _ & _).
    pose proof (digit_range (S levels) P) as Hidx0.
    pose proof (gr_ok _ _ _ _ _ _ _ _ _ _ G) as Hok. pose proof Hok as [_ Hok'].
    destruct (PTE_VALID (entry (memory st) t idx)) eqn:Hv.
    + destruct (Hok' idx ltac:(lia) Hv) as (Hn & Hokc & _). rewrite Hn. cbn [negb].
      unfold bind at 1, ASSERT at 1. rewrite PTE2Pa_aligned.
      fold (child km (entry (memory st) t idx)).
      destruct (usable_aligned _ (tree_usable km _ _ _ Hokc)) as [-> _]. cbn [andb].
      apply (body_descend levels s l t P pa flags pages idx k st l1 st l1); try done.
      apply grown_refl; [apply G | done].
    + destruct (ps_alloc st l1 (gr_own _ _ _ _ _ _ _ _ _ _ G)) as [E0 | (v & s1 & E0 & Hu & Hvl & HO1 & Hm1)]; mstep E0.
      * cbn [Z.eqb NULL]. eexists _, st. split; [done |]. rewrite <- (Z.sub_0_r (pages - k)).
        apply (step_stop (S levels) s l t P pa flags pages W idx k 0 l1 st l1 st); try done; [| lia | | by left].
        -- apply grown_refl; [apply G | done].
        -- rewrite Z.add_0_r. apply div_range, width_pos.
      * rewrite (proj2 (Z.eqb_neq v 0)) by (destruct Hu; lia).
        destruct (usable_aligned _ Hu) as [Ha1 Ha2]. unfold bind at 1, ASSERT at 1. rewrite Ha1, Ha2. cbn [andb].
        unfold bind at 1, set_pte, modify.
        destruct (grown_link levels t (P + k) (pa + 4096 * k) flags st l1 s1 v) as (Gl & Hc & Hn);
          try done; [apply G | | by rewrite Hd |].
        { intros q Hq. by apply (grown_in _ _ _ _ _ _ _ _ _ _ q (wp_in _ _ _ _ _ _ _ _ W) G). }
        rewrite Hd in Gl, Hc, Hn.
        apply (body_descend levels s l t P pa flags pages idx k st l1 _ (v :: l1)); done.
Qed.
End map.
