(* ===== verification/Sv39Unmap.v ===== *)
(** * Unmapping pages: [riscv_unmap]

    Unmapping a range of mapped pages, against the interface [PageSource]. *)
From S2P Require Import Prelude DList KernelMap PageFrame Buddy Sv39 Sv39Pte Sv39Tree Sv39Map.

Section unmap.
Context {km : kernel_mapping} {g_buddy : Z} {Own : buddy -> list Z -> Prop}.
Context {PS : PageSource km (bk_alloc_zero km g_buddy 0) (bk_free km g_buddy) Own}.

(** ** What a partial unmapping has done

    [k] pages from page number [P] on are no longer mapped; the pages that
    left [l] are the tables that left the tree. *)
Record shrunk (levels : nat) (t P k : Z) (s : buddy) (l : list Z) (s' : buddy) (l' : list Z) : Prop := {
  sh_own : Own s' l';
  sh_sub : forall q, q ∈ l' -> q ∈ l;
  sh_ok : tree_ok km levels (memory s') t;
  sh_in : forall q, in_tree km levels (memory s') t q -> in_tree km levels (memory s) t q;
  sh_keep : forall q, q ∈ l -> q ∉ l' -> in_tree km levels (memory s) t q /\ ~ in_tree km levels (memory s') t q;
  sh_same : forall q, q mod 4096 = 0 -> ~ in_tree km levels (memory s) t q -> bytes_same (memory s) (memory s') q;
  sh_look : forall Q, Q / span levels = P / span levels ->
    look km levels (memory s') t Q = if decide (P <= Q < P + k) then None else look km levels (memory s) t Q;
  sh_tight : forall q, q ∈ l' -> in_tree km levels (memory s) t q -> in_tree km levels (memory s') t q
}.

Lemma shrunk_refl levels t P s l :
  Own s l -> tree_ok km levels (memory s) t -> shrunk levels t P 0 s l s l.
Proof. intros HO Ht. split; try done. intros Q HQ. rewrite decide_False by lia. done. Qed.

Lemma shrunk_trans levels t P k k' s l s1 l1 s2 l2 :
  shrunk levels t P k s l s1 l1 -> shrunk levels t (P + k) k' s1 l1 s2 l2 ->
  (P + k) / span levels = P / span levels -> 0 <= k -> 0 <= k' ->
  shrunk levels t P (k + k') s l s2 l2.
Proof.
  intros [O1 S1 T1 N1 K1 F1 L1 G1] [O2 S2 T2 N2 K2 F2 L2 G2] Hb Hk Hk'. split; try done.
  - intros q Hq. by apply S1, S2.
  - intros q Hq. by apply N1, N2.
  - intros q Hq Hn. destruct (decide (q ∈ l1)) as [H1 | H1].
    + destruct (K2 q H1 Hn) as [Hi Hi2]. split; [by apply N1 | done].
    + destruct (K1 q Hq H1) as [Hi Hi2]. split; [done |]. intros Hi3. by apply Hi2, N2.
  - intros q Hq Hnq a Ha. rewrite F2 by (try done; intros Hi; by apply Hnq, N1). by apply (F1 q).
  - intros Q HQ. rewrite L2 by congruence. rewrite L1 by done. repeat case_decide; try lia; done.
  - intros q Hq Hi. apply G2, G1; auto.
Qed.

(** A step that unmaps nothing. *)
Lemma shrunk_then levels t P k s l s1 l1 s2 l2 :
  shrunk levels t P k s l s1 l1 -> shrunk levels t P 0 s1 l1 s2 l2 -> shrunk levels t P k s l s2 l2.
Proof.
  intros [O1 S1 T1 N1 K1 F1 L1 G1] [O2 S2 T2 N2 K2 F2 L2 G2]. split; try done.
  - intros q Hq. by apply S1, S2.
  - intros q Hq. by apply N1, N2.
  - intros q Hq Hn. destruct (decide (q ∈ l1)) as [H1 | H1].
    + destruct (K2 q H1 Hn) as [Hi Hi2]. split; [by apply N1 | done].
    + destruct (K1 q Hq H1) as [Hi Hi2]. split; [done |]. intros Hi3. by apply Hi2, N2.
  - intros q Hq Hnq a Ha. rewrite F2 by (try done; intros Hi; by apply Hnq, N1). by apply (F1 q).
  - intros Q HQ. rewrite L2, L1 by done. rewrite (decide_False (P := P <= Q < P + 0)) by lia. done.
  - intros q Hq Hi. apply G2, G1; auto.
Qed.

Lemma shrunk_in levels t P k s l s' l' q :
  (forall q, in_tree km levels (memory s) t q -> q ∈ l) -> shrunk levels t P k s l s' l' ->
  in_tree km levels (memory s') t q -> q ∈ l'.
Proof.
  intros Hl [_ _ _ Hin Hk _ _ _] Hq. destruct (decide (q ∈ l')) as [| Hn]; [done |]. exfalso.
  by destruct (Hk q (Hl q (Hin q Hq)) Hn).
Qed.

(** A step in the table below an entry is a step of the table. *)
Lemma shrunk_child levels t P k s l s' l' :
  tree_ok km (S levels) (memory s) t -> (forall q, in_tree km (S levels) (memory s) t q -> q ∈ l) ->
  let e := entry (memory s) t (digit (S levels) P) in
  PTE_NEXTPGT e = true -> 0 <= k -> P + k <= (P / span levels + 1) * span levels ->
  shrunk levels (child km e) P k s l s' l' ->
  shrunk (S levels) t P k s l s' l' /\ page_same (memory s) (memory s') t.
Proof.
  intros Ht Hl e Hn Hk Hend [O1 S1 T1 N1 K1 F1 L1 G1].
  pose proof (digit_range (S levels) P) as Hi. set (idx := digit (S levels) P) in *.
  assert (Hroot : bytes_same (memory s) (memory s') t).
  { apply F1; [apply (us_page km), (tree_usable km _ _ _ Ht) |].
    intros Hq. by destruct (subtree_apart km _ _ _ _ _ Ht Hi Hn Hq). }
  assert (He : forall i, 0 <= i < 512 -> entry (memory s') t i = entry (memory s) t i) by (by apply bytes_page_same).
  assert (Hel : forall q, elsewhere km levels (memory s) t idx q -> ~ in_tree km levels (memory s) (child km e) q).
  { intros q Hq Hq'. by destruct (subtree_apart km _ _ _ _ _ Ht Hi Hn Hq'). }
  assert (Hes : forall q, elsewhere km levels (memory s) t idx q -> page_same (memory s) (memory s') q).
  { intros q Hq. apply bytes_page_same, F1; [| by apply Hel]. apply (us_page km).
    apply (in_tree_usable km (S levels) _ _ _ Ht). destruct Hq as (j & Hj & _ & Hnj & Hq). right. by exists j. }
  assert (Hnew : PTE_VALID (entry (memory s') t idx) = true -> PTE_NEXTPGT (entry (memory s') t idx) = true /\
     tree_ok km levels (memory s') (child km (entry (memory s') t idx)) /\
     ~ in_tree km levels (memory s') (child km (entry (memory s') t idx)) t /\
     forall q, in_tree km levels (memory s') (child km (entry (memory s') t idx)) q ->
               ~ elsewhere km levels (memory s) t idx q).
  { intros _. rewrite (He idx Hi). fold e. do 2 (split; [done |]). split.
    - intros Hq%N1. by destruct (subtree_apart km _ _ _ _ _ Ht Hi Hn Hq).
    - intros q Hq%N1 Hq'. by apply (Hel q). }
  assert (Hit : forall q, in_tree km (S levels) (memory s') t q <->
     q = t \/ elsewhere km levels (memory s) t idx q \/ in_tree km levels (memory s') (child km e) q).
  { intros q. rewrite (in_tree_update km levels (memory s) (memory s') t idx Hi) by (intros; auto).
    rewrite (He idx Hi). fold e. naive_solver. }
  assert (Hit0 : forall q, in_tree km (S levels) (memory s) t q <->
     q = t \/ elsewhere km levels (memory s) t idx q \/ in_tree km levels (memory s) (child km e) q).
  { intros q. rewrite (in_tree_update km levels (memory s) (memory s) t idx Hi) by done. fold e. naive_solver. }
  split; [| done]. split; try done.
  - apply (tree_ok_update km levels (memory s)) with (idx := idx); auto.
  - intros q Hq%Hit. apply Hit0. naive_solver.
  - intros q Hq Hq'. destruct (K1 q Hq Hq') as [Hi1 Hi2]. split; [apply Hit0; tauto |].
    intros [-> | [Hq2 | Hq2]]%Hit; [| by apply (Hel q) | done].
    by destruct (subtree_apart km _ _ _ _ _ Ht Hi Hn Hi1).
  - intros q Hq Hnq. apply F1; [done |]. intros Hin. apply Hnq, Hit0. tauto.
  - intros Q HQ. rewrite (look_update km levels (memory s) (memory s') t idx) by (intros; auto).
    rewrite (He idx Hi). fold e. rewrite Hn. pose proof (same_width _ _ _ HQ) as Hd. rewrite width_S in Hd.
    case_decide as Hdq.
    + rewrite L1 by (by apply Hd). case_decide; [done |]. cbn [look]. rewrite Hdq. fold e. by rewrite Hn.
    + rewrite decide_False; [done |]. intros HPQ. apply Hdq, Hd. pose proof (span_pos levels).
      apply div_unique; [done |]. pose proof (div_range P (span levels) ltac:(lia)). lia.
  - intros q Hq [-> | [Hq2 | Hq2]]%Hit0; apply Hit; [by left | tauto |]. right. right. by apply G1.
Qed.

(** Freeing an empty table unmaps nothing. *)
Lemma shrunk_drop levels t P s l :
  Own s l -> tree_ok km (S levels) (memory s) t -> (forall q, in_tree km (S levels) (memory s) t q -> q ∈ l) ->
  let idx := digit (S levels) P in
  let c := child km (entry (memory s) t idx) in
  PTE_NEXTPGT (entry (memory s) t idx) = true ->
  (forall q, in_tree km levels (memory s) c q -> q = c) ->
  (forall Q, Q / span (S levels) = P / span (S levels) -> digit (S levels) Q = idx -> look km levels (memory s) c Q = None) ->
  let s1 := set_memory (st64 (pte_addr t idx) 0 (memory s)) s in
  exists s2 l2, bk_free km g_buddy c s1 = Ok (tt, s2) /\ shrunk (S levels) t P 0 s l s2 l2 /\
    entry (memory s2) t idx = 0 /\ (forall i, 0 <= i < 512 -> i <> idx -> entry (memory s2) t i = entry (memory s) t i).
Proof.
  intros HO Ht Hl idx c Hn Hc Hlook s1. pose proof (ps_nodup _ _ HO) as Hnd. pose proof (digit_range (S levels) P) as Hi. fold idx in Hi.
  pose proof (tree_usable km _ _ _ Ht) as [_ Htp _ _ _].
  assert (Hcin : in_tree km (S levels) (memory s) t c) by (right; exists idx; by split; [| split; [| apply in_tree_root]]).
  destruct (subtree_apart km _ _ _ _ _ Ht Hi Hn (in_tree_root km levels _ c)) as [Hct Hcel]. fold c in Hct, Hcel.
  destruct (list_elem_of_split _ _ (Hl c Hcin)) as (l1 & l2 & El).
  destruct (ps_free s1 l1 c l2) as (s2 & E2 & HO2 & Hm2); [rewrite <- El; by apply ps_memory |].
  assert (He2 : forall i, entry (memory s2) t i = entry (memory s1) t i) by (intros i; apply ld64_ext; auto).
  assert (He0 : entry (memory s2) t idx = 0) by (rewrite He2; by apply entry_st64_same).
  assert (Hroot : forall i, 0 <= i < 512 -> i <> idx -> entry (memory s2) t i = entry (memory s) t i).
  { intros i _ Hne. rewrite He2. by apply entry_st64_other. }
  assert (Hsame : forall q, q mod 4096 = 0 -> q <> t -> bytes_same (memory s) (memory s2) q).
  { intros q Hq Hqt a Ha. rewrite Hm2. by apply (st64_bytes_same _ t idx 0 q). }
  assert (Hes : forall q, elsewhere km levels (memory s) t idx q -> page_same (memory s) (memory s2) q).
  { intros q (j & Hj & _ & Hnj & Hq). apply bytes_page_same, Hsame.
    - apply (us_page km), (in_tree_usable km (S levels) _ _ _ Ht). right. by exists j.
    - by destruct (subtree_apart km _ _ _ _ _ Ht Hj Hnj Hq). }
  assert (Hit : forall q, in_tree km (S levels) (memory s2) t q <-> q = t \/ elsewhere km levels (memory s) t idx q).
  { intros q. rewrite (in_tree_update km levels (memory s) (memory s2) t idx Hi) by (intros; auto).
    rewrite He0. change (PTE_NEXTPGT 0) with false. naive_solver. }
  assert (Hit0 : forall q, in_tree km (S levels) (memory s) t q <-> q = t \/ elsewhere km levels (memory s) t idx q \/ q = c).
  { intros q. rewrite (in_tree_update km levels (memory s) (memory s) t idx Hi) by done.
    fold c. pose proof (in_tree_root km levels (memory s) c). pose proof (Hc q). naive_solver. }
  rewrite El in Hnd. apply NoDup_app in Hnd as (_ & Hn1 & [Hn2 _]%NoDup_cons).
  exists s2, (l1 ++ l2). split; [done |]. split; [| by split].
  rewrite El. split.
  - done.
  - intros q. rewrite !elem_of_app, elem_of_cons. tauto.
  - apply (tree_ok_update km levels (memory s)) with (idx := idx); auto. rewrite He0. done.
  - intros q Hq%Hit. apply Hit0. tauto.
  - intros q. rewrite !elem_of_app, elem_of_cons. intros Hq Hq'. assert (q = c) as -> by tauto.
    split; [done |]. intros [? | ?]%Hit; done.
  - intros q Hq Hnq. apply Hsame; [done |]. intros ->. apply Hnq, in_tree_root.
  - intros Q HQ. rewrite decide_False by lia.
    rewrite (look_update km levels (memory s) (memory s2) t idx) by (intros; auto).
    rewrite He0. change (PTE_NEXTPGT 0) with false. case_decide as Hdq; [| done].
    cbn [look]. rewrite Hdq, Hn. fold c. by rewrite Hlook.
  - intros q Hq [Hq2 | [Hq2 | ->]]%Hit0; [apply Hit; tauto .. |]. apply elem_of_app in Hq as [Hq | Hq]; [| done].
    destruct (Hn1 c Hq). by left.
Qed.

Lemma shrunk_leaf t P s l :
  Own s l -> tree_ok km 0 (memory s) t ->
  let idx := digit 0 P in
  shrunk 0 t P 1 s l (set_memory (st64 (pte_addr t idx) 0 (memory s)) s) l.
Proof.
  intros HO [Hu _] idx. pose proof (digit_range 0 P) as Hi. fold idx in Hi. pose proof Hu as [_ Htp _ _ _].
  split; try done.
  - by apply ps_memory.
  - intros q Hq Hnq. apply st64_bytes_same; try done. intros ->. apply Hnq. by left.
  - intros Q HQ. pose proof (same_width 0 Q P HQ) as Hd. unfold width in Hd. rewrite !Z.div_1_r in Hd.
    cbn [look memory set_memory]. destruct (decide (digit 0 Q = idx)) as [E | E].
    + assert (Q = P) as -> by (by apply Hd). rewrite decide_True by lia. fold idx. by rewrite entry_st64_same.
    + rewrite decide_False by (intros ?; apply E, Hd; lia). by rewrite entry_st64_other by done.
Qed.

(** ** The walk *)

Record unmap_pre (levels : nat) (s : buddy) (l : list Z) (t P pages : Z) : Prop := {
  up_own : Own s l;
  up_tree : tree_ok km levels (memory s) t;
  up_in : forall q, in_tree km levels (memory s) t q -> q ∈ l;
  up_P : 0 <= P /\ 4096 * (P + pages) < 2 ^ 64;
  up_pages : 0 < pages < 2 ^ 31;
  up_mapped : forall Q, P <= Q < P + pages -> Q < table_end levels P -> is_Some (look km levels (memory s) t Q)
}.

(** A table whose pages were all unmapped points to no other table. *)
Definition unmap_post (levels : nat) (s : buddy) (l : list Z) (t P pages k : Z) (s' : buddy) (l' : list Z) : Prop :=
  0 < k <= pages /\ P + k <= table_end levels P /\ (k = pages \/ P + k = table_end levels P) /\
  shrunk levels t P k s l s' l' /\
  (k = span levels -> forall q, in_tree km levels (memory s') t q -> q = t).

Definition unmap_spec (levels : nat) : Prop := forall s l t P pages,
  unmap_pre levels s l t P pages ->
  exists k s' l', riscv_unmap km g_buddy levels t (4096 * P) pages s = Ok (pages - k, s') /\
    unmap_post levels s l t P pages k s' l'.

Section loop.
Context (levels : nat) (s : buddy) (l : list Z) (t P pages : Z).
Context (Hpre : unmap_pre levels s l t P pages).

(** The entries before [idx] whose part is unmapped as a whole. *)
Definition cleared (idx : Z) (st : buddy) : Prop :=
  forall i, digit levels P <= i < idx -> P <= (512 * (P / span levels) + i) * width levels ->
    match levels with O => True | S _ => PTE_NEXTPGT (entry (memory st) t i) = false end.

Definition uloop_inv (idx : Z) (a : Z * Z) (st : buddy) : Prop :=
  exists k l1, a = ((match levels with O => 4096 * P | S _ => 4096 * (P + k) end), pages - k) /\ k < pages /\
    at_entry levels P k idx /\ (k = 0 -> idx = digit levels P) /\ shrunk levels t P k s l st l1 /\ cleared idx st.

Definition uloop_exit (pg : Z) (st : buddy) : Prop :=
  exists k l1, pg = pages - k /\ unmap_post levels s l t P pages k st l1.

Definition uloop_leaves (idx : Z) (r : step (Z * Z) Z) (st : buddy) : Prop :=
  match r with Next a => uloop_inv (idx + 1) a st | Return r => uloop_exit r st end.

Lemma all_cleared st :
  P = P / span levels * span levels -> cleared 512 st ->
  forall q, in_tree km levels (memory st) t q -> q = t.
Proof using.
  clear Hpre. intros HP Hc q. unfold cleared in Hc. destruct levels as [|n]; [by intros [-> |] |]. intros [-> | (i & Hi & Hn & _)]; [done |].
  pose proof (width_pos (S n)) as Hw. pose proof (span_width (S n)) as Hs.
  assert (E : P / width (S n) = 512 * (P / span (S n))) by (apply div_unique; [done | nia]).
  rewrite digit_div in E. assert (Hd : digit (S n) P = 0) by (clear -E; lia).
  assert (H1 : digit (S n) P <= i < 512) by (rewrite Hd; lia).
  assert (H2 : P <= (512 * (P / span (S n)) + i) * width (S n)) by nia.
  pose proof (Hc i H1 H2) as Hf. cbn in Hf. congruence.
Qed.

Lemma ustep_done idx k k' l1 st l2 st2 va :
  at_entry levels P k idx -> idx < 512 -> k < pages ->
  shrunk levels t P k s l st l1 -> shrunk levels t (P + k) k' st l1 st2 l2 ->
  (P + k + k' = ((P + k) / width levels + 1) * width levels -> cleared (idx + 1) st2) ->
  0 < k' <= pages - k -> P + k + k' <= ((P + k) / width levels + 1) * width levels ->
  (k' = pages - k \/ P + k + k' = ((P + k) / width levels + 1) * width levels) ->
  va = match levels with O => 4096 * P | S _ => 4096 * (P + k + k') end ->
  uloop_leaves idx (if pages - k - k' =? 0 then Return (pages - k - k') else Next (va, pages - k - k')) st2.
Proof using Hpre.
  intros Hat Hi Hk G1 G2 Hcl Hk' Hend Hr ->. destruct (at_entry_here _ _ _ _ Hat Hi) as (Hb & _ & Ew).
  pose proof Hat as (_ & Hk0 & _ & _). pose proof (width_pos levels) as Hw. rewrite Ew in Hend, Hr, Hcl.
  pose proof (shrunk_trans _ _ _ _ _ _ _ _ _ _ _ G1 G2 Hb Hk0 ltac:(lia)) as G.
  destruct (Z.eqb_spec (pages - k - k') 0) as [Hz | Hz].
  - exists (k + k'), l2. split; [lia |]. split; [lia |].
    assert (Hle : P + (k + k') <= table_end levels P) by (rewrite table_end_width; nia).
    split; [done |]. split; [left; lia |]. split; [done |]. intros Hall.
    pose proof (div_range P _ (span_pos levels)) as HPr. unfold table_end in Hle.
    assert (HP : P = P / span levels * span levels) by lia. pose proof (span_width levels) as Hsw.
    assert (Hidx : idx + 1 = 512).
    { destruct (decide (idx + 1 = 512)) as [| Hne]; [done | exfalso].
      assert (P + k + k' <= (512 * (P / span levels) + 511) * width levels) by nia. nia. }
    apply all_cleared; [done |]. rewrite <- Hidx. apply Hcl. rewrite Hidx in *. nia.
  - exists (k + k'), l2. split; [destruct levels; f_equal; lia |]. split; [lia |]. split.
    + destruct Hr as [-> | Hr]; [lia |]. apply at_entry_next; [done | done | lia | by rewrite Ew].
    + split; [lia |]. split; [done |]. apply Hcl. destruct Hr as [-> | Hr]; [lia | done].
Qed.
End loop.

Lemma uloop_finish levels s l t P pages r st2 :
  unmap_pre levels s l t P pages ->
  match r with
  | Next a => uloop_inv levels s l t P pages 512 a st2
  | Return pg => uloop_exit levels s l t P pages pg st2
  end ->
  exists k l2, (match r with Next (_, pages) => ret pages | Return pages => ret pages end) st2
      = Ok (pages - k, st2) /\ unmap_post levels s l t P pages k st2 l2.
Proof.
  intros W. destruct r as [a | pg].
  - intros (k & l2 & -> & Hk & (H1 & H2 & H3 & H4) & H5 & G & Hc). exists k, l2. split; [done |].
    pose proof (digit_range levels P) as Hd. pose proof (table_end_width levels P) as Et.
    assert (Hk0 : k <> 0) by (intros ->; specialize (H5 eq_refl); lia).
    assert (E : P + k = table_end levels P) by (destruct H4 as [[-> ?] | E]; [done | lia]).
    split; [lia |]. split; [lia |]. split; [by right |]. split; [done |]. intros Hall.
    apply (all_cleared levels t P); [| done]. unfold table_end in E. lia.
  - intros (k & l2 & -> & Hp). by exists k, l2.
Qed.

Lemma run_uloop levels s l t P pages body :
  unmap_pre levels s l t P pages ->
  (forall idx a st, idx < 512 -> uloop_inv levels s l t P pages idx a st ->
     exists r st', body a idx st = Ok (r, st') /\ uloop_leaves levels s l t P pages idx r st') ->
  exists k s' l', (r ← for_up (Z.to_nat (PTE_NUMS - digit levels P)) (digit levels P) body (4096 * P, pages);
     match r with Next (_, pages) => ret pages | Return pages => ret pages end) s = Ok (pages - k, s') /\
    unmap_post levels s l t P pages k s' l'.
Proof.
  intros W Hb. pose proof (digit_range levels P). pose proof W as [HO Ht Hin HP Hpg Hmap].
  destruct (for_up_ind body (uloop_inv levels s l t P pages) (uloop_exit levels s l t P pages) 512 Hb
    (Z.to_nat (PTE_NUMS - digit levels P)) (digit levels P) (4096 * P, pages) s) as (r & st2 & E & Hr).
  - rewrite PTE_NUMS_eq. lia.
  - exists 0, l. rewrite Z.add_0_r, Z.sub_0_r. split; [by destruct levels |]. split; [lia |].
    pose proof (table_end_gt levels P). split; [split; [lia |]; split; [lia |]; split; [lia | by left] |].
    split; [done |]. split; [by apply shrunk_refl |]. intros i Hi. lia.
  - mstep E. destruct (uloop_finish _ _ _ _ _ _ _ _ W Hr) as (k & l2 & Ef & Hp). by exists k, st2, l2.
Qed.

(** One entry of a last-level table. *)
Lemma ubody_leaf s l t P pages idx k st l1 :
  unmap_pre 0 s l t P pages -> idx < 512 -> k < pages -> at_entry 0 P k idx ->
  shrunk 0 t P k s l st l1 ->
  exists r st2,
    (set_pte t idx 0;;
     let pages' := s32 (pages - k - 1) in
     if pages' =? 0 then ret (Return pages') else ret (Next (4096 * P, pages'))) st = Ok (r, st2) /\
    uloop_leaves 0 s l t P pages idx r st2.
Proof.
  intros W Hi Hk Hat G. pose proof W as [HO Ht Hin HP Hpg Hmap].
  destruct (at_entry_here _ _ _ _ Hat Hi) as (Hb & Hd & Ew). pose proof Hat as (_ & Hk0 & _ & _).
  unfold set_pte, modify, bind. rewrite s32_small by lia.
  pose proof (shrunk_leaf t (P + k) st l1 (sh_own _ _ _ _ _ _ _ _ G) (sh_ok _ _ _ _ _ _ _ _ G)) as G2.
  rewrite Hd in G2.
  assert (Hw : P + k + 1 = ((P + k) / width 0 + 1) * width 0) by (change (width 0) with 1; rewrite Z.div_1_r; lia).
  pose proof (ustep_done 0 s l t P pages W idx k 1 l1 st l1 _ (4096 * P) Hat Hi Hk G G2) as Hstep.
  specialize (Hstep ltac:(done) ltac:(lia) ltac:(lia) (or_intror Hw) eq_refl).
  eexists _, _. split; [| exact Hstep]. by destruct (Z.eqb_spec (pages - k - 1) 0).
Qed.

Lemma INDEX_PAGES_eq levels : (S levels <= 2)%nat -> SV39_INDEX_PAGES (index_of (S levels)) = span levels.
Proof. intros H. assert (levels = 0 \/ levels = 1)%nat as [-> | ->] by lia; done. Qed.

(** What is left of the range is mapped, so the entry points to a table. *)
Lemma ubody_mapped levels s l t P pages k st l1 :
  unmap_pre levels s l t P pages -> 0 <= k -> shrunk levels t P k s l st l1 ->
  forall Q, P + k <= Q < P + pages -> Q < table_end levels P -> is_Some (look km levels (memory st) t Q).
Proof.
  intros [HO Ht Hin HP Hpg Hmap] Hk0 G Q HQ HQ2. rewrite (sh_look _ _ _ _ _ _ _ _ G) by (apply in_table; lia).
  rewrite decide_False by lia. apply Hmap; lia.
Qed.

Lemma ubody_entry levels s l t P pages idx k st l1 :
  unmap_pre (S levels) s l t P pages -> idx < 512 -> k < pages -> at_entry (S levels) P k idx ->
  shrunk (S levels) t P k s l st l1 ->
  PTE_NEXTPGT (entry (memory st) t idx) = true /\ usable km (child km (entry (memory st) t idx)).
Proof.
  intros W Hi Hk Hat G. destruct (at_entry_here _ _ _ _ Hat Hi) as (Hb & Hd & Ew). pose proof Hat as (Hi0 & Hk0 & _ & _).
  pose proof (digit_range (S levels) P). pose proof (width_pos (S levels)) as Hwp.
  assert (Hn : PTE_NEXTPGT (entry (memory st) t idx) = true).
  { destruct (ubody_mapped _ _ _ _ _ _ _ _ _ W Hk0 G (P + k)) as [x Hx]; [lia | |].
    - rewrite table_end_width. pose proof (div_range (P + k) _ Hwp). rewrite Ew in *. nia.
    - cbn [look] in Hx. rewrite Hd in Hx. by destruct (PTE_NEXTPGT (entry (memory st) t idx)). }
  split; [done |]. destruct (sh_ok _ _ _ _ _ _ _ _ G) as [_ Hok'].
  destruct (Hok' idx ltac:(lia) (NEXTPGT_VALID _ Hn)) as (_ & Hokc & _). apply (tree_usable km _ _ _ Hokc).
Qed.

(** The descent through an entry that points to a table. *)
Lemma ubody_descend levels s l t P pages idx k st l1 :
  (S levels <= 2)%nat -> unmap_spec levels ->
  unmap_pre (S levels) s l t P pages -> idx < 512 -> k < pages -> at_entry (S levels) P k idx ->
  shrunk (S levels) t P k s l st l1 -> cleared (S levels) t P idx st ->
  let c := child km (entry (memory st) t idx) in
  exists r st2,
    (pages' ← riscv_unmap km g_buddy levels c (4096 * (P + k)) (pages - k);
     let va := u64 (4096 * (P + k) + u64 (s32 (pages - k - pages') * PAGE_SIZE)) in
     when (s32 (pages - k - pages') =? SV39_INDEX_PAGES (index_of (S levels)))
       (set_pte t idx 0;; bk_free km g_buddy c);;
     if pages' =? 0 then ret (Return pages') else ret (Next (va, pages'))) st = Ok (r, st2) /\
    uloop_leaves (S levels) s l t P pages idx r st2.
Proof.
  intros Hl IH W Hi Hk Hat G Hcl c. pose proof W as [HO Ht Hin HP Hpg Hmap].
  destruct (at_entry_here _ _ _ _ Hat Hi) as (Hb & Hd & Ew). pose proof Hat as (Hi0 & Hk0 & _ & _).
  pose proof (digit_range (S levels) P) as Hidx0. pose proof (width_pos (S levels)) as Hwp.
  assert (Hin1 : forall q, in_tree km (S levels) (memory st) t q -> q ∈ l1).
  { intros q Hq. by apply (shrunk_in _ _ _ _ _ _ _ _ q Hin G). }
  pose proof (ubody_mapped _ _ _ _ _ _ _ _ _ W Hk0 G) as Hlook.
  pose proof (div_range (P + k) _ Hwp) as Hr0.
  assert (Htend : ((P + k) / width (S levels) + 1) * width (S levels) <= table_end (S levels) P).
  { rewrite table_end_width, Ew. nia. }
  destruct (ubody_entry _ _ _ _ _ _ _ _ _ _ W Hi Hk Hat G) as [Hn _].
  pose proof (sh_ok _ _ _ _ _ _ _ _ G) as Hok. pose proof Hok as [_ Hok'].
  destruct (Hok' idx ltac:(lia) (NEXTPGT_VALID _ Hn)) as (_ & Hokc & _ & _). fold c in Hokc.
  destruct (IH st l1 c (P + k) (pages - k)) as (k' & st1 & l2 & E & Hk' & Hend & Hr & Gc & Hall).
  { split; [apply G | done | | lia | lia |].
    - intros q Hq. apply Hin1. right. exists idx. split; [lia | done].
    - unfold table_end. rewrite <- width_S. intros Q HQ HQ2. destruct (Hlook Q) as [x Hx]; [lia | lia |].
      cbn [look] in Hx. replace (digit (S levels) Q) with idx in Hx.
      + rewrite Hn in Hx. by exists x.
      + rewrite <- Hd. unfold digit. fold (width (S levels)). f_equal. symmetry. apply div_unique; [done | lia]. }
  mstep E. replace (pages - k - (pages - k - k')) with k' by lia. rewrite PAGE_SIZE_eq, s32_small, (u64_small (k' * 4096)) by lia.
  unfold table_end in Hend, Hr. rewrite <- !width_S in Hend, Hr.
  destruct (shrunk_child levels t (P + k) k' st l1 st1 l2) as [Gs Hts];
    [done | done | by rewrite Hd | lia | by rewrite <- width_S | by rewrite Hd |].
  assert (Hpage : forall i, 0 <= i < 512 -> entry (memory st1) t i = entry (memory st) t i) by done.
  rewrite INDEX_PAGES_eq, u64_small by (done || lia).
  assert (Hva : 4096 * (P + k) + k' * 4096 = 4096 * (P + k + k')) by lia. rewrite Hva.
  assert (Hgo : exists st2 l3, (when (k' =? span levels) (set_pte t idx 0;; bk_free km g_buddy c)) st1 = Ok (tt, st2) /\
     shrunk (S levels) t (P + k) k' st l1 st2 l3 /\
     (P + k + k' = ((P + k) / width (S levels) + 1) * width (S levels) -> cleared (S levels) t P (idx + 1) st2)).
  { destruct (Z.eqb_spec k' (span levels)) as [Ek | Ek].
    - assert (Ec : child km (entry (memory st1) t (digit (S levels) (P + k))) = c) by (by rewrite Hd, Hpage by lia).
      destruct (shrunk_drop levels t (P + k) st1 l2 (sh_own _ _ _ _ _ _ _ _ Gs) (sh_ok _ _ _ _ _ _ _ _ Gs))
        as (st2 & l3 & Ef & Gd & He0 & Heo).
      { intros q Hq. by apply (shrunk_in _ _ _ _ _ _ _ _ q Hin1 Gs). }
      { by rewrite Hd, Hpage by lia. }
      { rewrite Ec. intros q Hq. by apply (Hall Ek). }
      { rewrite Ec. intros Q HQ HdQ. assert (HQw : Q / span levels = (P + k) / span levels).
        { rewrite <- width_S. apply (same_width (S levels)); [congruence | congruence]. }
        rewrite (sh_look _ _ _ _ _ _ _ _ Gc) by done. apply decide_True.
        pose proof (div_range Q _ (span_pos levels)) as HQr. rewrite HQw in HQr.
        rewrite width_S in Hend. pose proof (div_range (P + k) _ (span_pos levels)). lia. }
      exists st2, l3. rewrite Ec, Hd in Ef. split; [exact Ef |]. split.
      + by apply (shrunk_then _ _ _ _ _ _ st1 l2).
      + intros _ i Hi' HPi. rewrite Hd in *. destruct (decide (i = idx)) as [-> | Hne]; [by rewrite He0 |].
        rewrite Heo by lia. rewrite Hpage by lia. apply (Hcl i); [lia | done].
    - exists st1, l2. split; [done |]. split; [done |]. intros Hfull i Hi' HPi. rewrite Hpage by lia.
      destruct (decide (i = idx)) as [-> | Hne]; [| apply (Hcl i); [lia | done]].
      exfalso. apply Ek. rewrite <- width_S. rewrite Ew in Hfull, Hr0.
      destruct Hat as (_ & _ & _ & [[Hz _] | Hat]); [| lia]. subst k. rewrite Z.add_0_r in Hr0, Hfull. lia. }
  destruct Hgo as (st2 & l3 & Ef & Gs2 & Hcl2). mstep Ef.
  pose proof (ustep_done (S levels) s l t P pages W idx k k' l1 st l3 st2 (4096 * (P + k + k')) Hat Hi Hk G Gs2 Hcl2
    ltac:(lia) Hend Hr eq_refl) as Hstep.
  eexists _, _. split; [| exact Hstep]. by destruct (Z.eqb_spec (pages - k - k') 0).
Qed.

Lemma unmap_Ok levels : (levels <= 2)%nat -> unmap_spec levels.
Proof.
  induction levels as [|levels IH]; intros Hl s l t P pages W;
    destruct (index_asserts _ P Hl (proj1 (up_P _ _ _ _ _ _ W))) as (E1 & E2 & E3 & E4);
    cbn [riscv_unmap]; unfold bind at 1, ASSERT at 1; rewrite E1, E2;
    unfold bind at 1, ASSERT at 1; rewrite E3; (apply run_uloop; [done |]).
  - intros idx a st Hi (k & l1 & -> & Hk & Hat & _ & G & _). rewrite E4. cbn [negb].
    exact (ubody_leaf s l t P pages idx k st l1 W Hi Hk Hat G).
  - specialize (IH ltac:(lia)). intros idx a st Hi (k & l1 & -> & Hk & Hat & _ & G & Hcl).
    rewrite E4. cbn [negb]. unfold get_pte. unfold bind at 1, gets at 1. fold (entry (memory st) t idx).
    destruct (ubody_descend levels s l t P pages idx k st l1 Hl IH W Hi Hk Hat G Hcl) as (r & st2 & E & Hr).
    destruct (ubody_entry levels s l t P pages idx k st l1 W Hi Hk Hat G) as (Hn & Hu).
    rewrite Hn. unfold bind at 1, ASSERT at 1. rewrite PTE2Pa_aligned.
    fold (child km (entry (memory st) t idx)).
    destruct (usable_aligned _ Hu) as [-> _]. rewrite (proj2 (Z.eqb_neq _ NULL)) by (destruct Hu; unfold NULL; lia).
    cbn [negb andb]. exists r, st2. split; [exact E | exact Hr].
Qed.
End unmap.
