(* ===== verification/Sv39Spec.v ===== *)
(** * The Sv39 page tables: properties

    The buddy allocator implements [PageSource], and what [__arch_hw_mmap] and
    [__arch_hw_unmap] do to the translation. *)
From S2P Require Import Prelude DList KernelMap PageFrame Buddy Sv39 Sv39Pte Sv39Tree Sv39Map Sv39Unmap.

(** ** The buddy allocator as a source of tables *)

(** What the rest of the kernel has in the memory of the allocator: the address
    of the descriptors, rings of list nodes, descriptors that are not the
    allocator's to change, and allocated blocks. *)
Record others := mk_others {
  o_base : Z; o_rings : gmap Z (list Z); o_pages : gmap Z pageframe; o_blocks : list (Z * Z)
}.

(** The tables [l] are single pages taken from a consistent allocator, beside
    what belongs to others. *)
Record table_pages (km : kernel_mapping) (g : Z) (oth : others) (s : buddy) (l : list Z) : Prop := {
  tp_wf : buddy_over km g (o_rings oth) s;
  tp_nodup : NoDup l;
  tp_pages : forall v, v ∈ l -> exists x, v = pg2va km x /\ 0 <= x < PGFRAME_PAGE_NUMS km /\ allocated (pgs s) x 0;
  tp_rest : forall x o, (x, o) ∈ o_blocks oth -> order_ok o /\ allocated (pgs s) x o /\ pg2va km x ∉ l;
  tp_kept : forall x p, o_pages oth !! x = Some p -> kept p /\ pgs s !! x = Some p /\ pg2va km x ∉ l;
  tp_base : base s = o_base oth
}.

(** The pages that are free or tables. *)
Definition balance (s : buddy) (l : list Z) : Z := rest_pages s + Z.of_nat (length l).

Section source.
Context (km : kernel_mapping) (g : Z) (oth : others).
Context (Hpa : PGFRAME_PA_START km + PGFRAME_SIZE km <= 2 ^ 56).

Lemma page_usable x : geometry km -> 0 <= x < PGFRAME_PAGE_NUMS km -> usable km (pg2va km x).
Proof using Hpa.
  intros G Hx. pose proof G as [Hp Hv He Hpal Hval Hsz Hn].
  rewrite (pg2va_eq km G) by done. set (v := PGFRAME_VA_START km + 4096 * x).
  assert (Epa : va2pa km v = PGFRAME_PA_START km + 4096 * x) by (apply (va2pa_eq km G); lia).
  split.
  - lia.
  - unfold v. rewrite Z.mul_comm, Z.mod_add by lia. done.
  - rewrite Epa. lia.
  - rewrite Epa, Z.mul_comm, Z.mod_add by lia. done.
  - rewrite Epa. apply (pa2va_eq km G). lia.
Qed.

Lemma pg2va_inj x y : geometry km -> 0 <= x < PGFRAME_PAGE_NUMS km -> 0 <= y < PGFRAME_PAGE_NUMS km ->
  pg2va km x = pg2va km y -> x = y.
Proof using.
  intros G Hx Hy. rewrite !(pg2va_eq km G) by done. lia.
Qed.

Lemma allocated_range s x o :
  buddy_over km g (o_rings oth) s -> order_ok o -> allocated (pgs s) x o -> 0 <= x < PGFRAME_PAGE_NUMS km.
Proof using.
  intros (_ & _ & L & [B _ _]) Ho Hal.
  destruct (allocated_head _ _ _ Hal Ho) as (p & Hp & _). apply (page_range _ _ _ _ _ B Hp).
Qed.

Lemma page_known s x p : buddy_over km g (o_rings oth) s -> pgs s !! x = Some p -> 0 <= x < PGFRAME_PAGE_NUMS km.
Proof using. intros (_ & _ & L & [B _ _]) Hp. apply (page_range _ _ _ _ _ B Hp). Qed.

Lemma order_0 : order_ok 0.
Proof using. done. Qed.

(** A block that nobody uses: it holds no table and is not another's. *)
Record unused (l : list Z) (x : Z) : Prop := {
  un_table : pg2va km x ∉ l;
  un_page : o_pages oth !! x = None;
  un_block : x ∉ (o_blocks oth).*1
}.

Lemma table_pages_take s l o :
  table_pages km g oth s l ->
  bkp_alloc km g o s = Ok (None, s) \/
  order_ok o /\ exists x s', bkp_alloc km g o s = Ok (Some x, s') /\ table_pages km g oth s' l /\
    hands_out s s' x o /\ 0 <= x < PGFRAME_PAGE_NUMS km /\ unused l x.
Proof using.
  intros [W Hnd Hpg Hrest HK Hbase]. pose proof W as (G & _).
  destruct (bkp_alloc_cases km g _ s o W) as [[E _] | (Ho & x & s1 & E & W1 & Hh)]; [by left | right].
  split; [done |]. pose proof Hh as [A _ K _ M Eb]. pose proof (allocated_range s1 x o W1 Ho A) as Hx.
  assert (Hkeep : forall y o, allocated (pgs s) y o -> y <> x /\ allocated (pgs s1) y o).
  { intros y o' Hal. split.
    - destruct Hal as (p & Hp & Hf & _). by destruct (proj1 (K y p (or_introl Hf)) Hp).
    - eapply allocated_kept; [| exact Hal]. intros p Hk Hp. by apply K. }
  exists x, s1. split; [done |]. split; [| split; [done |]; split; [done |]; split].
  - split; [done | done | | | | by rewrite Eb].
    + intros v Hv. destruct (Hpg v Hv) as (y & -> & Hy & Hal). exists y. do 2 (split; [done |]). by apply Hkeep.
    + intros y o' Hy. destruct (Hrest y o' Hy) as (Ho' & Hal & Hn). split; [done |]. split; [by apply Hkeep | done].
    + intros y p Hy. destruct (HK y p Hy) as (Hk & Hp & Hn). split; [done |]. split; [by apply (K y p Hk) in Hp as [_ ?] | done].
  - intros Hl. destruct (Hpg _ Hl) as (y & Ey & Hy & Hal). apply pg2va_inj in Ey; [| done ..].
    subst y. by destruct (Hkeep x 0 Hal).
  - destruct (o_pages oth !! x) as [p|] eqn:Hy; [| done]. destruct (HK x p Hy) as (Hk & Hp & _).
    by destruct (proj1 (K x p Hk) Hp).
  - intros ([y o'] & Ey & Hy)%list_elem_of_fmap. cbn in Ey. subst y. destruct (Hrest x o' Hy) as (_ & Hal & _).
    by destruct (Hkeep x o' Hal).
Qed.

Lemma table_pages_give s l x o :
  table_pages km g oth s l -> order_ok o -> allocated (pgs s) x o -> unused l x ->
  exists s', bkp_free km g (Some x) s = Ok (tt, s') /\ table_pages km g oth s' l /\ takes_back s s' x o.
Proof using.
  intros [W Hnd Hpg Hrest HK Hbase] Ho Hal [U1 U2 U3].
  destruct (bkp_free_cases km g _ s x o W Ho Hal) as (s1 & E & W1 & T). pose proof T as [K _ _ M Eb].
  exists s1. split; [done |]. split; [| done].
  assert (Hkeep : forall y o, y <> x -> allocated (pgs s) y o -> allocated (pgs s1) y o).
  { intros y o' Hne Ha. eapply allocated_kept; [| exact Ha]. intros p Hk Hp. apply K; done. }
  split; [done | done | | | | by rewrite Eb].
  - intros w Hw. destruct (Hpg w Hw) as (y & -> & Hy & Ha). exists y. do 2 (split; [done |]).
    apply Hkeep; [by intros -> | done].
  - intros y o' Hy. destruct (Hrest y o' Hy) as (Ho' & Ha & Hn). split; [done |]. split; [| done].
    apply Hkeep; [| done]. intros ->. apply U3. apply list_elem_of_fmap. by exists (x, o').
  - intros y p Hy. destruct (HK y p Hy) as (Hk & Hp & Hn). split; [done |]. split; [| done].
    apply K; [done |]. split; [| done]. intros ->. congruence.
Qed.

Lemma table_pages_add s l x :
  table_pages km g oth s l -> allocated (pgs s) x 0 -> unused l x -> table_pages km g oth s (pg2va km x :: l).
Proof using.
  intros [W Hnd Hpg Hrest HK Hbase] A [U1 U2 U3]. pose proof W as (G & _).
  pose proof (allocated_range s x 0 W order_0 A) as Hx. split; [done | by apply NoDup_cons | | | | done].
  - intros v [-> | Hv]%elem_of_cons; [by exists x | by apply Hpg].
  - intros y o Hy. destruct (Hrest y o Hy) as (Ho & Hal & Hn). do 2 (split; [done |]). apply not_elem_of_cons.
    split; [| done]. intros Ey. apply pg2va_inj in Ey; [| done | by apply (allocated_range s y o) | done]. subst y.
    apply U3. apply list_elem_of_fmap. by exists (x, o).
  - intros y p Hy. destruct (HK y p Hy) as (Hk & Hp & Hn). do 2 (split; [done |]). apply not_elem_of_cons.
    split; [| done]. intros Ey. apply pg2va_inj in Ey; [congruence | done | by apply (page_known s y p) | done].
Qed.

Lemma table_pages_alloc s l :
  table_pages km g oth s l ->
  bk_alloc_zero km g 0 s = Ok (NULL, s) \/
  exists v s', bk_alloc_zero km g 0 s = Ok (v, s') /\ usable km v /\ v ∉ l /\ table_pages km g oth s' (v :: l) /\
    balance s' (v :: l) = balance s l /\ forall a, memory s' a = fill v 4096 0 (memory s) a.
Proof using Hpa.
  intros T. pose proof T as [(G & _) _ _ _ _ _]. unfold bk_alloc_zero, bk_alloc. rewrite bind_bind.
  destruct (table_pages_take s l 0 T) as [E | (_ & x & s1 & E & T1 & Hh & Hx & Hu)]; mstep E; [by left | right].
  pose proof (page_usable x G Hx) as Hus. unfold bind, ret, when, modify.
  rewrite (proj2 (Z.eqb_neq _ NULL)) by (destruct Hus; unfold NULL; lia). cbn [negb].
  rewrite fill_size by apply order_0. change (4096 * 2 ^ 0) with 4096.
  eexists _, _. split; [reflexivity |]. split; [done |]. split; [by apply Hu |].
  split; [| split; [| intros a; cbn; by rewrite (ho_memory _ _ _ _ Hh)]].
  2: { pose proof (ho_pages _ _ _ _ Hh) as Hc. change (2 ^ 0) with 1 in Hc. unfold balance, rest_pages in *. cbn [length order_pools set_memory]. lia. }
  pose proof (table_pages_add s1 l x T1 (ho_block _ _ _ _ Hh) Hu) as [W Hnd Hpg Hr HK Hb].
  split; [by apply buddy_over_memory | done ..].
Qed.

Lemma table_pages_free s l1 v l2 :
  table_pages km g oth s (l1 ++ v :: l2) ->
  exists s', bk_free km g v s = Ok (tt, s') /\ table_pages km g oth s' (l1 ++ l2) /\
    balance s' (l1 ++ l2) = balance s (l1 ++ v :: l2) /\ forall a, memory s' a = memory s a.
Proof using Hpa.
  intros [W Hnd Hpg Hrest HK Hbase]. pose proof W as (G & _). destruct (Hpg v) as (x & -> & Hx & Hal); [set_solver |].
  pose proof (page_usable x G Hx) as Hu. unfold bk_free.
  rewrite (proj2 (Z.eqb_neq _ NULL)) by (destruct Hu; unfold NULL; lia).
  rewrite (proj2 (va_valid_spec km G _)) by (rewrite (pg2va_eq km G) by done; destruct G; lia). cbn [negb orb].
  rewrite (va2pg_pg2va km G) by done. rewrite <-Permutation_middle in Hnd. apply NoDup_cons in Hnd as [Hni Hnd].
  destruct (table_pages_give s (l1 ++ l2) x 0) as (s' & E & T & [_ Hc _ M _]); [| done | done | |].
  3: { exists s'. split; [done |]. split; [done |]. split; [| by rewrite M]. change (2 ^ 0) with 1 in Hc. unfold balance.
    rewrite Hc, !length_app. cbn [length]. lia. }
  - split; [done | done | set_solver | | | done].
    + intros y o Hy. destruct (Hrest y o Hy) as (? & ? & ?). set_solver.
    + intros y p Hy. destruct (HK y p Hy) as (? & ? & ?). set_solver.
  - split; [done | |].
    + destruct (o_pages oth !! x) as [p|] eqn:Ey; [| done]. destruct (HK x p Ey) as (_ & _ & []). set_solver.
    + intros ([y o] & Ey & Hy)%list_elem_of_fmap. cbn in Ey. subst y. destruct (Hrest x o Hy) as (_ & _ & []). set_solver.
Qed.

#[export] Instance buddy_page_source :
  PageSource km (bk_alloc_zero km g 0) (bk_free km g) (table_pages km g oth).
Proof using Hpa.
  split; [split |..].
  - intros s l T. apply T.
  - intros s l v [(G & _) _ Hpg _ _ _] Hv. destruct (Hpg v Hv) as (x & -> & Hx & _). by apply page_usable.
  - intros s l m [W Hnd Hpg Hr HK Hb]. split; [by apply buddy_over_memory | done ..].
  - intros s l [E | (v & s' & E & Hu & Hv & T & _ & Hm)]%table_pages_alloc; [by left | right]. by exists v, s'.
  - intros s l1 v l2 (s' & E & T & _ & Hm)%table_pages_free. by exists s'.
Qed.

(** With the number of pages that are free or tables. *)
Definition counted (N : Z) (s : buddy) (l : list Z) : Prop := table_pages km g oth s l /\ balance s l = N.
Lemma counted_source N : PageSource km (bk_alloc_zero km g 0) (bk_free km g) (counted N).
Proof using Hpa.
  split; [split |..].
  - intros s l [T _]. apply T.
  - intros s l v [T _]. by apply (ps_usable s l v T).
  - intros s l m [T Hc]. split; [by apply ps_memory | done].
  - intros s l [T Hc]. destruct (table_pages_alloc s l T) as [E | (v & s' & E & Hu & Hv & T' & Hc' & Hm)]; [by left | right].
    exists v, s'. do 3 (split; [done |]). split; [| done]. split; [done | by rewrite Hc'].
  - intros s l1 v l2 [T Hc]. destruct (table_pages_free s l1 v l2 T) as (s' & E & T' & Hc' & Hm). exists s'. split; [done |].
    split; [| done]. split; [done | by rewrite Hc'].
Qed.
End source.

(** ** Mapping and unmapping a range, against the interface *)

(** A root table [t], whose tables are pages taken from the allocator. *)
Record space (Own : buddy -> list Z -> Prop) (km : kernel_mapping) (s : buddy) (l : list Z) (t : Z) : Prop := {
  sp_own : Own s l;
  sp_tree : tree_ok km 2 (memory s) t;
  sp_in : forall q, in_tree km 2 (memory s) t q -> q ∈ l
}.
(** All of these are in use. *)
Definition tight (km : kernel_mapping) (s : buddy) (l : list Z) (t : Z) : Prop :=
  forall q, q ∈ l -> in_tree km 2 (memory s) t q.
Lemma space_weaken (Own Own' : buddy -> list Z -> Prop) km s l t :
  (Own s l -> Own' s l) -> space Own km s l t -> space Own' km s l t.
Proof. intros H [HO Ht Hin]. split; auto. Qed.

(** A range of [n] pages from page number [P] on, below one root table. *)
Record page_range (P n : Z) : Prop := {
  pr_P : 0 <= P /\ 4096 * (P + n) < 2 ^ 64;
  pr_n : 0 < n < 2 ^ 31;
  pr_end : P + n <= table_end 2 P
}.

Lemma aligned_true z : 0 <= z < 2 ^ 64 -> z mod 4096 = 0 -> VAL_IS_PAGE_ALIGNED z = true.
Proof.
  intros Hz Ha. unfold VAL_IS_PAGE_ALIGNED. change PAGE_ALIGN_BIT with (Z.ones 12).
  rewrite Z.land_ones, u64_small by lia. change (2 ^ 12) with 4096. by rewrite Ha.
Qed.
Lemma aligned_pages P : 0 <= P -> 4096 * P < 2 ^ 64 -> VAL_IS_PAGE_ALIGNED (4096 * P) = true.
Proof. intros. apply aligned_true; [lia |]. by rewrite Z.mul_comm, Z.mod_mul. Qed.

Section ranges.
Context {km : kernel_mapping} {g_buddy : Z} {Own : buddy -> list Z -> Prop}.
Context {PS : PageSource km (bk_alloc_zero km g_buddy 0) (bk_free km g_buddy) Own}.

Lemma space_root s l t : space Own km s l t ->
  (t =? NULL) = false /\ VAL_IS_PAGE_ALIGNED t = true.
Proof using.
  intros [_ Ht _]. pose proof (tree_usable km _ _ _ Ht) as Hu. split; [| by apply (usable_aligned (km := km))].
  apply Z.eqb_neq. destruct Hu. unfold NULL. lia.
Qed.

Lemma hw_unmap_Ok s l t P n :
  space Own km s l t -> page_range P n ->
  (forall Q, P <= Q < P + n -> is_Some (look km 2 (memory s) t Q)) ->
  exists s' l', __arch_hw_unmap km g_buddy t (4096 * P) (4096 * n) s = Ok (tt, s') /\
    space Own km s' l' t /\ shrunk (km := km) (Own := Own) 2 t P n s l s' l'.
Proof using PS.
  intros S [HP Hn He] Hmap. destruct (space_root _ _ _ S) as [Ht0 _]. destruct S as [HO Ht Hin].
  unfold __arch_hw_unmap. unfold bind at 1, ASSERT at 1. rewrite Ht0, !aligned_pages by lia. cbn [negb andb].
  rewrite (proj2 (Z.eqb_neq (4096 * n) 0)) by lia. rewrite PAGE_SIZE_eq, (Z.mul_comm 4096 n), Z.div_mul, s32_small by lia.
  unfold bind at 1, ASSERT at 1. rewrite (proj2 (Z.leb_le 0 n)) by lia.
  destruct (unmap_Ok (PS := PS) 2 ltac:(lia) s l t P n) as (k & s' & l' & E & Hk & Hke & Hr & Gs & _).
  { split; try done. intros Q HQ _. by apply Hmap. }
  assert (k = n) as -> by lia. rewrite Z.sub_diag in E. exists s', l'. split; [by mstep E |].
  split; [| done]. split; [apply Gs | apply Gs |]. intros q Hq. by apply (shrunk_in _ _ _ _ _ _ _ _ q Hin Gs).
Qed.

Lemma shrunk_tight s l t P n s' l' :
  shrunk (km := km) (Own := Own) 2 t P n s l s' l' -> tight km s l t -> tight km s' l' t.
Proof using. intros G Hl q Hq. apply (sh_tight _ _ _ _ _ _ _ _ G); [done |]. by apply Hl, (sh_sub _ _ _ _ _ _ _ _ G). Qed.

(** Mapping a range either maps all of it, or nothing. *)
Lemma hw_mmap_Ok s l t P n pa prot :
  space Own km s l t -> page_range P n -> 0 <= pa -> pa + 4096 * n <= 2 ^ 56 -> pa mod 4096 = 0 ->
  Z.testbit prot 0 = true ->
  exists r s' l', __arch_hw_mmap km g_buddy t (4096 * P) pa prot (4096 * n) s = Ok (r, s') /\ space Own km s' l' t /\
    ((r = 0 /\ forall Q, Q / span 2 = P / span 2 -> look km 2 (memory s') t Q =
        if decide (P <= Q < P + n) then Some (SV39_Pa2PTE (pa + 4096 * (Q - P)) prot) else look km 2 (memory s) t Q) \/
     ((r = - ENOMEM \/ r = - EEXIST /\ exists Q, P <= Q < P + n /\ is_Some (look km 2 (memory s) t Q)) /\
      forall Q, Q / span 2 = P / span 2 -> look km 2 (memory s') t Q = look km 2 (memory s) t Q)) /\
    (r = 0 -> forall Q, P <= Q < P + n -> look km 2 (memory s) t Q = None) /\
    (tight km s l t -> tight km s' l' t).
Proof using PS.
  intros S R Hpa0 Hpa1 Hpal Hprot. destruct (space_root _ _ _ S) as [Ht0 Hta]. pose proof S as [HO Ht Hin].
  pose proof R as [HP Hn He]. unfold __arch_hw_mmap. unfold bind at 1, ASSERT at 1. rewrite Ht0, Hta. cbn [negb andb].
  unfold bind at 1, ASSERT at 1. rewrite aligned_pages, aligned_true by (done || lia). cbn [andb].
  unfold bind at 1, ASSERT at 1. rewrite aligned_pages by lia.
  rewrite (proj2 (Z.eqb_neq (4096 * n) 0)) by lia. rewrite PAGE_SIZE_eq, (Z.mul_comm 4096 n), Z.div_mul, s32_small by lia.
  unfold bind at 1, ASSERT at 1. rewrite (proj2 (Z.leb_le 0 n)) by lia.
  destruct (walk_Ok (PS := PS) 2 ltac:(lia) s l t P pa prot n) as (r & k & s1 & l1 & E & Hk & Hke & G & Ho);
    [by split |]. unfold VMPROT2RVPROT. mstep E.
  assert (S1 : space Own km s1 l1 t).
  { split; [apply G | apply G |]. intros q Hq. by apply (grown_in _ _ _ _ _ _ _ _ _ _ q Hin G). }
  assert (T1 : tight km s l t -> tight km s1 l1 t).
  { intros Hl q [Hq | Hq]%(gr_tight _ _ _ _ _ _ _ _ _ _ G); [| done]. apply (gr_mono _ _ _ _ _ _ _ _ _ _ G), Hl, Hq. }
  destruct Ho as [[-> Hr] | (Hkn & Hkt & Hr)].
  - assert (k = n) as -> by lia. exists 0, s1, l1. split; [done |]. split; [done |]. split; [left; split; [done | apply G] |].
    split; [| done]. intros _ Q HQ. apply (gr_free _ _ _ _ _ _ _ _ _ _ G); [| done]. apply in_table. lia.
  - assert (Hr0 : r <> 0) by (destruct Hr as [-> | [-> _]]; done).
    rewrite (proj2 (Z.eqb_neq r 0)) by done. cbn [negb]. replace (n - (n - k)) with k by lia.
    rewrite s32_small, u64_small, (Z.mul_comm k) by lia.
    assert (Hun : exists s2 l2, __arch_hw_unmap km g_buddy t (4096 * P) (4096 * k) s1 = Ok (tt, s2) /\
       space Own km s2 l2 t /\ (forall Q, Q / span 2 = P / span 2 -> look km 2 (memory s2) t Q = look km 2 (memory s) t Q) /\
       (tight km s1 l1 t -> tight km s2 l2 t)).
    { destruct (decide (k = 0)) as [-> | Hk0].
      - exists s1, l1. split; [| split; [done |]].
        + unfold __arch_hw_unmap. unfold bind at 1, ASSERT at 1. rewrite Ht0, !aligned_pages by lia. done.
        + split; [| done]. intros Q HQ. rewrite (gr_look _ _ _ _ _ _ _ _ _ _ G) by done. by rewrite decide_False by lia.
      - destruct (hw_unmap_Ok s1 l1 t P k S1) as (s2 & l2 & E2 & S2 & Gs); [split; lia | |].
        { intros Q HQ. rewrite (gr_look _ _ _ _ _ _ _ _ _ _ G) by (apply in_table; lia).
          rewrite decide_True by lia. by eexists. }
        exists s2, l2. split; [done |]. split; [done |]. split; [| by apply (shrunk_tight s1 l1 t P k)]. intros Q HQ.
        rewrite (sh_look _ _ _ _ _ _ _ _ Gs) by done. rewrite (gr_look _ _ _ _ _ _ _ _ _ _ G) by done.
        case_decide; [| done]. symmetry. by apply (gr_free _ _ _ _ _ _ _ _ _ _ G). }
    destruct Hun as (s2 & l2 & E2 & S2 & L2 & T2). mstep E2. exists r, s2, l2. split; [done |]. split; [done |].
    split; [| split; [by intros -> | tauto]]. right. split; [| done].
    destruct Hr as [-> | [-> Hs]]; [by left | right]. split; [done |]. exists (P + k). split; [lia | done].
Qed.
End ranges.

(** ** Properties *)

(** The translation of a virtual address: physical address and flags. *)
Definition translate (km : kernel_mapping) (s : buddy) (t va : Z) : option (Z * Z) :=
  (fun e => (SV39_PTE2Pa e + va mod 4096, Z.land e 0x3ff)) <$> look km 2 (memory s) t (va / 4096).

(** The root table [t] and the tables below it are the pages [l] of the buddy
    allocator; the blocks [rest] belong to others. *)
Definition page_tables (km : kernel_mapping) (g : Z) (rest : list (Z * Z)) (s : buddy) (l : list Z) (t : Z) : Prop :=
  exists b, space (table_pages km g (mk_others b ∅ ∅ rest)) km s l t.

(** A range of whole pages that a root table, of 512 GiB, translates. *)
Record va_range (va size : Z) : Prop := {
  vr_page : va mod 4096 = 0 /\ size mod 4096 = 0;
  vr_size : 0 < size < 2 ^ 43;
  vr_va : 0 <= va /\ va + size < 2 ^ 64;
  vr_root : (va + size - 1) / 2 ^ 39 = va / 2 ^ 39
}.

Lemma va_range_pages va size :
  va_range va size -> exists P n, va = 4096 * P /\ size = 4096 * n /\ page_range P n.
Proof.
  intros [[[P ->]%Z.mod_divide [n ->]%Z.mod_divide] Hs Hv Hr]; [| lia ..].
  exists P, n. split; [lia |]. split; [lia |]. split; [lia | lia |].
  unfold table_end. change (span 2) with (2 ^ 27).
  pose proof (div_range (P * 4096 + n * 4096 - 1) (2 ^ 39) ltac:(lia)) as H1. rewrite Hr in H1.
  replace (P * 4096 / 2 ^ 39) with (P / 2 ^ 27) in H1; [lia |].
  change (2 ^ 39) with (2 ^ 27 * 4096). by rewrite Z.div_mul_cancel_r by lia.
Qed.

Lemma same_root va va' : va' / 2 ^ 39 = va / 2 ^ 39 -> va' / 4096 / span 2 = va / 4096 / span 2.
Proof. intros H. rewrite !Z.div_div by (try apply span_pos; lia). exact H. Qed.

Lemma page_in_range va P n : P <= va / 4096 < P + n <-> 4096 * P <= va < 4096 * P + 4096 * n.
Proof. pose proof (div_range va 4096 ltac:(lia)). nia. Qed.

Lemma buddy_source km g oth :
  PGFRAME_PA_START km + PGFRAME_SIZE km <= 2 ^ 56 ->
  PageSource km (bk_alloc_zero km g 0) (bk_free km g) (table_pages km g oth).
Proof. apply buddy_page_source. Qed.

(** ** Mapping and unmapping, in terms of addresses *)

Lemma hw_mmap_translates km g oth s l t va pa prot size :
  space (table_pages km g oth) km s l t -> PGFRAME_PA_START km + PGFRAME_SIZE km <= 2 ^ 56 ->
  va_range va size -> 0 <= pa -> pa + size <= 2 ^ 56 -> pa mod 4096 = 0 -> PTE_VALID prot = true ->
  exists r s' l', __arch_hw_mmap km g t va pa prot size s = Ok (r, s') /\ space (table_pages km g oth) km s' l' t /\
    ((r = 0 /\ forall va', va' / 2 ^ 39 = va / 2 ^ 39 -> translate km s' t va' =
        if decide (va <= va' < va + size) then Some (pa + (va' - va), prot mod 2 ^ 10) else translate km s t va') \/
     ((r = - ENOMEM \/ r = - EEXIST /\ exists va', va <= va' < va + size /\ is_Some (translate km s t va')) /\
      forall va', va' / 2 ^ 39 = va / 2 ^ 39 -> translate km s' t va' = translate km s t va')) /\
    (r = 0 -> forall va', va <= va' < va + size -> translate km s t va' = None) /\
    balance s' l' = balance s l /\ (tight km s l t -> tight km s' l' t).
Proof.
  intros S Hkm R Hpa0 Hpa1 Hpal Hprot. destruct (va_range_pages _ _ R) as (P & n & -> & -> & Rp).
  rewrite PTE_VALID_bit in Hprot. pose proof (counted_source km g oth Hkm (balance s l)) as PS.
  apply (space_weaken _ (counted km g oth (balance s l))) in S; [| by intros ?].
  destruct (hw_mmap_Ok (PS := PS) s l t P n pa prot S Rp Hpa0 Hpa1 Hpal Hprot) as (r & s' & l' & E & S' & Hr & Hf & HT).
  pose proof (sp_own _ _ _ _ _ S') as [_ Hc]. apply (space_weaken _ (table_pages km g oth)) in S'; [| by intros []].
  assert (Eva : 4096 * P / 4096 = P) by (rewrite Z.mul_comm, Z.div_mul by lia; done).
  exists r, s', l'. split; [done |]. split; [done |]. split.
  - destruct Hr as [[-> HL] | [Hr HL]]; [left | right].
    + split; [done |]. intros va' Hva. unfold translate. rewrite HL by (rewrite <- Eva; by apply same_root).
      destruct (decide (P <= va' / 4096 < P + n)) as [Hin | Hout].
      * rewrite decide_True by (by apply page_in_range). simpl. do 2 f_equal.
        -- rewrite PTE2Pa_Pa2PTE.
           ++ pose proof (Z.div_mod va' 4096 ltac:(lia)). lia.
           ++ lia.
           ++ rewrite (Z.mul_comm 4096), Z.mod_add by lia. done.
        -- apply PTE_flags; [lia |]. rewrite (Z.mul_comm 4096), Z.mod_add by lia. done.
      * rewrite decide_False; [done |]. intros Hin. by apply Hout, page_in_range.
    + split.
      * destruct Hr as [-> | (-> & Q & HQ & [e He])]; [by left | right]. split; [done |]. exists (4096 * Q).
        split; [lia |]. unfold translate. rewrite Z.mul_comm, Z.div_mul, He by lia. by eexists.
      * intros va' Hva. unfold translate. by rewrite HL by (rewrite <- Eva; by apply same_root).
  - split; [| done]. intros Hr0 va' Hva'. unfold translate. rewrite (Hf Hr0); [done |]. by apply page_in_range.
Qed.

Lemma hw_unmap_translates km g oth s l t va size :
  space (table_pages km g oth) km s l t -> PGFRAME_PA_START km + PGFRAME_SIZE km <= 2 ^ 56 -> va_range va size ->
  (forall va', va <= va' < va + size -> is_Some (translate km s t va')) ->
  exists s' l', __arch_hw_unmap km g t va size s = Ok (tt, s') /\ space (table_pages km g oth) km s' l' t /\
    (forall q, q ∈ l' -> q ∈ l) /\ (balance s' l' = balance s l /\ (tight km s l t -> tight km s' l' t)) /\
    forall va', va' / 2 ^ 39 = va / 2 ^ 39 ->
      translate km s' t va' = if decide (va <= va' < va + size) then None else translate km s t va'.
Proof.
  intros S Hkm R Hmap. destruct (va_range_pages _ _ R) as (P & n & -> & -> & Rp).
  pose proof (counted_source km g oth Hkm (balance s l)) as PS.
  apply (space_weaken _ (counted km g oth (balance s l))) in S; [| by intros ?].
  destruct (hw_unmap_Ok (PS := PS) s l t P n S Rp) as (s' & l' & E & S' & G).
  { intros Q HQ. destruct (Hmap (4096 * Q)) as [x Hx]; [lia |]. unfold translate in Hx.
    rewrite Z.mul_comm, Z.div_mul in Hx by lia. apply fmap_Some in Hx as (e & He & _). by exists e. }
  pose proof (sp_own _ _ _ _ _ S') as [_ Hc]. apply (space_weaken _ (table_pages km g oth)) in S'; [| by intros []].
  assert (Eva : 4096 * P / 4096 = P) by (rewrite Z.mul_comm, Z.div_mul by lia; done).
  exists s', l'. split; [done |]. split; [done |]. split; [apply G |]. split; [split; [done | by eapply shrunk_tight] |].
  intros va' Hva. unfold translate.
  rewrite (sh_look _ _ _ _ _ _ _ _ G) by (rewrite <- Eva; by apply same_root).
  destruct (decide (P <= va' / 4096 < P + n)) as [Hin | Hout].
  - by rewrite decide_True by (by apply page_in_range).
  - rewrite decide_False; [done |]. intros Hin. by apply Hout, page_in_range.
Qed.

(** An entry keeps what it is given.  The physical address and the flags
    of an entry built by [SV39_Pa2PTE] are read back by [SV39_PTE2Pa] and the
    flag tests, for every page-aligned address of 56 bits; the entry of a
    table is recognised by [PTE_NEXTPGT] and a leaf with a read, write or
    execute flag is not; and the root table written into [satp] is read back
    for every page-aligned address of 44 bits. *)
Lemma pte_round_trip pa prot :
  0 <= pa < 2 ^ 56 -> pa mod 4096 = 0 -> 0 <= prot < 2 ^ 10 ->
  let e := SV39_Pa2PTE pa prot in
  0 <= e < 2 ^ 64 /\ SV39_PTE2Pa e = pa /\ Z.land e 0x3ff = prot /\
  PTE_VALID e = PTE_VALID prot /\ PTE_NEXTPGT e = PTE_NEXTPGT prot /\
  (pa < 2 ^ 44 -> SV39_SATP2PGT (SV39_PGT2SATP pa) = pa).
Proof.
  intros Hpa Hal Hpr e. split; [by apply Pa2PTE_range |]. split; [by apply PTE2Pa_Pa2PTE |].
  split; [unfold e; rewrite PTE_flags by done; apply Z.mod_small; lia |].
  split; [unfold e; rewrite !PTE_VALID_bit; by apply Pa2PTE_bit |].
  split; [unfold e; rewrite !PTE_NEXTPGT_bits, !Pa2PTE_bit by lia; done |].
  intros H44. apply SATP2PGT_PGT2SATP; [lia | done].
Qed.

Lemma pte_round_trip_witness :
  SV39_PTE2Pa (SV39_Pa2PTE 0x80201000 0xb) = 0x80201000 /\ SV39_SATP2PGT (SV39_PGT2SATP 0x80201000) = 0x80201000.
Proof. destruct (pte_round_trip 0x80201000 0xb) as (_ & H & _ & _ & _ & H2); [done .. |]. split; [exact H | by apply H2]. Defined.

(** C7: mapping is all or nothing.  [__arch_hw_mmap] on well-formed tables
    returns 0 and every address of the range now translates to the
    corresponding physical address with the given flags (the whole range was
    unmapped before), or it returns -ENOMEM, or -EEXIST because a page of the
    range is mapped already, and then no translation has changed.  In every
    case the translations outside the range are the same, the tables are well
    formed and all of them pages of the allocator, the blocks of others stay
    allocated, and no page is lost: a page that is no longer free is a table
    that hangs in the tree.  The range is page aligned and lies within one root
    table ([va_range]), the physical addresses are page aligned and below 2^56,
    and the flags have PROT_V. *)
Theorem hw_mmap_all_or_nothing km g rest s l t va pa prot size :
  page_tables km g rest s l t -> PGFRAME_PA_START km + PGFRAME_SIZE km <= 2 ^ 56 ->
  va_range va size -> 0 <= pa -> pa + size <= 2 ^ 56 -> pa mod 4096 = 0 -> PTE_VALID prot = true ->
  exists r s' l', __arch_hw_mmap km g t va pa prot size s = Ok (r, s') /\ page_tables km g rest s' l' t /\
    ((r = 0 /\ forall va', va' / 2 ^ 39 = va / 2 ^ 39 -> translate km s' t va' =
        if decide (va <= va' < va + size) then Some (pa + (va' - va), prot mod 2 ^ 10) else translate km s t va') \/
     ((r = - ENOMEM \/ r = - EEXIST /\ exists va', va <= va' < va + size /\ is_Some (translate km s t va')) /\
      forall va', va' / 2 ^ 39 = va / 2 ^ 39 -> translate km s' t va' = translate km s t va')) /\
    (r = 0 -> forall va', va <= va' < va + size -> translate km s t va' = None) /\
    balance s' l' = balance s l /\ (tight km s l t -> tight km s' l' t).
Proof.
  intros [b S] Hkm R H1 H2 H3 H4.
  destruct (hw_mmap_translates km g _ s l t va pa prot size S Hkm R H1 H2 H3 H4) as (r & s' & l' & E & S' & H).
  exists r, s', l'. split; [done |]. split; [by exists b | done].
Qed.

(** C25: unmapping.  [__arch_hw_unmap] on a range that is mapped as a whole
    succeeds; afterwards no address of the range translates, all others of the
    root table translate as before, and the tables that left the tree went back
    to the allocator and are free: the tables left are well formed and still
    pages of it. *)
Theorem hw_unmap_range km g rest s l t va size :
  page_tables km g rest s l t -> PGFRAME_PA_START km + PGFRAME_SIZE km <= 2 ^ 56 -> va_range va size ->
  (forall va', va <= va' < va + size -> is_Some (translate km s t va')) ->
  exists s' l', __arch_hw_unmap km g t va size s = Ok (tt, s') /\ page_tables km g rest s' l' t /\
    (forall q, q ∈ l' -> q ∈ l) /\ (balance s' l' = balance s l /\ (tight km s l t -> tight km s' l' t)) /\
    forall va', va' / 2 ^ 39 = va / 2 ^ 39 ->
      translate km s' t va' = if decide (va <= va' < va + size) then None else translate km s t va'.
Proof.
  intros [b S] Hkm R H. destruct (hw_unmap_translates km g _ s l t va size S Hkm R H) as (s' & l' & E & S' & HL).
  exists s', l'. split; [done |]. split; [by exists b | done].
Qed.

(** ** Witnesses *)

Lemma demo_pa : PGFRAME_PA_START demo_km + PGFRAME_SIZE demo_km <= 2 ^ 56.
Proof. by vm_compute. Qed.

(** A root table just taken from the allocator. *)
Lemma demo_root : exists t s, bk_alloc_zero demo_km demo_g 0 demo_ready = Ok (t, s) /\
  page_tables demo_km demo_g [] s [t] t /\ forall va, translate demo_km s t va = None.
Proof.
  set (oth := mk_others (base demo_ready) ∅ ∅ []).
  assert (T0 : table_pages demo_km demo_g oth demo_ready []).
  { split; [apply demo_ready_wf | by apply NoDup_nil_2 | by intros v ?%elem_of_nil | by intros x o ?%elem_of_nil | | done].
    intros x p. cbn. by rewrite lookup_empty. }
  destruct (table_pages_alloc demo_km demo_g oth demo_pa demo_ready [] T0) as [E | (t & s & E & Hu & _ & T & _ & Hm)].
  - exfalso. assert (H : match bk_alloc_zero demo_km demo_g 0 demo_ready with Ok (x, _) => x =? NULL | Err _ => true end = false)
      by (vm_compute; reflexivity). rewrite E in H. done.
  - destruct (fresh_tree (km := demo_km) 2 (memory s) t Hu) as (Ht & Hin & Hl).
    { intros i Hi. transitivity (entry (fill t 4096 0 (memory demo_ready)) t i); [by apply ld64_ext; auto |].
      apply ld64_fill_in; unfold pte_addr; lia. }
    exists t, s. split; [done |]. split; [| intros va; unfold translate; by rewrite Hl].
    exists (base demo_ready). split; [done | done |]. intros q ->%Hin. by left.
Qed.

Lemma demo_range : va_range 0x40000000 0x2000.
Proof. split; [done | lia | lia | done]. Qed.

Lemma hw_mmap_all_or_nothing_witness :
  exists t s r s', __arch_hw_mmap demo_km demo_g t 0x40000000 0x10000000 3 0x2000 s = Ok (r, s') /\
    (translate demo_km s' t 0x40001234 = Some (0x10001234, 3) \/ r = - ENOMEM).
Proof.
  destruct demo_root as (t & s & _ & S & H0).
  destruct (hw_mmap_all_or_nothing demo_km demo_g [] s [t] t 0x40000000 0x10000000 3 0x2000 S demo_pa demo_range)
    as (r & s' & l' & E & _ & Hr & _); [done .. |]. exists t, s, r, s'. split; [exact E |].
  destruct Hr as [[_ HL] | [[Hr | (_ & va' & _ & [x Hx])] _]]; [left | by right | by rewrite H0 in Hx].
  rewrite HL by done. by rewrite decide_True by lia.
Defined.

(** Two pages mapped below a fresh root table. *)
Definition demo_map : M buddy (Z * Z) :=
  t ← bk_alloc_zero demo_km demo_g 0;
  r ← __arch_hw_mmap demo_km demo_g t 0x40000000 0x10000000 3 0x2000;
  ret (t, r).

Lemma demo_map_runs : match demo_map demo_ready with Ok ((_, r), _) => r | Err _ => 1 end = 0.
Proof. vm_compute. reflexivity. Qed.

Lemma demo_map_eq b t s r s' :
  bk_alloc_zero demo_km demo_g 0 b = Ok (t, s) ->
  __arch_hw_mmap demo_km demo_g t 0x40000000 0x10000000 3 0x2000 s = Ok (r, s') ->
  demo_map b = Ok ((t, r), s').
Proof. intros E0 E1. unfold demo_map. mstep E0. by mstep E1. Qed.

Lemma demo_space_mapped : exists t s l, page_tables demo_km demo_g [] s l t /\
  forall va, 0x40000000 <= va < 0x40002000 -> is_Some (translate demo_km s t va).
Proof.
  destruct demo_root as (t & s & E0 & [b S] & H0).
  pose proof (buddy_source demo_km demo_g (mk_others b ∅ ∅ []) demo_pa) as PS.
  destruct (hw_mmap_Ok (PS := PS) s [t] t 0x40000 2 0x10000000 3 S) as (r & s' & l' & E & S' & Hr & _);
    [split; [lia | lia | done] | lia | lia | done | done |].
  pose proof demo_map_runs as Hrun. rewrite (demo_map_eq demo_ready t s r s' E0 E) in Hrun.
  destruct Hr as [[_ HL] | [[-> | [-> _]] _]]; [| done | done].
  exists t, s', l'. split; [by exists b |]. intros va Hva. unfold translate.
  pose proof (div_range va 4096 ltac:(lia)) as Hd.
  assert (Hend : table_end 2 0x40000 = 0x8000000) by (vm_compute; reflexivity).
  rewrite HL by (apply in_table; lia). rewrite decide_True by lia. by eexists.
Qed.

Lemma hw_unmap_range_witness :
  exists t s s', __arch_hw_unmap demo_km demo_g t 0x40000000 0x2000 s = Ok (tt, s') /\
    is_Some (translate demo_km s t 0x40001234) /\ translate demo_km s' t 0x40001234 = None.
Proof.
  destruct demo_space_mapped as (t & s & l & S & Hm).
  destruct (hw_unmap_range demo_km demo_g [] s l t 0x40000000 0x2000 S demo_pa demo_range) as (s' & l' & E & _ & _ & _ & HL).
  { intros va' Hva. apply Hm. lia. }
  exists t, s, s'. split; [exact E |]. split; [apply Hm; lia |]. rewrite HL by done. by rewrite decide_True by lia.
Defined.
