(* ===== verification/Sv39Free.v ===== *)
(** * Giving back whole trees of tables: [riscv_free_pgtable]

    Clearing a table gives every table below it back to the allocator, against
    the interface [PageSource]. *)
From S2P Require Import Prelude DList KernelMap PageFrame Buddy Sv39 Sv39Pte Sv39Tree Sv39Map Sv39Unmap Sv39Spec.

(** The page numbers below a table start at a multiple of its span. *)
Definition span_base (levels : nat) (P : Z) : Prop := P = P / span levels * span levels.

Lemma below_entry levels P i : span_base levels P -> 0 <= i < 512 ->
  (P + i * width levels) / span levels = P / span levels /\ digit levels (P + i * width levels) = i /\
  (P + i * width levels) / width levels = 512 * (P / span levels) + i.
Proof.
  intros HP Hi. pose proof (width_pos levels) as Hw. pose proof (span_width levels) as Hs. unfold span_base in HP.
  remember (P / span levels) as q eqn:Eq. assert (E : (P + i * width levels) / span levels = q) by (apply div_unique; nia).
  assert (Ew : (P + i * width levels) / width levels = 512 * q + i) by (apply div_unique; nia).
  split; [done |]. split; [| done]. rewrite digit_div, E in Ew. lia.
Qed.
Lemma base_below levels P i : span_base (S levels) P -> 0 <= i < 512 -> span_base levels (P + i * width (S levels)).
Proof.
  intros HP Hi. destruct (below_entry _ P i HP Hi) as (_ & _ & E). unfold span_base in *. rewrite <-width_S, E.
  rewrite HP at 1. rewrite span_width. lia.
Qed.

Section free.
Context {km : kernel_mapping} {g_buddy : Z} {Own : buddy -> list Z -> Prop}.
Context {PS : PageSource km (bk_alloc_zero km g_buddy 0) (bk_free km g_buddy) Own}.

(** No entry is valid. *)
Definition void (s : buddy) (t : Z) (n : Z) : Prop := forall i, 0 <= i < n -> PTE_VALID (entry (memory s) t i) = false.

Lemma void_tree levels s t : void s t 512 ->
  (forall q, in_tree km levels (memory s) t q -> q = t) /\ (forall P, look km levels (memory s) t P = None).
Proof.
  intros Hv. split.
  - intros q Hq. destruct levels as [|levels]; destruct Hq as [Hq | Hq]; try done. destruct Hq as (i & Hi & Hn & _).
    apply NEXTPGT_VALID in Hn. by rewrite Hv in Hn.
  - intros P. destruct levels as [|levels]; cbn [look]; pose proof (Hv _ (digit_range 0 P)) as H0; [by rewrite H0 |].
    destruct (PTE_NEXTPGT _) eqn:Hn; [| done]. apply NEXTPGT_VALID in Hn. by rewrite Hv in Hn by apply digit_range.
Qed.

(** A range in which nothing is mapped. *)
Lemma shrunk_none levels t P k s (l : list Z) :
  Own s l -> tree_ok km levels (memory s) t ->
  (forall Q, Q / span levels = P / span levels -> P <= Q < P + k -> look km levels (memory s) t Q = None) ->
  shrunk (km := km) (Own := Own) levels t P k s l s l.
Proof using. intros HO Ht Hn. split; try done. intros Q HQ. case_decide; [by apply Hn | done]. Qed.

Definition free_spec (levels : nat) : Prop := forall s l t P,
  Own s l -> tree_ok km levels (memory s) t -> (forall q, in_tree km levels (memory s) t q -> q ∈ l) -> span_base levels P ->
  exists s' l', riscv_free_pgtable km g_buddy levels t s = Ok (tt, s') /\
    shrunk (km := km) (Own := Own) levels t P (span levels) s l s' l' /\ void s' t 512.

Section loop.
Context (levels : nat) (s : buddy) (l : list Z) (t P : Z).
Context (HO : Own s l) (Ht : tree_ok km levels (memory s) t) (Hin : forall q, in_tree km levels (memory s) t q -> q ∈ l).
Context (HP : span_base levels P).

(** The entries before [i] are done. *)
Definition free_inv (i : Z) (st : buddy) : Prop :=
  0 <= i /\ exists l1, shrunk (km := km) (Own := Own) levels t P (i * width levels) s l st l1 /\ void st t i.

Lemma free_step i st l1 st2 l2 :
  0 <= i < 512 -> shrunk (km := km) (Own := Own) levels t P (i * width levels) s l st l1 -> void st t i ->
  shrunk (km := km) (Own := Own) levels t (P + i * width levels) (width levels) st l1 st2 l2 ->
  (forall j, 0 <= j < i -> entry (memory st2) t j = entry (memory st) t j) -> PTE_VALID (entry (memory st2) t i) = false ->
  free_inv (i + 1) st2.
Proof using HP.
  intros Hi G1 Hv G2 Hsame Hnew. split; [lia |]. exists l2. pose proof (width_pos levels). split.
  - replace ((i + 1) * width levels) with (i * width levels + width levels) by lia.
    eapply shrunk_trans; [done | done | by apply below_entry | nia | lia].
  - intros j Hj. destruct (decide (j = i)) as [-> | Hne]; [done |]. rewrite Hsame by lia. apply Hv. lia.
Qed.

Lemma run_free body :
  (forall i a st, i < 512 -> free_inv i st -> exists st', body a i st = Ok (Next tt, st') /\ free_inv (i + 1) st') ->
  exists s' l', (for_up (R := unit) (Z.to_nat PTE_NUMS) 0 body tt;; ret tt) s = Ok (tt, s') /\
    shrunk (km := km) (Own := Own) levels t P (span levels) s l s' l' /\ void s' t 512.
Proof using HO Ht.
  intros Hb. destruct (for_up_ind body (fun i _ st => free_inv i st) (fun _ _ => False) 512) with
    (n := Z.to_nat PTE_NUMS) (i := 0) (a := tt) (s := s) as (r & s' & E & Hr).
  - intros i [] st Hi HI. destruct (Hb i tt st Hi HI) as (st' & E & H'). by exists (Next tt), st'.
  - done.
  - split; [done |]. exists l. split; [by apply shrunk_refl | by intros j Hj; lia].
  - mstep E. destruct r as [[] | []]; [| done]. destruct Hr as (_ & l' & G & Hv). exists s', l'.
    split; [done |]. by rewrite span_width.
Qed.
End loop.

(** One entry of a last-level table. *)
Lemma free_leaf s l t P i st :
  tree_ok km 0 (memory s) t -> span_base 0 P -> i < 512 -> free_inv 0 s l t P i st ->
  exists st', (when (PTE_VALID (entry (memory st) t i)) (set_pte t i 0);; ret (Next (R := unit) tt)) st = Ok (Next tt, st') /\
    free_inv 0 s l t P (i + 1) st'.
Proof using PS.
  intros Ht HP Hi (Hi0 & l1 & G & Hv). pose proof Ht as [Hu _]. pose proof Hu as [_ Htp _ _ _].
  destruct (below_entry 0 P i HP ltac:(lia)) as (_ & Hd & _). destruct (PTE_VALID (entry (memory st) t i)) eqn:Hvi; cbn [when].
  - pose proof (shrunk_leaf (PS := PS) t (P + i * width 0) st l1 (sh_own _ _ _ _ _ _ _ _ G) (sh_ok _ _ _ _ _ _ _ _ G)) as G2.
    rewrite Hd in G2. eexists. split; [reflexivity |]. eapply (free_step 0 s l t P HP i st l1 _ l1); try done.
    + intros j Hj. cbn [memory set_memory]. by rewrite entry_st64_other by lia.
    + cbn [memory set_memory]. by rewrite entry_st64_same by lia.
  - exists st. split; [done |]. eapply (free_step 0 s l t P HP i st l1 st l1); try done.
    apply shrunk_none; [apply G | apply G |]. intros Q HQ HQr. change (width 0) with 1 in *. assert (Q = P + i * 1) as -> by lia.
    cbn [look]. by rewrite Hd, Hvi.
Qed.

(** One entry of a table above. *)
Lemma free_descend levels s l t P i st :
  free_spec levels -> tree_ok km (S levels) (memory s) t -> (forall q, in_tree km (S levels) (memory s) t q -> q ∈ l) ->
  span_base (S levels) P -> i < 512 -> free_inv (S levels) s l t P i st ->
  let e := entry (memory st) t i in
  PTE_NEXTPGT e = true ->
  exists st', (riscv_free_pgtable km g_buddy levels (child km e);; set_pte t i 0;; bk_free km g_buddy (child km e);; ret (Next (R := unit) tt)) st
      = Ok (Next tt, st') /\ free_inv (S levels) s l t P (i + 1) st'.
Proof using PS.
  intros IH Ht Hin HP Hi (Hi0 & l1 & G & Hv) e Hn. set (c := child km e) in *.
  destruct (below_entry _ P i HP ltac:(lia)) as (Hb & Hd & Hw). set (P' := P + i * width (S levels)) in *.
  assert (Hin1 : forall q, in_tree km (S levels) (memory st) t q -> q ∈ l1) by (intros q Hq; by apply (shrunk_in _ _ _ _ _ _ _ _ q Hin G)).
  pose proof (sh_ok _ _ _ _ _ _ _ _ G) as Hok. pose proof Hok as [_ Hok'].
  destruct (Hok' i ltac:(lia) (NEXTPGT_VALID _ Hn)) as (_ & Hokc & _). fold e c in Hokc.
  destruct (IH st l1 c P') as (st1 & l2 & E1 & G1 & V1);
    [apply G | done | intros q Hq; apply Hin1; right; by exists i | by apply base_below |].
  mstep E1. rewrite <-width_S in G1.
  destruct (shrunk_child (km := km) (Own := Own) levels t P' (width (S levels)) st l1 st1 l2) as [Gs Hts];
    [done | done | by rewrite Hd | pose proof (width_pos (S levels)); lia | | by rewrite Hd |].
  { pose proof (base_below levels P i HP ltac:(lia)) as HB. fold P' in HB. unfold span_base in HB. rewrite width_S. lia. }
  assert (Ec : child km (entry (memory st1) t (digit (S levels) P')) = c) by (rewrite Hd, Hts by lia; done).
  destruct (void_tree levels st1 c V1) as [Vt Vl].
  destruct (shrunk_drop (PS := PS) levels t P' st1 l2 (sh_own _ _ _ _ _ _ _ _ Gs) (sh_ok _ _ _ _ _ _ _ _ Gs))
    as (st2 & l3 & E2 & G2 & He0 & Heo).
  { intros q Hq. by apply (shrunk_in _ _ _ _ _ _ _ _ q Hin1 Gs). }
  { by rewrite Hd, Hts by lia. }
  { by rewrite Ec. }
  { rewrite Ec. intros. apply Vl. }
  rewrite Ec, Hd in E2. rewrite Hd in He0, Heo. exists st2. split.
  - erewrite bind_Ok by reflexivity. by mstep E2.
  - eapply (free_step (S levels) s l t P HP i st l1 st2 l3); try done; [| | by rewrite He0].
    + by apply (shrunk_then _ _ _ _ _ _ st1 l2).
    + intros j Hj. rewrite Heo by lia. by apply Hts; lia.
Qed.

Lemma free_Ok levels : (levels <= 2)%nat -> free_spec levels.
Proof using PS.
  induction levels as [|levels IH]; intros Hl s l t P HO Ht Hin HP; cbn [riscv_free_pgtable].
  - unfold bind at 1, ASSERT at 1. cbn [index_of]. apply (run_free 0 s l t P HO Ht). intros i a st Hi HI.
    unfold get_pte. unfold bind at 1, gets at 1. fold (entry (memory st) t i). by apply free_leaf.
  - assert (0 <= index_of (S levels) < 2) as Hx by (unfold index_of; lia). unfold bind at 1, ASSERT at 1.
    rewrite (proj2 (Z.leb_le _ _)), (proj2 (Z.ltb_lt _ 3)) by lia. cbn [andb].
    apply (run_free (S levels) s l t P HO Ht). intros i a st Hi HI. unfold get_pte. unfold bind at 1, gets at 1.
    fold (entry (memory st) t i). rewrite (proj2 (Z.eqb_neq _ 2)) by lia. pose proof HI as (Hi0 & l1 & G & Hv).
    pose proof (sh_ok _ _ _ _ _ _ _ _ G) as [_ Hok']. destruct (PTE_NEXTPGT (entry (memory st) t i)) eqn:Hn.
    + destruct (Hok' i ltac:(lia) (NEXTPGT_VALID _ Hn)) as (_ & Hokc & _). pose proof (tree_usable km _ _ _ Hokc) as Hu.
      unfold bind at 1, ASSERT at 1. rewrite PTE2Pa_aligned. fold (child km (entry (memory st) t i)).
      rewrite (proj1 (usable_aligned (km := km) _ Hu)). cbn [andb]. apply free_descend; try done. apply IH. lia.
    + assert (PTE_VALID (entry (memory st) t i) = false) as Hvi.
      { destruct (PTE_VALID (entry (memory st) t i)) eqn:Hvi; [| done]. destruct (Hok' i ltac:(lia) Hvi) as (Hn' & _). congruence. }
      rewrite Hvi. exists st. split; [done |]. eapply (free_step (S levels) s l t P HP i st l1 st l1); try done.
      destruct (below_entry _ P i HP ltac:(lia)) as (Hb & Hd & Hw).
      apply shrunk_none; [apply G | apply G |]. intros Q HQ HQr. cbn [look].
      assert (digit (S levels) Q = i) as ->; [| by rewrite Hn]. rewrite <-Hd. apply same_width; [congruence |]. rewrite Hw.
      pose proof (width_pos (S levels)) as H. pose proof (span_width (S levels)) as Hs. unfold span_base in HP.
      clear -HP HQr Hs H. remember (P / span (S levels)) as q. apply div_unique; [done | nia].
Qed.
End free.

Lemma hw_unmap_all_Ok km g oth s l t :
  space (table_pages km g oth) km s l t -> PGFRAME_PA_START km + PGFRAME_SIZE km <= 2 ^ 56 ->
  exists s' l', __arch_hw_unmap_all km g t s = Ok (tt, s') /\ space (table_pages km g oth) km s' l' t /\
    (forall va, translate km s' t va = None) /\
    (forall q, q ∈ l' <-> q ∈ l /\ (q = t \/ ~ in_tree km 2 (memory s) t q)) /\ balance s' l' = balance s l /\
    (forall q, q mod 4096 = 0 -> ~ in_tree km 2 (memory s) t q -> bytes_same (memory s) (memory s') q).
Proof.
  intros S Hkm. pose proof (counted_source km g oth Hkm (balance s l)) as PS. pose proof S as [HO Ht Hin].
  destruct (free_Ok (PS := PS) 2 ltac:(lia) s l t 0 (conj HO eq_refl) Ht Hin eq_refl) as (s' & l' & E & G & V).
  destruct (void_tree (km := km) 2 s' t V) as [Vt Vl]. pose proof (sh_own _ _ _ _ _ _ _ _ G) as [HO' Hc].
  exists s', l'. split; [| split; [| split; [| split; [| split; [done |]]]]].
  - unfold __arch_hw_unmap_all. unfold bind at 1, ASSERT at 1. by rewrite (proj1 (space_root _ _ _ S)).
  - split; [done | apply G |]. intros q Hq. by apply (shrunk_in _ _ _ _ _ _ _ _ q Hin G).
  - intros va. unfold translate. by rewrite Vl.
  - intros q. split.
    + intros Hq. split; [by apply (sh_sub _ _ _ _ _ _ _ _ G) |]. destruct (decide (q = t)) as [| Hne]; [by left | right].
      intros Hi. by apply Hne, Vt, (sh_tight _ _ _ _ _ _ _ _ G).
    + intros [Hq Hor]. destruct (decide (q ∈ l')) as [| Hn]; [done |]. exfalso. destruct (sh_keep _ _ _ _ _ _ _ _ G q Hq Hn) as [H1 H2].
      destruct Hor as [-> | Hor]; [apply H2, in_tree_root | done].
  - apply G.
Qed.

(** C24: giving back a whole address space.  [__arch_hw_unmap_all] on a root
    table, whatever is mapped below it, succeeds: afterwards no address
    translates, and exactly the tables below the root went back to the page
    allocator and are free again; its other blocks and the bytes of all other
    pages are as before. *)
Theorem hw_unmap_all_frees km g rest s l t :
  page_tables km g rest s l t -> PGFRAME_PA_START km + PGFRAME_SIZE km <= 2 ^ 56 ->
  exists s' l', __arch_hw_unmap_all km g t s = Ok (tt, s') /\ page_tables km g rest s' l' t /\
    (forall va, translate km s' t va = None) /\
    (forall q, q ∈ l' <-> q ∈ l /\ (q = t \/ ~ in_tree km 2 (memory s) t q)) /\ balance s' l' = balance s l /\
    (forall q, q mod 4096 = 0 -> ~ in_tree km 2 (memory s) t q -> bytes_same (memory s) (memory s') q).
Proof.
  intros [b S] Hkm. destruct (hw_unmap_all_Ok km g _ s l t S Hkm) as (s' & l' & E & S' & H).
  exists s', l'. split; [done |]. split; [by exists b | done].
Qed.

Lemma hw_unmap_all_frees_witness :
  exists t s s' l', __arch_hw_unmap_all demo_km demo_g t s = Ok (tt, s') /\ page_tables demo_km demo_g [] s' l' t /\
    is_Some (translate demo_km s t 0x40001234) /\ translate demo_km s' t 0x40001234 = None.
Proof.
  destruct demo_space_mapped as (t & s & l & S & Hm).
  destruct (hw_unmap_all_frees demo_km demo_g [] s l t S demo_pa) as (s' & l' & E & S' & HL & _).
  exists t, s, s', l'. split; [exact E |]. split; [exact S' |]. split; [apply Hm; lia | apply HL].
Defined.
