(* ===== verification/KernelSpec.v ===== *)
(** * The kernel under an address space

    The page allocator, an object cache and the page tables share one memory:
    the cache and the tables live in pages of the allocator, and the lists of
    all three, with those of the caller, in one list memory.  [kernel_ok] is
    their common invariant; the lemmas below say that an operation of one of
    them keeps it, and what the operation leaves to the others. *)
From S2P Require Import Prelude DList KernelMap PageFrame Buddy Slab SlabSpec CacheSpec Sv39 Sv39Pte Sv39Tree Sv39Map Sv39Spec.

Definition with_rings (R : gmap Z (list Z)) (oth : others) : others :=
  mk_others (o_base oth) R (o_pages oth) (o_blocks oth).
(** A memory with other list nodes. *)
Definition set_heap (h : heap) (m : kmem) : kmem :=
  mk_kmem (set_frames (set_nodes h (frames_of (bud m))) (bud m)) (slabs m) (caches m).
Definition set_bud (B : buddy) (m : kmem) : kmem := mk_kmem B (slabs m) (caches m).

Section kernel.
Context (km : kernel_mapping) (g : Z) (stack_after : list Z).
(** The cache, and the geometry of its slabs. *)
Context (c n osize bsize : Z).
Notation nums := (PGFRAME_PAGE_NUMS km).

(** Not the head of a pool of the page allocator. *)
Definition no_pool (q : Z) : Prop := forall o, order_ok o -> q <> pool_list g o.

Record kernel_ok (oth : others) (l : list Z) (t : Z) (kc : kmem_cache) (X : cache_slabs) (m : kmem) : Prop := {
  ko_tables : Sv39Spec.space (table_pages km g oth) km (bud m) l t;
  ko_cache : caches m !! c = Some kc;
  ko_fields : kcache_ok n osize bsize kc X;
  ko_rings : rings_ok c (o_base oth) X (o_rings oth);
  ko_slabs : slabs_ok km n osize bsize (pgs (bud m)) (slabs m) (all_slabs X);
  ko_sorted : sorted_ok n X;
  ko_kept : forall x, x ∈ slab_pages X -> is_Some (o_pages oth !! x);
  ko_heads : forall q r, o_rings oth !! q = Some r -> no_pool q
}.

Lemma rings_none b L q : no_pool q -> rings g b L !! q = None.
Proof using.
  intros Hq. destruct (rings g b L !! q) as [l|] eqn:E; [| done].
  apply rings_lookup in E as (o & Ho & -> & _). by destruct (Hq o Ho).
Qed.

(** A node that is on no list, of the allocator or of others. *)
Definition free_node (oth : others) (x : Z) : Prop :=
  unlinked (o_rings oth) x /\ no_pool x /\ forall i, 0 <= i < nums -> x <> buddy_node (o_base oth) i.

Lemma kmem_eta m : m = KS (base (bud m)) (order_pools (bud m)) (memory (bud m)) (pgs (bud m)) (nds (bud m)) (slabs m) (caches m).
Proof using. by destruct m as [[[? ? ?] ? ?] ? ?]. Qed.

Section state.
Context (oth : others) (l : list Z) (t : Z) (kc : kmem_cache) (X : cache_slabs) (m : kmem).
Context (K : kernel_ok oth l t kc X m).

Lemma kernel_own : table_pages km g oth (bud m) l.
Proof using K. apply K. Qed.

(** The allocator's part, with its lists of free blocks. *)
Lemma kernel_inv : exists L,
  buddy_inv g nums (o_base oth) (o_rings oth) none (pgs (bud m)) (nds (bud m)) (order_pools (bud m)) L.
Proof using K. destruct kernel_own as [(_ & _ & L & I) _ _ _ _ <-]. by exists L. Qed.

Lemma kernel_ring q r : o_rings oth !! q = Some r -> dlist (nds (bud m)) q r.
Proof using K.
  intros Hq. pose proof (ko_heads _ _ _ _ _ _ K q r Hq) as Hno. destruct kernel_inv as (L & [_ I _]).
  apply (proj1 (pool_rings _ _ _ _ _ _ _ _ I)). rewrite lookup_union_r; [done | by apply rings_none].
Qed.

(** The cache's part. *)
Lemma kernel_cache L :
  buddy_inv g nums (o_base oth) (o_rings oth) none (pgs (bud m)) (nds (bud m)) (order_pools (bud m)) L ->
  cache_ok km c (o_base oth) n osize bsize (order_pools (bud m)) (memory (bud m)) kc X
    (rings g (o_base oth) L ∪ o_rings oth) m.
Proof using K.
  intros [_ I _]. exists (pgs (bud m)), (nds (bud m)), (slabs m), (caches m).
  split; [rewrite <-(tp_base _ _ _ _ _ kernel_own); apply kmem_eta |].
  split; [apply K |]. split; [apply I |]. split; [| split; [apply K | split; apply K]].
  destruct (ko_rings _ _ _ _ _ _ K) as [R1 R2 R3].
  split; (rewrite lookup_union_r; [done | eapply rings_none, (ko_heads _ _ _ _ _ _ K); done]).
Qed.

Lemma foreign_pages : foreign (o_rings oth) (o_base oth) (pgs (bud m)).
Proof using K. destruct kernel_inv as (L & [_ _ F]). exact F. Qed.
End state.

(** ** Changing the lists *)

(** The tables stay what they are when only lists change. *)
Lemma tables_relink oth R l t s s' L :
  Sv39Spec.space (table_pages km g oth) km s l t ->
  buddy_inv g nums (o_base oth) R none (pgs s') (nds s') (order_pools s') L ->
  base s' = base s -> pgs s' = pgs s -> memory s' = memory s ->
  Sv39Spec.space (table_pages km g (with_rings R oth)) km s' l t.
Proof using.
  intros [[(G & Hpl & _) Hnd Hpg Hr HK Hb] Ht Hi] I Eb Ep Em.
  split; [| by rewrite Em | by rewrite Em].
  split; rewrite ?Ep; try done; [| by rewrite Eb].
  split; [done |]. split; [intros o i Ho Hi'; rewrite Eb; by apply Hpl |].
  exists L. by rewrite Eb, Hb.
Qed.

Lemma kernel_relink oth l t kc X m R h' L :
  kernel_ok oth l t kc X m ->
  buddy_inv g nums (o_base oth) (o_rings oth) none (pgs (bud m)) (nds (bud m)) (order_pools (bud m)) L ->
  dlists h' (rings g (o_base oth) L ∪ R) -> dom (nds (bud m)) ⊆ dom h' ->
  foreign R (o_base oth) (pgs (bud m)) -> rings_ok c (o_base oth) X R ->
  (forall q r, R !! q = Some r -> no_pool q) -> kernel_ok (with_rings R oth) l t kc X (set_heap h' m).
Proof using.
  intros K [B [He _ Hn Hf] _] Hd Hdom HF HR Hno. destruct K. split; try done.
  apply (tables_relink oth R l t (bud m) _ L); try done. split; [done | | done]. split; try done.
  intros i Hi. apply Hdom. by apply Hn.
Qed.

Lemma free_node_unlinked oth P h O L x :
  buddy_inv g nums (o_base oth) (o_rings oth) none P h O L -> free_node oth x ->
  unlinked (rings g (o_base oth) L ∪ o_rings oth) x.
Proof using.
  intros [B [_ _ _ Hf] _] (Hu & Hp & Hb). apply unlinked_union; [| done].
  intros q r (o & Ho & -> & ->)%rings_lookup [-> | Hin]%elem_of_cons; [by apply (Hp o) |].
  apply list_elem_of_fmap in Hin as (i & -> & Hi). apply Hf in Hi as (p & Hi & _); [| done].
  by apply (Hb i (Buddy.page_range _ _ _ _ _ B Hi)).
Qed.

(** A node of no list is written. *)
Lemma kernel_node oth l t kc X m x h' :
  kernel_ok oth l t kc X m -> free_node oth x -> (forall q, q <> x -> h' !! q = nds (bud m) !! q) ->
  dom (nds (bud m)) ⊆ dom h' -> kernel_ok oth l t kc X (set_heap h' m).
Proof using.
  intros K Hx Hh Hdom. destruct (kernel_inv _ _ _ _ _ _ K) as (L & I).
  pose proof (free_node_unlinked _ _ _ _ _ _ I Hx) as Hu. destruct oth as [ob R K0 bl].
  apply (kernel_relink (mk_others ob R K0 bl) l t kc X m R h' L K I);
    [| done | by apply (foreign_pages _ _ _ _ _ _ K) | apply K | apply K]. cbn in *.
  apply (dlists_frame (nds (bud m))); [apply I |]. intros k r q Hk Hq. apply Hh. intros ->. by apply (Hu k r).
Qed.

(** A list of others is changed; it may take free nodes in. *)
Lemma kernel_list oth l t kc X m q r r' T h' :
  kernel_ok oth l t kc X m -> o_rings oth !! q = Some r -> q ∉ heads c ->
  dlist h' q r' -> touches (nds (bud m)) h' T ->
  (forall x, x ∈ T -> x ∈ q :: r \/ free_node oth x) -> (forall x, x ∈ r' -> x ∈ q :: r \/ free_node oth x) ->
  kernel_ok (with_rings (<[q := r']> (o_rings oth)) oth) l t kc X (set_heap h' m).
Proof using.
  intros K Hq Hh Hd Ht HT Hr'. pose proof (ko_heads _ _ _ _ _ _ K q r Hq) as Hno. destruct (kernel_inv _ _ _ _ _ _ K) as (L & I).
  pose proof (fun x => free_node_unlinked _ _ _ _ _ x I) as Hu.
  apply (kernel_relink oth l t kc X m _ h' L K I).
  - rewrite <-insert_union_r by (by apply rings_none).
    apply (dlists_touch (nds (bud m)) h' _ q r r' T); try done; [apply I | | |].
    + by rewrite lookup_union_r by (by apply rings_none).
    + intros x [? | ?]%HT; auto.
    + intros x [? | ?]%Hr'; auto.
  - by rewrite (proj1 Ht).
  - intros i p Hi Hp k s. pose proof (foreign_pages _ _ _ _ _ _ K i p Hi Hp) as Hf.
    rewrite lookup_insert_Some. intros [[<- <-] | [_ Hk]]; [| by apply (Hf k s)].
    intros Hin. assert (buddy_node (o_base oth) i ∈ q :: r \/ free_node oth (buddy_node (o_base oth) i)) as [H | (_ & _ & H)].
    { apply elem_of_cons in Hin as [-> | Hin]; [left; by left | by apply Hr']. }
    + by apply (Hf q r).
    + destruct I as [B _ _]. by apply (H i (Buddy.page_range _ _ _ _ _ B Hi)).
  - destruct (ko_rings _ _ _ _ _ _ K) as [R1 R2 R3].
    split; (rewrite lookup_insert_ne; [done |]; intros ->; apply Hh; unfold heads; set_solver).
  - intros k s. rewrite lookup_insert_Some. intros [[<- _] | [_ Hk]]; [done |]. by eapply (ko_heads _ _ _ _ _ _ K).
Qed.

(** ** Objects of the cache *)

(** The lists of the cache, among those of others. *)
Definition relist (oth : others) (X : cache_slabs) : gmap Z (list Z) :=
  <[free_of c := d_node (o_base oth) <$> cs_free X]> (<[partial_of c := d_node (o_base oth) <$> cs_partial X]>
    (<[full_of c := d_node (o_base oth) <$> cs_full X]> (o_rings oth))).

Lemma relist_rings oth X : rings_ok c (o_base oth) X (relist oth X).
Proof using.
  destruct (heads_apart c) as (H1 & H2 & H3). unfold relist.
  split; rewrite ?lookup_insert_eq, ?lookup_insert_ne, ?lookup_insert_eq by done; done.
Qed.
Lemma relist_other oth X q : q ∉ heads c -> relist oth X !! q = o_rings oth !! q.
Proof using.
  unfold heads. intros Hq. unfold relist. rewrite !lookup_insert_ne; [done | ..]; intros <-; apply Hq; set_solver.
Qed.

(** The rings of [oth'] are those of [oth] but for the heads of the cache. *)
Record same_others (oth oth' : others) : Prop := {
  sm_base : o_base oth' = o_base oth;
  sm_pages : o_pages oth' = o_pages oth;
  sm_blocks : o_blocks oth' = o_blocks oth;
  sm_rings : forall q, q ∉ heads c -> o_rings oth' !! q = o_rings oth !! q
}.

Lemma heads_cases q : q ∈ heads c <-> q = free_of c \/ q = partial_of c \/ q = full_of c.
Proof using. unfold heads. set_solver. Qed.

Lemma relist_family oth X F L :
  (forall q, q ∈ heads c -> no_pool q) -> rings_ok c (o_base oth) X F ->
  (forall q, q ∉ heads c -> F !! q = (rings g (o_base oth) L ∪ o_rings oth) !! q) ->
  F = rings g (o_base oth) L ∪ relist oth X.
Proof using.
  intros Hno [R1 R2 R3] HF. destruct (relist_rings oth X) as [Q1 Q2 Q3]. apply map_eq. intros q.
  destruct (decide (q ∈ heads c)) as [Hq | Hq].
  - rewrite lookup_union_r by (by apply rings_none, Hno).
    apply heads_cases in Hq as [-> | [-> | ->]]; congruence.
  - rewrite HF by done. destruct (rings g (o_base oth) L !! q) as [r|] eqn:E.
    + by rewrite !(lookup_union_Some_l _ _ _ r).
    + by rewrite !lookup_union_r, relist_other.
Qed.

(** No page of the allocator is on a list of the cache. *)
Lemma relist_foreign oth X P SL :
  foreign (o_rings oth) (o_base oth) P -> slabs_ok km n osize bsize P SL (all_slabs X) ->
  (forall q, q ∈ heads c -> is_Some (o_rings oth !! q)) -> foreign (relist oth X) (o_base oth) P.
Proof using.
  intros HF [Hsl _ _] Hh i p Hi Ht q r. destruct (decide (q ∈ heads c)) as [Hq | Hq].
  2:{ rewrite relist_other by done. by apply (HF i p). }
  intros Hr [<- | Hin]%elem_of_cons.
  - destruct (Hh _ Hq) as [r' Hr']. apply (HF i p Hi Ht _ _ Hr'). by left.
  - assert (exists d, d ∈ all_slabs X /\ d_node (o_base oth) d = buddy_node (o_base oth) i) as (d & Hd & En).
    { unfold all_slabs. destruct (relist_rings oth X) as [Q1 Q2 Q3].
      apply heads_cases in Hq as [-> | [-> | ->]]; simplify_eq; apply list_elem_of_fmap in Hin as (d & ? & Hd);
        exists d; (split; [rewrite !elem_of_app; auto | done]). }
    apply buddy_node_inj in En as <-. rewrite Forall_forall in Hsl.
    destruct (Hsl d Hd) as [(p' & Hp' & _ & Hs & _) _ _ _]. congruence.
Qed.

Lemma heads_no_pool oth l t kc X m : kernel_ok oth l t kc X m -> forall q, q ∈ heads c -> no_pool q.
Proof using.
  intros K q [-> | [-> | ->]]%heads_cases; eapply (ko_heads _ _ _ _ _ _ K); apply (ko_rings _ _ _ _ _ _ K).
Qed.

Lemma kernel_cache_step oth l t kc X m L kc' X' F m' :
  kernel_ok oth l t kc X m ->
  buddy_inv g nums (o_base oth) (o_rings oth) none (pgs (bud m)) (nds (bud m)) (order_pools (bud m)) L ->
  cache_ok km c (o_base oth) n osize bsize (order_pools (bud m)) (memory (bud m)) kc' X' F m' ->
  only_cache km c X (rings g (o_base oth) L ∪ o_rings oth) F m m' -> slab_pages X' ≡ₚ slab_pages X ->
  kernel_ok (with_rings (relist oth X') oth) l t kc' X' m'.
Proof using.
  intros K I (P' & h' & SL' & CA' & -> & Hk & Hd & HR & Hsl & Hso & Hkc) [HF HP Hdom _ _] Hpg.
  cbn in HP, Hdom. fold (pgs (bud m)) in HP. fold (nds (bud m)) in Hdom. subst P'.
  pose proof (relist_family oth X' F L (heads_no_pool _ _ _ _ _ _ K) HR HF) as ->.
  pose proof (foreign_pages _ _ _ _ _ _ K) as Hf. pose proof K as [KT KC KF KR KS1 KSo KK KH].
  assert (foreign (relist oth X') (o_base oth) (pgs (bud m))) as Hf'.
  { apply (relist_foreign oth X' _ SL'); [done | done |]. destruct KR as [R1 R2 R3].
    intros q [-> | [-> | ->]]%heads_cases; eauto. }
  split; cbn [bud KS]; try done; [| exact (relist_rings oth X') | intros x Hx; apply KK; by rewrite <-Hpg |].
  2:{ intros q r. destruct (decide (q ∈ heads c)) as [Hq | Hq]; [by intros _; eapply heads_no_pool |].
    cbn [o_rings with_rings]. rewrite relist_other by done. by apply KH. }
  apply (tables_relink oth _ l t (bud m) _ L); try done.
  - destruct I as [B [He Hr Hn Hff] _]. split; [done | | done]. split; try done.
    intros i Hi. cbn. rewrite Hdom. by apply Hn.
  - cbn. symmetry. apply (kernel_own _ _ _ _ _ _ K).
Qed.

Lemma same_relist oth X : same_others oth (with_rings (relist oth X) oth).
Proof using. split; try done. intros q Hq. by apply relist_other. Qed.

(** Only the number of free objects of the cache has changed. *)
Record same_cache (kc : kmem_cache) (X : cache_slabs) (kc' : kmem_cache) (X' : cache_slabs) : Prop := {
  sc_fields : exists v, kc' = with_obj_num v kc;
  sc_pages : slab_pages X' ≡ₚ slab_pages X
}.

Lemma kernel_cache_alloc oth l t kc X m L a F m' kc' :
  kernel_ok oth l t kc X m ->
  buddy_inv g nums (o_base oth) (o_rings oth) none (pgs (bud m)) (nds (bud m)) (order_pools (bud m)) L ->
  F = rings g (o_base oth) L ∪ o_rings oth -> kc' = with_obj_num (obj_num kc - 1) kc ->
  handed km c (o_base oth) n osize bsize (order_pools (bud m)) (memory (bud m)) kc X F m a m' ->
  exists oth' X', a <> NULL /\ kernel_ok oth' l t kc' X' m' /\ same_others oth oth' /\ same_cache kc X kc' X' /\
    available osize X ≡ₚ a :: available osize X' /\ objects n osize X' ≡ₚ objects n osize X /\
    memory (bud m') = memory (bud m) /\ dom (nds (bud m')) = dom (nds (bud m)) /\ rest_pages (bud m') = rest_pages (bud m).
Proof using.
  intros K I -> -> (Ha & X' & F' & HC & HA & HO & HL & HP). exists (with_rings (relist oth X') oth), X'.
  split; [done |]. split; [by eapply kernel_cache_step |]. split; [apply same_relist |]. split; [split; [by eexists | done] |].
  do 2 (split; [done |]). split; [by destruct HC as (P' & h' & SL' & CA' & -> & _) |]. split; [apply HL |].
  by destruct HC as (P' & h' & SL' & CA' & -> & _).
Qed.

Lemma kernel_alloc oth l t kc X m :
  kernel_ok oth l t kc X m -> c <> NULL -> 0 < n -> available osize X <> [] ->
  exists a m' oth' kc' X', kmem_obj_alloc km g stack_after c m = Ok (a, m') /\ a <> NULL /\
    kernel_ok oth' l t kc' X' m' /\ same_others oth oth' /\ available osize X ≡ₚ a :: available osize X' /\
    objects n osize X' ≡ₚ objects n osize X /\ memory (bud m') = memory (bud m) /\
    dom (nds (bud m')) = dom (nds (bud m)) /\ same_cache kc X kc' X' /\ rest_pages (bud m') = rest_pages (bud m).
Proof using.
  intros K Hc Hn Hav. destruct (kernel_inv _ _ _ _ _ _ K) as (L & I).
  destruct (kmem_obj_alloc_Ok km g stack_after c _ n osize bsize _ _ kc X _ m (kernel_cache _ _ _ _ _ _ K L I) Hc Hn Hav)
    as (a & m' & E & Hh).
  destruct (kernel_cache_alloc _ _ _ _ _ _ L a _ m' _ K I eq_refl eq_refl Hh) as (oth' & X' & ? & ? & ? & ? & ? & ? & ? & ? & ?).
  by eexists a, m', oth', _, X'.
Qed.

Lemma kernel_alloc_none oth l t kc X m :
  kernel_ok oth l t kc X m -> available osize X = [] -> pg_orlimit kc <= pg_orhas kc ->
  kmem_obj_alloc km g stack_after c m = Ok (NULL, m).
Proof using.
  intros K Hav Hl. destruct (kernel_inv _ _ _ _ _ _ K) as (L & I).
  eapply kmem_obj_alloc_none; [by apply (kernel_cache _ _ _ _ _ _ K L I) | done | done].
Qed.

Lemma kernel_free oth l t kc X m a :
  kernel_ok oth l t kc X m -> c <> NULL -> a ∈ objects n osize X -> a ∉ available osize X ->
  exists m' oth' kc' X', kmem_obj_free km c a m = Ok (tt, m') /\
    kernel_ok oth' l t kc' X' m' /\ same_others oth oth' /\ available osize X' ≡ₚ a :: available osize X /\
    objects n osize X' ≡ₚ objects n osize X /\ memory (bud m') = memory (bud m) /\
    dom (nds (bud m')) = dom (nds (bud m)) /\ same_cache kc X kc' X' /\ rest_pages (bud m') = rest_pages (bud m).
Proof using stack_after.
  intros K Hc Ha Hav. destruct (kernel_inv _ _ _ _ _ _ K) as (L & I).
  assert (a <> NULL) as Hn.
  { intros ->. by apply (objects_pos km n osize bsize _ _ _ (ko_slabs _ _ _ _ _ _ K)). }
  destruct (kmem_obj_free_Ok km g stack_after c _ n osize bsize _ _ kc X _ m a (kernel_cache _ _ _ _ _ _ K L I) Hc Hn Ha Hav)
    as (m' & E & X' & F & HC & HA & HO & HL & HP).
  exists m', (with_rings (relist oth X') oth), (with_obj_num (obj_num kc + 1) kc), X'.
  split; [done |]. split; [by eapply kernel_cache_step |]. split; [apply same_relist |].
  do 2 (split; [done |]). split; [| split; [apply HL | split; [split; [by eexists | done] |]]];
  by destruct HC as (P' & h' & SL' & CA' & -> & _).
Qed.

(** The cache takes no node that is not its own. *)
Lemma free_node_same oth oth' l t kc X m l' t' kc' X' m' x :
  kernel_ok oth l t kc X m -> kernel_ok oth' l' t' kc' X' m' -> same_others oth oth' ->
  free_node oth x -> free_node oth' x.
Proof using.
  intros K K' [Sb _ _ Sr] (Hu & Hp & Hb). split; [| split; [done |]]; [| by rewrite Sb].
  intros q r Hq. destruct (decide (q ∈ heads c)) as [Hh | Hh]; [| rewrite Sr in Hq by done; by apply (Hu q r)].
  destruct (ko_rings _ _ _ _ _ _ K) as [R1 R2 R3]. destruct (ko_rings _ _ _ _ _ _ K') as [Q1 Q2 Q3].
  assert (x <> q) as Hne.
  { intros ->. apply heads_cases in Hh as [-> | [-> | ->]];
      [apply (Hu _ _ R1) | apply (Hu _ _ R2) | apply (Hu _ _ R3)]; by left. }
  apply not_elem_of_cons. split; [done |]. intros Hin.
  assert (exists d, d ∈ all_slabs X' /\ d_node (o_base oth') d = x) as (d & Hd & <-).
  { unfold all_slabs. apply heads_cases in Hh as [-> | [-> | ->]]; simplify_eq; apply list_elem_of_fmap in Hin as (d & -> & Hd);
      exists d; (split; [rewrite !elem_of_app; auto | done]). }
  destruct (ko_slabs _ _ _ _ _ _ K') as [HS _ _]. rewrite Forall_forall in HS.
  destruct (HS d Hd) as [(p & Hp' & _) _ _ _]. destruct (kernel_own _ _ _ _ _ _ K') as [W _ _ _ _ _].
  apply (Hb (d_pg d)); [| by unfold d_node; rewrite Sb]. eapply page_known; [exact W | exact Hp'].
Qed.

(** ** Page tables *)

Lemma slabs_ok_pages P P' SL A :
  (forall x, x ∈ d_pg <$> A -> P' !! x = P !! x) -> slabs_ok km n osize bsize P SL A -> slabs_ok km n osize bsize P' SL A.
Proof using.
  intros HP [H1 H2 H3]. split; [| done | done]. rewrite Forall_forall in *. intros d Hd.
  destruct (H1 d Hd) as [S1 S2 S3 S4]. split; try done. rewrite HP; [done |]. by apply list_elem_of_fmap_2.
Qed.

(** An operation of the page tables that kept the tables' own invariant. *)
Lemma kernel_tables oth l t kc X m B l' :
  kernel_ok oth l t kc X m -> Sv39Spec.space (table_pages km g oth) km B l' t -> kernel_ok oth l' t kc X (set_bud B m).
Proof using.
  intros [KT KC KF KR KS1 KSo KK KH] S. split; try done. cbn [bud set_bud].
  apply (slabs_ok_pages (pgs (bud m))); [| done]. intros x [p Hp]%KK.
  destruct KT as [T _ _], S as [T' _ _]. rewrite (proj1 (proj2 (tp_kept _ _ _ _ _ T x p Hp))).
  by apply (tp_kept _ _ _ _ _ T' x p Hp).
Qed.
End kernel.
