(* ===== verification/BlockSpec.v ===== *)
(** * Blocks of pages beside the page tables

    A block that the kernel takes from the page allocator for its own use: its
    descriptor changes hands while the page tables, the object cache and the
    lists of others stay what they are. *)
From S2P Require Import Prelude DList KernelMap PageFrame Buddy Slab SlabSpec CacheSpec Sv39 Sv39Pte Sv39Tree Sv39Map Sv39Spec KernelSpec.

(** The allocator with another descriptor of the page [x]. *)
Definition put_page (x : Z) (p : pageframe) (s : buddy) : buddy :=
  St (base s) (<[x := p]> (pgs s)) (nds s) (order_pools s) (memory s).

Lemma put_put_page x p p' s : put_page x p' (put_page x p s) = put_page x p' s.
Proof. unfold put_page. apply St_eq; [apply insert_insert_eq | done]. Qed.
Lemma put_page_at x p s : pgs (put_page x p s) !! x = Some p.
Proof. apply lookup_insert_eq. Qed.

Lemma lock_at s x p : pgs s !! x = Some p -> page_lk p = 1 -> lock_pgfm x s = Ok (tt, put_page x (with_lk 0 p) s).
Proof. intros Hp Hl. rewrite (buddy_eta s) at 1. by apply lock_pgfm_Ok. Qed.
Lemma unlock_at s x p : pgs s !! x = Some p -> page_lk p = 0 -> unlock_pgfm x s = Ok (tt, put_page x (with_lk 1 p) s).
Proof. intros Hp Hl. rewrite (buddy_eta s) at 1. by apply unlock_pgfm_Ok. Qed.
Lemma get_at s x p : pgs s !! x = Some p -> get_page x s = Ok (p, s).
Proof. intros Hp. rewrite (buddy_eta s). by apply get_page_Ok. Qed.
Lemma set_at s x f p : pgs s !! x = Some p -> set_page x f s = Ok (tt, put_page x (f p) s).
Proof. intros Hp. rewrite (buddy_eta s) at 1. by apply set_page_Ok. Qed.

(** The head of an allocated block, before and after a change that does not
    concern the allocator. *)
Record remains_head (p p' : pageframe) : Prop := {
  rh_head : buddy_flags p = 2;
  rh_order : order_ok (buddy_order p);
  rh_flags : buddy_flags p' = 2;
  rh_same : buddy_order p' = buddy_order p;
  rh_lock : page_lk p' = 1
}.
(** The same of a block that is not a slab. *)
Record changes (p p' : pageframe) : Prop := {
  ch_remains : remains_head p p';
  ch_type : pgtype p <> SLAB_ALLOCATOR
}.

Lemma changes_intro p p' : buddy_flags p = 2 -> order_ok (buddy_order p) -> pgtype p <> SLAB_ALLOCATOR ->
  buddy_flags p' = 2 -> buddy_order p' = buddy_order p -> page_lk p' = 1 -> changes p p'.
Proof. by split; [split |]. Qed.

Definition with_pages (K : gmap Z pageframe) (oth : others) : others :=
  mk_others (o_base oth) (o_rings oth) K (o_blocks oth).

Section blocks.
Context (km : kernel_mapping) (g : Z).
Notation nums := (PGFRAME_PAGE_NUMS km).

Lemma buddy_over_head Ext s x p p' :
  buddy_over km g Ext s -> pgs s !! x = Some p -> remains_head p p' -> foreign Ext (base s) (<[x := p']> (pgs s)) ->
  buddy_over km g Ext (put_page x p' s).
Proof using.
  intros (G & Hpl & L & [B I F]) Hp [C1 C2 C4 C5 C6] HF. split; [done |]. split; [done |]. exists L. split; [| | done].
  - apply (blocks_head _ _ _ x p); try done; [split; [done | by left] | split; [by rewrite C5 | by left]].
  - destruct I as [I1 I2 I3 I4]. split; try done. intros o i Ho. rewrite (I4 o i Ho).
    change (free_at (pgs s) o i <-> free_at (<[x := p']> (pgs s)) o i). rewrite free_at_update. split.
    + intros Hf. right. split; [| done]. intros ->. destruct Hf as (q & Hq & ? & _). simplify_eq. lia.
    + intros [(_ & ? & _) | [_ ?]]; [lia | done].
Qed.

Lemma table_pages_head oth K' s l x p p' :
  table_pages km g oth s l -> pgs s !! x = Some p -> remains_head p p' ->
  foreign (o_rings oth) (o_base oth) (<[x := p']> (pgs s)) -> pg2va km x ∉ l -> x ∉ (o_blocks oth).*1 ->
  (forall y q, K' !! y = Some q -> y = x /\ q = p' \/ y <> x /\ o_pages oth !! y = Some q) ->
  table_pages km g (with_pages K' oth) (put_page x p' s) l.
Proof using.
  intros [W Hnd Hpg Hr HK Hb] Hp C HF Hxl Hxb HK'. split; [eapply buddy_over_head; [done | done | done |]; by rewrite Hb | done | | | | done].
  - intros v Hv. destruct (Hpg v Hv) as (y & -> & Hy & q & Hq). exists y. do 2 (split; [done |]). exists q.
    cbn. rewrite lookup_insert_ne by by intros ->. done.
  - intros y o Hy. destruct (Hr y o Hy) as (Ho & (q & Hq) & Hn). split; [done |]. split; [| done]. exists q. cbn.
    rewrite lookup_insert_ne; [done |]. intros ->. apply Hxb. apply list_elem_of_fmap. by exists (y, o).
  - intros y q [[-> ->] | [Hne Hy]]%HK'; cbn.
    + rewrite lookup_insert_eq. split; [left; apply C | done].
    + rewrite lookup_insert_ne by done. by apply HK.
Qed.

Lemma table_pages_put oth K' s l x p p' :
  table_pages km g oth s l -> pgs s !! x = Some p -> changes p p' -> pg2va km x ∉ l -> x ∉ (o_blocks oth).*1 ->
  (forall y q, K' !! y = Some q -> y = x /\ q = p' \/ y <> x /\ o_pages oth !! y = Some q) ->
  table_pages km g (with_pages K' oth) (put_page x p' s) l.
Proof using.
  intros T Hp [C Ct] Hxl Hxb HK'. apply (table_pages_head oth K' s l x p p'); try done.
  destruct T as [(_ & _ & L & I) _ _ _ _ <-]. apply (foreign_update _ _ _ x p); [apply I | done | done].
Qed.

(** The pages of a block and the tables have no byte in common. *)
Lemma block_apart oth s l x o v :
  table_pages km g oth s l -> order_ok o -> allocated (pgs s) x o -> pg2va km x ∉ l -> v ∈ l ->
  v + 4096 <= pg2va km x \/ pg2va km x + 4096 * 2 ^ o <= v.
Proof using.
  intros [(G & Hpl & L & I) Hnd Hpg Hr HK Hb] Ho Hx Hxl Hv. destruct (Hpg v Hv) as (y & -> & Hy & Hal).
  assert (0 <= x < nums) as Hxr.
  { destruct (allocated_head _ _ _ Hx Ho) as (p & Hp & _). by apply (Buddy.page_range _ _ _ _ _ (inv_blocks _ _ _ _ _ _ _ _ _ I) Hp). }
  rewrite !(pg2va_eq km G) by done. assert (x <> y) as Hne by by intros ->.
  pose proof (inv_blocks _ _ _ _ _ _ _ _ _ I) as B.
  destruct (decide (x < y)).
  - pose proof (blocks_disjoint _ _ x o y 0 B Ho order_0 Hx Hal ltac:(lia)). lia.
  - pose proof (blocks_disjoint _ _ y 0 x o B order_0 Ho Hal Hx ltac:(lia)). change (2 ^ 0) with 1 in *. lia.
Qed.

(** Clearing a block does not touch the tables. *)
Lemma space_fill oth s l t x o :
  Sv39Spec.space (table_pages km g oth) km s l t -> order_ok o -> allocated (pgs s) x o -> pg2va km x ∉ l ->
  let s' := set_memory (fill (pg2va km x) (4096 * 2 ^ o) 0 (memory s)) s in
  Sv39Spec.space (table_pages km g oth) km s' l t /\ (forall a, translate km s' t a = translate km s t a) /\
    (tight km s l t -> tight km s' l t).
Proof using.
  intros [T Ht Hi] Ho Hx Hxl s'.
  assert (forall q, in_tree km 2 (memory s) t q -> page_same (memory s) (memory s') q) as Hs.
  { intros q Hq. apply bytes_page_same. intros a Ha. cbn. unfold fill.
    destruct (block_apart oth s l x o q T Ho Hx Hxl (Hi q Hq)); destruct (Z.leb_spec (pg2va km x) a), (Z.ltb_spec a (pg2va km x + 4096 * 2 ^ o));
      cbn; try done; lia. }
  split; [split |].
  - destruct T as [W Hnd Hpg Hr HK Hb]. split; [by apply buddy_over_memory | done ..].
  - by apply (tree_ok_frame km 2 (memory s)).
  - intros q Hq. apply Hi. by apply (in_tree_frame km 2 (memory s) (memory s')).
  - split; [intros a; unfold translate; by rewrite (look_frame km 2 (memory s)) |].
    intros HT q Hq. apply (in_tree_frame km 2 (memory s)); [done | by apply HT].
Qed.

(** The kernel with other page tables and descriptors. *)
Lemma kernel_pages c n osize bsize oth K' l l' t kc X m B :
  kernel_ok km g c n osize bsize oth l t kc X m -> Sv39Spec.space (table_pages km g (with_pages K' oth)) km B l' t ->
  (forall x, x ∈ slab_pages X -> K' !! x = o_pages oth !! x) ->
  kernel_ok km g c n osize bsize (with_pages K' oth) l' t kc X (set_bud B m).
Proof using.
  intros [KT KC KF KR KS1 KSo KK KH] S HX. split; try done; cbn [bud set_bud o_pages with_pages].
  - apply (slabs_ok_pages km n osize bsize (pgs (bud m))); [| done]. intros x Hx. destruct (KK x Hx) as [p Hp].
    destruct KT as [T _ _], S as [T' _ _]. rewrite (proj1 (proj2 (tp_kept _ _ _ _ _ T x p Hp))).
    apply (tp_kept _ _ _ _ _ T' x p). cbn. by rewrite HX.
  - intros x Hx. rewrite HX by done. by apply KK.
Qed.

Lemma kernel_slab_page c n osize bsize oth l t kc X m x :
  kernel_ok km g c n osize bsize oth l t kc X m -> x ∈ slab_pages X ->
  exists p, pgs (bud m) !! x = Some p /\ pgtype p = SLAB_ALLOCATOR.
Proof using.
  intros K (d & -> & Hd)%list_elem_of_fmap. destruct (ko_slabs _ _ _ _ _ _ _ _ _ _ _ _ K) as [HS _ _].
  rewrite Forall_forall in HS. destruct (so_page _ _ _ _ _ _ _ (HS d Hd)) as (p & Hp & _ & Ht & _). by exists p.
Qed.
End blocks.
