(* ===== verification/GrowSpec.v ===== *)
(** * Growth of a cache

    A cache without free objects takes a block of pages, makes it a slab and
    goes on with it: [grow] and the rest of [kmem_obj_alloc] over the whole of
    the page allocator, the other slabs and the page tables ([kernel_ok]). *)
From S2P Require Import Prelude DList Cpu Locks KernelMap PageFrame Buddy Slab FreeQueue SlabSpec CacheSpec Sv39 Sv39Pte Sv39Tree Sv39Map Sv39Spec KernelSpec BlockSpec.

Section grow.
Context (km : kernel_mapping) (g : Z) (stack_after : list Z).
Context (c n osize bsize : Z).
Notation nums := (PGFRAME_PAGE_NUMS km).
Notation kernel_ok := (kernel_ok km g c n osize bsize).

(** What a cache must be so that it can grow: its fields agree with the
    geometry of its slabs, it counts them, and all of them together do not
    overflow its counters. *)
Record growable (oth : others) (kc : kmem_cache) (X : cache_slabs) : Prop := {
  gr_order : order_ok (pg_order kc);
  gr_size : kc_obj_size kc = osize /\ 0 < osize < bsize;
  gr_number : n = slab_num bsize osize /\ 0 < n;
  gr_count : pg_orhas kc = Z.of_nat (length (all_slabs X));
  gr_limit : pg_orlimit kc < 2 ^ 31 /\ n * pg_orlimit kc < 2 ^ 31;
  gr_blocks : forall x, x ∈ slab_pages X -> exists p, o_pages oth !! x = Some p /\ buddy_order p = pg_order kc
}.

Lemma objects_length X : 0 <= n -> Z.of_nat (length (objects n osize X)) = n * Z.of_nat (length (all_slabs X)).
Proof using.
  intros Hn. unfold objects. induction (all_slabs X) as [|d A IH]; [cbn; lia |].
  cbn [length mbind list_bind]. rewrite length_app. unfold d_objs at 1. rewrite length_fmap, length_seqZ. lia.
Qed.

Lemma growable_block oth kc X s : kcache_ok n osize bsize kc s -> growable oth kc X -> bsize = 4096 * 2 ^ pg_order kc.
Proof using.
  intros [_ Hb _ _] G. rewrite Hb, fill_size by apply G. pose proof (pow_order _ (gr_order _ _ _ G)). apply s32_small. lia.
Qed.

(** The cache with another lock, as it is while an object is allocated. *)
Definition relock (w : Z) (kc : kmem_cache) (m : kmem) : kmem :=
  mk_kmem (bud m) (slabs m) (<[c := with_kc_lk w kc]> (caches m)).

(** The kernel after the block at [x] has become a slab with objects from
    [start] on. *)
Definition slab_page (p : pageframe) : pageframe := with_type SLAB_ALLOCATOR p.
Definition new_desc (x start : Z) : slab_desc := mk_desc x start (seqZ 0 n).
Definition with_slab (d : slab_desc) (X : cache_slabs) : cache_slabs := mk_slabs (cs_free X ++ [d]) (cs_partial X) (cs_full X).
Definition grown_cache (kc : kmem_cache) : kmem_cache :=
  with_pg_orhas (pg_orhas kc + 1) (with_obj_num (obj_num kc + n) (with_color (next_color (color_offset kc)) kc)).

(** A block of order [o] has left the allocator; the page tables are what they
    were. *)
Record block_taken (l : list Z) (t o : Z) (s s' : buddy) : Prop := {
  bt_translate : forall a, translate km s' t a = translate km s t a;
  bt_tight : tight km s l t -> tight km s' l t;
  bt_pages : rest_pages s' = rest_pages s - 2 ^ o
}.
Lemma block_taken_then l t o s s1 s2 :
  block_taken l t o s s1 -> memory s2 = memory s1 -> rest_pages s2 = rest_pages s1 -> block_taken l t o s s2.
Proof using.
  intros [H1 H2 H3] Em Er. split; [| | congruence].
  - intros a. rewrite <-H1. unfold translate. by rewrite Em.
  - intros HT q Hq. unfold in_tree. rewrite Em. by apply H2.
Qed.

Section step.
Context (oth : others) (l : list Z) (t : Z) (kc : kmem_cache) (X : cache_slabs) (m : kmem).
Context (K : kernel_ok oth l t kc X m) (G : growable oth kc X).

(** The block, cleared and marked as a slab. *)
Lemma grow_block :
  bkp_alloc_zero km g (pg_order kc) (bud m) = Ok (None, bud m) \/
  exists x p s1, bkp_alloc_zero km g (pg_order kc) (bud m) = Ok (Some x, s1) /\
    pgs s1 !! x = Some p /\ page_lk p = 1 /\ buddy_flags p = 2 /\ buddy_order p = pg_order kc /\ pgtype p = PAGE_BUDDYALLOCATOR /\
    Sv39Spec.space (table_pages km g oth) km s1 l t /\ unused km oth l x /\ 0 <= x /\ x + 2 ^ pg_order kc <= nums /\
    block_taken l t (pg_order kc) (bud m) s1.
Proof using K G.
  pose proof (gr_order _ _ _ G) as Ho. destruct (ko_tables _ _ _ _ _ _ _ _ _ _ _ _ K) as [T Ht Hi].
  destruct (table_pages_take km g oth _ l (pg_order kc) T) as [E | (_ & x & s1 & E & T1 & Hh & Hx & Hu)].
  - left. unfold bkp_alloc_zero. by mstep E.
  - right. pose proof Hh as [A _ _ _ M _]. destruct A as (p & Hp & Hf & Hod & Hty).
    assert (Sv39Spec.space (table_pages km g oth) km s1 l t) as S1 by (split; [done | by rewrite M | by rewrite M]).
    destruct (space_fill km g oth s1 l _ x _ S1 Ho (ho_block _ _ _ _ Hh) (un_table _ _ _ _ Hu)) as (S2 & Htr & HT).
    exists x, p. eexists. split; [unfold bkp_alloc_zero; mstep E; rewrite fill_size by done; reflexivity |].
    split; [done |]. split.
    { destruct (tp_wf _ _ _ _ _ T1) as (_ & _ & L & I). by apply (blk_lk _ _ _ (inv_blocks _ _ _ _ _ _ _ _ _ I) x). }
    do 3 (split; [done |]). split; [exact S2 |]. split; [done |].
    destruct (hands_out_range km g _ _ _ x _ (tp_wf _ _ _ _ _ T1) Ho Hh). do 2 (split; [done |]).
    split; [intros a; rewrite Htr; unfold translate; by rewrite M | |].
    + intros HT0. apply HT. intros q Hq. unfold in_tree. rewrite M. by apply HT0.
    + rewrite <-(ho_pages _ _ _ _ Hh). done.
Qed.
End step.

(** ** The new slab *)

Lemma set_type_at s x p ty :
  pgs s !! x = Some p -> page_lk p = 1 ->
  (lock_pgfm x;; set_page x (with_type ty);; unlock_pgfm x)%aco s = Ok (tt, put_page x (with_type ty p) s).
Proof using.
  intros Hp Hl. mstep (lock_at s x p Hp Hl). mstep (set_at (put_page x (with_lk 0 p) s) x (with_type ty) _ (put_page_at _ _ _)).
  rewrite put_put_page, (unlock_at _ x _ (put_page_at _ _ _)), put_put_page by done.
  do 3 f_equal. destruct p. cbn in Hl. by subst.
Qed.

Lemma relock_page s x p : pgs s !! x = Some p -> page_lk p = 1 ->
  lock_pgfm x s = Ok (tt, put_page x (with_lk 0 p) s) /\ unlock_pgfm x (put_page x (with_lk 0 p) s) = Ok (tt, s).
Proof using.
  intros Hp Hl. split; [by apply lock_at |]. rewrite (unlock_at _ x _ (put_page_at _ _ _)), put_put_page by done.
  do 2 f_equal. unfold put_page. rewrite with_lk_id by done.
  rewrite insert_id by done. symmetry. apply buddy_eta.
Qed.

Lemma at_bud {A} (f : M buddy A) B SL CA r B' : f B = Ok (r, B') -> on_bud f (mk_kmem B SL CA) = Ok (r, mk_kmem B' SL CA).
Proof using. intros E. unfold on_bud, zoom. cbn. by rewrite E. Qed.

(** [set_pgfm_aslab] and [init_slab]. *)
Lemma aslab_Ok B SL CA x p :
  pgs B !! x = Some p -> page_lk p = 1 -> buddy_flags p = 2 -> pgtype p = PAGE_BUDDYALLOCATOR ->
  set_pgfm_aslab x (mk_kmem B SL CA) = Ok (tt, mk_kmem (put_page x (slab_page p) B) SL CA).
Proof using.
  intros Hp Hl Hf Ht. unfold set_pgfm_aslab. apply at_bud. mstep (get_at B x p Hp).
  rewrite Ht, Hf, bool_decide_true by done. mstep (eq_refl (ASSERT (true && (2 =? PG_BUDDY_FLAG_HEAD)) B)).
  by apply set_type_at.
Qed.

Lemma init_slab_Ok B SL CA x p off :
  pgs B !! x = Some p -> page_lk p = 1 -> buddy_flags p = 2 -> pgtype p = SLAB_ALLOCATOR -> order_ok (buddy_order p) ->
  bsize = 4096 * 2 ^ buddy_order p -> 0 < osize < bsize -> n = slab_num bsize osize -> 0 < n -> (3 <= length stack_after)%nat ->
  0 < pg2va km x -> pg2va km x mod 4096 = 0 -> pg2va km x + bsize < 2 ^ 64 ->
  exists s start, init_slab km stack_after x osize off (mk_kmem B SL CA) = Ok (Some (pg2va km x), mk_kmem B (<[pg2va km x := s]> SL) CA) /\
    slab_geometry n osize start /\ slab_inv n osize start s (seqZ 0 n) /\
    pg2va km x < start /\ start + n * osize <= pg2va km x + bsize.
Proof using.
  intros Hp Hl Hf Ht Ho Hb Hos Hn Hn0 Hst Hva Hal Hend. pose proof (pow_order _ Ho) as Hpo.
  assert (slab_region (pg2va km x) bsize osize) as Hreg.
  { split; [lia | apply aligned_true; [lia | done] | unfold sizeof_slab_t; lia | done]. }
  destruct (init_slab_xip_Ok stack_after _ _ _ off SL Hreg Hst) as [[E _] | (s & start & E & Hg & Hi & H1 & H2)]; [lia |].
  rewrite <-Hn in Hg, Hi, H1, H2. exists s, start. unfold sizeof_slab_t, sizeof_int in H1. split; [| split; [done |]; split; [done | lia]].
  destruct (relock_page B x p Hp Hl) as [EL EU]. unfold init_slab.
  mstep (at_bud _ B SL CA _ _ (get_at B x p Hp)). rewrite Ht, Hf, bool_decide_true by done.
  mstep (eq_refl (ASSERT (true && (2 =? PG_BUDDY_FLAG_HEAD)) (mk_kmem B SL CA))). mstep (at_bud _ B SL CA _ _ EL).
  rewrite fill_size, s32_small, <-Hb by (done || lia).
  erewrite bind_Ok; [| unfold on_slabs; apply zoom_Ok; exact E]. cbn [bud slabs caches].
  by mstep (at_bud _ _ (<[pg2va km x := s]> SL) CA _ _ EU).
Qed.

(** A block that belongs to the allocator's clients is on no list. *)
Lemma alloc_node_unlinked Ext s x p :
  buddy_over km g Ext s -> pgs s !! x = Some p -> buddy_flags p = 2 ->
  forall L b, buddy_inv g nums b Ext none (pgs s) (nds s) (order_pools s) L -> b = base s ->
  unlinked (rings g b L) (buddy_node b x).
Proof using.
  intros (_ & Hpl & _) Hp Hf L b [B I _] ->. intros q r (o & Ho & -> & ->)%rings_lookup.
  pose proof (Buddy.page_range _ _ _ _ _ B Hp) as Hx.
  apply not_elem_of_cons. split; [intros E; by apply (Hpl o x) |].
  intros (y & Ey & Hy)%list_elem_of_fmap. apply buddy_node_inj in Ey. subst y.
  apply (pool_free _ _ _ _ _ _ _ _ I o x Ho) in Hy as (q & Hq & Hq3 & _). simplify_eq. lia.
Qed.

Section cache_steps.
Context (B : buddy) (SL : gmap Z slab_t) (CA : gmap Z kmem_cache) (k : kmem_cache).
Notation st k := (mk_kmem B SL (<[c := k]> CA)).
Lemma get_cache_at : get_cache c (st k) = Ok (k, st k).
Proof using. unfold get_cache, on_caches, zoom. cbn. by rewrite (load_Ok _ _ _ (lookup_insert_eq CA c k)). Qed.
Lemma set_cache_at f : set_cache c f (st k) = Ok (tt, st (f k)).
Proof using.
  unfold set_cache, on_caches, zoom. cbn. rewrite (update_Ok _ _ _ _ (lookup_insert_eq CA c k)). by rewrite insert_insert_eq.
Qed.
End cache_steps.

Section new.
Context (oth : others) (l : list Z) (t : Z) (kc : kmem_cache) (X : cache_slabs) (m : kmem).
Context (K : kernel_ok oth l t kc X m) (G : growable oth kc X).
(** The allocator [s1] has given the block at [x], which is now a slab. *)
Context (s1 : buddy) (x : Z) (p : pageframe).
Context (HS : Sv39Spec.space (table_pages km g oth) km s1 l t) (Hu : unused km oth l x).
Context (Hp : pgs s1 !! x = Some p) (Hl : page_lk p = 1) (Hf : buddy_flags p = 2).
Context (Ho : buddy_order p = pg_order kc) (Ht : pgtype p = PAGE_BUDDYALLOCATOR).
Notation B2 := (put_page x (slab_page p) s1).
Notation K' := (<[x := slab_page p]> (o_pages oth)).

Lemma marked_space : Sv39Spec.space (table_pages km g (with_pages K' oth)) km B2 l t.
Proof using All.
  destruct HS as [T Htr Hi]. destruct Hu as [U1 U2 U3]. split; [| done | done].
  apply (table_pages_put km g oth K' _ l x p); try done.
  - apply changes_intro; try done; [rewrite Ho; apply G | by rewrite Ht].
  - intros y q. rewrite lookup_insert_Some. intros [[<- <-] | [Hne Hy]]; [by left | right]. done.
Qed.

Lemma marked_wf : buddy_over km g (o_rings oth) B2 /\ base B2 = o_base oth.
Proof using All. destruct marked_space as [T _ _]. split; apply T. Qed.

(** The pages of the other slabs, before and after. *)
Lemma slab_page_kept y : y ∈ slab_pages X -> y <> x /\ pgs B2 !! y = pgs (bud m) !! y /\
  exists q, pgs B2 !! y = Some q /\ is_head q /\ buddy_order q = pg_order kc.
Proof using All.
  intros Hy. destruct (gr_blocks _ _ _ G y Hy) as (q & Hq & Hqo).
  assert (y <> x) as Hne by (intros ->; by rewrite (un_page _ _ _ _ Hu) in Hq).
  pose proof marked_space as [T2 _ _]. pose proof (kernel_own _ _ _ _ _ _ _ _ _ _ _ _ K) as T0.
  assert (pgs B2 !! y = Some q) as E2 by (apply (tp_kept _ _ _ _ _ T2 y q); cbn; by rewrite lookup_insert_ne).
  assert (pgs (bud m) !! y = Some q) as E0 by (by apply (tp_kept _ _ _ _ _ T0 y q)).
  split; [done |]. split; [congruence |]. exists q. split; [done |]. split; [| done].
  destruct (kernel_slab_page _ _ _ _ _ _ _ _ _ _ _ _ _ K Hy) as (q' & Hq' & _).
  apply list_elem_of_fmap in Hy as (d & -> & Hd). destruct (ko_slabs _ _ _ _ _ _ _ _ _ _ _ _ K) as [HA _ _].
  rewrite Forall_forall in HA. destruct (so_page _ _ _ _ _ _ _ (HA d Hd)) as (q2 & Hq2 & _ & _ & Hfl).
  assert (q2 = q) as -> by congruence. split; [rewrite Hqo; apply G | by left].
Qed.

(** Two blocks of one order do not overlap. *)
Lemma slab_apart d : d ∈ all_slabs X ->
  d_addr km d + bsize <= pg2va km x \/ pg2va km x + bsize <= d_addr km d.
Proof using All.
  intros Hd. assert (d_pg d ∈ slab_pages X) as Hy by by apply list_elem_of_fmap_2.
  destruct (slab_page_kept _ Hy) as (Hne & _ & q & Hq & Hhq & Hqo).
  destruct marked_wf as [(Geo & _ & L & [B _ _]) _]. rewrite (growable_block _ _ _ _ (ko_fields _ _ _ _ _ _ _ _ _ _ _ _ K) G).
  assert (pgs B2 !! x = Some (slab_page p)) as Hx by apply put_page_at.
  assert (is_head (slab_page p)) as Hhx by (split; [cbn; rewrite Ho; apply G | by left]).
  pose proof (Buddy.page_range _ _ _ _ _ B Hq). pose proof (Buddy.page_range _ _ _ _ _ B Hx).
  unfold d_addr. rewrite !(pg2va_eq km Geo) by done.
  destruct (Z.lt_total (d_pg d) x) as [Hlt | [Heq | Hlt]]; [| done |].
  - pose proof (heads_disjoint _ _ _ _ _ _ B Hq Hhq Hx Hhx Hlt) as Hd'. rewrite Hqo in Hd'. lia.
  - pose proof (heads_disjoint _ _ _ _ _ _ B Hx Hhx Hq Hhq Hlt) as Hd'. cbn in Hd'. rewrite Ho in Hd'. lia.
Qed.

Lemma new_slabs start s :
  slab_geometry n osize start -> slab_inv n osize start s (seqZ 0 n) -> pg2va km x < start ->
  start + n * osize <= pg2va km x + bsize -> pg2va km x + bsize < 2 ^ 64 ->
  slabs_ok km n osize bsize (pgs B2) (<[pg2va km x := s]> (slabs m)) (all_slabs (with_slab (new_desc x start) X)).
Proof using All.
  intros Hg Hi H1 H2 H3. pose proof (gr_size _ _ _ G) as [_ Hos].
  assert (all_slabs (with_slab (new_desc x start) X) ≡ₚ new_desc x start :: all_slabs X) as ->.
  { unfold all_slabs. cbn. rewrite <-app_assoc. cbn. by rewrite <-Permutation_middle. }
  pose proof (slabs_ok_pages km n osize bsize _ (pgs B2) _ _ (fun y Hy => proj1 (proj2 (slab_page_kept y Hy)))
    (ko_slabs _ _ _ _ _ _ _ _ _ _ _ _ K)) as [HA Hap Hnd].
  split.
  - constructor.
    + split; cbn; [| | done | done].
      * exists (slab_page p). split; [apply put_page_at |]. done.
      * exists s. split; [apply lookup_insert_eq | done].
    + rewrite Forall_forall in HA. apply Forall_forall. intros d Hd. destruct (HA d Hd) as [S1 (s' & S2 & S2') S3 S4].
      split; [done | | done | done]. exists s'. split; [| done]. rewrite lookup_insert_ne; [done |].
      intros E. pose proof (slab_apart d Hd). lia.
  - intros d e [-> | Hd]%elem_of_cons [-> | He]%elem_of_cons Hne; [done | | |].
    + cbn. destruct (slab_apart e He); unfold d_addr in *; cbn; lia.
    + cbn. by apply slab_apart.
    + by apply Hap.
  - cbn. apply NoDup_cons. split; [| done]. intros Hin. by destruct (slab_page_kept x Hin).
Qed.

Lemma new_list :
  exists h', list_add_tail (buddy_node (o_base oth) x) (free_of c) (nds B2) = Ok (tt, h') /\ forall start SL CA kc',
    slabs_ok km n osize bsize (pgs B2) SL (all_slabs (with_slab (new_desc x start) X)) ->
    kcache_ok n osize bsize kc' (with_slab (new_desc x start) X) -> CA !! c = Some kc' -> 0 <= n ->
    kernel_ok (with_rings (<[free_of c := (d_node (o_base oth) <$> cs_free X) ++ [buddy_node (o_base oth) x]]> (o_rings oth))
      (with_pages K' oth)) l t kc' (with_slab (new_desc x start) X)
      (mk_kmem (set_frames (set_nodes h' (frames_of B2)) B2) SL CA).
Proof using All.
  destruct marked_wf as [W Eb]. pose proof W as (Geo & Hpl & L & I). pose proof I as [Bl [I1 I2 I3 I4] HF]. rewrite Eb in *.
  pose proof (ko_rings _ _ _ _ _ _ _ _ _ _ _ _ K) as [R1 R2 R3]. pose proof (ko_heads _ _ _ _ _ _ _ _ _ _ _ _ K) as Hno.
  set (node := buddy_node (o_base oth) x). set (R := <[free_of c := (d_node (o_base oth) <$> cs_free X) ++ [node]]> (o_rings oth)).
  assert (unlinked (o_rings oth) node) as Hun.
  { destruct HS as [[(_ & _ & L1 & [_ _ F1]) _ _ _ _ Eb1] _ _]. unfold node. rewrite <-Eb1. by apply (F1 x p Hp); rewrite Ht. }
  assert (pgs B2 !! x = Some (slab_page p)) as Hx by apply put_page_at.
  pose proof (Buddy.page_range _ _ _ _ _ Bl Hx) as Hxr.
  assert (unlinked (rings g (o_base oth) L ∪ o_rings oth) node) as Hun2.
  { apply unlinked_union; [| done]. by apply (alloc_node_unlinked (o_rings oth) B2 x (slab_page p) W Hx Hf L (o_base oth)). }
  destruct (dlists_add_tail (nds B2) _ (free_of c) (d_node (o_base oth) <$> cs_free X) node I2) as (h' & E & D & Hdom);
    [rewrite lookup_union_r; [done |]; by eapply rings_none, Hno | by apply I3 | done |].
  rewrite insert_union_r in D by (by eapply rings_none, Hno). fold R in D.
  exists h'. split; [done |]. intros start SL CA kc' Hs Hk HC Hn. pose proof marked_space as S2.
  assert (foreign R (o_base oth) (pgs B2)) as HFR.
  { intros i q Hi Hq k r. unfold R. rewrite lookup_insert_Some. intros [[<- <-] | [_ Hr]]; [| by apply (HF i q Hi Hq k r)].
    pose proof (HF i q Hi Hq _ _ R1) as Hn1. intros Hin. apply elem_of_cons in Hin as [Eq | Hin]; [apply Hn1; rewrite Eq; by left |].
    apply elem_of_app in Hin as [Hin | Hin]; [apply Hn1; by right |]. apply list_elem_of_singleton, buddy_node_inj in Hin. subst i.
    assert (q = slab_page p) as -> by congruence. by apply Hq. }
  split; cbn [bud slabs caches].
  - apply (tables_relink km g (with_pages K' oth) R l t B2 _ L S2); try done. split; [done | | done].
    split; [done | done | | done]. intros i Hi. cbn. rewrite Hdom. by apply I3.
  - done.
  - done.
  - destruct (heads_apart c) as (N1 & N2 & N3). split; cbn; unfold R.
    + rewrite lookup_insert_eq, fmap_app. done.
    + by rewrite lookup_insert_ne.
    + by rewrite lookup_insert_ne.
  - done.
  - destruct (ko_sorted _ _ _ _ _ _ _ _ _ _ _ _ K) as [Z1 Z2 Z3]. split; cbn; [| done | done].
    apply Forall_app. split; [done |]. apply Forall_singleton. cbn. rewrite length_seqZ. lia.
  - intros y Hy. cbn. destruct (decide (y = x)) as [-> | Hne]; [rewrite lookup_insert_eq; eauto |].
    rewrite lookup_insert_ne by done. apply (ko_kept _ _ _ _ _ _ _ _ _ _ _ _ K).
    apply list_elem_of_fmap in Hy as (d & -> & Hd). apply list_elem_of_fmap_2. unfold all_slabs in *. cbn in Hd.
    rewrite !elem_of_app, list_elem_of_singleton in Hd. rewrite !elem_of_app. destruct Hd as [[? | ->] | ?]; [tauto | by destruct Hne | tauto].
  - intros q r. cbn. unfold R. rewrite lookup_insert_Some. intros [[<- _] | [_ Hr]]; [by eapply Hno | by eapply Hno].
Qed.

Lemma with_slab_objects start :
  objects n osize (with_slab (new_desc x start) X) ≡ₚ objects n osize X ++ d_objs n osize (new_desc x start) /\
  available osize (with_slab (new_desc x start) X) ≡ₚ available osize X ++ d_objs n osize (new_desc x start).
Proof using.
  unfold objects, available, all_slabs. cbn [with_slab cs_free cs_partial cs_full].
  rewrite <-app_assoc, !bind_app. cbn. rewrite !app_nil_r, <-!app_assoc.
  split; f_equiv; (etransitivity; [apply Permutation_app_comm |]; by rewrite <-!app_assoc).
Qed.

Lemma grown_fields start : pg_orhas kc < pg_orlimit kc ->
  kcache_ok n osize bsize (grown_cache kc) (with_slab (new_desc x start) X) /\
  s32 (obj_num kc + n) = obj_num kc + n /\ s32 (pg_orhas kc + 1) = pg_orhas kc + 1.
Proof using K G.
  intros Hlt. destruct (ko_fields _ _ _ _ _ _ _ _ _ _ _ _ K) as [C1 C2 C3 C4]. destruct G as [G1 G2 [_ Gn] G4 [G5 G6] G7].
  pose proof (available_sub _ _ _ _ _ _ _ (ko_slabs _ _ _ _ _ _ _ _ _ _ _ _ K)) as Hle%submseteq_length.
  destruct (with_slab_objects start) as [HO HA]. set (X' := with_slab (new_desc x start) X) in *.
  assert (length (d_objs n osize (new_desc x start)) = Z.to_nat n) as Hd by (unfold d_objs; by rewrite length_fmap, length_seqZ).
  apply Permutation_length in HO, HA. rewrite length_app, Hd in HO, HA. pose proof (objects_length X ltac:(lia)) as HL.
  split; [split | split; [apply s32_small; nia | apply s32_small; lia]]; try done; [| rewrite HO; nia].
  change (obj_num kc + n = Z.of_nat (length (available osize X'))). lia.
Qed.

(** [link_slab]: the list of free slabs takes the page, the cache counts it. *)
Lemma link_slab_Ok start s w :
  slab_geometry n osize start -> slab_inv n osize start s (seqZ 0 n) -> pg2va km x < start ->
  start + n * osize <= pg2va km x + bsize -> pg2va km x + bsize < 2 ^ 64 -> pg_orhas kc < pg_orlimit kc ->
  let SL := <[pg2va km x := s]> (slabs m) in
  exists B3, pgs B3 = pgs B2 /\ (memory B3 = memory B2 /\ rest_pages B3 = rest_pages B2) /\
    link_slab c x (pg2va km x) (mk_kmem B2 SL (<[c := with_kc_lk w kc]> (caches m))) =
      Ok (tt, mk_kmem B3 SL (<[c := with_kc_lk w (grown_cache kc)]> (caches m))) /\
    kernel_ok (with_rings (<[free_of c := (d_node (o_base oth) <$> cs_free X) ++ [buddy_node (o_base oth) x]]> (o_rings oth))
      (with_pages K' oth)) l t (grown_cache kc) (with_slab (new_desc x start) X) (mk_kmem B3 SL (<[c := grown_cache kc]> (caches m))).
Proof using All.
  intros Hg Hi H1 H2 H3 Hlt SL. pose proof (gr_number _ _ _ G) as [Gn Gn0].
  pose proof (new_slabs start s Hg Hi H1 H2 H3) as Hsl. fold SL in Hsl.
  destruct (grown_fields start Hlt) as (Hk & En & Eh). destruct new_list as (h' & El & HK). destruct marked_wf as [_ Eb].
  set (B3 := set_frames (set_nodes h' (frames_of B2)) B2) in *.
  assert (obj_all s = n /\ obj_free s = n) as [Ea Ef].
  { split; [by apply (si_all _ _ _ _ _ Hi) |]. rewrite (si_free _ _ _ _ _ Hi), length_seqZ. lia. }
  assert (pgs B2 !! x = Some (slab_page p)) as Hx2 by apply put_page_at. destruct (relock_page B2 x _ Hx2 Hl) as [EL EU].
  assert (pgs B3 !! x = Some (slab_page p)) as Hx3 by apply put_page_at. destruct (relock_page B3 x _ Hx3 Hl) as [_ EU3].
  exists B3. split; [done |]. split; [done |]. split; [| apply (HK start SL _ _ Hsl Hk); [apply lookup_insert_eq | lia]].
  set (CA := caches m) in *. unfold link_slab.
  assert (get_slab (pg2va km x) (mk_kmem B2 SL (<[c := with_kc_lk w kc]> CA)) = Ok (s, mk_kmem B2 SL (<[c := with_kc_lk w kc]> CA))) as Egs.
  { unfold get_slab, on_slabs, zoom. cbn. by rewrite (load_Ok SL _ _ (lookup_insert_eq (slabs m) (pg2va km x) s)). }
  mstep Egs. rewrite Ea, Ef, Z.eqb_refl. mstep (eq_refl (ASSERT true (mk_kmem B2 SL (<[c := with_kc_lk w kc]> CA)))).
  do 3 (erewrite bind_Ok; [| apply set_cache_at]). cbn [pg_orhas obj_num with_obj_num with_color with_kc_lk color_offset]. rewrite En, Eh.
  set (CA3 := <[c := _]> CA). mstep (at_bud _ B2 SL CA3 _ _ EL).
  assert (page_node x (mk_kmem (put_page x (with_lk 0 (slab_page p)) B2) SL CA3) =
    Ok (buddy_node (o_base oth) x, mk_kmem (put_page x (with_lk 0 (slab_page p)) B2) SL CA3)) as Epn.
  { unfold page_node, gets. cbn. unfold base in Eb. cbn in Eb. by rewrite Eb. }
  mstep Epn.
  assert (on_list (list_add_tail (buddy_node (o_base oth) x) (free_of c)) (mk_kmem (put_page x (with_lk 0 (slab_page p)) B2) SL CA3) =
    Ok (tt, mk_kmem (put_page x (with_lk 0 (slab_page p)) B3) SL CA3)) as Eadd.
  { unfold on_list. apply at_bud. unfold on_nodes, on_frames, zoom, in_nodes. cbn. unfold zoom. cbn. cbn in El. by rewrite El. }
  mstep Eadd. rewrite (at_bud _ _ SL CA3 _ _ EU3). unfold CA3. by destruct kc.
Qed.
End new.

(** ** [grow] *)


(** What growth leaves to others: their blocks, pages, lists; the pages of the
    new slab are the only new ones. *)
Record more_others (oth oth' : others) (x : Z) (p : pageframe) : Prop := {
  mo_base : o_base oth' = o_base oth;
  mo_new : o_pages oth !! x = None;
  mo_pages : o_pages oth' = <[x := p]> (o_pages oth);
  mo_blocks : o_blocks oth' = o_blocks oth;
  mo_rings : forall q, q ∉ heads c -> o_rings oth' !! q = o_rings oth !! q;
  mo_slab : pgtype p = SLAB_ALLOCATOR /\ buddy_flags p = 2
}.

Lemma grown_growable oth R kc X x start p :
  growable oth kc X -> buddy_order p = pg_order kc -> pg_orhas kc < pg_orlimit kc ->
  growable (with_rings R (with_pages (<[x := slab_page p]> (o_pages oth)) oth)) (grown_cache kc) (with_slab (new_desc x start) X).
Proof using.
  intros [G1 G2 G3 G4 G5 G6] Ho Hlt. split; try done; cbn.
  - rewrite G4. unfold with_slab, all_slabs. cbn. rewrite !length_app. cbn. lia.
  - intros y Hy. destruct (decide (y = x)) as [-> | Hne]; [rewrite lookup_insert_eq; eauto |].
    rewrite lookup_insert_ne by done. apply G6.
    apply list_elem_of_fmap in Hy as (d & -> & Hd). apply list_elem_of_fmap_2. unfold all_slabs in *. cbn in Hd.
    rewrite !elem_of_app, list_elem_of_singleton in Hd. rewrite !elem_of_app. destruct Hd as [[? | ->] | ?]; [tauto | by destruct Hne | tauto].
Qed.

Lemma grow_Ok oth l t kc X m w :
  kernel_ok oth l t kc X m -> growable oth kc X -> pg_orhas kc < pg_orlimit kc -> (3 <= length stack_after)%nat ->
  (grow km g stack_after c (relock w kc m) = Ok (false, relock w kc m) /\
    bkp_alloc_zero km g (pg_order kc) (bud m) = Ok (None, bud m)) \/
  exists x p start oth' m', grow km g stack_after c (relock w kc m) = Ok (true, relock w (grown_cache kc) m') /\
    let X' := with_slab (new_desc x start) X in
    kernel_ok oth' l t (grown_cache kc) X' m' /\ growable oth' (grown_cache kc) X' /\ more_others oth oth' x p /\
    0 <= x /\ (x + 2 ^ pg_order kc <= nums /\ buddy_order p = pg_order kc) /\ block_taken l t (pg_order kc) (bud m) (bud m').
Proof using.
  intros K G Hlt Hst. pose proof (gr_size _ _ _ G) as [Gs Gb]. pose proof (gr_number _ _ _ G) as [Gn Gn0].
  unfold grow, relock. mstep (get_cache_at (bud m) (slabs m) (caches m) (with_kc_lk w kc)). cbn [pg_order with_kc_lk].
  destruct (grow_block _ _ _ _ _ _ K G) as [E | (x & p & s1 & E & Hp & Hl & Hf & Ho & Ht & HS & Hu & Hx0 & Hx1 & Htr)];
    mstep (at_bud _ _ (slabs m) (<[c := with_kc_lk w kc]> (caches m)) _ _ E); [left; by split | right].
  mstep (aslab_Ok s1 (slabs m) (<[c := with_kc_lk w kc]> (caches m)) x p Hp Hl Hf Ht). set (B2 := put_page x (slab_page p) s1).
  mstep (get_cache_at B2 (slabs m) (caches m) (with_kc_lk w kc)). cbn [kc_obj_size color_offset with_kc_lk]. rewrite Gs.
  destruct (marked_wf _ _ _ _ _ _ K G s1 x p HS Hu Hp Hl Hf Ho Ht) as [(Geo & _) _].
  pose proof (growable_block _ _ _ _ (ko_fields _ _ _ _ _ _ _ _ _ _ _ _ K) G) as Hbs. pose proof (pow_order _ (gr_order _ _ _ G)) as Hpo.
  assert (pg2va km x = PGFRAME_VA_START km + 4096 * x) as Eva by (apply (pg2va_eq km Geo); lia).
  assert (pg2va km x mod 4096 = 0) as Hal by (destruct Geo; rewrite Eva, Z.mul_comm, Z.mod_add by lia; done).
  assert (0 < pg2va km x /\ pg2va km x + bsize < 2 ^ 64) as [Hva Hend] by (destruct Geo; rewrite Eva, Hbs; lia).
  assert (pgs B2 !! x = Some (slab_page p)) as Hx2 by apply put_page_at.
  destruct (init_slab_Ok B2 (slabs m) (<[c := with_kc_lk w kc]> (caches m)) x (slab_page p) (color_offset kc) Hx2 Hl Hf eq_refl)
    as (s & start & Es & Hg & Hi & H1 & H2); [by (cbn; rewrite Ho; apply G) | by (cbn; rewrite Ho) | done .. |].
  mstep Es. destruct (link_slab_Ok _ _ _ _ _ _ K G s1 x p HS Hu Hp Hl Hf Ho Ht start s w Hg Hi H1 H2 Hend Hlt) as (B3 & EP & [EM ER] & El & HK).
  mstep El. eexists x, (slab_page p), start, _, (mk_kmem B3 _ (<[c := grown_cache kc]> (caches m))).
  split; [unfold ret, relock; cbn; by rewrite insert_insert_eq |].
  cbn zeta. split; [exact HK |]. split; [by apply grown_growable |]. split; [| split; [done | split; [by split |]]].
  - split; try done; [apply Hu |]. intros q Hq. cbn. rewrite lookup_insert_ne; [done |]. intros <-. apply Hq. by left.
  - by apply (block_taken_then l t _ _ s1).
Qed.

(** ** [kmem_obj_alloc] of an exhausted cache *)

Context (Hstack : (3 <= length stack_after)%nat).

Lemma unlock_relocked kc m : kc_lk kc = 1 -> caches m !! c = Some kc -> unlock_cache c (relock 0 kc m) = Ok (tt, m).
Proof using.
  intros Hl Hk. unfold unlock_cache, relock. rewrite set_cache_at. destruct kc as [lk ? ? ? ? ? ?], m as [B SL CA]. cbn in *. subst lk.
  by rewrite insert_id.
Qed.

(** The cache with [j] more slabs. *)
Definition same_kind (kc kc' : kmem_cache) (j : Z) : Prop :=
  pg_orlimit kc' = pg_orlimit kc /\ pg_order kc' = pg_order kc /\ pg_orhas kc' = pg_orhas kc + j.

Lemma kernel_grow_alloc oth l t kc X m :
  kernel_ok oth l t kc X m -> growable oth kc X -> c <> NULL -> available osize X = [] -> pg_orhas kc < pg_orlimit kc ->
  (kmem_obj_alloc km g stack_after c m = Ok (NULL, m) /\ bkp_alloc_zero km g (pg_order kc) (bud m) = Ok (None, bud m)) \/
  exists x p a m' oth' kc' X', kmem_obj_alloc km g stack_after c m = Ok (a, m') /\ a <> NULL /\
    kernel_ok oth' l t kc' X' m' /\ growable oth' kc' X' /\ more_others oth oth' x p /\
    0 <= x /\ (x + 2 ^ pg_order kc <= nums /\ buddy_order p = pg_order kc /\ slab_pages X' ≡ₚ x :: slab_pages X) /\
    (exists new, objects n osize X' ≡ₚ objects n osize X ++ new /\ a :: available osize X' ≡ₚ new) /\
    same_kind kc kc' 1 /\ block_taken l t (pg_order kc) (bud m) (bud m').
Proof using Hstack.
  intros K G Hc Hav Hlt. pose proof (ko_fields _ _ _ _ _ _ _ _ _ _ _ _ K) as [C1 _ C3 _]. rewrite Hav in C3.
  pose proof (ko_cache _ _ _ _ _ _ _ _ _ _ _ _ K) as Hk. pose proof (gr_number _ _ _ G) as [_ Gn].
  unfold kmem_obj_alloc. rewrite (proj2 (Z.eqb_neq c NULL) Hc).
  assert (lock_cache c m = Ok (tt, relock 0 kc m)) as El.
  { unfold lock_cache. assert (get_cache c m = Ok (kc, m)) as Eg.
    { unfold get_cache, on_caches, zoom. rewrite (load_Ok _ _ _ Hk). by destruct m. }
    mstep Eg. rewrite C1. cbn [Z.eqb]. unfold set_cache, on_caches, zoom. by rewrite (update_Ok _ _ _ _ Hk). }
  mstep El. mstep (get_cache_at (bud m) (slabs m) (caches m) (with_kc_lk 0 kc)). cbn [obj_num pg_orlimit pg_orhas with_kc_lk].
  rewrite C3, (proj2 (Z.leb_gt _ _) Hlt). change (Z.of_nat (length []) =? 0) with true. cbv iota.
  destruct (grow_Ok _ _ _ _ _ _ 0 K G Hlt Hstack) as [[E Eb] | (x & p & start & oth1 & m1 & E & K1 & G1 & Mo & Hx0 & Hx1 & Htr)]; mstep E.
  { left. cbn [negb]. split; [| done]. by mstep (unlock_relocked kc m C1 Hk). }
  right. cbn [negb]. destruct (with_slab_objects X x start) as [HO1 Hav1]. rewrite Hav in Hav1. cbn [app] in Hav1. set (X1 := with_slab (new_desc x start) X) in *. set (kc1 := grown_cache kc) in *.
  destruct (kernel_inv _ _ _ _ _ _ _ _ _ _ _ _ K1) as (L & I).
  pose proof (kernel_cache _ _ _ _ _ _ _ _ _ _ _ _ K1 L I) as (P & h & SL & CA & Em & Hk1 & Hd & Hr & Hsl & Hso & Hkc).
  assert (available osize X1 <> []) as Hne.
  { intros E0. rewrite E0 in Hav1. apply Permutation_nil_l in Hav1. unfold d_objs in Hav1. by rewrite (seqZ_cons 0 n) in Hav1 by lia. }
  destruct (alloc_rest_Ok km g stack_after c (o_base oth1) n osize bsize (order_pools (bud m1)) (memory (bud m1)) P h SL CA kc1 X1 _ Hk1 Hd Hr Hsl Hso Hkc Gn Hne) as (a & m2 & E2 & Hh).
  rewrite <-Em in Hh. destruct (kernel_cache_alloc _ _ _ _ _ _ _ _ _ _ _ _ L a _ m2 _ K1 I eq_refl eq_refl Hh)
    as (oth2 & X2 & Ha & K2 & So & Sc & Ea & Eo & Em2 & _ & Er2).
  exists x, p, a, m2, oth2, (with_obj_num (obj_num kc1 - 1) kc1), X2. split; [rewrite Em; exact E2 |]. split; [done |]. split; [exact K2 |].
  split; [| split; [| split; [done | split; [| split; [| split; [done |]]]]]].
  - destruct G1 as [Q1 Q2 Q3 Q4 Q5 Q6]. destruct Sc as [_ Spg]. split; try done.
    + change (pg_orhas kc1 = Z.of_nat (length (all_slabs X2))). rewrite Q4. apply (f_equal Z.of_nat). rewrite <-!(length_fmap d_pg). symmetry. by apply Permutation_length.
    + intros y Hy. rewrite (sm_pages _ _ _ So). apply Q6. by rewrite <-Spg.
  - destruct Mo as [M1 M2 M3 M4 M5 M6], So as [S1 S2 S3 S4]. split; [congruence | done | congruence | congruence | | done].
    intros q Hq. by rewrite S4, M5.
  - do 2 (split; [apply Hx1 |]). destruct Sc as [_ ->]. unfold slab_pages, X1, with_slab, all_slabs. cbn.
    rewrite <-!app_assoc, !fmap_app. cbn. symmetry. apply Permutation_middle.
  - exists (d_objs n osize (new_desc x start)). split; [| by rewrite <-Ea, Hav1]. by rewrite Eo.
  - by apply (block_taken_then l t _ _ (bud m1)).
Qed.

(** ** Clients *)

Section client.
Context (l : list Z) (t : Z) (kc0 : kmem_cache) (X0 : cache_slabs) (m0 : kmem).

(** Every object of the cache, as it has become, is free or held. *)
Record serving_with oth kc X (m : kmem) (held : list Z) : Prop := {
  sv_kernel : kernel_ok oth l t kc X m;
  sv_growable : growable oth kc X;
  sv_kind : exists j, same_kind kc0 kc j;
  sv_limit : pg_orhas kc <= pg_orlimit kc;
  sv_all : available osize X ++ held ≡ₚ objects n osize X;
  sv_more : exists new, objects n osize X ≡ₚ objects n osize X0 ++ new;
  sv_tables : forall b, translate km (bud m) t b = translate km (bud m0) t b
}.
Definition serving (m : kmem) (held : list Z) : Prop := exists oth kc X, serving_with oth kc X m held.

Lemma growable_same oth oth' kc X kc' X' :
  growable oth kc X -> same_others c oth oth' -> same_cache kc X kc' X' -> growable oth' kc' X'.
Proof using.
  intros [Q1 Q2 Q3 Q4 Q5 Q6] So [[v ->] Spg]. split; try done.
  - change (pg_orhas kc = Z.of_nat (length (all_slabs X'))). rewrite Q4. apply (f_equal Z.of_nat).
    rewrite <-!(length_fmap d_pg). symmetry. by apply Permutation_length.
  - intros y Hy. rewrite (sm_pages _ _ _ So). apply Q6. by rewrite <-Spg.
Qed.

Lemma serving_objects oth kc X m held : serving_with oth kc X m held ->
  NoDup held /\ (forall a, a ∈ held -> a ∈ objects n osize X) /\ (NULL ∉ held) /\
  forall a a', a ∈ held -> a' ∈ held -> a <> a' -> apart osize a a'.
Proof using.
  intros [K _ _ _ Hp _ _]. pose proof (ko_slabs _ _ _ _ _ _ _ _ _ _ _ _ K) as Hsl.
  pose proof (objects_NoDup km n osize bsize _ _ _ Hsl) as Hnd. fold (objects n osize X) in Hnd. rewrite <-Hp in Hnd.
  assert (forall a, a ∈ held -> a ∈ objects n osize X) as Hin by (intros a Ha; rewrite <-Hp; apply elem_of_app; by right).
  split; [by apply NoDup_app in Hnd as (_ & _ & ?) |]. split; [done |].
  split; [intros H0%Hin; by apply (objects_pos km n osize bsize _ _ _ Hsl) |].
  intros a a' Ha Ha' Hne. by apply (objects_apart km n osize bsize _ _ _ a a' Hsl); [apply Hin | apply Hin |].
Qed.

Context (Hc : c <> NULL).

Lemma serving_alloc oth kc X m held : serving_with oth kc X m held ->
  exists a m', kmem_obj_alloc km g stack_after c m = Ok (a, m') /\ serving m' (if a =? NULL then held else a :: held) /\
    (a = NULL -> held ≡ₚ objects n osize X /\ m' = m /\
       (pg_orlimit kc <= pg_orhas kc \/ bkp_alloc_zero km g (pg_order kc) (bud m) = Ok (None, bud m))).
Proof using Hc Hstack.
  intros V. pose proof V as [K G [j Hj] Hlim Hp [new Hn] Htr]. destruct (available osize X) as [|b0 rest] eqn:Hav.
  - destruct (decide (pg_orhas kc < pg_orlimit kc)) as [Hlt | Hge].
    + destruct (kernel_grow_alloc _ _ _ _ _ _ K G Hc Hav Hlt) as [[E Eb] | (x & p & a & m' & oth' & kc' & X' & E & Ha & K' & G' & _ & _ & _ & (new' & Eo & Ea) & Hkd & Htr')].
      * exists NULL, m. split; [done |]. split; [by exists oth, kc, X |]. auto.
      * exists a, m'. split; [done |]. rewrite (proj2 (Z.eqb_neq _ _) Ha). split; [| done].
        exists oth', kc', X'. destruct Hj as (J1 & J2 & J3), Hkd as (Q1 & Q2 & Q3).
        split; [done | done | exists (j + 1); split; [congruence | split; [congruence | lia]] | lia | | | intros b; by rewrite (bt_translate _ _ _ _ _ Htr')].
        -- rewrite Eo, <-Hp, <-Ea. cbn [app]. rewrite <-Permutation_middle, app_comm_cons. apply Permutation_app_comm.
        -- exists (new ++ new'). by rewrite Eo, Hn, app_assoc.
    + exists NULL, m. split; [by apply (kernel_alloc_none km g stack_after c n osize bsize oth l t kc X m K Hav); lia |].
      split; [exists oth, kc, X; split; try done; [by exists j | by rewrite Hav | by exists new] |]. intros _. split; [done |]. split; [done |]. left. lia.
  - destruct (kernel_alloc km g stack_after c n osize bsize _ _ _ _ _ _ K Hc (proj2 (gr_number _ _ _ G))) as
      (a & m' & oth' & kc' & X' & E & Ha & K' & So & Ea & Eo & Em & _ & Sc & _); [by rewrite Hav |].
    exists a, m'. split; [done |]. rewrite (proj2 (Z.eqb_neq _ _) Ha). split; [| done].
    exists oth', kc', X'. split; [done | by eapply growable_same | exists j; by destruct Sc as [[v ->] _] | by destruct Sc as [[v ->] _] |
      | exists new; by rewrite Eo | intros b; rewrite <-Htr; unfold translate; by rewrite Em].
    rewrite Eo, <-Hp, <-Hav, Ea. cbn. by rewrite <-Permutation_middle.
Qed.

Lemma serving_free m held a : serving m held -> a ∈ held ->
  exists m', kmem_obj_free km c a m = Ok (tt, m') /\ serving m' (filter (fun x => x <> a) held).
Proof using Hc stack_after.
  intros (oth & kc & X & V) Ha. destruct (serving_objects _ _ _ _ _ V) as (Hnd & Hin & _). destruct V as [K G [j Hj] Hlim Hp [new Hn] Htr].
  destruct (kernel_free km g stack_after c n osize bsize _ _ _ _ _ _ a K Hc (Hin a Ha)) as
    (m' & oth' & kc' & X' & E & K' & So & Ea & Eo & Em & _ & Sc & _).
  { pose proof (objects_NoDup km n osize bsize _ _ _ (ko_slabs _ _ _ _ _ _ _ _ _ _ _ _ K)) as Hd. fold (objects n osize X) in Hd.
    rewrite <-Hp in Hd. apply NoDup_app in Hd as (_ & Hx & _). intros Hav. by apply (Hx a). }
  exists m'. split; [done |]. exists oth', kc', X'.
  split; [done | by eapply growable_same | exists j; by destruct Sc as [[v ->] _] | by destruct Sc as [[v ->] _] | | exists new; by rewrite Eo | intros b; rewrite <-Htr; unfold translate; by rewrite Em].
  rewrite Eo, <-Hp, Ea. etransitivity; [apply Permutation_middle |]. f_equiv. symmetry. exact (FreeQueue.held_split a held Hnd Ha).
Qed.

Lemma client_serving m held : serving m0 [] -> client km g stack_after c m0 m held -> serving m held.
Proof using Hc Hstack.
  intros H0 Hcl. induction Hcl as [| m held a m' _ IH E | m held a m' _ IH Ha E]; [done | |].
  - destruct IH as (oth & kc & X & V). destruct (serving_alloc oth kc X m held V) as (a1 & m1 & E1 & Hs & _).
    rewrite E1 in E. by injection E as <- <-.
  - destruct (serving_free m held a IH Ha) as (m1 & E1 & Hs). rewrite E1 in E. by injection E as <-.
Qed.
End client.
End grow.
