(* ===== verification/CacheInit.v ===== *)
(** * Initialisation of a cache

    [kmem_cache_init] makes the lists of a cache, fills in its fields and takes
    the first slabs; the lists are new rings beside those of everybody else. *)
From S2P Require Import Prelude DList KernelMap PageFrame Buddy Slab FreeQueue SlabSpec CacheSpec Sv39 Sv39Pte Sv39Tree Sv39Map Sv39Spec KernelSpec BlockSpec GrowSpec.

(** ** New list heads *)

Section lists.
Context (km : kernel_mapping) (g : Z).
Notation tables oth m l t := (Sv39Spec.space (table_pages km g oth) km (bud m) l t).

Notation inv oth m L := (buddy_inv g (PGFRAME_PAGE_NUMS km) (o_base oth) (o_rings oth) none (pgs (bud m)) (nds (bud m)) (order_pools (bud m)) L).

Definition with_ring (q : Z) (r : list Z) (oth : others) : others := with_rings (<[q := r]> (o_rings oth)) oth.

Lemma on_list_at {A} (f : M heap A) m a h : f (nds (bud m)) = Ok (a, h) -> on_list f m = Ok (a, set_heap h m).
Proof using.
  intros E. destruct m as [[F P Mm] SL CA]. unfold nds in E. cbn in E.
  unfold on_list, on_bud, on_nodes, on_frames, in_nodes. unfold zoom. cbn. unfold zoom. cbn. by rewrite E.
Qed.

(** Lists change where only free nodes are. *)
Lemma tables_lists oth l t m R h' L :
  tables oth m l t -> inv oth m L -> dlists h' (rings g (o_base oth) L ∪ R) ->
  dom (nds (bud m)) ⊆ dom h' -> foreign R (o_base oth) (pgs (bud m)) -> tables (with_rings R oth) (set_heap h' m) l t.
Proof using.
  intros S I Hd Hdom HF. pose proof I as [B [I1 I2 I3 I4] F]. pose proof (tp_base _ _ _ _ _ (sp_own _ _ _ _ _ S)) as Eb.
  apply (tables_relink km g oth R l t (bud m) _ L S); try done. split; [done | | done]. split; [done | done | | done].
  intros i Hi. apply Hdom. by apply I3.
Qed.

Lemma tables_inv oth m l t : tables oth m l t -> exists L, inv oth m L.
Proof using. intros [[(_ & _ & L & I) _ _ _ _ <-] _ _]. by exists L. Qed.

Lemma rings_same oth : with_rings (o_rings oth) oth = oth.
Proof using. by destruct oth. Qed.

Lemma free_node_ring oth q q' r : free_node km g oth q -> q <> q' -> q ∉ r -> free_node km g (with_ring q' r oth) q.
Proof using.
  intros (H1 & H2 & H3) Hne Hr. split; [| by split]. intros k s. cbn. rewrite lookup_insert_Some.
  intros [[<- <-] | [_ Hk]]; [by apply not_elem_of_cons | by apply H1].
Qed.

(** The bytes of a free node become a list head. *)
Lemma raw_head_Ok oth l t m q : tables oth m l t -> free_node km g oth q ->
  exists h', raw_list_head q m = Ok (tt, set_heap h' m) /\ tables oth (set_heap h' m) l t /\
    q ∈ dom h' /\ dom (nds (bud m)) ⊆ dom h'.
Proof using.
  intros S Hq. set (h := nds (bud m)). set (h' := if decide (is_Some (h !! q)) then h else <[q := mk_list_head 0 0]> h).
  exists h'. split; [by apply on_list_at |].
  assert ((q ∈ dom h') /\ dom h ⊆ dom h') as [Hin Hdom].
  { unfold h'. destruct (decide (is_Some (h !! q))) as [E | E]; [split; [by apply elem_of_dom | done] |].
    rewrite dom_insert_L. split; [apply elem_of_union_l, elem_of_singleton; done | intros x Hx; apply elem_of_union_r, Hx]. }
  split; [| by split]. rewrite <-(rings_same oth). destruct (tables_inv _ _ _ _ S) as (L & I).
  apply (tables_lists oth l t m _ _ L); [done | done | | done | apply I]. pose proof I as [_ [_ Hd _ _] _].
  apply (dlists_frame h); [done |]. intros k r x Hk Hx. unfold h'. destruct (decide (is_Some (h !! q))) as [|Hnone]; [done |].
  apply lookup_insert_ne. intros <-. apply Hnone. apply elem_of_dom. eapply dlist_dom; [by apply Hd | done].
Qed.

(** An empty list is a new ring. *)
Lemma init_head_Ok oth l t m q : tables oth m l t -> free_node km g oth q -> q ∈ dom (nds (bud m)) ->
  exists h', on_list (INIT_LIST_HEAD q) m = Ok (tt, set_heap h' m) /\ tables (with_ring q [] oth) (set_heap h' m) l t /\
    dom h' = dom (nds (bud m)).
Proof using.
  intros S Hq Hin. destruct (INIT_LIST_HEAD_Ok (nds (bud m)) q Hin) as (h' & E & Hd' & Ht).
  exists h'. split; [by apply on_list_at |]. split; [| apply Ht].
  destruct (tables_inv _ _ _ _ S) as (L & I). pose proof Hq as (Hu & Hp & Hb).
  apply (tables_lists oth l t m _ _ L); [done | done | | by rewrite (proj1 Ht) |].
  - rewrite <-insert_union_r by by apply rings_none.
    apply (dlists_new (nds (bud m))); [apply I | by eapply free_node_unlinked | done |].
    intros x Hx. apply Ht. by apply not_elem_of_cons; split; [| apply not_elem_of_nil].
  - intros i p Hi Hpt k r. rewrite lookup_insert_Some. intros [[<- <-] | [_ Hk]].
    + intros Ei%list_elem_of_singleton. apply (Hb i); [by apply (Buddy.page_range _ _ _ _ _ (inv_blocks _ _ _ _ _ _ _ _ _ I) Hi) | done].
    + by eapply (inv_foreign _ _ _ _ _ _ _ _ _ I).
Qed.
End lists.

(** ** Giving the slabs back *)

Section release.
Context (km : kernel_mapping) (g c o : Z).
Notation nums := (PGFRAME_PAGE_NUMS km).
Notation tables oth m l t := (Sv39Spec.space (table_pages km g oth) km (bud m) l t).

(** The page [x] starts a slab of its own of order [o], no object of which is
    handed out. *)
Definition slab_at (oth : others) (x : Z) : Prop :=
  exists p, o_pages oth !! x = Some p /\ page_lk p = 1 /\ pgtype p = SLAB_ALLOCATOR /\ buddy_flags p = 2 /\ order_ok o /\ buddy_order p = o.

(** The slabs at [xs] are still on the list. *)
Record releasing (oth : others) (l : list Z) (t : Z) (xs : list Z) (m : kmem) : Prop := {
  rl_tables : tables oth m l t;
  rl_list : o_rings oth !! free_of c = Some (buddy_node (o_base oth) <$> xs);
  rl_heads : forall q r, o_rings oth !! q = Some r -> no_pool g q;
  rl_slabs : forall x, x ∈ xs -> slab_at oth x;
  rl_nodup : NoDup xs
}.

(** What is left to others after the first slab is gone. *)
Definition one_less (x : Z) (xs : list Z) (oth : others) : others :=
  with_pages (delete x (o_pages oth)) (with_ring (free_of c) (buddy_node (o_base oth) <$> xs) oth).

Lemma kmem_split m : m = mk_kmem (bud m) (slabs m) (caches m).
Proof using. by destruct m. Qed.

Section step.
Context (oth : others) (l : list Z) (t x : Z) (xs : list Z) (m : kmem).
Context (R : releasing oth l t (x :: xs) m).

(** [list_del] takes the node off, and the page may become the allocator's. *)
Lemma release_del : exists h', list_del (buddy_node (o_base oth) x) (nds (bud m)) = Ok (tt, h') /\
  tables (with_ring (free_of c) (buddy_node (o_base oth) <$> xs) oth) (set_heap h' m) l t /\
  unlinked (<[free_of c := buddy_node (o_base oth) <$> xs]> (o_rings oth)) (buddy_node (o_base oth) x).
Proof using R.
  destruct R as [S Hl Hno _ _]. destruct (tables_inv _ _ _ _ _ _ S) as (L & I).
  destruct (dlists_del (nds (bud m)) (rings g (o_base oth) L ∪ o_rings oth) (free_of c) [] (buddy_node (o_base oth) <$> xs)
    (buddy_node (o_base oth) x)) as (h' & E & D & Hdom & Hu); [apply I | rewrite lookup_union_r; [done | by eapply rings_none, Hno] |].
  cbn [app] in *. rewrite insert_union_r in D, Hu by by eapply rings_none, Hno.
  exists h'. split; [done |]. split.
  - apply (tables_lists km g oth l t m _ _ L); [done | done | done | by rewrite Hdom |].
    intros i p Hi Ht k r. rewrite lookup_insert_Some. intros [[<- <-] | [_ Hk]].
    + intros Hin. eapply (inv_foreign _ _ _ _ _ _ _ _ _ I i p Hi Ht _ _ Hl). cbn. set_solver.
    + by eapply (inv_foreign _ _ _ _ _ _ _ _ _ I).
  - intros k r Hk. apply (Hu k). apply lookup_union_Some_raw. right. split; [| done].
    eapply rings_none. revert Hk. rewrite lookup_insert_Some. intros [[<- _] | [_ Hk]]; by eapply Hno.
Qed.

(** The page changes hands, and its descriptor with it. *)
Lemma release_type h' p : pgs (bud m) !! x = Some p -> slab_at oth x -> o_pages oth !! x = Some p ->
  tables (with_ring (free_of c) (buddy_node (o_base oth) <$> xs) oth) (set_heap h' m) l t ->
  unlinked (<[free_of c := buddy_node (o_base oth) <$> xs]> (o_rings oth)) (buddy_node (o_base oth) x) ->
  Sv39Spec.space (table_pages km g (one_less x xs oth)) km (put_page x (with_type PAGE_BUDDYALLOCATOR p) (bud (set_heap h' m))) l t /\
  unused km (one_less x xs oth) l x /\ order_ok o /\
  allocated (<[x := with_type PAGE_BUDDYALLOCATOR p]> (pgs (bud m))) x o.
Proof using R.
  intros Hp (p0 & Hk & Hlk & Hty & Hfl & Ho & Hpo) Hk' S Hu. assert (p0 = p) as -> by congruence. clear Hk'.
  pose proof (rl_tables _ _ _ _ _ R) as [T0 _ _]. destruct (tp_kept _ _ _ _ _ T0 x p Hk) as (_ & _ & Hxl).
  assert (x ∉ (o_blocks oth).*1) as Hxb.
  { intros ([y oy] & Ey & Hy)%list_elem_of_fmap. cbn in Ey. subst y.
    destruct (tp_rest _ _ _ _ _ T0 x _ Hy) as (_ & (q & Hq & _ & _ & Hqt) & _). simplify_eq. by rewrite Hty in Hqt. }
  split; [| split; [split; [done | apply lookup_delete_eq | done] |]].
  - destruct S as [T Ht Hi]. split; [| done | done].
    apply (table_pages_head km g (with_ring (free_of c) (buddy_node (o_base oth) <$> xs) oth) _ _ l x p); try done.
    + split; try done. by rewrite Hpo.
    + intros i q. rewrite lookup_insert_Some. intros [[<- <-] | [Hne Hq]] Hqt; [exact Hu |].
      destruct (tp_wf _ _ _ _ _ T) as (_ & _ & L & I). rewrite <-(tp_base _ _ _ _ _ T). by apply (inv_foreign _ _ _ _ _ _ _ _ _ I i q).
    + intros y q Hy. right. apply lookup_delete_Some in Hy as [Hne Hy]. by split.
  - split; [done |]. exists (with_type PAGE_BUDDYALLOCATOR p). by rewrite lookup_insert_eq.
Qed.

Lemma release_slab_Ok : exists m', release_slab km g (buddy_node (o_base oth) x) m = Ok (tt, m') /\
  releasing (one_less x xs oth) l t xs m' /\ memory (bud m') = memory (bud m) /\ rest_pages (bud m') = rest_pages (bud m) + 2 ^ o.
Proof using R.
  destruct (rl_slabs _ _ _ _ _ R x ltac:(by left)) as (p & Hk & Hlk & Hty & Hfl & Ho & Hpo).
  pose proof (rl_tables _ _ _ _ _ R) as [T0 _ _]. destruct (tp_kept _ _ _ _ _ T0 x p Hk) as (_ & Hp & Hxl).
  pose proof (tp_base _ _ _ _ _ T0) as Eb. destruct release_del as (h' & E & S & Hu). set (M := set_heap h' m) in *.
  destruct (release_type h' p Hp (rl_slabs _ _ _ _ _ R x ltac:(by left)) Hk S Hu) as ([T1 Ht1 Hi1] & Hun & _ & Hal).
  destruct (table_pages_give km g (one_less x xs oth) _ l x o T1 Ho Hal Hun) as (B & EB & T2 & Hk2).
  assert (memory B = memory (bud m)) as Em by exact (tb_memory _ _ _ _ Hk2).
  assert (rest_pages B = rest_pages (bud m) + 2 ^ o) as Er by exact (tb_pages _ _ _ _ Hk2).
  exists (mk_kmem B (slabs m) (caches m)). split; [| split; [| by split]].
  - unfold release_slab.
    assert (node_page (buddy_node (o_base oth) x) m = Ok (x, m)) as En.
    { unfold node_page, gets. rewrite <-Eb. unfold base. by rewrite buddy_node_entry. }
    mstep En. rewrite (kmem_split m) at 1. mstep (at_bud _ (bud m) (slabs m) (caches m) _ _ (lock_at (bud m) x p Hp Hlk)).
    assert (page_node x (mk_kmem (put_page x (with_lk 0 p) (bud m)) (slabs m) (caches m)) =
      Ok (buddy_node (o_base oth) x, mk_kmem (put_page x (with_lk 0 p) (bud m)) (slabs m) (caches m))) as Epn
      by (rewrite <-Eb; reflexivity).
    mstep Epn. assert (on_list (list_del (buddy_node (o_base oth) x)) (mk_kmem (put_page x (with_lk 0 p) (bud m)) (slabs m) (caches m)) =
      Ok (tt, mk_kmem (put_page x (with_lk 0 p) (bud M)) (slabs m) (caches m))) as Edel by exact (on_list_at _ (mk_kmem (put_page x (with_lk 0 p) (bud m)) (slabs m) (caches m)) _ h' E).
    mstep Edel.
    set (q := with_type PAGE_BUDDYALLOCATOR (with_lk 0 p)).
    assert (on_bud (set_page x (with_type PAGE_BUDDYALLOCATOR)) (mk_kmem (put_page x (with_lk 0 p) (bud M)) (slabs m) (caches m)) =
      Ok (tt, mk_kmem (put_page x q (bud M)) (slabs m) (caches m))) as Es.
    { apply at_bud. erewrite set_at by apply put_page_at. by rewrite put_put_page. }
    mstep Es. mstep (at_bud _ _ (slabs m) (caches m) _ _ (get_at (put_page x q (bud M)) x q (put_page_at _ _ _))).
    change (buddy_flags q) with (buddy_flags p). rewrite Hfl.
    mstep (eq_refl (ASSERT (2 =? PG_BUDDY_FLAG_HEAD) (mk_kmem (put_page x q (bud M)) (slabs m) (caches m)))).
    mstep (at_bud _ _ (slabs m) (caches m) _ _ (unlock_at (put_page x q (bud M)) x q (put_page_at _ _ _) eq_refl)).
    apply at_bud. rewrite put_put_page. replace (with_lk 1 q) with (with_type PAGE_BUDDYALLOCATOR p) by (destruct p; cbn in *; by subst).
    exact EB.
  - destruct R as [_ Hll Hno Hs Hnd%NoDup_cons]. destruct Hnd as [Hx Hnd]. split; [split; [done | |] | | | |].
    + cbn. rewrite Em. exact Ht1.
    + cbn. rewrite Em. exact Hi1.
    + apply lookup_insert_eq.
    + intros q r. cbn. rewrite lookup_insert_Some. intros [[<- _] | [_ Hq]]; [by eapply Hno, Hll | by eapply Hno].
    + intros y Hy. destruct (Hs y ltac:(by right)) as (py & Hpy & Hr). exists py. split; [| done]. cbn.
      rewrite lookup_delete_ne; [done |]. by intros <-.
    + done.
Qed.
End step.

(** The slabs at [zs] have been given back, those at [ys] are left. *)
Record given (oth oth' : others) (zs ys : list Z) : Prop := {
  gv_base : o_base oth' = o_base oth;
  gv_blocks : o_blocks oth' = o_blocks oth;
  gv_rings : o_rings oth' = <[free_of c := buddy_node (o_base oth) <$> ys]> (o_rings oth);
  gv_gone : forall y, y ∈ zs -> o_pages oth' !! y = None;
  gv_kept : forall y, y ∉ zs -> o_pages oth' !! y = o_pages oth !! y
}.

Lemma given_step oth oth' zs x ys :
  given oth oth' zs (x :: ys) -> given oth (one_less x ys oth') (zs ++ [x]) ys.
Proof using.
  intros [E1 E2 E3 E4 E5]. split; [done | done | | |].
  - cbn. by rewrite E3, E1, insert_insert_eq.
  - intros y Hy. cbn. destruct (decide (y = x)) as [-> | Hne]; [apply lookup_delete_eq |].
    rewrite lookup_delete_ne by done. apply E4. set_solver.
  - intros y Hy. cbn. rewrite lookup_delete_ne by set_solver. apply E5. set_solver.
Qed.

Lemma release_free_Ok oth l t xs m : releasing oth l t xs m ->
  exists oth' m', release_free km g c m = Ok (tt, m') /\ releasing oth' l t [] m' /\ given oth oth' xs [] /\
    memory (bud m') = memory (bud m) /\ rest_pages (bud m') = rest_pages (bud m) + 2 ^ o * Z.of_nat (length xs).
Proof using.
  intros R. pose proof (rl_list _ _ _ _ _ R) as Hl. destruct (tables_inv _ _ _ _ _ _ (rl_tables _ _ _ _ _ R)) as (L & I).
  assert (forall oth' ys m', releasing oth' l t ys m' -> dlist (nds (bud m')) (free_of c) (buddy_node (o_base oth') <$> ys)) as Hd.
  { intros oth' ys m' R'. destruct (tables_inv _ _ _ _ _ _ (rl_tables _ _ _ _ _ R')) as (L' & [_ [_ D _ _] _]). apply D.
    rewrite lookup_union_r; [apply R' |]. by eapply rings_none, R', R'. }
  pose proof (Hd _ _ _ R) as Hd0. unfold release_free.
  mstep (on_list_at (get_next (free_of c)) m _ _ (get_next_Ok _ _ _ (dlist_first _ _ _ Hd0))).
  assert (set_heap (nds (bud m)) m = m) as -> by (by destruct m as [[[? ? ?] ? ?] ? ?]).
  mstep (eq_refl : gets (fun s : kmem => list_fuel (nodes (frames_of (bud s)))) m = Ok (list_fuel (nds (bud m)), m)).
  set (Inv := fun (rest : list Z) (_ : unit) (m' : kmem) => exists zs ys oth', xs = zs ++ ys /\ rest = buddy_node (o_base oth) <$> ys /\
    given oth oth' zs ys /\ releasing oth' l t ys m' /\ memory (bud m') = memory (bud m) /\
    rest_pages (bud m') = rest_pages (bud m) + 2 ^ o * Z.of_nat (length zs)).
  destruct (list_for_each_safe_ind (fun s : kmem => nodes (frames_of (bud s))) (free_of c)
    (fun (_ : unit) iterator => (release_slab km g iterator;; ret (Next tt))%aco) Inv (fun (_ : unit) _ => False))
    with (rest := buddy_node (o_base oth) <$> xs) (fuel := list_fuel (nds (bud m))) (a := tt) (s := m) as (r & m' & E & Hr).
  - intros z rest [] m1 (zs & [|x ys] & oth1 & Ex & Er & Hg & R1 & Hm1 & Hr1); [done |]. injection Er as -> ->.
    pose proof (gv_base _ _ _ _ Hg) as Eb. pose proof (Hd _ _ _ R1) as Hd1. rewrite Eb in Hd1.
    destruct (dlist_next _ _ [] _ _ Hd1) as [Hn Hne]. split; [done |]. split; [exact Hn |].
    destruct (release_slab_Ok _ _ _ _ _ _ R1) as (m2 & E2 & R2 & Hm2 & Hr2). rewrite Eb in E2.
    exists (Next tt), m2. split; [by mstep E2 |]. exists (zs ++ [x]), ys, (one_less x ys oth1).
    split; [by rewrite Ex, <-app_assoc |]. split; [done |]. split; [by apply given_step |]. split; [done |].
    split; [by rewrite Hm2 |]. rewrite Hr2, Hr1, length_app. cbn [length]. lia.
  - intros [] m1 (zs & ys & oth1 & _ & _ & _ & R1 & _). eapply dlist_dom; [exact (Hd _ _ _ R1) | by left].
  - by apply dlist_length in Hd0.
  - exists [], xs, oth. split; [done |]. split; [done |]. split; [| split; [done | split; [done | cbn; lia]]].
    split; [done | done | by rewrite insert_id | by intros y ?%elem_of_nil | done].
  - destruct r as [[] | r]; [| done]. destruct Hr as (zs & ys & oth' & Ex & Er & Hg & R' & Hm & Hrp).
    destruct ys; [| done]. rewrite app_nil_r in Ex. subst zs. exists oth', m'.
    split; [by mstep E |]. done.
Qed.
End release.

(** ** [kmem_cache_init] *)

Section init.
Context (km : kernel_mapping) (g : Z) (stack_after : list Z).
Context (c n osize bsize order limit : Z).
Notation nums := (PGFRAME_PAGE_NUMS km).
Notation tables oth m l t := (Sv39Spec.space (table_pages km g oth) km (bud m) l t).
Notation kernel_ok := (kernel_ok km g c n osize bsize).
Notation growable := (growable n osize bsize).

(** Arguments that [kmem_cache_init] accepts, of a cache whose blocks hold at
    least one object and whose counters do not overflow. *)
Record init_args : Prop := {
  ia_cache : c <> NULL;
  ia_order : order_ok order;
  ia_size : 0 < osize < bsize;
  ia_block : bsize = 4096 * 2 ^ order;
  ia_limit : 0 < limit < 2 ^ 31;
  ia_number : n = slab_num bsize osize /\ 0 < n /\ n * limit < 2 ^ 31
}.
Context (A : init_args).

Definition fresh_cache : kmem_cache := mk_cache 1 0 osize order limit 0 (Z.land c 0x7fffffff).
Definition no_slabs : cache_slabs := mk_slabs [] [] [].
Definition fresh_others (oth : others) : others :=
  with_ring (partial_of c) [] (with_ring (full_of c) [] (with_ring (free_of c) [] oth)).

Lemma fresh_growable oth : growable oth fresh_cache no_slabs.
Proof using A. destruct A. split; try done; cbn; [lia | lia |]. by intros x ?%elem_of_nil. Qed.

Lemma fresh_fields : kcache_ok n osize bsize fresh_cache no_slabs.
Proof using A.
  destruct A as [_ Ho _ Hb _ _]. pose proof (pow_order _ Ho). split; try done.
  cbn [pg_order fresh_cache]. rewrite fill_size by done. rewrite s32_small; [done |]. lia.
Qed.

Lemma fresh_kernel oth m l t :
  (forall q, q ∈ heads c -> free_node km g oth q) -> (forall q r, o_rings oth !! q = Some r -> no_pool g q) ->
  tables (fresh_others oth) m l t -> caches m !! c = Some fresh_cache ->
  kernel_ok (fresh_others oth) l t fresh_cache no_slabs m.
Proof using A.
  intros Hh Hno S Hc. destruct (heads_apart c) as (N1 & N2 & N3). split; try done.
  - apply fresh_fields.
  - split; cbn; rewrite ?lookup_insert_eq, ?lookup_insert_ne, ?lookup_insert_eq by done; done.
  - split; [constructor | intros d e ?%elem_of_nil; done | constructor].
  - intros x Hx. by apply not_elem_of_nil in Hx.
  - unfold heads in Hh. intros q r. cbn. rewrite !lookup_insert_Some.
    intros [[<- _] | [_ [[<- _] | [_ [[<- _] | [_ Hr]]]]]]; [apply Hh; set_solver .. | by eapply Hno].
Qed.

Lemma init_fields_Ok oth m l t :
  (forall q, q ∈ heads c -> free_node km g oth q) -> (forall q r, o_rings oth !! q = Some r -> no_pool g q) ->
  tables oth m l t ->
  exists m1, init_fields c osize order limit m = Ok (tt, m1) /\
    kernel_ok (fresh_others oth) l t fresh_cache no_slabs m1 /\ memory (bud m1) = memory (bud m) /\
    rest_pages (bud m1) = rest_pages (bud m).
Proof using A.
  intros Hh Hno S. destruct (heads_apart c) as (N1 & N2 & N3).
  assert (free_node km g oth (free_of c) /\ free_node km g oth (full_of c) /\ free_node km g oth (partial_of c)) as (F1 & F2 & F3)
    by (unfold heads in Hh; split; [| split]; apply Hh; set_solver).
  unfold init_fields.
  set (m0 := mk_kmem (bud m) (slabs m) (if decide (is_Some (caches m !! c)) then caches m else <[c := mk_cache 0 0 0 0 0 0 0]> (caches m))).
  mstep (eq_refl : raw_cache c m = Ok (tt, m0)).
  destruct (raw_head_Ok km g oth l t m0 _ S F1) as (h1 & E1 & S1 & I1 & D1). mstep E1.
  destruct (raw_head_Ok km g oth l t _ _ S1 F2) as (h2 & E2 & S2 & I2 & D2). mstep E2.
  destruct (raw_head_Ok km g oth l t _ _ S2 F3) as (h3 & E3 & S3 & I3 & D3). mstep E3.
  set (m3 := set_heap h3 (set_heap h2 (set_heap h1 m0))) in *.
  assert (exists k, caches m3 !! c = Some k) as (k & Hk).
  { cbn. destruct (decide (is_Some (caches m !! c))) as [[k Hk] | _]; [by exists k |]. eexists. apply lookup_insert_eq. }
  pose (m4 := mk_kmem (bud m3) (slabs m3) (<[c := with_kc_lk 1 k]> (caches m3))).
  assert (set_cache c (with_kc_lk 1) m3 = Ok (tt, m4)) as E4
    by (unfold set_cache, on_caches, zoom; by rewrite (update_Ok _ _ _ _ Hk)).
  mstep E4. assert (forall q, q = free_of c \/ q = full_of c \/ q = partial_of c -> q ∈ dom (nds (bud m4))) as Hin.
  { intros q [-> | [-> | ->]]; [apply D3, D2, I1 | apply D3, I2 | apply I3]. }
  destruct (init_head_Ok km g oth l t m4 _ S3 F1 ltac:(auto)) as (h5 & E5 & S5 & D5). mstep E5.
  destruct (init_head_Ok km g _ l t _ (full_of c) S5) as (h6 & E6 & S6 & D6);
    [by apply free_node_ring; [| | apply not_elem_of_nil] | change (full_of c ∈ dom h5); rewrite D5; auto |]. mstep E6.
  destruct (init_head_Ok km g _ l t _ (partial_of c) S6) as (h7 & E7 & S7 & D7);
    [apply free_node_ring; [apply free_node_ring; [done | done | apply not_elem_of_nil] | done | apply not_elem_of_nil] | change (partial_of c ∈ dom h6); rewrite D6; change (partial_of c ∈ dom h5); rewrite D5; auto |]. mstep E7.
  set (m7 := set_heap h7 (set_heap h6 (set_heap h5 m4))) in *.
  exists (mk_kmem (bud m7) (slabs m7) (<[c := fresh_cache]> (caches m7))). split; [| split; [| done]].
  - unfold set_cache, on_caches, zoom. assert (caches m7 !! c = Some (with_kc_lk 1 k)) as Hk7 by apply lookup_insert_eq.
    by rewrite (update_Ok _ _ _ _ Hk7).
  - apply fresh_kernel; [done | done | exact S7 | apply lookup_insert_eq].
Qed.

Lemma relock_open kc m : caches m !! c = Some kc -> kc_lk kc = 1 -> relock c 1 kc m = m.
Proof using.
  intros Hk Hl. unfold relock. destruct m as [B SL CA], kc. cbn in *. subst. by rewrite insert_id.
Qed.

(** [i] slabs have been taken; beside them, everything is as in [oth0] and [m0]. *)
Record filling (oth0 : others) (l : list Z) (t i : Z) (m0 m : kmem) (oth : others) (kc : kmem_cache) (X : cache_slabs) : Prop := {
  fl_kernel : kernel_ok oth l t kc X m;
  fl_growable : growable oth kc X;
  fl_order : pg_order kc = order;
  fl_limit : pg_orlimit kc = limit;
  fl_has : pg_orhas kc = i;
  fl_free : cs_partial X = [] /\ cs_full X = [];
  fl_all : available osize X ≡ₚ objects n osize X;
  fl_base : o_base oth = o_base oth0;
  fl_blocks : o_blocks oth = o_blocks oth0;
  fl_rings : forall q, q ∉ heads c -> o_rings oth !! q = o_rings oth0 !! q;
  fl_pages : forall y, y ∉ slab_pages X -> o_pages oth !! y = o_pages oth0 !! y;
  fl_new : forall y, y ∈ slab_pages X -> o_pages oth0 !! y = None;
  fl_tables : forall a, translate km (bud m) t a = translate km (bud m0) t a;
  fl_rest : rest_pages (bud m) = rest_pages (bud m0) - 2 ^ order * i
}.

Lemma filling_fresh oth l t m0 m :
  kernel_ok (fresh_others oth) l t fresh_cache no_slabs m -> memory (bud m) = memory (bud m0) ->
  rest_pages (bud m) = rest_pages (bud m0) -> filling oth l t 0 m0 m (fresh_others oth) fresh_cache no_slabs.
Proof using A.
  intros K Em Er. split; try done; [apply fresh_growable | | intros y Hy; by apply not_elem_of_nil in Hy | | lia].
  - unfold heads. intros q Hq. cbn. rewrite !lookup_insert_ne; [done | intros <-; apply Hq; set_solver ..].
  - intros a. unfold translate. by rewrite Em.
Qed.

Lemma with_slab_pages d X y : y ∈ slab_pages (with_slab d X) <-> y = d_pg d \/ y ∈ slab_pages X.
Proof using.
  unfold slab_pages, all_slabs. cbn. rewrite !fmap_app, !elem_of_app. cbn. rewrite list_elem_of_singleton. tauto.
Qed.

Lemma filling_grow oth0 l t i m0 m oth kc X : (3 <= length stack_after)%nat -> i < limit ->
  filling oth0 l t i m0 m oth kc X ->
  (grow km g stack_after c m = Ok (false, m) /\ bkp_alloc_zero km g order (bud m) = Ok (None, bud m)) \/
  exists m' oth' kc' X', grow km g stack_after c m = Ok (true, m') /\ filling oth0 l t (i + 1) m0 m' oth' kc' X'.
Proof using A.
  intros Hst Hi [K G O L H [Fp Ff] Al Eb El Er Ep En Et Es].
  pose proof (kc_open _ _ _ _ _ (ko_fields _ _ _ _ _ _ _ _ _ _ _ _ K)) as Ho. pose proof (ko_cache _ _ _ _ _ _ _ _ _ _ _ _ K) as Hk.
  destruct (grow_Ok km g stack_after c n osize bsize _ _ _ _ _ _ 1 K G ltac:(lia) Hst)
    as [[E Ez] | (x & p & start & oth' & m' & E & K' & G' & [M1 M2 M3 M4 M5 _] & _ & _ & Htr)]; rewrite (relock_open kc m Hk Ho) in E.
  - left. rewrite O in Ez. done.
  - right. exists m', oth', (grown_cache n kc), (with_slab (new_desc n x start) X).
    rewrite (relock_open (grown_cache n kc) m') in E; [| apply K' | done]. split; [done |].
    destruct (with_slab_objects n osize X x start) as [HO HA].
    split; try done; [by cbn; rewrite H | by rewrite HA, HO, Al | congruence | congruence | intros q Hq; by rewrite M5, Er | | | |].
    + intros y Hy. rewrite with_slab_pages in Hy. rewrite M3, lookup_insert_ne by (intros ->; apply Hy; by left). apply Ep. tauto.
    + intros y. rewrite with_slab_pages. intros [-> | Hy]; [| by apply En]. rewrite <-Ep; [done |].
      intros Hx. destruct (ko_kept _ _ _ _ _ _ _ _ _ _ _ _ K x Hx) as [q Hq]. by rewrite M2 in Hq.
    + intros a. by rewrite (bt_translate _ _ _ _ _ _ Htr).
    + rewrite (bt_pages _ _ _ _ _ _ Htr), Es, O. lia.
Qed.

Lemma filling_releasing oth0 l t i m0 m oth kc X :
  filling oth0 l t i m0 m oth kc X -> releasing km g c order oth l t (slab_pages X) m.
Proof using.
  intros [K G O _ _ [Fp Ff] _ _ _ _ _ _ _ _]. destruct (ko_slabs _ _ _ _ _ _ _ _ _ _ _ _ K) as [HA _ Hnd].
  split; [apply K | | apply K | | done].
  - rewrite (ri_free _ _ _ _ (ko_rings _ _ _ _ _ _ _ _ _ _ _ _ K)). unfold slab_pages, all_slabs.
    rewrite Fp, Ff, !app_nil_r, <-list_fmap_compose. done.
  - intros x Hx. destruct (gr_blocks _ _ _ _ _ _ G x Hx) as (q & Hq & Hqo). exists q. split; [done |].
    destruct (tp_kept _ _ _ _ _ (kernel_own _ _ _ _ _ _ _ _ _ _ _ _ K) x q Hq) as (_ & Hp & _).
    apply list_elem_of_fmap in Hx as (d & -> & Hd). rewrite Forall_forall in HA.
    destruct (so_page _ _ _ _ _ _ _ (HA d Hd)) as (q' & Hq' & H1 & H2 & H3). assert (q' = q) as -> by congruence.
    do 3 (split; [done |]). rewrite Hqo, <-O. split; [apply G | done].
Qed.

(** The page allocator has all its pages back, the cache's lists are empty. *)
Record handed_back (oth0 : others) (l : list Z) (t : Z) (m0 m : kmem) (oth : others) : Prop := {
  hb_tables : tables oth m l t;
  hb_base : o_base oth = o_base oth0;
  hb_blocks : o_blocks oth = o_blocks oth0;
  hb_pages : o_pages oth = o_pages oth0;
  hb_rings : forall q, o_rings oth !! q = if decide (q ∈ heads c) then Some [] else o_rings oth0 !! q;
  hb_translate : forall a, translate km (bud m) t a = translate km (bud m0) t a;
  hb_rest : rest_pages (bud m) = rest_pages (bud m0)
}.

Lemma filling_release oth0 l t i m0 m oth kc X : filling oth0 l t i m0 m oth kc X ->
  exists oth' m', release_free km g c m = Ok (tt, m') /\ handed_back oth0 l t m0 m' oth'.
Proof using.
  intros F. destruct (release_free_Ok km g c order _ _ _ _ _ (filling_releasing _ _ _ _ _ _ _ _ _ F))
    as (oth' & m' & E & R & [V1 V2 V3 V4 V5] & Em & Erp).
  destruct F as [K G _ _ H [Fp Ff] _ Eb El Er Ep En Et Es]. exists oth', m'. split; [done |].
  split; [apply R | congruence | congruence | | | |].
  - apply map_eq. intros y. destruct (decide (y ∈ slab_pages X)) as [Hy | Hy].
    + by rewrite V4, En.
    + by rewrite V5, Ep.
  - destruct (ko_rings _ _ _ _ _ _ _ _ _ _ _ _ K) as [_ R2 R3]. rewrite Fp in R2. rewrite Ff in R3.
    destruct (heads_apart c) as (N1 & N2 & N3). intros q. rewrite V3. destruct (decide (q ∈ heads c)) as [Hq | Hq].
    + unfold heads in Hq. rewrite !elem_of_cons, elem_of_nil in Hq.
      destruct Hq as [-> | [-> | [-> | []]]]; [by rewrite lookup_insert_eq | by rewrite lookup_insert_ne .. ].
    + rewrite lookup_insert_ne; [by apply Er |]. intros <-. apply Hq. by left.
  - intros a. rewrite <-Et. unfold translate. by rewrite Em.
  - rewrite Erp, Es, <-H. unfold slab_pages. rewrite length_fmap, (gr_count _ _ _ _ _ _ G). lia.
Qed.

(** What [kmem_cache_init] tests first. *)
Lemma init_accepted init : 0 <= init <= limit ->
  (c =? NULL) || (osize <=? 0) || negb ((0 <=? order) && (order <? MAX_ORDER)) || (limit <=? 0) || (init <? 0) ||
    (limit <? init) || (u64 (Z.shiftl 1 order * PAGE_SIZE) <=? u64 osize) = false.
Proof using A.
  intros Hi. destruct A as [Hc Ho Hs Hb Hl _]. pose proof (pow_order _ Ho). unfold order_ok in Ho.
  assert (u64 (Z.shiftl 1 order * PAGE_SIZE) = bsize) as ->.
  { rewrite Z.shiftl_1_l. change PAGE_SIZE with 4096. rewrite u64_small; lia. }
  rewrite u64_small by lia. rewrite !orb_false_iff, negb_false_iff, andb_true_iff. rewrite !Z.leb_gt, !Z.ltb_ge, Z.eqb_neq, Z.ltb_lt, Z.leb_le.
  lia.
Qed.

Context (Hstack : (3 <= length stack_after)%nat).

Lemma init_slabs_Ok oth0 l t m0 m init : 0 <= init <= limit ->
  filling oth0 l t 0 m0 m (fresh_others oth0) fresh_cache no_slabs ->
  exists r m', for_up (A := unit) (Z.to_nat init) 0 (fun _ _ =>
      ok ← grow km g stack_after c; ret (if ok : bool then Next tt else Return tt))%aco tt m = Ok (r, m') /\
    match r with
    | Next _ => exists oth kc X, filling oth0 l t init m0 m' oth kc X
    | Return _ => exists i oth kc X, i < init /\ filling oth0 l t i m0 m' oth kc X /\
        bkp_alloc_zero km g order (bud m') = Ok (None, bud m')
    end.
Proof using A Hstack.
  intros Hi F. eapply (for_up_ind _ (fun i (_ : unit) m => exists oth kc X, filling oth0 l t i m0 m oth kc X)
    (fun (_ : unit) m' => exists i oth kc X, i < init /\ filling oth0 l t i m0 m' oth kc X /\
        bkp_alloc_zero km g order (bud m') = Ok (None, bud m')) init); [| lia | by eexists _, _, _].
  intros i [] m1 Hlt (oth & kc & X & F1).
  destruct (filling_grow oth0 l t i m0 m1 oth kc X Hstack ltac:(lia) F1) as [[E Ez] | (m' & oth' & kc' & X' & E & F')]; mstep E.
  - exists (Return tt), m1. split; [done |]. by exists i, oth, kc, X.
  - exists (Next tt), m'. split; [done |]. by exists oth', kc', X'.
Qed.

(** The memory before: page tables beside the lists of others, and no list
    where the cache's will be. *)
Record init_room (oth : others) (l : list Z) (t : Z) (m : kmem) : Prop := {
  ir_tables : tables oth m l t;
  ir_heads : forall q, q ∈ heads c -> free_node km g oth q;
  ir_lists : forall q r, o_rings oth !! q = Some r -> no_pool g q
}.

Lemma filling_start oth l t m : init_room oth l t m ->
  exists m1, init_fields c osize order limit m = Ok (tt, m1) /\ filling oth l t 0 m m1 (fresh_others oth) fresh_cache no_slabs.
Proof using A.
  intros [S Hh Hno]. destruct (init_fields_Ok oth m l t Hh Hno S) as (m1 & E & K & Em & Er).
  exists m1. split; [done |]. by apply filling_fresh.
Qed.

Lemma init_cases oth l t m init : 0 <= init <= limit -> init_room oth l t m ->
  exists r m', kmem_cache_init km g stack_after c osize order limit init m = Ok (r, m') /\
    (r = 0 /\ (exists oth' kc X, filling oth l t init m m' oth' kc X) \/
     r = - ENOMEM /\ exists i oth1 kc X m1 oth', filling oth l t i m m1 oth1 kc X /\ i < init /\
       bkp_alloc_zero km g order (bud m1) = Ok (None, bud m1) /\ handed_back oth l t m m' oth').
Proof using A Hstack.
  intros Hi Hr. unfold kmem_cache_init. rewrite (init_accepted init Hi).
  destruct (filling_start oth l t m Hr) as (m1 & E1 & F1). mstep E1.
  destruct (init_slabs_Ok oth l t m m1 init Hi F1) as (r & m2 & E2 & Hr2). mstep E2. destruct r as [[] | []].
  - exists 0, m2. split; [done |]. by left.
  - destruct Hr2 as (i & oth1 & kc & X & Hlt & F2 & Ez). destruct (filling_release _ _ _ _ _ _ _ _ _ F2) as (oth' & m' & E3 & Hb).
    mstep E3. exists (- ENOMEM), m'. split; [done |]. right. split; [done |]. by exists i, oth1, kc, X, m2, oth'.
Qed.


(** C9: a cache serves objects, and grows when it has none left.  From its
    initialisation on, however a client allocates and gives back, it holds
    different objects that share no byte, nobody's translation changes, the
    cache never has more slabs than its limit; the next allocation answers an
    object that is not held and overlaps none that is, or NULL when the client
    holds every object and either the limit is reached or the page allocator
    has no block; and every object that is held can be given back. *)
Theorem cache_serves_growing oth l t m init m0 m1 held :
  0 <= init <= limit -> init_room oth l t m ->
  kmem_cache_init km g stack_after c osize order limit init m = Ok (0, m0) ->
  client km g stack_after c m0 m1 held ->
  exists oth' kc X, kernel_ok oth' l t kc X m1 /\
    (forall a, translate km (bud m1) t a = translate km (bud m) t a) /\
    Z.of_nat (length (all_slabs X)) <= limit /\
    NoDup held /\ (forall a, a ∈ held -> a ∈ objects n osize X) /\
    (forall a a', a ∈ held -> a' ∈ held -> a <> a' -> apart osize a a') /\
    (exists a m', kmem_obj_alloc km g stack_after c m1 = Ok (a, m') /\
      (a = NULL -> m' = m1 /\ Z.of_nat (length held) = n * Z.of_nat (length (all_slabs X)) /\
        (Z.of_nat (length (all_slabs X)) = limit \/ bkp_alloc_zero km g order (bud m1) = Ok (None, bud m1))) /\
      (a <> NULL -> (a ∉ held) /\ forall a', a' ∈ held -> apart osize a a')) /\
    (forall a, a ∈ held -> exists m', kmem_obj_free km c a m1 = Ok (tt, m')).
Proof using A Hstack.
  intros Hi Hr E Hcl. pose proof (ia_cache A) as Hc.
  destruct (init_cases oth l t m init Hi Hr) as (r & m' & E' & [[-> (oth0 & kc0 & X0 & F)] | [-> _]]); rewrite E in E'; [| done].
  injection E' as <-. destruct F as [K G Ho Hl Hh _ Al _ _ _ _ _ Et _].
  assert (serving km g c n osize bsize l t kc0 X0 m0 m0 []) as S0.
  { exists oth0, kc0, X0. split; try done; [exists 0; split; [done | split; [done | lia]] | lia | by rewrite app_nil_r | by exists []; rewrite app_nil_r]. }
  destruct (client_serving km g stack_after c n osize bsize Hstack l t kc0 X0 m0 Hc m1 held S0 Hcl) as (oth' & kc & X & V).
  pose proof V as [K1 G1 [j (J1 & J2 & J3)] Hlim _ _ Ht1]. destruct (serving_objects _ _ _ _ _ _ _ _ _ _ _ _ _ _ _ _ V) as (Hnd & Hin & H0 & Hap).
  pose proof (gr_count _ _ _ _ _ _ G1) as Hn. pose proof (gr_number _ _ _ _ _ _ G1) as [_ Hn0].
  exists oth', kc, X. split; [done |]. split; [intros a; by rewrite Ht1 |]. split; [lia |]. do 3 (split; [done |]). split.
  - destruct (serving_alloc km g stack_after c n osize bsize Hstack l t kc0 X0 m0 Hc oth' kc X m1 held V) as (a & m' & Ea & Sa & Hnull).
    exists a, m'. split; [done |]. split.
    + intros Ha. destruct (Hnull Ha) as (Hp & -> & Hwhy). split; [done |]. split.
      * rewrite Hp, objects_length by lia. done.
      * destruct Hwhy as [Hge | Ez]; [left; lia | right]. by rewrite J2, Ho in Ez.
    + intros Ha. rewrite (proj2 (Z.eqb_neq _ _) Ha) in Sa. destruct Sa as (oth2 & kc2 & X2 & V2).
      destruct (serving_objects _ _ _ _ _ _ _ _ _ _ _ _ _ _ _ _ V2) as (Hnd2 & _ & _ & Hap2).
      apply NoDup_cons in Hnd2 as [Hni _]. split; [done |]. intros a' Ha'. apply Hap2; [by left | by right | by intros ->].
  - intros a Ha. destruct (serving_free km g stack_after c n osize bsize l t kc0 X0 m0 Hc m1 held a) as (m' & Ef & _); [by exists oth', kc, X | done |].
    by exists m'.
Qed.
End init.

(** ** A cache over the small machine of [PageFrame] *)

Definition init_cache : Z := 0x3000002000.
Definition init_bud : buddy :=
  match bk_alloc_zero demo_km demo_g 0 demo_ready with Ok (_, s) => s | Err _ => demo_ready end.
Definition init_kmem : kmem := mk_kmem init_bud ∅ ∅.
Definition init_demo (init : Z) := kmem_cache_init demo_km demo_g [0; 0; 0] init_cache 16 0 3 init init_kmem.

Lemma init_demo_args : init_args init_cache 202 16 4096 0 3.
Proof. split; try done; lia. Qed.

Lemma init_demo_room : exists t, init_room demo_km demo_g init_cache (mk_others 0x3000001000 ∅ ∅ []) [t] t init_kmem.
Proof.
  destruct demo_root as (t & s & E & (b & S) & _). exists t.
  assert (s = init_bud) as -> by (unfold init_bud; by rewrite E). clear E.
  assert (b = 0x3000001000) as ->.
  { pose proof (tp_base _ _ _ _ _ (sp_own _ _ _ _ _ S)) as Eb. cbn [o_base] in Eb. rewrite <-Eb. vm_compute. reflexivity. }
  split; [exact S | | intros q r Hq; by apply (lookup_empty_Some (M:=gmap Z) q r) in Hq].
  intros q Hq. unfold heads, free_of, partial_of, full_of, init_cache in Hq. rewrite !elem_of_cons, elem_of_nil in Hq.
  split; [intros k r Hk; by apply (lookup_empty_Some (M:=gmap Z) k r) in Hk |]. split.
  - intros o Ho. unfold order_ok in Ho. change MAX_ORDER with 6 in Ho. unfold pool_list, demo_g. lia.
  - intros i Hi. change (PGFRAME_PAGE_NUMS demo_km) with 8 in Hi. unfold buddy_node, sizeof_pageframe, offsetof_buddy_node. cbn [o_base]. lia.
Qed.


Lemma init_demo_runs : match init_demo 1 with
  | Ok (r, m0) => (r =? 0) && match kmem_obj_alloc demo_km demo_g [0; 0; 0] init_cache m0 with Ok (a, _) => negb (a =? NULL) | Err _ => false end
  | Err _ => false end = true.
Proof. vm_compute. reflexivity. Qed.

Lemma cache_serves_growing_witness :
  exists m0 a m1, init_demo 1 = Ok (0, m0) /\ kmem_obj_alloc demo_km demo_g [0; 0; 0] init_cache m0 = Ok (a, m1) /\
    exists a' m2, kmem_obj_alloc demo_km demo_g [0; 0; 0] init_cache m1 = Ok (a', m2) /\ (a' <> NULL -> apart 16 a' a) /\
    exists m3, kmem_obj_free demo_km init_cache a m1 = Ok (tt, m3).
Proof.
  destruct init_demo_room as (t & R). pose proof init_demo_runs as H.
  destruct (init_demo 1) as [[r m0] | e] eqn:E; [| done]. apply andb_prop in H as [Hr%Z.eqb_eq H]. subst r.
  destruct (kmem_obj_alloc demo_km demo_g [0; 0; 0] init_cache m0) as [[a m1] | e] eqn:Ea; [| done].
  pose proof (client_alloc _ _ _ _ _ _ _ _ _ (client_start demo_km demo_g [0; 0; 0] init_cache m0) Ea) as Hcl.
  apply negb_true_iff in H. rewrite H in Hcl.
  destruct (cache_serves_growing demo_km demo_g [0; 0; 0] init_cache 202 16 4096 0 3 init_demo_args ltac:(cbn; lia)
    _ _ _ _ 1 m0 m1 [a] ltac:(lia) R E Hcl) as (_ & _ & _ & _ & _ & _ & _ & _ & _ & (a' & m2 & Ea' & _ & Hn) & Hf).
  destruct (Hf a ltac:(by left)) as (m3 & Ef). exists m0, a, m1. do 2 (split; [done |]).
  exists a', m2. split; [exact Ea' |]. split; [intros Hne; apply Hn; [done | by left] | by exists m3].
Defined.
