(* ===== verification/VmaArea.v ===== *)
(** * Areas of an address space

    [include/mm/vm.h] and [module/mm/vm/vma_area_ops.c].  A [vma] keeps its
    areas twice: on the list [l_list], for iteration, and in the AVL tree
    [a_root], for search.  List nodes live in the list memory of the kernel,
    AVL nodes in [anodes]; both are addressed by the area that embeds them.
    Objects come from the slab allocator, over pages that were zeroed: a field
    that was never written reads as zero. *)
From S2P Require Import Prelude DList Cpu Locks KernelMap PageFrame Buddy Slab Avl.

(** ** [include/mm/vm.h] *)

(** [src/include/mm/vm.h:14-14 PROT_V] *)
Definition PROT_V : Z := Z.shiftl 1 0.
(** [src/include/mm/vm.h:15-15 PROT_R] *)
Definition PROT_R : Z := Z.shiftl 1 1.
(** [src/include/mm/vm.h:16-16 PROT_W] *)
Definition PROT_W : Z := Z.shiftl 1 2.
(** [src/include/mm/vm.h:17-17 PROT_X] *)
Definition PROT_X : Z := Z.shiftl 1 3.
(** [src/include/mm/vm.h:18-18 PROT_U] *)
Definition PROT_U : Z := Z.shiftl 1 4.
(** [src/include/mm/vm.h:19-19 PROT_G] *)
Definition PROT_G : Z := Z.shiftl 1 5.
(** [src/include/mm/vm.h:20-20 PROT_A] *)
Definition PROT_A : Z := Z.shiftl 1 6.
(** [src/include/mm/vm.h:21-21 PROT_D] *)
Definition PROT_D : Z := Z.shiftl 1 7.

(** [src/include/mm/vm.h:149-154 enum vma_area_type] *)
Inductive vmar_type := VMA_KERNEL | VMA_IO | VMA_MEMORY | VMA_NOREACH.

#[export] Instance vmar_type_eq_dec : EqDecision vmar_type.
Proof. solve_decision. Defined.

(** [src/include/mm/vm.h:156-168 struct vma_area] The nodes [l_node] and
    [a_node] are in the memories of list nodes and of AVL nodes; a page
    descriptor is named by its index. *)
Record vma_area := mk_area {
  vmar_typ : vmar_type; va : Z; size : Z; pa : Z; pgfm : option Z; prot : Z
}.

(** [src/include/mm/vm.h:170-176 struct vma] The list head [l_list] is in the
    list memory. *)
Record vma := mk_vma { rwlk : rwlock_t; hw_pgtable : Z; kernel_vma : Z; a_root : Z }.

(** Offsets of the embedded nodes, and [container_of]. *)
Definition l_node (area : Z) : Z := area + 48.
Definition a_node (area : Z) : Z := area + 64.
Definition of_l_node (n : Z) : Z := n - 48.
Definition of_a_node (n : Z) : Z := n - 64.
Definition l_list (v : Z) : Z := v + 40.
Definition sizeof_vma_area : Z := 96.
Definition sizeof_vma : Z := 56.

Definition with_pgfm (p : option Z) (a : vma_area) : vma_area :=
  mk_area (vmar_typ a) (va a) (size a) (pa a) p (prot a).
Definition with_lock (r : rwlock_t) (v : vma) : vma := mk_vma r (hw_pgtable v) (kernel_vma v) (a_root v).
Definition with_pgtable (p : Z) (v : vma) : vma := mk_vma (rwlk v) p (kernel_vma v) (a_root v).
Definition with_kernel (k : Z) (v : vma) : vma := mk_vma (rwlk v) (hw_pgtable v) k (a_root v).
Definition with_root (r : Z) (v : vma) : vma := mk_vma (rwlk v) (hw_pgtable v) (kernel_vma v) r.

Definition zero_area : vma_area := mk_area VMA_KERNEL 0 0 0 None 0.
Definition zero_vma : vma := mk_vma (mk_rwlock 0 0 0) 0 0 0.
Definition zero_node : avl_node := mk_avl 0 0 0 0.

(** ** The state of the component: the memory below it, its objects, its
    global variables and the register [satp]. *)
Record vms := mk_vms {
  mm : kmem;
  areas : gmap Z vma_area;
  anodes : gmap Z avl_node;
  vmas : gmap Z vma;
  kern_vma : Z;
  vma_cache : Z;
  vma_area_cache : Z;
  satp : Z
}.

Definition set_mm (x : kmem) (s : vms) : vms :=
  mk_vms x (areas s) (anodes s) (vmas s) (kern_vma s) (vma_cache s) (vma_area_cache s) (satp s).
Definition set_areas (x : gmap Z vma_area) (s : vms) : vms :=
  mk_vms (mm s) x (anodes s) (vmas s) (kern_vma s) (vma_cache s) (vma_area_cache s) (satp s).
Definition set_anodes (x : gmap Z avl_node) (s : vms) : vms :=
  mk_vms (mm s) (areas s) x (vmas s) (kern_vma s) (vma_cache s) (vma_area_cache s) (satp s).
Definition set_vmas (x : gmap Z vma) (s : vms) : vms :=
  mk_vms (mm s) (areas s) (anodes s) x (kern_vma s) (vma_cache s) (vma_area_cache s) (satp s).

Definition on_mm {A} (m : M kmem A) : M vms A := zoom mm set_mm m.
Definition on_heap {A} (m : M heap A) : M vms A := on_mm (on_list m).
Definition list_mem (s : vms) : heap := nodes (frames_of (bud (mm s))).
Definition get_area (a : Z) : M vms vma_area := zoom areas set_areas (load a).
Definition upd_area (a : Z) (f : vma_area -> vma_area) : M vms unit := zoom areas set_areas (update a f).
Definition get_vma (v : Z) : M vms vma := zoom vmas set_vmas (load v).
Definition upd_vma (v : Z) (f : vma -> vma) : M vms unit := zoom vmas set_vmas (update v f).

(** A computation on the AVL tree of a vma. *)
Definition on_avl {A} (v : Z) (m : M avl A) : M vms A := fun s =>
  match vmas s !! v with
  | None => Err BadPointer
  | Some k =>
    match m (mk_avl_state (anodes s) (a_root k)) with
    | Ok (a, t) => Ok (a, set_vmas (<[v := with_root (node t) k]> (vmas s)) (set_anodes (nmem t) s))
    | Err e => Err e
    end
  end.
(** A computation on an AVL node that may hang on no tree. *)
Definition on_anodes {A} (m : M avl A) : M vms A := fun s =>
  match m (mk_avl_state (anodes s) NULL) with
  | Ok (a, t) => Ok (a, set_anodes (nmem t) s)
  | Err e => Err e
  end.

(** The memory of a new object becomes an area, or a vma. *)
Definition raw_area (a : Z) : M vms unit :=
  modify (fun s => if decide (is_Some (areas s !! a)) then s else set_areas (<[a := zero_area]> (areas s)) s);;
  modify (fun s => if decide (is_Some (anodes s !! a_node a)) then s
                   else set_anodes (<[a_node a := zero_node]> (anodes s)) s);;
  on_mm (raw_list_head (l_node a)).
Definition raw_vma (v : Z) : M vms unit :=
  modify (fun s => if decide (is_Some (vmas s !! v)) then s else set_vmas (<[v := zero_vma]> (vmas s)) s);;
  on_mm (raw_list_head (l_list v)).

(** ** [module/mm/vm/vma_area_ops.c] *)

(** [src/module/mm/vm/vma_area_ops.c:5-15 vma_area_val_init] *)
Definition vma_area_val_init (area : Z) (vmar_tp : vmar_type) (va pa size : Z) (pgfm : option Z) (prot : Z) :
    M vms unit :=
  raw_area area;;
  on_anodes (avl_node_init (a_node area));;
  on_heap (INIT_NODE (l_node area));;
  upd_area area (fun _ => mk_area vmar_tp va size pa pgfm prot).

(** [src/module/mm/vm/vma_area_ops.c:17-20 vma_area_val_deinit] *)
Definition vma_area_val_deinit (area : Z) : M vms unit :=
  upd_area area (fun _ => zero_area);;
  modify (fun s => set_anodes (<[a_node area := zero_node]> (anodes s)) s);;
  on_heap (fun h => Ok (tt, <[l_node area := mk_list_head 0 0]> h)).

(** [src/module/mm/vm/vma_area_ops.c:22-35 insert_compare_vmarea] *)
Definition insert_compare_vmarea (want have : vma_area) : Z :=
  let ret := 0 in
  let ret := if negb ((u64 (va want + size want) <=? va have) || (u64 (va have + size have) <=? va want))
             then 0 else ret in
  let ret := if u64 (va want + size want) <=? va have then -1 else ret in
  if u64 (va have + size have) <=? va want then 1 else ret.

(** The area that embeds an AVL node, as a callback of a search sees it. *)
Definition area_at (ar : gmap Z vma_area) (n : Z) : vma_area := default zero_area (ar !! of_a_node n).

(** [src/module/mm/vm/vma_area_ops.c:37-52 vma_area_hang] *)
Definition vma_area_hang (v area : Z) : M vms Z :=
  ar ← gets areas;
  duplicated ← on_avl v (avl_node_add (a_node area)
    (fun have => insert_compare_vmarea (area_at ar (a_node area)) (area_at ar have)));
  if negb (duplicated =? NULL) then ret (- EEXIST)
  else
    duplicated ← on_avl v (avl_node_prev (a_node area));
    (if duplicated =? NULL then on_heap (list_add (l_node area) (l_list v))
     else on_heap (node_add_aft (l_node (of_a_node duplicated)) (l_node area)));;
    ret 0.

(** [src/module/mm/vm/vma_area_ops.c:54-59 vma_area_unhang] *)
Definition vma_area_unhang (v area : Z) : M vms unit :=
  on_heap (list_del (l_node area));;
  on_avl v (avl_node_erase (a_node area)).
