(* ===== verification/Vm.v ===== *)
(** * Address spaces

    [module/mm/vm/vm.c] and [module/mm/vm/vm_init.c]: mapping and unmapping of
    areas, copies of an address space, the self check and the initialisation of
    the module. *)
From Stdlib Require Import String.
From S2P Require Import Prelude DList Cpu Locks KernelMap PageFrame Buddy Slab Avl Sv39 VmaArea.

(** ** Access to the components below *)

Definition on_pages {A} (m : M buddy A) : M vms A := on_mm (on_bud m).
Definition on_satp {A} (m : M Z A) : M vms A := zoom satp
  (fun x s => mk_vms (mm s) (areas s) (anodes s) (vmas s) (kern_vma s) (vma_cache s) (vma_area_cache s) x) m.
(** [rwlock] operations on [&vma->rwlk]. *)
Definition rwlk_do (v : Z) (m : M rwlock_t unit) : M vms unit := fun s =>
  match vmas s !! v with
  | None => Err BadPointer
  | Some k =>
    match m (rwlk k) with
    | Ok (_, r) => Ok (tt, set_vmas (<[v := with_lock r k]> (vmas s)) s)
    | Err e => Err e
    end
  end.

Definition minus_one : Z := 2 ^ 64 - 1.
Definition add_ref (d : Z) (p : pageframe) : pageframe := with_other (s32 (ref_count p + d)) (vma_flags p) p.
Definition order_size (order : Z) : Z := u64 (Z.shiftl 1 order * PAGE_SIZE).

Section vm.
(** The memory map, the addresses of [g_buddy] and [slab_kmm_cache], and the
    stack bytes read by the slab colour (see [Slab]). *)
Context (km : kernel_mapping) (g_buddy : Z) (stack_after : list Z) (slab_kmm_cache : Z).

(** ** [include/mm/vm.h] *)

(** [src/include/mm/vm.h:66-70 hw_mmap] *)
Definition hw_mmap (pgtable va pa prot size : Z) : M vms Z :=
  on_pages (__arch_hw_mmap km g_buddy pgtable va pa prot size).
(** [src/include/mm/vm.h:84-87 hw_unmap] *)
Definition hw_unmap (pgtable va size : Z) : M vms unit := on_pages (__arch_hw_unmap km g_buddy pgtable va size).
(** [src/include/mm/vm.h:96-99 hw_unmap_all] *)
Definition hw_unmap_all (pgtable : Z) : M vms unit := on_pages (__arch_hw_unmap_all km g_buddy pgtable).
(** [src/include/mm/vm.h:111-114 hw_reset_prot] *)
Definition hw_reset_prot (pgtable prot va size : Z) : M vms unit :=
  on_pages (__arch_hw_reset_prot pgtable prot va size).
(** [src/include/mm/vm.h:125-128 hw_get_current_pgtable] *)
Definition hw_get_current_pgtable : M vms Z := on_satp (__arch_hw_get_current_pgtable km).
(** [src/include/mm/vm.h:137-140 hw_load_pgtable] *)
Definition hw_load_pgtable (pgtable : Z) : M vms unit := on_satp (__arch_hw_load_pgtable km pgtable).

(** ** Mapping *)

Definition obj_alloc (cache : Z) : M vms Z := on_mm (kmem_obj_alloc km g_buddy stack_after cache).
Definition obj_free (cache p : Z) : M vms unit := on_mm (kmem_obj_free km cache p).

(** A descriptor that backs the area [a]: the assertions of lines 37-39 and
    117-119. *)
Definition backs (p : pageframe) (a : vma_area) : bool :=
  bool_decide (pgtype p = PageFrame.VMA_AREA) && (buddy_flags p =? PG_BUDDY_FLAG_HEAD)
  && (order_size (buddy_order p) =? size a).

(** [src/module/mm/vm/vm.c:12-18 mmap_kernel_io_hw_cb] *)
Definition mmap_kernel_io_hw_cb (v area : Z) : M vms Z :=
  k ← get_vma v;
  a ← get_area area;
  ret' ← hw_mmap (hw_pgtable k) (va a) (pa a) (prot a) (size a);
  ASSERT (negb (ret' =? - EEXIST));;
  ret ret'.

(** [src/module/mm/vm/vm.c:19-44 mmap_memory_cb] *)
Definition mmap_memory_cb (v area : Z) : M vms Z :=
  a ← get_area area;
  ASSERT (bool_decide (pgfm a = None));;
  if pa a =? minus_one then ret 0
  else
    ASSERT (pa_valid km (pa a));;
    k ← get_vma v;
    ret' ← hw_mmap (hw_pgtable k) (va a) (pa a) (prot a) (size a);
    ASSERT (negb (ret' =? - EEXIST));;
    if negb (ret' =? 0) then ret ret'
    else
      let pg := pa2pg km (pa a) in
      on_pages (lock_pgfm pg);;
      p ← on_pages (get_page pg);
      ASSERT (backs p a);;
      on_pages (set_page pg (add_ref 1));;
      on_pages (unlock_pgfm pg);;
      upd_area area (with_pgfm (Some pg));;
      ret 0.

(** [src/module/mm/vm/vm.c:46-51 hw_map_callbacks] The table has no entry for
    [VMA_NOREACH]. *)
Definition hw_map_callbacks (t : vmar_type) : Z -> Z -> M vms Z :=
  match t with
  | VMA_KERNEL => mmap_kernel_io_hw_cb
  | VMA_IO => mmap_kernel_io_hw_cb
  | VMA_MEMORY => mmap_memory_cb
  | VMA_NOREACH => fun _ _ => fail BadPointer
  end.

(** [src/module/mm/vm/vm.c:53-84 __vm_mmap] *)
Definition __vm_mmap (v va pa prot size : Z) (type : vmar_type) (need_hwmap : bool) : M vms Z :=
  ASSERT (negb (v =? NULL) && (0 <? size) && VAL_IS_PAGE_ALIGNED va && VAL_IS_PAGE_ALIGNED pa
          && VAL_IS_PAGE_ALIGNED size);;
  ASSERT (negb (bool_decide (type = VMA_NOREACH)));;
  cache ← gets vma_area_cache;
  area ← obj_alloc cache;
  if area =? NULL then ret (- ENOBUFS)
  else
    vma_area_val_init area type va pa size None prot;;
    rwlk_do v (take WriterBr);;
    ret' ← vma_area_hang v area;
    if negb (ret' =? 0) then
      obj_free cache area;; rwlk_do v (drop WriterBr);; ret ret'
    else
      ret' ← (if need_hwmap then hw_map_callbacks type v area else ret 0);
      if negb (ret' =? 0) then
        vma_area_unhang v area;;
        obj_free cache area;; rwlk_do v (drop WriterBr);; ret ret'
      else rwlk_do v (drop WriterBr);; ret 0.

(** ** Unmapping *)

(** [src/module/mm/vm/vm.c:86-89 struct find_helper] *)
Record find_helper := mk_find { f_va : Z; f_size : Z }.

(** [src/module/mm/vm/vm.c:90-100 find_compare] *)
Definition find_compare (key : find_helper) (have : vma_area) : Z :=
  if (f_va key =? va have) && (f_size key =? size have) then 0
  else if u64 (va have + size have) <=? f_va key then 1
  else if u64 (f_va key + f_size key) <=? va have then -1
  else -1.

(** [src/module/mm/vm/vm.c:101-104 hw_unmap_kernel_io] *)
Definition hw_unmap_kernel_io (v area : Z) : M vms unit :=
  k ← get_vma v; a ← get_area area; hw_unmap (hw_pgtable k) (va a) (size a).

(** [src/module/mm/vm/vm.c:105-132 unmmap_memory_cb] *)
Definition unmmap_memory_cb (v area : Z) : M vms unit :=
  a ← get_area area;
  if pa a =? minus_one then ASSERT (bool_decide (pgfm a = None))
  else
    match pgfm a with
    | None => fail AssertFailed
    | Some pg =>
      on_pages (lock_pgfm pg);;
      p ← on_pages (get_page pg);
      ASSERT (backs p a);;
      on_pages (set_page pg (add_ref (-1)));;
      p ← on_pages (get_page pg);
      (if ref_count p =? 0 then
         on_pages (set_page pg (with_type PAGE_BUDDYALLOCATOR));;
         on_pages (unlock_pgfm pg);;
         on_pages (bkp_free km g_buddy (Some pg))
       else on_pages (unlock_pgfm pg));;
      upd_area area (with_pgfm None);;
      k ← get_vma v;
      hw_unmap (hw_pgtable k) (va a) (size a)
    end.

(** [src/module/mm/vm/vm.c:134-139 hw_unmap_callbacks] *)
Definition hw_unmap_callbacks (t : vmar_type) : Z -> Z -> M vms unit :=
  match t with
  | VMA_KERNEL => hw_unmap_kernel_io
  | VMA_IO => hw_unmap_kernel_io
  | VMA_MEMORY => unmmap_memory_cb
  | VMA_NOREACH => fun _ _ => fail BadPointer
  end.

(** [src/module/mm/vm/vm.c:140-172 __vm_unmap] *)
Definition __vm_unmap (v va_ size_ : Z) (type : vmar_type) (need_hwunmap : bool) : M vms Z :=
  ASSERT (negb (v =? NULL) && (0 <? size_) && VAL_IS_PAGE_ALIGNED va_ && VAL_IS_PAGE_ALIGNED size_);;
  let fd_hp := mk_find va_ size_ in
  rwlk_do v (take WriterBr);;
  ar ← gets areas;
  res ← on_avl v (avl_node_find (fun have => find_compare fd_hp (area_at ar have)));
  if res =? NULL then rwlk_do v (drop WriterBr);; ret (- ENOBUFS)
  else
    let area := of_a_node res in
    a ← get_area area;
    ASSERT ((va a =? va_) && (size a =? size_));;
    if negb (bool_decide (vmar_typ a = type)) then rwlk_do v (drop WriterBr);; ret (- EPERM)
    else
      vma_area_unhang v area;;
      when need_hwunmap (hw_unmap_callbacks type v area);;
      cache ← gets vma_area_cache;
      obj_free cache area;;
      rwlk_do v (drop WriterBr);;
      ret 0.

(** ** The interface *)

(** [src/module/mm/vm/vm.c:193-200 vma_free (areas)] *)
Definition free_areas (v : Z) : M vms unit :=
  first ← on_heap (get_next (l_list v));
  fuel ← gets (fun s => list_fuel (list_mem s));
  list_for_each_safe (A := unit) (R := unit) list_mem fuel (l_list v) first
    (fun _ iterator =>
       let area := of_l_node iterator in
       vma_area_unhang v area;;
       a ← get_area area;
       hw_unmap_callbacks (vmar_typ a) v area;;
       cache ← gets vma_area_cache;
       obj_free cache area;;
       ret (Next tt)) tt;;
  ret tt.

(** [src/module/mm/vm/vm.c:192-202 vma_free (areas and tables)] *)
Definition release_space (v : Z) : M vms unit :=
  rwlk_do v (take WriterBr);;
  free_areas v;;
  k ← get_vma v;
  hw_unmap_all (hw_pgtable k);;
  rwlk_do v (drop WriterBr).

(** [src/module/mm/vm/vm.c:203-204 vma_free (the vma)] *)
Definition discard_space (v : Z) : M vms unit :=
  upd_vma v (fun _ => zero_vma);;
  on_heap (fun h => Ok (tt, <[l_list v := mk_list_head 0 0]> h));;
  cache ← gets vma_cache;
  obj_free cache v.

(** [src/module/mm/vm/vm.c:179-206 vma_free] The message of line 185 is left
    out. *)
Definition vma_free (v : Z) : M vms unit :=
  if v =? NULL then ret tt
  else
    kvma ← gets kern_vma;
    if v =? kvma then ret tt
    else
      k ← get_vma v;
      if negb (kernel_vma k =? kvma) then ret tt
      else
        release_space v;; discard_space v.

(** [src/module/mm/vm/vm.c:208-223 vm_iomap] *)
Definition vm_iomap (v va pa prot size : Z) : M vms Z :=
  if negb ((PGFRAME_VA_END km <=? va) || (u64 (va + size) <=? PGFRAME_VA_START km)) then ret (- EPERM)
  else if negb ((PGFRAME_PA_END km <=? pa) || (u64 (pa + size) <=? PGFRAME_PA_START km)) then ret (- EPERM)
  else if v =? NULL then ret (- EFAULT)
  else if negb (Z.land va PAGE_ALIGN_BIT =? Z.land pa PAGE_ALIGN_BIT) || (size <=? 0) then ret (- EFAULT)
  else if negb (VAL_IS_PAGE_ALIGNED va) then ret (- EFAULT)
  else __vm_mmap v va pa prot (PAGE_UPPER_ALIGN size) VMA_IO true.

(** [src/module/mm/vm/vm.c:225-235 vm_iounmap] *)
Definition vm_iounmap (v va size : Z) : M vms Z :=
  if negb ((PGFRAME_VA_END km <=? va) || (u64 (va + size) <=? PGFRAME_VA_START km)) then ret (- EPERM)
  else if v =? NULL then ret (- EFAULT)
  else if negb (VAL_IS_PAGE_ALIGNED va) then ret (- EFAULT)
  else __vm_unmap v va (PAGE_UPPER_ALIGN size) VMA_IO true.

(** A fresh block becomes the memory of an area: lines 246-253 and 348-355. *)
Definition claim_page (pg order : Z) : M vms unit :=
  on_pages (lock_pgfm pg);;
  p ← on_pages (get_page pg);
  ASSERT ((buddy_order p =? order) && (buddy_flags p =? PG_BUDDY_FLAG_HEAD)
          && bool_decide (pgtype p = PAGE_BUDDYALLOCATOR));;
  on_pages (set_page pg (with_type PageFrame.VMA_AREA));;
  on_pages (set_page pg (fun p => with_other 0 (vma_flags p) p));;
  on_pages (set_page pg (fun p => with_other (ref_count p) 0 p));;
  on_pages (unlock_pgfm pg).

(** [src/module/mm/vm/vm.c:237-265 vm_mmap] *)
Definition vm_mmap (v va order prot : Z) : M vms Z :=
  if (v =? NULL) || negb (VAL_IS_PAGE_ALIGNED va) || negb ((0 <=? order) && (order <? MAX_ORDER))
  then ret (- EFAULT)
  else
    pgfm ← on_pages (bkp_alloc_zero km g_buddy order);
    match pgfm with
    | None => ret (- ENOMEM)
    | Some pg =>
      claim_page pg order;;
      ret' ← __vm_mmap v va (pg2pa km pg) prot (order_size order) VMA_MEMORY true;
      if negb (ret' =? 0) then
        on_pages (lock_pgfm pg);;
        on_pages (set_page pg (with_type PAGE_BUDDYALLOCATOR));;
        on_pages (set_page pg (with_other 0 0));;
        on_pages (unlock_pgfm pg);;
        on_pages (bkp_free km g_buddy (Some pg));;
        ret ret'
      else ret 0
    end.

(** [src/module/mm/vm/vm.c:267-270 vm_mmap_lazy] *)
Definition vm_mmap_lazy (v va order prot : Z) : M vms Z := ret (- EFAULT).

(** [src/module/mm/vm/vm.c:272-279 vm_unmap] *)
Definition vm_unmap (v va order : Z) : M vms Z :=
  if (v =? NULL) || negb (VAL_IS_PAGE_ALIGNED va) then ret (- EFAULT)
  else
    k ← get_vma v;
    kvma ← gets kern_vma;
    if negb (kernel_vma k =? kvma) || negb ((0 <=? order) && (order <? MAX_ORDER)) then ret (- EFAULT)
    else __vm_unmap v va (order_size order) VMA_MEMORY true.

(** ** Copying an address space *)

(** [src/module/mm/vm/vm.c:333-377 vma_dup (memory areas)] Whether the area is
    mapped in the copy [new]. *)
Definition dup_memory (new : Z) (a : vma_area) : M vms bool :=
  ASSERT (negb (bool_decide (pgfm a = None)) && negb (pa a =? minus_one));;
  if negb (Z.land (prot a) PROT_W =? 0) then
    let want_order := PGNUM2ORDER (s32 (size a / PAGE_SIZE)) in
    ASSERT (0 <=? want_order);;
    pgfm ← on_pages (bkp_alloc_zero km g_buddy want_order);
    match pgfm with
    | None => ret false
    | Some pg =>
      claim_page pg want_order;;
      r ← __vm_mmap new (va a) (pg2pa km pg) (prot a) (size a) (vmar_typ a) true;
      if negb (r =? 0) then
        on_pages (lock_pgfm pg);;
        on_pages (set_page pg (with_type PAGE_BUDDYALLOCATOR));;
        on_pages (unlock_pgfm pg);;
        on_pages (bkp_free km g_buddy (Some pg));;
        ret false
      else ret true
    end
  else
    r ← __vm_mmap new (va a) (pa a) (prot a) (size a) (vmar_typ a) true;
    ret (r =? 0).

(** [src/module/mm/vm/vm.c:302-378 vma_dup (one area)] *)
Definition dup_area (new area : Z) : M vms bool :=
  a ← get_area area;
  if bool_decide (vmar_typ a = VMA_IO) || bool_decide (vmar_typ a = VMA_KERNEL) then
    ASSERT (VAL_IS_PAGE_ALIGNED (va a) && VAL_IS_PAGE_ALIGNED (pa a) && VAL_IS_PAGE_ALIGNED (size a)
            && (0 <? size a) && bool_decide (pgfm a = None));;
    r ← __vm_mmap new (va a) (pa a) (prot a) (size a) (vmar_typ a) true;
    ret (r =? 0)
  else
    ASSERT (bool_decide (vmar_typ a = VMA_MEMORY));;
    ASSERT (VAL_IS_PAGE_ALIGNED (va a) && VAL_IS_PAGE_ALIGNED (size a) && (0 <? size a));;
    if pa a =? minus_one then
      ASSERT (bool_decide (pgfm a = None));;
      r ← __vm_mmap new (va a) (pa a) (prot a) (size a) (vmar_typ a) true;
      ret (r =? 0)
    else dup_memory new a.

(** [src/module/mm/vm/vm.c:281-389 vma_dup] *)
Definition vma_dup (vma_copied : Z) : M vms Z :=
  if vma_copied =? NULL then ret NULL
  else
    c ← get_vma vma_copied;
    kvma ← gets kern_vma;
    if negb (kernel_vma c =? kvma) || (hw_pgtable c =? NULL) then ret NULL
    else
      cache ← gets vma_cache;
      new ← obj_alloc cache;
      if new =? NULL then ret new
      else
        raw_vma new;;
        n ← get_vma new;
        ASSERT ((hw_pgtable n =? 0) && (kernel_vma n =? 0));;
        pgt ← on_pages (bk_alloc_zero km g_buddy 0);
        upd_vma new (with_pgtable pgt);;
        if pgt =? NULL then obj_free cache new;; ret NULL
        else
          upd_vma new (fun n => with_lock (rwlock_init (rwlk n)) n);;
          upd_vma new (with_kernel kvma);;
          on_avl new avl_root_init;;
          on_heap (INIT_LIST_HEAD (l_list new));;
          rwlk_do vma_copied (take Reader);;
          first ← on_heap (get_next (l_list vma_copied));
          fuel ← gets (fun s => list_fuel (list_mem s));
          r ← list_for_each (A := unit) (R := unit) list_mem fuel (l_list vma_copied) first
            (fun _ iterator =>
               ok ← dup_area new (of_l_node iterator);
               if ok : bool then ret (Next tt)
               else rwlk_do vma_copied (drop Reader);; ret (Return tt)) tt;
          match r with
          | Next _ => rwlk_do vma_copied (drop Reader);; ret new
          | Return _ => vma_free new;; ret NULL
          end.

(** [src/module/mm/vm/vm.c:174-177 vma_alloc] *)
Definition vma_alloc : M vms Z := kvma ← gets kern_vma; vma_dup kvma.

(** [src/module/mm/vm/vm.c:391-394 vma_dup_cow] *)
Definition vma_dup_cow (vma_copied : Z) : M vms Z := ret NULL.

(** [info.obj_num] after [kmem_cached_info(cache, &info)], [info] being a local
    at a non-null address. *)
Definition cached_number (cache : Z) : M vms Z :=
  info ← on_mm (kmem_cached_info cache 1);
  match info with Some i => ret (i_obj_num i) | None => fail BadPointer end.

(** [src/module/mm/vm/vm.c:396-401 vma_cache_number] *)
Definition vma_cache_number : M vms Z := cache ← gets vma_cache; cached_number cache.
(** [src/module/mm/vm/vm.c:403-408 vma_area_cache_number] *)
Definition vma_area_cache_number : M vms Z := cache ← gets vma_area_cache; cached_number cache.

(** ** Checks and dumps *)

(** [src/module/mm/vm/vm.c:424-459 vm_check (one area)] [bef] and [size] are
    those of the area before. *)
Definition area_ok (a : vma_area) (bef size_ : Z) : bool :=
  (VAL_IS_PAGE_ALIGNED (va a) && VAL_IS_PAGE_ALIGNED (pa a) && VAL_IS_PAGE_ALIGNED (size a) && (0 <? size a))
  && (if bool_decide (vmar_typ a = VMA_IO) || bool_decide (vmar_typ a = VMA_KERNEL)
      then bool_decide (pgfm a = None) else true)
  && negb (Z.land (prot a) PROT_V =? 0)
  && (if bef =? minus_one then true else u64 (bef + size_) <=? va a).

(** [src/module/mm/vm/vm.c:410-473 vm_check] The returns of lines 416 and 418
    leave the lock taken. *)
Definition vm_check (v : Z) : M vms Z :=
  if v =? NULL then ret (- EFAULT)
  else
    rwlk_do v (take Reader);;
    k ← get_vma v;
    kvma ← gets kern_vma;
    if hw_pgtable k =? NULL then ret (- EFAULT)
    else if negb (kernel_vma k =? kvma) then ret (- EFAULT)
    else
      first ← on_heap (get_next (l_list v));
      fuel ← gets (fun s => list_fuel (list_mem s));
      r ← list_for_each (R := Z) list_mem fuel (l_list v) first
        (fun '(bef, size_) iterator =>
           let area := of_l_node iterator in
           a ← get_area area;
           if negb (area_ok a bef size_) then rwlk_do v (drop Reader);; ret (Return (- EFAULT))
           else
             ar ← gets areas;
             res ← on_avl v (avl_node_find (fun have => find_compare (mk_find (va a) (size a)) (area_at ar have)));
             if (res =? NULL) || negb (of_a_node res =? area) then
               rwlk_do v (drop Reader);; ret (Return (- EFAULT))
             else ret (Next (va a, size a))) (minus_one, minus_one);
      match r with
      | Next _ => rwlk_do v (drop Reader);; ret 0
      | Return e => ret e
      end.

(** What [out_cb] is called with: a format and its arguments. *)
Definition output : Type := (string * list Z)%type.

(** The argument of [%p] for a descriptor of the array at [base]. *)
Definition pgfm_ptr (base : Z) (pg : option Z) : Z :=
  match pg with None => NULL | Some i => base + sizeof_pageframe * i end.

(** [src/module/mm/vm/vm.c:484-515 vm_dump_information (one area)] Each message
    ends with a newline, left out here. *)
Definition dump_area (base : Z) (a : vma_area) : list output :=
  let flag (bit : Z) (c : string) := (if Z.land (prot a) bit =? 0 then "-"%string else c, @nil Z) in
  match vmar_typ a with
  | VMA_KERNEL => [("[VMA ] vma_type :   VMA_KERNEL"%string, [])]
  | VMA_IO => [("[VMA ] vma_type :   VMA_IO"%string, [])]
  | VMA_MEMORY => [("[VMA ] vma_type :   VMA_MEMORY"%string, [])]
  | VMA_NOREACH => []
  end ++
  [("[VMA ] vma_area va: 0x%p"%string, [va a]);
   ("[VMA ] vma_area pa: 0x%p"%string, [pa a]);
   ("[VMA ] vma_area sz: 0x%p"%string, [size a]);
   ("[VMA ] vma_area pf: 0x%p"%string, [pgfm_ptr base (pgfm a)]);
   ("[VMA ] area permin: "%string, []);
   flag PROT_R "r"%string; flag PROT_W "w"%string; flag PROT_X "x"%string;
   flag PROT_V "v"%string; flag PROT_U "u"%string].

(** [src/module/mm/vm/vm.c:475-518 vm_dump_information] The result is the
    sequence of calls of [out_cb]. *)
Definition vm_dump_information (v : Z) : M vms (list output) :=
  ASSERT (negb (v =? NULL));;
  rwlk_do v (take Reader);;
  k ← get_vma v;
  let head := [("[VMA ] hw_pgtable : 0x%p"%string, [hw_pgtable k]);
               ("[VMA ] kenrne_vma : 0x%p"%string, [kernel_vma k])] in
  base ← gets (fun s => pgframe_pages (frames_of (bud (mm s))));
  first ← on_heap (get_next (l_list v));
  fuel ← gets (fun s => list_fuel (list_mem s));
  r ← list_for_each (R := unit) list_mem fuel (l_list v) first
    (fun out iterator =>
       a ← get_area (of_l_node iterator);
       ret (Next (out ++ dump_area base a))) head;
  rwlk_do v (drop Reader);;
  ret (match r with Next out => out | Return _ => [] end).

(** ** [module/mm/vm/vm_init.c] *)

Definition set_caches (c a : Z) (s : vms) : vms :=
  mk_vms (mm s) (areas s) (anodes s) (vmas s) (kern_vma s) c a (satp s).
Definition set_kern (v : Z) (s : vms) : vms :=
  mk_vms (mm s) (areas s) (anodes s) (vmas s) v (vma_cache s) (vma_area_cache s) (satp s).

(** [src/module/mm/vm/vm_init.c:83-93 vm_module_init (error exits)] The labels
    from [vma_area_cache_deinit] on. *)
Definition undo_caches : M vms unit :=
  c ← gets vma_cache; a ← gets vma_area_cache;
  on_mm (kmem_cache_deinit km g_buddy a);;
  on_mm (kmem_cache_deinit km g_buddy c);;
  on_mm (kmem_cache_free km slab_kmm_cache a);;
  on_mm (kmem_cache_free km slab_kmm_cache c).

(** [src/module/mm/vm/vm_init.c:51-66 vm_module_init (kernel space)] *)
Definition init_kern_vma (seperate_line : Z) : M vms Z :=
  v ← gets kern_vma;
  raw_vma v;;
  upd_vma v (fun n => with_lock (rwlock_init (rwlk n)) n);;
  upd_vma v (with_kernel v);;
  pgt ← hw_get_current_pgtable;
  upd_vma v (with_pgtable pgt);;
  on_avl v avl_root_init;;
  on_heap (INIT_LIST_HEAD (l_list v));;
  ASSERT (VAL_IS_PAGE_ALIGNED seperate_line);;
  ASSERT (0 <? u64 (seperate_line - PGFRAME_VA_START km));;
  let seperate_size := u64 (seperate_line - PGFRAME_VA_START km) in
  r ← __vm_mmap v (PGFRAME_VA_START km) (PGFRAME_PA_START km) (Z.lor PROT_V (Z.lor PROT_X PROT_R))
    seperate_size VMA_KERNEL false;
  if r <? 0 then ret r
  else
    __vm_mmap v (u64 (PGFRAME_VA_START km + seperate_size)) (u64 (PGFRAME_PA_START km + seperate_size))
      (Z.lor PROT_V (Z.lor PROT_W PROT_R)) (u64 (PGFRAME_SIZE km - seperate_size)) VMA_KERNEL false.

(** The module's counters [vm_module_init_done], [init_vma_num] and
    [init_vma_area_num]. *)
Record vm_module := mk_module { init_done : Z; init_vma_num : Z; init_vma_area_num : Z; space : vms }.

Definition on_space {A} (m : M vms A) : M vm_module A :=
  zoom space (fun s x => mk_module (init_done x) (init_vma_num x) (init_vma_area_num x) s) m.

(** [src/module/mm/vm/vm_init.c:22-94 vm_module_init] [seperate_line] is the
    linker symbol; messages are left out, but [vm_dump_information] is run. *)
Definition vm_module_init (seperate_line : Z) : M vm_module Z :=
  done ← gets init_done;
  if negb (done =? 0) then ret 0
  else
    c ← on_space (on_mm (kmem_cache_alloc km g_buddy stack_after slab_kmm_cache));
    on_space (modify (fun s => set_caches c (vma_area_cache s) s));;
    if c =? NULL then ret (- ENOBUFS)
    else
      a ← on_space (on_mm (kmem_cache_alloc km g_buddy stack_after slab_kmm_cache));
      on_space (modify (set_caches c a));;
      if a =? NULL then on_space (on_mm (kmem_cache_free km slab_kmm_cache c));; ret (- ENOBUFS)
      else
        r ← on_space (on_mm (kmem_cache_init km g_buddy stack_after c sizeof_vma 0 3000 3));
        if r <? 0 then
          on_space (on_mm (kmem_cache_free km slab_kmm_cache a));;
          on_space (on_mm (kmem_cache_free km slab_kmm_cache c));; ret r
        else
          r ← on_space (on_mm (kmem_cache_init km g_buddy stack_after a sizeof_vma_area 0 3000 30));
          if r <? 0 then
            on_space (on_mm (kmem_cache_deinit km g_buddy c));;
            on_space (on_mm (kmem_cache_free km slab_kmm_cache a));;
            on_space (on_mm (kmem_cache_free km slab_kmm_cache c));; ret r
          else
            v ← on_space (obj_alloc c);
            on_space (modify (set_kern v));;
            if v =? NULL then on_space undo_caches;; ret (- ENOBUFS)
            else
              r ← on_space (init_kern_vma seperate_line);
              if r <? 0 then on_space (vma_free v;; undo_caches);; ret r
              else
                kc ← on_space (on_mm (get_cache c));
                modify (fun x => mk_module (init_done x) (obj_num kc) (init_vma_area_num x) (space x));;
                ka ← on_space (on_mm (get_cache a));
                modify (fun x => mk_module (init_done x) (init_vma_num x) (obj_num ka) (space x));;
                on_space (vm_dump_information v);;
                r ← on_space (vm_check v);
                modify (fun x => mk_module (u32 (init_done x + 1)) (init_vma_num x) (init_vma_area_num x) (space x));;
                ret r.
End vm.
