(* ===== verification/VmaSpec.v ===== *)
(** * Areas of an address space: the specification

    An address space is the ascending sequence of its areas.  [aspace] ties
    that sequence to the two places where a [vma] keeps it, the list [l_list]
    and the tree [a_root]; [vma_area_hang], [vma_area_unhang] and the search of
    [__vm_unmap] are shown to implement the insertion, removal and lookup of a
    sequence of disjoint ranges. *)
From Stdlib Require Import Sorted.
From S2P Require Import Prelude DList Cpu Locks KernelMap PageFrame Buddy Slab Avl VmaArea AvlSpec Sv39 Vm.

(** ** Ranges *)

Definition fits (x : vma_area) : Prop := 0 <= va x /\ 0 < size x /\ va x + size x < 2 ^ 64.
Definition ends_before (x y : vma_area) : Prop := va x + size x <= va y.
Definition overlaps (x y : vma_area) : bool :=
  (va x <? va y + size y) && (va y <? va x + size x).

(** An area of a sequence: its address and its contents. *)
Definition entry : Type := (Z * vma_area)%type.
Definition ascending (D : list entry) : Prop := StronglySorted (fun e f : entry => ends_before e.2 f.2) D.

Fixpoint place_area (e : entry) (D : list entry) : list entry :=
  match D with
  | [] => [e]
  | f :: D' => if va f.2 + size f.2 <=? va e.2 then f :: place_area e D' else e :: D
  end.
(** The insertion of an area: refused when it meets another one. *)
Definition hang_spec (e : entry) (D : list entry) : option (list entry) :=
  if existsb (fun f : entry => overlaps e.2 f.2) D then None else Some (place_area e D).
(** The area that covers exactly [size_] bytes from [va_]. *)
Definition find_area (va_ size_ : Z) (D : list entry) : Z :=
  match find (fun e : entry => (va e.2 =? va_) && (size e.2 =? size_)) D with
  | Some e => e.1
  | None => NULL
  end.

Lemma u64_end x : fits x -> u64 (va x + size x) = va x + size x.
Proof. intros (? & ? & ?). apply u64_small. lia. Qed.

(** What the callback of an insertion answers. *)
Lemma insert_compare_spec x y :
  fits x -> fits y ->
  insert_compare_vmarea x y =
    if va y + size y <=? va x then 1 else if va x + size x <=? va y then -1 else 0.
Proof.
  intros Hx Hy. unfold insert_compare_vmarea. rewrite !u64_end by done.
  destruct (va y + size y <=? va x); [done |]. destruct (va x + size x <=? va y); [done |].
  by destruct (negb _).
Qed.

(** What the callback of a search answers: [find_compare] on a range that may
    meet any number of areas. *)
Lemma find_compare_spec key y :
  fits y ->
  find_compare key y =
    if (f_va key =? va y) && (f_size key =? size y) then 0
    else if va y + size y <=? f_va key then 1 else -1.
Proof.
  intros Hy. unfold find_compare. rewrite u64_end by done.
  destruct (_ && _); [done |]. destruct (_ <=? f_va key); [done |]. by destruct (_ <=? va y).
Qed.

Lemma ascending_app (D1 D2 : list entry) :
  ascending (D1 ++ D2) <->
  ascending D1 /\ ascending D2 /\ (forall e f : entry, (e ∈ D1) -> (f ∈ D2) -> ends_before e.2 f.2).
Proof.
  unfold ascending. induction D1 as [|g D1 IH]; cbn.
  - split; [intros H; split; [constructor |]; split; [done | by intros ? ? ?%elem_of_nil] | tauto].
  - split.
    + intros [H1 H2]%StronglySorted_inv. apply IH in H1 as (Ha & Hb & Hc).
      apply Forall_app in H2 as [H2 H3]. rewrite Forall_forall in H3.
      split; [by constructor |]. split; [done |].
      intros e f [-> | Hin]%elem_of_cons Hf; [by apply H3 | by apply Hc].
    + intros ([H1 H2]%StronglySorted_inv & Hb & Hc). constructor.
      * apply IH. split; [done |]. split; [done |]. intros; apply Hc; set_solver.
      * apply Forall_app. split; [done |]. apply Forall_forall. intros f Hf. apply Hc; set_solver.
Qed.

Lemma ascending_cons (e : entry) (D : list entry) :
  ascending (e :: D) <-> Forall (fun f : entry => ends_before e.2 f.2) D /\ ascending D.
Proof.
  split; [by intros [? ?]%StronglySorted_inv | intros [? ?]; by constructor].
Qed.

Lemma ascending_place (D1 : list entry) (e : entry) (D2 : list entry) :
  ascending (D1 ++ D2) -> Forall (fun f : entry => ends_before f.2 e.2) D1 ->
  Forall (fun f : entry => ends_before e.2 f.2) D2 -> ascending (D1 ++ e :: D2).
Proof.
  rewrite !ascending_app, ascending_cons. intros (H1 & H2 & H12) F1 F2.
  rewrite Forall_forall in F1. split; [done |]. split; [done |].
  intros f g Hf [-> | Hg]%elem_of_cons; auto.
Qed.

Lemma ascending_drop (D1 : list entry) (e : entry) (D2 : list entry) : ascending (D1 ++ e :: D2) -> ascending (D1 ++ D2).
Proof.
  rewrite !ascending_app, ascending_cons. intros (H1 & [_ H2] & H12).
  split; [done |]. split; [done |]. intros f g Hf Hg. apply H12; set_solver.
Qed.

Lemma place_area_split (D1 : list entry) (e : entry) (D2 : list entry) :
  Forall (fun f : entry => ends_before f.2 e.2) D1 -> Forall (fun f : entry => ends_before e.2 f.2) D2 ->
  fits e.2 -> Forall (fun f : entry => fits f.2) D2 -> place_area e (D1 ++ D2) = D1 ++ e :: D2.
Proof.
  unfold ends_before. intros H1 H2 He Hf. induction H1 as [|g D1 Hg H1 IH]; cbn.
  - destruct D2 as [|g D2]; [done |]. cbn.
    apply Forall_inv in H2. apply Forall_inv in Hf. unfold fits in *.
    by rewrite (proj2 (Z.leb_gt _ _)) by lia.
  - rewrite (proj2 (Z.leb_le _ _)) by done. by rewrite IH.
Qed.

Lemma no_overlap_split (D1 : list entry) (e : entry) (D2 : list entry) :
  Forall (fun f : entry => ends_before f.2 e.2) D1 -> Forall (fun f : entry => ends_before e.2 f.2) D2 ->
  existsb (fun f : entry => overlaps e.2 f.2) (D1 ++ D2) = false.
Proof.
  unfold ends_before. intros H1 H2. rewrite existsb_app.
  apply orb_false_iff. split; apply not_true_is_false; intros (f & Hf & Ho)%existsb_exists;
    apply list_elem_of_In in Hf; unfold overlaps in Ho; apply andb_prop in Ho as [H3 H4];
    apply Z.ltb_lt in H3, H4.
  - rewrite Forall_forall in H1. specialize (H1 _ Hf). cbn in *. lia.
  - rewrite Forall_forall in H2. specialize (H2 _ Hf). cbn in *. lia.
Qed.

(** A search is monotone when the answers follow the order of the areas. *)
Lemma monotone_map (cmp : Z -> Z) (f : entry -> Z) D :
  ascending D ->
  (forall e g : entry, (e ∈ D) -> (g ∈ D) -> ends_before e.2 g.2 ->
     (cmp (f e) < 0 -> cmp (f g) < 0) /\ (0 < cmp (f g) -> 0 < cmp (f e))) ->
  monotone cmp (map f D).
Proof.
  intros Hs Hc l1 x l2 Hl. apply map_eq_app in Hl as (D1 & D' & -> & <- & Hl).
  apply map_eq_cons in Hl as (e & D2 & -> & <- & <-).
  apply ascending_app in Hs as (_ & [He _]%ascending_cons & H12). rewrite Forall_forall in He.
  split; intros H; apply Forall_forall; intros y (g & -> & Hg)%list_elem_of_fmap.
  - apply (Hc e g); [set_solver | set_solver | by apply He | done].
  - apply (Hc g e); [set_solver | set_solver | apply H12; [done | set_solver] | done].
Qed.

(** ** The sequence of areas of a vma *)

Definition anode_of (e : entry) : Z := a_node e.1.
Definition lnode_of (e : entry) : Z := l_node e.1.

(** The vma [v], with fields [k], holds the areas [D]. *)
Definition aspace (s : vms) (v : Z) (k : vma) (D : list entry) : Prop :=
  vmas s !! v = Some k /\
  (exists t, tree_of (mk_avl_state (anodes s) (a_root k)) (map anode_of D) t) /\
  dlist (list_mem s) (l_list v) (map lnode_of D) /\
  Forall (fun e : entry => areas s !! e.1 = Some e.2 /\ fits e.2) D /\
  ascending D.

(** An initialised area that is on neither structure. *)
Definition detached (s : vms) (v : Z) (e : entry) (D : list entry) : Prop :=
  areas s !! e.1 = Some e.2 /\ fits e.2 /\ a_node e.1 <> NULL /\
  is_Some (anodes s !! a_node e.1) /\ (a_node e.1 ∉ map anode_of D) /\
  (l_node e.1 ∈ dom (list_mem s)) /\ (l_node e.1 ∉ l_list v :: map lnode_of D).

(** ** Access to the parts of the state *)

Definition set_list_mem (h : heap) (s : vms) : vms :=
  let b := bud (mm s) in
  set_mm (mk_kmem (set_frames (set_nodes h (frames_of b)) b) (slabs (mm s)) (caches (mm s))) s.
Definition set_tree (v : Z) (k : vma) (t : avl) (s : vms) : vms :=
  set_vmas (<[v := with_root (node t) k]> (vmas s)) (set_anodes (nmem t) s).

Lemma list_mem_set h s : list_mem (set_list_mem h s) = h.
Proof. done. Qed.

Lemma on_heap_Ok {A} (m : M heap A) s a h :
  m (list_mem s) = Ok (a, h) -> on_heap m s = Ok (a, set_list_mem h s).
Proof.
  intros H. unfold on_heap, on_mm, on_list, on_bud, on_nodes, on_frames, in_nodes, zoom, list_mem in *.
  by rewrite H.
Qed.

Lemma on_avl_Ok {A} v k (m : M avl A) s a t :
  vmas s !! v = Some k -> m (mk_avl_state (anodes s) (a_root k)) = Ok (a, t) ->
  on_avl v m s = Ok (a, set_tree v k t s).
Proof. intros Hv H. unfold on_avl. by rewrite Hv, H. Qed.

(** A computation that only reads the tree. *)
Lemma on_avl_read {A} v k (m : M avl A) s a :
  vmas s !! v = Some k ->
  m (mk_avl_state (anodes s) (a_root k)) = Ok (a, mk_avl_state (anodes s) (a_root k)) ->
  on_avl v m s = Ok (a, s).
Proof.
  intros Hv H. rewrite (on_avl_Ok _ _ _ _ _ _ Hv H). unfold set_tree, set_vmas. cbn.
  replace (with_root (a_root k) k) with k by by destruct k.
  rewrite insert_id by done. by destruct s.
Qed.

Lemma area_at_entry s (e : entry) : areas s !! e.1 = Some e.2 -> area_at (areas s) (anode_of e) = e.2.
Proof.
  intros H. unfold area_at, anode_of, of_a_node, a_node.
  replace (e.1 + 64 - 64) with e.1 by lia. by rewrite H.
Qed.

Section space.
Context (s : vms) (v : Z) (k : vma) (D : list entry) (HA : aspace s v k D).

Lemma aspace_entry (e : entry) : (e ∈ D) -> areas s !! e.1 = Some e.2 /\ fits e.2.
Proof using HA. destruct HA as (_ & _ & _ & H & _). rewrite Forall_forall in H. apply H. Qed.

Lemma aspace_at (e : entry) : (e ∈ D) -> area_at (areas s) (anode_of e) = e.2.
Proof using HA. intros [H _]%aspace_entry. by apply area_at_entry. Qed.

(** Both callbacks follow the order of the areas. *)
Lemma insert_monotone x :
  fits x ->
  monotone (fun n => insert_compare_vmarea x (area_at (areas s) n)) (map anode_of D).
Proof using HA.
  intros Hx. apply monotone_map; [apply HA |]. intros e g He Hg Hb.
  pose proof (aspace_entry _ He) as [_ Fe]. pose proof (aspace_entry _ Hg) as [_ Fg].
  rewrite !aspace_at, !insert_compare_spec by done. unfold ends_before, fits in *.
  repeat (case_match; rewrite ?Z.leb_le, ?Z.leb_gt in * ); lia.
Qed.

Lemma find_monotone key :
  monotone (fun n => find_compare key (area_at (areas s) n)) (map anode_of D).
Proof using HA.
  apply monotone_map; [apply HA |]. intros e g He Hg Hb.
  pose proof (aspace_entry _ He) as [_ Fe]. pose proof (aspace_entry _ Hg) as [_ Fg].
  rewrite !aspace_at, !find_compare_spec by done. unfold ends_before, fits in *.
  repeat (case_match; rewrite ?andb_true_iff, ?andb_false_iff, ?Z.eqb_eq, ?Z.eqb_neq, ?Z.leb_le, ?Z.leb_gt in * );
    lia.
Qed.

Lemma find_at_most_one va_ size_ (e g : entry) :
  (e ∈ D) -> (g ∈ D) -> va e.2 = va_ -> size e.2 = size_ -> va g.2 = va_ -> size g.2 = size_ -> e = g.
Proof using HA.
  intros (D1 & D2 & E)%list_elem_of_split Hg H1 H2 H3 H4.
  pose proof HA as (_ & _ & _ & _ & Hs). rewrite E in Hs, Hg.
  pose proof (aspace_entry e ltac:(rewrite E; set_solver)) as [_ Fe].
  apply ascending_app in Hs as (_ & [He _]%ascending_cons & H12).
  rewrite Forall_forall in He. unfold fits, ends_before in *.
  apply elem_of_app in Hg as [Hg | [-> | Hg]%elem_of_cons]; [| done |].
  - specialize (H12 g e Hg ltac:(set_solver)). lia.
  - specialize (He g Hg). lia.
Qed.
End space.

(** ** The operations *)

Lemma find_area_none va_ size_ D :
  Forall (fun e : entry => ~ (va e.2 = va_ /\ size e.2 = size_)) D -> find_area va_ size_ D = NULL.
Proof.
  unfold find_area. intros H. induction H as [|e D He H IH]; [done |]. cbn.
  destruct (_ && _) eqn:E; [| done]. apply andb_prop in E as [?%Z.eqb_eq ?%Z.eqb_eq]. by destruct He.
Qed.

Lemma find_area_some s v k D (e : entry) :
  aspace s v k D -> (e ∈ D) -> find_area (va e.2) (size e.2) D = e.1.
Proof.
  intros HA He. unfold find_area.
  destruct (find _ D) as [g|] eqn:E.
  - apply find_some in E as [Hg Hm]. apply list_elem_of_In in Hg.
    apply andb_prop in Hm as [?%Z.eqb_eq ?%Z.eqb_eq].
    by rewrite (find_at_most_one s v k D HA (va e.2) (size e.2) g e).
  - apply list_elem_of_In in He. pose proof (find_none _ _ E _ He) as Hn. cbn in Hn.
    by rewrite !Z.eqb_refl in Hn.
Qed.

Definition anode_or_null (a : Z) : Z := if a =? NULL then NULL else a_node a.

Lemma find_Ok s v k D va_ size_ :
  aspace s v k D -> Forall (fun e : entry => e.1 <> NULL) D ->
  on_avl v (avl_node_find (fun have => find_compare (mk_find va_ size_) (area_at (areas s) have))) s =
    Ok (anode_or_null (find_area va_ size_ D), s).
Proof.
  intros HA HN. pose proof HA as (Hv & (t & HT) & _ & _ & _).
  destruct (avl_node_find_Ok _ _ _ _ HT (find_monotone s v k D HA (mk_find va_ size_))) as (x & E & Hx).
  erewrite on_avl_read; [| done | exact E]. do 2 f_equal.
  destruct Hx as [[(e & -> & He)%list_elem_of_fmap Hc] | [-> Hn]].
  - rewrite (aspace_at s v k D HA e He) in Hc.
    pose proof (aspace_entry s v k D HA e He) as [_ Fe].
    rewrite find_compare_spec in Hc by done. cbn in Hc.
    destruct ((va_ =? va e.2) && (size_ =? size e.2)) eqn:Hm; [| by case_match].
    apply andb_prop in Hm as [->%Z.eqb_eq ->%Z.eqb_eq].
    rewrite (find_area_some s v k D e) by done. rewrite Forall_forall in HN.
    unfold anode_or_null. by rewrite (proj2 (Z.eqb_neq _ _)) by (by apply HN).
  - rewrite find_area_none; [done |]. apply Forall_forall. intros e He [<- <-].
    rewrite Forall_forall in Hn. apply (Hn (anode_of e)); [by apply list_elem_of_fmap_2 |].
    rewrite (aspace_at s v k D HA e He), find_compare_spec by (by apply (aspace_entry s v k D HA e He)).
    cbn. by rewrite !Z.eqb_refl.
Qed.

(** What an operation on [v] leaves alone: the areas, the vmas but for the
    root of [v], the list nodes and AVL nodes of other address spaces. *)
Definition only_space (s s' : vms) (v : Z) (k : vma) (D : list entry) : Prop :=
  areas s' = areas s /\ (exists r, vmas s' = <[v := with_root r k]> (vmas s)) /\
  same_out (map anode_of D) (anodes s) (anodes s') /\
  touches (list_mem s) (list_mem s') (l_list v :: map lnode_of D) /\
  kern_vma s' = kern_vma s /\ vma_cache s' = vma_cache s /\ vma_area_cache s' = vma_area_cache s /\
  satp s' = satp s /\ mm s' = mm (set_list_mem (list_mem s') s).

Lemma last_of_map D1 :
  last_of (map anode_of D1) = match last D1 with Some e => anode_of e | None => NULL end.
Proof.
  induction D1 as [|e D1 _] using rev_ind; [done |].
  unfold last_of. by rewrite map_app, !last_app.
Qed.

Lemma last_node_map v D1 :
  last_node (l_list v) (map lnode_of D1) = match last D1 with Some e => lnode_of e | None => l_list v end.
Proof.
  induction D1 as [|e D1 _] using rev_ind; [done |].
  rewrite map_app. cbn [map]. by rewrite last_node_snoc, last_snoc.
Qed.

Lemma hang_insert s v k D (e : entry) :
  aspace s v k D -> detached s v e D ->
  exists d s', on_avl v (avl_node_add (anode_of e)
      (fun have => insert_compare_vmarea (area_at (areas s) (anode_of e)) (area_at (areas s) have))) s =
        Ok (d, s') /\
    ((d <> NULL /\ s' = s /\ existsb (fun f : entry => overlaps e.2 f.2) D = true) \/
     (d = NULL /\ exists D1 D2 t, D = D1 ++ D2 /\ s' = set_tree v k t s /\
        Forall (fun f : entry => ends_before f.2 e.2) D1 /\ Forall (fun f : entry => ends_before e.2 f.2) D2 /\
        (exists t', tree_of t (map anode_of D1 ++ anode_of e :: map anode_of D2) t') /\
        same_out (map anode_of (D1 ++ e :: D2)) (anodes s) (nmem t))).
Proof.
  intros HA (He & Fe & Hn & Hm & Hni & _). pose proof HA as (Hv & (t & HT) & _ & _ & _).
  rewrite (area_at_entry s e He).
  destruct (avl_node_add_Ok _ _ _ _ (anode_of e) HT (insert_monotone s v k D HA e.2 Fe) Hn Hni Hm)
    as (d & t1 & E & [(Hd & Hc & ->) | (-> & lo & hi & t' & Hlh & Hlo & Hhi & HT' & HF)]).
  - exists d, s. split; [by eapply on_avl_read |]. left.
    split; [by eapply tree_of_not_null |]. split; [done |].
    apply list_elem_of_fmap in Hd as (g & -> & Hg). apply existsb_exists. exists g.
    split; [by apply list_elem_of_In |]. pose proof (aspace_entry s v k D HA g Hg) as [_ Fg].
    rewrite (aspace_at s v k D HA g Hg), insert_compare_spec in Hc by done.
    unfold overlaps. repeat (case_match; try done). rewrite ?Z.leb_gt in *. apply andb_true_iff.
    split; apply Z.ltb_lt; lia.
  - exists NULL, (set_tree v k t1 s). split; [by apply on_avl_Ok |]. right. split; [done |].
    apply map_eq_app in Hlh as (D1 & D2 & -> & <- & <-). exists D1, D2, t1.
    split; [done |]. split; [done |].
    assert (forall g : entry, (g ∈ D1 ++ D2) -> insert_compare_vmarea e.2 (area_at (areas s) (anode_of g)) =
      if va g.2 + size g.2 <=? va e.2 then 1 else if va e.2 + size e.2 <=? va g.2 then -1 else 0) as Hcmp.
    { intros g Hg. rewrite (aspace_at s v k _ HA g Hg). apply insert_compare_spec; [done |].
      by apply (aspace_entry s v k _ HA g). }
    rewrite Forall_map in Hlo, Hhi. unfold ends_before.
    split; [| split; [| split]].
    + rewrite Forall_forall in *. intros g Hg. specialize (Hlo g Hg). cbn in Hlo.
      rewrite Hcmp in Hlo by set_solver. repeat case_match; rewrite ?Z.leb_le in *; lia.
    + rewrite Forall_forall in *. intros g Hg. specialize (Hhi g Hg). cbn in Hhi.
      rewrite Hcmp in Hhi by set_solver. repeat case_match; rewrite ?Z.leb_le in *; lia.
    + by exists t'.
    + by rewrite map_app.
Qed.

Lemma vma_area_hang_Ok s v k D (e : entry) :
  aspace s v k D -> detached s v e D ->
  exists s', vma_area_hang v e.1 s =
      Ok (match hang_spec e D with None => - EEXIST | Some _ => 0 end, s') /\
    match hang_spec e D with
    | None => s' = s
    | Some D' => (exists r, aspace s' v (with_root r k) D') /\ only_space s s' v k D'
    end.
Proof.
  intros HA Hdet. pose proof HA as (Hv & _ & Hl & Hf & Hs). pose proof Hdet as (He & Fe & _ & _ & _ & Hdom & Hnl).
  unfold vma_area_hang. unfold gets at 1, bind at 1.
  destruct (hang_insert s v k D e HA Hdet) as (d & s1 & E & [(Hd & -> & Ho) | (-> & D1 & D2 & t & -> & -> & F1 & F2 & (t' & HT) & HF)]).
  - mstep E. rewrite (proj2 (Z.eqb_neq _ _) Hd). cbn [negb]. exists s. unfold hang_spec. by rewrite Ho.
  - mstep E. cbn [negb Z.eqb NULL]. change (negb (NULL =? NULL)) with false. cbn iota.
    assert (hang_spec e (D1 ++ D2) = Some (D1 ++ e :: D2)) as ->.
    { unfold hang_spec. rewrite no_overlap_split by done. f_equal. apply place_area_split; [done .. |].
      apply Forall_app in Hf as [_ Hf]. eapply Forall_impl; [exact Hf |]. by intros ? []. }
    pose proof HT as (Ht & _ & Hn).
    erewrite bind_Ok; [| eapply on_avl_read; [apply lookup_insert_eq |]];
      [| eapply avl_node_prev_Ok; [| exact Hn]; exact Ht].
    rewrite map_app in Hl, Hnl.
    destruct (list_add_at _ _ _ _ (lnode_of e) Hl Hdom Hnl) as (h & Eh & Hh & Tch).
    exists (set_list_mem h (set_tree v k t s)).
    split; [| split].
    + rewrite last_of_map. rewrite last_node_map in Eh.
      destruct (last D1) as [g|] eqn:El.
      * assert (anode_of g <> NULL) as Hg.
        { eapply tree_of_not_null; [exact HT |]. apply elem_of_app. left. apply list_elem_of_fmap_2.
          apply last_Some in El as (D' & ->). set_solver. }
        rewrite (proj2 (Z.eqb_neq _ _) Hg). unfold node_add_aft.
        replace (l_node (of_a_node (anode_of g))) with (lnode_of g)
          by (unfold lnode_of, l_node, of_a_node, anode_of, a_node; lia).
        by mstep (on_heap_Ok (list_add (lnode_of e) (lnode_of g)) (set_tree v k t s) tt h Eh).
      * rewrite Z.eqb_refl.
        by mstep (on_heap_Ok (list_add (lnode_of e) (l_list v)) (set_tree v k t s) tt h Eh).
    + exists (node t). split; [apply lookup_insert_eq |]. split; [| split; [| split]].
      * exists t'. rewrite map_app. by destruct t.
      * by rewrite map_app.
      * apply Forall_app. apply Forall_app in Hf as [? ?]. split; [done |]. by constructor.
      * by apply ascending_place.
    + split; [done |]. split; [by exists (node t) |]. split; [done |]. split; [| done].
      destruct Tch as [Td Tf]. split; [done |]. intros q Hq. apply Tf. rewrite map_app in Hq. set_solver.
Qed.

Lemma vma_area_unhang_Ok s v k D1 (e : entry) D2 :
  aspace s v k (D1 ++ e :: D2) ->
  exists s' r, vma_area_unhang v e.1 s = Ok (tt, s') /\
    aspace s' v (with_root r k) (D1 ++ D2) /\ detached s' v e (D1 ++ D2) /\
    only_space s s' v k (D1 ++ e :: D2).
Proof.
  intros HA. pose proof HA as (Hv & (t & HT) & Hl & Hf & Hs).
  pose proof (aspace_entry s v k _ HA e ltac:(set_solver)) as [He Fe].
  rewrite map_app in Hl, HT. cbn [map] in Hl, HT.
  destruct (list_del_at _ _ _ _ _ Hl) as (h & Eh & Hh & Hx & Tch).
  destruct (avl_node_erase_Ok _ _ _ _ _ HT) as (t1 & t' & Et & HT' & HF & Hm).
  exists (set_tree v k t1 (set_list_mem h s)), (node t1). split; [| split; [| split]].
  - unfold vma_area_unhang. mstep (on_heap_Ok _ s tt h Eh). by apply on_avl_Ok.
  - split; [apply lookup_insert_eq |]. split; [| split; [| split]].
    + exists t'. rewrite map_app. by destruct t1.
    + by rewrite map_app.
    + apply Forall_app in Hf as [? [_ ?]%Forall_cons]. by apply Forall_app.
    + by eapply ascending_drop.
  - split; [done |]. split; [done |].
    split; [eapply (tree_of_not_null _ _ _ _ HT); set_solver |].
    split; [done |]. split; [| split].
    + pose proof HT as ((_ & _ & Hn) & _ & HL). rewrite HL in Hn.
      rewrite map_app. apply NoDup_app in Hn as (_ & H12 & [Hn _]%NoDup_cons). set_solver.
    + apply elem_of_dom. by exists (mk_list_head NULL NULL).
    + rewrite map_app. by apply (NoDup_remove_mid _ _ _ _ (proj1 Hl)).
  - split; [done |]. split; [by exists (node t1) |]. split; [by rewrite map_app |].
    split; [| done]. by rewrite map_app.
Qed.

(** ** Sequences of operations *)

#[export] Instance vma_area_eq_dec : EqDecision vma_area.
Proof. solve_decision. Defined.

(** What callers do with areas: hang one that is detached, unhang one that
    hangs, search for a range. *)
Inductive area_op := Hang (e : entry) | Unhang (e : entry) | Find (va_ size_ : Z).

Definition area_step (v : Z) (o : area_op) : M vms Z :=
  match o with
  | Hang e => vma_area_hang v e.1
  | Unhang e => vma_area_unhang v e.1;; ret 0
  | Find va_ size_ =>
    ar ← gets areas;
    n ← on_avl v (avl_node_find (fun have => find_compare (mk_find va_ size_) (area_at ar have)));
    ret (if n =? NULL then NULL else of_a_node n)
  end.
Fixpoint area_run (v : Z) (ops : list area_op) : M vms (list Z) :=
  match ops with
  | [] => ret []
  | o :: ops => r ← area_step v o; rs ← area_run v ops; ret (r :: rs)
  end.

(** The specification, on the areas [D] in order and the detached ones [F];
    [None]: the caller broke the protocol. *)
Definition drop_area (e : entry) (D : list entry) : list entry := filter (fun f => f <> e) D.
Definition spec_step (o : area_op) (DF : list entry * list entry) : option (Z * (list entry * list entry)) :=
  let (D, F) := DF in
  match o with
  | Hang e =>
    if decide (e ∈ F) then
      match hang_spec e D with
      | None => Some (- EEXIST, (D, F))
      | Some D' => Some (0, (D', drop_area e F))
      end
    else None
  | Unhang e => if decide (e ∈ D) then Some (0, (drop_area e D, e :: F)) else None
  | Find va_ size_ => Some (find_area va_ size_ D, (D, F))
  end.
Fixpoint spec_run (ops : list area_op) (DF : list entry * list entry) :
    option (list Z * (list entry * list entry)) :=
  match ops with
  | [] => Some ([], DF)
  | o :: ops =>
    '(r, DF) ← spec_step o DF;
    '(rs, DF) ← spec_run ops DF;
    Some (r :: rs, DF)
  end%stdpp.

(** The invariant of such a sequence. *)
Definition space_ok (s : vms) (v : Z) (k : vma) (DF : list entry * list entry) : Prop :=
  aspace s v k DF.1 /\ Forall (fun e => detached s v e DF.1) DF.2 /\
  NoDup ((DF.1 ++ DF.2).*1) /\ Forall (fun e : entry => e.1 <> NULL /\ a_node e.1 <> NULL) (DF.1 ++ DF.2).

Lemma detached_other s s' v k D D' (e f : entry) :
  detached s v f D -> f.1 <> e.1 -> only_space s s' v k D' ->
  (forall g : entry, (g ∈ D') -> (g ∈ D) \/ g = e) ->
  forall D'', (forall g : entry, (g ∈ D'') -> (g ∈ D) \/ g = e) -> detached s' v f D''.
Proof.
  intros (Hf & Ff & Hn & Hm & Hni & Hdom & Hl) Hne (Ha & _ & Hso & [Hd _] & _) Hsub D'' Hsub'.
  assert (forall g : entry, (g ∈ D) \/ g = e -> a_node f.1 <> anode_of g) as Hna.
  { intros x [Hx | ->]; [intros E; apply Hni; rewrite E; by apply list_elem_of_fmap_2 |].
    unfold anode_of, a_node. lia. }
  assert (forall g : entry, (g ∈ D) \/ g = e -> l_node f.1 <> lnode_of g) as Hnl.
  { intros x [Hx | ->]; [intros E; apply Hl; rewrite E; right; by apply list_elem_of_fmap_2 |].
    unfold lnode_of, l_node. lia. }
  split; [by rewrite Ha |]. split; [done |]. split; [done |]. split; [| split; [| split]].
  - rewrite Hso; [done |]. destruct (cnt _ _) eqn:Ec; [done |].
    assert (a_node f.1 ∈ map anode_of D') as Hin by (apply cnt_elem; lia).
    apply list_elem_of_fmap in Hin as (g & Eg & Hg). exfalso. by apply (Hna g (Hsub g Hg)).
  - intros (g & Eg & Hg)%list_elem_of_fmap. by apply (Hna g (Hsub' g Hg)).
  - by rewrite Hd.
  - intros [E | (g & Eg & Hg)%list_elem_of_fmap]%elem_of_cons; [| by apply (Hnl g (Hsub' g Hg))].
    apply Hl. rewrite E. by left.
Qed.

Lemma drop_area_split (D1 : list entry) (e : entry) (D2 : list entry) :
  NoDup (D1 ++ e :: D2) -> drop_area e (D1 ++ e :: D2) = D1 ++ D2.
Proof.
  intros Hn. apply NoDup_app in Hn as (_ & Hl & [Hd _]%NoDup_cons).
  assert (forall L : list entry, (e ∉ L) -> drop_area e L = L) as Hid.
  { induction L as [|x L IH]; [done |]. intros Hx. unfold drop_area in *.
    rewrite filter_cons_True by (intros ->; set_solver). f_equal. apply IH. set_solver. }
  unfold drop_area in *. rewrite filter_app, filter_cons_False by naive_solver.
  rewrite !Hid; [done | done |]. intros Hin. apply (Hl _ Hin). set_solver.
Qed.

Lemma hang_spec_perm (e : entry) (D D' : list entry) : hang_spec e D = Some D' -> D' ≡ₚ e :: D.
Proof.
  unfold hang_spec. case_match; [done |]. intros [= <-]. clear H.
  induction D as [|f D IH]; cbn; [done |]. destruct (_ <=? _); [| done].
  rewrite IH. apply Permutation_swap.
Qed.

Lemma NoDup_fst (L : list entry) : NoDup (L.*1) -> NoDup L.
Proof. apply NoDup_fmap_1. Qed.

Lemma with_root_id k : with_root (a_root k) k = k.
Proof. by destruct k. Qed.

Lemma area_step_Ok s v k o DF r DF' :
  space_ok s v k DF -> spec_step o DF = Some (r, DF') ->
  exists s' x, area_step v o s = Ok (r, s') /\ space_ok s' v (with_root x k) DF'.
Proof.
  destruct DF as [D F]. intros (HA & HF & Hn & H0) Hs. cbn [fst snd] in *.
  destruct o as [e | e | va_ size_]; cbn [spec_step] in Hs.
  - case_decide as HeF; [| done]. pose proof HF as HF'. rewrite Forall_forall in HF'.
    destruct (vma_area_hang_Ok s v k D e HA (HF' e HeF)) as (s' & E & H').
    destruct (hang_spec e D) as [D'|] eqn:Eh; simplify_eq.
    + destruct H' as [(x & HA') Ho]. exists s', x. split; [done |].
      apply hang_spec_perm in Eh. apply list_elem_of_split in HeF as (F1 & F2 & ->).
      assert (Hp : D' ++ F1 ++ F2 ≡ₚ D ++ F1 ++ e :: F2) by (rewrite Eh, <-Permutation_middle; cbn; apply Permutation_middle).
      pose proof (NoDup_fst _ Hn) as Hn'. apply NoDup_app in Hn' as (_ & _ & HnF).
      rewrite (drop_area_split F1 e F2 HnF). split; [done |]. cbn [fst snd]. rewrite Hp.
      split; [| done]. apply Forall_forall. intros f Hf.
      apply (detached_other s s' v k D D' e f); [apply HF'; set_solver | | done | |]; try (intros g; rewrite Eh; set_solver).
      intros Hfe. rewrite fmap_app in Hn. apply NoDup_app in Hn as (_ & _ & Hn).
      rewrite fmap_app in Hn. cbn in Hn.
      apply NoDup_app in Hn as (_ & Hl & [Hr _]%NoDup_cons).
      apply elem_of_app in Hf as [Hf | Hf]; apply (list_elem_of_fmap_2 fst) in Hf; rewrite Hfe in Hf; [| done].
      apply (Hl _ Hf). by left.
    + eexists _, (a_root k). split; [exact E |]. by rewrite with_root_id.
  - case_decide as HeD; [| done]. simplify_eq. pose proof (NoDup_fst _ Hn) as Hn'.
    apply list_elem_of_split in HeD as (D1 & D2 & ->).
    destruct (vma_area_unhang_Ok s v k D1 e D2 HA) as (s' & x & E & HA' & He & Ho).
    exists s', x. split; [unfold area_step; by mstep E |].
    apply NoDup_app in Hn' as (Hn' & _ & _). rewrite (drop_area_split D1 e D2 Hn').
    assert (Hp : (D1 ++ D2) ++ e :: F ≡ₚ (D1 ++ e :: D2) ++ F)
      by (rewrite <-!app_assoc, <-!Permutation_middle; cbn; by rewrite <-!Permutation_middle).
    split; [done |]. cbn [fst snd]. rewrite Hp. split; [| done].
    constructor; [done |]. apply Forall_forall. intros f Hf. rewrite Forall_forall in HF.
    apply (detached_other s s' v k (D1 ++ e :: D2) (D1 ++ e :: D2) e f);
      [by apply HF | | done | |]; try (intros g; set_solver).
    intros Hfe. rewrite fmap_app in Hn. apply NoDup_app in Hn as (_ & Hl & _).
    apply (Hl e.1); [apply list_elem_of_fmap_2; set_solver |]. rewrite <-Hfe. by apply list_elem_of_fmap_2.
  - simplify_eq. exists s, (a_root k). rewrite with_root_id. split; [| done].
    unfold area_step. unfold gets at 1, bind at 1. apply Forall_app in H0 as [H0 _].
    mstep (find_Ok s v k D va_ size_ HA ltac:(eapply Forall_impl; [exact H0 |]; by intros ? [])).
    unfold ret. do 2 f_equal. unfold find_area, anode_or_null.
    destruct (find _ D) as [e|] eqn:Ef; [| done]. apply find_some in Ef as [He _].
    apply list_elem_of_In in He. rewrite Forall_forall in H0. destruct (H0 e He) as [Hne Hna].
    rewrite (proj2 (Z.eqb_neq _ _) Hne), (proj2 (Z.eqb_neq _ _) Hna).
    unfold of_a_node, a_node. lia.
Qed.

Lemma area_run_Ok ops : forall s v k DF rs DF',
  space_ok s v k DF -> spec_run ops DF = Some (rs, DF') ->
  exists s' x, area_run v ops s = Ok (rs, s') /\ space_ok s' v (with_root x k) DF'.
Proof.
  induction ops as [|o ops IH]; intros s v k DF rs DF' HS Hr; cbn [spec_run] in Hr.
  - simplify_eq. exists s, (a_root k). split; [done |]. by destruct k.
  - destruct (spec_step o DF) as [[r DF1]|] eqn:E1; [| done]. cbn in Hr.
    destruct (spec_run ops DF1) as [[rs1 DF2]|] eqn:E2; [| done]. cbn in Hr. simplify_eq.
    destruct (area_step_Ok _ _ _ _ _ _ _ HS E1) as (s1 & x1 & R1 & S1).
    destruct (IH _ _ _ _ _ _ S1 E2) as (s2 & x2 & R2 & S2).
    exists s2, x2. cbn [area_run]. mstep R1. mstep R2. split; [done |]. by destruct k.
Qed.

(** ** A concrete address space

    A vma at [0x1000] with the areas [0x2000] and [0x3000]; the areas [0x4000],
    which fits between them, and [0x5000], which meets the second, are
    detached. *)
Definition demo_area (a va_ size_ : Z) : entry :=
  (a, mk_area VMA_KERNEL va_ size_ 0 None (Z.lor PROT_V PROT_R)).
Definition demo_e1 : entry := demo_area 0x2000 0x10000 0x1000.
Definition demo_e2 : entry := demo_area 0x3000 0x12000 0x2000.
Definition demo_e3 : entry := demo_area 0x4000 0x11000 0x1000.
Definition demo_e4 : entry := demo_area 0x5000 0x13000 0x1000.
Definition demo_vma : vma := mk_vma (mk_rwlock 1 0 0) 0x9000 0x1000 (a_node 0x2000).
Definition demo_list : heap :=
  list_to_map [(l_list 0x1000, mk_list_head (l_node 0x3000) (l_node 0x2000));
               (l_node 0x2000, mk_list_head (l_list 0x1000) (l_node 0x3000));
               (l_node 0x3000, mk_list_head (l_node 0x2000) (l_list 0x1000));
               (l_node 0x4000, mk_list_head (l_node 0x4000) (l_node 0x4000));
               (l_node 0x5000, mk_list_head (l_node 0x5000) (l_node 0x5000))].
Definition demo_space : vms :=
  mk_vms (mk_kmem (mk_buddy (mk_frames 0 ∅ demo_list) ∅ (fun _ => 0)) ∅ ∅)
    (list_to_map [demo_e1; demo_e2; demo_e3; demo_e4])
    (list_to_map [(a_node 0x2000, mk_avl 0 (a_node 0x3000) 0 2); (a_node 0x3000, mk_avl 0 0 (a_node 0x2000) 1);
                  (a_node 0x4000, mk_avl 0 0 (a_node 0x4000) 0); (a_node 0x5000, mk_avl 0 0 (a_node 0x5000) 0)])
    {[ 0x1000 := demo_vma ]} 0x1000 0 0 0.

Lemma demo_fits a va_ size_ :
  0 <= va_ -> 0 < size_ -> va_ + size_ < 2 ^ 64 -> fits (demo_area a va_ size_).2.
Proof. by intros. Qed.

Lemma demo_aspace : aspace demo_space 0x1000 demo_vma [demo_e1; demo_e2].
Proof.
  split; [by vm_compute |]. split; [| split; [| split]].
  - exists (N E (a_node 0x2000) (N E (a_node 0x3000) E 1) 2).
    split; [split; [by vm_compute |]; split; [done |] | split; [by vm_compute | done]].
    apply (bool_decide_unpack _). by vm_compute.
  - concrete_dlist.
  - repeat constructor; cbn; try (apply demo_fits; lia); by vm_compute.
  - repeat constructor; unfold ends_before; cbn; lia.
Qed.

Lemma demo_detached (e : entry) :
  (e ∈ [demo_e3; demo_e4]) -> detached demo_space 0x1000 e [demo_e1; demo_e2].
Proof.
  rewrite !elem_of_cons. intros [-> | [-> | ?%elem_of_nil]]; [| | done];
    (split; [by vm_compute |]; split; [by vm_compute |]; split; [by vm_compute |];
     split; [eexists; by vm_compute |]; split; [| split; [apply elem_of_dom; eexists; by vm_compute |]];
     apply (bool_decide_unpack _); by vm_compute).
Qed.

Lemma demo_space_ok : space_ok demo_space 0x1000 demo_vma ([demo_e1; demo_e2], [demo_e3; demo_e4]).
Proof.
  split; [apply demo_aspace |]. split; [| split].
  - apply Forall_forall. intros e He. by apply demo_detached.
  - apply (bool_decide_unpack _). by vm_compute.
  - by repeat constructor.
Qed.

(** ** Properties *)

(** C5: an address space is an ordered sequence of disjoint ranges.  From any
    state that holds the areas [D] of a vma (on the list and in the balanced
    tree, in the same order) and the detached areas [F], every sequence of
    [vma_area_hang], [vma_area_unhang] and range searches returns what the
    sequence returns: [0] for an insertion at its place, [-EEXIST] for an area
    that meets another one, the area for a range that is exactly one, and
    NULL for any other range.  The state at the end holds the sequence at the
    end, so list and tree never disagree. *)
Theorem areas_refine_sequence s v k D F ops outs D' F' :
  space_ok s v k (D, F) -> spec_run ops (D, F) = Some (outs, (D', F')) ->
  exists s' r, area_run v ops s = Ok (outs, s') /\ space_ok s' v (with_root r k) (D', F').
Proof. apply area_run_Ok. Qed.

Lemma areas_refine_sequence_witness :
  exists s' r,
    area_run 0x1000 [Hang demo_e3; Hang demo_e4; Find 0x11000 0x1000; Unhang demo_e2; Hang demo_e4;
                     Find 0x12000 0x2000] demo_space = Ok ([0; -17; 0x4000; 0; 0; 0], s') /\
    space_ok s' 0x1000 (with_root r demo_vma) ([demo_e1; demo_e3; demo_e4], [demo_e2]).
Proof. apply (areas_refine_sequence _ _ _ [demo_e1; demo_e2] [demo_e3; demo_e4]); [apply demo_space_ok | by vm_compute]. Defined.

(** C27: [vma_area_hang] either refuses an area that meets one of the address
    space, and then changes nothing at all, or puts it on the list and into
    the tree at the place its address has among the others, and then changes
    nothing but the nodes of this address space and the root of its tree. *)
Theorem vma_area_hang_sorted s v k D (e : entry) :
  aspace s v k D -> detached s v e D ->
  exists s', vma_area_hang v e.1 s =
      Ok (match hang_spec e D with None => - EEXIST | Some _ => 0 end, s') /\
    match hang_spec e D with
    | None => s' = s
    | Some D' => (exists r, aspace s' v (with_root r k) D') /\ only_space s s' v k D'
    end.
Proof. apply vma_area_hang_Ok. Qed.

Lemma vma_area_hang_sorted_witness :
  exists s', vma_area_hang 0x1000 0x4000 demo_space = Ok (0, s') /\
    (exists r, aspace s' 0x1000 (with_root r demo_vma) [demo_e1; demo_e3; demo_e2]) /\
    only_space demo_space s' 0x1000 demo_vma [demo_e1; demo_e3; demo_e2].
Proof.
  exact (vma_area_hang_sorted demo_space 0x1000 demo_vma [demo_e1; demo_e2] demo_e3 demo_aspace
    (demo_detached demo_e3 ltac:(apply (bool_decide_unpack _); by vm_compute))).
Defined.
