(* ===== verification/VmSpec.v ===== *)
(** * Address spaces: the self check, and the requests that are refused

    Theorems about [module/mm/vm/vm.c] over the sequence of areas of
    [VmaSpec]: [vm_check] decides the conditions on the single areas once the
    structures of the vma are sound, and a refused request leaves no trace. *)
From S2P Require Import Prelude DList Cpu Locks KernelMap PageFrame Buddy Slab Avl VmaArea AvlSpec Sv39 Vm VmaSpec.

(** ** Holding the lock of a vma *)

Definition put_vma (v : Z) (k : vma) (s : vms) : vms := set_vmas (<[v := k]> (vmas s)) s.

Lemma put_vma_id s v k : vmas s !! v = Some k -> put_vma v k s = s.
Proof. intros H. unfold put_vma. rewrite insert_id by done. by destruct s. Qed.

Lemma put_put v k k' s : put_vma v k (put_vma v k' s) = put_vma v k s.
Proof. unfold put_vma, set_vmas. cbn. by rewrite insert_insert_eq. Qed.

(** The vma with its lock taken as [kd]. *)
Definition held (kd : kind) (k : vma) : vma := with_lock (taken kd (rwlk k)) k.

Lemma get_vma_Ok s v k : vmas s !! v = Some k -> get_vma v s = Ok (k, s).
Proof. intros H. unfold get_vma, zoom. rewrite (load_Ok _ _ _ H). by destruct s. Qed.

Lemma get_area_Ok s a x : areas s !! a = Some x -> get_area a s = Ok (x, s).
Proof. intros H. unfold get_area, zoom. rewrite (load_Ok _ _ _ H). by destruct s. Qed.

Lemma rwlk_take s v k kd :
  vmas s !! v = Some k -> free_for kd (rwlk k) = true ->
  rwlk_do v (take kd) s = Ok (tt, put_vma v (held kd k) s).
Proof. intros Hv Hf. unfold rwlk_do, take. by rewrite Hv, Hf. Qed.

Lemma rwlk_drop s v k kd :
  vmas s !! v = Some k -> counters_ok (rwlk k) ->
  rwlk_do v (drop kd) (put_vma v (held kd k) s) = Ok (tt, s).
Proof.
  intros Hv (Hl & Hr & Hw). unfold rwlk_do, drop, put_vma at 1. cbn [vmas set_vmas].
  rewrite lookup_insert_eq. cbn [rwlk held with_lock].
  fold (put_vma v (held kd k) s).
  match goal with |- Ok (tt, ?x) = _ => change x with
    (put_vma v (with_lock (match kd with
          | Reader => mk_rwlock (lk (taken kd (rwlk k))) (u32 (readers (taken kd (rwlk k)) - 1)) (writers (taken kd (rwlk k)))
          | _ => mk_rwlock (lk (taken kd (rwlk k))) (readers (taken kd (rwlk k))) (u32 (writers (taken kd (rwlk k)) - 1))
          end) (held kd k)) (put_vma v (held kd k) s)) end.
  rewrite put_put, put_vma_id; [done |]. rewrite Hv. f_equal. unfold held, with_lock.
  destruct k as [[l r w] p q x]. cbn in *.
  destruct kd; cbn; by rewrite Z.add_simpl_r, u32_small by lia.
Qed.

(** The lock is no part of the sequence of areas. *)
Lemma aspace_held s v k D kd : aspace s v k D -> aspace (put_vma v (held kd k) s) v (held kd k) D.
Proof.
  intros (Hv & Ht & Hl & Hf & Hs). split; [apply lookup_insert_eq |]. by split.
Qed.

(** ** The self check *)

(** What [vm_check] asks of one area. *)
Definition sound_area (x : vma_area) : bool := area_ok x minus_one minus_one.

Lemma sound_area_spec x :
  fits x ->
  sound_area x = true <->
    va x mod 4096 = 0 /\ u64 (pa x) mod 4096 = 0 /\ size x mod 4096 = 0 /\
    Z.land (prot x) PROT_V <> 0 /\
    (vmar_typ x = VMA_IO \/ vmar_typ x = VMA_KERNEL -> pgfm x = None).
Proof.
  intros (H1 & H2 & H3). unfold sound_area, area_ok.
  rewrite (proj2 (Z.eqb_eq minus_one minus_one)), andb_true_r by done.
  rewrite (proj2 (Z.ltb_lt _ _) H2), andb_true_r.
  unfold VAL_IS_PAGE_ALIGNED. rewrite (u64_small (va x)), (u64_small (size x)), !align_low by lia.
  rewrite !andb_true_iff, negb_true_iff, Z.eqb_neq, !Z.eqb_eq.
  destruct (vmar_typ x), (pgfm x); cbn; intuition (done || auto).
Qed.

Lemma area_ok_next x y :
  fits x -> fits y -> ends_before x y -> area_ok y (va x) (size x) = sound_area y.
Proof.
  intros Hx Hy Hb. unfold sound_area, area_ok. f_equal.
  rewrite (proj2 (Z.eqb_eq minus_one minus_one)) by done.
  rewrite u64_end by done. destruct (va x =? minus_one); [done |]. by apply Z.leb_le.
Qed.

Definition before_of (D : list entry) : Z * Z :=
  match last D with Some e => (va e.2, size e.2) | None => (minus_one, minus_one) end.

Lemma area_ok_at s v k D1 (e : entry) D2 :
  aspace s v k (D1 ++ e :: D2) ->
  area_ok e.2 (before_of D1).1 (before_of D1).2 = sound_area e.2.
Proof.
  intros HA. unfold before_of. destruct (last D1) as [g|] eqn:El; [| done].
  apply last_Some in El as (D' & ->). cbn [fst snd].
  pose proof HA as (_ & _ & _ & _ & Hs). apply ascending_app in Hs as (_ & _ & H12).
  apply area_ok_next; [apply (aspace_entry s v k _ HA g); set_solver |
    apply (aspace_entry s v k _ HA e); set_solver | apply H12; set_solver].
Qed.

Lemma lnode_area (e : entry) : of_l_node (lnode_of e) = e.1.
Proof. unfold of_l_node, lnode_of, l_node. lia. Qed.
Lemma anode_area (e : entry) : of_a_node (anode_of e) = e.1.
Proof. unfold of_a_node, anode_of, a_node. lia. Qed.

Definition no_null (D : list entry) : Prop := Forall (fun e : entry => e.1 <> NULL /\ a_node e.1 <> NULL) D.

(** The search for an area of the sequence finds it. *)
Lemma find_self s v k D (e : entry) :
  aspace s v k D -> no_null D -> (e ∈ D) ->
  on_avl v (avl_node_find (fun have => find_compare (mk_find (va e.2) (size e.2)) (area_at (areas s) have))) s =
    Ok (anode_of e, s) /\ anode_of e <> NULL.
Proof.
  intros HA HN He. unfold no_null in HN. rewrite Forall_forall in HN. destruct (HN e He) as [Hn Ha].
  rewrite (find_Ok s v k D) by (done || by apply Forall_forall; intros g Hg; apply HN).
  rewrite (find_area_some s v k D e) by done. unfold anode_or_null.
  by rewrite (proj2 (Z.eqb_neq _ _) Hn).
Qed.

(** The body of the loop of [vm_check]. *)
Definition check_step (v : Z) : Z * Z -> Z -> M vms (step (Z * Z) Z) :=
  fun '(bef, size_) iterator =>
    let area := of_l_node iterator in
    a ← get_area area;
    if negb (area_ok a bef size_) then rwlk_do v (drop Reader);; ret (Return (- EFAULT))
    else
      ar ← gets areas;
      res ← on_avl v (avl_node_find (fun have => find_compare (mk_find (va a) (size a)) (area_at ar have)));
      if (res =? NULL) || negb (of_a_node res =? area) then
        rwlk_do v (drop Reader);; ret (Return (- EFAULT))
      else ret (Next (va a, size a)).

Lemma check_step_Ok s v k D1 (e : entry) D2 :
  aspace s v k (D1 ++ e :: D2) -> no_null (D1 ++ e :: D2) -> counters_ok (rwlk k) ->
  check_step v (before_of D1) (lnode_of e) (put_vma v (held Reader k) s) =
    if sound_area e.2 then Ok (Next (va e.2, size e.2), put_vma v (held Reader k) s)
    else Ok (Return (- EFAULT), s).
Proof.
  intros HA HN Hc. pose proof (aspace_held s v k _ Reader HA) as HA'.
  destruct (aspace_entry _ _ _ _ HA' e) as [He _]; [set_solver |].
  pose proof (area_ok_at _ _ _ _ _ _ HA) as Hok. destruct (before_of D1) as [bef sz]. cbn [fst snd] in Hok.
  unfold check_step. rewrite lnode_area. mstep (get_area_Ok _ _ _ He). rewrite Hok.
  destruct (sound_area e.2); cbn [negb].
  - unfold gets at 1, bind at 1.
    destruct (find_self _ _ _ _ e HA' HN) as [Ef Hn]; [set_solver |]. mstep Ef.
    by rewrite (proj2 (Z.eqb_neq _ _) Hn), anode_area, Z.eqb_refl.
  - by mstep (rwlk_drop s v k Reader (proj1 HA) Hc).
Qed.

Lemma vm_check_Ok s v k D :
  aspace s v k D -> no_null D -> free_for Reader (rwlk k) = true -> counters_ok (rwlk k) ->
  v <> NULL -> hw_pgtable k <> NULL -> kernel_vma k = kern_vma s ->
  vm_check v s = Ok (if forallb (fun e : entry => sound_area e.2) D then 0 else - EFAULT, s).
Proof.
  intros HA HN Hfree Hc Hv Hp Hk. pose proof HA as (Hm & _ & Hl & _ & _).
  unfold vm_check. rewrite (proj2 (Z.eqb_neq _ _) Hv).
  mstep (rwlk_take s v k Reader Hm Hfree). set (s1 := put_vma v (held Reader k) s).
  assert (vmas s1 !! v = Some (held Reader k)) as Hm1 by apply lookup_insert_eq.
  mstep (get_vma_Ok _ _ _ Hm1). unfold gets at 1, bind at 1. cbn [hw_pgtable held with_lock kernel_vma].
  rewrite (proj2 (Z.eqb_neq _ _) Hp), Hk. change (kern_vma s1) with (kern_vma s).
  rewrite Z.eqb_refl. cbn [negb].
  mstep (on_heap_Ok _ s1 _ _ (get_next_Ok _ _ _ (dlist_first _ _ _ Hl))).
  replace (set_list_mem (list_mem s) s1) with s1 by by destruct s as [[[[] ] ] ].
  unfold gets at 1, bind at 1. fold (check_step v).
  destruct (list_for_each_ind list_mem (l_list v) (check_step v)
    (fun rest a s' => s' = s1 /\ exists D1 D2, D = D1 ++ D2 /\ rest = map lnode_of D2 /\
       a = before_of D1 /\ forallb (fun e : entry => sound_area e.2) D1 = true)
    (fun r s' => s' = s /\ r = - EFAULT /\ forallb (fun e : entry => sound_area e.2) D = false))
    with (rest := map lnode_of D) (fuel := list_fuel (list_mem s1)) (a := (minus_one, minus_one)) (s := s1)
    as (r & s' & E & Hr).
  - intros x rest a s' (-> & D1 & D2 & -> & Hrest & -> & Hs1).
    symmetry in Hrest. apply map_eq_cons in Hrest as (e & D3 & -> & <- & <-).
    rewrite map_app in Hl. cbn [map] in Hl. destruct (dlist_next _ _ _ _ _ Hl) as [Hn Hne].
    split; [done |]. pose proof (check_step_Ok s v k D1 e D3 HA HN Hc) as Est. fold s1 in Est.
    destruct (sound_area e.2) eqn:Es; (eexists _, _; split; [exact Est |]).
    + split; [| done]. split; [done |]. exists (D1 ++ [e]), D3. rewrite <-app_assoc.
      split; [done |]. split; [done |]. unfold before_of. rewrite last_snoc.
      split; [done |]. rewrite forallb_app. cbn. by rewrite Hs1, Es.
    + split; [done |]. split; [done |]. rewrite forallb_app. cbn. by rewrite Es, andb_false_r.
  - apply dlist_length in Hl. exact Hl.
  - split; [done |]. by exists [], D.
  - rewrite (bind_Ok _ _ _ _ _ E). destruct r as [a | r].
    + destruct Hr as (-> & D1 & D2 & -> & Hn & _ & Hall). symmetry in Hn. apply map_eq_nil in Hn as ->.
      rewrite app_nil_r in *. rewrite Hall. by mstep (rwlk_drop s v k Reader Hm Hc).
    + by destruct Hr as (-> & -> & ->).
Qed.

(** An early return of the check keeps the lock: a vma without page table is
    left locked for reading. *)
Lemma vm_check_keeps_lock s v k :
  vmas s !! v = Some k -> v <> NULL -> free_for Reader (rwlk k) = true -> hw_pgtable k = NULL ->
  vm_check v s = Ok (- EFAULT, put_vma v (held Reader k) s).
Proof.
  intros Hm Hv Hf Hp. unfold vm_check. rewrite (proj2 (Z.eqb_neq _ _) Hv).
  mstep (rwlk_take s v k Reader Hm Hf).
  mstep (get_vma_Ok (put_vma v (held Reader k) s) v (held Reader k) (lookup_insert_eq _ _ _)).
  unfold gets, bind. cbn [hw_pgtable held with_lock]. by rewrite Hp.
Qed.

(** ** Refused requests *)

Section refused.
Context (km : kernel_mapping) (g : Z).
Context (s : vms) (v : Z) (k : vma) (D : list entry).
Context (HA : aspace s v k D) (HN : no_null D).
Context (Hf : free_for WriterBr (rwlk k) = true) (Hc : counters_ok (rwlk k)) (Hv : v <> NULL).

(** What [__vm_unmap] answers before it changes anything. *)
Definition unmap_refusal (va_ size_ : Z) (type : vmar_type) : option Z :=
  match find (fun e : entry => (va e.2 =? va_) && (size e.2 =? size_)) D with
  | None => Some (- ENOBUFS)
  | Some e => if decide (vmar_typ e.2 = type) then None else Some (- EPERM)
  end.

Lemma __vm_unmap_refused va_ size_ type need err :
  0 < size_ -> VAL_IS_PAGE_ALIGNED va_ = true -> VAL_IS_PAGE_ALIGNED size_ = true ->
  unmap_refusal va_ size_ type = Some err -> __vm_unmap km g v va_ size_ type need s = Ok (err, s).
Proof using HA HN Hf Hc Hv.
  intros Hs Ha Hs' Hr. unfold __vm_unmap, ASSERT. unfold bind at 1.
  rewrite (proj2 (Z.eqb_neq _ _) Hv), (proj2 (Z.ltb_lt _ _) Hs), Ha, Hs'. cbn [negb andb].
  mstep (rwlk_take s v k WriterBr (proj1 HA) Hf). set (s1 := put_vma v (held WriterBr k) s).
  pose proof (aspace_held s v k D WriterBr HA) as HA'. fold s1 in HA'.
  unfold gets at 1, bind at 1.
  rewrite (bind_Ok _ _ _ _ _ (find_Ok s1 v _ D va_ size_ HA'
    ltac:(eapply Forall_impl; [exact HN |]; by intros ? []))).
  unfold unmap_refusal in Hr. unfold find_area, anode_or_null.
  destruct (find _ D) as [e|] eqn:Ef.
  - apply find_some in Ef as [He Hm]. apply list_elem_of_In in He.
    apply andb_prop in Hm as [Hva Hsz]. unfold no_null in HN. rewrite Forall_forall in HN.
    destruct (HN e He) as [Hn Han]. rewrite (proj2 (Z.eqb_neq _ _) Hn), (proj2 (Z.eqb_neq _ _) Han).
    destruct (aspace_entry _ _ _ _ HA' e He) as [Hea _].
    replace (of_a_node (a_node e.1)) with e.1 by (unfold of_a_node, a_node; lia).
    mstep (get_area_Ok _ _ _ Hea). rewrite Hva, Hsz. unfold bind at 1. cbn [andb].
    case_decide; [done |]. rewrite bool_decide_eq_false_2 by done. cbn [negb].
    mstep (rwlk_drop s v k WriterBr (proj1 HA) Hc). by simplify_eq.
  - change (NULL =? NULL) with true. cbn iota. change (NULL =? NULL) with true. cbn iota.
    mstep (rwlk_drop s v k WriterBr (proj1 HA) Hc). by simplify_eq.
Qed.
End refused.

(** ** Properties *)

(** C18: on an address space whose list and tree hold the same ascending
    areas, [vm_check] is the decision procedure for the conditions on single
    areas: it answers [0] exactly when every area is page aligned, not empty,
    valid and, if it is kernel or device memory, without page descriptor, and
    [-EFAULT] otherwise.  It ends, and leaves the state, the lock included, as
    it was.  The lock is free for a reader, and the address space has a page
    table and the kernel's area for its own: without them it returns
    before it gives the lock back ([vm_check_keeps_lock]). *)
Theorem vm_check_decides s v k D :
  aspace s v k D -> no_null D -> free_for Reader (rwlk k) = true -> counters_ok (rwlk k) ->
  v <> NULL -> hw_pgtable k <> NULL -> kernel_vma k = kern_vma s ->
  exists r, vm_check v s = Ok (r, s) /\
    (r = 0 <-> Forall (fun e : entry =>
       va e.2 mod 4096 = 0 /\ u64 (pa e.2) mod 4096 = 0 /\ size e.2 mod 4096 = 0 /\
       Z.land (prot e.2) PROT_V <> 0 /\
       (vmar_typ e.2 = VMA_IO \/ vmar_typ e.2 = VMA_KERNEL -> pgfm e.2 = None)) D) /\
    (r = 0 \/ r = - EFAULT).
Proof.
  intros HA HN Hf Hc Hv Hp Hk. eexists. split; [by apply (vm_check_Ok s v k D) |].
  split; [| destruct (forallb _ _); auto].
  assert (forallb (fun e : entry => sound_area e.2) D = true <-> Forall (fun e : entry =>
       va e.2 mod 4096 = 0 /\ u64 (pa e.2) mod 4096 = 0 /\ size e.2 mod 4096 = 0 /\
       Z.land (prot e.2) PROT_V <> 0 /\
       (vmar_typ e.2 = VMA_IO \/ vmar_typ e.2 = VMA_KERNEL -> pgfm e.2 = None)) D) as <-.
  { pose proof HA as (_ & _ & _ & HF & _). rewrite forallb_forall, Forall_forall.
    rewrite Forall_forall in HF.
    split; intros H e He; [apply list_elem_of_In in He as Hi | apply list_elem_of_In in He];
      (apply sound_area_spec; [by apply HF | by apply H]). }
  by destruct (forallb _ _).
Qed.

Lemma vm_check_decides_witness :
  exists r, vm_check 0x1000 demo_space = Ok (r, demo_space) /\
    (r = 0 <-> Forall (fun e : entry =>
       va e.2 mod 4096 = 0 /\ u64 (pa e.2) mod 4096 = 0 /\ size e.2 mod 4096 = 0 /\
       Z.land (prot e.2) PROT_V <> 0 /\
       (vmar_typ e.2 = VMA_IO \/ vmar_typ e.2 = VMA_KERNEL -> pgfm e.2 = None)) [demo_e1; demo_e2]) /\
    (r = 0 \/ r = - EFAULT).
Proof.
  apply (vm_check_decides demo_space 0x1000 demo_vma [demo_e1; demo_e2] demo_aspace); try done.
  by repeat constructor.
Defined.

(** The [n] bytes from [a] miss the range from [lo] to [hi]. *)
Definition misses (a n lo hi : Z) : bool := (hi <=? a) || (a + n <=? lo).

Lemma upper_aligned x :
  0 < x <= 2 ^ 64 - 4096 -> 0 < PAGE_UPPER_ALIGN x /\ VAL_IS_PAGE_ALIGNED (PAGE_UPPER_ALIGN x) = true.
Proof.
  intros H. rewrite PAGE_UPPER_ALIGN_spec by lia.
  pose proof (Z.div_mod (x + 4095) 4096 ltac:(lia)). pose proof (Z.mod_pos_bound (x + 4095) 4096 ltac:(lia)).
  split; [lia |]. apply VAL_IS_PAGE_ALIGNED_spec; [lia |].
  rewrite Z.mul_comm. by apply Z.mod_mul.
Qed.

Lemma order_size_spec order : 0 <= order < MAX_ORDER -> order_size order = 4096 * 2 ^ order.
Proof.
  intros H. change MAX_ORDER with 6 in H.
  assert (order = 0 \/ order = 1 \/ order = 2 \/ order = 3 \/ order = 4 \/ order = 5) as Hc by lia.
  by destruct_or! Hc; subst order.
Qed.

Definition iounmap_refusal (km : kernel_mapping) (D : list entry) (va_ size_ : Z) : option Z :=
  if negb (misses va_ size_ (PGFRAME_VA_START km) (PGFRAME_VA_END km)) then Some (- EPERM)
  else if negb (va_ mod 4096 =? 0) then Some (- EFAULT)
  else unmap_refusal D va_ (4096 * ((size_ + 4095) / 4096)) VMA_IO.
Definition iomap_refusal (km : kernel_mapping) (va_ pa_ size_ : Z) : option Z :=
  if negb (misses va_ size_ (PGFRAME_VA_START km) (PGFRAME_VA_END km)
           && misses pa_ size_ (PGFRAME_PA_START km) (PGFRAME_PA_END km)) then Some (- EPERM)
  else if negb ((va_ mod 4096 =? 0) && (pa_ mod 4096 =? 0)) then Some (- EFAULT)
  else None.

Section refusals.
Context (km : kernel_mapping) (g : Z) (s : vms) (v : Z) (k : vma) (D : list entry).
Context (HA : aspace s v k D) (HN : no_null D).
Context (Hf : free_for WriterBr (rwlk k) = true) (Hc : counters_ok (rwlk k)) (Hv : v <> NULL).

Lemma vm_iounmap_refused va_ size_ err :
  0 <= va_ -> 0 < size_ -> va_ + size_ <= 2 ^ 64 - 4096 ->
  iounmap_refusal km D va_ size_ = Some err -> vm_iounmap km g v va_ size_ s = Ok (err, s).
Proof using HA HN Hf Hc Hv.
  apply Z.eqb_neq in Hv as Hv'.
  intros H1 H2 H3 Hu. unfold vm_iounmap, iounmap_refusal, misses in *.
  rewrite u64_small by lia. destruct (_ || _); cbn [negb] in *; [| by simplify_eq].
  rewrite Hv'. unfold VAL_IS_PAGE_ALIGNED at 1. rewrite u64_small, align_low by lia.
  destruct (va_ mod 4096 =? 0) eqn:Ha; cbn [negb] in *; [| by simplify_eq].
  destruct (upper_aligned size_) as [Hp Hal]; [lia |].
  rewrite <-PAGE_UPPER_ALIGN_spec in Hu by lia. apply Z.eqb_eq in Ha.
  apply (__vm_unmap_refused km g s v k D HA HN Hf Hc Hv); [done | | done | done].
  apply VAL_IS_PAGE_ALIGNED_spec; [lia | done].
Qed.

Lemma vm_iomap_refused stack va_ pa_ prot_ size_ err :
  0 <= va_ -> 0 <= pa_ -> 0 < size_ -> va_ + size_ < 2 ^ 64 -> pa_ + size_ < 2 ^ 64 ->
  iomap_refusal km va_ pa_ size_ = Some err -> vm_iomap km g stack v va_ pa_ prot_ size_ s = Ok (err, s).
Proof using Hv.
  apply Z.eqb_neq in Hv as Hv'.
  intros H1 H2 H3 H4 H5 Hu. unfold vm_iomap, iomap_refusal, misses in *.
  rewrite !(u64_small (_ + _)) by lia.
  destruct ((_ <=? va_) || _); cbn [negb andb] in *; [| by simplify_eq].
  destruct ((_ <=? pa_) || _); cbn [negb andb] in *; [| by simplify_eq].
  rewrite Hv', !align_low, (proj2 (Z.leb_gt _ _)), orb_false_r by lia.
  unfold VAL_IS_PAGE_ALIGNED. rewrite u64_small, align_low by lia.
  destruct (va_ mod 4096 =? 0) eqn:Ea, (pa_ mod 4096 =? 0) eqn:Ep; cbn [negb andb] in *; simplify_eq;
    by repeat case_match; rewrite ?negb_true_iff, ?negb_false_iff, ?Z.eqb_eq, ?Z.eqb_neq in *; lia || done.
Qed.

Lemma vm_unmap_refused va_ order err :
  kernel_vma k = kern_vma s -> 0 <= va_ < 2 ^ 64 -> 0 <= order < MAX_ORDER -> va_ mod 4096 = 0 ->
  unmap_refusal D va_ (4096 * 2 ^ order) VMA_MEMORY = Some err -> vm_unmap km g v va_ order s = Ok (err, s).
Proof using HA HN Hf Hc Hv.
  apply Z.eqb_neq in Hv as Hv'. intros Hk Hr Ho Ha Hu. unfold vm_unmap. rewrite Hv'.
  apply VAL_IS_PAGE_ALIGNED_spec in Ha as Ha'; [| done]. rewrite Ha'. cbn [orb negb].
  mstep (get_vma_Ok _ _ _ (proj1 HA)). unfold gets at 1, bind at 1. rewrite Hk, Z.eqb_refl.
  rewrite (proj2 (Z.leb_le _ _)), (proj2 (Z.ltb_lt _ _)) by lia. cbn [negb orb andb].
  rewrite order_size_spec by done. pose proof (Z.pow_pos_nonneg 2 order ltac:(lia) ltac:(lia)).
  apply (__vm_unmap_refused km g s v k D HA HN Hf Hc Hv); [lia | done | | done].
  apply VAL_IS_PAGE_ALIGNED_spec; [| rewrite Z.mul_comm; by apply Z.mod_mul].
  pose proof (Z.pow_lt_mono_r 2 order 6 ltac:(lia) ltac:(lia) (proj2 Ho)). lia.
Qed.
End refusals.

(** C28: a refused request leaves no trace.  [vm_unmap] and [vm_iounmap] answer
    [-ENOBUFS] when no area covers exactly the range they are given and
    [-EPERM] when the one that does is of another kind.  [vm_iounmap] and
    [vm_iomap] answer [-EPERM] for a range that meets the managed memory (in
    [vm_iomap] the virtual or the physical one), as long as it does not wrap
    around, and [-EFAULT] for an address that is not page aligned.  In all
    these cases the state at the end is the state at the start.  Sizes are
    positive, and the lock is free for a writer. *)
Theorem requests_refused km g stack s v k D :
  aspace s v k D -> no_null D -> free_for WriterBr (rwlk k) = true -> counters_ok (rwlk k) ->
  v <> NULL -> kernel_vma k = kern_vma s ->
  (forall va_ order err, 0 <= va_ < 2 ^ 64 -> 0 <= order < MAX_ORDER -> va_ mod 4096 = 0 ->
     unmap_refusal D va_ (4096 * 2 ^ order) VMA_MEMORY = Some err ->
     vm_unmap km g v va_ order s = Ok (err, s)) /\
  (forall va_ size_ err, 0 <= va_ -> 0 < size_ -> va_ + size_ <= 2 ^ 64 - 4096 ->
     iounmap_refusal km D va_ size_ = Some err -> vm_iounmap km g v va_ size_ s = Ok (err, s)) /\
  (forall va_ pa_ prot_ size_ err, 0 <= va_ -> 0 <= pa_ -> 0 < size_ ->
     va_ + size_ < 2 ^ 64 -> pa_ + size_ < 2 ^ 64 ->
     iomap_refusal km va_ pa_ size_ = Some err -> vm_iomap km g stack v va_ pa_ prot_ size_ s = Ok (err, s)).
Proof.
  intros HA HN Hf Hc Hv Hk. split; [| split].
  - intros va_ order err Hr Ho Ha Hu. by eapply vm_unmap_refused.
  - intros va_ size_ err H1 H2 H3. by eapply vm_iounmap_refused.
  - intros va_ pa_ prot_ size_ err H1 H2 H3 H4 H5. by apply vm_iomap_refused.
Qed.

Lemma requests_refused_witness :
  vm_unmap demo_km 0 0x1000 0x11000 0 demo_space = Ok (- ENOBUFS, demo_space) /\
  vm_unmap demo_km 0 0x1000 0x10000 0 demo_space = Ok (- EPERM, demo_space) /\
  vm_iomap demo_km 0 [] 0x1000 0x10000 0x80201000 0 0x1000 demo_space = Ok (- EPERM, demo_space).
Proof.
  destruct (requests_refused demo_km 0 [] demo_space 0x1000 demo_vma [demo_e1; demo_e2] demo_aspace)
    as (H1 & H2 & H3); [by repeat constructor | done | by vm_compute | done | done |].
  split; [apply H1 |  split; [apply H1 | apply H3]]; first [lia | done | by vm_compute].
Defined.
