(* ===== verification/SpaceSpec.v ===== *)
(** * An address space in the kernel

    The areas of an address space are objects of a cache, on a list and in a
    tree, beside the page tables: [vm_ok] is the invariant that joins [aspace]
    with [kernel_ok].  The lemmas say what each step of [__vm_mmap] and
    [__vm_unmap] does to it. *)
From Stdlib Require Import Sorted.
From S2P Require Import Prelude DList Cpu Locks KernelMap PageFrame Buddy Slab SlabSpec CacheSpec Avl AvlSpec Sv39 Sv39Pte Sv39Tree Sv39Map Sv39Spec KernelSpec BlockSpec GrowSpec VmaArea Vm VmaSpec VmSpec.

(** ** Blocks in use *)

(** The pages of the blocks [K]. *)
Definition owned (K : gmap Z pageframe) : Z := map_fold (fun _ p t => 2 ^ buddy_order p + t) 0 K.

Lemma owned_insert K x p : K !! x = None -> owned (<[x := p]> K) = 2 ^ buddy_order p + owned K.
Proof. intros Hx. unfold owned. rewrite map_fold_insert_L; [done | intros; lia | done]. Qed.
Lemma owned_delete K x p : K !! x = Some p -> owned K = 2 ^ buddy_order p + owned (delete x K).
Proof. intros Hx. rewrite <-(owned_insert _ x) by apply lookup_delete_eq. by rewrite insert_delete_id. Qed.
(** A block keeps its size. *)
Lemma owned_update K x p q : K !! x = Some p -> buddy_order q = buddy_order p -> owned (<[x := q]> K) = owned K.
Proof.
  intros Hx Ho. rewrite (owned_delete K x p), (owned_delete (<[x := q]> K) x q) by (done || apply lookup_insert_eq).
  by rewrite delete_insert_eq, Ho.
Qed.

(** ** An address space in the kernel *)

Lemma tight_mem km s s' l t : memory s' = memory s -> tight km s l t -> tight km s' l t.
Proof. intros E H q. unfold in_tree. rewrite E. apply H. Qed.
Lemma balance_rest s s' l : rest_pages s' = rest_pages s -> balance s' l = balance s l.
Proof. unfold balance. by intros ->. Qed.

(** ** Memory that stays where it is *)

(** The address [q] lies in no page of the allocator, in a static one, or in a
    slab that is none of the slabs [S]. *)
Definition settled (km : kernel_mapping) (K : gmap Z pageframe) (S : list Z) (q : Z) : Prop :=
  (forall y, 0 <= y < PGFRAME_PAGE_NUMS km -> ~ (pg2va km y <= q < pg2va km y + 4096)) \/
  (exists y p, K !! y = Some p /\ buddy_flags p = PG_BUDDY_FLAG_STATIC /\ pg2va km y <= q < pg2va km y + 4096) \/
  (exists y p, K !! y = Some p /\ is_head p /\ pgtype p = SLAB_ALLOCATOR /\ (y ∉ S) /\
    pg2va km y <= q < pg2va km y + 4096 * 2 ^ buddy_order p).

(** Static pages and slabs stay, and the slabs of the cache that are new were in
    no use. *)
Definition stays (K K' : gmap Z pageframe) (S S' : list Z) : Prop :=
  forall y p, K !! y = Some p -> buddy_flags p = PG_BUDDY_FLAG_STATIC \/ pgtype p = SLAB_ALLOCATOR ->
    K' !! y = Some p /\ (y ∈ S' -> y ∈ S).
Lemma settled_stays km K K' S S' q : stays K K' S S' -> settled km K S q -> settled km K' S' q.
Proof.
  intros H [Hq | [(y & p & Hp & Hf & Hq) | (y & p & Hp & Hh & Ht & Hy & Hq)]]; [by left | right; left | do 2 right].
  - exists y, p. split; [by apply H; [| left] | done].
  - destruct (H y p Hp (or_intror Ht)) as [Hp' Hy']. exists y, p. do 3 (split; [done |]). split; [by intros ?%Hy' | done].
Qed.
Lemma stays_perm K S S' : S' ≡ₚ S -> stays K K S S'.
Proof. intros HS y p Hp _. split; [done |]. by rewrite HS. Qed.
Lemma stays_new K S S' x p : K !! x = None -> S' ≡ₚ x :: S -> stays K (<[x := p]> K) S S'.
Proof.
  intros Hx HS y q Hy _. assert (y <> x) as Hne by congruence. rewrite lookup_insert_ne by done. split; [done |].
  rewrite HS. by intros [-> | ?]%elem_of_cons.
Qed.
(** A page of another kind changes. *)
Lemma stays_at K K' S x p : K !! x = None \/ K !! x = Some p -> buddy_flags p = 2 -> pgtype p <> SLAB_ALLOCATOR ->
  (forall y, y <> x -> K' !! y = K !! y) -> stays K K' S S.
Proof.
  intros Hx Hf Ht HK y q Hy Hq. destruct (decide (y = x)) as [-> | Hne]; [| by rewrite HK].
  destruct Hx as [Hx | Hx]; simplify_eq. destruct Hq as [Hq | Hq]; [by rewrite Hf in Hq | done].
Qed.

(** The slabs [S] are not settled. *)
Lemma slab_not_settled km g oth s l S x p q :
  table_pages km g oth s l -> pgs s !! x = Some p -> is_head p -> buddy_flags p = 2 -> x ∈ S -> settled km (o_pages oth) S q ->
  ~ (pg2va km x <= q < pg2va km x + 4096 * 2 ^ buddy_order p).
Proof.
  intros [(G & _ & L & [B _ _]) _ _ _ HK _] Hp Hh Hf HxS Hq Hin. pose proof (Buddy.page_range _ _ _ _ _ B Hp) as Hx.
  pose proof (head_range _ _ _ _ _ B Hp Hh) as [_ Hr]. rewrite (pg2va_eq km G) in Hin by done.
  pose proof (Z.div_mod (q - PGFRAME_VA_START km) 4096 ltac:(lia)) as Hd.
  pose proof (Z.mod_pos_bound (q - PGFRAME_VA_START km) 4096 ltac:(lia)) as Hm.
  set (y := (q - PGFRAME_VA_START km) / 4096) in *. assert (x <= y < x + 2 ^ buddy_order p) as Hy by lia.
  destruct Hq as [Hq | [(y' & p' & Hp' & Hf' & Hq) | (y' & p' & Hp' & Hh' & Ht' & Hy' & Hq)]].
  - apply (Hq y); [lia |]. rewrite (pg2va_eq km G) by lia. lia.
  - destruct (HK y' p' Hp') as (_ & Hq' & _). pose proof (Buddy.page_range _ _ _ _ _ B Hq') as Hr'.
    rewrite (pg2va_eq km G) in Hq by done. assert (y' = y) as -> by lia.
    destruct (decide (y = x)) as [-> | Hne]; [simplify_eq; by rewrite Hf in Hf' |].
    destruct (blk_shape _ _ _ B x p Hp) as [H8 | [[_ Ht] | [[H4 _] _]]]; [congruence | | congruence].
    destruct (Ht y ltac:(lia)) as (p2 & Hp2 & H4 & _). simplify_eq. rewrite Hf' in H4. done.
  - destruct (HK y' p' Hp') as (_ & Hq' & _). pose proof (Buddy.page_range _ _ _ _ _ B Hq') as Hr'.
    rewrite (pg2va_eq km G) in Hq by done. assert (y' <> x) as Hne by (intros ->; by apply Hy').
    destruct (decide (x < y')).
    + pose proof (heads_disjoint _ _ _ _ _ _ B Hp Hh Hq' Hh' ltac:(lia)). lia.
    + pose proof (heads_disjoint _ _ _ _ _ _ B Hq' Hh' Hp Hh ltac:(lia)). lia.
Qed.

Section space.
Context (km : kernel_mapping) (g : Z) (stack_after : list Z).
(** The cache of areas and the geometry of its slabs, and the address space. *)
Context (c n osize bsize : Z) (v : Z).
Notation nums := (PGFRAME_PAGE_NUMS km).
Notation objects := (CacheSpec.objects n osize).
Notation available := (CacheSpec.available osize).

(** Where things are: the nodes that belong to no object of the cache are
    settled. *)
Record layout (oth : others) (X : cache_slabs) : Prop := {
  ly_cache : c <> NULL;
  ly_list : l_list v ∉ heads c;
  ly_vma : v <> NULL;
  ly_size : sizeof_vma_area <= osize;
  ly_list_settled : settled km (o_pages oth) (slab_pages X) (l_list v);
  ly_heads : forall q, q ∈ heads c -> settled km (o_pages oth) (slab_pages X) q;
  ly_pools : forall o, order_ok o -> settled km (o_pages oth) (slab_pages X) (pool_list g o);
  ly_frames : forall i, 0 <= i < nums -> settled km (o_pages oth) (slab_pages X) (buddy_node (o_base oth) i)
}.

Lemma layout_stays oth oth' X X' :
  o_base oth' = o_base oth -> stays (o_pages oth) (o_pages oth') (slab_pages X) (slab_pages X') -> layout oth X -> layout oth' X'.
Proof using.
  intros Eb HS [L1 L2 L3 L4 L5 L6 L7 L8]. split; try done; [| intros q Hq | intros o Ho | rewrite Eb; intros i Hi];
    (eapply settled_stays; [exact HS | auto]).
Qed.

(** ** The objects of the cache *)

Lemma object_block oth l t kc X m a :
  kernel_ok km g c n osize bsize oth l t kc X m -> growable n osize bsize oth kc X -> a ∈ objects X ->
  exists x p, pgs (bud m) !! x = Some p /\ is_head p /\ buddy_flags p = 2 /\ x ∈ slab_pages X /\
    pg2va km x < a /\ a + osize <= pg2va km x + 4096 * 2 ^ buddy_order p.
Proof using.
  intros K G Ha. pose proof (ko_slabs _ _ _ _ _ _ _ _ _ _ _ _ K) as Hsl.
  destruct (object_at km n osize bsize _ _ _ a Hsl Ha) as (d & i & Hd & [(p & Hp & _ & _ & Hf) _ Hg (I1 & I2 & I3)] & Hi & ->).
  destruct (gr_blocks _ _ _ _ _ _ G (d_pg d)) as (p' & Hp' & Ho); [by apply list_elem_of_fmap_2 |].
  pose proof (kernel_own _ _ _ _ _ _ _ _ _ _ _ _ K) as T.
  destruct (tp_kept _ _ _ _ _ T _ _ Hp') as (_ & Hq & _). assert (p' = p) as -> by congruence.
  exists (d_pg d), p. split; [done |]. split; [split; [rewrite Ho; apply G | by left] |]. split; [done |]. split; [by apply list_elem_of_fmap_2 |].
  destruct (slab_obj_bounds n osize _ Hg i Hi) as (B1 & _ & B3). unfold d_addr in *. rewrite Ho.
  rewrite (growable_block _ _ _ _ _ _ _ (ko_fields _ _ _ _ _ _ _ _ _ _ _ _ K) G) in I2. unfold slab_obj. lia.
Qed.

Lemma object_node oth l t kc X m a :
  kernel_ok km g c n osize bsize oth l t kc X m -> growable n osize bsize oth kc X -> layout oth X -> a ∈ objects X ->
  0 < a /\ forall q, settled km (o_pages oth) (slab_pages X) q -> l_node a <> q.
Proof using.
  intros K G L Ha. destruct (object_block _ _ _ _ _ _ _ K G Ha) as (x & p & Hp & Hh & Hf & HX & H1 & H2).
  pose proof (kernel_own _ _ _ _ _ _ _ _ _ _ _ _ K) as T. pose proof (ly_size _ _ L) as Hs. unfold sizeof_vma_area in Hs. split.
  - destruct T as [(Geo & _ & Lf & [B _ _]) _ _ _ _ _]. rewrite (pg2va_eq km Geo) in H1 by (by apply (Buddy.page_range _ _ _ _ _ B Hp)).
    pose proof (Buddy.page_range _ _ _ _ _ B Hp). destruct Geo. lia.
  - intros q Hq <-. apply (slab_not_settled km g oth _ l (slab_pages X) x p (l_node a) T Hp Hh Hf HX Hq). unfold l_node. lia.
Qed.

Lemma object_free_node oth l t kc X m a :
  kernel_ok km g c n osize bsize oth l t kc X m -> growable n osize bsize oth kc X -> layout oth X -> a ∈ objects X ->
  unlinked (o_rings oth) (l_node a) -> free_node km g oth (l_node a).
Proof using.
  intros K G L Ha Hu. destruct (object_node _ _ _ _ _ _ _ K G L Ha) as [_ Hn]. split; [done |].
  split; [intros o Ho; by apply Hn, ly_pools | intros i Hi; by apply Hn, ly_frames].
Qed.

(** The nodes of the lists of the cache are settled. *)
Lemma head_nodes oth l t kc X m q r x :
  kernel_ok km g c n osize bsize oth l t kc X m -> layout oth X -> q ∈ heads c -> o_rings oth !! q = Some r -> x ∈ q :: r ->
  settled km (o_pages oth) (slab_pages X) x.
Proof using.
  intros K L Hq Hr [-> | Hx]%elem_of_cons; [by apply ly_heads |].
  assert (exists d, d ∈ all_slabs X /\ x = d_node (o_base oth) d) as (d & Hd & ->).
  { destruct (ko_rings _ _ _ _ _ _ _ _ _ _ _ _ K) as [R1 R2 R3]. unfold all_slabs.
    apply heads_cases in Hq as [-> | [-> | ->]]; simplify_eq; apply list_elem_of_fmap in Hx as (d & -> & Hd);
      exists d; (split; [rewrite !elem_of_app; auto | done]). }
  apply ly_frames; [done |]. destruct (ko_slabs _ _ _ _ _ _ _ _ _ _ _ _ K) as [HS _ _]. rewrite Forall_forall in HS.
  destruct (so_page _ _ _ _ _ _ _ (HS d Hd)) as (p & Hp & _). destruct (kernel_own _ _ _ _ _ _ _ _ _ _ _ _ K) as [W _ _ _ _ _].
  eapply page_known; [exact W | exact Hp].
Qed.

(** Every node of a list is settled or that of an object. *)
Definition nodes_ok (oth : others) (X : cache_slabs) : Prop :=
  forall q r x, o_rings oth !! q = Some r -> x ∈ q :: r -> settled km (o_pages oth) (slab_pages X) x \/ x ∈ l_node <$> objects X.

Lemma nodes_ok_cache oth oth' l t kc X X' m :
  kernel_ok km g c n osize bsize oth' l t kc X' m -> layout oth' X' -> nodes_ok oth X ->
  (forall q, q ∉ heads c -> o_rings oth' !! q = o_rings oth !! q) -> stays (o_pages oth) (o_pages oth') (slab_pages X) (slab_pages X') ->
  (forall a, a ∈ objects X -> a ∈ objects X') -> nodes_ok oth' X'.
Proof using.
  intros K L HN Hr HS HX q r x Hq Hx. destruct (decide (q ∈ heads c)) as [Hh | Hh]; [left; by eapply head_nodes |].
  rewrite Hr in Hq by done. destruct (HN q r x Hq Hx) as [Ht | (a & -> & Ha)%list_elem_of_fmap]; [left; by eapply settled_stays |].
  right. apply list_elem_of_fmap_2. by apply HX.
Qed.

(** An object that is new, or not on a list so far, is on none. *)
Lemma object_unlinked oth oth' l t kc X X' m a :
  kernel_ok km g c n osize bsize oth' l t kc X' m -> growable n osize bsize oth' kc X' -> layout oth' X' -> nodes_ok oth X ->
  (forall q, q ∉ heads c -> o_rings oth' !! q = o_rings oth !! q) -> stays (o_pages oth) (o_pages oth') (slab_pages X) (slab_pages X') ->
  a ∈ objects X' -> (a ∉ objects X) \/ unlinked (o_rings oth) (l_node a) -> unlinked (o_rings oth') (l_node a).
Proof using.
  intros K G L HN Hr HS Ha Hor q r Hq Hin. destruct (object_node _ _ _ _ _ _ _ K G L Ha) as [_ Hn].
  destruct (decide (q ∈ heads c)) as [Hh | Hh]; [eapply Hn; [by eapply head_nodes | done] |].
  rewrite Hr in Hq by done. destruct Hor as [Hni | Hu]; [| by apply (Hu q r)].
  destruct (HN q r _ Hq Hin) as [Ht | (b & Eb & Hb)%list_elem_of_fmap]; [eapply Hn; [by eapply settled_stays | done] |].
  apply Hni. replace a with b by (unfold l_node in Eb; lia). done.
Qed.

(** ** The invariant *)

(** The address space [v] has the areas [D]; the objects [H] are in use
    elsewhere, all others of the cache are free.  The tables [l] are those of
    its page tables, and no page is lost: [N] pages are free, tables, or in the
    blocks of others. *)
Record vm_ok (N : Z) (s : vms) (D : list entry) (H : list Z) oth l k kc X : Prop := {
  vo_cache : vma_area_cache s = c;
  vo_layout : layout oth X;
  vo_kernel : kernel_ok km g c n osize bsize oth l (hw_pgtable k) kc X (mm s);
  vo_grow : growable n osize bsize oth kc X;
  vo_space : aspace s v k D;
  vo_list : o_rings oth !! l_list v = Some (map lnode_of D);
  vo_use : available X ++ H ++ D.*1 ≡ₚ objects X;
  vo_nodes : nodes_ok oth X;
  vo_free : forall a, a ∈ available X -> unlinked (o_rings oth) (l_node a);
  vo_kern : kernel_vma k = kern_vma s;
  vo_tight : tight km (bud (mm s)) l (hw_pgtable k);
  vo_count : balance (bud (mm s)) l + owned (o_pages oth) = N
}.

Lemma vo_object N s D H oth l k kc X a :
  vm_ok N s D H oth l k kc X -> a ∈ objects X -> 0 < a /\ a_node a <> NULL /\ no_pool g (l_node a) /\
    forall i, 0 <= i < nums -> l_node a <> buddy_node (o_base oth) i.
Proof using.
  intros V Ha. destruct (object_node _ _ _ _ _ _ _ (vo_kernel _ _ _ _ _ _ _ _ _ V) (vo_grow _ _ _ _ _ _ _ _ _ V)
    (vo_layout _ _ _ _ _ _ _ _ _ V) Ha) as [Hp Hn]. pose proof (vo_layout _ _ _ _ _ _ _ _ _ V) as L.
  split; [done |]. split; [unfold a_node, NULL; lia |]. split; [intros o Ho; by apply Hn, ly_pools | intros i Hi; by apply Hn, ly_frames].
Qed.

(** A state with another memory. *)
Lemma aspace_mm s k D m :
  aspace s v k D -> dlist (nds (bud m)) (l_list v) (map lnode_of D) -> aspace (set_mm m s) v k D.
Proof using. intros (H1 & H2 & _ & H4 & H5) Hd. done. Qed.

(** The blocks and the objects of the cache, after an object was asked for while
    [use] were in use: the cache may have grown by a slab. *)
Definition grown_by (use : list Z) (K K' : gmap Z pageframe) (O O' : list Z) : Prop :=
  (K' = K /\ O' ≡ₚ O) \/
  (use ≡ₚ O /\ exists x p new, K !! x = None /\ pgtype p = SLAB_ALLOCATOR /\ buddy_flags p = 2 /\ K' = <[x := p]> K /\
     O' ≡ₚ O ++ new /\ Z.of_nat (length new) = n).

Lemma same_stays oth oth' kc X kc' X' : same_others c oth oth' -> same_cache kc X kc' X' ->
  stays (o_pages oth) (o_pages oth') (slab_pages X) (slab_pages X').
Proof using. intros So [_ HS]. rewrite (sm_pages _ _ _ So). by apply stays_perm. Qed.

Section ok.
Context (N : Z) (s : vms) (D : list entry) (H : list Z) (oth : others) (l : list Z) (k : vma) (kc : kmem_cache) (X : cache_slabs).
Context (V : vm_ok N s D H oth l k kc X).

Lemma vo_ring oth' l' kc' X' t m :
  kernel_ok km g c n osize bsize oth' l' t kc' X' m -> o_rings oth' !! l_list v = Some (map lnode_of D) ->
  aspace (set_mm m s) v k D.
Proof using V.
  intros K Hq. apply aspace_mm; [apply V |]. by eapply kernel_ring; [exact K |].
Qed.

Lemma vo_distinct : NoDup (objects X).
Proof using V. eapply objects_NoDup, ko_slabs, (vo_kernel _ _ _ _ _ _ _ _ _ V). Qed.

(** The cache has changed, and with it the objects in use. *)
Lemma cache_step N' m' H' oth' kc' X' :
  kernel_ok km g c n osize bsize oth' l (hw_pgtable k) kc' X' m' -> growable n osize bsize oth' kc' X' ->
  o_base oth' = o_base oth -> (forall q, q ∉ heads c -> o_rings oth' !! q = o_rings oth !! q) ->
  stays (o_pages oth) (o_pages oth') (slab_pages X) (slab_pages X') -> (forall a, a ∈ objects X -> a ∈ objects X') ->
  available X' ++ H' ++ D.*1 ≡ₚ objects X' ->
  (forall a, a ∈ available X' -> (a ∉ objects X) \/ unlinked (o_rings oth) (l_node a)) ->
  tight km (bud m') l (hw_pgtable k) -> balance (bud m') l + owned (o_pages oth') = N' ->
  vm_ok N' (set_mm m' s) D H' oth' l k kc' X'.
Proof using V.
  intros K' G' Eb Hr HS HX Hu Hf HT HN. destruct V as [V1 V2 V3 V4 V5 V6 V7 V8 V9 V10 V11 V12].
  pose proof (layout_stays _ oth' _ _ Eb HS V2) as L'.
  assert (o_rings oth' !! l_list v = Some (map lnode_of D)) as Hl by (rewrite Hr; [done | by apply V2]).
  split; try done; [by eapply vo_ring | by eapply nodes_ok_cache |].
  intros a Ha. eapply object_unlinked; [exact K' | exact G' | exact L' | exact V8 | exact Hr | exact HS | | by apply Hf].
  rewrite <-Hu. apply elem_of_app. by left.
Qed.

(** An object is taken from the cache. *)
Lemma area_alloc_held :
  available X <> [] ->
  exists a m' oth' kc' X', obj_alloc km g stack_after c s = Ok (a, set_mm m' s) /\
    vm_ok N (set_mm m' s) D (a :: H) oth' l k kc' X' /\ unlinked (o_rings oth') (l_node a) /\
    (forall b, translate km (bud m') (hw_pgtable k) b = translate km (bud (mm s)) (hw_pgtable k) b) /\
    o_pages oth' = o_pages oth /\ objects X' ≡ₚ objects X.
Proof using V.
  intros Hav. destruct V as [V1 V2 V3 V4 V5 V6 V7 V8 V9 V10 V11 V12].
  destruct (kernel_alloc km g stack_after c n osize bsize _ _ _ _ _ _ V3 (ly_cache _ _ V2) (proj2 (gr_number _ _ _ _ _ _ V4)) Hav)
    as (a & m' & oth' & kc' & X' & E & Ha & K' & So & Ea & Eo & Em & _ & Sc & Ec).
  pose proof (growable_same c n osize bsize _ _ _ _ _ _ V4 So Sc) as G'. pose proof (same_stays _ _ _ _ _ _ So Sc) as HS.
  assert (forall x, x ∈ available X -> unlinked (o_rings oth') (l_node x)) as Hf.
  { intros x Hx. eapply object_unlinked; [exact K' | exact G' | | exact V8 | apply So | | | right; by apply V9].
    - by apply (layout_stays oth _ X); [apply So | |].
    - done.
    - rewrite Eo, <-V7. apply elem_of_app. by left. }
  exists a, m', oth', kc', X'. split; [unfold obj_alloc, on_mm; by apply zoom_Ok |].
  split; [| split; [apply Hf; rewrite Ea; by left |]; split; [intros b; unfold translate; by rewrite Em | by split; [apply So |]]].
  apply cache_step; try done; [apply So | apply So | | | | |].
  - intros x. by rewrite Eo.
  - rewrite Eo, <-V7, Ea. cbn. symmetry. apply Permutation_middle.
  - intros x Hx. right. apply V9. rewrite Ea. by right.
  - by apply (tight_mem km (bud (mm s))).
  - by rewrite (sm_pages _ _ _ So), (balance_rest (bud (mm s))).
Qed.

(** A slab is added first. *)
Lemma area_alloc_grown (Hstack : (3 <= length stack_after)%nat) :
  available X = [] -> pg_orhas kc < pg_orlimit kc ->
  obj_alloc km g stack_after c s = Ok (NULL, s) \/
  exists a m' oth' kc' X', obj_alloc km g stack_after c s = Ok (a, set_mm m' s) /\
    vm_ok N (set_mm m' s) D (a :: H) oth' l k kc' X' /\ unlinked (o_rings oth') (l_node a) /\
    (forall b, translate km (bud m') (hw_pgtable k) b = translate km (bud (mm s)) (hw_pgtable k) b) /\
    grown_by (H ++ D.*1) (o_pages oth) (o_pages oth') (objects X) (objects X').
Proof using V.
  intros Hav Hlt. pose proof vo_distinct as Hnd. destruct V as [V1 V2 V3 V4 V5 V6 V7 V8 V9 V10 V11 V12].
  pose proof (gr_number _ _ _ _ _ _ V4) as [_ Hn].
  destruct (kernel_grow_alloc km g stack_after c n osize bsize Hstack _ _ _ _ _ _ V3 V4 (ly_cache _ _ V2) Hav Hlt)
    as [[E _] | (x & p & a & m' & oth' & kc' & X' & E & Ha & K' & G' & Mo & Hx0 & (Hx1 & Hxo & HxS) & (new & Eo & En) & (_ & _ & Hhas) & Bt)];
    unfold obj_alloc, on_mm; [left; erewrite zoom_Ok by exact E; by destruct s | right].
  destruct Mo as [M1 M2 M3 M4 M5 [M6 M7]]. rewrite Hav in V7. cbn [app] in V7.
  assert (stays (o_pages oth) (o_pages oth') (slab_pages X) (slab_pages X')) as HS by (rewrite M3; by apply stays_new).
  pose proof (objects_NoDup km n osize bsize _ _ _ (ko_slabs _ _ _ _ _ _ _ _ _ _ _ _ K')) as Hnd'. fold (objects X') in Hnd'.
  rewrite Eo in Hnd'. apply NoDup_app in Hnd' as (_ & Hnew & _).
  assert (forall y, y ∈ new -> y ∉ objects X) as Hnew' by (intros y Hy Hy'; by apply (Hnew y)).
  assert (a ∈ new) as Han by (rewrite <-En; by left).
  exists a, m', oth', kc', X'. split; [by apply zoom_Ok |]. split; [| split; [| split; [apply Bt |]]].
  - apply cache_step; try done; [| | | apply Bt, V11 |].
    + intros y Hy. rewrite Eo. apply elem_of_app. by left.
    + rewrite Eo, <-V7, <-En, (Permutation_app_comm (H ++ D.*1)). cbn. by rewrite <-Permutation_middle.
    + intros y Hy. left. apply Hnew'. rewrite <-En. by right.
    + rewrite M3, owned_insert by done. pose proof (bt_pages _ _ _ _ _ _ Bt) as Hr. unfold balance in *. rewrite Hxo. lia.
  - eapply (object_unlinked oth oth' _ _ _ X); [exact K' | exact G' | by apply (layout_stays oth _ X) | done | done | done | | left; by apply Hnew'].
    rewrite Eo. apply elem_of_app. by right.
  - right. split; [done |]. exists x, p, new. do 4 (split; [done |]). split; [done |].
    pose proof (objects_length n osize X ltac:(lia)) as L1. pose proof (objects_length n osize X' ltac:(lia)) as L2.
    rewrite <-(gr_count _ _ _ _ _ _ V4) in L1. rewrite <-(gr_count _ _ _ _ _ _ G'), Eo, length_app in L2. lia.
Qed.

(** An object is asked for: all are in use and no more are to be had, or one is
    taken, the cache having grown or not. *)
Lemma area_alloc (Hstack : (3 <= length stack_after)%nat) :
  (obj_alloc km g stack_after c s = Ok (NULL, s) /\ H ++ D.*1 ≡ₚ objects X) \/
  exists a m' oth' kc' X', obj_alloc km g stack_after c s = Ok (a, set_mm m' s) /\
    vm_ok N (set_mm m' s) D (a :: H) oth' l k kc' X' /\ free_node km g oth' (l_node a) /\ a ∈ objects X' /\ (a ∉ D.*1) /\
    (forall b, translate km (bud m') (hw_pgtable k) b = translate km (bud (mm s)) (hw_pgtable k) b) /\
    grown_by (H ++ D.*1) (o_pages oth) (o_pages oth') (objects X) (objects X').
Proof using V.
  assert (forall a m' oth' kc' X', vm_ok N (set_mm m' s) D (a :: H) oth' l k kc' X' -> unlinked (o_rings oth') (l_node a) ->
    free_node km g oth' (l_node a) /\ a ∈ objects X' /\ (a ∉ D.*1)) as Hmore.
  { intros a m' oth' kc' X' V' Hu. assert (a ∈ objects X') as Ha by (rewrite <-(vo_use _ _ _ _ _ _ _ _ _ V'); set_solver).
    split; [eapply object_free_node; [apply V' | apply V' | apply V' | done | done] | split; [done |]].
    pose proof (objects_NoDup km n osize bsize _ _ _ (ko_slabs _ _ _ _ _ _ _ _ _ _ _ _ (vo_kernel _ _ _ _ _ _ _ _ _ V'))) as Hnd.
    fold (objects X') in Hnd. rewrite <-(vo_use _ _ _ _ _ _ _ _ _ V') in Hnd. apply NoDup_app in Hnd as (_ & _ & Hnd).
    apply NoDup_cons in Hnd as [Hni _]. intros Hin. apply Hni, elem_of_app. by right. }
  pose proof (vo_use _ _ _ _ _ _ _ _ _ V) as Hu. destruct (available X) as [|b rest] eqn:Eav.
  - destruct (decide (pg_orhas kc < pg_orlimit kc)) as [Hlt | Hge].
    + destruct (area_alloc_grown Hstack Eav Hlt) as [E | (a & m' & oth' & kc' & X' & E & V' & Hun & Htr & HG)]; [by left | right].
      exists a, m', oth', kc', X'. destruct (Hmore a m' oth' kc' X' V' Hun) as (? & ? & ?). by do 5 (split; [done |]).
    + left. split; [| done]. unfold obj_alloc, on_mm.
      erewrite zoom_Ok; [| eapply kernel_alloc_none; [apply V | done | lia]]. by destruct s.
  - right. destruct area_alloc_held as (a & m' & oth' & kc' & X' & E & V' & Hun & Htr & EK & EO); [by rewrite Eav |].
    exists a, m', oth', kc', X'. destruct (Hmore a m' oth' kc' X' V' Hun) as (? & ? & ?). do 6 (split; [done |]). left. by split.
Qed.
End ok.

(** An object is given back. *)
Lemma area_free N s D a H oth l k kc X :
  vm_ok N s D (a :: H) oth l k kc X -> free_node km g oth (l_node a) ->
  exists m' oth' kc' X', obj_free km c a s = Ok (tt, set_mm m' s) /\ vm_ok N (set_mm m' s) D H oth' l k kc' X' /\
    memory (bud m') = memory (bud (mm s)) /\ o_pages oth' = o_pages oth /\ objects X' ≡ₚ objects X.
Proof using stack_after.
  intros V Hfr. pose proof (vo_distinct _ _ _ _ _ _ _ _ _ V) as Hnd. pose proof V as [V1 V2 V3 V4 V5 V6 V7 V8 V9 V10 V11 V12].
  assert (a :: (available X ++ H ++ D.*1) ≡ₚ objects X) as Hp by (rewrite <-V7; cbn; apply Permutation_middle).
  rewrite <-Hp in Hnd. apply NoDup_cons in Hnd as [Hni _]. rewrite not_elem_of_app in Hni.
  destruct (kernel_free km g stack_after c n osize bsize _ _ _ _ _ _ a V3 (ly_cache _ _ V2))
    as (m' & oth' & kc' & X' & E & K' & So & Ea & Eo & Em & _ & Sc & Er); [fold (objects X); rewrite <-Hp; by left | tauto |].
  exists m', oth', kc', X'. split; [unfold obj_free, on_mm; by apply zoom_Ok |].
  split; [| split; [done |]; split; [apply So | done]].
  eapply (cache_step N s D (a :: H)); [exact V | exact K' | by eapply growable_same | apply So | apply So | by eapply same_stays | | | | |].
  - intros x. by rewrite Eo.
  - by rewrite Eo, Ea, <-Hp.
  - intros x. rewrite Ea. intros [-> | Hx]%elem_of_cons; right; [apply Hfr | by apply V9].
  - by apply (tight_mem km (bud (mm s))).
  - by rewrite (sm_pages _ _ _ So), (balance_rest (bud (mm s))).
Qed.

(** Other pages may come and go. *)
Lemma growable_pages oth oth' kc X :
  growable n osize bsize oth kc X -> (forall x, x ∈ slab_pages X -> o_pages oth' !! x = o_pages oth !! x) ->
  growable n osize bsize oth' kc X.
Proof using. intros [G1 G2 G3 G4 G5 G6] HX. split; try done. intros x Hx. rewrite HX by done. by apply G6. Qed.

(** ** Initialising an area *)

Definition set_heap_of (h : heap) (s : vms) : vms := set_mm (set_heap h (mm s)) s.
Lemma on_heap_run {A} (m : M heap A) s r h :
  m (list_mem s) = Ok (r, h) -> on_heap m s = Ok (r, set_heap_of h s).
Proof using. apply on_heap_Ok. Qed.

(** The parts of a state that are no part of [vm_ok]: areas, AVL nodes and list
    nodes of objects that are not in [D]. *)
Lemma vm_ok_frame N s s' D H oth l k kc X :
  vm_ok N s D H oth l k kc X -> vma_area_cache s' = vma_area_cache s -> kern_vma s' = kern_vma s -> vmas s' = vmas s ->
  kernel_ok km g c n osize bsize oth l (hw_pgtable k) kc X (mm s') ->
  memory (bud (mm s')) = memory (bud (mm s)) -> rest_pages (bud (mm s')) = rest_pages (bud (mm s)) ->
  (forall e : entry, (e ∈ D) -> areas s' !! e.1 = areas s !! e.1 /\ anodes s' !! anode_of e = anodes s !! anode_of e) ->
  vm_ok N s' D H oth l k kc X.
Proof using.
  intros [V1 V2 V3 V4 V5 V6 V7 V8 V9 V10 V11 V12] Ec Ek Ev K Em Er Ha.
  split; try done; [by rewrite Ec | | by rewrite Ek | by apply (tight_mem km (bud (mm s))) | by rewrite (balance_rest (bud (mm s)))].
  destruct V5 as (A1 & (t & A2) & A3 & A4 & A5). split; [by rewrite Ev |]. split; [| split; [| split; [| done]]].
  - exists t. eapply tree_of_frame; [exact A2 | done |]. intros q (e & -> & He)%list_elem_of_fmap. by apply Ha.
  - by eapply kernel_ring; [exact K |].
  - rewrite Forall_forall in *. intros e He. destruct (A4 e He) as [? ?]. split; [| done]. by rewrite (proj1 (Ha e He)).
Qed.

(** A state whose areas, AVL nodes and list nodes are replaced. *)
Definition with_parts (AR : gmap Z vma_area) (AN : gmap Z avl_node) (h : heap) (s : vms) : vms :=
  set_heap_of h (set_anodes AN (set_areas AR s)).

(** [m'] is [m] but at [x], where it has an entry. *)
Definition made {A} (x : Z) (m m' : gmap Z A) : Prop :=
  is_Some (m' !! x) /\ (forall y, y <> x -> m' !! y = m !! y) /\ dom m ⊆ dom m'.
Lemma made_raw {A} (x : Z) (m : gmap Z A) z : made x m (if decide (is_Some (m !! x)) then m else <[x := z]> m).
Proof using.
  destruct (decide _) as [H | H]; (split; [| split]); try done.
  - by rewrite lookup_insert_eq.
  - intros y Hy. by rewrite lookup_insert_ne.
  - set_solver.
Qed.
Lemma made_insert {A} (x : Z) (m m' : gmap Z A) z : made x m m' -> made x m (<[x := z]> m').
Proof using.
  intros (H1 & H2 & H3). split; [by rewrite lookup_insert_eq |]. split; [| set_solver].
  intros y Hy. by rewrite lookup_insert_ne, H2.
Qed.

Lemma raw_area_Ok s a :
  exists AR AN h, raw_area a s = Ok (tt, with_parts AR AN h s) /\
    made a (areas s) AR /\ made (a_node a) (anodes s) AN /\ made (l_node a) (list_mem s) h.
Proof using.
  eexists _, _, _. split; [| split; [apply (made_raw _ _ zero_area) | split; [apply (made_raw _ _ zero_node) |
    apply (made_raw _ _ (mk_list_head 0 0))]]].
  unfold raw_area, bind, modify. destruct (decide (is_Some (areas s !! a))), (decide (is_Some (anodes _ !! a_node a))) eqn:E2;
    cbn [anodes set_areas] in E2; rewrite ?E2; cbn; destruct s as [[[[? ? ?] ? ?] ? ?] ? ? ? ? ? ? ?]; reflexivity.
Qed.

Lemma area_init N s D H oth l k kc X a tp va_ pa_ size_ pr :
  vm_ok N s D H oth l k kc X -> free_node km g oth (l_node a) -> a ∉ D.*1 -> a ∈ objects X ->
  let e : entry := (a, mk_area tp va_ size_ pa_ None pr) in
  fits e.2 ->
  exists s', vma_area_val_init a tp va_ pa_ size_ None pr s = Ok (tt, s') /\
    vm_ok N s' D H oth l k kc X /\ detached s' v e D /\ memory (bud (mm s')) = memory (bud (mm s)).
Proof using.
  intros V Hfr Hni HB e He. destruct (vo_object _ _ _ _ _ _ _ _ _ _ V HB) as (_ & Hna & Hnp & Hnb).
  unfold vma_area_val_init. destruct (raw_area_Ok s a) as (AR & AN & h & E & [MA1 MA2] & [[nd Hnd] MN] & [Hh [MH1 MH2]]). mstep E.
  destruct nd as [nl nr nq nh]. destruct MA1 as [x0 Hx0].
  erewrite bind_Ok; [| unfold on_anodes, avl_node_init; cbn [anodes with_parts set_heap_of set_mm set_anodes];
    rewrite (set_parent_Ok (mk_avl_state AN NULL) _ _ _ _ _ Hnd); reflexivity]. cbn [nmem].
  destruct (INIT_NODE_Ok h (l_node a)) as (h' & Eh & Th1 & Th2); [by apply elem_of_dom |].
  mstep (on_heap_run (INIT_NODE (l_node a)) (set_anodes (<[a_node a := mk_avl nl nr (a_node a) nh]> AN) (with_parts AR AN h s)) tt h' Eh).
  eexists. split; [unfold upd_area; apply zoom_Ok; by apply (update_Ok AR a _ x0) |].
  assert (forall q, q <> l_node a -> h' !! q = list_mem s !! q) as Hh'.
  { intros q Hq. rewrite Th2 by (by intros ->%list_elem_of_singleton). by apply MH1. }
  split; [| split; [| done]].
  - eapply vm_ok_frame; [exact V | done | done | done | | done | done |].
    + apply (kernel_node km g c n osize bsize oth l _ kc X (mm s) (l_node a) h'); [apply V | done | done |].
      unfold list_mem, nds in *. set_solver.
    + intros f Hf. cbn [areas anodes set_areas set_heap_of set_mm set_anodes with_parts].
      assert (f.1 <> a) as Hne by (intros <-; apply Hni; by apply list_elem_of_fmap_2).
      assert (anode_of f <> a_node a) as Hne' by (unfold anode_of, a_node; lia).
      rewrite !lookup_insert_ne by done. split; [by apply MA2 | by apply MN].
  - split; [apply lookup_insert_eq |]. split; [done |]. split; [done |].
    split; [cbn; rewrite lookup_insert_eq; eauto |]. split.
    { intros (f & Ef & Hf)%list_elem_of_fmap. apply Hni. replace a with f.1 by (unfold anode_of, a_node in Ef; cbn in Ef; lia).
      by apply list_elem_of_fmap_2. }
    split; [cbn; rewrite Th1; by apply elem_of_dom |].
    destruct Hfr as [Hu _]. apply (Hu (l_list v) (map lnode_of D)), V.
Qed.

(** ** Hanging and unhanging *)

Lemma vm_ok_held N s D H oth l k kc X kd :
  vm_ok N s D H oth l k kc X -> vm_ok N (put_vma v (held kd k) s) D H oth l (held kd k) kc X.
Proof using.
  intros [V1 V2 V3 V4 V5 V6 V7 V8 V9 V10 V11 V12]. split; try done. by apply aspace_held.
Qed.

Lemma lnode_in a (D : list entry) : l_node a ∈ map lnode_of D -> a ∈ D.*1.
Proof using.
  intros (f & Ef & Hf)%list_elem_of_fmap. replace a with f.1 by (unfold lnode_of, l_node in Ef; lia).
  by apply list_elem_of_fmap_2.
Qed.

(** The list of the address space changes, and with it the areas in use. *)
Lemma vm_ok_list N s s' D D' E H H' oth l k kc X r :
  vm_ok N s D H oth l k kc X -> aspace s' v (with_root r k) D' -> only_space s s' v k E ->
  (forall e : entry, (e ∈ E) -> (e ∈ D) \/ free_node km g oth (lnode_of e)) -> (forall e : entry, (e ∈ D') -> e ∈ E) ->
  H' ++ D'.*1 ≡ₚ H ++ D.*1 ->
  vm_ok N s' D' H' (with_rings (<[l_list v := map lnode_of D']> (o_rings oth)) oth) l (with_root r k) kc X.
Proof using.
  intros V HA (O1 & O2 & O3 & O4 & O5 & O6 & O7 & O8 & O9) Hn Hsub Hp.
  pose proof (vo_distinct _ _ _ _ _ _ _ _ _ V) as Hnd.
  destruct V as [V1 V2 V3 V4 V5 V6 V7 V8 V9 V10 V11 V12]. pose proof HA as (_ & _ & Hd & _).
  assert (available X ++ H' ++ D'.*1 ≡ₚ objects X) as Huse by by rewrite Hp.
  split; [by rewrite O7 | by apply (layout_stays oth _ X); [| apply stays_perm |] | | by apply (growable_pages oth) | done | apply lookup_insert_eq |
    done | | | by rewrite O5 | by rewrite O9 | by rewrite O9].
  - rewrite O9. apply (kernel_list km g c n osize bsize oth l _ kc X (mm s) (l_list v) (map lnode_of D) _ (l_list v :: map lnode_of E));
      [done | done | apply V2 | done | done | |].
    + intros x [-> | (e & -> & He)%list_elem_of_fmap]%elem_of_cons; [left; by left |].
      destruct (Hn e He) as [He' |]; [left; right; by apply list_elem_of_fmap_2 | by right].
    + intros x (e & -> & He)%list_elem_of_fmap.
      destruct (Hn e (Hsub e He)) as [He' |]; [left; right; by apply list_elem_of_fmap_2 | by right].
  - intros q ring x. cbn [o_rings o_pages with_rings]. rewrite lookup_insert_Some. intros [[<- <-] | [_ Hr]]; [| by apply V8].
    intros [-> | (e & -> & He)%list_elem_of_fmap]%elem_of_cons; [left; apply V2 | right].
    apply (list_elem_of_fmap_2 l_node _ e.1). rewrite <-Huse, !elem_of_app. right. right. by apply list_elem_of_fmap_2.
  - intros a Ha q ring. cbn [o_rings with_rings]. rewrite lookup_insert_Some. intros [[<- <-] | [_ Hr]]; [| by apply (V9 a Ha q ring)].
    rewrite <-Huse in Hnd. apply NoDup_app in Hnd as (_ & Hx & _).
    apply not_elem_of_cons. split; [| intros Hin%lnode_in; apply (Hx a Ha); set_solver].
    destruct (object_node _ _ _ _ _ _ a V3 V4 V2) as [_ Ho]; [rewrite <-Huse; apply elem_of_app; by left |]. by apply Ho, V2.
Qed.

Lemma area_hang N s D H oth l k kc X (e : entry) :
  vm_ok N s D (e.1 :: H) oth l k kc X -> detached s v e D -> free_node km g oth (lnode_of e) ->
  exists s', vma_area_hang v e.1 s = Ok (match hang_spec e D with None => - EEXIST | Some _ => 0 end, s') /\
    match hang_spec e D with
    | None => s' = s
    | Some D' => (exists r oth', vm_ok N s' D' H oth' l (with_root r k) kc X /\ o_pages oth' = o_pages oth) /\
        memory (bud (mm s')) = memory (bud (mm s)) /\ areas s' = areas s
    end.
Proof using.
  intros V Hdet Hfr. destruct (vma_area_hang_Ok s v k D e (vo_space _ _ _ _ _ _ _ _ _ V) Hdet) as (s' & E & Hs).
  exists s'. split; [done |]. destruct (hang_spec e D) as [D'|] eqn:Eh; [| done].
  destruct Hs as [[r HA] HO]. pose proof (hang_spec_perm e D D' Eh) as Hp.
  split; [| split; [by destruct HO as (_ & _ & _ & _ & _ & _ & _ & _ & ->) | apply HO]].
  exists r. eexists. split; [| shelve]. eapply vm_ok_list; [exact V | exact HA | exact HO | | done | by rewrite Hp, fmap_cons, <-Permutation_middle].
  intros f. rewrite Hp. intros [-> | Hf]%elem_of_cons; [by right | by left].
  Unshelve. done.
Qed.

Lemma area_unhang N s D1 (e : entry) D2 H oth l k kc X :
  vm_ok N s (D1 ++ e :: D2) H oth l k kc X ->
  exists s' r oth', vma_area_unhang v e.1 s = Ok (tt, s') /\ vm_ok N s' (D1 ++ D2) (e.1 :: H) oth' l (with_root r k) kc X /\
    detached s' v e (D1 ++ D2) /\ free_node km g oth' (lnode_of e) /\ o_pages oth' = o_pages oth /\
    memory (bud (mm s')) = memory (bud (mm s)) /\ areas s' = areas s.
Proof using.
  intros V. pose proof (vo_space _ _ _ _ _ _ _ _ _ V) as HA.
  destruct (vma_area_unhang_Ok s v k D1 e D2 HA) as (s' & r & E & HA' & Hdet & HO).
  assert (vm_ok N s' (D1 ++ D2) (e.1 :: H) (with_rings (<[l_list v := map lnode_of (D1 ++ D2)]> (o_rings oth)) oth) l
    (with_root r k) kc X) as V'.
  { apply (vm_ok_list N s s' _ (D1 ++ D2) (D1 ++ e :: D2) H (e.1 :: H) oth l k kc X r V HA' HO).
    - intros f Hf. by left.
    - intros f. rewrite !elem_of_app, elem_of_cons. tauto.
    - rewrite !fmap_app, fmap_cons, <-Permutation_middle. cbn. by rewrite <-Permutation_middle. }
  exists s', r, (with_rings (<[l_list v := map lnode_of (D1 ++ D2)]> (o_rings oth)) oth).
  do 3 (split; [done |]). split; [| split; [done |]; split; [by destruct HO as (_ & _ & _ & _ & _ & _ & _ & _ & ->) | apply HO]].
  assert (e.1 ∈ objects X) as HB by (rewrite <-(vo_use _ _ _ _ _ _ _ _ _ V); set_solver).
  destruct (vo_object _ _ _ _ _ _ _ _ _ _ V HB) as (_ & _ & Hp & Hb). pose proof V as [_ _ V3 _ _ V5 _ _ _ _ _ _].
  split; [| split; [done | done]]. intros q ring. cbn [o_rings with_rings].
  rewrite lookup_insert_Some. intros [[<- <-] | [Hne Hr]]; [by apply Hdet |].
  destruct (kernel_inv _ _ _ _ _ _ _ _ _ _ _ _ V3) as (L & [_ I _]). intros Hq.
  pose proof (proj2 (pool_rings _ _ _ _ _ _ _ _ I) (l_list v) q (map lnode_of (D1 ++ e :: D2)) ring (lnode_of e) Hne) as Hx.
  apply Hx; [| | rewrite map_app; set_solver | done].
  - rewrite lookup_union_r; [done |]. eapply rings_none, (ko_heads _ _ _ _ _ _ _ _ _ _ _ _ V3). exact V5.
  - rewrite lookup_union_r; [done |]. eapply rings_none, (ko_heads _ _ _ _ _ _ _ _ _ _ _ _ V3). exact Hr.
Qed.

(** ** The lock *)

Lemma vm_ok_lock N s D H oth l k kc X w :
  vm_ok N s D H oth l k kc X -> vm_ok N (put_vma v (with_lock w k) s) D H oth l (with_lock w k) kc X.
Proof using.
  intros [V1 V2 V3 V4 (A1 & A2) V6 V7 V8 V9 V10 V11 V12]. split; try done. split; [apply lookup_insert_eq | done].
Qed.

Lemma unlock_Ok s k kd w :
  vmas s !! v = Some k -> rwlk k = taken kd w -> counters_ok w ->
  rwlk_do v (drop kd) s = Ok (tt, put_vma v (with_lock w k) s).
Proof using.
  intros Hv Hw Hc. set (k0 := with_lock w k).
  assert (s = put_vma v (held kd k0) (put_vma v k0 s)) as Es.
  { rewrite put_put. replace (held kd k0) with k by (unfold k0, held; cbn; rewrite <-Hw; by destruct k).
    by rewrite put_vma_id. }
  rewrite Es at 1. apply rwlk_drop; [apply lookup_insert_eq | done].
Qed.

(** ** Page tables *)

(** The state with another page allocator below. *)
Definition at_pages (T : buddy) (s : vms) : vms := set_mm (set_bud T (mm s)) s.

Lemma area_pages N N' s D H oth l k kc X K' T l' :
  vm_ok N s D H oth l k kc X -> Sv39Spec.space (table_pages km g (with_pages K' oth)) km T l' (hw_pgtable k) ->
  (forall x, x ∈ slab_pages X -> K' !! x = o_pages oth !! x) -> stays (o_pages oth) K' (slab_pages X) (slab_pages X) ->
  tight km T l' (hw_pgtable k) -> balance T l' + owned K' = N' -> vm_ok N' (at_pages T s) D H (with_pages K' oth) l' k kc X.
Proof using.
  intros V HS HX HK HT HN. pose proof V as [V1 V2 V3 V4 V5 V6 V7 V8 V9 V10 V11 V12].
  pose proof (kernel_pages km g c n osize bsize _ _ _ _ _ _ _ _ _ V3 HS HX) as K.
  split; try done; [by apply (layout_stays oth _ X) | by apply (growable_pages oth) | by eapply (vo_ring N s D H) |].
  intros q r x Hq Hx. destruct (V8 q r x Hq Hx) as [Ht | ?]; [left; by eapply settled_stays | by right].
Qed.

Lemma area_tables N N' s D H oth l k kc X T l' :
  vm_ok N s D H oth l k kc X -> Sv39Spec.space (table_pages km g oth) km T l' (hw_pgtable k) ->
  tight km T l' (hw_pgtable k) -> N' = N + (balance T l' - balance (bud (mm s)) l) -> vm_ok N' (at_pages T s) D H oth l' k kc X.
Proof using.
  intros V HS HT ->. pose proof (vo_count _ _ _ _ _ _ _ _ _ V) as Hc.
  replace oth with (with_pages (o_pages oth) oth) in HS |- * by by destruct oth.
  eapply (area_pages N); [exact V | done | done | by apply stays_perm | done | lia].
Qed.

Lemma on_pages_Ok {A} (m : M buddy A) s r T :
  m (bud (mm s)) = Ok (r, T) -> on_pages m s = Ok (r, at_pages T s).
Proof using. intros E. unfold on_pages, on_mm, on_bud, zoom. by rewrite E. Qed.

(** Another descriptor of the page [x], allocated and no table. *)
Definition at_page (x : Z) (p : pageframe) (s : vms) : vms := at_pages (put_page x p (bud (mm s))) s.

Lemma area_page N N' s D H oth l k kc X x p p' K' :
  vm_ok N s D H oth l k kc X -> pgs (bud (mm s)) !! x = Some p -> changes p p' -> pg2va km x ∉ l ->
  x ∉ (o_blocks oth).*1 -> K' !! x = None \/ K' !! x = Some p' -> (forall y, y <> x -> K' !! y = o_pages oth !! y) ->
  N' = N + (owned K' - owned (o_pages oth)) -> vm_ok N' (at_page x p' s) D H (with_pages K' oth) l k kc X.
Proof using.
  intros V Hp C Hl Hb Hx HK ->. assert (o_pages oth !! x = None \/ o_pages oth !! x = Some p) as Hxo.
  { destruct (o_pages oth !! x) as [q|] eqn:Eq; [right | by left].
    destruct (kernel_own _ _ _ _ _ _ _ _ _ _ _ _ (vo_kernel _ _ _ _ _ _ _ _ _ V)) as [_ _ _ _ HK' _].
    destruct (HK' x q Eq) as (_ & Hq & _). congruence. }
  pose proof (vo_kernel _ _ _ _ _ _ _ _ _ V) as K.
  pose proof (ko_tables _ _ _ _ _ _ _ _ _ _ _ _ K) as [T Ht Hi]. eapply area_pages; [exact V | split; [| done | done] | | | |].
  - apply (table_pages_put km g oth K' _ l x p p'); try done. intros y q Hy.
    destruct (decide (y = x)) as [-> |]; [left; destruct Hx; split; congruence | right]. by rewrite <-HK.
  - intros y Hy. apply HK. intros ->. destruct (kernel_slab_page _ _ _ _ _ _ _ _ _ _ _ _ _ K Hy) as (q & Hq & Hs).
    assert (q = p) as -> by congruence. by apply (ch_type _ _ C).
  - apply (stays_at _ K' _ x p); [done | apply C | apply C | done].
  - exact (vo_tight _ _ _ _ _ _ _ _ _ V).
  - pose proof (vo_count _ _ _ _ _ _ _ _ _ V) as Hc. change (balance (put_page x p' (bud (mm s))) l) with (balance (bud (mm s)) l). lia.
Qed.
End space.

(** ** What the areas say about the translation *)

Definition covers (x : vma_area) (a : Z) : bool := (va x <=? a) && (a <? va x + size x).
Definition described (D : list entry) (a : Z) : option (Z * Z) :=
  (fun e : entry => (pa e.2 + (a - va e.2), prot e.2 mod 2 ^ 10)) <$> find (fun e : entry => covers e.2 a) D.

Lemma covers_spec x a : covers x a = true <-> va x <= a < va x + size x.
Proof. unfold covers. rewrite andb_true_iff, Z.leb_le, Z.ltb_lt. done. Qed.

Lemma find_none_all (f : entry -> bool) D : (forall e : entry, (e ∈ D) -> f e = false) -> find f D = None.
Proof.
  induction D as [|e D IH]; [done |]. intros H. cbn. rewrite H by by left. apply IH. intros; apply H; by right.
Qed.
Lemma find_app (f : entry -> bool) D1 D2 :
  find f (D1 ++ D2) = match find f D1 with Some e => Some e | None => find f D2 end.
Proof. induction D1 as [|e D1 IH]; [done |]. cbn. by destruct (f e). Qed.

(** One area more, or less. *)
Lemma described_place D1 (e : entry) D2 a :
  ascending (D1 ++ e :: D2) -> Forall (fun f : entry => fits f.2) (D1 ++ e :: D2) ->
  described (D1 ++ e :: D2) a =
    (if decide (va e.2 <= a < va e.2 + size e.2) then Some (pa e.2 + (a - va e.2), prot e.2 mod 2 ^ 10)
     else described (D1 ++ D2) a) /\
  (va e.2 <= a < va e.2 + size e.2 -> described (D1 ++ D2) a = None).
Proof.
  intros (_ & [He _]%ascending_cons & H12)%ascending_app Hf.
  rewrite Forall_app, Forall_cons, !Forall_forall in Hf. destruct Hf as (F1 & _ & F2). rewrite Forall_forall in He.
  unfold described. rewrite !find_app. cbn [find].
  destruct (covers e.2 a) eqn:Ec.
  - apply covers_spec in Ec. rewrite decide_True by done.
    assert (find (fun f : entry => covers f.2 a) D1 = None) as ->.
    { apply find_none_all. intros f Hf. apply not_true_is_false. rewrite covers_spec.
      specialize (H12 f e Hf ltac:(by left)). unfold ends_before in H12. lia. }
    split; [done |]. intros _. rewrite find_none_all; [done |].
    intros f Hf. apply not_true_is_false. rewrite covers_spec. specialize (He f Hf). unfold ends_before in He.
    destruct (F2 f Hf). lia.
  - assert (~ (va e.2 <= a < va e.2 + size e.2)) as Hn by (rewrite <-covers_spec, Ec; done).
    rewrite decide_False by done. split; [| done]. by destruct (find _ D1).
Qed.

Lemma hang_spec_split (e : entry) D D' : hang_spec e D = Some D' -> exists D1 D2, D = D1 ++ D2 /\ D' = D1 ++ e :: D2.
Proof.
  unfold hang_spec. destruct (existsb _ D); [done |]. intros [= <-].
  induction D as [|f D IH]; [by exists [], [] |]. cbn. destruct (_ <=? _).
  - destruct IH as (D1 & D2 & -> & ->). by exists (f :: D1), D2.
  - by exists [], (f :: D).
Qed.

