(* ===== verification/VmMapSpec.v ===== *)
(** * Mapping and unmapping

    The requests of [module/mm/vm/vm.c] over the whole kernel: the area object
    comes from the cache, goes on the list and into the tree of the address
    space, and its pages into the page tables.  The specification is that the
    areas of an address space and the translation of its page tables agree. *)
From Stdlib Require Import Sorted.
From S2P Require Import Prelude DList Cpu Locks KernelMap PageFrame Buddy Slab SlabSpec CacheSpec Avl AvlSpec Sv39 Sv39Pte Sv39Tree Sv39Map Sv39Spec KernelSpec BlockSpec GrowSpec VmaArea Vm VmaSpec VmSpec SpaceSpec.

Section requests.
Context (km : kernel_mapping) (g : Z) (stack_after : list Z).
Context (c n osize bsize : Z) (v : Z) (N : Z).
Notation objects := (CacheSpec.objects n osize).
Notation grown_by := (grown_by n).
Notation vm_ok := (vm_ok km g c n osize bsize v N).

(** The page tables say what the areas say, below 512 GiB. *)
Definition agrees (s : vms) (k : vma) (D : list entry) : Prop :=
  forall a, 0 <= a < 2 ^ 39 -> translate km (bud (mm s)) (hw_pgtable k) a = described D a.

(** An area that one root table can map. *)
Record hw_area (x : vma_area) : Prop := {
  ha_range : va_range (va x) (size x);
  ha_root : va x + size x <= 2 ^ 39
}.

(** The block that a memory area owns: allocated, marked, in use once. *)
Definition backed (K : gmap Z pageframe) (x : vma_area) : Prop :=
  match vmar_typ x with
  | VMA_MEMORY => exists pg p, pgfm x = Some pg /\ 0 <= pg < PGFRAME_PAGE_NUMS km /\ pa x = pg2pa km pg /\
      K !! pg = Some p /\ backs p x = true /\ order_ok (buddy_order p) /\ ref_count p = 1
  | VMA_NOREACH => False
  | _ => pgfm x = None
  end.
Definition pages_of (D : list entry) : list Z := omap (fun e : entry => pgfm e.2) D.
Record areas_ok (K : gmap Z pageframe) (D : list entry) : Prop := {
  ao_area : forall e : entry, (e ∈ D) -> hw_area e.2 /\ backed K e.2;
  ao_pages : NoDup (pages_of D)
}.

Lemma pages_of_app D1 D2 : pages_of (D1 ++ D2) = pages_of D1 ++ pages_of D2.
Proof using. apply omap_app. Qed.
Lemma pages_of_place D1 (e : entry) D2 :
  pages_of (D1 ++ e :: D2) ≡ₚ option_list (pgfm e.2) ++ pages_of (D1 ++ D2).
Proof using.
  rewrite !pages_of_app. unfold pages_of at 2. cbn. fold (pages_of D2).
  destruct (pgfm e.2); cbn; [symmetry; apply Permutation_middle | done].
Qed.

Lemma backed_pages K K' x : backed K x -> (forall pg, pgfm x = Some pg -> K' !! pg = K !! pg) -> backed K' x.
Proof using.
  unfold backed. destruct (vmar_typ x); try done. intros (pg & p & H1 & H2 & H3 & H4 & H5) HK.
  exists pg, p. do 3 (split; [done |]). by rewrite HK.
Qed.

Lemma areas_ok_place K K' D1 D2 a x :
  areas_ok K (D1 ++ D2) -> hw_area x -> backed K' x ->
  (forall pg, pgfm x = Some pg -> exists p, K !! pg = Some p /\ ref_count p <> 1) ->
  (forall pg, pgfm x <> Some pg -> K' !! pg = K !! pg) -> areas_ok K' (D1 ++ (a, x) :: D2).
Proof using.
  intros [HA HN] Hx Hb Hnew HK.
  assert (forall (e : entry) pg, (e ∈ D1 ++ D2) -> pgfm e.2 = Some pg -> pgfm x <> Some pg) as Hdiff.
  { intros e pg He Hp Hxp. destruct (Hnew pg Hxp) as (p & Hk & Hr). destruct (HA e He) as [_ He'].
    unfold backed in He'. destruct (vmar_typ e.2); try congruence.
    destruct He' as (pg' & p' & ? & _ & _ & ? & _ & _ & ?). congruence. }
  split.
  - intros e He. assert (e = (a, x) \/ e ∈ D1 ++ D2) as [-> | He'] by set_solver; [done |].
    destruct (HA e He') as [? Hbe]. split; [done |]. apply (backed_pages K); [done |].
    intros pg Hp. apply HK. by apply (Hdiff e).
  - rewrite pages_of_place. cbn [snd]. destruct (pgfm x) as [pg|] eqn:Ep; [| done]. cbn. apply NoDup_cons. split; [| done].
    intros (e & He & Hp)%list_elem_of_omap. by apply (Hdiff e pg).
Qed.

Lemma areas_ok_drop K K' D1 (e : entry) D2 :
  areas_ok K (D1 ++ e :: D2) -> (forall pg, pgfm e.2 <> Some pg -> K' !! pg = K !! pg) -> areas_ok K' (D1 ++ D2).
Proof using.
  intros [HA HN] HK. rewrite pages_of_place in HN. apply NoDup_app in HN as (_ & Hd & HN). split; [| done].
  intros f Hf. destruct (HA f) as [? Hb]; [set_solver |]. split; [done |]. apply (backed_pages K); [done |].
  intros pg Hp. apply HK. intros He. apply (Hd pg); [rewrite He; by left |]. apply list_elem_of_omap. by exists f.
Qed.

Lemma hw_area_va x : hw_area x -> 0 <= va x /\ 0 < size x /\ va x + size x <= 2 ^ 39.
Proof using. intros [[_ ? ? _] ?]. lia. Qed.
Lemma hw_area_fits x : hw_area x -> fits x.
Proof using. intros H%hw_area_va. unfold fits. lia. Qed.
Lemma same_half a b : 0 <= a < 2 ^ 39 -> 0 <= b < 2 ^ 39 -> a / 2 ^ 39 = b / 2 ^ 39.
Proof using. intros. by rewrite !Z.div_small by lia. Qed.

(** What the area [e] adds to what is described. *)
Definition adds (D1 : list entry) (e : entry) (D2 : list entry) : Prop := forall a,
  described (D1 ++ e :: D2) a =
    (if decide (va e.2 <= a < va e.2 + size e.2) then Some (pa e.2 + (a - va e.2), prot e.2 mod 2 ^ 10)
     else described (D1 ++ D2) a) /\
  (va e.2 <= a < va e.2 + size e.2 -> described (D1 ++ D2) a = None).
Lemma described_area s D1 (e : entry) D2 H oth l k kc X :
  vm_ok s (D1 ++ e :: D2) H oth l k kc X -> adds D1 e D2.
Proof using.
  intros V a. destruct (vo_space _ _ _ _ _ _ _ _ _ _ _ _ _ _ _ _ V) as (_ & _ & _ & Hf & Ha).
  apply described_place; [done |]. eapply Forall_impl; [exact Hf |]. by intros ? [].
Qed.

(** An address space and its page tables, in agreement; [K] are the descriptors
    in use outside the page allocator, [O] the objects of the cache of areas. *)
Record io_ok (s : vms) (D : list entry) (H : list Z) oth l k kc X : Prop := {
  io_vm : vm_ok s D H oth l k kc X;
  io_agrees : agrees s k D;
  io_areas : areas_ok (o_pages oth) D;
  io_lock : counters_ok (rwlk k) /\ free_for WriterBr (rwlk k) = true
}.
Definition space_in (H O : list Z) (K : gmap Z pageframe) (s : vms) (D : list entry) : Prop :=
  exists oth l k kc X, o_pages oth = K /\ objects X ≡ₚ O /\ io_ok s D H oth l k kc X.

(** Blocks that are added leave the areas as they are. *)
Lemma areas_ok_more K K' D : K ⊆ K' -> areas_ok K D -> areas_ok K' D.
Proof using.
  intros HK [HA HN]. split; [| done]. intros e He. destruct (HA e He) as [? Hb]. split; [done |].
  unfold backed in *. destruct (vmar_typ e.2); try done. destruct Hb as (pg & p & H1 & H2 & H3 & H4 & H5).
  exists pg, p. do 3 (split; [done |]). split; [by eapply lookup_weaken | done].
Qed.
Lemma room_more use K K' O O' : grown_by use K K' O O' -> K ⊆ K'.
Proof using. intros [[-> _] | (_ & x & p & new & Hx & _ & _ & -> & _)]; [done | by apply insert_subseteq]. Qed.
Lemma room_held use K O O' : O' ≡ₚ O -> grown_by use K K O O'.
Proof using. by left. Qed.

Lemma agrees_mem s s' k D : memory (bud (mm s')) = memory (bud (mm s)) -> agrees s k D -> agrees s' k D.
Proof using. intros E H a Ha. unfold translate. rewrite E. by apply H. Qed.

(** Leaving with the lock of [v] released. *)
Lemma io_leave s D H O oth l k kc X w :
  vm_ok s D H oth l k kc X -> agrees s k D -> areas_ok (o_pages oth) D ->
  rwlk k = taken WriterBr w -> counters_ok w -> free_for WriterBr w = true -> objects X ≡ₚ O ->
  exists s', rwlk_do v (Locks.drop WriterBr) s = Ok (tt, s') /\ space_in H O (o_pages oth) s' D.
Proof using.
  intros V Ha Hf Hw Hc Hfr Hl. pose proof (vo_space _ _ _ _ _ _ _ _ _ _ _ _ _ _ _ _ V) as (Hv & _).
  exists (put_vma v (with_lock w k) s). split; [by apply unlock_Ok |].
  exists oth, l, (with_lock w k), kc, X. split; [done |]. split; [done |]. split; [by apply vm_ok_lock | done | done | done].
Qed.

(** Giving the object of an area back and leaving. *)
Lemma io_cancel s D a H O oth l k kc X w (r : Z) :
  vm_ok s D (a :: H) oth l k kc X -> free_node km g oth (l_node a) -> agrees s k D -> areas_ok (o_pages oth) D ->
  rwlk k = taken WriterBr w -> counters_ok w -> free_for WriterBr w = true -> objects X ≡ₚ O ->
  exists s', (obj_free km c a;; rwlk_do v (Locks.drop WriterBr);; ret r : M vms Z)%aco s = Ok (r, s') /\
    space_in H O (o_pages oth) s' D.
Proof using stack_after.
  intros V Hfr Ha Hf Hw Hc Hff Hl.
  destruct (area_free km g stack_after c n osize bsize v N s D a H oth l k kc X V Hfr)
    as (m' & oth' & kc' & X' & E & V' & Em & Ep & Eo). mstep E.
  destruct (io_leave _ D H O oth' l k kc' X' w V') as (s' & E' & HS); [| by rewrite Ep | done | done | done | by rewrite Eo |].
  - by apply (agrees_mem s).
  - mstep E'. exists s'. by rewrite <-Ep.
Qed.

(** An object of the cache that no area is in. *)
Definition free_object (H O : list Z) (D : list entry) (a : Z) : Prop := a ∈ O /\ (a ∉ H ++ D.*1).
Lemma held_object s D a H O oth l k kc X :
  vm_ok s D (a :: H) oth l k kc X -> objects X ≡ₚ O -> free_object H O D a.
Proof using.
  intros V HO. pose proof (vo_distinct _ _ _ _ _ _ _ _ _ _ _ _ _ _ _ _ V) as Hnd.
  pose proof (vo_use _ _ _ _ _ _ _ _ _ _ _ _ _ _ _ _ V) as Hu. rewrite <-Hu in Hnd. apply NoDup_app in Hnd as (_ & _ & Hnd).
  split; [rewrite <-HO, <-Hu; set_solver |]. by apply NoDup_cons in Hnd as [Hni _].
Qed.

(** What hanging an area and mapping its pages may come to; [x] is the area as it
    is kept when that succeeds. *)
Definition hang_outcome (H O : list Z) (K K' : gmap Z pageframe) (D : list entry) (x : vma_area) (r : Z) (s' : vms) : Prop :=
  (r = 0 /\ exists a D', free_object H O D a /\ hang_spec (a, x) D = Some D' /\ space_in H O K' s' D') \/
  (r = - EEXIST /\ existsb (fun f : entry => overlaps x f.2) D = true /\ space_in H O K s' D) \/
  (r = - ENOMEM /\ existsb (fun f : entry => overlaps x f.2) D = false /\ space_in H O K s' D).

(** What a request for an area may come to: there is no object for it, or the
    cache has one, having grown or not. *)
Definition map_outcome (H O : list Z) (K : gmap Z pageframe) (upd : gmap Z pageframe -> gmap Z pageframe) (D : list entry)
    (x : vma_area) (r : Z) (s' : vms) : Prop :=
  (r = - ENOBUFS /\ H ++ D.*1 ≡ₚ O /\ space_in H O K s' D) \/
  exists K1 O1, grown_by (H ++ D.*1) K K1 O O1 /\ hang_outcome H O1 K1 (upd K1) D x r s'.

(** What is asked of the callback that maps the pages of the area [a], which
    hangs on the address space with fields [x]: afterwards the page tables
    agree, and the fields are [x']; or nothing has changed. *)
Definition callback_ok (K K' : gmap Z pageframe) (a : Z) (x x' : vma_area) : Prop :=
  forall s D1 D2 H oth l k kc X,
    vm_ok s (D1 ++ (a, x) :: D2) H oth l k kc X -> agrees s k (D1 ++ D2) -> o_pages oth = K ->
    exists r s' oth' l', hw_map_callbacks km g (vmar_typ x) v a s = Ok (r, s') /\
      (r = 0 /\ vm_ok s' (D1 ++ (a, x') :: D2) H oth' l' k kc X /\ agrees s' k (D1 ++ (a, x') :: D2) /\ o_pages oth' = K' \/
       r = - ENOMEM /\ vm_ok s' (D1 ++ (a, x) :: D2) H oth' l' k kc X /\ agrees s' k (D1 ++ D2) /\ o_pages oth' = K).

Lemma hang_spec_place a x x' D D' :
  va x' = va x -> size x' = size x -> hang_spec (a, x) D = Some D' ->
  exists D1 D2, D = D1 ++ D2 /\ D' = D1 ++ (a, x) :: D2 /\ hang_spec (a, x') D = Some (D1 ++ (a, x') :: D2).
Proof using.
  intros Ev Es. unfold hang_spec. cbn [snd]. replace (existsb (fun f : entry => overlaps x' f.2) D)
    with (existsb (fun f : entry => overlaps x f.2) D) by (unfold overlaps; by rewrite Ev, Es).
  destruct (existsb _ D); [done |]. intros [= <-].
  assert (exists D1 D2, D = D1 ++ D2 /\ place_area (a, x) D = D1 ++ (a, x) :: D2 /\
    place_area (a, x') D = D1 ++ (a, x') :: D2) as (D1 & D2 & E1 & E2 & E3); [| exists D1, D2; by rewrite E2, E3].
  induction D as [|f D IH]; [by exists [], [] |]. cbn. rewrite Ev. destruct (_ <=? _).
  - destruct IH as (D1 & D2 & -> & -> & ->). by exists (f :: D1), D2.
  - by exists [], (f :: D).
Qed.

(** With an initialised area, from taking the lock on. *)
Lemma vm_mmap_locked s D H O K' a x x' oth l k kc X :
  vm_ok s D (a :: H) oth l k kc X -> free_node km g oth (l_node a) -> detached s v (a, x) D ->
  agrees s k D -> areas_ok (o_pages oth) D -> callback_ok (o_pages oth) K' a x x' ->
  va x' = va x -> size x' = size x ->
  (forall D1 D2, D = D1 ++ D2 -> areas_ok K' (D1 ++ (a, x') :: D2)) ->
  counters_ok (rwlk k) -> free_for WriterBr (rwlk k) = true -> objects X ≡ₚ O ->
  exists r s', (rwlk_do v (take WriterBr);;
    ret' ← vma_area_hang v a;
    if negb (ret' =? 0) then
      obj_free km c a;; rwlk_do v (Locks.drop WriterBr);; ret ret'
    else
      ret' ← hw_map_callbacks km g (vmar_typ x) v a;
      if negb (ret' =? 0) then
        vma_area_unhang v a;;
        obj_free km c a;; rwlk_do v (Locks.drop WriterBr);; ret ret'
      else rwlk_do v (Locks.drop WriterBr);; ret 0 : M vms Z)%aco s = Ok (r, s') /\
    hang_outcome H O (o_pages oth) K' D x' r s'.
Proof using stack_after.
  intros V Hfr Hdet Hag Hf Hcb Ev Es Hnew Hco Hff Hl. pose proof (held_object _ _ _ _ _ _ _ _ _ _ V Hl) as HaO. pose proof (vo_space _ _ _ _ _ _ _ _ _ _ _ _ _ _ _ _ V) as HA.
  mstep (rwlk_take s v k WriterBr (proj1 HA) Hff).
  pose proof (vm_ok_held km g c n osize bsize v N s D (a :: H) oth l k kc X WriterBr V) as V1.
  destruct (area_hang km g c n osize bsize v N _ D H oth l _ kc X (a, x) V1 Hdet Hfr) as (s2 & E2 & H2). cbn [fst] in E2.
  mstep E2. clear E2.
  assert (existsb (fun f : entry => overlaps x' f.2) D = existsb (fun f : entry => overlaps x f.2) D) as Eov
    by (unfold overlaps; by rewrite Ev, Es).
  destruct (hang_spec (a, x) D) as [D'|] eqn:Eh.
  - destruct H2 as ((r0 & oth2 & V2 & Ep2) & Em2 & Ear). change (negb (0 =? 0)) with false. cbn iota.
    destruct (hang_spec_place _ _ x' _ _ Ev Es Eh) as (D1 & D2 & -> & -> & Eh').
    assert (existsb (fun f : entry => overlaps x' f.2) (D1 ++ D2) = false) as Hov.
    { rewrite Eov. unfold hang_spec in Eh. cbn [snd] in Eh. by destruct (existsb _ _). }
    destruct (Hcb s2 D1 D2 H oth2 l _ kc X V2 ltac:(by apply (agrees_mem s)) Ep2) as (r & s3 & oth3 & l3 & E3 & Hr).
    mstep E3. destruct Hr as [(-> & V3 & Ha3 & Ep3) | (-> & V3 & Ha3 & Ep3)].
    + change (negb (0 =? 0)) with false. cbn iota.
      destruct (io_leave s3 _ H O oth3 l3 _ kc X (rwlk k) V3 Ha3) as (s4 & E4 & HS);
        [rewrite Ep3; by apply Hnew | done | done | done | done |]. mstep E4. rewrite Ep3 in HS.
      exists 0, s4. split; [done |]. left. split; [done |]. by exists a, (D1 ++ (a, x') :: D2).
    + change (negb (- ENOMEM =? 0)) with true. cbn iota.
      destruct (area_unhang km g c n osize bsize v N s3 D1 (a, x) D2 H oth3 l3 _ kc X V3)
        as (s4 & r4 & oth4 & E4 & V4 & _ & Hfr4 & Ep4 & Em4 & _). cbn [fst] in E4. mstep E4.
      destruct (io_cancel s4 (D1 ++ D2) a H O oth4 l3 _ kc X (rwlk k) (- ENOMEM) V4 Hfr4) as (s5 & E5 & HS);
        [by eapply agrees_mem | by rewrite Ep4, Ep3 | done | done | done | done |]. rewrite Ep4, Ep3 in HS.
      exists (- ENOMEM), s5. split; [exact E5 |]. by do 2 right.
  - subst s2. change (negb (- EEXIST =? 0)) with true. cbn iota.
    destruct (io_cancel _ D a H O oth l _ kc X (rwlk k) (- EEXIST) V1 Hfr) as (s5 & E5 & HS); [done | done | done | done | done | done |].
    exists (- EEXIST), s5. split; [exact E5 |]. right. left. split; [done |]. split; [| done].
    rewrite Eov. unfold hang_spec in Eh. cbn [snd] in Eh. by destruct (existsb _ _).
Qed.

(** Growth of the cache takes what is uninitialised from here. *)
Context (Hstack : (3 <= length stack_after)%nat).

Lemma __vm_mmap_gen s D H O K upd va_ pa_ prot_ size_ tp x' :
  let x := mk_area tp va_ size_ pa_ None prot_ in
  space_in H O K s D -> hw_area x -> tp <> VMA_NOREACH -> 0 <= pa_ < 2 ^ 64 -> pa_ mod 4096 = 0 ->
  (forall a K1, K ⊆ K1 -> callback_ok K1 (upd K1) a x x') -> va x' = va_ -> size x' = size_ ->
  (forall a K1 D1 D2, K ⊆ K1 -> D = D1 ++ D2 -> areas_ok (upd K1) (D1 ++ (a, x') :: D2)) ->
  exists r s', __vm_mmap km g stack_after v va_ pa_ prot_ size_ tp true s = Ok (r, s') /\ map_outcome H O K upd D x' r s'.
Proof using Hstack.
  intros x (oth & l & k & kc & X & <- & HO & [V Hag Hf [Hco Hff]]) Ha Htp P1 P3 Hcb Ev Es Hnew.
  pose proof (hw_area_va _ Ha) as Hva. pose proof (vr_page _ _ (ha_range _ Ha)) as [A1 A2]. cbn in Hva, A1, A2.
  unfold __vm_mmap. unfold bind at 1, ASSERT at 1.
  rewrite (proj2 (Z.eqb_neq v NULL)), (proj2 (Z.ltb_lt 0 size_)), !aligned_true by (first [done | lia | apply (vo_layout _ _ _ _ _ _ _ _ _ _ _ _ _ _ _ _ V)]).
  cbn [negb andb]. unfold bind at 1, ASSERT at 1. rewrite bool_decide_eq_false_2 by done. cbn [negb].
  unfold gets at 1, bind at 1. rewrite (vo_cache _ _ _ _ _ _ _ _ _ _ _ _ _ _ _ _ V).
  destruct (area_alloc km g stack_after c n osize bsize v N s D H oth l k kc X V Hstack)
    as [[E Hu] | (a & m1 & oth1 & kc1 & X1 & E1 & V1 & Hfr & HaO & Hni & Htr & HG)].
  - mstep E. change (NULL =? NULL) with true. cbn iota. exists (- ENOBUFS), s. split; [done |]. left.
    split; [done |]. split; [by rewrite Hu |]. exists oth, l, k, kc, X. by split.
  - mstep E1. rewrite (proj2 (Z.eqb_neq a NULL)) by (pose proof (vo_object _ _ _ _ _ _ _ _ _ _ _ _ _ _ _ _ a V1 HaO) as [? _]; unfold NULL; lia).
    destruct (area_init km g c n osize bsize v N _ D (a :: H) oth1 l k kc1 X1 a tp va_ pa_ size_ prot_ V1 Hfr Hni HaO)
      as (s2 & E2 & V2 & Hdet & Em2); [by apply (hw_area_fits _ Ha) |].
    mstep E2. change tp with (vmar_typ x). pose proof (room_more _ _ _ _ _ HG) as HK.
    destruct (vm_mmap_locked s2 D H (objects X1) (upd (o_pages oth1)) a x x' oth1 l k kc1 X1) as (r & s3 & E3 & H3); try done.
    + intros b Hb. unfold translate. rewrite Em2. etransitivity; [apply Htr | by apply Hag].
    + by eapply areas_ok_more.
    + by apply Hcb.
    + intros D1 D2. by apply Hnew.
    + exists r, s3. split; [exact E3 |]. right. exists (o_pages oth1), (objects X1). split; [| done].
      destruct HG as [[? ?] | (Hu & y & p & new & ? & ? & ? & ? & Hn & ?)]; [left; split; [done | by rewrite <-HO] | right].
      split; [by rewrite <-HO |]. exists y, p, new. do 4 (split; [done |]). split; [by rewrite <-HO | done].
Qed.

(** ** The page tables of one area *)

Context (Hpa : PGFRAME_PA_START km + PGFRAME_SIZE km <= 2 ^ 56).

(** Where the pages of an area may lie. *)
Record maps_to (x : vma_area) : Prop := {
  mt_pa : 0 <= pa x /\ pa x + size x <= 2 ^ 56 /\ pa x mod 4096 = 0;
  mt_prot : PTE_VALID (prot x) = true
}.

(** The pages of an area that hangs already are mapped. *)
Lemma map_area s D1 (e : entry) D2 H oth l k kc X :
  vm_ok s (D1 ++ e :: D2) H oth l k kc X -> agrees s k (D1 ++ D2) -> hw_area e.2 -> maps_to e.2 ->
  exists r T l', hw_mmap km g (hw_pgtable k) (va e.2) (pa e.2) (prot e.2) (size e.2) s = Ok (r, at_pages T s) /\
    vm_ok (at_pages T s) (D1 ++ e :: D2) H oth l' k kc X /\ negb (r =? - EEXIST) = true /\
    (r = 0 /\ agrees (at_pages T s) k (D1 ++ e :: D2) \/ r = - ENOMEM /\ agrees (at_pages T s) k (D1 ++ D2)).
Proof using Hpa.
  clear Hstack. intros V Hag Ha [(P1 & P2 & P3) Hpr]. pose proof (hw_area_va _ Ha) as Hva.
  pose proof (vo_kernel _ _ _ _ _ _ _ _ _ _ _ _ _ _ _ _ V) as K.
  destruct (hw_mmap_translates km g oth _ _ _ (va e.2) (pa e.2) (prot e.2) (size e.2)
    (ko_tables _ _ _ _ _ _ _ _ _ _ _ _ K) Hpa (ha_range _ Ha) P1 P2 P3 Hpr) as (r & T & l' & E & HS & Hr & _ & Hc & HT).
  exists r, T, l'. split; [by apply on_pages_Ok |].
  split; [eapply area_tables; [exact V | done | apply HT, (vo_tight _ _ _ _ _ _ _ _ _ _ _ _ _ _ _ _ V) | lia] |].
  assert (r <> - EEXIST) as Hne.
  { intros ->. destruct Hr as [[? _] | [[? | (_ & a & Hin & Hs)] _]]; [done | done |].
    rewrite Hag in Hs by lia. destruct (described_area _ _ _ _ _ _ _ _ _ _ V a) as [_ Hnone].
    rewrite Hnone in Hs by done. by destruct Hs. }
  split; [by rewrite (proj2 (Z.eqb_neq _ _) Hne) |].
  unfold agrees. destruct Hr as [[-> HL] | [[-> | [-> _]] HL]]; [left | right | done].
  - split; [done |]. intros a Hra. cbn [bud mm set_mm set_bud at_pages]. rewrite HL by (apply same_half; lia).
    rewrite (proj1 (described_area _ _ _ _ _ _ _ _ _ _ V a)), Hag by done. done.
  - split; [done |]. intros a Hra. cbn [bud mm set_mm set_bud at_pages]. rewrite HL by (apply same_half; lia). by apply Hag.
Qed.

(** The pages of an area that no longer hangs are unmapped. *)
Lemma unmap_area s D1 (e : entry) D2 H oth l k kc X :
  vm_ok s (D1 ++ D2) H oth l k kc X -> agrees s k (D1 ++ e :: D2) -> hw_area e.2 -> adds D1 e D2 ->
  exists T l', hw_unmap km g (hw_pgtable k) (va e.2) (size e.2) s = Ok (tt, at_pages T s) /\
    vm_ok (at_pages T s) (D1 ++ D2) H oth l' k kc X /\ agrees (at_pages T s) k (D1 ++ D2).
Proof using Hpa.
  clear Hstack. intros V Hag Ha HD. pose proof (hw_area_va _ Ha) as Hva.
  pose proof (vo_kernel _ _ _ _ _ _ _ _ _ _ _ _ _ _ _ _ V) as K.
  destruct (hw_unmap_translates km g oth _ _ _ (va e.2) (size e.2) (ko_tables _ _ _ _ _ _ _ _ _ _ _ _ K) Hpa (ha_range _ Ha))
    as (T & l' & E & HS & _ & [Hc HT] & HL).
  { intros a Hin. rewrite Hag, (proj1 (HD a)), decide_True by (done || lia). by eexists. }
  exists T, l'. split; [by apply on_pages_Ok |].
  split; [eapply area_tables; [exact V | done | apply HT, (vo_tight _ _ _ _ _ _ _ _ _ _ _ _ _ _ _ _ V) | lia] |].
  intros a Hra. cbn [bud mm set_mm set_bud at_pages].
  rewrite HL by (apply same_half; lia). rewrite Hag, (proj1 (HD a)) by done. case_decide; [by rewrite (proj2 (HD a)) | done].
Qed.

(** ** Devices *)

Record device_area (x : vma_area) : Prop := {
  da_area : hw_area x;
  da_type : vmar_typ x = VMA_IO \/ vmar_typ x = VMA_KERNEL;
  da_maps : maps_to x;
  da_page : pgfm x = None
}.

Lemma device_callback K a x : device_area x -> callback_ok K K a x x.
Proof using Hpa.
  clear Hstack. intros [Ha Ht Hm _] s D1 D2 H oth l k kc X V Hag HK.
  pose proof (vo_space _ _ _ _ _ _ _ _ _ _ _ _ _ _ _ _ V) as HA.
  destruct (map_area s D1 (a, x) D2 H oth l k kc X V Hag Ha Hm) as (r & T & l' & E & V' & Hne & Hr). cbn [snd] in E.
  assert (mmap_kernel_io_hw_cb km g v a s = Ok (r, at_pages T s)) as Ecb.
  { unfold mmap_kernel_io_hw_cb. mstep (get_vma_Ok s v k (proj1 HA)).
    mstep (get_area_Ok s a x (proj1 (aspace_entry s v k _ HA (a, x) ltac:(set_solver)))). mstep E.
    unfold bind at 1, ASSERT. by rewrite Hne. }
  exists r, (at_pages T s), oth, l'. split; [destruct Ht as [-> | ->]; exact Ecb |].
  destruct Hr as [[-> Hag'] | [-> Hag']]; [left | right]; done.
Qed.

Lemma areas_ok_device K D1 D2 a x : areas_ok K (D1 ++ D2) -> device_area x -> areas_ok K (D1 ++ (a, x) :: D2).
Proof using.
  clear Hpa Hstack. intros HA [Hx Ht _ Hp]. apply (areas_ok_place K); [done | done | | by rewrite Hp | done].
  unfold backed. destruct Ht as [-> | ->]; done.
Qed.

Lemma space_areas H O K s D : space_in H O K s D -> areas_ok K D.
Proof using. by intros (oth & l & k & kc & X & <- & _ & [_ _ ? _]). Qed.
Lemma space_vma H O K s D : space_in H O K s D -> v <> NULL.
Proof using. intros (oth & l & k & kc & X & _ & _ & [V _ _ _]). apply (vo_layout _ _ _ _ _ _ _ _ _ _ _ _ _ _ _ _ V). Qed.

Lemma vm_mmap_device s D H O K va_ pa_ prot_ size_ tp :
  let x := mk_area tp va_ size_ pa_ None prot_ in
  space_in H O K s D -> device_area x ->
  exists r s', __vm_mmap km g stack_after v va_ pa_ prot_ size_ tp true s = Ok (r, s') /\ map_outcome H O K id D x r s'.
Proof using Hpa Hstack.
  intros x HS Hx. pose proof Hx as [Ha Ht [(P1 & P2 & P3) _] _]. pose proof (hw_area_va _ Ha) as Hva. cbn in Ht, P1, P2, P3, Hva.
  apply __vm_mmap_gen; try done; [destruct Ht; congruence | lia | intros a K1 _; by apply device_callback |].
  intros a K1 D1 D2 HK ->. apply areas_ok_device; [| done]. eapply areas_ok_more; [exact HK | by eapply space_areas].
Qed.

(** The area that a request for a device describes. *)
Definition io_area (va_ pa_ prot_ size_ : Z) : vma_area := mk_area VMA_IO va_ (PAGE_UPPER_ALIGN size_) pa_ None prot_.

Lemma vm_iomap_Ok s D H O K va_ pa_ prot_ size_ :
  space_in H O K s D -> 0 < size_ < 2 ^ 43 -> iomap_refusal km va_ pa_ size_ = None ->
  device_area (io_area va_ pa_ prot_ size_) ->
  exists r s', vm_iomap km g stack_after v va_ pa_ prot_ size_ s = Ok (r, s') /\
    map_outcome H O K id D (io_area va_ pa_ prot_ size_) r s'.
Proof using Hpa Hstack.
  intros HS Hsz Href Hx. pose proof Hx as [Ha _ [(P1 & P2 & P3) _] _]. pose proof (hw_area_va _ Ha) as Hva. cbn in *.
  pose proof (space_vma _ _ _ _ _ HS) as Hv.
  assert (size_ <= PAGE_UPPER_ALIGN size_) as Hup.
  { rewrite PAGE_UPPER_ALIGN_spec by lia. pose proof (Z.div_mod (size_ + 4095) 4096 ltac:(lia)).
    pose proof (Z.mod_pos_bound (size_ + 4095) 4096 ltac:(lia)). lia. }
  unfold vm_iomap, iomap_refusal, misses in *. rewrite !u64_small by lia.
  destruct ((_ <=? va_) || _); cbn [negb andb] in *; [| done].
  destruct ((_ <=? pa_) || _); cbn [negb andb] in *; [| done].
  destruct (va_ mod 4096 =? 0) eqn:Ea, (pa_ mod 4096 =? 0) eqn:Ep; cbn [negb andb] in *; try done.
  apply Z.eqb_eq in Ea, Ep.
  rewrite (proj2 (Z.eqb_neq v NULL)), !align_low, Ea, Ep, Z.eqb_refl, (proj2 (Z.leb_gt _ _)) by (done || lia). cbn [negb orb].
  rewrite aligned_true by (done || lia). cbn [negb]. by apply vm_mmap_device.
Qed.

(** ** Unmapping *)

Lemma vm_ok_no_null s D H oth l k kc X : vm_ok s D H oth l k kc X -> no_null D.
Proof using.
  clear Hpa Hstack. intros V. apply Forall_forall. intros e He.
  destruct (vo_object _ _ _ _ _ _ _ _ _ _ _ _ _ _ _ _ e.1 V) as (H1 & H2 & _); [| split; [unfold NULL; lia | done]].
  rewrite <-(vo_use _ _ _ _ _ _ _ _ _ _ _ _ _ _ _ _ V), !elem_of_app. do 2 right. by apply list_elem_of_fmap_2.
Qed.

(** The only area that a search can find. *)
Lemma find_range_split va_ size_ D (e : entry) :
  find (fun e : entry => (va e.2 =? va_) && (size e.2 =? size_)) D = Some e ->
  exists D1 D2, D = D1 ++ e :: D2 /\ va e.2 = va_ /\ size e.2 = size_.
Proof using.
  intros [Hin Hm]%find_some. apply list_elem_of_In, list_elem_of_split in Hin as (D1 & D2 & ->).
  apply andb_prop in Hm as [?%Z.eqb_eq ?%Z.eqb_eq]. by exists D1, D2.
Qed.

(** What is asked of the callback that unmaps the pages of the area [e], which
    hangs no more: afterwards the page tables agree without it. *)
Definition uncallback_ok (K K' : gmap Z pageframe) (e : entry) : Prop :=
  forall s D1 D2 H oth l k kc X,
    vm_ok s (D1 ++ D2) (e.1 :: H) oth l k kc X -> free_node km g oth (lnode_of e) -> agrees s k (D1 ++ e :: D2) ->
    adds D1 e D2 -> areas s !! e.1 = Some e.2 -> o_pages oth = K -> areas_ok K (D1 ++ e :: D2) ->
    exists s' oth' l', hw_unmap_callbacks km g (vmar_typ e.2) v e.1 s = Ok (tt, s') /\
      vm_ok s' (D1 ++ D2) (e.1 :: H) oth' l' k kc X /\ free_node km g oth' (lnode_of e) /\ agrees s' k (D1 ++ D2) /\
      o_pages oth' = K'.

Lemma __vm_unmap_gen s D1 (e : entry) D2 H O K K' :
  space_in H O K s (D1 ++ e :: D2) -> uncallback_ok K K' e -> areas_ok K' (D1 ++ D2) ->
  exists s', __vm_unmap km g v (va e.2) (size e.2) (vmar_typ e.2) true s = Ok (0, s') /\ space_in H O K' s' (D1 ++ D2).
Proof using stack_after.
  clear Hpa Hstack. intros (oth & l & k & kc & X & <- & HO & [V Hag Hf [Hco Hff]]) Hcb Hf'.
  pose proof (vo_space _ _ _ _ _ _ _ _ _ _ _ _ _ _ _ _ V) as HA.
  destruct (ao_area _ _ Hf e ltac:(set_solver)) as [Ha Hb].
  pose proof (hw_area_va _ Ha) as Hva. pose proof (vr_page _ _ (ha_range _ Ha)) as [A1 A2].
  unfold __vm_unmap. unfold bind at 1, ASSERT at 1.
  rewrite (proj2 (Z.eqb_neq v NULL)) by (by apply (vo_layout _ _ _ _ _ _ _ _ _ _ _ _ _ _ _ _ V)).
  rewrite (proj2 (Z.ltb_lt _ _)), !aligned_true by (done || lia). cbn [negb andb].
  mstep (rwlk_take s v k WriterBr (proj1 HA) Hff). set (s1 := put_vma v (held WriterBr k) s).
  pose proof (vm_ok_held km g c n osize bsize v N _ _ _ _ _ _ _ _ WriterBr V) as V1. fold s1 in V1.
  pose proof (vo_space _ _ _ _ _ _ _ _ _ _ _ _ _ _ _ _ V1) as HA1.
  pose proof (vm_ok_no_null _ _ _ _ _ _ _ _ V1) as HN. pose proof HN as [_ [Hne Hna]%Forall_inv]%Forall_app.
  unfold gets at 1, bind at 1. rewrite (bind_Ok _ _ _ _ _ (find_Ok s1 v _ _ (va e.2) (size e.2) HA1
    ltac:(eapply Forall_impl; [exact HN |]; by intros ? []))).
  rewrite (find_area_some s1 v _ _ e HA1) by set_solver. unfold anode_or_null.
  rewrite (proj2 (Z.eqb_neq e.1 _)), (proj2 (Z.eqb_neq (a_node e.1) _)) by done.
  replace (of_a_node (a_node e.1)) with e.1 by (unfold of_a_node, a_node; lia).
  mstep (get_area_Ok s1 e.1 e.2 (proj1 (aspace_entry _ _ _ _ HA1 e ltac:(set_solver)))).
  unfold bind at 1, ASSERT at 1. rewrite !Z.eqb_refl. cbn [andb]. rewrite bool_decide_eq_true_2 by done. cbn [negb].
  destruct (area_unhang km g c n osize bsize v N s1 D1 e D2 H oth l _ kc X V1)
    as (s2 & r2 & oth2 & E2 & V2 & Hdet & Hfr & Ep2 & Em2 & _). mstep E2.
  destruct (Hcb s2 D1 D2 H oth2 l _ kc X V2 Hfr) as (s3 & oth3 & l3 & E3 & V3 & Hfr3 & Ha3 & Ep3);
    [by eapply (agrees_mem s) | by eapply described_area | apply Hdet | done | done |].
  unfold when. mstep E3. unfold gets at 1, bind at 1. rewrite (vo_cache _ _ _ _ _ _ _ _ _ _ _ _ _ _ _ _ V3).
  rewrite <-Ep3 in Hf'.
  destruct (io_cancel s3 (D1 ++ D2) e.1 H O oth3 l3 _ kc X (rwlk k) 0 V3 Hfr3 Ha3 Hf' eq_refl Hco Hff HO) as (s4 & E4 & HS).
  rewrite Ep3 in HS. exists s4. by split.
Qed.

Lemma device_uncallback K e : hw_area e.2 -> vmar_typ e.2 = VMA_IO \/ vmar_typ e.2 = VMA_KERNEL -> uncallback_ok K K e.
Proof using Hpa.
  clear Hstack. intros Ha Ht s D1 D2 H oth l k kc X V Hfr Hag HD He HK _.
  pose proof (vo_space _ _ _ _ _ _ _ _ _ _ _ _ _ _ _ _ V) as HA.
  destruct (unmap_area s D1 e D2 _ oth l k kc X V Hag Ha HD) as (T & l' & E & V' & Hag').
  exists (at_pages T s), oth, l'. split; [| done].
  assert (hw_unmap_kernel_io km g v e.1 s = Ok (tt, at_pages T s)) as Ecb; [| by destruct Ht as [-> | ->]].
  unfold hw_unmap_kernel_io. mstep (get_vma_Ok s v k (proj1 HA)). by mstep (get_area_Ok s e.1 e.2 He).
Qed.

Lemma __vm_unmap_Ok s D1 (e : entry) D2 H O K :
  space_in H O K s (D1 ++ e :: D2) -> vmar_typ e.2 = VMA_IO \/ vmar_typ e.2 = VMA_KERNEL ->
  exists s', __vm_unmap km g v (va e.2) (size e.2) (vmar_typ e.2) true s = Ok (0, s') /\ space_in H O K s' (D1 ++ D2).
Proof using Hpa stack_after.
  clear Hstack. intros HS Ht. pose proof (space_areas _ _ _ _ _ HS) as HA. destruct (ao_area _ _ HA e ltac:(set_solver)) as [Ha _].
  apply (__vm_unmap_gen s D1 e D2 H O K K HS); [by apply device_uncallback | by eapply areas_ok_drop].
Qed.

Lemma vm_iounmap_Ok s D H O K va_ size_ :
  space_in H O K s D -> 0 <= va_ -> 0 < size_ -> va_ + size_ <= 2 ^ 64 - 4096 ->
  iounmap_refusal km D va_ size_ = None ->
  exists s' D1 e D2, vm_iounmap km g v va_ size_ s = Ok (0, s') /\ D = D1 ++ e :: D2 /\
    va e.2 = va_ /\ size e.2 = PAGE_UPPER_ALIGN size_ /\ vmar_typ e.2 = VMA_IO /\ space_in H O K s' (D1 ++ D2).
Proof using Hpa stack_after.
  clear Hstack. intros HS H1 H2 H3 Href. unfold iounmap_refusal, misses, unmap_refusal in Href.
  pose proof (space_vma _ _ _ _ _ HS) as Hv.
  unfold vm_iounmap. rewrite u64_small by lia. destruct (_ || _); cbn [negb] in *; [| done].
  rewrite (proj2 (Z.eqb_neq v NULL)) by done.
  destruct (va_ mod 4096 =? 0) eqn:Ea; cbn [negb] in *; [| done]. apply Z.eqb_eq in Ea.
  rewrite aligned_true by (done || lia). cbn [negb]. rewrite <-PAGE_UPPER_ALIGN_spec in Href by lia.
  destruct (find _ D) as [e|] eqn:Ef; [| done]. case_decide as Ht; [| done].
  destruct (find_range_split _ _ _ _ Ef) as (D1 & D2 & -> & <- & Es). rewrite <-Es in *.
  destruct (__vm_unmap_Ok s D1 e D2 H O K HS (or_introl Ht)) as (s' & E & HS'). rewrite Ht in E.
  exists s', D1, e, D2. split; [done |]. do 4 (split; [done |]). done.
Qed.
End requests.
