(* ===== verification/VmMemSpec.v ===== *)
(** * Memory areas

    [vm_mmap] takes a block of pages, hands its descriptor to the area and maps
    it; [vm_unmap] gives it back.  In between the block is the area's: its
    descriptor counts one use and no other area has it. *)
From S2P Require Import Prelude DList Cpu Locks KernelMap PageFrame Buddy Slab SlabSpec CacheSpec Avl AvlSpec Sv39 Sv39Pte Sv39Tree Sv39Map Sv39Spec KernelSpec BlockSpec GrowSpec VmaArea Vm VmaSpec VmSpec SpaceSpec VmMapSpec.

(** ** Addresses of pages *)

Lemma pg2pa_eq km x : geometry km -> 0 <= x < PGFRAME_PAGE_NUMS km -> pg2pa km x = PGFRAME_PA_START km + 4096 * x.
Proof. intros G Hx. destruct G eqn:Eg. unfold pg2pa. rewrite s32_small by lia. apply id2pa_eq; [done | lia]. Qed.
Lemma pa2pg_pg2pa km x : geometry km -> 0 <= x < PGFRAME_PAGE_NUMS km -> pa2pg km (pg2pa km x) = x.
Proof.
  intros G Hx. rewrite pg2pa_eq by done. unfold pa2pg. rewrite pa2id_eq by (done || lia).
  rewrite Z.mul_comm. by apply Z.div_mul.
Qed.

(** ** Steps on one descriptor *)

Lemma at_page_page x p s : pgs (bud (mm (at_page x p s))) !! x = Some p.
Proof. apply put_page_at. Qed.
Lemma at_at_page x p p' s : at_page x p' (at_page x p s) = at_page x p' s.
Proof. unfold at_page, at_pages, set_mm, set_bud. cbn. by rewrite put_put_page. Qed.
Lemma at_page_id x p s : pgs (bud (mm s)) !! x = Some p -> at_page x p s = s.
Proof.
  intros Hp. unfold at_page, put_page. rewrite insert_id by done. rewrite <-buddy_eta. by destruct s as [[? ? ?] ? ? ? ? ? ? ?].
Qed.

Section page_steps.
Context (s : vms) (x : Z) (p : pageframe).
Lemma lock_step : page_lk p = 1 -> on_pages (lock_pgfm x) (at_page x p s) = Ok (tt, at_page x (with_lk 0 p) s).
Proof. intros Hl. rewrite <-(at_at_page x p (with_lk 0 p)). apply on_pages_Ok, lock_at; [apply at_page_page | done]. Qed.
Lemma unlock_step : page_lk p = 0 -> on_pages (unlock_pgfm x) (at_page x p s) = Ok (tt, at_page x (with_lk 1 p) s).
Proof. intros Hl. rewrite <-(at_at_page x p (with_lk 1 p)). apply on_pages_Ok, unlock_at; [apply at_page_page | done]. Qed.
Lemma set_step f : on_pages (set_page x f) (at_page x p s) = Ok (tt, at_page x (f p) s).
Proof. rewrite <-(at_at_page x p (f p)). apply on_pages_Ok, set_at, at_page_page. Qed.
Lemma get_step : on_pages (get_page x) (at_page x p s) = Ok (p, at_page x p s).
Proof.
  erewrite on_pages_Ok; [reflexivity | apply get_at, at_page_page].
Qed.
End page_steps.
Ltac page_steps := repeat first
  [ erewrite bind_Ok; [| apply lock_step; reflexivity]; cbn beta iota
  | erewrite bind_Ok; [| apply unlock_step; reflexivity]; cbn beta iota
  | erewrite bind_Ok; [| apply set_step]; cbn beta iota
  | erewrite bind_Ok; [| apply get_step]; cbn beta iota ].

(** The descriptor of a block of order [o] in the hands of an area, used [r]
    times. *)
Definition block_page (o r : Z) : pageframe := mk_pageframe 1 PageFrame.VMA_AREA 2 o r 0.

Lemma claim_Ok s x p o :
  pgs (bud (mm s)) !! x = Some p -> page_lk p = 1 -> buddy_flags p = 2 -> buddy_order p = o ->
  pgtype p = PAGE_BUDDYALLOCATOR -> claim_page x o s = Ok (tt, at_page x (block_page o 0) s).
Proof.
  destruct p as [lk ty fl od rc vf]. cbn. intros Hp -> -> -> ->. rewrite <-(at_page_id x _ s Hp) at 1. unfold claim_page.
  page_steps. erewrite bind_Ok; [| apply ASSERT_Ok; cbn; by rewrite Z.eqb_refl]. cbn beta iota.
  page_steps. by rewrite unlock_step.
Qed.

Section memory.
Context (km : kernel_mapping) (g : Z) (stack_after : list Z).
Context (c n osize bsize : Z) (v : Z) (N : Z).
Notation objects := (CacheSpec.objects n osize).
Notation grown_by := (grown_by n).
Notation nums := (PGFRAME_PAGE_NUMS km).
Notation vm_ok := (vm_ok km g c n osize bsize v N).
Notation agrees := (agrees km).
Notation space_in := (space_in km g c n osize bsize v N).

Section ok.
Context (s : vms) (D : list entry) (H : list Z) (oth : others) (l : list Z) (k : vma) (kc : kmem_cache) (X : cache_slabs).
Context (V : vm_ok s D H oth l k kc X).

Lemma vm_tables : Sv39Spec.space (table_pages km g oth) km (bud (mm s)) l (hw_pgtable k).
Proof using V. apply V. Qed.
Lemma vm_geometry : geometry km.
Proof using V. destruct vm_tables as [[[G _] _ _ _ _ _] _ _]. done. Qed.

(** A descriptor of another owner. *)
Lemma vm_kept pg p : o_pages oth !! pg = Some p ->
  pgs (bud (mm s)) !! pg = Some p /\ pg2va km pg ∉ l /\ page_lk p = 1 /\ 0 <= pg < nums /\
  (pgtype p <> PAGE_BUDDYALLOCATOR -> pg ∉ (o_blocks oth).*1).
Proof using V.
  intros Hp. destruct vm_tables as [[W _ _ Hr HK _] _ _]. destruct (HK pg p Hp) as (_ & Hq & Hl).
  split; [done |]. split; [done |]. split; [| split].
  - destruct W as (_ & _ & L & I). by apply (blk_lk _ _ _ (inv_blocks _ _ _ _ _ _ _ _ _ I) pg).
  - by eapply page_known.
  - intros Ht ([y o] & Ey & Hy)%list_elem_of_fmap. cbn in Ey. subst y.
    destruct (Hr pg o Hy) as (_ & (q & Hq' & _ & _ & Hq2) & _). congruence.
Qed.

(** A block comes from the allocator, cleared. *)
Lemma take_block o :
  order_ok o ->
  on_pages (bkp_alloc_zero km g o) s = Ok (None, s) \/
  exists pg p T, on_pages (bkp_alloc_zero km g o) s = Ok (Some pg, at_pages T s) /\
    SpaceSpec.vm_ok km g c n osize bsize v (N - 2 ^ o) (at_pages T s) D H oth l k kc X /\
    pgs T !! pg = Some p /\ page_lk p = 1 /\ buddy_flags p = 2 /\ buddy_order p = o /\ pgtype p = PAGE_BUDDYALLOCATOR /\
    0 <= pg /\ pg + 2 ^ o <= nums /\ unused km oth l pg /\
    forall a, translate km T (hw_pgtable k) a = translate km (bud (mm s)) (hw_pgtable k) a.
Proof using V.
  intros Ho. destruct vm_tables as [T Ht Hi]. destruct (table_pages_take km g oth _ l o T) as [E | (_ & x & s1 & E & T1 & Hh & Hx & Hu)].
  - left. unfold bkp_alloc_zero. erewrite on_pages_Ok; [| mstep E; reflexivity]. by destruct s as [[? ? ?] ? ? ? ? ? ? ?].
  - right. pose proof Hh as [A _ _ _ M _]. destruct A as (p & Hp & Hf & Hod & Hty). destruct Hu as [U1 U2 U3].
    assert (Sv39Spec.space (table_pages km g oth) km s1 l (hw_pgtable k)) as S1 by (split; [done | by rewrite M | by rewrite M]).
    destruct (space_fill km g oth s1 l _ x o S1 Ho (ho_block _ _ _ _ Hh) U1) as (S2 & Htr & HT).
    exists x, p. eexists. split; [apply on_pages_Ok; unfold bkp_alloc_zero; mstep E; rewrite fill_size by done; reflexivity |].
    split.
    { eapply area_tables; [exact V | done | apply HT; apply (tight_mem km (bud (mm s))); [done | by apply (vo_tight _ _ _ _ _ _ _ _ _ _ _ _ _ _ _ _ V)] |].
      pose proof (ho_pages _ _ _ _ Hh) as Hc. unfold balance, rest_pages in *. cbn [order_pools set_memory]. lia. }
    split; [done |]. split.
    { destruct (tp_wf _ _ _ _ _ T1) as (_ & _ & L & I). by apply (blk_lk _ _ _ (inv_blocks _ _ _ _ _ _ _ _ _ I) x). }
    do 3 (split; [done |]). destruct (hands_out_range km g _ _ _ x o (tp_wf _ _ _ _ _ T1) Ho Hh).
    do 2 (split; [done |]). split; [done |]. intros a. rewrite Htr. unfold translate. by rewrite M.
Qed.

(** A block that was another's goes back to the allocator. *)
Lemma release_block pg p p' :
  o_pages oth !! pg = Some p -> pgtype p <> PAGE_BUDDYALLOCATOR -> changes p p' -> pgtype p' = PAGE_BUDDYALLOCATOR ->
  exists T, on_pages (bkp_free km g (Some pg)) (at_page pg p' s) = Ok (tt, at_pages T s) /\
    vm_ok (at_pages T s) D H (with_pages (delete pg (o_pages oth)) oth) l k kc X /\ memory T = memory (bud (mm s)).
Proof using V.
  intros Hp Ht C Ht'. destruct (vm_kept pg p Hp) as (Hq & Hl & _ & _ & Hb). specialize (Hb Ht). pose proof C as [[_ C2 C4 C5 _] _].
  assert (SpaceSpec.vm_ok km g c n osize bsize v (N - 2 ^ buddy_order p) (at_page pg p' s) D H
    (with_pages (delete pg (o_pages oth)) oth) l k kc X) as V1.
  { eapply area_page; try done; [left; apply lookup_delete_eq | intros y Hy; by rewrite lookup_delete_ne |].
    rewrite (owned_delete (o_pages oth) pg p) by done. lia. }
  destruct (vo_kernel _ _ _ _ _ _ _ _ _ _ _ _ _ _ _ _ V1) as [[T1 Ht1 Hi1] _ _ _ _ _ _ _].
  pose proof (vo_tight _ _ _ _ _ _ _ _ _ _ _ _ _ _ _ _ V1) as HT.
  destruct (table_pages_give km g _ _ l pg (buddy_order p) T1 C2) as (T & E & T2 & Hk).
  - exists p'. split; [apply at_page_page | done].
  - split; [done | apply lookup_delete_eq | done].
  - exists T. erewrite on_pages_Ok by exact E. split; [done |]. pose proof (tb_memory _ _ _ _ Hk) as Em. split; [| done].
    change (at_pages T s) with (at_pages T (at_page pg p' s)). eapply area_tables; [exact V1 | split; [done | by rewrite Em | by rewrite Em] | by apply (tight_mem km (bud (mm (at_page pg p' s)))) |].
    pose proof (tb_pages _ _ _ _ Hk) as Hc. unfold balance in *. lia.
Qed.
End ok.

(** ** The descriptor of an area *)

Lemma vm_ok_areas s D H oth l k kc X : vm_ok s D H oth l k kc X -> NoDup (H ++ D.*1).
Proof using.
  intros V. pose proof (vo_distinct _ _ _ _ _ _ _ _ _ _ _ _ _ _ _ _ V) as Hnd.
  rewrite <-(vo_use _ _ _ _ _ _ _ _ _ _ _ _ _ _ _ _ V) in Hnd. by apply NoDup_app in Hnd as (_ & _ & ?).
Qed.

(** An area that hangs gets a block, at the same addresses. *)
Lemma area_repage s D1 a x D2 H oth l k kc X q :
  vm_ok s (D1 ++ (a, x) :: D2) H oth l k kc X ->
  exists s', upd_area a (with_pgfm q) s = Ok (tt, s') /\ vm_ok s' (D1 ++ (a, with_pgfm q x) :: D2) H oth l k kc X /\
    mm s' = mm s.
Proof using.
  intros V. pose proof (vm_ok_areas _ _ _ _ _ _ _ _ V) as Hnd. pose proof V as [V1 V2 V3 VG V4 V6 V7 V8 V9].
  pose proof (aspace_entry s v k _ V4 (a, x) ltac:(set_solver)) as [Ha _].
  exists (set_areas (<[a := with_pgfm q x]> (areas s)) s).
  split; [unfold upd_area; apply zoom_Ok; by apply (update_Ok _ a _ x) |]. split; [| done].
  assert (map lnode_of (D1 ++ (a, with_pgfm q x) :: D2) = map lnode_of (D1 ++ (a, x) :: D2)) as El by (by rewrite !map_app).
  assert ((D1 ++ (a, with_pgfm q x) :: D2).*1 = (D1 ++ (a, x) :: D2).*1) as E1 by (by rewrite !fmap_app).
  split; try done; [| by rewrite El | by rewrite E1].
  destruct V4 as (A1 & (t & A2) & A3 & A4 & A5). split; [done |]. split; [| split; [by rewrite El | split]].
  - exists t. replace (map anode_of (D1 ++ (a, with_pgfm q x) :: D2)) with (map anode_of (D1 ++ (a, x) :: D2)) by (by rewrite !map_app).
    done.
  - assert (forall e : entry, (e ∈ D1 ++ D2) -> e.1 <> a) as Hne.
    { apply NoDup_app in Hnd as (_ & _ & Hnd). rewrite fmap_app, fmap_cons, <-Permutation_middle in Hnd.
      apply NoDup_cons in Hnd as [Hni _]. cbn in Hni. intros e He <-. apply Hni. rewrite <-fmap_app. by apply list_elem_of_fmap_2. }
    rewrite Forall_forall in *. intros e He. assert (e = (a, with_pgfm q x) \/ e ∈ D1 ++ D2) as [-> | He'] by set_solver.
    + cbn. rewrite lookup_insert_eq. split; [done |]. apply (A4 (a, x)). set_solver.
    + cbn. rewrite lookup_insert_ne by (apply not_eq_sym; by apply Hne). apply A4. set_solver.
  - rewrite !ascending_app, !ascending_cons in *. destruct A5 as (S1 & (S2 & S3) & S4). split; [done |]. split; [done |].
    intros e f He [-> | Hf]%elem_of_cons; [apply (S4 e (a, x)); [done | by left] | apply S4; [done | by right]].
Qed.

Lemma described_repage D1 a x D2 q b :
  described (D1 ++ (a, with_pgfm q x) :: D2) b = described (D1 ++ (a, x) :: D2) b.
Proof using. unfold described. rewrite !find_app. cbn [find snd]. case_match; [done |]. unfold covers. cbn. by case_match. Qed.

(** A memory area: where its block is, and how large. *)
Record block_area (x : vma_area) (pg o : Z) : Prop := {
  ba_area : hw_area x;
  ba_type : vmar_typ x = VMA_MEMORY;
  ba_pa : pa x = pg2pa km pg;
  ba_size : size x = 4096 * 2 ^ o;
  ba_order : order_ok o
}.

Lemma block_backs o r x : size x = 4096 * 2 ^ o -> order_ok o -> backs (block_page o r) x = true.
Proof using. intros Es Ho. unfold backs. cbn. by rewrite order_size_spec, Es, Z.eqb_refl by done. Qed.

Context (Hpa : PGFRAME_PA_START km + PGFRAME_SIZE km <= 2 ^ 56).

Lemma block_pa pg : geometry km -> 0 <= pg < nums ->
  0 <= pg2pa km pg < 2 ^ 56 /\ (pg2pa km pg =? minus_one) = false /\ pa_valid km (pg2pa km pg) = true.
Proof using Hpa.
  intros G Hpg. pose proof G as [G1 G2 G3 G4 G5 G6 G7]. rewrite pg2pa_eq by done.
  split; [lia |]. split; [apply Z.eqb_neq; unfold minus_one; lia |].
  unfold pa_valid, PGFRAME_PA_END. rewrite u64_small by lia. lia.
Qed.

(** ** The callbacks *)

Lemma memory_callback K a x pg o :
  K !! pg = Some (block_page o 0) -> block_area x pg o -> maps_to x -> pgfm x = None ->
  callback_ok km g c n osize bsize v N K (<[pg := block_page o 1]> K) a x (with_pgfm (Some pg) x).
Proof using Hpa.
  intros HK [Ha Ht Epa Es Ho] Hm Hnone s D1 D2 H oth l k kc X V Hag Ep.
  pose proof (vo_space _ _ _ _ _ _ _ _ _ _ _ _ _ _ _ _ V) as HA. rewrite <-Ep in HK.
  destruct (vm_kept s _ H oth l k kc X V pg _ HK) as (_ & _ & _ & Hpg & _).
  destruct (block_pa pg (vm_geometry _ _ _ _ _ _ _ _ V) Hpg) as (_ & Hmin & Hval).
  destruct (map_area km g c n osize bsize v N Hpa s D1 (a, x) D2 H oth l k kc X V Hag Ha Hm)
    as (r & T & l' & E & V1 & Hne & Hr). cbn [snd] in E. set (s1 := at_pages T s) in *.
  rewrite Ht. cbn [hw_map_callbacks]. unfold mmap_memory_cb.
  mstep (get_area_Ok s a x (proj1 (aspace_entry s v k _ HA (a, x) ltac:(set_solver)))).
  rewrite Hnone, Epa, Hmin, Hval. cbn [bool_decide]. unfold bind at 1, ASSERT at 1. rewrite bool_decide_eq_true_2 by done.
  unfold bind at 1, ASSERT at 1. mstep (get_vma_Ok s v k (proj1 HA)). rewrite Epa in E. mstep E.
  unfold bind at 1, ASSERT at 1. rewrite Hne. destruct Hr as [[-> Hag1] | [-> Hag1]].
  - change (negb (0 =? 0)) with false. cbn iota. rewrite pa2pg_pg2pa by (done || by eapply vm_geometry).
    destruct (vm_kept s1 _ H oth l' k kc X V1 pg _ HK) as (Hq & Hl & _ & _ & Hb).
    rewrite <-(at_page_id pg _ s1 Hq). page_steps.
    erewrite bind_Ok; [| apply ASSERT_Ok; by apply (block_backs o 0)]. cbn beta iota. page_steps.
    change (with_lk 1 _) with (block_page o 1).
    assert (vm_ok (at_page pg (block_page o 1) s1) (D1 ++ (a, x) :: D2) H (with_pages (<[pg := block_page o 1]> (o_pages oth)) oth)
      l' k kc X) as V2.
    { apply (area_page km g c n osize bsize v N N s1 _ H oth l' k kc X pg (block_page o 0) (block_page o 1)); try done; [by apply Hb | | |].
      - right. apply lookup_insert_eq.
      - intros y Hy. by rewrite lookup_insert_ne.
      - rewrite (owned_update _ _ (block_page o 0)) by done. lia. }
    destruct (area_repage _ D1 a x D2 H _ l' k kc X (Some pg) V2) as (s3 & E3 & V3 & Em3). mstep E3.
    exists 0, s3. eexists _, l'. split; [done |]. left. split; [done |]. split; [exact V3 |]. split; [| cbn; by rewrite Ep].
    intros b Hb'. rewrite described_repage. unfold agrees in Hag1. rewrite <-Hag1 by done. by rewrite Em3.
  - change (negb (- ENOMEM =? 0)) with true. cbn iota. exists (- ENOMEM), s1, oth, l'. split; [done |]. by right.
Qed.

Lemma memory_uncallback K (e : entry) pg :
  pgfm e.2 = Some pg -> vmar_typ e.2 = VMA_MEMORY -> hw_area e.2 -> backed km K e.2 ->
  uncallback_ok km g c n osize bsize v N K (delete pg K) e.
Proof using Hpa.
  intros Hpg Ht Ha Hb s D1 D2 H oth l k kc X V Hfr Hag HD He Ep _. unfold backed in Hb. rewrite Ht in Hb.
  destruct Hb as (q & p & Hq' & Hpgr & Epa & HK & Hbk & Ho & Hrc). assert (q = pg) as -> by congruence. rewrite <-Ep in HK.
  destruct (vm_kept s _ _ oth l k kc X V pg _ HK) as (Hq & Hl & Hlk & _).
  destruct (block_pa pg (vm_geometry _ _ _ _ _ _ _ _ V) Hpgr) as (_ & Hmin & _).
  destruct p as [lk ty fl od rc vf]. cbn in Hlk, Ho, Hrc. subst lk rc.
  assert (ty = PageFrame.VMA_AREA /\ fl = 2) as [-> ->].
  { unfold backs in Hbk. cbn in Hbk. rewrite !andb_true_iff, bool_decide_eq_true, Z.eqb_eq in Hbk. tauto. }
  rewrite Ht. cbn [hw_unmap_callbacks]. unfold unmmap_memory_cb. mstep (get_area_Ok s e.1 e.2 He).
  rewrite Epa, Hmin, Hpg. rewrite <-(at_page_id pg _ s Hq). page_steps.
  erewrite bind_Ok; [| apply ASSERT_Ok; exact Hbk]. cbn beta iota. page_steps.
  change (ref_count _ =? 0) with true. cbn iota.
  destruct (release_block s _ _ oth l k kc X V pg _ (mk_pageframe 1 PAGE_BUDDYALLOCATOR 2 od 0 vf) HK)
    as (T & E & V1 & Em); [done | done | done |].
  erewrite bind_Ok; [| page_steps; exact E]. cbn beta iota. set (s1 := at_pages T s) in *.
  assert (exists s2, upd_area e.1 (with_pgfm None) s1 = Ok (tt, s2) /\ mm s2 = mm s1 /\
    vm_ok s2 (D1 ++ D2) (e.1 :: H) (with_pages (delete pg (o_pages oth)) oth) l k kc X) as (s2 & E2 & Em2 & V2).
  { exists (set_areas (<[e.1 := with_pgfm None e.2]> (areas s1)) s1).
    split; [unfold upd_area; apply zoom_Ok; by apply (update_Ok _ e.1 _ e.2) |]. split; [done |].
    apply (vm_ok_frame km g c n osize bsize v N s1); try done; [by apply (vo_kernel _ _ _ _ _ _ _ _ _ _ _ _ _ _ _ _ V1) |].
    intros f Hf. split; [| done]. cbn. rewrite lookup_insert_ne; [done |]. intros Ef.
    pose proof (vm_ok_areas _ _ _ _ _ _ _ _ V) as Hnd. cbn in Hnd. apply NoDup_cons in Hnd as [Hni _].
    apply Hni. rewrite Ef. apply elem_of_app. right. by apply list_elem_of_fmap_2. }
  mstep E2. pose proof (vo_space _ _ _ _ _ _ _ _ _ _ _ _ _ _ _ _ V2) as HA2. mstep (get_vma_Ok s2 v k (proj1 HA2)).
  destruct (unmap_area km g c n osize bsize v N Hpa s2 D1 e D2 _ _ l k kc X V2) as (T3 & l3 & E3 & V3 & Hag3); [| done | done |].
  - intros b Hb. unfold translate. rewrite Em2. cbn. rewrite Em. by apply Hag.
  - exists (at_pages T3 s2). eexists _, l3. split; [exact E3 |]. split; [exact V3 |]. split; [done |]. split; [done |].
    cbn. by rewrite Ep.
Qed.

(** ** The requests *)

Lemma hw_area_of x :
  va x mod 4096 = 0 -> size x mod 4096 = 0 -> 0 <= va x -> 0 < size x -> va x + size x <= 2 ^ 39 -> hw_area x.
Proof using.
  intros. split; [split; [done | lia | lia |] | done]. rewrite !Z.div_small by lia. done.
Qed.

Lemma space_claim s D H O oth l k kc X pg p o T :
  io_ok km g c n osize bsize v N s D H oth l k kc X -> objects X ≡ₚ O -> order_ok o ->
  SpaceSpec.vm_ok km g c n osize bsize v (N - 2 ^ o) (at_pages T s) D H oth l k kc X -> pgs T !! pg = Some p -> buddy_flags p = 2 -> buddy_order p = o ->
  pgtype p = PAGE_BUDDYALLOCATOR -> unused km oth l pg ->
  (forall a, translate km T (hw_pgtable k) a = translate km (bud (mm s)) (hw_pgtable k) a) ->
  space_in H O (<[pg := block_page o 0]> (o_pages oth)) (at_page pg (block_page o 0) (at_pages T s)) D.
Proof using.
  intros [_ Hag Hf Hlk] HO Ho V Hp Hfl Hod Hty [U1 U2 U3] Htr.
  exists (with_pages (<[pg := block_page o 0]> (o_pages oth)) oth), l, k, kc, X. split; [done |]. split; [done |]. split; [| | | done].
  - eapply area_page; try done; [| right; apply lookup_insert_eq | intros y Hy; by rewrite lookup_insert_ne |].
    2: { rewrite owned_insert by done. cbn [buddy_order block_page]. lia. }
    apply changes_intro; try done; [by rewrite Hod | by rewrite Hty].
  - intros a Ha. etransitivity; [| by apply Hag]. etransitivity; [| apply Htr]. done.
  - destruct Hf as [HA HN]. split; [| done]. intros e He. destruct (HA e He) as [? Hb]. split; [done |].
    apply (backed_pages km (o_pages oth)); [done |]. intros pg' Hpg'. cbn. rewrite lookup_insert_ne; [done |]. intros <-.
    unfold backed in Hb. destruct (vmar_typ e.2); try congruence. destruct Hb as (pg' & p' & ? & _ & _ & ? & _). congruence.
Qed.

(** Lines 256 to 262. *)
Lemma space_release s D H O K pg o (r : Z) :
  space_in H O K s D -> K !! pg = Some (block_page o 0) -> order_ok o -> areas_ok km (delete pg K) D ->
  exists s', (on_pages (lock_pgfm pg);;
    on_pages (set_page pg (with_type PAGE_BUDDYALLOCATOR));;
    on_pages (set_page pg (with_other 0 0));;
    on_pages (unlock_pgfm pg);;
    on_pages (bkp_free km g (Some pg));;
    ret r : M vms Z)%aco s = Ok (r, s') /\ space_in H O (delete pg K) s' D.
Proof using.
  intros (oth & l & k & kc & X & <- & HO & [V Hag _ Hlk]) HK Ho Hf.
  destruct (vm_kept s _ _ oth l k kc X V pg _ HK) as (Hq & _). rewrite <-(at_page_id pg _ s Hq). page_steps.
  destruct (release_block s _ _ oth l k kc X V pg (block_page o 0) (mk_pageframe 1 PAGE_BUDDYALLOCATOR 2 o 0 0) HK)
    as (T & E & V1 & Em); [done | done | done |]. mstep E. exists (at_pages T s). split; [done |].
  eexists _, l, k, kc, X. split; [| split; [exact HO | split; [exact V1 | | done | done]]]; [done |].
  intros a Ha. unfold translate. cbn. rewrite Em. by apply Hag.
Qed.

(** The area that a request for memory describes, once it has the block [pg]. *)
Definition mem_area (va_ o prot_ : Z) (pg : Z) : vma_area :=
  mk_area VMA_MEMORY va_ (4096 * 2 ^ o) (pg2pa km pg) (Some pg) prot_.
Definition mem_clash (va_ o : Z) (D : list entry) : bool :=
  existsb (fun f : entry => overlaps (mk_area VMA_MEMORY va_ (4096 * 2 ^ o) 0 None 0) f.2) D.

Definition mem_outcome (H O : list Z) (K : gmap Z pageframe) (D : list entry) (va_ o prot_ r : Z) (s' : vms) : Prop :=
  (r = - ENOBUFS /\ H ++ D.*1 ≡ₚ O /\ space_in H O K s' D) \/
  exists K1 O1, grown_by (H ++ D.*1) K K1 O O1 /\
    ((r = 0 /\ exists pg a D', 0 <= pg /\ pg + 2 ^ o <= nums /\ K1 !! pg = None /\ free_object H O1 D a /\
        hang_spec (a, mem_area va_ o prot_ pg) D = Some D' /\ space_in H O1 (<[pg := block_page o 1]> K1) s' D') \/
     (r = - EEXIST /\ mem_clash va_ o D = true /\ space_in H O1 K1 s' D) \/
     (r = - ENOMEM /\ space_in H O1 K1 s' D)).

(** Growth beside a block that is not a slab. *)
Lemma grown_beside use K K' O O' pg b :
  grown_by use (<[pg := b]> K) K' O O' -> K !! pg = None ->
  exists K1, grown_by use K K1 O O' /\ K' = <[pg := b]> K1 /\ K1 !! pg = None.
Proof using.
  intros [[-> HO] | (Hu & x & p & new & Hx & H1 & H2 & -> & H3)] Hpg.
  - exists K. split; [by left | done].
  - apply lookup_insert_None in Hx as [Hx Hne]. exists (<[x := p]> K).
    split; [right; split; [done |]; by exists x, p, new |]. split; [by apply insert_insert_ne |].
    by rewrite lookup_insert_ne.
Qed.

(** The area that owns a block is consistent once the block counts its use. *)
Lemma mem_area_ok K K1 D1 D2 a x pg o :
  K ⊆ K1 -> K !! pg = Some (block_page o 0) -> areas_ok km K (D1 ++ D2) -> block_area x pg o -> 0 <= pg < nums ->
  areas_ok km (<[pg := block_page o 1]> K1) (D1 ++ (a, with_pgfm (Some pg) x) :: D2).
Proof using.
  clear Hpa. intros HK Hpg HA [Hx Ht Epa Es Ho] Hr. pose proof (lookup_weaken _ _ _ _ Hpg HK) as Hpg1.
  apply (areas_ok_place km K1); [by eapply areas_ok_more | split; apply Hx | | |].
  - unfold backed. cbn. rewrite Ht. exists pg, (block_page o 1). split; [done |]. split; [done |]. split; [done |].
    split; [apply lookup_insert_eq |]. split; [by apply (block_backs o 1) | done].
  - intros q [= <-]. by exists (block_page o 0).
  - intros q Hq. rewrite lookup_insert_ne; [done |]. intros ->. by apply Hq.
Qed.

Context (Hstack : (3 <= length stack_after)%nat).

Lemma vm_mmap_Ok s D H O K va_ o prot_ :
  space_in H O K s D -> va_ mod 4096 = 0 -> 0 <= va_ -> order_ok o -> va_ + 4096 * 2 ^ o <= 2 ^ 39 -> PTE_VALID prot_ = true ->
  exists r s', vm_mmap km g stack_after v va_ o prot_ s = Ok (r, s') /\ mem_outcome H O K D va_ o prot_ r s'.
Proof using Hpa Hstack.
  intros HS Hal H0 Ho Hend Hpr. pose proof (pow_order o Ho) as Hpo. pose proof (space_vma _ _ _ _ _ _ _ _ _ _ _ _ _ HS) as Hv.
  pose proof HS as (oth & l & k & kc & X & <- & HO & I). pose proof I as [V Hag Hf _].
  unfold vm_mmap. rewrite aligned_true, (proj2 (Z.eqb_neq v NULL)) by (first [done | lia]).
  rewrite (proj2 (Z.leb_le 0 o)), (proj2 (Z.ltb_lt o _)) by apply Ho. cbn [orb andb negb].
  destruct (take_block s D H oth l k kc X V o Ho) as [E | (pg & p & T & E & V1 & Hp & Hlk & Hfl & Hod & Hty & Hpg0 & Hpg1 & Hu & Htr)]; mstep E.
  { exists (- ENOMEM), s. split; [done |]. right. exists (o_pages oth), O. split; [by apply room_held | by do 2 right]. }
  mstep (claim_Ok (at_pages T s) pg p o Hp Hlk Hfl Hod Hty).
  pose proof (space_claim s D H O oth l k kc X pg p o T I HO Ho V1 Hp Hfl Hod Hty Hu Htr) as HS1.
  set (s1 := at_page pg _ _) in *. set (K := o_pages oth) in *. set (K0 := <[pg := block_page o 0]> K) in *.
  assert (K !! pg = None) as HKn by apply Hu. rewrite order_size_spec by apply Ho.
  pose proof (vm_geometry _ _ _ _ _ _ _ _ V) as G. destruct (block_pa pg G ltac:(lia)) as (Hpa1 & _).
  assert (pg2pa km pg + 4096 * 2 ^ o <= 2 ^ 56 /\ pg2pa km pg mod 4096 = 0) as [Hpa2 Hpa3].
  { pose proof G as [G1 G2 G3 G4 G5 G6 G7]. rewrite (pg2pa_eq km pg G) by lia. split; [lia |].
    by rewrite Z.mul_comm, Z.mod_add by lia. }
  set (x := mk_area VMA_MEMORY va_ (4096 * 2 ^ o) (pg2pa km pg) None prot_).
  assert (block_area x pg o) as Hx by (split; [apply hw_area_of; cbn; try lia; rewrite Z.mul_comm; by apply Z.mod_mul | done ..]).
  assert (K0 !! pg = Some (block_page o 0)) as HK0 by apply lookup_insert_eq.
  destruct (__vm_mmap_gen km g stack_after c n osize bsize v N Hstack s1 D H O K0 (fun K => <[pg := block_page o 1]> K) va_
    (pg2pa km pg) prot_ (4096 * 2 ^ o) VMA_MEMORY (with_pgfm (Some pg) x)) as (r & s2 & E2 & Hr); try done.
  { apply Hx. }
  { lia. }
  { intros a K1 HK. apply (memory_callback K1 a x pg o); [by eapply lookup_weaken | done | | done]. split; [| done]. cbn. lia. }
  { intros a K1 D1 D2 HK ->. apply (mem_area_ok K0); [done | done | | done | lia]. by apply space_areas in HS1. }
  mstep E2.
  assert (forall K1 O1, space_in H O1 (<[pg := block_page o 0]> K1) s2 D -> K ⊆ K1 -> K1 !! pg = None ->
    exists s3, (on_pages (lock_pgfm pg);;
    on_pages (set_page pg (with_type PAGE_BUDDYALLOCATOR));; on_pages (set_page pg (with_other 0 0));;
    on_pages (unlock_pgfm pg);; on_pages (bkp_free km g (Some pg));; ret r : M vms Z)%aco s2 = Ok (r, s3) /\ space_in H O1 K1 s3 D) as Hrel.
  { intros K1 O1 HS2 HK HKp. assert (delete pg (<[pg := block_page o 0]> K1) = K1) as Hd by by apply delete_insert_id.
    destruct (space_release s2 D H O1 (<[pg := block_page o 0]> K1) pg o r HS2) as (s3 & E3 & HS3); [apply lookup_insert_eq | done | |].
    - rewrite Hd. by apply (areas_ok_more _ K).
    - exists s3. by rewrite Hd in HS3. }
  destruct Hr as [(-> & Hfull & HS2) | (K1' & O1 & HG & Hr)].
  { destruct (Hrel K O HS2) as (s3 & E3 & HS3); [done | done |]. exists (- ENOBUFS), s3. split; [exact E3 |]. by left. }
  destruct (grown_beside _ _ _ _ _ _ _ HG HKn) as (K1 & HG1 & -> & HKp). pose proof (room_more _ _ _ _ _ _ HG1) as HK.
  destruct Hr as [(-> & a & D' & Ha & Hh & HS2) | [(-> & Hov & HS2) | (-> & _ & HS2)]].
  - exists 0, s2. split; [done |]. right. exists K1, O1. split; [done |]. left. split; [done |].
    exists pg, a, D'. do 5 (split; [done |]). by rewrite insert_insert_eq in HS2.
  - destruct (Hrel K1 O1 HS2 HK HKp) as (s3 & E3 & HS3). exists (- EEXIST), s3. split; [exact E3 |].
    right. exists K1, O1. split; [done |]. right. by left.
  - destruct (Hrel K1 O1 HS2 HK HKp) as (s3 & E3 & HS3). exists (- ENOMEM), s3. split; [exact E3 |].
    right. exists K1, O1. split; [done |]. by do 2 right.
Qed.

Lemma vm_unmap_Ok s D H O K va_ o :
  space_in H O K s D -> va_ mod 4096 = 0 -> 0 <= va_ < 2 ^ 64 -> order_ok o ->
  unmap_refusal D va_ (4096 * 2 ^ o) VMA_MEMORY = None ->
  exists s' D1 e D2 pg, vm_unmap km g v va_ o s = Ok (0, s') /\ D = D1 ++ e :: D2 /\ va e.2 = va_ /\
    size e.2 = 4096 * 2 ^ o /\ vmar_typ e.2 = VMA_MEMORY /\ pgfm e.2 = Some pg /\ space_in H O (delete pg K) s' (D1 ++ D2).
Proof using Hpa stack_after.
  clear Hstack. intros HS Hal H0 Ho Href. pose proof HS as (oth & l & k & kc & X & HKo & _ & [V _ Hf _]). unfold unmap_refusal in Href.
  destruct (find _ D) as [e|] eqn:Ef; [| done]. case_decide as Ht; [| done].
  destruct (find_range_split _ _ _ _ Ef) as (D1 & D2 & -> & <- & Es).
  destruct (ao_area _ _ _ Hf e ltac:(set_solver)) as [Ha Hb]. rewrite HKo in Hb, Hf. pose proof Hb as Hb'.
  unfold backed in Hb'. rewrite Ht in Hb'. destruct Hb' as (pg & _ & Hpg & _).
  destruct (__vm_unmap_gen km g stack_after c n osize bsize v N s D1 e D2 H O K (delete pg K) HS) as (s' & E & HS').
  - by apply memory_uncallback.
  - apply (areas_ok_drop km K _ D1 e D2 Hf). intros q Hq. rewrite lookup_delete_ne; [done |]. by intros ->.
  - exists s', D1, e, D2, pg. split; [| done]. rewrite Ht in E.
    unfold vm_unmap. rewrite aligned_true, (proj2 (Z.eqb_neq v NULL)) by (first [done | apply (vo_layout _ _ _ _ _ _ _ _ _ _ _ _ _ _ _ _ V)]).
    cbn [orb negb]. mstep (get_vma_Ok s v k (proj1 (vo_space _ _ _ _ _ _ _ _ _ _ _ _ _ _ _ _ V))).
    unfold gets at 1, bind at 1. rewrite (vo_kern _ _ _ _ _ _ _ _ _ _ _ _ _ _ _ _ V), Z.eqb_refl.
    rewrite (proj2 (Z.leb_le 0 o)), (proj2 (Z.ltb_lt o _)) by apply Ho. cbn [orb andb negb].
    rewrite order_size_spec, <-Es by apply Ho. exact E.
Qed.
End memory.
