(* ===== verification/Boot.v ===== *)
(** * Booting the harts

    [kernel/entry.c], [include/aco/init.h] and [arch/riscv/kernel/boot_hart.c].
    The hart that boots the machine runs the initialisation functions of all
    modules, then lets the others do the same, waits for them and checks the
    page frames.  The harts interleave at the granularity of one atomic
    operation or one call of such a function. *)
From S2P Require Import Prelude Locks.

Section boot.
(** The state of the modules; the functions in the [.init] section in the order
    the linker sorts them; the check of the page frames; the number of harts
    and the one that boots. *)
Context {St : Type}.
Context (init_section : list (M St Z)) (pages_slfcheck : M St Z) (CPUS cpu_boot : Z).

(** The static counters of [entry.c]. *)
Inductive counter := MODULE_INITED | BOOTDONE_CPUS.

(** The code of a hart: calls of module functions and atomic operations with
    the code that takes their result; [Until c p k] is the loop
    [while(!p(atomic_fetch_and_add(&c, 0)))] before [k]; a failed assertion
    spins for ever ([Spin]). *)
Inductive hart_code :=
  | End
  | Spin
  | Call (f : M St Z) (k : Z -> hart_code)
  | Add (c : counter) (v : Z) (k : Z -> hart_code)
  | Until (c : counter) (p : Z -> bool) (k : hart_code).

(** [src/include/aco/init.h:10-24 aco_module_init] From the function [fs] of the
    section on. *)
Fixpoint aco_module_init (fs : list (M St Z)) (k : Z -> hart_code) : hart_code :=
  match fs with
  | [] => k 0
  | ptr_func :: fs => Call ptr_func (fun error => if negb (error =? 0) then k error else aco_module_init fs k)
  end.

Definition assert_zero (ret : Z) (k : hart_code) : hart_code := if ret =? 0 then k else Spin.

(** [src/kernel/entry.c:27-49 start_kernel] The logo is left out. *)
Definition start_kernel (cpuid : Z) : hart_code :=
  if cpuid =? cpu_boot then
    aco_module_init init_section (fun ret => assert_zero ret
      (Add MODULE_INITED 1 (fun _ =>
       Add BOOTDONE_CPUS 1 (fun _ =>
       Until BOOTDONE_CPUS (fun v => v =? CPUS)
       (Call pages_slfcheck (fun ret => assert_zero ret End))))))
  else
    Until MODULE_INITED (fun v => negb (v =? 0))
    (aco_module_init init_section (fun ret => assert_zero ret
      (Add BOOTDONE_CPUS 1 (fun _ => End)))).

(** [src/arch/riscv/kernel/boot_hart.c:15-25 boot_harts] The calls
    [sbi_hart_start(i, start_address, kernel_pagetable)] that it makes, and its
    result. *)
Definition boot_harts (cpuid start_address kernel_pagetable : Z) : list (Z * Z * Z) * Z :=
  ((fun i => (i, start_address, kernel_pagetable)) <$> filter (fun i => i <> cpuid) (seqZ 0 CPUS), kernel_pagetable).

(** ** Interleaving *)

(** The two counters, the state of the modules, the harts, and the harts that
    called a module function, in order. *)
Record machine := mk_machine {
  module_inited : Z;
  bootdone_cpus : Z;
  modules : St;
  calls : list nat;
  codes : list hart_code
}.

Definition read_counter (c : counter) (m : machine) : Z :=
  match c with MODULE_INITED => module_inited m | BOOTDONE_CPUS => bootdone_cpus m end.
Definition write_counter (c : counter) (v : Z) (m : machine) : machine :=
  match c with
  | MODULE_INITED => mk_machine v (bootdone_cpus m) (modules m) (calls m) (codes m)
  | BOOTDONE_CPUS => mk_machine (module_inited m) v (modules m) (calls m) (codes m)
  end.
Definition set_code (i : nat) (c : hart_code) (m : machine) : machine :=
  mk_machine (module_inited m) (bootdone_cpus m) (modules m) (calls m) (<[i := c]> (codes m)).
Definition after_call (i : nat) (s : St) (m : machine) : machine :=
  mk_machine (module_inited m) (bootdone_cpus m) s (calls m ++ [i]) (codes m).

(** One action of hart [i]. *)
Definition hart_turn (i : nat) (m : machine) : machine :=
  match codes m !! i with
  | Some (Call f k) =>
    match f (modules m) with
    | Ok (v, s) => set_code i (k v) (after_call i s m)
    | Err _ => set_code i Spin m
    end
  | Some (Add c v k) =>
    let '(old, new) := atomic_fetch_and_add (read_counter c m) v in
    set_code i (k old) (write_counter c new m)
  | Some (Until c p k) =>
    let '(old, new) := atomic_fetch_and_add (read_counter c m) 0 in
    if p old then set_code i k (write_counter c new m) else write_counter c new m
  | _ => m
  end.

(** All harts enter [start_kernel]; [turns t] is the hart whose turn it is at
    time [t]. *)
Definition power_on (s : St) : machine := mk_machine 0 0 s [] (start_kernel <$> seqZ 0 CPUS).
Fixpoint boot_run (turns : nat -> nat) (s : St) (t : nat) : machine :=
  match t with
  | O => power_on s
  | S t => hart_turn (turns t) (boot_run turns s t)
  end.
End boot.
Arguments End {St}.
Arguments Spin {St}.
