(* ===== verification/BootSpec.v ===== *)
(** * Booting the harts: order and completion

    In every interleaving the modules are initialised by the hart that boots
    before any other hart enters their initialisation; and under a fair
    scheduler the boot completes on all harts. *)
From S2P Require Import Prelude DList Locks KernelMap PageFrame Buddy Boot.

(** ** Termination under a fair scheduler

    A deterministic system whose turns either change nothing or decrease a rank,
    and in which some turn decreases it as long as it is not done, is done some
    day when every hart has its turn again and again. *)

Definition fair (n : nat) (turns : nat -> nat) : Prop :=
  forall i t, (i < n)%nat -> exists t', (t <= t')%nat /\ turns t' = i.

Section fair.
Context {C : Type} (turn : nat -> C -> C) (n : nat) (Inv : nat -> C -> Prop) (Done : C -> Prop).
Context (Hturn : forall r c i, Inv r c -> turn i c = c \/ exists r', (r' < r)%nat /\ Inv r' (turn i c)).
Context (Hprogress : forall r c, Inv r c -> Done c \/ exists i r', (i < n)%nat /\ (r' < r)%nat /\ Inv r' (turn i c)).
Context (turns : nat -> nat) (run : nat -> C) (Hrun : forall t, run (S t) = turn (turns t) (run t)).

(** Up to time [t'], nothing happens or the rank goes down. *)
Lemma idle_or_down r t d :
  Inv r (run t) -> run (t + d)%nat = run t \/ exists t' r', (r' < r)%nat /\ Inv r' (run t').
Proof using Hturn Hrun.
  intros HI. induction d as [|d [E | ?]]; [left; by rewrite Nat.add_0_r | | by right].
  rewrite Nat.add_succ_r, Hrun, E. destruct (Hturn r (run t) (turns (t + d)) HI) as [-> | (r' & Hr & HI')]; [by left |].
  right. exists (S (t + d))%nat, r'. by rewrite Hrun, E.
Qed.

Lemma fair_done r t : fair n turns -> Inv r (run t) -> exists t', Done (run t').
Proof using Hturn Hprogress Hrun.
  intros Hfair. revert t. induction r as [r IH] using (well_founded_induction lt_wf). intros t HI.
  destruct (Hprogress r (run t) HI) as [Hd | (i & r' & Hi & Hr & HI')]; [by exists t |].
  destruct (Hfair i t Hi) as (t' & Ht & <-). destruct (idle_or_down r t (t' - t) HI) as [E | (t1 & r1 & Hr1 & HI1)].
  - apply (IH r' Hr (S t')). rewrite Hrun. replace (t + (t' - t))%nat with t' in E by lia. by rewrite E.
  - by apply (IH r1 Hr1 t1).
Qed.
End fair.

(** ** Program points of [start_kernel] *)

Section boot.
Context {St : Type} (init_section : list (M St Z)) (pages_slfcheck : M St Z) (CPUS cpu_boot : Z).
Context (Hcpus : 0 <= cpu_boot < CPUS) (Hint : CPUS < 2 ^ 31).
(** [Ready k]: the first [k] functions of the section have run.  They succeed,
    one after the other, and again when all have run. *)
Context (Ready : nat -> St -> Prop).
Notation len := (length init_section).
Record inits_ok : Prop := {
  io_first : forall pre f rest s, init_section = pre ++ f :: rest -> Ready (length pre) s ->
    exists s', f s = Ok (0, s') /\ Ready (S (length pre)) s';
  io_again : forall f s, f ∈ init_section -> Ready len s -> exists s', f s = Ok (0, s') /\ Ready len s';
  io_check : forall s, Ready len s -> exists s', pages_slfcheck s = Ok (0, s') /\ Ready len s'
}.
Context (Hok : inits_ok).
Notation b := (Z.to_nat cpu_boot).
Notation hart_code := (@hart_code St).

Inductive point :=
  | BCall (rest : list (M St Z)) | BCount | BWait | BCheck | BEnd
  | SWait | SCall (rest : list (M St Z)) | SEnd.

Definition check_code : hart_code := Call pages_slfcheck (fun ret => assert_zero ret End).
Definition wait_code : hart_code := Until BOOTDONE_CPUS (fun v => v =? CPUS) check_code.
Definition count_code : hart_code := Add BOOTDONE_CPUS 1 (fun _ => wait_code).
Definition boot_calls (rest : list (M St Z)) : hart_code :=
  aco_module_init rest (fun ret => assert_zero ret (Add MODULE_INITED 1 (fun _ => count_code))).
Definition other_calls (rest : list (M St Z)) : hart_code :=
  aco_module_init rest (fun ret => assert_zero ret (Add BOOTDONE_CPUS 1 (fun _ => End))).
Definition code_of (p : point) : hart_code :=
  match p with
  | BCall rest => boot_calls rest
  | BCount => count_code
  | BWait => wait_code
  | BCheck => check_code
  | SWait => Until MODULE_INITED (fun v => negb (v =? 0)) (other_calls init_section)
  | SCall rest => other_calls rest
  | BEnd | SEnd => End
  end.

Definition is_boot (p : point) : bool := match p with SWait | SCall _ | SEnd => false | _ => true end.
(** Turns left, and whether the hart has counted itself. *)
Definition left_of (p : point) : Z :=
  match p with
  | BCall rest => Z.of_nat (length rest) + 4
  | BCount => 3 | BWait => 2 | BCheck => 1 | BEnd => 0
  | SWait => Z.of_nat len + 2
  | SCall rest => Z.of_nat (length rest) + 1
  | SEnd => 0
  end.
Definition counted (p : point) : Z := match p with BWait | BCheck | BEnd | SEnd => 1 | _ => 0 end.

(** The calls the hart that boots has made before the others start, and its
    last. *)
Definition first_calls (p : point) : nat := match p with BCall rest => len - length rest | _ => len end.
Definition last_call (p : point) : list nat := match p with BEnd => [b] | _ => [] end.
Definition made (p : point) : nat := match p with SWait => 0 | SCall rest => len - length rest | _ => len end.
Definition occurs (i : nat) (l : list nat) : nat := length (filter (eq i) l).
(** What the others may do at each point of the hart that boots. *)
Definition beside (pb p : point) : Prop :=
  match pb with BCall _ => p = SWait | BCheck | BEnd => p = SEnd | _ => True end.
Definition suffix_at (p : point) : Prop :=
  match p with BCall rest | SCall rest => exists pre, init_section = pre ++ rest | _ => True end.

Record boot_inv (pb : point) (ps : list point) (mids : list nat) (m : machine (St := St)) : Prop := {
  bi_codes : codes m = code_of <$> ps;
  bi_length : length ps = Z.to_nat CPUS;
  bi_boot : ps !! b = Some pb;
  bi_kind : forall i p, ps !! i = Some p -> is_boot p = bool_decide (i = b);
  bi_suffix : forall i p, ps !! i = Some p -> suffix_at p;
  bi_inited : module_inited m = match pb with BCall _ => 0 | _ => 1 end;
  bi_done : bootdone_cpus m = total counted ps;
  bi_ready : Ready (first_calls pb) (modules m);
  bi_beside : forall i p, ps !! i = Some p -> i <> b -> beside pb p;
  bi_calls : calls m = replicate (first_calls pb) b ++ mids ++ last_call pb;
  bi_mids : b ∉ mids;
  bi_made : forall i p, ps !! i = Some p -> i <> b -> occurs i mids = made p;
  bi_first : match pb with BCall _ => mids = [] | _ => True end
}.

Lemma move_boot pb pb' ps mids m m' :
  boot_inv pb ps mids m -> is_boot pb' = true -> suffix_at pb' ->
  codes m' = <[b := code_of pb']> (codes m) -> module_inited m' = match pb' with BCall _ => 0 | _ => 1 end ->
  bootdone_cpus m' = bootdone_cpus m - counted pb + counted pb' -> Ready (first_calls pb') (modules m') ->
  calls m' = replicate (first_calls pb') b ++ mids ++ last_call pb' ->
  (forall i p, ps !! i = Some p -> i <> b -> beside pb' p) -> match pb' with BCall _ => mids = [] | _ => True end ->
  boot_inv pb' (<[b := pb']> ps) mids m'.
Proof using.
  intros [I1 I2 I3 I4 I5 I6 I7 I8 I9 I10 I11 I12 I13] Hb Hs E1 E2 E3 HR E4 Hbe Hf.
  assert (forall i p, <[b := pb']> ps !! i = Some p -> i = b /\ p = pb' \/ i <> b /\ ps !! i = Some p) as Hat.
  { intros i p. rewrite list_lookup_insert_Some. intros [(-> & -> & _) | [? ?]]; [by left | right; auto]. }
  split; try done.
  - by rewrite E1, I1, list_fmap_insert.
  - by rewrite length_insert.
  - apply list_lookup_insert_eq. by eapply lookup_lt_Some.
  - intros i p [[-> ->] | [Hi Hp]]%Hat; [by rewrite bool_decide_true | by apply I4].
  - intros i p [[-> ->] | [Hi Hp]]%Hat; [done | by apply (I5 i)].
  - by rewrite E3, (total_insert counted ps b pb pb' I3), I7.
  - intros i p [[-> _] | [Hi Hp]]%Hat Hne; [done | by apply (Hbe i)].
  - intros i p [[-> _] | [Hi Hp]]%Hat Hne; [done | by apply I12].
Qed.

Lemma move_other pb ps mids mids' m m' i p p' :
  boot_inv pb ps mids m -> ps !! i = Some p -> i <> b -> is_boot p' = false -> suffix_at p' ->
  codes m' = <[i := code_of p']> (codes m) -> module_inited m' = module_inited m ->
  bootdone_cpus m' = bootdone_cpus m - counted p + counted p' -> Ready (first_calls pb) (modules m') ->
  calls m' = replicate (first_calls pb) b ++ mids' ++ last_call pb -> (b ∉ mids') -> occurs i mids' = made p' ->
  (forall j, j <> i -> occurs j mids' = occurs j mids) -> beside pb p' ->
  match pb with BCall _ => mids' = [] | _ => True end -> boot_inv pb (<[i := p']> ps) mids' m'.
Proof using.
  intros [I1 I2 I3 I4 I5 I6 I7 I8 I9 I10 I11 I12 I13] Hp Hi Hb Hs E1 E2 E3 HR E4 Hm Ho Ho' Hbe Hf.
  assert (forall j q, <[i := p']> ps !! j = Some q -> j = i /\ q = p' \/ j <> i /\ ps !! j = Some q) as Hat.
  { intros j q. rewrite list_lookup_insert_Some. intros [(-> & -> & _) | [? ?]]; [by left | right; auto]. }
  split; try done.
  - by rewrite E1, I1, list_fmap_insert.
  - by rewrite length_insert.
  - by rewrite list_lookup_insert_ne.
  - intros j q [[-> ->] | [Hj Hq]]%Hat; [by rewrite bool_decide_false | by apply I4].
  - intros j q [[-> ->] | [Hj Hq]]%Hat; [done | by apply (I5 j)].
  - by rewrite E2.
  - by rewrite E3, (total_insert counted ps i p p' Hp), I7.
  - intros j q [[-> ->] | [Hj Hq]]%Hat Hne; [done | by apply (I9 j)].
  - intros j q [[-> ->] | [Hj Hq]]%Hat Hne; [done |]. rewrite Ho' by done. by apply I12.
Qed.

Lemma occurs_app i l1 l2 : occurs i (l1 ++ l2) = (occurs i l1 + occurs i l2)%nat.
Proof using. unfold occurs. by rewrite filter_app, length_app. Qed.
Lemma occurs_one i j : occurs i [j] = if decide (i = j) then 1%nat else 0%nat.
Proof using. unfold occurs. cbn. by case_decide. Qed.

(** The points hold of the machine that is switched on. *)
Definition start_point (i : Z) : point := if i =? cpu_boot then BCall init_section else SWait.

Lemma start_lookup i p : (start_point <$> seqZ 0 CPUS) !! i = Some p ->
  p = start_point (Z.of_nat i) /\ Z.of_nat i < CPUS.
Proof using.
  rewrite list_lookup_fmap, fmap_Some. intros (x & Hx & ->). apply lookup_seqZ in Hx as [-> ?]. split; [done | lia].
Qed.
Lemma total_start l : total counted (start_point <$> l) = 0.
Proof using. induction l as [|x l IH]; [done |]. cbn. unfold total in IH. rewrite IH. unfold start_point. by case_match. Qed.

Lemma boot_start s :
  Ready 0 s -> boot_inv (BCall init_section) (start_point <$> seqZ 0 CPUS) [] (power_on init_section pages_slfcheck CPUS cpu_boot s).
Proof using Hcpus.
  intros HR. assert (Z.of_nat b = cpu_boot) as Eb by lia. split.
  - cbn. rewrite <-list_fmap_compose. apply list_fmap_ext. intros i x _. cbn. unfold start_kernel, start_point.
    by case_match.
  - rewrite length_fmap, length_seqZ. done.
  - assert (seqZ 0 CPUS !! b = Some cpu_boot) as Es by (apply lookup_seqZ; lia).
    rewrite list_lookup_fmap, Es. cbn. unfold start_point. by rewrite Z.eqb_refl.
  - intros i p [-> Hi]%start_lookup. unfold start_point. case_bool_decide as Hib.
    + subst i. by rewrite Eb, Z.eqb_refl.
    + rewrite (proj2 (Z.eqb_neq _ _)) by lia. done.
  - intros i p [-> Hi]%start_lookup. unfold start_point. case_match; [by exists [] | done].
  - done.
  - by rewrite total_start.
  - cbn. by rewrite Nat.sub_diag.
  - intros i p [-> Hi]%start_lookup Hib. unfold start_point. rewrite (proj2 (Z.eqb_neq _ _)) by lia. done.
  - cbn. by rewrite Nat.sub_diag.
  - apply not_elem_of_nil.
  - intros i p [-> Hi]%start_lookup Hib. unfold start_point. rewrite (proj2 (Z.eqb_neq _ _)) by lia. done.
  - done.
Qed.

(** ** One turn *)

Notation hart_turn := (hart_turn (St := St)).
Definition moves (i : nat) (pb : point) (ps : list point) (mids : list nat) (m : machine) : Prop :=
  exists pb' ps' mids', boot_inv pb' ps' mids' (hart_turn i m) /\ total left_of ps' < total left_of ps.

Lemma counted_01 p : 0 <= counted p <= 1.
Proof using. destruct p; cbn; lia. Qed.
Lemma left_of_pos p : 0 <= left_of p.
Proof using. destruct p; cbn; lia. Qed.

Lemma all_counted l i p : total counted l = Z.of_nat (length l) -> l !! i = Some p -> counted p = 1.
Proof using.
  revert i. induction l as [|q l IH]; [done |]. cbn. fold (total counted l). intros i Ht.
  pose proof (counted_01 q). pose proof (total_bound counted l counted_01).
  destruct i as [|i]; [intros [= <-]; lia | apply IH; lia].
Qed.

Lemma done_range pb ps mids m : boot_inv pb ps mids m -> 0 <= bootdone_cpus m <= CPUS.
Proof using Hcpus.
  intros [_ I2 _ _ _ _ I7 _ _ _ _ _ _]. rewrite I7. pose proof (total_bound counted ps counted_01). lia.
Qed.

Lemma turn_code pb ps mids m i p : boot_inv pb ps mids m -> ps !! i = Some p -> codes m !! i = Some (code_of p).
Proof using. intros I Hp. by rewrite (bi_codes _ _ _ _ I), list_lookup_fmap, Hp. Qed.

Lemma suffix_len pre (f : M St Z) rest : init_section = pre ++ f :: rest ->
  (len - length (f :: rest) = length pre)%nat /\ (len - length rest = S (length pre))%nat.
Proof using. intros ->. rewrite length_app. cbn. lia. Qed.

Lemma turn_boot pb ps mids m :
  boot_inv pb ps mids m -> pb = BEnd /\ hart_turn b m = m \/
    pb = BWait /\ bootdone_cpus m <> CPUS /\ hart_turn b m = m \/ moves b pb ps mids m.
Proof using Hcpus Hint Hok.
  intros I. pose proof (done_range _ _ _ _ I) as Hd. pose proof I as [I1 I2 I3 I4 I5 I6 I7 I8 I9 I10 I11 I12 I13].
  pose proof (turn_code _ _ _ _ _ _ I I3) as Hc.
  assert (is_boot pb = true) as Hib by (rewrite (I4 b pb I3); by apply bool_decide_eq_true).
  pose proof (total_insert left_of ps b pb) as Hl.
  destruct pb as [[|f rest]| | | | | | |]; try done; cbn [code_of] in Hc.
  - right; right. exists BCount, (<[b := BCount]> ps), mids. split; [| rewrite (Hl _ I3); cbn; lia].
    unfold hart_turn. rewrite Hc. cbn. apply (move_boot (BCall []) BCount ps mids m); try done.
    + cbn. by rewrite I6.
    + cbn. lia.
    + cbn in I8. by rewrite Nat.sub_0_r in I8.
    + cbn. rewrite I10. cbn. by rewrite Nat.sub_0_r.
  - right; right. exists (BCall rest), (<[b := BCall rest]> ps), mids. split; [| rewrite (Hl _ I3); cbn [left_of length]; lia].
    destruct (I5 _ _ I3) as [pre Epre]. destruct (suffix_len _ _ _ Epre) as [L1 L2]. cbn [first_calls] in I8, I10. rewrite L1 in I8, I10.
    destruct (io_first Hok pre f rest (modules m) Epre I8) as (s' & Ef & HR).
    unfold hart_turn. rewrite Hc. cbn. rewrite Ef. apply (move_boot (BCall (f :: rest)) (BCall rest) ps mids m); try done.
    + exists (pre ++ [f]). by rewrite <-app_assoc.
    + cbn. lia.
    + cbn [first_calls]. by rewrite L2.
    + subst mids. cbn [calls set_code after_call]. rewrite I10. cbn [first_calls last_call]. rewrite L2, !app_nil_r.
      by rewrite <-replicate_S_end.
  - right; right. exists BWait, (<[b := BWait]> ps), mids. split; [| rewrite (Hl _ I3); cbn; lia].
    unfold hart_turn. rewrite Hc. cbn. apply (move_boot BCount BWait ps mids m); try done.
    cbn. rewrite u32_small; lia.
  - right. destruct (decide (bootdone_cpus m = CPUS)) as [Ed | Hne]; [right | left].
    + exists BCheck, (<[b := BCheck]> ps), mids. split; [| rewrite (Hl _ I3); cbn; lia].
      unfold hart_turn. rewrite Hc. cbn. rewrite Z.add_0_r, u32_small, Ed, Z.eqb_refl by lia.
      apply (move_boot BWait BCheck ps mids m); try done; [cbn; lia |].
      intros i p Hp Hi. pose proof (all_counted ps i p ltac:(lia) Hp) as H1.
      specialize (I4 i p Hp). rewrite bool_decide_false in I4 by done. by destruct p.
    + split; [done |]. split; [done |]. unfold hart_turn. rewrite Hc. cbn. rewrite Z.add_0_r, u32_small, (proj2 (Z.eqb_neq _ _)) by lia.
      by destruct m.
  - right; right. exists BEnd, (<[b := BEnd]> ps), mids. split; [| rewrite (Hl _ I3); cbn; lia].
    destruct (io_check Hok (modules m) I8) as (s' & Ef & HR).
    unfold hart_turn. rewrite Hc. cbn. rewrite Ef. apply (move_boot BCheck BEnd ps mids m); try done; [cbn; lia | cbn].
    rewrite I10. cbn. by rewrite app_nil_r, app_assoc.
  - left. split; [done |]. unfold hart_turn. by rewrite Hc.
Qed.

Lemma turn_other pb ps mids m i p :
  boot_inv pb ps mids m -> ps !! i = Some p -> i <> b ->
  p = SEnd /\ hart_turn i m = m \/ p = SWait /\ module_inited m = 0 /\ hart_turn i m = m \/ moves i pb ps mids m.
Proof using Hcpus Hint Hok.
  intros I Hp Hi. pose proof (done_range _ _ _ _ I) as Hd. pose proof I as [I1 I2 I3 I4 I5 I6 I7 I8 I9 I10 I11 I12 I13].
  pose proof (turn_code _ _ _ _ _ _ I Hp) as Hc. specialize (I12 i p Hp Hi) as Hmade. specialize (I9 i p Hp Hi) as Hbe.
  assert (is_boot p = false) as Hib by (rewrite (I4 i p Hp); by apply bool_decide_eq_false).
  pose proof (total_insert left_of ps i p) as Hl.
  destruct p as [| | | | | |[|f rest]|]; try done; cbn [code_of] in Hc.
  - right. destruct (decide (module_inited m = 0)) as [E0 | Hne]; [left | right].
    + split; [done |]. split; [done |]. unfold hart_turn. rewrite Hc. cbn. rewrite E0. cbn. destruct m. cbn in E0. by subst.
    + exists pb, (<[i := SCall init_section]> ps), mids. split; [| rewrite (Hl _ Hp); cbn; lia].
      assert (module_inited m = 1) as E1 by (rewrite I6 in *; by destruct pb).
      unfold hart_turn. rewrite Hc. cbn. rewrite E1. cbn.
      apply (move_other pb ps mids mids m _ i SWait (SCall init_section)); try done; try (cbn; lia).
      * by exists [].
      * cbn. by rewrite Nat.sub_diag.
      * by destruct pb.
  - right; right. exists pb, (<[i := SEnd]> ps), mids. split; [| rewrite (Hl _ Hp); cbn; lia].
    unfold hart_turn. rewrite Hc. cbn. apply (move_other pb ps mids mids m _ i (SCall []) SEnd); try done.
    + cbn. rewrite u32_small; lia.
    + cbn in Hmade |- *. by rewrite Nat.sub_0_r in Hmade.
    + by destruct pb.
  - right; right. exists pb, (<[i := SCall rest]> ps), (mids ++ [i]). split; [| rewrite (Hl _ Hp); cbn [left_of length]; lia].
    destruct (I5 _ _ Hp) as [pre Epre]. destruct (suffix_len _ _ _ Epre) as [L1 L2].
    assert (first_calls pb = len /\ last_call pb = []) as [Ef El] by by destruct pb.
    destruct (io_again Hok f (modules m)) as (s' & Er & HR); [rewrite Epre; set_solver | by rewrite <-Ef |].
    unfold hart_turn. rewrite Hc. cbn. rewrite Er.
    apply (move_other pb ps mids (mids ++ [i]) m _ i (SCall (f :: rest)) (SCall rest)); try done; try (cbn; lia).
    + exists (pre ++ [f]). by rewrite <-app_assoc.
    + cbn. by rewrite Ef.
    + cbn. rewrite I10, El. by rewrite !app_nil_r, app_assoc.
    + rewrite elem_of_app, list_elem_of_singleton. intros [? | Eb]; [done | by apply Hi].
    + rewrite occurs_app, occurs_one, decide_True, Hmade by done. cbn [made]. lia.
    + intros j Hj. rewrite occurs_app, occurs_one, decide_False by done. lia.
    + by destruct pb.
    + by destruct pb.
  - left. split; [done |]. unfold hart_turn. by rewrite Hc.
Qed.

(** ** All turns *)

Lemma turn_idle i m : codes m !! i = None -> hart_turn i m = m.
Proof using. intros H. unfold hart_turn. by rewrite H. Qed.

Definition ranked (r : nat) (m : machine) : Prop :=
  exists pb ps mids, boot_inv pb ps mids m /\ r = Z.to_nat (total left_of ps).

Lemma total_left_pos ps : 0 <= total left_of ps.
Proof using. induction ps as [|p ps IH]; [done |]. cbn. pose proof (left_of_pos p). unfold total in IH. lia. Qed.

Lemma moves_ranked i pb ps mids m :
  moves i pb ps mids m -> exists r', (r' < Z.to_nat (total left_of ps))%nat /\ ranked r' (hart_turn i m).
Proof using.
  intros (pb' & ps' & mids' & I & Hl). exists (Z.to_nat (total left_of ps')).
  split; [pose proof (total_left_pos ps'); lia |]. by exists pb', ps', mids'.
Qed.

Lemma turn_ranked r m i : ranked r m -> hart_turn i m = m \/ exists r', (r' < r)%nat /\ ranked r' (hart_turn i m).
Proof using Hcpus Hint Hok.
  intros (pb & ps & mids & I & ->). destruct (ps !! i) as [p|] eqn:Hp.
  - destruct (decide (i = b)) as [-> | Hi].
    + destruct (turn_boot pb ps mids m I) as [[_ E] | [(_ & _ & E) | Hm]]; [by left | by left |].
      right. by eapply moves_ranked.
    + destruct (turn_other pb ps mids m i p I Hp Hi) as [[_ E] | [(_ & _ & E) | Hm]]; [by left | by left |].
      right. by eapply moves_ranked.
  - left. apply turn_idle. rewrite (bi_codes _ _ _ _ I), list_lookup_fmap, Hp. done.
Qed.

(** Every hart is at its end. *)
Definition booted (m : machine (St := St)) : Prop := Forall (eq End) (codes m).

Lemma booted_ends pb ps mids m :
  boot_inv pb ps mids m -> (forall i p, ps !! i = Some p -> p = BEnd \/ p = SEnd) -> booted m.
Proof using.
  intros I H. unfold booted. rewrite (bi_codes _ _ _ _ I), Forall_fmap, Forall_lookup. intros i p Hp. by destruct (H i p Hp) as [-> | ->].
Qed.

Lemma turn_progress r m :
  ranked r m -> booted m \/ exists i r', (i < Z.to_nat CPUS)%nat /\ (r' < r)%nat /\ ranked r' (hart_turn i m).
Proof using Hcpus Hint Hok.
  intros (pb & ps & mids & I & ->). pose proof I as [I1 I2 I3 I4 I5 I6 I7 I8 I9 I10 I11 I12 I13].
  assert (forall i p, ps !! i = Some p -> moves i pb ps mids m ->
    exists i r', (i < Z.to_nat CPUS)%nat /\ (r' < Z.to_nat (total left_of ps))%nat /\ ranked r' (hart_turn i m)) as Hmv.
  { intros i p Hp Hm. destruct (moves_ranked _ _ _ _ _ Hm) as (r' & Hr & HR). exists i, r'.
    rewrite <-I2. split; [by eapply lookup_lt_Some | done]. }
  destruct (turn_boot pb ps mids m I) as [[-> _] | [(-> & Hne & _) | Hm]]; [| | right; by apply (Hmv b pb)].
  - left. eapply booted_ends; [exact I |]. intros i p Hp. destruct (decide (i = b)) as [-> | Hi].
    + left. congruence.
    + right. by apply (I9 i p Hp Hi).
  - right. destruct (decide (Forall (fun p => counted p = 1) ps)) as [Hall | Hnot].
    + exfalso. apply Hne. rewrite I7. clear -Hall I2 Hcpus.
      assert (total counted ps = Z.of_nat (length ps)) as ->; [| lia]. clear I2.
      induction Hall as [|p ps Hp _ IH]; [done |]. cbn. fold (total counted ps). lia.
    + apply not_Forall_Exists in Hnot; [| intros p; apply _]. apply Exists_exists in Hnot as (p & Hin & Hc).
      apply list_elem_of_lookup in Hin as [i Hp]. cbn in Hc.
      assert (i <> b) as Hi by (intros ->; assert (p = BWait) as -> by congruence; by apply Hc).
      destruct (turn_other BWait ps mids m i p I Hp Hi) as [[-> _] | [(_ & E0 & _) | Hm]];
        [by destruct Hc | by rewrite I6 in E0 | by apply (Hmv i p)].
Qed.

(** Once booted, nothing happens any more. *)
Lemma booted_stays m i : booted m -> hart_turn i m = m.
Proof using.
  intros H. unfold hart_turn. destruct (codes m !! i) as [c|] eqn:E; [| done].
  unfold booted in H. rewrite Forall_lookup in H. by rewrite <-(H i c E).
Qed.

Notation boot_run := (boot_run init_section pages_slfcheck CPUS cpu_boot).

Lemma run_inv turns s t : Ready 0 s -> exists pb ps mids, boot_inv pb ps mids (boot_run turns s t).
Proof using Hcpus Hint Hok.
  intros HR. induction t as [|t (pb & ps & mids & I)]; [eexists _, _, _; by apply boot_start |]. cbn [boot_run].
  destruct (turn_ranked (Z.to_nat (total left_of ps)) (boot_run turns s t) (turns t)) as [-> | (r' & _ & pb' & ps' & mids' & I' & _)].
  - by exists pb, ps, mids.
  - by exists pb, ps, mids.
  - by exists pb', ps', mids'.
Qed.

(** C16: booting completes.  With initialisation functions that succeed in the
    order of the section, and again once all of them have run, and a check of
    the page frames that succeeds afterwards: under every fair scheduler of the
    harts there is a time from which on all of them are at the end of
    [start_kernel].  No hart waits for ever, for the modules or for the other
    harts, and no assertion fails. *)
Theorem boot_completes turns s :
  Ready 0 s -> fair (Z.to_nat CPUS) turns ->
  exists t, forall t', (t <= t')%nat -> booted (boot_run turns s t').
Proof using Hcpus Hint Hok.
  intros HR Hf. destruct (run_inv turns s 0 HR) as (pb & ps & mids & I).
  destruct (fair_done hart_turn (Z.to_nat CPUS) ranked booted turn_ranked turn_progress turns (boot_run turns s)
    (fun t => eq_refl) (Z.to_nat (total left_of ps)) 0 Hf) as (t & Ht); [by exists pb, ps, mids |].
  exists t. intros t' Hle. replace t' with (t + (t' - t))%nat by lia. induction (t' - t)%nat as [|d IH]; [by rewrite Nat.add_0_r |].
  rewrite Nat.add_succ_r. cbn [boot_run]. by rewrite booted_stays.
Qed.

(** C17: the order of booting.  When the module functions and the check of the
    page frames succeed ([inits_ok]), at any time, under any scheduler, the calls
    of module functions made so far are: calls of the hart that boots, which goes
    through the whole section before another hart makes its first call; then
    calls of the other harts; and last the check of the page frames, by the hart
    that boots, when every other hart has been through the whole section. *)
Theorem boot_order turns s t :
  Ready 0 s ->
  exists k mids last, calls (boot_run turns s t) = replicate k b ++ mids ++ last /\
    (k <= len)%nat /\ (mids <> [] -> k = len) /\ (b ∉ mids) /\
    (last = [] \/ last = [b] /\ k = len /\ forall i, (i < Z.to_nat CPUS)%nat -> i <> b -> occurs i mids = len).
Proof using Hcpus Hint Hok.
  intros HR. destruct (run_inv turns s t HR) as (pb & ps & mids & [I1 I2 I3 I4 I5 I6 I7 I8 I9 I10 I11 I12 I13]).
  exists (first_calls pb), mids, (last_call pb). split; [done |]. split; [destruct pb; cbn; lia |].
  split; [by destruct pb |]. split; [done |]. destruct pb; try (by left). right. do 2 (split; [done |]).
  intros i Hi Hne. rewrite <-I2 in Hi. apply lookup_lt_is_Some in Hi as [p Hp]. rewrite (I12 i p Hp Hne).
  by rewrite (I9 i p Hp Hne : p = SEnd).
Qed.
End boot.

(** ** Two modules and three harts

    The page frames and the page allocator of the small machine of [Buddy]. *)

Definition demo_modules : Type := (Z * (Z * buddy))%type.
Definition on_pgfm {A} (m : M (Z * frames) A) : M demo_modules A :=
  zoom (fun s => (fst s, frames_of (snd (snd s)))) (fun x s => (fst x, (fst (snd s), set_frames (snd x) (snd (snd s))))) m.
Definition on_buddy {A} (m : M (Z * buddy) A) : M demo_modules A := zoom snd (fun x s => (fst s, x)) m.
Definition demo_section : list (M demo_modules Z) :=
  [on_pgfm (pgfm_module_init demo_km 0x1000); on_buddy (buddy_module_init demo_km demo_g)].
Definition demo_check : M demo_modules Z := on_pgfm (in_frames (pages_slfcheck demo_km)).

Definition run1 (f : M demo_modules Z) (s : demo_modules) : demo_modules := match f s with Ok (_, s') => s' | Err _ => s end.
Definition answer1 (f : M demo_modules Z) (s : demo_modules) : Z := match f s with Ok (r, _) => r | Err _ => -1 end.
Definition demo_off : demo_modules :=
  (0, (0, mk_buddy (mk_frames 0 (pages demo_frames) (nodes demo_frames ∪ nodes (frames_of demo_buddy))) (order_pools demo_buddy) (fun _ => 7))).
Definition demo_state (k : nat) : demo_modules :=
  match k with O => demo_off | S O => run1 (on_pgfm (pgfm_module_init demo_km 0x1000)) demo_off
  | _ => run1 (on_buddy (buddy_module_init demo_km demo_g)) (run1 (on_pgfm (pgfm_module_init demo_km 0x1000)) demo_off) end.

Lemma run1_Ok f s : answer1 f s = 0 -> f s = Ok (0, run1 f s).
Proof. unfold answer1, run1. by destruct (f s) as [[r s']|]; [intros -> |]. Qed.

#[local] Instance pageframe_eq_dec : EqDecision pageframe.
Proof. solve_decision. Defined.
#[local] Instance list_head_eq_dec : EqDecision list_head.
Proof. solve_decision. Defined.
#[local] Instance frames_eq_dec : EqDecision frames.
Proof. solve_decision. Defined.

Lemma demo_again f s : f ∈ demo_section -> s = demo_state 2 -> f s = Ok (0, s).
Proof.
  assert ((fst (demo_state 2) =? 0) = false /\ (fst (snd (demo_state 2)) =? 0) = false) as [H1 H2]
    by (split; vm_compute; reflexivity).
  intros Hf ->. revert H1 H2. destruct (demo_state 2) as [d1 [d2 [[? ? ?] ? ?]]]. cbn [fst snd]. intros H1 H2.
  unfold demo_section in Hf. rewrite !elem_of_cons, elem_of_nil in Hf. destruct Hf as [-> | [-> | []]].
  - unfold on_pgfm, zoom, pgfm_module_init, bind, gets. cbn [fst snd]. rewrite H1. reflexivity.
  - unfold on_buddy, zoom, buddy_module_init, bind, gets. cbn [fst snd]. rewrite H2. reflexivity.
Qed.

Lemma demo_checked : demo_check (demo_state 2) = Ok (0, demo_state 2).
Proof.
  assert (match pages_slfcheck demo_km (frames_of (snd (snd (demo_state 2)))) with
    Ok (r, f) => bool_decide (r = 0 /\ f = frames_of (snd (snd (demo_state 2)))) | Err _ => false end = true) as H
    by (vm_compute; reflexivity).
  unfold demo_check, on_pgfm, zoom, in_frames, zoom. cbn [snd]. revert H. generalize (demo_state 2). intros [d1 [d2 [f p m]]].
  cbn [fst snd frames_of]. destruct (pages_slfcheck demo_km f) as [[r f']|]; [| done].
  intros [-> ->]%bool_decide_eq_true. done.
Qed.

Lemma demo_inits : inits_ok demo_section demo_check (fun k s => s = demo_state k).
Proof.
  split.
  - intros pre f rest s E ->. destruct pre as [|g1 [|g2 pre]]; unfold demo_section in E.
    + injection E as <- _. eexists. split; [apply run1_Ok; vm_compute; reflexivity | reflexivity].
    + injection E as _ <- _. eexists. split; [apply run1_Ok; vm_compute; reflexivity | reflexivity].
    + exfalso. injection E as _ _ E. by destruct pre.
  - intros f s Hf ->. exists (demo_state 2). split; [by apply demo_again | done].
  - intros s ->. exists (demo_state 2). split; [apply demo_checked | done].
Qed.

(** Three harts in turn; the second boots. *)
Definition in_turn (t : nat) : nat := (t mod 3)%nat.
Lemma in_turn_fair : fair 3 in_turn.
Proof.
  intros i t Hi. exists (t * 3 + i)%nat. split; [lia |]. unfold in_turn. rewrite Nat.add_comm, Nat.Div0.mod_add. by apply Nat.mod_small.
Qed.

Lemma boot_completes_witness :
  exists t, forall t', (t <= t')%nat -> booted (boot_run demo_section demo_check 3 1 in_turn demo_off t').
Proof.
  assert (0 <= 1 < 3 /\ 3 < 2 ^ 31) as [H1 H2] by lia.
  exact (boot_completes demo_section demo_check 3 1 H1 H2 _ demo_inits in_turn demo_off eq_refl in_turn_fair).
Defined.

Lemma boot_order_witness :
  calls (boot_run demo_section demo_check 3 1 in_turn demo_off 25) = [1; 1; 2; 0; 2; 0; 1]%nat /\
  exists k mids last, [1; 1; 2; 0; 2; 0; 1]%nat = replicate k 1%nat ++ mids ++ last /\ (k <= 2)%nat /\ (1%nat ∉ mids).
Proof.
  assert (0 <= 1 < 3 /\ 3 < 2 ^ 31) as [H1 H2] by lia.
  assert (calls (boot_run demo_section demo_check 3 1 in_turn demo_off 25) = [1; 1; 2; 0; 2; 0; 1]%nat) as E
    by (vm_compute; reflexivity).
  split; [exact E |].
  destruct (boot_order demo_section demo_check 3 1 H1 H2 _ demo_inits in_turn demo_off 25 eq_refl) as (k & mids & last & Ec & Hk & _ & Hm & _).
  rewrite E in Ec. exists k, mids, last. split; [exact Ec | split; [exact Hk | exact Hm]].
Defined.
