(* ===== verification/EarlyVm.v ===== *)
(** * The first page table

    [arch/riscv/mm/kernel_map.c] and [arch/riscv/mm/early_vm.c]: what
    [boot/entry.S] calls before the memory management unit is on.  The memory map
    is read from the device tree, and a page table for the linear mapping is
    built in pages cut off the free memory, by physical addresses.  The macros
    for entries that [early_vm.c] repeats are those of [asm/vm.h], in [Sv39]. *)
From S2P Require Import Prelude ByteOrder KernelMap PageFrame Sv39.
From Stdlib Require Import String.

(** The globals, and the bytes of the physical memory. *)
Record early := mk_early {
  __map_of_kernel : kernel_mapping;
  kernel_pagetable : Z;
  ram : Z -> Z
}.
Definition set_map (km : kernel_mapping) (s : early) : early := mk_early km (kernel_pagetable s) (ram s).
Definition set_kernel_pagetable (v : Z) (s : early) : early := mk_early (__map_of_kernel s) v (ram s).
Definition set_ram (m : Z -> Z) (s : early) : early := mk_early (__map_of_kernel s) (kernel_pagetable s) m.

(** The number in [n] bytes at [p], lowest byte first. *)
Fixpoint ld_bytes (n : nat) (m : Z -> Z) (p : Z) : Z :=
  match n with O => 0 | S n => m p + 2 ^ 8 * ld_bytes n m (p + 1) end.

(** [memcpy(&v, src, n)] for a local variable of 64 bits; more bytes would
    overwrite the stack. *)
Definition memcpy_local (v src n : Z) : M early Z :=
  if 8 <? n then fail BadPointer
  else gets (fun s => Z.shiftl (Z.shiftr v (8 * n)) (8 * n) + ld_bytes (Z.to_nat n) (ram s) src).

(** ** [kernel_map_init] *)

(** The functions of libfdt on the bytes of the memory: the address of the
    device tree, the offset of a node, names and values. *)
Record libfdt := mk_libfdt {
  fdt_check_header : (Z -> Z) -> Z -> Z;
  fdt_node_offset_by_prop_value : (Z -> Z) -> Z -> Z -> string -> string -> Z -> Z;
  fdt_address_cells : (Z -> Z) -> Z -> Z -> Z;
  fdt_size_cells : (Z -> Z) -> Z -> Z -> Z;
  fdt_getprop : (Z -> Z) -> Z -> Z -> string -> Z
}.

Section early.
Context (lib : libfdt).
(** The symbols of the linker; what the stack holds where the locals [address]
    and [size] are. *)
Context (_start_kernel _seperate_line _end_kernel : Z) (address0 size0 : Z).

(** [src/arch/riscv/mm/kernel_map.c:41-77 kernel_map_init] Its printing is left
    out. *)
Definition kernel_map_init (dtb_address : Z) : M early unit :=
  let fdt {A} (f : (Z -> Z) -> A) : M early A := gets (fun s => f (ram s)) in
  let pa_st_kernel := _start_kernel in
  let tmp := _end_kernel in
  let size_kernel := u64 (tmp - pa_st_kernel) in
  let va2pa_offset := u64 (KERNEL_OFFSET - pa_st_kernel) in
  tmp ← fdt (fun m => fdt_check_header lib m dtb_address);
  ASSERT (tmp =? 0);;
  offset ← fdt (fun m => fdt_node_offset_by_prop_value lib m dtb_address (-1) "device_type"%string "memory"%string 7);
  ASSERT (0 <=? offset);;
  address_cells ← fdt (fun m => fdt_address_cells lib m dtb_address offset);
  ASSERT (0 <=? address_cells);;
  size_cells ← fdt (fun m => fdt_size_cells lib m dtb_address offset);
  ASSERT (0 <=? size_cells);;
  let address_cells := if size_cells <? address_cells then address_cells else size_cells in
  let size_cells := address_cells in
  prop ← fdt (fun m => fdt_getprop lib m dtb_address offset "reg"%string);
  ASSERT (negb (prop =? NULL));;
  address ← memcpy_local address0 prop (4 * address_cells);
  size ← memcpy_local size0 (prop + 4 * address_cells) (4 * size_cells);
  let address := if address_cells =? 2 then be64_to_cpu address else be32_to_cpu address in
  let size := if size_cells =? 2 then be64_to_cpu size else be32_to_cpu size in
  let km := mk_kernel_mapping address size pa_st_kernel size_kernel 0 0 va2pa_offset in
  modify (set_map (mk_kernel_mapping address size pa_st_kernel size_kernel (RISCV_KERNEL_PA_END km)
    (u64 (RISCV_MEMORY_PA_END km - RISCV_KERNEL_PA_END km)) va2pa_offset)).

(** ** [early_vm.c] *)

Definition get_pte (pgtable idx : Z) : M early Z := gets (fun s => ld64 (ram s) (pte_addr pgtable idx)).
Definition set_pte (pgtable idx v : Z) : M early unit :=
  modify (fun s => set_ram (st64 (pte_addr pgtable idx) v (ram s)) s).
Definition freemem_alloc : M early Z := zoom __map_of_kernel set_map freemem_alloc_pa.

(** [src/arch/riscv/mm/early_vm.c:46-85 vm_walkthrough] The result of the walk
    below a new table is not looked at.  The depth of the recursion is at most
    the fuel 4: three levels, and the refusal of a fourth. *)
Fixpoint vm_walkthrough (fuel : nat) (pagetable va index pa flags : Z) : M early Z :=
  match fuel with
  | O => fail NoFuel
  | S fuel =>
    if (pagetable =? NULL) || negb (VAL_IS_PAGE_ALIGNED pagetable) then ret (- EINVAL)
    else if negb (VAL_IS_PAGE_ALIGNED va) || negb (VAL_IS_PAGE_ALIGNED pa) then ret (- EINVAL)
    else if negb ((0 <=? index) && (index <? 3)) then ret (- EINVAL)
    else
      let idx := s32 (SV39_Index2Id va index) in
      if negb ((0 <=? idx) && (idx <? 512)) then ret (- EFAULT)
      else
        e ← get_pte pagetable idx;
        if negb (PTE_VALID e) then
          if index =? 2 then
            set_pte pagetable idx (SV39_Pa2PTE pa flags);;
            ret 0
          else
            ptr ← freemem_alloc;
            if ptr =? 0 then ret (- ENOMEM)
            else
              set_pte pagetable idx (SV39_Pa2PTE ptr VM_PROT_V);;
              _ ← vm_walkthrough fuel ptr va (index + 1) pa flags;
              ret 0
        else if index =? 2 then ret (- EEXIST)
        else if negb (PTE_NEXTPGT e) then ret (- EFAULT)
        else vm_walkthrough fuel (SV39_PTE2Pa e) va (index + 1) pa flags
  end.

(** [src/arch/riscv/mm/early_vm.c:87-112 vm_mmap] [ptr_pagetable] is the
    variable it points to, or [None] for a null pointer; the result is the
    return value and the variable afterwards. *)
Definition vm_mmap (ptr_pagetable : option Z) (va pa size flags : Z) : M early (Z * Z) :=
  if negb (Z.land va PAGE_ALIGN_BIT =? Z.land pa PAGE_ALIGN_BIT) then ret (- EINVAL, default NULL ptr_pagetable)
  else if negb (size mod PAGE_SIZE =? 0) then ret (- EINVAL, default NULL ptr_pagetable)
  else
    match ptr_pagetable with
    | None => ret (- EINVAL, NULL)
    | Some pagetable =>
      pagetable ← (if pagetable =? NULL then freemem_alloc else ret pagetable);
      if pagetable =? NULL then ret (- ENOMEM, pagetable)
      else
        r ← for_up (Z.to_nat (size / PAGE_SIZE)) 0 (fun '(va, pa) _ =>
          error ← vm_walkthrough 4 pagetable va 0 pa flags;
          if negb (error =? 0) then ret (Return error)
          else ret (Next (u64 (va + PAGE_SIZE), u64 (pa + PAGE_SIZE)))) (PAGE_DOWNS_ALIGN va, PAGE_DOWNS_ALIGN pa);
        ret (match r with Return error => error | Next _ => 0 end, pagetable)
    end.

(** [src/arch/riscv/mm/early_vm.c:122-140 setup_earlyvm] *)
Definition setup_earlyvm : M early unit :=
  km ← gets __map_of_kernel;
  let kernel_start := _start_kernel in
  let seperate_line := _seperate_line in
  let bef_size := u64 (seperate_line - kernel_start) in
  let aft_size := u64 (RISCV_MEMORY_PA_END km - seperate_line) in
  ASSERT (bef_size mod PAGE_SIZE =? 0);;
  let aft_size := PAGE_UPPER_ALIGN aft_size in
  '(error, pagetable) ← vm_mmap (Some NULL) KERNEL_OFFSET kernel_start bef_size
    (Z.lor (Z.lor VM_PROT_V VM_PROT_R) VM_PROT_X);
  ASSERT (error =? 0);;
  '(error, pagetable) ← vm_mmap (Some pagetable) (u64 (KERNEL_OFFSET + bef_size)) seperate_line aft_size
    (Z.lor (Z.lor VM_PROT_V VM_PROT_R) VM_PROT_W);
  ASSERT (error =? 0);;
  modify (set_kernel_pagetable (SV39_PGT2SATP pagetable)).
End early.
