(* ===== verification/EarlySpec.v ===== *)
(** * The first page table is the linear mapping

    The early walk is proved with the notions of [Sv39Map], on physical
    addresses: pages are their own addresses ([identity]), the pages that tables
    take are cut off the free memory. *)
From Stdlib Require Import String.
From S2P Require Import Prelude DList ByteOrder KernelMap PageFrame Buddy Sv39 Sv39Pte Sv39Tree Sv39Map Sv39Spec EarlyVm.

(** Tables are addressed by their physical addresses; the memory as the
    theory of page tables has it. *)
Definition identity : kernel_mapping := mk_kernel_mapping 0 0 0 0 0 0 0.
Definition embed (m : Z -> Z) : buddy := mk_buddy (mk_frames 0 ∅ ∅) ∅ m.
Definition taken (s : buddy) (l : list Z) : Prop := NoDup l /\ forall v, v ∈ l -> usable identity v.

#[export] Instance taken_owner : PageOwner identity taken.
Proof. split; [by intros s l [? _] | intros s l v [_ H]; apply H | done]. Qed.

Notation grown := (grown (km := identity) (Own := taken)).

Lemma identity_pa v : va2pa identity v = u64 v.
Proof. unfold va2pa. change (PGFRAME_VA2PA_OFFSET identity) with 0. by rewrite Z.sub_0_r. Qed.
Lemma identity_va v : pa2va identity v = u64 v.
Proof. unfold pa2va. change (PGFRAME_VA2PA_OFFSET identity) with 0. by rewrite Z.add_0_r. Qed.

Lemma identity_usable v : 0 < v < 2 ^ 56 -> v mod 4096 = 0 -> usable identity v.
Proof.
  intros Hv Hp. assert (E : u64 v = v) by (apply u64_small; lia).
  split; rewrite ?identity_pa, ?identity_va, ?E; lia.
Qed.

Lemma PTE2Pa_range e : 0 <= SV39_PTE2Pa e < 2 ^ 56.
Proof.
  unfold SV39_PTE2Pa. change 0xfffffffffff with (Z.ones 44). rewrite Z.land_ones, Z.shiftl_mul_pow2 by lia.
  pose proof (Z.mod_pos_bound (Z.shiftr (Z.land e (Z.lnot 0x3ff)) 10) (2 ^ 44) ltac:(lia)). lia.
Qed.
Lemma identity_child e : child identity e = SV39_PTE2Pa e.
Proof. unfold child. rewrite identity_va. pose proof (PTE2Pa_range e). apply u64_small. lia. Qed.

(** ** Free memory *)

(** The memory map when [j] pages have been cut off. *)
Definition advance (j : Z) (km : kernel_mapping) : kernel_mapping :=
  mk_kernel_mapping (pa_st_memory km) (size_memory km) (pa_st_kernel km) (size_kernel km)
    (pa_st_free km + 4096 * j) (size_free km - 4096 * j) (va2pa_offset km).
Notation map_of := __map_of_kernel.
Notation free_of s := (pa_st_free (map_of s)).

Lemma advance_0 km : advance 0 km = km.
Proof. destruct km. unfold advance. cbn. f_equal; lia. Qed.
Lemma advance_add i j km : advance j (advance i km) = advance (i + j) km.
Proof. unfold advance. cbn. f_equal; lia. Qed.

(** [n] zeroed pages can be cut off, above the pages [l]. *)
Record free_ok (s : early) (l : list Z) (n : Z) : Prop := {
  fo_page : free_of s mod 4096 = 0;
  fo_pos : 0 < free_of s /\ free_of s + 4096 * n <= 2 ^ 56;
  fo_size : 4096 * n <= size_free (map_of s) < 2 ^ 64;
  fo_zero : forall a, free_of s <= a < free_of s + 4096 * n -> ram s a = 0;
  fo_above : forall v, v ∈ l -> v + 4096 <= free_of s
}.

Lemma free_less s l n n' : free_ok s l n -> n' <= n -> free_ok s l n'.
Proof. intros [H1 H2 H3 H4 H5] Hn. split; [done | lia | lia | intros a Ha; apply H4; lia | done]. Qed.

Lemma free_fresh s l n : free_ok s l n -> 0 < n -> usable identity (free_of s) /\ (free_of s ∉ l).
Proof.
  intros [H1 H2 H3 H4 H5] Hn. split; [apply identity_usable; [lia | done] |]. intros Hin%H5. lia.
Qed.

Lemma freemem_Ok s l n : free_ok s l n -> 0 < n ->
  freemem_alloc s = Ok (free_of s, set_map (advance 1 (map_of s)) s).
Proof.
  intros [H1 H2 H3 H4 H5] Hn. unfold freemem_alloc, zoom, freemem_alloc_pa, RISCV_FREE_SIZE.
  rewrite PAGE_SIZE_eq, (proj2 (Z.ltb_ge _ _)) by lia. unfold advance. rewrite !u64_small, !Z.mul_1_r by lia. done.
Qed.

(** A step of the early walk: what it did to the tables, and the [j] pages it
    cut off for them. *)
Record grew (levels : nat) (t P pa flags k j : Z) (s : early) (l : list Z) (s' : early) (l' : list Z) : Prop := {
  gw_grown : grown levels t P pa flags k (embed (ram s)) l (embed (ram s')) l';
  gw_map : map_of s' = advance j (map_of s);
  gw_satp : kernel_pagetable s' = kernel_pagetable s;
  gw_pages : forall q, q ∈ l' -> q ∈ l \/ free_of s <= q < free_of s + 4096 * j
}.

(** The tables below [t] are among [l]. *)
Record tables (levels : nat) (s : early) (l : list Z) (t : Z) : Prop := {
  tb_own : taken (embed (ram s)) l;
  tb_ok : tree_ok identity levels (ram s) t;
  tb_in : forall q, in_tree identity levels (ram s) t q -> q ∈ l
}.

Lemma grew_tables levels t P pa flags k j s l s' l' :
  tables levels s l t -> grew levels t P pa flags k j s l s' l' -> tables levels s' l' t.
Proof. intros [T1 T2 T3] [G _ _ _]. split; [apply G | apply G |]. intros q. by apply (grown_in _ _ _ _ _ _ (embed (ram s)) l (embed (ram s')) l' q T3 G). Qed.

Lemma grew_free levels t P pa flags k j s l s' l' n :
  tables levels s l t -> grew levels t P pa flags k j s l s' l' -> free_ok s l n -> 0 <= j <= n -> free_ok s' l' (n - j).
Proof.
  intros T G [H1 H2 H3 H4 H5] Hj. pose proof (grew_tables _ _ _ _ _ _ _ _ _ _ _ T G) as [_ T2 T3]. destruct G as [G Gm _ Gp].
  assert (forall v, v ∈ l' -> v + 4096 <= free_of s + 4096 * j) as Hbelow.
  { intros v Hv. destruct (Gp v Hv) as [Hl | Hl]; [specialize (H5 v Hl); lia |].
    destruct (gr_own _ _ _ _ _ _ _ _ _ _ G) as [_ Hu]. pose proof (us_page _ _ (Hu v Hv)) as Hvp.
    assert ((v - (free_of s + 4096 * j)) mod 4096 = 0) as Hm; [| apply Z.mod_divide in Hm as [c Hc]; lia].
    rewrite Z.sub_add_distr, Zminus_mod, (Zminus_mod v), Hvp, H1. by rewrite (Z.mul_comm 4096), Z.mod_mul. }
  split; rewrite Gm; cbn.
  - by rewrite (Z.mul_comm 4096), Z.mod_add.
  - lia.
  - lia.
  - intros a Ha. rewrite <-(H4 a) by lia. set (q := a / 4096 * 4096).
    pose proof (div_range a 4096 ltac:(lia)) as Hq.
    apply (gr_same _ _ _ _ _ _ _ _ _ _ G q); [apply Z.mod_mul; lia | | unfold q; lia].
    intros Hin%T3%Hbelow. unfold q in Hin. lia.
  - done.
Qed.

(** ** The walk *)

(** The tables that are missing on the way to a page. *)
Fixpoint missing (levels : nat) (m : Z -> Z) (t P : Z) : Z :=
  match levels with
  | O => 0
  | S levels =>
    let e := entry m t (digit (S levels) P) in
    if PTE_NEXTPGT e then missing levels m (child identity e) P else Z.of_nat (S levels)
  end.

Lemma missing_range levels m t P : 0 <= missing levels m t P <= Z.of_nat levels.
Proof.
  revert t. induction levels as [|levels IH]; intros t; cbn [missing]; [lia |]. case_match; [| lia].
  pose proof (IH (child identity (entry m t (digit (S levels) P)))). lia.
Qed.

Lemma look_missing levels m t P e : look identity levels m t P = Some e -> missing levels m t P = 0.
Proof.
  revert t. induction levels as [|levels IH]; intros t; cbn [look missing]; [done |]. case_match; [apply IH | done].
Qed.

(** Pages of one last-level table have the same way. *)
Lemma missing_same levels m t P Q : Q / 512 = P / 512 -> missing levels m t Q = missing levels m t P.
Proof.
  intros E. revert t. induction levels as [|levels IH]; intros t; [done |]. cbn [missing].
  assert (digit (S levels) Q = digit (S levels) P) as ->; [| by rewrite IH].
  unfold digit. rewrite Nat2Z.inj_succ, Z.pow_succ_r, <-!Z.div_div, E by lia. done.
Qed.

Record early_pre (levels : nat) (s : early) (l : list Z) (t P pa flags : Z) : Prop := {
  ep_tables : tables levels s l t;
  ep_free : free_ok s l (missing levels (ram s) t P);
  ep_P : 0 <= P /\ 4096 * P < 2 ^ 64;
  ep_pa : 0 <= pa < 2 ^ 56 /\ pa mod 4096 = 0;
  ep_flags : Z.testbit flags 0 = true;
  ep_none : look identity levels (ram s) t P = None
}.

Definition early_walk (levels fuel : nat) : Prop := forall s l t P pa flags,
  early_pre levels s l t P pa flags ->
  exists s' l' j, vm_walkthrough fuel t (4096 * P) (index_of levels) pa flags s = Ok (0, s') /\
    0 <= j <= missing levels (ram s) t P /\ grew levels t P pa flags 1 j s l s' l'.

(** The checks pass. *)
Lemma early_unfold levels fuel s l t P pa flags :
  early_pre levels s l t P pa flags -> (levels <= 2)%nat ->
  vm_walkthrough (S fuel) t (4096 * P) (index_of levels) pa flags s =
  let idx := digit levels P in
  let e := entry (ram s) t idx in
  (if negb (PTE_VALID e) then
    match levels with
    | O => set_pte t idx (SV39_Pa2PTE pa flags);; ret 0
    | S levels =>
      ptr ← freemem_alloc;
      if ptr =? 0 then ret (- ENOMEM)
      else
        set_pte t idx (SV39_Pa2PTE ptr VM_PROT_V);;
        _ ← vm_walkthrough fuel ptr (4096 * P) (index_of levels) pa flags;
        ret 0
    end
  else
    match levels with
    | O => ret (- EEXIST)
    | S levels =>
      if negb (PTE_NEXTPGT e) then ret (- EFAULT)
      else vm_walkthrough fuel (SV39_PTE2Pa e) (4096 * P) (index_of levels) pa flags
    end)%aco s.
Proof.
  intros [[_ T2 _] _ HP Hpa _ _] Hlev. pose proof (tree_usable _ _ _ _ T2) as [Htp Htm _ _ _].
  destruct (index_asserts levels P Hlev ltac:(lia)) as (Hi & Hd & Hr & H2). rewrite PTE_NUMS_eq in Hr.
  cbn [vm_walkthrough]. rewrite (proj2 (Z.eqb_neq t NULL)) by (change NULL with 0; lia).
  rewrite (aligned_true t), (aligned_pages P), (aligned_true pa) by lia.
  rewrite Hi, Hd, Hr. cbn [negb orb]. mstep (eq_refl (get_pte t (digit levels P) s)). rewrite H2.
  fold (entry (ram s) t (digit levels P)).
  assert (forall k, index_of (S k) + 1 = index_of k) as Hidx by (intros k; unfold index_of; lia).
  by destruct levels as [|levels]; [| rewrite Hidx].
Qed.

Lemma walk_leaf fuel : early_walk 0 (S fuel).
Proof.
  intros s l t P pa flags Hpre. rewrite (early_unfold _ _ _ _ _ _ _ _ Hpre) by lia.
  destruct Hpre as [[T1 T2 T3] _ HP [Hpa Hpap] Hf Hn]. cbn [look] in Hn. cbn zeta.
  destruct (PTE_VALID (entry (ram s) t (digit 0 P))) eqn:Hv; [done |]. cbn [negb].
  eexists _, l, 0. split; [reflexivity |]. split; [done |]. split.
  - apply (grown_leaf t P pa flags (embed (ram s)) l); try done. apply T3, in_tree_root.
  - cbn. by rewrite advance_0.
  - done.
  - by left.
Qed.

(** What was done below an entry, for the table of the entry. *)
Lemma grew_child levels t P pa flags j s l s' l' :
  tables (S levels) s l t ->
  let e := entry (ram s) t (digit (S levels) P) in
  PTE_NEXTPGT e = true -> grew levels (child identity e) P pa flags 1 j s l s' l' ->
  grew (S levels) t P pa flags 1 j s l s' l'.
Proof.
  intros [T1 T2 T3] e Hn [G Gm Gs Gp]. split; try done.
  apply (grown_child levels t P pa flags 1 (embed (ram s)) l (embed (ram s')) l'); try done.
  pose proof (div_range P (span levels) (span_pos levels)). lia.
Qed.

Lemma tables_child levels s l t i :
  tables (S levels) s l t -> 0 <= i < 512 -> PTE_NEXTPGT (entry (ram s) t i) = true ->
  tables levels s l (child identity (entry (ram s) t i)).
Proof.
  intros [T1 [_ T2] T3] Hi Hn. destruct (T2 i Hi (NEXTPGT_VALID _ Hn)) as (_ & Hok & _).
  split; [done | done |]. intros q Hq. apply T3. right. by exists i.
Qed.

(** Cutting off a page and linking it as a table. *)
Definition linked (levels : nat) (t P : Z) (s : early) : early :=
  set_ram (st64 (pte_addr t (digit (S levels) P)) (SV39_Pa2PTE (free_of s) VM_PROT_V) (ram s))
    (set_map (advance 1 (map_of s)) s).

Lemma link_grew levels t P pa flags s l n :
  tables (S levels) s l t -> free_ok s l n -> 0 < n ->
  PTE_VALID (entry (ram s) t (digit (S levels) P)) = false ->
  let s1 := linked levels t P s in
  grew (S levels) t P pa flags 0 1 s l s1 (free_of s :: l) /\
  child identity (entry (ram s1) t (digit (S levels) P)) = free_of s /\
  PTE_NEXTPGT (entry (ram s1) t (digit (S levels) P)) = true.
Proof.
  intros [T1 T2 T3] F Hn Hv s1. destruct (free_fresh s l n F Hn) as [Hu Hfl].
  pose proof Hu as [Hpos _ Hpa _ _].
  destruct (grown_link levels t P pa flags (embed (ram s)) l (embed (ram s)) (free_of s)) as (G & Hc & Hx); try done.
  - destruct T1 as [Hnd Hus]. split; [by apply NoDup_cons |]. intros v [-> | Hv']%elem_of_cons; [done | by apply Hus].
  - intros a. cbn. unfold fill. destruct (Z.leb_spec (free_of s) a), (Z.ltb_spec a (free_of s + 4096)); cbn; try done.
    apply (fo_zero _ _ _ F). lia.
  - assert (va2pa identity (free_of s) = free_of s) as Ev by (rewrite identity_pa; apply u64_small; lia).
    rewrite Ev in G, Hc, Hx. split; [| done]. split; [exact G | done | done |].
    intros q [-> | Hq]%elem_of_cons; [right; lia | by left].
Qed.

Lemma grew_trans levels t P pa flags k k' j j' s l s1 l1 s2 l2 :
  grew levels t P pa flags k j s l s1 l1 -> grew levels t (P + k) (pa + 4096 * k) flags k' j' s1 l1 s2 l2 ->
  (P + k) / span levels = P / span levels -> 0 <= k -> 0 <= k' -> 0 <= j -> 0 <= j' ->
  grew levels t P pa flags (k + k') (j + j') s l s2 l2.
Proof.
  intros [G1 M1 S1 P1] [G2 M2 S2 P2] HP Hk Hk' Hj Hj'. split.
  - exact (grown_trans levels t P pa flags k k' _ _ _ _ _ _ G1 G2 HP Hk Hk').
  - by rewrite M2, M1, advance_add.
  - by rewrite S2.
  - intros q [[Hq | Hq]%P1 | Hq]%P2; [by left | right; lia |]. rewrite M1 in Hq. cbn in Hq. right. lia.
Qed.

Lemma walk_old levels fuel : early_walk levels fuel -> forall s l t P pa flags, (S levels <= 2)%nat ->
  early_pre (S levels) s l t P pa flags -> PTE_VALID (entry (ram s) t (digit (S levels) P)) = true ->
  exists s' l' j, vm_walkthrough (S fuel) t (4096 * P) (index_of (S levels)) pa flags s = Ok (0, s') /\
    0 <= j <= missing (S levels) (ram s) t P /\ grew (S levels) t P pa flags 1 j s l s' l'.
Proof.
  intros IH s l t P pa flags Hlev Hpre Hv. rewrite (early_unfold _ _ _ _ _ _ _ _ Hpre) by done.
  destruct Hpre as [T F HP Hpa Hf Hn]. pose proof (digit_range (S levels) P) as Hi.
  destruct (tb_ok _ _ _ _ T) as [_ Hok]. destruct (Hok _ Hi Hv) as (Hx & _).
  cbn [look missing] in Hn, F |- *. cbn zeta. rewrite Hx in Hn, F |- *. rewrite Hv. cbn [negb].
  rewrite <-identity_child.
  destruct (IH s l (child identity (entry (ram s) t (digit (S levels) P))) P pa flags) as (s' & l' & j & E & Hj & G).
  { split; try done. by apply tables_child. }
  exists s', l', j. do 2 (split; [done |]). by apply grew_child.
Qed.

Lemma walk_new levels fuel : early_walk levels fuel -> forall s l t P pa flags, (S levels <= 2)%nat ->
  early_pre (S levels) s l t P pa flags -> PTE_VALID (entry (ram s) t (digit (S levels) P)) = false ->
  exists s' l' j, vm_walkthrough (S fuel) t (4096 * P) (index_of (S levels)) pa flags s = Ok (0, s') /\
    0 <= j <= missing (S levels) (ram s) t P /\ grew (S levels) t P pa flags 1 j s l s' l'.
Proof.
  intros IH s l t P pa flags Hlev Hpre Hv. rewrite (early_unfold _ _ _ _ _ _ _ _ Hpre) by done.
  destruct Hpre as [T F HP Hpa Hf Hn].
  assert (PTE_NEXTPGT (entry (ram s) t (digit (S levels) P)) = false) as Hx.
  { apply not_true_is_false. intros H%NEXTPGT_VALID. congruence. }
  cbn [missing] in F |- *. cbn zeta. rewrite Hx in F |- *. rewrite Hv. cbn [negb].
  destruct (link_grew levels t P pa flags s l _ T F ltac:(lia) Hv) as (G1 & Hc & Hx1).
  pose proof (fo_pos _ _ _ F) as Hpos.
  mstep (freemem_Ok s l _ F ltac:(lia)). rewrite (proj2 (Z.eqb_neq _ _)) by lia. unfold bind at 1.
  cbn [set_pte modify]. fold (linked levels t P s). set (s1 := linked levels t P s) in *.
  pose proof (grew_tables _ _ _ _ _ _ _ _ _ _ _ T G1) as T1.
  pose proof (missing_range levels (ram s1) (free_of s) P) as Hm.
  destruct (IH s1 (free_of s :: l) (free_of s) P pa flags) as (s' & l' & j & E & Hj & G2).
  - split; try done.
    + pose proof (tables_child _ _ _ _ _ T1 (digit_range (S levels) P) Hx1) as Tc. by rewrite Hc in Tc.
    + apply (free_less _ _ (Z.of_nat (S levels) - 1)); [| lia].
      apply (grew_free (S levels) t P pa flags 0 1 s l s1 (free_of s :: l)); try done. lia.
    + pose proof (gr_look _ _ _ _ _ _ _ _ _ _ (gw_grown _ _ _ _ _ _ _ _ _ _ _ G1) P eq_refl) as HL.
      rewrite decide_False in HL by lia. cbn [memory embed] in HL. rewrite Hn in HL. cbn [look] in HL.
      rewrite Hx1, Hc in HL. done.
  - exists s', l', (1 + j). mstep E. split; [done |]. split; [lia |].
    apply (grew_trans _ _ _ _ _ 0 1 1 j _ _ s1 (free_of s :: l)); [done | | by rewrite Z.add_0_r | lia ..].
    rewrite Z.add_0_r, Z.mul_0_r, Z.add_0_r. apply grew_child; [done | done |]. by rewrite Hc.
Qed.

Lemma early_walk_Ok levels fuel : (levels <= 2)%nat -> (levels < fuel)%nat -> early_walk levels fuel.
Proof.
  revert fuel. induction levels as [|levels IH]; intros [|fuel] Hl Hfuel; try lia; [apply walk_leaf |].
  intros s l t P pa flags Hpre.
  destruct (PTE_VALID (entry (ram s) t (digit (S levels) P))) eqn:Hv;
    [apply walk_old | apply walk_new]; try done; apply IH; lia.
Qed.

(** ** Ranges *)

(** The tables that [n] pages from [P] on take at most. *)
Definition cost (m : Z -> Z) (t P n : Z) : Z := missing 2 m t P + 2 * ((P + n - 1) / 512 - P / 512).

Record range_pre (s : early) (l : list Z) (t P pa flags n : Z) : Prop := {
  rp_tables : tables 2 s l t;
  rp_free : free_ok s l (cost (ram s) t P n);
  rp_P : 0 <= P /\ P + n <= 2 ^ 27;
  rp_pa : 0 <= pa /\ pa + 4096 * n <= 2 ^ 56;
  rp_page : pa mod 4096 = 0;
  rp_flags : Z.testbit flags 0 = true;
  rp_none : forall Q, P <= Q < P + n -> look identity 2 (ram s) t Q = None
}.

Definition mmap_body (t flags : Z) : Z * Z -> Z -> M early (step (Z * Z) Z) := fun '(va, pa) _ =>
  (error ← vm_walkthrough 4 t va 0 pa flags;
   if negb (error =? 0) then ret (Return error)
   else ret (Next (u64 (va + PAGE_SIZE), u64 (pa + PAGE_SIZE))))%aco.

Lemma one_root P Q : 0 <= P < 2 ^ 27 -> 0 <= Q < 2 ^ 27 -> P / span 2 = Q / span 2.
Proof. intros. change (span 2) with (2 ^ 27). by rewrite !Z.div_small by lia. Qed.

Lemma div_mono a b : a <= b -> a / 512 <= b / 512.
Proof. intros. by apply Z.div_le_mono. Qed.

(** The first page of a range, and what is left of it. *)
Lemma range_first s l t P pa flags n i :
  range_pre s l t P pa flags n -> 0 < n -> exists s' l' j,
  mmap_body t flags (4096 * P, pa) i s = Ok (Next (u64 (4096 * (P + 1)), u64 (pa + 4096)), s') /\
  0 <= j <= missing 2 (ram s) t P /\ grew 2 t P pa flags 1 j s l s' l' /\
  (1 < n -> range_pre s' l' t (P + 1) (pa + 4096) flags (n - 1) /\ cost (ram s') t (P + 1) (n - 1) <= cost (ram s) t P n - j).
Proof.
  intros [T F HP Hpa Hpp Hf Hn] Hn0. pose proof (missing_range 2 (ram s) t P) as Hm.
  assert (P / 512 <= (P + n - 1) / 512) as Hd by (apply div_mono; lia).
  destruct (early_walk_Ok 2 4 ltac:(lia) ltac:(lia) s l t P pa flags) as (s' & l' & j & E & Hj & G).
  { split; [done | | lia | split; [lia | done] | done | apply Hn; lia]. eapply free_less; [exact F |]. unfold cost. lia. }
  exists s', l', j. change (index_of 2) with 0 in E. unfold mmap_body. mstep E. rewrite PAGE_SIZE_eq.
  split; [unfold ret; cbn [Z.eqb negb]; repeat f_equal; lia |]. split; [done |]. split; [done |]. intros Hn1.
  pose proof (gr_look _ _ _ _ _ _ _ _ _ _ (gw_grown _ _ _ _ _ _ _ _ _ _ _ G)) as HL. cbn [memory embed] in HL.
  assert (cost (ram s') t (P + 1) (n - 1) <= cost (ram s) t P n - j) as Hc.
  { unfold cost. replace (P + 1 + (n - 1) - 1) with (P + n - 1) by lia.
    pose proof (missing_range 2 (ram s') t (P + 1)) as Hm'. pose proof (div_mono P (P + 1) ltac:(lia)).
    destruct (decide ((P + 1) / 512 = P / 512)) as [Es | Es]; [| lia].
    specialize (HL P (one_root P P ltac:(lia) ltac:(lia))). rewrite decide_True in HL by lia.
    rewrite (missing_same _ _ _ P (P + 1)), (look_missing _ _ _ _ _ HL), Es by done. lia. }
  split; [| done]. split.
  - by apply (grew_tables _ _ _ _ _ _ _ _ _ _ _ T G).
  - eapply free_less; [| exact Hc]. apply (grew_free _ _ _ _ _ _ _ _ _ _ _ _ T G F). unfold cost. lia.
  - lia.
  - lia.
  - rewrite <-Zplus_mod_idemp_l, Hpp. done.
  - done.
  - intros Q HQ. rewrite HL by (apply one_root; lia). rewrite decide_False by lia. apply Hn. lia.
Qed.

Lemma range_Ok n : forall s l t P pa flags i, range_pre s l t P pa flags (Z.of_nat (S n)) ->
  exists s' l' j va' pa', for_up (S n) i (mmap_body t flags) (4096 * P, pa) s = Ok (Next (va', pa'), s') /\
    0 <= j <= cost (ram s) t P (Z.of_nat (S n)) /\ grew 2 t P pa flags (Z.of_nat (S n)) j s l s' l'.
Proof.
  induction n as [|n IH]; intros s l t P pa flags i H; pose proof H as [_ _ HP Hpa _ _ _];
    (destruct (range_first s l t P pa flags _ i H ltac:(lia)) as (s1 & l1 & j1 & E & Hj & G & Hrest)).
  - exists s1, l1, j1, (u64 (4096 * (P + 1))), (u64 (pa + 4096)). cbn [for_up]. mstep E. split; [done |]. split; [| done].
    unfold cost. replace (P + Z.of_nat 1 - 1) with P by lia. lia.
  - destruct (Hrest ltac:(lia)) as [H1 Hc]. replace (Z.of_nat (S (S n)) - 1) with (Z.of_nat (S n)) in H1, Hc by lia.
    destruct (IH s1 l1 t (P + 1) (pa + 4096) flags (i + 1) H1) as (s2 & l2 & j2 & va' & pa' & E2 & Hj2 & G2).
    exists s2, l2, (j1 + j2), va', pa'. remember (S n) as n'. cbn [for_up]. mstep E.
    rewrite !u64_small by lia. split; [exact E2 |]. split; [lia |].
    replace (Z.of_nat (S n')) with (1 + Z.of_nat n') by lia.
    apply (grew_trans _ _ _ _ _ _ _ _ _ _ _ s1 l1); [done | by rewrite Z.mul_1_r | apply one_root; lia | lia ..].
Qed.

Lemma mmap_Ok s l t P pa flags n :
  range_pre s l t P pa flags n -> 0 < n ->
  exists s' l' j, vm_mmap (Some t) (4096 * P) pa (4096 * n) flags s = Ok ((0, t), s') /\
    0 <= j <= cost (ram s) t P n /\ grew 2 t P pa flags n j s l s' l'.
Proof.
  intros H Hn. pose proof H as [[_ T _] _ HP Hpa Hpp _ _]. pose proof (us_pos _ _ (tree_usable _ _ _ _ T)) as Ht.
  assert (4096 * P mod 4096 = 0) as HPp by (rewrite Z.mul_comm; apply Z.mod_mul; lia).
  unfold vm_mmap. rewrite !align_low, HPp, Hpp, PAGE_SIZE_eq, (Z.mul_comm 4096 n), Z.mod_mul, Z.div_mul by lia.
  cbn [Z.eqb negb]. rewrite (proj2 (Z.eqb_neq t NULL)) by (change NULL with 0; lia). unfold bind at 1, ret at 1.
  rewrite (proj2 (Z.eqb_neq t NULL)), !PAGE_DOWNS_ALIGN_spec by (change NULL with 0; lia).
  rewrite (Z.mul_comm 4096 P), Z.div_mul by lia.
  replace (4096 * (pa / 4096)) with pa by (pose proof (Z.div_mod pa 4096 ltac:(lia)); lia).
  fold (mmap_body t flags). replace (Z.to_nat n) with (S (Z.to_nat (n - 1))) by lia.
  destruct (range_Ok (Z.to_nat (n - 1)) s l t P pa flags 0) as (s' & l' & j & va' & pa' & E & Hj & G).
  { replace (Z.of_nat (S (Z.to_nat (n - 1)))) with n by lia. done. }
  replace (Z.of_nat (S (Z.to_nat (n - 1)))) with n in Hj, G by lia.
  exists s', l', j. mstep E. done.
Qed.

(** ** The root *)

Definition rooted (s : early) : early := set_map (advance 1 (map_of s)) s.

Lemma mmap_root s va pa size flags n : free_ok s [] n -> 0 < n ->
  vm_mmap (Some NULL) va pa size flags s =
    (if negb (Z.land va PAGE_ALIGN_BIT =? Z.land pa PAGE_ALIGN_BIT) || negb (size mod PAGE_SIZE =? 0)
     then Ok ((- EINVAL, NULL), s) else vm_mmap (Some (free_of s)) va pa size flags (rooted s)).
Proof.
  intros F Hn. pose proof (fo_pos _ _ _ F). unfold vm_mmap.
  destruct (negb (Z.land va PAGE_ALIGN_BIT =? Z.land pa PAGE_ALIGN_BIT)); [done |].
  destruct (negb (size mod PAGE_SIZE =? 0)); [done |]. cbn [orb].
  change (NULL =? NULL) with true. cbv iota. mstep (freemem_Ok s [] n F Hn).
  assert ((free_of s =? NULL) = false) as E by (apply Z.eqb_neq; change NULL with 0; lia). rewrite E.
  symmetry. rewrite (bind_Ok (ret (free_of s)) _ (rooted s) _ _ eq_refl), E. done.
Qed.

Lemma root_zero s l n i : free_ok s l n -> 0 < n -> 0 <= i < 512 -> entry (ram s) (free_of s) i = 0.
Proof.
  intros F Hn Hi. unfold entry. transitivity (ld64 (fun _ => 0) (pte_addr (free_of s) i)); [| done].
  apply ld64_ext. intros b Hb. apply (fo_zero _ _ _ F). unfold pte_addr in Hb. lia.
Qed.

Lemma root_tables s n : free_ok s [] n -> 0 < n ->
  tables 2 (rooted s) [free_of s] (free_of s) /\ free_ok (rooted s) [free_of s] (n - 1) /\
  (forall P, look identity 2 (ram s) (free_of s) P = None).
Proof.
  intros F Hn. destruct (free_fresh s [] n F Hn) as [Hu _].
  destruct (fresh_tree 2 (ram s) (free_of s) Hu) as (H1 & H2 & H3); [intros i Hi; by apply (root_zero s [] n) |].
  split; [| split; [| done]].
  - split; [split; [apply NoDup_singleton |] | done |].
    + intros v ->%list_elem_of_singleton. done.
    + intros q ->%H2. apply list_elem_of_singleton. done.
  - destruct F as [F1 F2 F3 F4 F5]. split; cbn.
    + by rewrite <-Zplus_mod_idemp_l, F1.
    + lia.
    + lia.
    + intros a Ha. apply F4. lia.
    + intros v ->%list_elem_of_singleton. lia.
Qed.

(** What has been built since [s]: tables [l] in [j] pages, nothing else. *)
Record built (s s' : early) (l : list Z) (j : Z) : Prop := {
  bu_map : map_of s' = advance j (map_of s);
  bu_pages : forall q, q ∈ l -> free_of s <= q < free_of s + 4096 * j;
  bu_frame : forall a, a < free_of s \/ free_of s + 4096 * j <= a -> ram s' a = ram s a
}.

Lemma built_root s n : free_ok s [] n -> 0 < n -> built s (rooted s) [free_of s] 1.
Proof. intros F Hn. split; [done | | done]. intros q ->%list_elem_of_singleton. lia. Qed.

Lemma built_grew s s1 l1 j1 levels t P pa flags k j s2 l2 :
  free_of s mod 4096 = 0 -> built s s1 l1 j1 -> tables levels s1 l1 t ->
  grew levels t P pa flags k j s1 l1 s2 l2 -> 0 <= j1 -> 0 <= j -> built s s2 l2 (j1 + j).
Proof.
  intros Hp [B1 B2 B3] T G Hj1 Hj. pose proof (grew_tables _ _ _ _ _ _ _ _ _ _ _ T G) as [_ _ T3]. destruct G as [G Gm _ Gp].
  assert (forall q, q ∈ l2 -> free_of s <= q < free_of s + 4096 * (j1 + j)) as Hl2.
  { intros q [Hq%B2 | Hq]%Gp; [lia |]. rewrite B1 in Hq. cbn in Hq. lia. }
  split; [by rewrite Gm, B1, advance_add | done |].
  intros a Ha. rewrite <-(B3 a) by lia. set (q := a / 4096 * 4096). pose proof (div_range a 4096 ltac:(lia)) as Hq.
  apply (gr_same _ _ _ _ _ _ _ _ _ _ G q); [apply Z.mod_mul; lia | | unfold q; lia].
  intros Hin%T3%Hl2. apply Z.mod_divide in Hp as [c Hc]; unfold q in Hin; lia.
Qed.

(** ** [setup_earlyvm] *)

(** The number of the first page of the kernel. *)
Definition K : Z := KERNEL_OFFSET / 4096.

(** The tables that the linear mapping of [n] pages takes. *)
Definition tables_for (n : Z) : Z := 3 + 2 * ((n - 1) / 512).

(** The code of the kernel, from [start] on, is [n1] pages, and what follows up
    to the end of the memory is [n2] pages. *)
Record linear_pre (start n1 n2 : Z) (s : early) : Prop := {
  lp_start : 0 <= start /\ start mod 4096 = 0;
  lp_n1 : 0 < n1;
  lp_n2 : 0 < n2;
  lp_end : start + 4096 * n1 < RISCV_MEMORY_PA_END (map_of s);
  lp_upper : PAGE_UPPER_ALIGN (RISCV_MEMORY_PA_END (map_of s) - (start + 4096 * n1)) = 4096 * n2;
  lp_va : n1 + n2 <= 2 ^ 24;
  lp_pa : start + 4096 * (n1 + n2) <= 2 ^ 56;
  lp_free : free_ok s [] (tables_for (n1 + n2));
  lp_satp : free_of s < 2 ^ 44
}.

Definition RX : Z := Z.lor (Z.lor VM_PROT_V VM_PROT_R) VM_PROT_X.
Definition RW : Z := Z.lor (Z.lor VM_PROT_V VM_PROT_R) VM_PROT_W.

Lemma K_div x : (K + x) / 512 = K / 512 + x / 512.
Proof. replace (K + x) with (x + K / 512 * 512) by (unfold K; change (KERNEL_OFFSET / 4096) with 0x3000000; change (0x3000000 / 512) with 0x18000; lia). rewrite Z.div_add by lia. lia. Qed.

Lemma linear_code start n1 n2 s : linear_pre start n1 n2 s -> exists s1 l1 j1,
  let root := free_of s in
  vm_mmap (Some NULL) KERNEL_OFFSET start (4096 * n1) RX s = Ok ((0, root), s1) /\
  tables 2 s1 l1 root /\ 1 <= j1 <= tables_for (n1 + n2) /\ built s s1 l1 j1 /\
  (forall Q, 0 <= Q < 2 ^ 27 -> look identity 2 (ram s1) root Q =
    if decide (K <= Q < K + n1) then Some (SV39_Pa2PTE (start + 4096 * (Q - K)) RX) else None) /\
  range_pre s1 l1 root (K + n1) (start + 4096 * n1) RW n2 /\ j1 + cost (ram s1) root (K + n1) n2 <= tables_for (n1 + n2).
Proof.
  intros [Hs H1 H2 He Hu Hv Hp F _]. cbn zeta. set (root := free_of s).
  assert (0 < tables_for (n1 + n2)) as Ht by (unfold tables_for; pose proof (Z.div_pos (n1 + n2 - 1) 512); lia).
  destruct (root_tables s _ F Ht) as (T0 & F0 & HL0). pose proof (built_root s _ F Ht) as B0.
  change KERNEL_OFFSET with (4096 * K). rewrite (mmap_root s (4096 * K) start (4096 * n1) RX _ F Ht).
  rewrite !align_low, (proj2 Hs), PAGE_SIZE_eq. change ((4096 * K) mod 4096) with 0.
  rewrite (Z.mul_comm 4096 n1), Z.mod_mul, (Z.mul_comm n1) by lia. cbn [Z.eqb negb orb].
  pose proof (missing_range 2 (ram s) root K) as Hm.
  assert (cost (ram s) root K n1 <= 2 + 2 * ((n1 - 1) / 512)) as Hc1.
  { unfold cost. replace (K + n1 - 1) with (K + (n1 - 1)) by lia. rewrite K_div. lia. }
  pose proof (div_mono (n1 - 1) (n1 + n2 - 1) ltac:(lia)) as Hd.
  assert (0 <= K < 2 ^ 26) as HK by (split; [discriminate | reflexivity]).
  destruct (mmap_Ok (rooted s) [root] root K start RX n1) as (s1 & l1 & j1 & E & Hj & G); [| done |].
  { split; try done; try lia.
    eapply free_less; [exact F0 |]. cbn [ram rooted set_map]. unfold tables_for. lia. }
  change (cost (ram (rooted s)) root K n1) with (cost (ram s) root K n1) in Hj.
  pose proof (grew_tables _ _ _ _ _ _ _ _ _ _ _ T0 G) as T1.
  assert (forall Q, 0 <= Q < 2 ^ 27 -> look identity 2 (ram s1) root Q =
    if decide (K <= Q < K + n1) then Some (SV39_Pa2PTE (start + 4096 * (Q - K)) RX) else None) as HL.
  { intros Q HQ. pose proof (gr_look _ _ _ _ _ _ _ _ _ _ (gw_grown _ _ _ _ _ _ _ _ _ _ _ G) Q) as L.
    cbn [memory embed ram rooted set_map] in L. by rewrite L, HL0 by (apply one_root; lia). }
  assert (j1 + 1 + cost (ram s1) root (K + n1) n2 <= tables_for (n1 + n2)) as Hc2.
  { pose proof (missing_range 2 (ram s1) root (K + n1)) as Hm2. unfold cost, tables_for.
    replace (K + n1 + n2 - 1) with (K + (n1 + n2 - 1)) by lia. rewrite !K_div.
    pose proof (div_mono (n1 - 1) n1 ltac:(lia)) as Hd1.
    destruct (decide (n1 / 512 = (n1 - 1) / 512)) as [En | En]; [| lia].
    assert (missing 2 (ram s1) root (K + n1) = 0) as ->; [| lia].
    rewrite (missing_same _ _ _ (K + (n1 - 1))) by (rewrite !K_div; lia).
    eapply look_missing. rewrite HL by lia. by rewrite decide_True by lia. }
  pose proof (missing_range 2 (ram s1) root (K + n1)) as Hm2.
  pose proof (div_mono (K + n1) (K + n1 + n2 - 1) ltac:(lia)) as Hd2.
  exists s1, l1, (1 + j1). split; [exact E |]. split; [done |].
  split; [unfold cost in Hc2; lia |]. split; [| split; [exact HL |]].
  - eapply built_grew; [apply F | exact B0 | exact T0 | exact G | lia ..].
  - split; [| lia]. split; try done; try lia.
    + eapply free_less; [eapply grew_free; [exact T0 | exact G | exact F0 |] |]; unfold cost in Hc2 |- *; lia.
    + rewrite (Z.mul_comm 4096), Z.mod_add by lia. apply Hs.
    + intros Q HQ. rewrite HL by lia. by rewrite decide_False by lia.
Qed.

(** The early page table translates the linear mapping of the kernel, read and
    execute for its code, read and write for the rest, and nothing else. *)
Definition linear_mapping (start n1 n2 va : Z) : option (Z * Z) :=
  if decide (KERNEL_OFFSET <= va < KERNEL_OFFSET + 4096 * n1) then Some (start + (va - KERNEL_OFFSET), RX)
  else if decide (KERNEL_OFFSET <= va < KERNEL_OFFSET + 4096 * (n1 + n2)) then Some (start + (va - KERNEL_OFFSET), RW)
  else None.

Lemma page_translates P pa flags va : 0 <= pa + 4096 * (va / 4096 - P) < 2 ^ 56 -> pa mod 4096 = 0 ->
  (fun e => (SV39_PTE2Pa e + va mod 4096, Z.land e 0x3ff)) (SV39_Pa2PTE (pa + 4096 * (va / 4096 - P)) flags) =
  (pa + (va - 4096 * P), flags mod 1024).
Proof.
  intros Hpa Hp. assert ((pa + 4096 * (va / 4096 - P)) mod 4096 = 0) as Hm.
  { by rewrite (Z.mul_comm 4096), Z.mod_add by lia. }
  cbn beta. rewrite PTE2Pa_Pa2PTE, PTE_flags by done. f_equal. pose proof (Z.div_mod va 4096). lia.
Qed.

Lemma setup_Ok start n1 n2 s : linear_pre start n1 n2 s ->
  exists s' l j, setup_earlyvm start (start + 4096 * n1) s = Ok (tt, s') /\
    kernel_pagetable s' = SV39_PGT2SATP (free_of s) /\ 1 <= j <= tables_for (n1 + n2) /\
    tables 2 s' l (free_of s) /\ built s s' l j /\
    forall va, 0 <= va < 2 ^ 39 -> translate identity (embed (ram s')) (free_of s) va = linear_mapping start n1 n2 va.
Proof.
  intros H. destruct (linear_code _ _ _ _ H) as (s1 & l1 & j1 & E1 & T1 & Hj1 & B1 & HL1 & R & Hc).
  destruct H as [Hs H1 H2 He Hu Hv Hp F H44]. set (root := free_of s) in *.
  destruct (mmap_Ok s1 l1 root _ _ RW n2 R H2) as (s2 & l2 & j2 & E2 & Hj2 & G).
  exists (set_kernel_pagetable (SV39_PGT2SATP root) s2), l2, (j1 + j2).
  assert (0 <= RISCV_MEMORY_PA_END (map_of s) < 2 ^ 64) as Hend by apply Z.mod_pos_bound, eq_refl.
  split; [| split; [done |]; split; [lia |]].
  { unfold setup_earlyvm. mstep (eq_refl (gets map_of s)).
    replace (start + 4096 * n1 - start) with (4096 * n1) by lia. rewrite (u64_small (4096 * n1)) by lia.
    rewrite (u64_small (_ - _)), Hu by lia. rewrite (Z.mul_comm 4096 n1), PAGE_SIZE_eq, Z.mod_mul, (Z.mul_comm n1) by lia.
    mstep (eq_refl (ASSERT (0 =? 0) s)). fold RX RW. mstep E1. mstep (eq_refl (ASSERT (0 =? 0) s1)).
    rewrite u64_small by (change KERNEL_OFFSET with (4096 * K); change K with 0x3000000; lia).
    replace (KERNEL_OFFSET + 4096 * n1) with (4096 * (K + n1)) by (change KERNEL_OFFSET with (4096 * K); lia).
    mstep E2. by mstep (eq_refl (ASSERT (0 =? 0) s2)). }
  pose proof (grew_tables _ _ _ _ _ _ _ _ _ _ _ T1 G) as [T2a T2b T2c].
  pose proof (built_grew _ _ _ _ _ _ _ _ _ _ _ _ _ (fo_page _ _ _ F) B1 T1 G ltac:(lia) ltac:(lia)) as [B2a B2b B2c].
  split; [by split |]. split; [by split |]. intros va Hva. unfold translate. cbn [memory embed ram set_kernel_pagetable].
  pose proof (div_range va 4096 ltac:(lia)) as Hd. assert (0 <= va / 4096 < 2 ^ 27) as HQ by lia.
  pose proof (gr_look _ _ _ _ _ _ _ _ _ _ (gw_grown _ _ _ _ _ _ _ _ _ _ _ G) (va / 4096)) as L2.
  cbn [memory embed] in L2. rewrite L2, HL1 by (done || (apply one_root; [lia | change K with 0x3000000; lia])). unfold linear_mapping.
  change KERNEL_OFFSET with (4096 * K). clear -Hd H1 H2 Hs Hp.
  destruct (decide (K + n1 <= va / 4096 < K + n1 + n2)) as [Hb | Hb].
  - rewrite decide_False, decide_True by lia. cbn [fmap option_fmap option_map]. f_equal.
    rewrite page_translates; [f_equal; lia | lia |]. rewrite (Z.mul_comm 4096), Z.mod_add by lia. apply Hs.
  - destruct (decide (K <= va / 4096 < K + n1)) as [Ha | Ha].
    + rewrite decide_True by lia. cbn [fmap option_fmap option_map]. f_equal. rewrite page_translates; [done | lia | apply Hs].
    + by rewrite !decide_False by lia.
Qed.

(** ** [kernel_map_init] *)

(** [c] cells at [p] hold a big-endian number. *)
Definition cells_at (c : Z) (m : Z -> Z) (p x : Z) : Prop :=
  (c = 2 /\ 0 <= x < 2 ^ 64 /\ ld_bytes 8 m p = cpu_to_be64 x) \/
  (c = 1 /\ 0 <= x < 2 ^ 32 /\ ld_bytes 4 m p = cpu_to_be32 x).

(** What libfdt answers about a device tree whose memory node has one range,
    with addresses and sizes of equally many cells. *)
Record memory_node (lib : libfdt) (m : Z -> Z) (dtb base size : Z) : Prop := {
  mn_header : fdt_check_header lib m dtb = 0;
  mn_node : exists offset c prop, 0 <= offset /\ prop <> NULL /\
    fdt_node_offset_by_prop_value lib m dtb (-1) "device_type"%string "memory"%string 7 = offset /\
    fdt_address_cells lib m dtb offset = c /\ fdt_size_cells lib m dtb offset = c /\
    fdt_getprop lib m dtb offset "reg"%string = prop /\ cells_at c m prop base /\ cells_at c m (prop + 4 * c) size
}.

Lemma cells_range c m p x : cells_at c m p x -> (c = 1 \/ c = 2) /\ 0 <= x < 2 ^ 64.
Proof. intros [(-> & ? & _) | (-> & ? & _)]; lia. Qed.

Lemma swab32_low a b : swab32 (a * 2 ^ 32 + b) = swab32 b.
Proof. unfold swab32. assert (u32 (a * 2 ^ 32 + b) = u32 b) as ->; [| done]. unfold u32. by rewrite Z.add_comm, Z.mod_add by lia. Qed.
Lemma swab64_low a b : swab64 (a * 2 ^ 64 + b) = swab64 b.
Proof. unfold swab64. assert (u64 (a * 2 ^ 64 + b) = u64 b) as ->; [| done]. unfold u64. by rewrite Z.add_comm, Z.mod_add by lia. Qed.

Lemma read_cells c s p x v0 : cells_at c (ram s) p x -> exists v,
  memcpy_local v0 p (4 * c) s = Ok (v, s) /\ (if c =? 2 then be64_to_cpu v else be32_to_cpu v) = x.
Proof.
  intros [(-> & Hx & E) | (-> & Hx & E)]; (eexists; split; [reflexivity |]); cbn [Z.eqb].
  - change (Z.to_nat (4 * 2)) with 8%nat. rewrite E, Z.shiftr_div_pow2, Z.shiftl_mul_pow2 by lia.
    unfold be64_to_cpu, cpu_to_be64. change (2 ^ (8 * (4 * 2))) with (2 ^ 64). rewrite swab64_low.
    rewrite (swab_involutive 8); [apply Z.mod_small; lia | apply swab64_bytes | intros; apply Z.mod_pos_bound; lia].
  - change (Z.to_nat (4 * 1)) with 4%nat. rewrite E, Z.shiftr_div_pow2, Z.shiftl_mul_pow2 by lia.
    unfold be32_to_cpu, cpu_to_be32. change (2 ^ (8 * (4 * 1))) with (2 ^ 32). rewrite swab32_low.
    rewrite (swab_involutive 4); [apply Z.mod_small; lia | apply swab32_bytes | intros; apply Z.mod_pos_bound; lia].
Qed.

(** The kernel image between the symbols of the linker, in a memory of [size]
    bytes from [base] on, with zeroed memory after it. *)
Record image (start sep kend base size : Z) (m : Z -> Z) : Prop := {
  im_pages : start mod 4096 = 0 /\ sep mod 4096 = 0 /\ kend mod 4096 = 0;
  im_order : 0 <= start < sep /\ sep <= kend <= base + size;
  im_low : start <= KERNEL_OFFSET /\ base + size - start <= 2 ^ 36 - 4096;
  im_free : kend + 4096 * tables_for ((base + size - start + 4095) / 4096) <= base + size;
  im_zero : forall a, kend <= a < kend + 4096 * tables_for ((base + size - start + 4095) / 4096) -> m a = 0
}.

Lemma map_init_Ok lib start kend a0 s0 dtb base size s :
  memory_node lib (ram s) dtb base size -> 0 <= start <= kend -> start <= KERNEL_OFFSET -> kend <= base + size < 2 ^ 64 ->
  kernel_map_init lib start kend a0 s0 dtb s =
    Ok (tt, set_map (mk_kernel_mapping base size start (kend - start) kend (base + size - kend) (KERNEL_OFFSET - start)) s).
Proof.
  intros [E0 (offset & c & prop & Ho & Hp & E1 & E2 & E3 & E4 & C1 & C2)] Hse HK Hend.
  destruct (cells_range _ _ _ _ C1) as [Hc _].
  destruct (read_cells _ _ _ _ a0 C1) as (va & Ea & Va). destruct (read_cells _ _ _ _ s0 C2) as (vs & Es & Vs).
  unfold kernel_map_init. unfold bind at 1, gets at 1. rewrite E0. mstep (eq_refl (ASSERT (0 =? 0) s)).
  unfold bind at 1, gets at 1. rewrite E1. erewrite bind_Ok; [| apply ASSERT_Ok; lia].
  unfold bind at 1, gets at 1. rewrite E2. erewrite bind_Ok; [| apply ASSERT_Ok; lia].
  unfold bind at 1, gets at 1. rewrite E3. erewrite bind_Ok; [| apply ASSERT_Ok; lia].
  unfold bind at 1, gets at 1. rewrite E4. erewrite bind_Ok; [| apply ASSERT_Ok; by rewrite (proj2 (Z.eqb_neq _ _))].
  rewrite Z.ltb_irrefl. cbv zeta. mstep Ea. mstep Es. rewrite Va, Vs.
  unfold RISCV_KERNEL_PA_END, RISCV_MEMORY_PA_END. cbn [pa_st_kernel size_kernel pa_st_memory size_memory].
  change KERNEL_OFFSET with 0x3000000000 in *. rewrite (u64_small (kend - start)) by lia.
  rewrite (u64_small (start + _)), (u64_small (base + size)), !u64_small by lia. unfold modify.
  do 4 f_equal; lia.
Qed.

Lemma image_linear start sep kend base size s dt : image start sep kend base size (ram s) ->
  let km := mk_kernel_mapping base size start (kend - start) kend (base + size - kend) dt in
  linear_pre start ((sep - start) / 4096) ((base + size - sep + 4095) / 4096) (set_map km s) /\
  start + 4096 * ((sep - start) / 4096) = sep /\
  (sep - start) / 4096 + (base + size - sep + 4095) / 4096 = (base + size - start + 4095) / 4096.
Proof.
  intros [(P1 & P2 & P3) Ho [HK Hs] Hf Hz]. change KERNEL_OFFSET with 0x3000000000 in HK. cbn zeta.
  apply Z.mod_divide in P1 as [x ->]; [| lia]. apply Z.mod_divide in P2 as [y ->]; [| lia].
  rewrite <-Z.mul_sub_distr_r, Z.div_mul by lia.
  assert (y - x + (base + size - y * 4096 + 4095) / 4096 = (base + size - x * 4096 + 4095) / 4096) as En.
  { rewrite Z.add_comm, <-Z.div_add by lia. f_equal. lia. }
  assert (0 < tables_for ((base + size - x * 4096 + 4095) / 4096)) as Ht.
  { unfold tables_for. pose proof (Z.div_pos (base + size - x * 4096 + 4095) 4096).
    pose proof (Z.div_le_mono (-1) ((base + size - x * 4096 + 4095) / 4096 - 1) 512) as Hm. change (-1 / 512) with (-1) in Hm. lia. }
  pose proof (div_range (base + size - y * 4096 + 4095) 4096 ltac:(lia)) as Hd.
  split; [| split; [lia | exact En]]. split; cbn [map_of set_map pa_st_free size_free pa_st_memory size_memory ram].
  - split; [lia |]. apply Z.mod_mul. lia.
  - lia.
  - lia.
  - unfold RISCV_MEMORY_PA_END. cbn. rewrite u64_small by lia. lia.
  - unfold RISCV_MEMORY_PA_END. cbn [pa_st_memory size_memory]. rewrite u64_small by lia.
    rewrite PAGE_UPPER_ALIGN_spec by lia. do 2 f_equal. lia.
  - lia.
  - lia.
  - rewrite En. split; cbn; [done | lia | lia | exact Hz |]. by intros v Hv%elem_of_nil.
  - lia.
Qed.

(** ** The claim *)

(** C15: the first page table is the linear mapping.  On a device tree whose
    memory node has one range, written with as many cells for the address as for
    the size, with a kernel image in page-aligned physical
    memory below the end of that range and enough zeroed pages after it,
    [kernel_map_init] and [setup_earlyvm] run to their end: the walk never runs
    out of tables, and no result that it ignores is an error.  The table that the
    value for [satp] names translates [KERNEL_OFFSET] and what follows to the
    kernel image and the memory after it, the code readable and executable, the
    rest readable and writable, and no other address below 512 GiB.  Its tables
    are pages between the end of the kernel and the new start of the free
    memory, which is what the memory map says, and no other byte of the memory
    has changed. *)
Theorem early_linear_mapping lib start sep kend base size a0 s0 dtb s :
  memory_node lib (ram s) dtb base size -> image start sep kend base size (ram s) ->
  exists s' j, bind (kernel_map_init lib start kend a0 s0 dtb) (fun _ => setup_earlyvm start sep) s = Ok (tt, s') /\
    SV39_SATP2PGT (kernel_pagetable s') = kend /\
    (forall va, 0 <= va < 2 ^ 39 -> translate identity (embed (ram s')) kend va =
      if decide (KERNEL_OFFSET <= va < KERNEL_OFFSET + (sep - start)) then Some (start + (va - KERNEL_OFFSET), RX)
      else if decide (KERNEL_OFFSET <= va < KERNEL_OFFSET + PAGE_UPPER_ALIGN (base + size - start))
      then Some (start + (va - KERNEL_OFFSET), RW) else None) /\
    tree_ok identity 2 (ram s') kend /\
    (forall q, in_tree identity 2 (ram s') kend q -> kend <= q < kend + 4096 * j) /\
    map_of s' = mk_kernel_mapping base size start (kend - start) (kend + 4096 * j) (base + size - (kend + 4096 * j)) (KERNEL_OFFSET - start) /\
    1 <= j <= tables_for ((base + size - start + 4095) / 4096) /\
    (forall a, a < kend \/ kend + 4096 * j <= a -> ram s' a = ram s a).
Proof.
  intros D I. pose proof (im_order _ _ _ _ _ _ I) as Ho. pose proof (im_low _ _ _ _ _ _ I) as [HK Hsz].
  assert (base + size < 2 ^ 39) as Hb by (change KERNEL_OFFSET with 0x3000000000 in HK; lia).
  mstep (map_init_Ok lib start kend a0 s0 dtb base size s D ltac:(lia) HK ltac:(lia)).
  destruct (image_linear _ _ _ _ _ _ (KERNEL_OFFSET - start) I) as (L & Esep & En).
  destruct (setup_Ok _ _ _ _ L) as (s' & l & j & E & Es & Hj & [T1 T2 T3] & [B1 B2 B3] & HT).
  rewrite Esep in E. rewrite En in Hj. exists s', j. split; [exact E |]. cbn [map_of set_map pa_st_free] in *.
  split; [rewrite Es; apply SATP2PGT_PGT2SATP; [lia | apply I] |]. split.
  { intros va Hva. rewrite HT by done. unfold linear_mapping. rewrite En, PAGE_UPPER_ALIGN_spec by lia.
    replace (4096 * ((sep - start) / 4096)) with (sep - start) by lia. done. }
  split; [done |]. split; [intros q Hq; by apply B2, T3 |]. split; [| by split].
  rewrite B1. unfold advance. cbn. f_equal. lia.
Qed.

(** A machine with 128 MiB of memory, as QEMU describes it. *)
Definition demo_fdt : libfdt := mk_libfdt (fun _ _ => 0) (fun _ _ _ _ _ _ => 16) (fun _ _ _ => 2) (fun _ _ _ => 2) (fun _ _ _ _ => 0x1000).
Definition demo_ram : Z -> Z :=
  st64 0x1008 (cpu_to_be64 0x8000000) (st64 0x1000 (cpu_to_be64 0x80000000) (fun _ => 0)).
Definition demo_early : early := mk_early identity 0 demo_ram.

Lemma demo_node : memory_node demo_fdt demo_ram 0 0x80000000 0x8000000.
Proof.
  split; [done |]. exists 16, 2, 0x1000. do 6 (split; [done |]). split; left; (split; [done |]; split; [done |]); vm_compute; reflexivity.
Qed.

Lemma demo_image : image 0x80200000 0x80210000 0x80420000 0x80000000 0x8000000 demo_ram.
Proof.
  split; [done | done | done | done |]. intros a Ha. unfold demo_ram, st64.
  rewrite !(proj2 (Z.ltb_ge a _)), !andb_false_r by lia. done.
Qed.

Lemma early_linear_mapping_witness : exists s' j,
  bind (kernel_map_init demo_fdt 0x80200000 0x80420000 7 9 0) (fun _ => setup_earlyvm 0x80200000 0x80210000) demo_early = Ok (tt, s') /\
  translate identity (embed (ram s')) 0x80420000 (KERNEL_OFFSET + 0x10008) = Some (0x80210008, RW) /\
  translate identity (embed (ram s')) 0x80420000 0x80200000 = None /\ 1 <= j <= 127.
Proof.
  destruct (early_linear_mapping demo_fdt 0x80200000 0x80210000 0x80420000 0x80000000 0x8000000 7 9 0 demo_early
    demo_node demo_image) as (s' & j & E & _ & HT & _ & _ & _ & Hj & _).
  exists s', j. split; [exact E |]. clear E. split; [| split; [| exact Hj]].
  - rewrite HT; [vm_compute; reflexivity | split; [discriminate | reflexivity]].
  - rewrite HT; [vm_compute; reflexivity | split; [discriminate | reflexivity]].
Defined.

(** With too little free memory the walk still returns 0: the result of the walk
    below a new table is ignored, and the page is not mapped. *)
Lemma walk_ignores_ENOMEM :
  match vm_walkthrough 4 0x1000 0 0 0x80000000 RX (mk_early (mk_kernel_mapping 0 0 0 0 0x2000 4096 0) 0 (fun _ => 0)) with
  | Ok (error, s') => error = 0 /\ look identity 2 (ram s') 0x1000 0 = None
  | Err _ => False
  end.
Proof. vm_compute. by split. Qed.

(** Below a table that exists the error is reported. *)
Lemma walk_reports_ENOMEM :
  match vm_walkthrough 4 0x1000 0 0 0x80000000 RX (mk_early (mk_kernel_mapping 0 0 0 0 0x2000 0 0) 0 (fun _ => 0)) with
  | Ok (error, _) => error = - ENOMEM
  | Err _ => False
  end.
Proof. vm_compute. reflexivity. Qed.
