(* ===== verification/VmDemo.v ===== *)
(** * A concrete kernel

    The small machine of [PageFrame], with a root table, a cache of areas that
    has no slab yet and an empty address space: every hypothesis of the theorems
    on requests holds of it.  The cache and the address space lie in the page of
    the kernel image. *)
From S2P Require Import Prelude DList Cpu Locks KernelMap PageFrame Buddy Slab SlabSpec CacheSpec Avl AvlSpec Sv39 Sv39Pte Sv39Tree Sv39Map Sv39Spec KernelSpec BlockSpec GrowSpec VmaArea Vm VmaSpec VmSpec SpaceSpec VmMapSpec VmMemSpec.

(** The cache, the address space and the root table. *)
Definition kd_cache : Z := 0x3000000800.
Definition kd_vma : Z := 0x3000000900.
(** The kernel's own address space is another one. *)
Definition kd_kern : Z := 0x3000000a00.
Definition kd_root : Z := 0x3000006000.
Definition kd_base : Z := 0x3000001000.
Definition kd_stack : list Z := [0; 0; 0].
Definition kd_slabs : cache_slabs := mk_slabs [] [] [].

(** The pages of the image and of the descriptors are static. *)
Definition kd_page : pageframe := mk_pageframe 1 PAGE_BUDDYALLOCATOR PG_BUDDY_FLAG_STATIC 0 0 0.
Definition kd_pages : gmap Z pageframe := {[0 := kd_page; 1 := kd_page]}.

Definition kd_heads : list Z := [free_of kd_cache; partial_of kd_cache; full_of kd_cache; l_list kd_vma].
Definition kd_rings : gmap Z (list Z) := list_to_map ((fun q => (q, [])) <$> kd_heads).
Definition kd_nodes : heap := list_to_map ((fun q => (q, mk_list_head q q)) <$> kd_heads).

Definition kd_kcache : kmem_cache := mk_cache 1 0 96 0 2 0 0.
Definition kd_fields : vma := mk_vma (mk_rwlock 1 0 0) kd_root kd_kern NULL.

(** The state, over the allocator [b] after the allocation of the root table. *)
Definition kd_kmem (b : buddy) : kmem := set_heap (kd_nodes ∪ nds b) (mk_kmem b ∅ {[kd_cache := kd_kcache]}).
Definition kd_vms (b : buddy) : vms := mk_vms (kd_kmem b) ∅ ∅ {[kd_vma := kd_fields]} kd_kern 0 kd_cache 0.

Lemma Ok_inj {S A} (a b : A) (s t : S) : Ok (a, s) = Ok (b, t) -> a = b /\ s = t.
Proof. by intros [= -> ->]. Qed.

Definition kd_others (R : gmap Z (list Z)) (K : gmap Z pageframe) : others := mk_others kd_base R K [].

(** ** The lists *)

Lemma kd_rings_cases q l : kd_rings !! q = Some l -> q ∈ kd_heads /\ l = [].
Proof. intros H%elem_of_list_to_map_2. apply list_elem_of_fmap in H as (x & [= -> ->] & Hx). done. Qed.
Lemma kd_linked q l x : kd_rings !! q = Some l -> x ∈ q :: l -> x ∈ kd_heads.
Proof. intros [Hq ->]%kd_rings_cases ->%list_elem_of_singleton. done. Qed.
Lemma kd_nodes_dom q : is_Some (kd_nodes !! q) -> q ∈ kd_heads.
Proof. intros [x H%elem_of_list_to_map_2]. apply list_elem_of_fmap in H as (y & [= -> ->] & Hy). done. Qed.

Lemma kd_dlists : dlists kd_nodes kd_rings.
Proof.
  split.
  - intros k l [Hk ->]%kd_rings_cases. unfold kd_heads in Hk. rewrite !elem_of_cons, elem_of_nil in Hk.
    destruct Hk as [-> | [-> | [-> | [-> | []]]]]; (split; [apply (bool_decide_unpack _); by vm_compute | by vm_compute]).
  - intros k1 k2 l1 l2 q Hne [_ ->]%kd_rings_cases [_ ->]%kd_rings_cases ->%list_elem_of_singleton. by intros ->%list_elem_of_singleton.
Qed.

(** No node of the allocator is one of the new ones. *)
Lemma kd_apart q : q ∈ kd_heads -> no_pool demo_g q /\ forall i, 0 <= i < 8 -> buddy_node kd_base i <> q.
Proof.
  unfold kd_heads. rewrite !elem_of_cons, elem_of_nil. unfold no_pool, order_ok, pool_list, demo_g, buddy_node, free_of, partial_of,
    full_of, l_list, kd_cache, kd_vma, kd_base, sizeof_pageframe, offsetof_buddy_node. change MAX_ORDER with 6. intros Hq.
  split; intros; lia.
Qed.

(** ** Where things are *)

Lemma kd_settled q S : 0x3000000000 <= q < 0x3000002000 -> settled demo_km kd_pages S q.
Proof.
  intros Hq. right. left. destruct (decide (q < 0x3000001000)); [exists 0, kd_page | exists 1, kd_page]; (split; [by vm_compute |]);
    (split; [done |]).
  - change (pg2va demo_km 0) with 0x3000000000. lia.
  - change (pg2va demo_km 1) with 0x3000001000. lia.
Qed.

Lemma kd_layout : layout demo_km demo_g kd_cache 96 kd_vma (kd_others kd_rings kd_pages) kd_slabs.
Proof.
  split; [done | | done | done | | | |]; cbn [o_pages o_base kd_others].
  - intros Hin%heads_cases. unfold free_of, partial_of, full_of, l_list, kd_cache, kd_vma in Hin. lia.
  - by apply kd_settled.
  - intros q [-> | [-> | ->]]%heads_cases; by apply kd_settled.
  - intros o Ho. apply kd_settled. unfold order_ok in Ho. change MAX_ORDER with 6 in Ho. unfold pool_list, demo_g. lia.
  - intros i Hi. change (PGFRAME_PAGE_NUMS demo_km) with 8 in Hi. apply kd_settled.
    unfold buddy_node, kd_base, sizeof_pageframe, offsetof_buddy_node. lia.
Qed.

Lemma kd_growable : growable 40 96 4096 (kd_others kd_rings kd_pages) kd_kcache kd_slabs.
Proof. split; try done. by intros x ?%elem_of_nil. Qed.

Section demo.
(** The root table is allocated. *)
Context (b1 : buddy).
Context (Eroot : bk_alloc_zero demo_km demo_g 0 demo_ready = Ok (kd_root, b1)).
Context (Ebase : base b1 = kd_base).
Context (Estatic : pgs b1 !! 0 = Some kd_page /\ pgs b1 !! 1 = Some kd_page).

(** ** The page tables *)

Lemma kd_tables : Sv39Spec.space (table_pages demo_km demo_g (kd_others ∅ kd_pages)) demo_km b1 [kd_root] kd_root /\
  forall a, translate demo_km b1 kd_root a = None.
Proof using Eroot Ebase Estatic.
  destruct demo_root as (t & s & E & (b & S) & H0). rewrite Eroot in E. apply Ok_inj in E as [<- <-]. split; [| done].
  clear Eroot. destruct S as [[T1 T2 T3 T4 T5 T6] Ht Hi]. cbn [o_base] in T6.
  split; [| done | done]. split; [exact T1 | exact T2 | exact T3 | exact T4 | | by rewrite Ebase].
  intros x p Hx. cbn [o_pages kd_others] in Hx.
  assert (x = 0 /\ p = kd_page \/ x = 1 /\ p = kd_page) as Hc by (unfold kd_pages in Hx;
    apply lookup_insert_Some in Hx as [[<- <-] | [_ [<- <-]%lookup_singleton_Some]]; auto).
  destruct Estatic as [E0 E1]. destruct Hc as [[-> ->] | [-> ->]]; (split; [by right | split; [done |]]);
    rewrite list_elem_of_singleton; by vm_compute.
Qed.

Lemma kd_kernel_tables :
  Sv39Spec.space (table_pages demo_km demo_g (kd_others kd_rings kd_pages)) demo_km (bud (kd_kmem b1)) [kd_root] kd_root.
Proof using Eroot Ebase Estatic.
  destruct kd_tables as [S _]. clear Eroot Ebase Estatic. pose proof S as [T _ _]. pose proof (tp_base _ _ _ _ _ T) as Eb.
  destruct (tp_wf _ _ _ _ _ T) as (_ & _ & L & [Bl [I1 I2 I3 I4] F]). cbn [o_rings kd_others] in *. rewrite Eb in *. cbn [o_base kd_others] in *.
  assert (forall k l q, rings demo_g kd_base L !! k = Some l -> q ∈ k :: l -> q ∉ kd_heads) as Hold.
  { intros k l q (o & Ho & -> & ->)%rings_lookup Hq [Hn Hb]%kd_apart.
    apply elem_of_cons in Hq as [-> | (i & -> & Hi)%list_elem_of_fmap]; [by apply (Hn o) |].
    apply (I4 o i Ho) in Hi as (p & Hp & _). by apply (Hb i); [apply (Buddy.page_range _ _ _ _ _ Bl Hp) |]. }
  apply (tables_relink demo_km demo_g (kd_others ∅ kd_pages) kd_rings [kd_root] kd_root b1 (bud (kd_kmem b1)) L S); try done.
  split; [done | | ].
  - split; [done | | | done].
    + rewrite map_union_empty in I2. apply dlists_union.
      * apply (dlists_frame (nds b1)); [done |]. intros k l q Hk Hq. cbn. apply lookup_union_r.
        destruct (kd_nodes !! q) eqn:E; [| done]. exfalso. apply (Hold k l q Hk Hq), kd_nodes_dom. by eexists.
      * apply (dlists_frame kd_nodes); [apply kd_dlists |]. intros k l q Hk Hq. cbn. apply lookup_union_l'.
        pose proof (kd_linked k l q Hk Hq) as Hl. unfold kd_heads in Hl.
        rewrite !elem_of_cons, elem_of_nil in Hl. destruct Hl as [-> | [-> | [-> | [-> | []]]]]; eexists; by vm_compute.
      * intros k l q Hk Hq k' l' Hk' Hin. apply (Hold k l q Hk Hq). by eapply kd_linked.
    + intros i Hi. cbn. apply elem_of_dom. apply lookup_union_is_Some. right. apply elem_of_dom. by apply I3.
  - intros i p Hp Ht k l Hk Hin. pose proof (Buddy.page_range _ _ _ _ _ Bl Hp) as Hi. cbn [o_base kd_others] in Hin.
    pose proof (kd_linked _ _ _ Hk Hin) as [_ Hl]%kd_apart. by apply (Hl i).
Qed.

Lemma kd_kernel :
  kernel_ok demo_km demo_g kd_cache 40 96 4096 (kd_others kd_rings kd_pages) [kd_root] kd_root kd_kcache kd_slabs (kd_kmem b1).
Proof using Eroot Ebase Estatic.
  pose proof kd_kernel_tables as S. clear Eroot Ebase Estatic. split.
  - exact S.
  - exact (lookup_singleton_eq (M := gmap Z) kd_cache kd_kcache).
  - split; vm_compute; reflexivity.
  - split; vm_compute; reflexivity.
  - split; cbn; [constructor | by intros d e ?%elem_of_nil | constructor].
  - split; cbn; constructor.
  - by intros x ?%elem_of_nil.
  - intros q r [Hq _]%kd_rings_cases. by apply kd_apart.
Qed.

(** The state satisfies the invariant of the requests. *)
Lemma kd_space_in : space_in demo_km demo_g kd_cache 40 96 4096 kd_vma (rest_pages b1 + 3) [] [] kd_pages (kd_vms b1) [].
Proof using Eroot Ebase Estatic.
  pose proof kd_kernel as K. pose proof (proj2 kd_tables) as Htr. clear Eroot Ebase Estatic.
  exists (kd_others kd_rings kd_pages), [kd_root], kd_fields, kd_kcache, kd_slabs. split; [done |]. split; [done |]. split.
  - split; [done | apply kd_layout | exact K | apply kd_growable | | | done | | | done | |].
    + split; [exact (lookup_singleton_eq (M := gmap Z) kd_vma kd_fields) |]. split; [| split; [| by split; constructor]].
      * exists E. split; [split; [done | split; [done | constructor]] | split; done].
      * eapply kernel_ring; [exact K |]. vm_compute. reflexivity.
    + vm_compute. reflexivity.
    + intros q r x Hq Hx. left. pose proof (kd_linked _ _ _ Hq Hx) as Hl. unfold kd_heads in Hl.
      rewrite !elem_of_cons, elem_of_nil in Hl. destruct Hl as [-> | [-> | [-> | [-> | []]]]]; by apply kd_settled.
    + by intros a ?%elem_of_nil.
    + intros q ->%list_elem_of_singleton. apply in_tree_root.
    + assert (owned kd_pages = 2) as Ho by (vm_compute; reflexivity).
      change (rest_pages b1 + 1 + owned kd_pages = rest_pages b1 + 3). lia.
  - intros a _. cbn. rewrite <-(Htr a). done.
  - split; [by intros e ?%elem_of_nil | constructor].
  - split; [by vm_compute | done].
Qed.
End demo.

Definition kd_bud : buddy :=
  match bk_alloc_zero demo_km demo_g 0 demo_ready with Ok (_, s) => s | Err _ => demo_ready end.
Definition kd_state : vms := kd_vms kd_bud.

Lemma kd_root_run : bk_alloc_zero demo_km demo_g 0 demo_ready = Ok (kd_root, kd_bud).
Proof.
  assert (match bk_alloc_zero demo_km demo_g 0 demo_ready with Ok (t, _) => t | Err _ => 0 end = kd_root) as H by (vm_compute; reflexivity).
  unfold kd_bud. destruct (bk_alloc_zero demo_km demo_g 0 demo_ready) as [[t s]|]; [by rewrite H | done].
Qed.
Lemma kd_base_run : base kd_bud = kd_base.
Proof. vm_compute. reflexivity. Qed.
Lemma kd_static_run : pgs kd_bud !! 0 = Some kd_page /\ pgs kd_bud !! 1 = Some kd_page.
Proof. split; vm_compute; reflexivity. Qed.

(** Its pages: those that are free, the root table and the static ones. *)
Definition kd_total : Z := rest_pages kd_bud + 3.

Lemma kd_state_ok : space_in demo_km demo_g kd_cache 40 96 4096 kd_vma kd_total [] [] kd_pages kd_state [].
Proof. exact (kd_space_in kd_bud kd_root_run kd_base_run kd_static_run). Qed.
