(* ===== verification/VmRequests.v ===== *)
(** * Requests on an address space

    What [vm_iomap], [vm_iounmap], [vm_mmap] and [vm_unmap] promise, as a
    transition system over the areas of an address space, the objects of the
    cache they come from and the blocks that are in use, and that the code
    implements it for any sequence of requests; and that memory areas are isolated from each other and from the
    page tables. *)
From S2P Require Import Prelude DList Cpu Locks KernelMap PageFrame Buddy Slab SlabSpec CacheSpec Avl AvlSpec Sv39 Sv39Pte Sv39Tree Sv39Map Sv39Spec KernelSpec BlockSpec GrowSpec VmaArea Vm VmaSpec VmSpec SpaceSpec VmMapSpec VmMemSpec VmDemo.

(** ** The specification *)

Inductive request :=
  | IoMap (va_ pa_ prot_ size_ : Z)
  | IoUnmap (va_ size_ : Z)
  | MemMap (va_ order prot_ : Z)
  | MemUnmap (va_ order : Z).

(** The arguments are numbers of their C types, and a mapping lies below
    512 GiB, the reach of one root table. *)
Definition proper (r : request) : Prop :=
  match r with
  | IoMap va_ pa_ prot_ size_ => 0 <= va_ /\ 0 <= pa_ /\ 0 < size_ < 2 ^ 43 /\ va_ + PAGE_UPPER_ALIGN size_ <= 2 ^ 39 /\
      pa_ + PAGE_UPPER_ALIGN size_ <= 2 ^ 56 /\ PTE_VALID prot_ = true
  | IoUnmap va_ size_ => 0 <= va_ /\ 0 < size_ /\ va_ + size_ <= 2 ^ 64 - 4096
  | MemMap va_ order prot_ => 0 <= va_ /\ va_ + 2 ^ 17 <= 2 ^ 39 /\ PTE_VALID prot_ = true
  | MemUnmap va_ order => 0 <= va_ < 2 ^ 64
  end.

(** The descriptors in use outside the page allocator, the objects of the cache
    of areas, and the areas. *)
Definition view : Type := (gmap Z pageframe * list Z * list entry)%type.

Section specification.
(** A slab of the cache has [n] objects; the objects [H] are in use elsewhere. *)
Context (km : kernel_mapping) (n : Z) (H : list Z).

(** The cache with an object for one more area: it has grown by a slab if all
    its objects were in use. *)
Definition room (D : list entry) (K K' : gmap Z pageframe) (O O' : list Z) : Prop := grown_by n (H ++ D.*1) K K' O O'.

(** Why an area is not added: all objects are in use and there are no more, it
    meets another, or memory has run out. *)
Inductive not_added (x : vma_area) (D : list entry) : Z -> gmap Z pageframe * list Z -> gmap Z pageframe * list Z -> Prop :=
  | na_objects K O : H ++ D.*1 ≡ₚ O -> not_added x D (- ENOBUFS) (K, O) (K, O)
  | na_exist K O K' O' : room D K K' O O' -> existsb (fun f : entry => overlaps x f.2) D = true ->
      not_added x D (- EEXIST) (K, O) (K', O')
  | na_memory K O K' O' : room D K K' O O' -> not_added x D (- ENOMEM) (K, O) (K', O').

Definition bad_block (va_ order : Z) : bool := negb (va_ mod 4096 =? 0) || negb ((0 <=? order) && (order <? MAX_ORDER)).

Inductive answers : request -> Z -> view -> view -> Prop :=
  | io_refused va_ pa_ prot_ size_ err w :
      iomap_refusal km va_ pa_ size_ = Some err -> answers (IoMap va_ pa_ prot_ size_) err w w
  | io_failed va_ pa_ prot_ size_ r u u' D :
      iomap_refusal km va_ pa_ size_ = None -> not_added (io_area va_ pa_ prot_ size_) D r u u' ->
      answers (IoMap va_ pa_ prot_ size_) r (u, D) (u', D)
  | io_mapped va_ pa_ prot_ size_ a K O K' O' D D' :
      iomap_refusal km va_ pa_ size_ = None -> room D K K' O O' -> free_object H O' D a ->
      hang_spec (a, io_area va_ pa_ prot_ size_) D = Some D' ->
      answers (IoMap va_ pa_ prot_ size_) 0 (K, O, D) (K', O', D')
  | io_kept va_ size_ err u D :
      iounmap_refusal km D va_ size_ = Some err -> answers (IoUnmap va_ size_) err (u, D) (u, D)
  | io_unmapped va_ size_ u D1 (e : entry) D2 :
      va e.2 = va_ -> size e.2 = PAGE_UPPER_ALIGN size_ -> vmar_typ e.2 = VMA_IO ->
      answers (IoUnmap va_ size_) 0 (u, D1 ++ e :: D2) (u, D1 ++ D2)
  | mem_refused va_ order prot_ w :
      bad_block va_ order = true -> answers (MemMap va_ order prot_) (- EFAULT) w w
  | mem_failed va_ order prot_ r u u' D :
      bad_block va_ order = false -> not_added (mem_area km va_ order prot_ 0) D r u u' ->
      answers (MemMap va_ order prot_) r (u, D) (u', D)
  | mem_mapped va_ order prot_ pg a K O K' O' D D' :
      bad_block va_ order = false -> 0 <= pg -> pg + 2 ^ order <= PGFRAME_PAGE_NUMS km ->
      room D K K' O O' -> K' !! pg = None -> free_object H O' D a ->
      hang_spec (a, mem_area km va_ order prot_ pg) D = Some D' ->
      answers (MemMap va_ order prot_) 0 (K, O, D) (<[pg := block_page order 1]> K', O', D')
  | mem_kept_bad va_ order w :
      bad_block va_ order = true -> answers (MemUnmap va_ order) (- EFAULT) w w
  | mem_kept va_ order err u D :
      bad_block va_ order = false -> unmap_refusal D va_ (4096 * 2 ^ order) VMA_MEMORY = Some err ->
      answers (MemUnmap va_ order) err (u, D) (u, D)
  | mem_unmapped va_ order pg K O D1 (e : entry) D2 :
      bad_block va_ order = false -> va e.2 = va_ -> size e.2 = 4096 * 2 ^ order -> vmar_typ e.2 = VMA_MEMORY ->
      pgfm e.2 = Some pg -> answers (MemUnmap va_ order) 0 (K, O, D1 ++ e :: D2) (delete pg K, O, D1 ++ D2).

(** A sequence of requests with its answers. *)
Inductive trace : list request -> list Z -> view -> view -> Prop :=
  | trace_nil w : trace [] [] w w
  | trace_cons r rs a as_ w w' w'' :
      answers r a w w' -> trace rs as_ w' w'' -> trace (r :: rs) (a :: as_) w w''.
End specification.

(** ** The code *)

Section implementation.
Context (km : kernel_mapping) (g : Z) (stack_after : list Z).
Context (c n osize bsize : Z) (v : Z) (N : Z).
Notation space_in := (space_in km g c n osize bsize v N).

Definition serve (r : request) : M vms Z :=
  match r with
  | IoMap va_ pa_ prot_ size_ => vm_iomap km g stack_after v va_ pa_ prot_ size_
  | IoUnmap va_ size_ => vm_iounmap km g v va_ size_
  | MemMap va_ order prot_ => vm_mmap km g stack_after v va_ order prot_
  | MemUnmap va_ order => vm_unmap km g v va_ order
  end.
Fixpoint serve_all (rs : list request) : M vms (list Z) :=
  match rs with
  | [] => ret []
  | r :: rs => a ← serve r; as_ ← serve_all rs; ret (a :: as_)
  end.

Lemma bad_block_spec va_ order : bad_block va_ order = false <-> va_ mod 4096 = 0 /\ order_ok order.
Proof using.
  unfold bad_block, order_ok. rewrite orb_false_iff, !negb_false_iff, andb_true_iff, Z.eqb_eq, Z.leb_le, Z.ltb_lt. done.
Qed.

Context (Hpa : PGFRAME_PA_START km + PGFRAME_SIZE km <= 2 ^ 56) (Hstack : (3 <= length stack_after)%nat).

(** Each request on its own. *)
Lemma serve_Ok s D H O K r :
  space_in H O K s D -> proper r ->
  exists a s' K' O' D', serve r s = Ok (a, s') /\ answers km n H r a (K, O, D) (K', O', D') /\ space_in H O' K' s' D'.
Proof using Hpa Hstack.
  intros HS Hr. pose proof HS as (oth & l & k & kc & X & HK & _ & [V Hag Hf [Hco Hff]]).
  pose proof (vo_space _ _ _ _ _ _ _ _ _ _ _ _ _ _ _ _ V) as HA.
  pose proof (vm_ok_no_null km g c n osize bsize v N _ _ _ _ _ _ _ _ V) as HN.
  pose proof (space_vma _ _ _ _ _ _ _ _ _ _ _ _ _ HS) as Hv.
  destruct r as [va_ pa_ prot_ size_ | va_ size_ | va_ order prot_ | va_ order]; cbn [serve proper] in *.
  - destruct Hr as (H1 & H2 & H3 & H4 & H5 & H6).
    assert (size_ <= PAGE_UPPER_ALIGN size_ /\ PAGE_UPPER_ALIGN size_ mod 4096 = 0) as [Hup Hupal].
    { rewrite PAGE_UPPER_ALIGN_spec by lia. pose proof (Z.div_mod (size_ + 4095) 4096 ltac:(lia)).
      pose proof (Z.mod_pos_bound (size_ + 4095) 4096 ltac:(lia)). split; [lia |]. rewrite Z.mul_comm. by apply Z.mod_mul. }
    destruct (iomap_refusal km va_ pa_ size_) as [err|] eqn:Href.
    + exists err, s, K, O, D. split; [| split; [by constructor | done]].
      by apply (vm_iomap_refused km g s v Hv); try lia.
    + assert (va_ mod 4096 = 0 /\ pa_ mod 4096 = 0) as [Hva Hpal].
      { unfold iomap_refusal in Href. repeat case_match; try done; rewrite ?negb_false_iff, ?Z.eqb_eq in *; try done;
          rewrite ?andb_true_iff, ?Z.eqb_eq in *; tauto. }
      destruct (vm_iomap_Ok km g stack_after c n osize bsize v N Hstack Hpa s D H O K va_ pa_ prot_ size_ HS H3 Href) as (r & s' & E & Hr).
      { split; [apply hw_area_of; cbn; lia | by left | split; [cbn; lia | done] | done]. }
      exists r, s'. destruct Hr as [(-> & Hfull & HS') | (K1 & O1 & HG & [(-> & a & D' & Ha & Hh & HS') | [(-> & Hov & HS') | (-> & _ & HS')]])];
        [exists K, O, D | exists K1, O1, D' | exists K1, O1, D ..]; (split; [done |]; split; [| done]).
      * by apply io_failed; [| constructor].
      * by eapply io_mapped.
      * by apply io_failed; [| constructor].
      * by apply io_failed; [| constructor].
  - destruct Hr as (H1 & H2 & H3). destruct (iounmap_refusal km D va_ size_) as [err|] eqn:Href.
    + exists err, s, K, O, D. split; [| split; [by constructor | done]]. by apply (vm_iounmap_refused km g s v k D HA HN Hff Hco Hv).
    + destruct (vm_iounmap_Ok km g stack_after c n osize bsize v N Hpa s D H O K va_ size_ HS H1 H2 H3 Href)
        as (s' & D1 & e & D2 & E & -> & E1 & E2 & E3 & HS').
      exists 0, s', K, O, (D1 ++ D2). split; [done |]. split; [by constructor | done].
  - destruct Hr as (H1 & H2 & H3). destruct (bad_block va_ order) eqn:Hb.
    + exists (- EFAULT), s, K, O, D. split; [| split; [by constructor | done]]. unfold vm_mmap.
      unfold VAL_IS_PAGE_ALIGNED. rewrite align_low, u64_small by (try apply Z.mod_pos_bound; lia).
      unfold bad_block in Hb. rewrite (proj2 (Z.eqb_neq v NULL) Hv). cbn [orb]. by rewrite Hb.
    + pose proof (proj1 (bad_block_spec _ _) Hb) as [Hal Ho]. pose proof (pow_order order Ho).
      destruct (vm_mmap_Ok km g stack_after c n osize bsize v N Hpa Hstack s D H O K va_ order prot_ HS Hal H1 Ho ltac:(lia) H3) as (r & s' & E & Hr).
      exists r, s'. destruct Hr as [(-> & Hfull & HS') | (K1 & O1 & HG & [(-> & pg & a & D' & P1 & P2 & P3 & Ha & Hh & HS') | [(-> & Hov & HS') | (-> & HS')]])];
        [exists K, O, D | exists (<[pg := block_page order 1]> K1), O1, D' | exists K1, O1, D ..]; (split; [done |]; split; [| done]).
      * by apply mem_failed; [| constructor].
      * by eapply mem_mapped.
      * by apply mem_failed; [| constructor].
      * by apply mem_failed; [| constructor].
  - destruct (bad_block va_ order) eqn:Hb.
    + exists (- EFAULT), s, K, O, D. split; [| split; [by constructor | done]]. unfold vm_unmap.
      unfold VAL_IS_PAGE_ALIGNED. rewrite align_low, u64_small by (try apply Z.mod_pos_bound; lia).
      rewrite (proj2 (Z.eqb_neq v NULL) Hv). cbn [orb]. unfold bad_block in Hb. destruct (va_ mod 4096 =? 0); [| done]. cbn in Hb |- *.
      mstep (get_vma_Ok s v k (proj1 HA)). unfold gets, bind. rewrite Hb. by destruct (negb (_ =? _)).
    + pose proof (proj1 (bad_block_spec _ _) Hb) as [Hal Ho].
      destruct (unmap_refusal D va_ (4096 * 2 ^ order) VMA_MEMORY) as [err|] eqn:Href.
      * exists err, s, K, O, D. split; [| split; [by constructor | done]].
        apply (vm_unmap_refused km g s v k D HA HN Hff Hco Hv); try done. apply V.
      * destruct (vm_unmap_Ok km g stack_after c n osize bsize v N Hpa s D H O K va_ order HS Hal Hr Ho Href)
          as (s' & D1 & e & D2 & pg & E & -> & E1 & E2 & E3 & E4 & HS').
        exists 0, s', (delete pg K), O, (D1 ++ D2). split; [done |]. split; [by constructor | done].
Qed.

Lemma serve_all_Ok rs s D H O K :
  space_in H O K s D -> Forall proper rs ->
  exists as_ s' K' O' D', serve_all rs s = Ok (as_, s') /\ trace km n H rs as_ (K, O, D) (K', O', D') /\ space_in H O' K' s' D'.
Proof using Hpa Hstack.
  intros HS Hrs. revert s D K O HS. induction Hrs as [|r rs Hr _ IH]; intros s D K O HS.
  { exists [], s, K, O, D. split; [done |]. split; [constructor | done]. }
  destruct (serve_Ok s D H O K r HS Hr) as (a & s1 & K1 & O1 & D1 & E1 & A1 & HS1).
  destruct (IH s1 D1 K1 O1 HS1) as (as_ & s2 & K2 & O2 & D2 & E2 & T2 & HS2).
  exists (a :: as_), s2, K2, O2, D2. split; [cbn [serve_all]; mstep E1; by mstep E2 |]. split; [by econstructor | done].
Qed.

(** The translation of an address space: that of its areas. *)
Definition translated (s : vms) (D : list entry) : Prop :=
  exists k, vmas s !! v = Some k /\ forall a, 0 <= a < 2 ^ 39 -> translate km (bud (mm s)) (hw_pgtable k) a = described D a.

(** Every page is accounted for: [N] pages are free, tables of the address
    space, or in a block of [K], as the slabs of the cache are. *)
Definition accounted (s : vms) (K : gmap Z pageframe) : Prop :=
  exists k tables, vmas s !! v = Some k /\ NoDup tables /\
    (forall q, q ∈ tables <-> in_tree km 2 (memory (bud (mm s))) (hw_pgtable k) q) /\
    rest_pages (bud (mm s)) + Z.of_nat (length tables) + owned K = N.

Lemma space_translated H O K s D : space_in H O K s D -> translated s D.
Proof using.
  intros (oth & l & k & kc & X & _ & _ & [V Hag _ _]). exists k. split; [| exact Hag]. by apply (vo_space _ _ _ _ _ _ _ _ _ _ _ _ _ _ _ _ V).
Qed.
Lemma space_accounted H O K s D : space_in H O K s D -> accounted s K.
Proof using.
  intros (oth & l & k & kc & X & <- & _ & [V _ _ _]). exists k, l.
  pose proof (vm_tables km g c n osize bsize v N s D H oth l k kc X V) as [T _ Hi]. destruct V as [_ _ _ _ (Hv & _) _ _ _ _ _ HT Hc].
  split; [done |]. split; [apply T |]. split; [| exact Hc]. intros q. split; [apply HT | apply Hi].
Qed.

(** C1: the requests on an address space refine their specification.  From a
    state in which the page allocator, the cache of areas, the lists, the tree
    and the page tables are consistent, every sequence of [vm_iomap],
    [vm_iounmap], [vm_mmap] and [vm_unmap] runs to its end without a failed
    assertion, a deadlock or a bad access, successful or not; its answers and
    its effect on the areas, on the blocks in use and on the cache of areas are
    those of the transition system [answers] (refused with the code of the check
    that fails, not added because the area meets another, because memory or
    objects have run out, or carried out; the cache grows by a slab only when
    all its objects are in use); the state is consistent again, every address below 512 GiB
    translates as the area that covers it says and not at all when none does;
    and no page is lost on any path: the pages that are free, those that are
    tables of the address space, and those of the blocks in use, slabs included,
    add up to the same number [N] as before.  The arguments are [proper]: sizes
    are positive, the flags make a valid entry, and a mapping lies below 512 GiB,
    the reach of one root table.  Of a request that is not carried out for want
    of memory, [answers] says what it answers and leaves, not when that happens. *)
Theorem requests_refine rs s D H O K :
  space_in H O K s D -> Forall proper rs ->
  exists as_ s' K' O' D', serve_all rs s = Ok (as_, s') /\ trace km n H rs as_ (K, O, D) (K', O', D') /\
    space_in H O' K' s' D' /\ translated s' D' /\ accounted s' K'.
Proof using Hpa Hstack.
  intros HS Hrs. destruct (serve_all_Ok rs s D H O K HS Hrs) as (as_ & s' & K' & O' & D' & E & T & HS').
  exists as_, s', K', O', D'. do 3 (split; [done |]). split; [by eapply space_translated | by eapply space_accounted].
Qed.

End implementation.

(** A session on the machine of [VmDemo]: two areas are mapped, the first with an
    object of a slab that the cache takes for it, a third would meet the second;
    the first is unmapped, a block of 8 pages is not to be had; three requests
    to unmap find no area, one of another kind, and the second. *)
Definition session : list request :=
  [MemMap 0x10000 0 7; IoMap 0x20000 0x10000000 7 0x1000; MemMap 0x20000 0 7; MemUnmap 0x10000 0; MemMap 0x30000 3 7;
   IoUnmap 0x10000 5; MemUnmap 0x20000 0; IoUnmap 0x20000 0x1000].
Definition answered (r : result (list Z * vms)) : list Z := match r with Ok (l, _) => l | Err _ => [] end.

Lemma session_answers :
  answered (serve_all demo_km demo_g kd_stack kd_vma session kd_state)
  = [0; 0; - EEXIST; 0; - ENOMEM; - ENOBUFS; - EPERM; 0].
Proof. vm_compute. reflexivity. Qed.
Lemma session_proper : Forall proper session.
Proof. repeat constructor; cbn; repeat split; try lia; try done; by vm_compute. Qed.

Lemma requests_refine_witness :
  exists s' K' O' D', serve_all demo_km demo_g kd_stack kd_vma session kd_state
      = Ok ([0; 0; - EEXIST; 0; - ENOMEM; - ENOBUFS; - EPERM; 0], s') /\
    trace demo_km 40 [] session [0; 0; - EEXIST; 0; - ENOMEM; - ENOBUFS; - EPERM; 0] (kd_pages, [], []) (K', O', D') /\
    translated demo_km kd_vma s' D' /\ accounted demo_km kd_vma kd_total s' K'.
Proof.
  destruct (requests_refine demo_km demo_g kd_stack kd_cache 40 96 4096 kd_vma kd_total demo_pa ltac:(cbn; lia) session kd_state [] [] []
    kd_pages kd_state_ok session_proper) as (as_ & s' & K' & O' & D' & E & T & _ & Htr).
  pose proof session_answers as Ha. rewrite E in Ha. cbn [answered] in Ha. subst as_. exists s', K', O', D'. split; [exact E | split; [exact T | exact Htr]].
Defined.

(** ** Isolation *)

Section isolation.
Context (km : kernel_mapping) (g : Z) (c n osize bsize : Z) (v : Z) (N : Z).
Notation space_in := (space_in km g c n osize bsize v N).

(** The block of a memory area. *)
Record owns_block (s : vms) (x : vma_area) (pg : Z) (p : pageframe) : Prop := {
  ob_page : pgfm x = Some pg;
  ob_pa : pa x = PGFRAME_PA_START km + 4096 * pg;
  ob_size : size x = 4096 * 2 ^ buddy_order p;
  ob_at : pgs (bud (mm s)) !! pg = Some p;
  ob_head : is_head p;
  ob_type : pgtype p = PageFrame.VMA_AREA
}.

Lemma memory_block s D H oth l k kc X (e : entry) :
  vm_ok km g c n osize bsize v N s D H oth l k kc X -> areas_ok km (o_pages oth) D -> (e ∈ D) -> vmar_typ e.2 = VMA_MEMORY ->
  exists pg p, owns_block s e.2 pg p.
Proof using.
  intros V Hf He Ht. destruct (ao_area _ _ _ Hf e He) as [_ Hb]. unfold backed in Hb. rewrite Ht in Hb.
  destruct Hb as (pg & p & Hpg & Hr & Epa & HK & Hbk & Ho & _). exists pg, p.
  destruct (vm_kept km g c n osize bsize v N s D H oth l k kc X V pg p HK) as (Hp & _).
  unfold backs in Hbk. rewrite !andb_true_iff, bool_decide_eq_true, !Z.eqb_eq in Hbk. destruct Hbk as [[Hty Hfl] Hsz].
  rewrite order_size_spec in Hsz by apply Ho.
  split; [done | by rewrite Epa, pg2pa_eq by (done || by eapply vm_geometry) | done | done | split; [done | by left] | done].
Qed.

Lemma pages_differ K D (e f : entry) pg :
  areas_ok km K D -> (e ∈ D) -> (f ∈ D) -> pgfm e.2 = Some pg -> pgfm f.2 = Some pg -> e = f.
Proof using.
  intros [_ HN] (D1 & D2 & ->)%list_elem_of_split Hf He Hf'. rewrite pages_of_place, He in HN. cbn in HN.
  apply NoDup_cons in HN as [Hni _]. assert (f = e \/ f ∈ D1 ++ D2) as [-> | Hin] by set_solver; [done |].
  exfalso. apply Hni. apply list_elem_of_omap. by exists f.
Qed.

(** Memory areas are isolated: [a] and [b] are addresses in memory areas. *)
Definition in_memory (D : list entry) (a : Z) : Prop :=
  exists e : entry, (e ∈ D) /\ vmar_typ e.2 = VMA_MEMORY /\ va e.2 <= a < va e.2 + size e.2.

Lemma translate_memory s D H oth l k kc X a :
  vm_ok km g c n osize bsize v N s D H oth l k kc X -> agrees km s k D -> areas_ok km (o_pages oth) D -> in_memory D a ->
  exists e pg p f, (e ∈ D) /\ owns_block s e.2 pg p /\ va e.2 <= a < va e.2 + size e.2 /\
    translate km (bud (mm s)) (hw_pgtable k) a = Some (PGFRAME_PA_START km + 4096 * pg + (a - va e.2), f).
Proof using.
  intros V Hag Hf (e & He & Ht & Ha). destruct (memory_block s D H oth l k kc X e V Hf He Ht) as (pg & p & Ob).
  exists e, pg, p, (prot e.2 mod 2 ^ 10). do 3 (split; [done |]). pose proof He as (D1 & D2 & ->)%list_elem_of_split.
  destruct (ao_area _ _ _ Hf e He) as [Hx _]. apply hw_area_va in Hx.
  rewrite Hag by lia. rewrite (proj1 (described_area km g c n osize bsize v N s D1 e D2 H oth l k kc X V a)), decide_True by done.
  by rewrite (ob_pa _ _ _ _ Ob).
Qed.

(** What isolation means in the state [s] with the areas [D]: every address of
    a memory area translates; two different ones, of the same area or not, to
    different physical addresses; these lie in the managed memory, in no page
    table of the address space, and in no block that is free or in other use. *)
Definition isolated (s : vms) (D : list entry) : Prop :=
  exists k, vmas s !! v = Some k /\
    let tr := translate km (bud (mm s)) (hw_pgtable k) in
    (forall a, in_memory D a -> is_Some (tr a)) /\
    (forall a b p q f h, in_memory D a -> in_memory D b -> a <> b -> tr a = Some (p, f) -> tr b = Some (q, h) -> p <> q) /\
    (forall a p f, in_memory D a -> tr a = Some (p, f) ->
       PGFRAME_PA_START km <= p < PGFRAME_PA_START km + 4096 * PGFRAME_PAGE_NUMS km /\
       (forall q, in_tree km 2 (memory (bud (mm s))) (hw_pgtable k) q -> ~ (va2pa km q <= p < va2pa km q + 4096)) /\
       (forall y d, pgs (bud (mm s)) !! y = Some d -> is_head d -> pgtype d <> PageFrame.VMA_AREA ->
          ~ (PGFRAME_PA_START km + 4096 * y <= p < PGFRAME_PA_START km + 4096 * (y + 2 ^ buddy_order d)))).

Lemma space_isolated s D H O K : space_in H O K s D -> isolated s D.
Proof using.
  intros (oth & l & k & kc & X & _ & _ & [V Hag Hf _]). exists k.
  split; [apply (vo_space _ _ _ _ _ _ _ _ _ _ _ _ _ _ _ _ V) |]. intros tr.
  pose proof (vm_tables km g c n osize bsize v N s D H oth l k kc X V) as [T _ Hi]. pose proof (tp_wf _ _ _ _ _ T) as (G & _ & L & I).
  pose proof (inv_blocks _ _ _ _ _ _ _ _ _ I) as Hbl.
  assert (forall a, in_memory D a -> exists e pg p f, (e ∈ D) /\ owns_block s e.2 pg p /\ va e.2 <= a < va e.2 + size e.2 /\
    tr a = Some (PGFRAME_PA_START km + 4096 * pg + (a - va e.2), f)) as Htr by (intros a; by apply (translate_memory s D H oth l k kc X)).
  split; [| split].
  - intros a (e & pg & p & f & _ & _ & _ & E)%Htr. by rewrite E.
  - intros a b p q f h (e & pg & d & f1 & He & [O1 _ O3 O4 O5 _] & Ha & E)%Htr (e' & pg' & d' & f2 & He' & [Q1 _ Q3 Q4 Q5 _] & Hb & E')%Htr Hne.
    rewrite E, E'. intros [= <- <-] [= <- <-]. destruct (decide (pg = pg')) as [<- | Hpg].
    + assert (e = e') as <- by by eapply pages_differ. lia.
    + destruct (decide (pg < pg')).
      * pose proof (heads_disjoint _ _ _ _ _ _ Hbl O4 O5 Q4 Q5 ltac:(lia)). lia.
      * pose proof (heads_disjoint _ _ _ _ _ _ Hbl Q4 Q5 O4 O5 ltac:(lia)). lia.
  - intros a p f (e & pg & d & f1 & He & [O1 _ O3 O4 O5 O6] & Ha & E)%Htr. rewrite E. intros [= <- <-].
    pose proof (head_range _ _ _ _ _ Hbl O4 O5) as Hr. split; [lia |].
    split; [intros q Hq | intros y py Hpy Hhy Hty; assert (y <> pg) as Hne by (intros ->; congruence);
      destruct (decide (y < pg)); [pose proof (heads_disjoint _ _ _ _ _ _ Hbl Hpy Hhy O4 O5 ltac:(lia)) |
        pose proof (heads_disjoint _ _ _ _ _ _ Hbl O4 O5 Hpy Hhy ltac:(lia))]; lia].
    destruct (tp_pages _ _ _ _ _ T q (Hi q Hq)) as (y & -> & Hy & Hal).
    destruct (allocated_head _ _ _ Hal order_0) as (py & Hpy & Hhy & Eo & _ & Hty).
    assert (va2pa km (pg2va km y) = PGFRAME_PA_START km + 4096 * y) as ->.
    { rewrite (pg2va_eq km G) by done. apply (va2pa_eq km G). lia. }
    assert (y <> pg) as Hne by (intros ->; congruence). destruct (decide (y < pg)).
    + pose proof (heads_disjoint _ _ _ _ _ _ Hbl Hpy Hhy O4 O5 ltac:(lia)) as Hd. rewrite Eo in Hd. change (2 ^ 0) with 1 in Hd. lia.
    + pose proof (heads_disjoint _ _ _ _ _ _ Hbl O4 O5 Hpy Hhy ltac:(lia)). lia.
Qed.

(** The area that is there before and after translates in the same way. *)
Lemma space_keeps s s' D D' H H' O O' K K' (e : entry) : space_in H O K s D -> space_in H' O' K' s' D' ->
  (e ∈ D) -> (e ∈ D') -> exists k k', vmas s !! v = Some k /\ vmas s' !! v = Some k' /\
    forall a, va e.2 <= a < va e.2 + size e.2 ->
      translate km (bud (mm s')) (hw_pgtable k') a = translate km (bud (mm s)) (hw_pgtable k) a.
Proof using.
  intros (oth & l & k & kc & X & _ & _ & [V Hag Hf _]) (oth' & l' & k' & kc' & X' & _ & _ & [V' Hag' Hf' _]) He He'.
  exists k, k'. split; [apply (vo_space _ _ _ _ _ _ _ _ _ _ _ _ _ _ _ _ V) |]. split; [apply (vo_space _ _ _ _ _ _ _ _ _ _ _ _ _ _ _ _ V') |].
  intros a Ha. destruct (ao_area _ _ _ Hf e He) as [Hx _]. apply hw_area_va in Hx. rewrite Hag, Hag' by lia.
  pose proof He as (D1 & D2 & ->)%list_elem_of_split. pose proof He' as (E1 & E2 & ->)%list_elem_of_split.
  rewrite (proj1 (described_area km g c n osize bsize v N s D1 e D2 H oth l k kc X V a)),
    (proj1 (described_area km g c n osize bsize v N s' E1 e E2 H' oth' l' k' kc' X' V' a)). by rewrite !decide_True by done.
Qed.

(** C2: requests keep the memory areas of an address space isolated.  From a
    state in which the page allocator, the cache of areas, the lists, the tree
    and the page tables are consistent ([space_in]), after any sequence of
    [vm_iomap], [vm_iounmap], [vm_mmap] and [vm_unmap] with proper arguments,
    carried out or refused, two different addresses that lie in memory areas,
    the same or different ones, translate to different physical addresses; these
    lie in the managed memory, in no page table of the address space and in no
    block that is free, a slab or otherwise not an area's: a program cannot reach
    another area's memory, the page tables or the kernel's through a memory area.
    An area that is there before and after the requests translates as before. *)
Theorem memory_isolated (stack_after : list Z) (Hpa : PGFRAME_PA_START km + PGFRAME_SIZE km <= 2 ^ 56)
    (Hstack : (3 <= length stack_after)%nat) rs s D H O K :
  space_in H O K s D -> Forall proper rs ->
  exists as_ s' K' O' D', serve_all km g stack_after v rs s = Ok (as_, s') /\
    trace km n H rs as_ (K, O, D) (K', O', D') /\ isolated s' D' /\
    forall e : entry, (e ∈ D) -> (e ∈ D') -> exists k k', vmas s !! v = Some k /\ vmas s' !! v = Some k' /\
      forall a, va e.2 <= a < va e.2 + size e.2 ->
        translate km (bud (mm s')) (hw_pgtable k') a = translate km (bud (mm s)) (hw_pgtable k) a.
Proof using.
  intros HS Hrs. destruct (serve_all_Ok km g stack_after c n osize bsize v N Hpa Hstack rs s D H O K HS Hrs)
    as (as_ & s' & K' & O' & D' & E & T & HS'). exists as_, s', K', O', D'. do 2 (split; [done |]).
  split; [by eapply space_isolated |]. intros e. by eapply space_keeps.
Qed.
End isolation.

(** Two areas of a page each, side by side. *)
Definition two_areas : list request := [MemMap 0x10000 0 7; MemMap 0x11000 0 7].
Lemma two_areas_answers : answered (serve_all demo_km demo_g kd_stack kd_vma two_areas kd_state) = [0; 0].
Proof. vm_compute. reflexivity. Qed.
Lemma mapped_inv km n H va_ order prot_ K O D w' : answers km n H (MemMap va_ order prot_) 0 (K, O, D) w' ->
  exists pg a K' O' D', w' = (K', O', D') /\ hang_spec (a, mem_area km va_ order prot_ pg) D = Some D'.
Proof.
  inversion 1 as [| | | | | | ? ? ? ? ? ? ? _ Hn | ? ? ? pg a ? ? K' O' ? D' _ _ _ _ _ _ Hh | | |]; subst; [by inversion Hn |].
  by eexists pg, a, _, _, _.
Qed.
Lemma two_areas_left K O K' O' D' : trace demo_km 40 [] two_areas [0; 0] (K, O, []) (K', O', D') ->
  in_memory D' 0x10000 /\ in_memory D' 0x11000.
Proof.
  unfold two_areas. intros T. inversion T as [| ? ? ? ? ? ? ? A1 T1]; subst. inversion T1 as [| ? ? ? ? ? ? ? A2 T2]; subst.
  inversion T2; subst.
  apply mapped_inv in A1 as (pg & a & K1 & O1 & D1 & -> & [= <-]).
  apply mapped_inv in A2 as (pg2 & a2 & K2 & O2 & D2 & [= -> -> ->] & [= <-]).
  split; eexists; (split; [|]); [by left | split; [done | cbn; lia] | by right; left | split; [done | cbn; lia]].
Qed.

(** An address of each. *)
Lemma memory_isolated_witness :
  exists s k p q f h, serve_all demo_km demo_g kd_stack kd_vma two_areas kd_state = Ok ([0; 0], s) /\
    vmas s !! kd_vma = Some k /\
    translate demo_km (bud (mm s)) (hw_pgtable k) 0x10000 = Some (p, f) /\
    translate demo_km (bud (mm s)) (hw_pgtable k) 0x11000 = Some (q, h) /\ p <> q.
Proof.
  destruct (memory_isolated demo_km demo_g kd_cache 40 96 4096 kd_vma kd_total kd_stack demo_pa ltac:(cbn; lia) two_areas
    kd_state [] [] [] kd_pages kd_state_ok) as (as_ & s & K & O & D & E & T & (k & Hk & T1 & T2 & _) & _);
    [repeat constructor; cbn; repeat split; try lia; done |].
  pose proof two_areas_answers as Ha. rewrite E in Ha. cbn [answered] in Ha. subst as_.
  destruct (two_areas_left _ _ _ _ _ T) as [H1 H2].
  destruct (T1 _ H1) as [[p f] Ep], (T1 _ H2) as [[q h] Eq]. exists s, k, p, q, f, h.
  do 4 (split; [done |]). by apply (T2 0x10000 0x11000 p q f h).
Defined.
