(* ===== verification/VmFree.v ===== *)
(** * Giving back an address space: [vma_free]

    All areas of an address space are unlinked and unmapped one by one, their
    objects and blocks go back, and then the tables below its root table. *)
From S2P Require Import Prelude DList Cpu Locks KernelMap PageFrame Buddy Slab SlabSpec CacheSpec Avl AvlSpec Sv39 Sv39Pte Sv39Tree Sv39Map Sv39Unmap Sv39Spec Sv39Free KernelSpec BlockSpec GrowSpec VmaArea Vm VmaSpec VmSpec SpaceSpec VmMapSpec VmMemSpec VmDemo VmRequests.

(** ** The blocks left when areas go *)

Definition drop_block (K : gmap Z pageframe) (e : entry) : gmap Z pageframe :=
  match pgfm e.2 with Some pg => delete pg K | None => K end.
Definition blocks_left (K : gmap Z pageframe) (D : list entry) : gmap Z pageframe := fold_left drop_block D K.

Section release.
Context (km : kernel_mapping) (g : Z) (stack_after : list Z).
Context (c n osize bsize : Z) (v : Z) (N : Z).
Context (Hpa : PGFRAME_PA_START km + PGFRAME_SIZE km <= 2 ^ 56).
Notation vm_ok := (vm_ok km g c n osize bsize v N).
Notation agrees := (agrees km).
Notation objects := (CacheSpec.objects n osize).
Notation space_in := (space_in km g c n osize bsize v N).

(** Each kind of area has its callback. *)
Lemma area_uncallback K (e : entry) D1 D2 : areas_ok km K (D1 ++ e :: D2) ->
  uncallback_ok km g c n osize bsize v N K (drop_block K e) e /\ areas_ok km (drop_block K e) (D1 ++ D2).
Proof using Hpa.
  intros HA. pose proof (ao_area _ _ _ HA e ltac:(set_solver)) as [Ha Hb]. split.
  - unfold drop_block. destruct (vmar_typ e.2) eqn:Ht; pose proof Hb as Hb'; unfold backed in Hb'; rewrite Ht in Hb'.
    + rewrite Hb'. apply device_uncallback; auto.
    + rewrite Hb'. apply device_uncallback; auto.
    + destruct Hb' as (pg & p & Hpg & _). rewrite Hpg. by apply memory_uncallback.
    + done.
  - apply (areas_ok_drop km K _ D1 e D2); [done |]. intros pg Hpg. unfold drop_block.
    destruct (pgfm e.2) as [q|]; [| done]. rewrite lookup_delete_ne; [done | congruence].
Qed.

(** ** The areas *)

(** What the loop still has before it: the areas [D], of an address space whose
    lock is [w] and whose root table is [t]; [K] is left in the end. *)
Definition releasing (H O : list Z) (K : gmap Z pageframe) (w : rwlock_t) (t : Z) (s : vms) (D : list entry) : Prop :=
  exists oth l k kc X, vm_ok s D H oth l k kc X /\ agrees s k D /\ areas_ok km (o_pages oth) D /\
    blocks_left (o_pages oth) D = K /\ rwlk k = w /\ hw_pgtable k = t /\ objects X ≡ₚ O.

Lemma release_area H O K w t s (e : entry) D :
  releasing H O K w t s (e :: D) ->
  exists s', (vma_area_unhang v (of_l_node (lnode_of e));;
     a ← get_area (of_l_node (lnode_of e));
     hw_unmap_callbacks km g (vmar_typ a) v (of_l_node (lnode_of e));;
     cache ← gets vma_area_cache;
     obj_free km cache (of_l_node (lnode_of e));;
     ret (Next (R := unit) tt) : M vms (step unit unit))%aco s = Ok (Next tt, s') /\ releasing H O K w t s' D.
Proof using Hpa stack_after.
  intros (oth & l & k & kc & X & V & Hag & HA & HK & Hw & Ht & Hl).
  replace (of_l_node (lnode_of e)) with e.1 by (unfold of_l_node, lnode_of, l_node; lia).
  destruct (area_uncallback _ e [] D HA) as [Hcb HA']. cbn [app] in HA'.
  destruct (area_unhang km g c n osize bsize v N s [] e D H oth l k kc X V)
    as (s2 & r2 & oth2 & E2 & V2 & Hdet & Hfr & Ep2 & Em2 & _). mstep E2.
  mstep (get_area_Ok s2 e.1 e.2 (proj1 Hdet)).
  destruct (Hcb s2 [] D H oth2 l _ kc X V2 Hfr) as (s3 & oth3 & l3 & E3 & V3 & Hfr3 & Ha3 & Ep3);
    [by eapply (agrees_mem km s) | by eapply (described_area km g c n osize bsize v N s []) | apply Hdet | done | done |].
  mstep E3. unfold gets at 1, bind at 1. rewrite (vo_cache _ _ _ _ _ _ _ _ _ _ _ _ _ _ _ _ V3).
  destruct (area_free km g stack_after c n osize bsize v N s3 D e.1 H oth3 l3 _ kc X V3 Hfr3)
    as (m' & oth' & kc' & X' & E & V' & Em & Ep & Eo). mstep E.
  eexists. split; [done |]. exists oth', l3, (with_root r2 k), kc', X'. rewrite Ep, Ep3. split; [done |].
  split; [by apply (agrees_mem km s3) |]. do 4 (split; [done |]). by rewrite Eo.
Qed.

Lemma free_areas_Ok H O K w t s D :
  releasing H O K w t s D -> exists s', free_areas km g v s = Ok (tt, s') /\ releasing H O K w t s' [].
Proof using Hpa stack_after.
  intros HR. pose proof HR as (oth & l & k & kc & X & V & _).
  destruct (vo_space _ _ _ _ _ _ _ _ _ _ _ _ _ _ _ _ V) as (_ & _ & Hd & _).
  unfold free_areas. mstep (on_heap_Ok _ s _ _ (get_next_Ok _ _ _ (dlist_first _ _ _ Hd))).
  replace (set_list_mem (list_mem s) s) with s by by destruct s as [[[[] ] ] ].
  unfold gets at 1, bind at 1.
  destruct (list_for_each_safe_ind (A := unit) (R := unit) list_mem (l_list v)
    (fun _ iterator => vma_area_unhang v (of_l_node iterator);;
       a ← get_area (of_l_node iterator);
       hw_unmap_callbacks km g (vmar_typ a) v (of_l_node iterator);;
       cache ← gets vma_area_cache;
       obj_free km cache (of_l_node iterator);;
       ret (Next tt))
    (fun rest _ s => exists D, rest = map lnode_of D /\ releasing H O K w t s D) (fun _ _ => False))
    with (rest := map lnode_of D) (fuel := list_fuel (list_mem s)) (a := tt) (s := s) as (r & s' & E & Hr).
  - intros x rest [] s1 ([|e D1] & Ex & HR1); [done |]. injection Ex as -> ->.
    pose proof HR1 as (oth1 & l1 & k1 & kc1 & X1 & V1 & _).
    destruct (vo_space _ _ _ _ _ _ _ _ _ _ _ _ _ _ _ _ V1) as (_ & _ & Hd1 & _).
    destruct (dlist_next _ _ [] _ _ Hd1) as [Hn Hne]. split; [done |]. split; [done |].
    destruct (release_area H O K w t s1 e D1 HR1) as (s2 & E2 & HR2). exists (Next tt), s2. split; [exact E2 |]. by exists D1.
  - intros [] s1 ([|e D1] & Ex & HR1); [| done]. pose proof HR1 as (oth1 & l1 & k1 & kc1 & X1 & V1 & _).
    destruct (vo_space _ _ _ _ _ _ _ _ _ _ _ _ _ _ _ _ V1) as (_ & _ & Hd1 & _). eapply dlist_dom; [exact Hd1 | by left].
  - by apply (dlist_length _ _ _ Hd).
  - by exists D.

  - mstep E. destruct r as [[] | []]; [| done]. destruct Hr as ([|e D1] & Ex & HR1); [| done]. by exists s'.
Qed.

(** ** The tables *)

(** Only the root table is left, and it maps nothing. *)
Record emptied (s : vms) (k : vma) : Prop := {
  em_vma : vmas s !! v = Some k;
  em_none : forall a, translate km (bud (mm s)) (hw_pgtable k) a = None;
  em_root : forall q, in_tree km 2 (memory (bud (mm s))) (hw_pgtable k) q <-> q = hw_pgtable k
}.

Lemma release_Ok H O K s D :
  space_in H O K s D ->
  exists s' k, release_space km g v s = Ok (tt, s') /\ space_in H O (blocks_left K D) s' [] /\ emptied s' k /\
    rest_pages (bud (mm s')) + 1 + owned (blocks_left K D) = N.
Proof using Hpa stack_after.
  intros (oth & l & k & kc & X & <- & HO & [V Hag Hf [Hco Hff]]).
  pose proof (vo_space _ _ _ _ _ _ _ _ _ _ _ _ _ _ _ _ V) as HA.
  unfold release_space. mstep (rwlk_take s v k WriterBr (proj1 HA) Hff).
  pose proof (vm_ok_held km g c n osize bsize v N _ _ _ _ _ _ _ _ WriterBr V) as V1.
  destruct (free_areas_Ok H O (blocks_left (o_pages oth) D) (rwlk (held WriterBr k)) (hw_pgtable k) (put_vma v (held WriterBr k) s) D)
    as (s1 & E1 & oth1 & l1 & k1 & kc1 & X1 & V2 & _ & Hf2 & HK & Hw & Ht & Hl2).
  { by exists oth, l, (held WriterBr k), kc, X. }
  mstep E1. pose proof (vo_space _ _ _ _ _ _ _ _ _ _ _ _ _ _ _ _ V2) as HA2. mstep (get_vma_Ok s1 v k1 (proj1 HA2)).
  destruct (hw_unmap_all_Ok km g oth1 _ _ _ (vm_tables km g c n osize bsize v N s1 [] H oth1 l1 k1 kc1 X1 V2) Hpa)
    as (T & l' & E3 & S' & Hnone & Hin & Hc & _).
  pose proof (vo_tight _ _ _ _ _ _ _ _ _ _ _ _ _ _ _ _ V2) as HT.
  assert (forall q, q ∈ l' <-> q = hw_pgtable k1) as Hroot.
  { intros q. rewrite Hin. split; [intros [Hq [-> | Hn]]; [done | by destruct Hn; apply HT] |].
    intros ->. split; [| by left]. apply (sp_in _ _ _ _ _ (vm_tables km g c n osize bsize v N s1 [] H oth1 l1 k1 kc1 X1 V2)), in_tree_root. }
  assert (tight km T l' (hw_pgtable k1)) as HT' by (intros q ->%Hroot; apply in_tree_root).
  assert (l' = [hw_pgtable k1]) as El.
  { apply Permutation_singleton_r. apply NoDup_Permutation; [apply (tp_nodup _ _ _ _ _ (sp_own _ _ _ _ _ S')) | apply NoDup_singleton |].
    intros q. by rewrite Hroot, list_elem_of_singleton. }
  erewrite bind_Ok; [| apply on_pages_Ok; exact E3].
  assert (vm_ok (at_pages T s1) [] H oth1 l' k1 kc1 X1) as V3 by (eapply area_tables; [exact V2 | done | done | lia]).
  assert (agrees (at_pages T s1) k1 []) as Hag3 by (intros a _; apply Hnone).
  pose proof (vo_count _ _ _ _ _ _ _ _ _ _ _ _ _ _ _ _ V3) as HN.
  rewrite (unlock_Ok v (at_pages T s1) k1 WriterBr (rwlk k)) by (done || by apply HA2).
  exists (put_vma v (with_lock (rwlk k) k1) (at_pages T s1)), (with_lock (rwlk k) k1). split; [done |]. split; [| split].
  - exists oth1, l', (with_lock (rwlk k) k1), kc1, X1. split; [exact HK |]. split; [exact Hl2 |].
    split; [by apply vm_ok_lock | exact Hag3 | exact Hf2 | done].
  - split; [apply lookup_insert_eq | exact Hnone |]. intros q. rewrite <-Hroot. split; [apply (sp_in _ _ _ _ _ S') | apply HT'].
  - rewrite El in HN. rewrite <-HK. exact HN.
Qed.

(** C3: [vma_free] gives an address space back.  The kernel's own one it leaves
    alone.  Of any other, with any areas of devices and of memory, every step
    runs: the areas are unlinked and unmapped one by one, their objects go back
    to the cache, the blocks of memory areas and all tables below the root
    table to the page allocator, and nothing translates any more.  What is
    left to do is to clear the vma and give its object back.  No page is lost
    up to there but one: of the [N] pages, all are free again that are neither
    in a block of others nor the root table, which nobody gives back. *)
Theorem vma_free_gives_back s D H O K :
  space_in H O K s D ->
  (v = kern_vma s /\ vma_free km g v s = Ok (tt, s)) \/
  (v <> kern_vma s /\ exists s' k, vma_free km g v s = discard_space km v s' /\
     space_in H O (blocks_left K D) s' [] /\ emptied s' k /\
     rest_pages (bud (mm s')) + 1 + owned (blocks_left K D) = N).
Proof using Hpa stack_after.
  intros HS. pose proof HS as (oth & l & k & kc & X & _ & _ & [V _ _ _]).
  pose proof (vo_space _ _ _ _ _ _ _ _ _ _ _ _ _ _ _ _ V) as HA.
  pose proof (space_vma _ _ _ _ _ _ _ _ _ _ _ _ _ HS) as Hv.
  destruct (decide (v = kern_vma s)) as [Hk | Hk]; [left | right]; (split; [done |]).
  - unfold vma_free. rewrite (proj2 (Z.eqb_neq v NULL) Hv). unfold gets at 1, bind at 1. by rewrite (proj2 (Z.eqb_eq _ _) Hk).
  - destruct (release_Ok H O K s D HS) as (s' & k' & E & HR). exists s', k'. split; [| done].
    unfold vma_free. rewrite (proj2 (Z.eqb_neq v NULL) Hv). unfold gets at 1, bind at 1. rewrite (proj2 (Z.eqb_neq _ _) Hk). mstep (get_vma_Ok s v k (proj1 HA)).
    rewrite (vo_kern _ _ _ _ _ _ _ _ _ _ _ _ _ _ _ _ V), Z.eqb_refl. cbn [negb]. by mstep E.
Qed.
End release.

(** On the machine of [VmDemo], two mapped areas are given back: five pages were
    free before, and four are again, as the cache of areas keeps its slab. *)
Definition filled : list request := [MemMap 0x10000 0 7; IoMap 0x20000 0x10000000 7 0x1000].
Definition kern_after (r : result (list Z * vms)) : Z := match r with Ok (_, s) => kern_vma s | Err _ => 0 end.
Lemma filled_kern : kern_after (serve_all demo_km demo_g kd_stack kd_vma filled kd_state) = kd_kern.
Proof. vm_compute. reflexivity. Qed.
Lemma filled_released :
  match (as_ ← serve_all demo_km demo_g kd_stack kd_vma filled; release_space demo_km demo_g kd_vma;; ret as_)%aco kd_state with
  | Ok (as_, s) => as_ = [0; 0] /\ rest_pages (bud (mm s)) = 4
  | Err _ => False
  end.
Proof. vm_compute. done. Qed.

Lemma vma_free_gives_back_witness :
  exists s s' k, vma_free demo_km demo_g kd_vma s = discard_space demo_km kd_vma s' /\ emptied demo_km kd_vma s' k.
Proof.
  destruct (serve_all_Ok demo_km demo_g kd_stack kd_cache 40 96 4096 kd_vma kd_total demo_pa ltac:(cbn; lia) filled kd_state [] [] [] kd_pages kd_state_ok)
    as (as_ & s & K & O & D & E & T & HS).
  { repeat constructor; cbn; repeat split; try lia; try done; by vm_compute. }
  destruct (vma_free_gives_back demo_km demo_g kd_stack kd_cache 40 96 4096 kd_vma kd_total demo_pa s D [] O K HS)
    as [[Hk _] | (_ & s' & k & E' & _ & Hem & _)]; [exfalso | exists s, s', k; split; [exact E' | exact Hem]].
  pose proof filled_kern as Hf. rewrite E in Hf. cbn in Hf. rewrite Hf in Hk. discriminate Hk.
Defined.
